(* ===== verification/_CoqProject ===== *)
-Q . S2P
Prelude.v
Irq.v
GoldfishInterrupt.v
AesTables.v
Aes.v
AesSpec.v
AesProofs.v
AesCbc.v
GuestMem.v
GuestPhys.v
GoldfishDevice.v
Savevm.v
GoldfishTty.v
QemuTimer.v
GoldfishTimer.v
GoldfishBattery.v
Gsm.v
Snapshot.v
RamSave.v
BoardSnapshot.v
HostFile.v
Block.v
RawPosix.v
GoldfishMmc.v
GoldfishNand.v
GoldfishEvents.v
ArmCpu.v
ArmArith.v
Tcg.v
ArmTranslate.v
ArmManual.v
ArmData.v
ArmBlock.v
ArmArch.v
TbCache.v
TbInvalidate.v
CpuExec.v
CpuLoop.v
ArmMmu.v
SoftMmu.v
ArmCp15.v
ArmSave.v
