(* ===== verification/Prelude.v ===== *)
(** * Verification of the Android emulator

    The program is the Android emulator: QEMU with the "goldfish" virtual
    platform.  A translated ARM CPU runs the guest; the guest reaches memory
    through a soft MMU and devices through memory-mapped registers; devices
    reach the guest through interrupt lines and through guest memory; host code
    (a character device, a timer, the control console, the modem) drives the
    devices from the other side, and the whole state can be saved to and
    restored from a snapshot file.

    ** The parts and the files that model them

    - [Prelude]: the [res] monad (a result, [Abort] for a call of [cpu_abort] or
      [abort], [Undef] for behaviour C leaves undefined, such as a store outside
      an array), 32- and 64-bit wrap-around, bit lemmas, arrays, tactics and the
      hint databases.
    - [Irq]: hw/irq.c, hw/arm_pic.c and the interrupt request word of exec.c.
      A line is a handler, its opaque argument and a number; an operation on a
      line changes a world [W] that the lines' owner chooses, so the same
      definitions serve the CPU pins and the controller's inputs.
    - [GoldfishInterrupt]: hw/goldfish_interrupt.c.  The controller's inputs are
      lines in the sense of [Irq]; its outputs are the two CPU pins.
    - [GuestMem]: the accesses of exec.c that the devices use
      ([cpu_memory_rw_debug], [cpu_physical_memory_rw],
      [cpu_physical_memory_write_rom], [qemu_get_ram_ptr]) with the physical
      page map and the list of RAM blocks.  The class [GuestMemory] states what
      they promise to a device and [exec_guest_memory] discharges it.
      [GuestPhys]: the same class for devices that address physical memory.
    - [GoldfishDevice]: hw/goldfish_device.c (allocation of addresses and
      lines, the enumeration registers of the bus) and the devices that
      hw/android_arm.c creates.
    - [GoldfishTty], [GoldfishTimer], [GoldfishBattery] (battery and switches),
      [GoldfishNand], [GoldfishEvents], [GoldfishMmc]: the device files of the
      same names under hw/.  They are clients of [Irq], [GuestMemory] and
      [Savevm].
    - [HostFile]: a host file as the emulator sees it through the system calls.
      [Block]: the requests of block.c over any driver, by the class
      [BlockImage]; [RawPosix]: the raw images of block/raw-posix.c, an
      instance of it.  [GoldfishMmc] stores its card through them.
    - [QemuTimer]: the timer lists of vl-android.c, on which [GoldfishTimer]
      stands.
    - [Savevm]: [QEMUFile] of savevm.c over a standard file, and the field
      lists.  [Snapshot]: the registered sections of savevm.c and the order in
      which they are saved and loaded.  [RamSave]: the RAM section of
      vl-android.c, page by page.  [BoardSnapshot]: the sections of the
      modelled devices together.
    - [AesTables], [Aes]: aes.c; [AesSpec]: FIPS-197 written from the
      definition of the field GF(2^8); [AesProofs], [AesCbc]: their relation.
    - [Gsm]: the text codecs of telephony/gsm.c.
    - [ArmCpu]: the state of target-arm/cpu.h, the status register, modes with
      their banked registers, and exceptions (target-arm/helper.c).
    - [ArmMmu]: the page table walks and protection units of helper.c.
      [SoftMmu]: the TLB of exec.c and the loads and stores of
      softmmu_template.h and softmmu_header.h that use it.  [ArmCp15]: the
      system control registers, which change what the MMU does.
    - [ArmSave]: reset and the processor's section in a snapshot
      (target-arm/machine.c).
    - [ArmArith]: the integer helpers of op_helper.c, helper.c and op_addsub.h.
    - [Tcg]: the operations of tcg/tcg-op.h that the front end emits, a machine
      that runs them as tcg/README documents, and the temporaries of
      target-arm/translate.c.  [ArmTranslate]: the front end of translate.c for
      conditions, data processing, branches and supervisor calls, and the loop
      that makes a block; then, as [ref_insn], what these instructions do
      without code and temporaries.  [ArmManual]: the instructions as the
      architecture manual defines them, the predicate [departs] for those that
      the front end makes different, and the proof that [ref_insn] is the
      manual everywhere else.  [ArmData], [ArmBlock]: the relation of the code
      to both.
    - [TbCache]: the cache of translated blocks of exec.c and exec-all.h: the
      array of blocks, the hash table by physical address, the jump cache, the
      lists of pages and the circular lists of direct jumps.  A pointer to a
      block is its index.  [TbInvalidate]: invalidation and unlinking.
    - [CpuExec]: the main loop of cpu-exec.c with the lookup and translation of
      blocks, as a machine whose steps are the parts of the loop between two
      points where a signal may come in; the signals are [vm_event].
      [ArmArch]: the processor that stands against it, which executes
      [ref_insn] after [ref_insn], with the same events.  [CpuLoop]: their relation.

    ** What the theorems show

    - Translation: running the code made of a block does to the processor what
      the manual says its instructions do one after the other ([ArmBlock]),
      where the manual defines them and none departs from it (a rotation by a
      register of 32 or more without flags, a return from an exception other
      than SUBS and MOVS, a jump address with bit 1 set); on
      the way, the code of a condition branches exactly when it holds, the
      arithmetic helpers are the manual's [AddWithCarry], the shifts by
      register are right for every amount, and saturation clamps the exact
      result.  The generator's eight temporaries are enough.
    - Main loop: whatever interrupt requests, exit requests and changes of the
      memory map come in between, [cpu_exec] shows the registers of a processor
      that executes one instruction after the other ([CpuLoop]): the cache
      never hands out a stale block, and a patched jump leads where the
      instruction does.  No step is undefined, and an exit request is honoured
      within four steps.  Unlinking ends and clears every block that may be
      running; invalidation leaves all the lists intact for the other blocks
      and nothing that leads to the one that is gone ([TbInvalidate]).
    - Processor: a write of the status register reads back and switches banks
      without loss, an exception and its return restore every register.
    - Memory management, on a processor with an MMU: a walk gives the same
      answer over each 1 KB piece and ends; whatever loads, fetches, stores
      outside the page tables, flushes and register writes other than of the
      table bases follow each other, the read and write tags of the TLB agree
      with the page tables and its code tags are its read tags ([coherent]);
      so a load returns and a store changes exactly the bytes that the page
      tables put at an address, and every load and fetch ends.  The code tags
      are not the walks of fetches: [execute_never_lost] shows the difference.
    - Interrupts: over every sequence of line changes and guest accesses the
      controller's pending count is the number of asserted enabled lines and the
      CPU's interrupt pin is high exactly when it is not zero; the status and
      number registers report it.
    - Memory: a transfer of any length that crosses pages is one write of the
      flat address space seen by the guest.
    - Bus: every device is announced to the guest exactly once, in order; the
      board's devices have disjoint addresses and lines.
    - Serial port and events: their buffers are queues (what arrives is what the
      guest reads, for the port what it finds in its memory, in order) and their lines are high exactly when there is
      something to read.
    - Flash: the device is an array of bytes with reads, writes and erasures
      clipped to its size, as long as its file covers it and the host's calls
      do no worse than being interrupted.
    - Disks: requests of bytes to a raw image, of any alignment, act on an
      array of bytes; what the guest writes to the SD card it reads back, and
      it learns the size of the card.
    - Timers: the lists stay sorted, running a clock calls every due timer once
      and terminates for callbacks that re-arm in the future; on top of this a
      guest alarm rings at its time.
    - Snapshots: what is put in a file is got from it, across buffer
      boundaries; saving all sections and loading them restores every one of
      them; RAM, devices and processor come back.
    - AES: key schedules and block functions agree with FIPS-197, decryption
      inverts encryption for every key and block, and CBC does for every length.
    - GSM: hexadecimal, UTF-8, UCS-2 and 7-bit packing round trips.
    - Where the code does not do what it means to, a theorem or an example
      shows what it does instead.

    ** Bounds and fuel

    Integers are [Z] with their width written out ([u8], [u32], [s32], [u64]).
    Recursion that follows a C loop takes fuel only where it is not structural:
    page loops use the length of the transfer (every round moves at least one
    byte), [first_pending] the 32 lines, [clz_loop] the 32 bits, the AES loops
    their number of rounds, [invert_order] the number of words, buffer and flash
    loops the number of bytes, [shuffle] the number of slots to move, an access
    through the TLB six rounds (it may be split once and each half filled
    once, which [softmmu_load_ends] proves enough), the lists of blocks their
    greatest length ([jmp_fuel], twice the number of blocks for jumps and pages,
    that number for a hash bucket; unlinking, one call for each jump), which the
    well-formedness of the lists proves enough.  For the loops that may not
    end ([put_struct_loop], [bcdnum_to_ascii_loop], [qemu_run_timers], a store
    that the protection unit keeps refusing) fuel is an argument: either every
    amount of fuel is shown to run out, or an amount that is enough is
    exhibited.

    ** What is not modelled

    The other instructions of the front end (multiplications, loads and stores,
    media and coprocessor instructions, Thumb): they are parameters of
    [gen_intermediate_code].  The generation of host code from the intermediate
    code (tcg/tcg.c and its targets): a block runs by the meaning of its
    intermediate code.  In the main loop: aborts of code fetches (every page is
    mapped, to memory that the map gives), code that modifies itself,
    instruction counting, single stepping, virtualisation, several processors;
    a change of the memory map while a block runs or a jump is pending (the
    step of [vm_event] is [Undef] there, so no run has one);
    the bitmaps and the write protection of pages with code.  Debug points;
    floating point; the framebuffer and audio devices; SMS, SIM and modem;
    the opening of images, image formats other than raw and asynchronous
    requests of the block layer; networking, sound, the user interface and the
    monitor; vendored libraries.  Code outside the repository appears as an
    argument: the host's clock values, character devices (an output
    stream), files (a byte array with a position and failing calls).

    ** Order of the work that remains

    Loads and stores of the front end over [SoftMmu], which bring fetch aborts
    and modified code ([tb_invalidate_phys_page_range]) into the main loop; multiplications and the
    parallel instructions over [ArmArith], the Thumb decoder; SMS PDUs and SIM
    records over [Gsm]; qcow2 images over [Block]; the TCP sequence logic of
    slirp. *)
From stdpp Require Export base list numbers option.
From Stdlib Require Export ZArith Lia Btauto.
#[global] Open Scope Z_scope.

(** ** Machine integers

    A C integer of width [w] is a [Z]; an operation that can leave the range
    is followed by the conversion back to its type, as the C semantics (for
    the unsigned types) or the two's complement host (for conversions to the
    signed types) has it. *)

Definition uwrap (w z : Z) : Z := z mod 2 ^ w.
Definition swrap (w z : Z) : Z :=
  let m := z mod 2 ^ w in if m <? 2 ^ (w - 1) then m else m - 2 ^ w.

Abbreviation u8 := (uwrap 8).
Abbreviation u16 := (uwrap 16).
Abbreviation u32 := (uwrap 32).
Abbreviation u64 := (uwrap 64).
Abbreviation s8 := (swrap 8).
Abbreviation s32 := (swrap 32).
Abbreviation s64 := (swrap 64).

Abbreviation in_u8 z := (0 <= z < 256).
Abbreviation in_u16 z := (0 <= z < 65536).
Abbreviation in_u32 z := (0 <= z < 4294967296).
Abbreviation in_u64 z := (0 <= z < 18446744073709551616).
Abbreviation in_s32 z := (-2147483648 <= z < 2147483648).
Abbreviation in_s64 z := (-9223372036854775808 <= z < 9223372036854775808).

(** The C truth value of an integer, and the integer of a C comparison. *)
Definition ctrue (z : Z) : bool := negb (z =? 0).
Definition cbool (b : bool) : Z := if b then 1 else 0.

(** [1U << n], the single-bit mask, and its complement in 32 bits. *)
Definition bit32 (n : Z) : Z := Z.shiftl 1 n.
Definition not32 (z : Z) : Z := Z.lxor z 4294967295.

(** ** Outcomes

    What a C call can do besides returning: stop the emulator ([cpu_abort],
    [hw_error], [abort], [exit]) or leave the behaviour C defines (an index
    out of an array, a shift by the width or more, ...). *)

Inductive res (A : Type) : Type :=
| Ok (a : A)
| Abort
| Undef.
Arguments Ok {A} a.
Arguments Abort {A}.
Arguments Undef {A}.

Definition rbind {A B} (m : res A) (f : A -> res B) : res B :=
  match m with
  | Ok a => f a
  | Abort => Abort
  | Undef => Undef
  end.

Declare Scope res_scope.
Delimit Scope res_scope with res.
Notation "'let!' x ':=' m 'in' k" := (rbind m (fun x => k))
  (at level 10, x pattern, m at level 100, k at level 200) : res_scope.
#[global] Open Scope res_scope.

#[global] Instance res_eq_dec `{EqDecision A} : EqDecision (res A).
Proof. solve_decision. Defined.

Lemma rbind_Ok {A B} (m : res A) (f : A -> res B) b :
  rbind m f = Ok b -> exists a, m = Ok a /\ f a = Ok b.
Proof. destruct m; simpl; naive_solver. Qed.

Lemma rbind_assoc {A B C} (m : res A) (f : A -> res B) (g : B -> res C) :
  rbind (rbind m f) g = rbind m (fun a => rbind (f a) g).
Proof. by destruct m. Qed.

(** Array accesses: [arr] where the index is in range by construction,
    [arr_get]/[arr_set] where the source does not make sure of it. *)

Definition arr (l : list Z) (i : Z) : Z := default 0 (l !! Z.to_nat i).

Definition arr_get {A} (l : list A) (i : Z) : res A :=
  if i <? 0 then Undef
  else match l !! Z.to_nat i with Some a => Ok a | None => Undef end.

Definition arr_set {A} (l : list A) (i : Z) (x : A) : res (list A) :=
  if (i <? 0) || (Z.of_nat (length l) <=? i) then Undef
  else Ok (<[Z.to_nat i := x]> l).

(** [l] with [src] stored from index [o] on; entries past the end are
    dropped ([res] versions check the bound first). *)
Fixpoint splice {A} (l : list A) (o : nat) (src : list A) : list A :=
  match src with
  | [] => l
  | x :: src' => splice (<[o := x]> l) (S o) src'
  end.

(** ** Lemmas on machine integers *)

Lemma uwrap_small w z : 0 <= z < 2 ^ w -> uwrap w z = z.
Proof. apply Z.mod_small. Qed.

Lemma uwrap_range w z : 0 <= w -> 0 <= uwrap w z < 2 ^ w.
Proof. intros. apply Z.mod_pos_bound. lia. Qed.

Lemma uwrap_idem w z : 0 <= w -> uwrap w (uwrap w z) = uwrap w z.
Proof. intros. apply uwrap_small, uwrap_range; done. Qed.

Lemma swrap_small w z :
  0 < w -> - 2 ^ (w - 1) <= z < 2 ^ (w - 1) -> swrap w z = z.
Proof.
  intros Hw Hz. unfold swrap.
  assert (Hp : 2 ^ w = 2 * 2 ^ (w - 1)).
  { rewrite <- Z.pow_succ_r by lia. f_equal. lia. }
  destruct (Z.le_gt_cases 0 z).
  - rewrite Z.mod_small by lia.
    destruct (Z.ltb_spec z (2 ^ (w - 1))); lia.
  - rewrite <- (Z.mod_add z 1), Z.mod_small by lia.
    destruct (Z.ltb_spec (z + 1 * 2 ^ w) (2 ^ (w - 1))); lia.
Qed.

Lemma swrap_range w z :
  0 < w -> - 2 ^ (w - 1) <= swrap w z < 2 ^ (w - 1).
Proof.
  intros Hw. unfold swrap.
  assert (Hp : 2 ^ w = 2 * 2 ^ (w - 1)).
  { rewrite <- Z.pow_succ_r by lia. f_equal. lia. }
  pose proof (Z.mod_pos_bound z (2 ^ w) ltac:(lia)).
  destruct (Z.ltb_spec (z mod 2 ^ w) (2 ^ (w - 1))); lia.
Qed.

Lemma uwrap_swrap w z : 0 < w -> uwrap w (swrap w z) = uwrap w z.
Proof.
  intros Hw. unfold uwrap, swrap. case_match; [by rewrite Z.mod_mod by lia|].
  replace (z mod 2 ^ w - 2 ^ w) with (z mod 2 ^ w + (-1) * 2 ^ w) by lia.
  by rewrite Z.mod_add, Z.mod_mod by lia.
Qed.

Lemma swrap_uwrap w z : 0 <= w -> swrap w (uwrap w z) = swrap w z.
Proof. intros Hw. unfold uwrap, swrap. by rewrite Z.mod_mod by lia. Qed.

(** Two numbers agreeing modulo [2^w] are the same in the unsigned type. *)
Lemma uwrap_add_l w a b : 0 <= w -> uwrap w (uwrap w a + b) = uwrap w (a + b).
Proof. intros. unfold uwrap. by rewrite Z.add_mod_idemp_l by lia. Qed.

Lemma uwrap_add_r w a b : 0 <= w -> uwrap w (a + uwrap w b) = uwrap w (a + b).
Proof. intros. unfold uwrap. by rewrite Z.add_mod_idemp_r by lia. Qed.

(** ** Bits *)

Lemma testbit_uwrap w z i :
  0 <= w -> Z.testbit (uwrap w z) i = (i <? w) && Z.testbit z i.
Proof.
  intros Hw. unfold uwrap. destruct (Z.ltb_spec i w); simpl.
  - by rewrite Z.mod_pow2_bits_low.
  - by rewrite Z.mod_pow2_bits_high.
Qed.

Lemma testbit_shiftl z n i :
  0 <= i -> Z.testbit (Z.shiftl z n) i = Z.testbit z (i - n).
Proof. intros. by apply Z.shiftl_spec. Qed.

Lemma testbit_one i : Z.testbit 1 i = (i =? 0).
Proof.
  destruct (Z.lt_trichotomy i 0) as [|[->|]]; [|done|].
  - rewrite Z.testbit_neg_r by done. symmetry. apply Z.eqb_neq. lia.
  - rewrite (Z.bits_above_log2 1) by (simpl; lia).
    symmetry. apply Z.eqb_neq. lia.
Qed.

Lemma testbit_ones w i : 0 <= w -> Z.testbit (Z.ones w) i = (0 <=? i) && (i <? w).
Proof. intros. rewrite Z.testbit_ones by done. done. Qed.

Lemma testbit_bound w z i : 0 <= z < 2 ^ w -> w <= i -> Z.testbit z i = false.
Proof.
  intros Hz Hi. rewrite <- (Z.mod_small z (2 ^ w)) by done.
  apply Z.mod_pow2_bits_high. split; [|done].
  destruct (Z.lt_ge_cases w 0); [|done].
  rewrite Z.pow_neg_r in Hz by done. lia.
Qed.

(** A number all of whose bits from [w] on are clear is below [2^w]. *)
Lemma bits_bound w z :
  0 <= w -> (forall i, w <= i -> Z.testbit z i = false) -> 0 <= z < 2 ^ w.
Proof.
  intros Hw H. assert (z = z mod 2 ^ w) as ->.
  { apply Z.bits_inj'. intros i Hi. destruct (Z.lt_ge_cases i w).
    - by rewrite Z.mod_pow2_bits_low.
    - rewrite Z.mod_pow2_bits_high by done. by apply H. }
  apply Z.mod_pos_bound. lia.
Qed.

Lemma testbit_bit32 n i : 0 <= n -> Z.testbit (bit32 n) i = (i =? n).
Proof.
  intros. unfold bit32. destruct (Z.lt_ge_cases i 0).
  - rewrite Z.testbit_neg_r by done. symmetry. apply Z.eqb_neq. lia.
  - rewrite testbit_shiftl, testbit_one by done.
    destruct (Z.eqb_spec (i - n) 0), (Z.eqb_spec i n); lia || done.
Qed.

Lemma testbit_not32 z i :
  Z.testbit (not32 z) i = xorb (Z.testbit z i) ((0 <=? i) && (i <? 32)).
Proof.
  unfold not32. rewrite Z.lxor_spec. f_equal.
  change 4294967295 with (Z.ones 32). by apply testbit_ones.
Qed.

(** Rewriting a [testbit] through the operators, and the equality of two
    numbers bit by bit. *)
Create Rewrite HintDb zbits.
#[global] Hint Rewrite Z.land_spec Z.lor_spec Z.lxor_spec Z.ldiff_spec
  testbit_uwrap testbit_shiftl Z.shiftr_spec testbit_bit32 testbit_not32
  Z.bits_0 testbit_one using lia : zbits.

Lemma land_bound w a b : 0 <= w -> 0 <= a < 2 ^ w -> 0 <= Z.land a b < 2 ^ w.
Proof.
  intros Hw Ha. apply bits_bound; [done|]. intros i Hi.
  by rewrite Z.land_spec, (testbit_bound w a) by done.
Qed.
Lemma in_u32_land a b : in_u32 a -> in_u32 (Z.land a b).
Proof. apply (land_bound 32). lia. Qed.

Lemma lor_bound w a b :
  0 <= w -> 0 <= a < 2 ^ w -> 0 <= b < 2 ^ w -> 0 <= Z.lor a b < 2 ^ w.
Proof.
  intros Hw Ha Hb. apply bits_bound; [done|]. intros i Hi.
  by rewrite Z.lor_spec, (testbit_bound w a), (testbit_bound w b) by done.
Qed.

Lemma lxor_bound w a b :
  0 <= w -> 0 <= a < 2 ^ w -> 0 <= b < 2 ^ w -> 0 <= Z.lxor a b < 2 ^ w.
Proof.
  intros Hw Ha Hb. apply bits_bound; [done|]. intros i Hi.
  by rewrite Z.lxor_spec, (testbit_bound w a), (testbit_bound w b) by done.
Qed.

Lemma shiftr_bound w n a :
  0 <= n <= w -> 0 <= a < 2 ^ w -> 0 <= Z.shiftr a n < 2 ^ (w - n).
Proof.
  intros Hn Ha. apply bits_bound; [lia|]. intros i Hi.
  rewrite Z.shiftr_spec by lia. apply (testbit_bound w); lia.
Qed.

(** An "or" of numbers with disjoint bits is their sum. *)
Lemma lor_low n x y :
  0 <= n -> x mod 2 ^ n = 0 -> 0 <= y < 2 ^ n -> Z.lor x y = x + y.
Proof.
  intros Hn Hx Hy. symmetry. apply Z.add_nocarry_lor. apply Z.bits_inj'. intros i Hi.
  rewrite Z.land_spec, Z.bits_0. destruct (Z.lt_ge_cases i n).
  - rewrite <- (Z.mod_pow2_bits_low x n) by done. by rewrite Hx, Z.bits_0.
  - by rewrite (testbit_bound n y), andb_false_r by done.
Qed.

Create HintDb bounds.
#[global] Hint Resolve land_bound lor_bound lxor_bound shiftr_bound : bounds.

(** A masked bit is non-zero exactly when the bit is set. *)
Lemma land_bit32_ctrue z n : 0 <= n -> ctrue (Z.land z (bit32 n)) = Z.testbit z n.
Proof.
  intros Hn. unfold ctrue. destruct (Z.testbit z n) eqn:E.
  - destruct (Z.eqb_spec (Z.land z (bit32 n)) 0) as [H0|]; [|done].
    assert (Z.testbit (Z.land z (bit32 n)) n = false) as H by by rewrite H0, Z.bits_0.
    autorewrite with zbits in H. by rewrite E, Z.eqb_refl in H.
  - destruct (Z.eqb_spec (Z.land z (bit32 n)) 0) as [|H0]; [done|].
    destruct H0. apply Z.bits_inj'. intros i Hi. autorewrite with zbits.
    destruct (Z.eqb_spec i n) as [->|]; [by rewrite E|by rewrite andb_false_r].
Qed.

Lemma ctrue_cbool b : ctrue (cbool b) = b.
Proof. by destruct b. Qed.

Lemma ctrue_false_iff z : ctrue z = false <-> z = 0.
Proof. unfold ctrue. rewrite negb_false_iff. apply Z.eqb_eq. Qed.

(** ** Lists *)

Lemma length_splice {A} (src l : list A) o : length (splice l o src) = length l.
Proof.
  revert l o. induction src as [|x src IH]; intros l o; [done|].
  simpl. by rewrite IH, length_insert.
Qed.

Lemma splice_app {A} (l1 l2 l3 src : list A) o :
  o = length l1 -> length l2 = length src ->
  splice (l1 ++ l2 ++ l3) o src = l1 ++ src ++ l3.
Proof.
  revert l1 l2 o. induction src as [|x src IH]; intros l1 l2 o -> Hl.
  - by destruct l2.
  - destruct l2 as [|y l2]; [done|]. simpl.
    rewrite insert_app_r_alt, Nat.sub_diag by done. simpl.
    rewrite (cons_middle x l1 (l2 ++ l3)), app_assoc.
    rewrite (IH (l1 ++ [x]) l2); [by rewrite <- app_assoc| |by injection Hl].
    rewrite length_app. simpl. lia.
Qed.

(** A decidable property of the numbers below a bound, by evaluation. *)
Lemma below_forall (n : nat) (f : Z -> bool) :
  forallb f (map Z.of_nat (seq 0 n)) = true ->
  forall y, 0 <= y < Z.of_nat n -> f y = true.
Proof.
  intros H y Hy. rewrite forallb_forall in H. apply H.
  apply in_map_iff. exists (Z.to_nat y). split; [lia|]. apply in_seq. lia.
Qed.

(** ** Counting bits

    [popcount n z] is the number of set bits of [z] below bit [n]. *)

Fixpoint popcount (n : nat) (z : Z) : Z :=
  match n with
  | O => 0
  | S k => popcount k z + Z.b2z (Z.testbit z (Z.of_nat k))
  end.

Lemma popcount_ext n a b :
  (forall i, 0 <= i < Z.of_nat n -> Z.testbit a i = Z.testbit b i) ->
  popcount n a = popcount n b.
Proof.
  induction n as [|n IH]; intros H; [done|]. simpl.
  rewrite IH by (intros; apply H; lia). rewrite (H (Z.of_nat n)) by lia. done.
Qed.

Lemma popcount_range n z : 0 <= popcount n z <= Z.of_nat n.
Proof.
  induction n as [|n IH]; [done|]. cbn [popcount].
  destruct (Z.testbit z (Z.of_nat n)); simpl Z.b2z; lia.
Qed.

(** Changing one bit changes the count by that bit. *)
Lemma popcount_upd n a b j :
  0 <= j < Z.of_nat n ->
  (forall i, 0 <= i < Z.of_nat n -> i <> j -> Z.testbit a i = Z.testbit b i) ->
  popcount n a = popcount n b - Z.b2z (Z.testbit b j) + Z.b2z (Z.testbit a j).
Proof.
  induction n as [|n IH]; intros Hj H; [lia|]. cbn [popcount].
  destruct (decide (Z.of_nat n = j)) as [<-|].
  - rewrite (popcount_ext n a b) by (intros; apply H; lia). lia.
  - rewrite IH by (try intros; try apply H; lia). rewrite (H (Z.of_nat n)) by lia. lia.
Qed.

Lemma popcount_zero n z :
  popcount n z = 0 <-> forall i, 0 <= i < Z.of_nat n -> Z.testbit z i = false.
Proof.
  induction n as [|n IH]; [naive_solver lia|]. cbn [popcount].
  pose proof (popcount_range n z).
  destruct (Z.testbit z (Z.of_nat n)) eqn:E; simpl Z.b2z; split.
  - lia.
  - intros H1. rewrite H1 in E by lia. done.
  - intros H1 i Hi. destruct (decide (i = Z.of_nat n)) as [->|]; [done|].
    apply IH; lia.
  - intros H1. rewrite Z.add_0_r. apply IH. intros; apply H1; lia.
Qed.

Arguments popcount : simpl never.
