(* ===== verification/Irq.v ===== *)
(** * Interrupt lines: [hw/irq.c], [hw/irq.h], [hw/arm_pic.c] and the part of
    [exec.c] that raises a CPU interrupt.

    A [qemu_irq] is a pointer to a handler, its opaque object and a line
    number; the handler with its object is here a function on the state [W]
    the line drives. *)
From S2P Require Import Prelude.

Section IrqState.
Context {W : Type}.

(** [struct IRQState]: [handler] stands for the pair [handler], [opaque]. *)
Record IRQState := mkIRQState {
  handler : Z -> Z -> W -> res W;
  n : Z
}.

(** [qemu_irq]; [None] is the null pointer. *)
Definition qemu_irq : Type := option IRQState.

Definition qemu_set_irq (irq : qemu_irq) (level : Z) (w : W) : res W :=
  match irq with
  | None => Ok w
  | Some p => handler p (n p) level w
  end.

Definition qemu_irq_raise (irq : qemu_irq) (w : W) : res W := qemu_set_irq irq 1 w.
Definition qemu_irq_lower (irq : qemu_irq) (w : W) : res W := qemu_set_irq irq 0 w.

Definition qemu_irq_pulse (irq : qemu_irq) (w : W) : res W :=
  let! w := qemu_set_irq irq 1 w in
  qemu_set_irq irq 0 w.

Definition qemu_allocate_irqs (h : Z -> Z -> W -> res W) (count : nat) : list qemu_irq :=
  map (fun i => Some (mkIRQState h (Z.of_nat i))) (seq 0 count).

(** The handler of an inverted line: its object is the [IRQState] inverted,
    dereferenced without a test for the null pointer. *)
Definition qemu_notirq (irq : qemu_irq) (line level : Z) (w : W) : res W :=
  match irq with
  | None => Undef
  | Some p => handler p (n p) (cbool (negb (ctrue level))) w
  end.

Definition qemu_irq_invert (irq : qemu_irq) (w : W) : res (qemu_irq * W) :=
  let! w := qemu_irq_raise irq w in
  match qemu_allocate_irqs (qemu_notirq irq) 1 with
  | i :: _ => Ok (i, w)
  | [] => Undef
  end.

End IrqState.
Arguments IRQState : clear implicits.
Arguments qemu_irq : clear implicits.

(** ** The CPU side *)

Definition CPU_INTERRUPT_HARD : Z := 0x02.
Definition CPU_INTERRUPT_FIQ : Z := 0x10.
Definition ARM_PIC_CPU_IRQ : Z := 0.
Definition ARM_PIC_CPU_FIQ : Z := 1.

(** The fields of [CPUState] these functions use. [current_tb] is the
    translation block being executed (an index into the blocks), [tb_unchained]
    the blocks [tb_reset_jump_recursive] was applied to. *)
Record CPUState := mkCPU {
  interrupt_request : Z;
  current_tb : option nat;
  cpu_can_do_io : Z;
  icount_decr_high : Z;
  tb_unchained : list nat
}.

Definition set_interrupt_request (env : CPUState) (v : Z) : CPUState :=
  mkCPU v (current_tb env) (cpu_can_do_io env) (icount_decr_high env) (tb_unchained env).

(** [cpu_unlink_tb]; the interrupt lock is free, since the main loop and the
    CPU run in one thread in this build. *)
Definition cpu_unlink_tb (env : CPUState) : CPUState :=
  match current_tb env with
  | Some tb => mkCPU (interrupt_request env) None (cpu_can_do_io env)
                 (icount_decr_high env) (tb :: tb_unchained env)
  | None => env
  end.

Definition can_do_io (use_icount : bool) (env : CPUState) : bool :=
  if negb use_icount then true
  else match current_tb env with
       | None => true
       | Some _ => ctrue (cpu_can_do_io env)
       end.

(** [cpu_interrupt], called from the CPU's own thread ([qemu_cpu_self] is 1). *)
Definition cpu_interrupt (use_icount : bool) (env : CPUState) (mask : Z) : res CPUState :=
  let old_mask := interrupt_request env in
  let env := set_interrupt_request env (Z.lor (interrupt_request env) mask) in
  if use_icount then
    let env := mkCPU (interrupt_request env) (current_tb env) (cpu_can_do_io env)
                 0xffff (tb_unchained env) in
    if negb (can_do_io use_icount env) && ctrue (Z.ldiff mask old_mask) then Abort
    else Ok env
  else Ok (cpu_unlink_tb env).

Definition cpu_reset_interrupt (env : CPUState) (mask : Z) : CPUState :=
  set_interrupt_request env (Z.ldiff (interrupt_request env) mask).

Definition arm_pic_cpu_handler (use_icount : bool) (irq level : Z) (env : CPUState)
  : res CPUState :=
  if irq =? ARM_PIC_CPU_IRQ then
    if ctrue level then cpu_interrupt use_icount env CPU_INTERRUPT_HARD
    else Ok (cpu_reset_interrupt env CPU_INTERRUPT_HARD)
  else if irq =? ARM_PIC_CPU_FIQ then
    if ctrue level then cpu_interrupt use_icount env CPU_INTERRUPT_FIQ
    else Ok (cpu_reset_interrupt env CPU_INTERRUPT_FIQ)
  else Abort.

Definition arm_pic_init_cpu (use_icount : bool) : list (qemu_irq CPUState) :=
  qemu_allocate_irqs (arm_pic_cpu_handler use_icount) 2.

(** ** Interfaces

    What the CPU promises to the interrupt controller: a pair of lines that
    can always be driven, each with a level of its own. *)
Class LinePair {C : Type} (irq fiq : qemu_irq C) := {
  irq_level : C -> bool;
  fiq_level : C -> bool;
  drive_irq c level : exists c', qemu_set_irq irq level c = Ok c' /\
    irq_level c' = ctrue level /\ fiq_level c' = fiq_level c;
  drive_fiq c level : exists c', qemu_set_irq fiq level c = Ok c' /\
    fiq_level c' = ctrue level /\ irq_level c' = irq_level c
}.

(** What the interrupt controller promises to the devices: 32 lines that can
    always be driven, each keeping the level last put on it. *)
Class PicLines (W : Type) (pic : list (qemu_irq W)) := {
  line_level : W -> Z -> bool;
  pic_ok : W -> Prop;
  drive_line w i level : pic_ok w -> 0 <= i < 32 ->
    exists w', (let! q := arr_get pic i in qemu_set_irq q level w) = Ok w' /\
      pic_ok w' /\ line_level w' i = ctrue level /\
      forall j, 0 <= j < 32 -> j <> i -> line_level w' j = line_level w j
}.

(** The two lines of [arm_pic_init_cpu] when instructions are not counted. *)
Definition cpu_line (i : nat) : qemu_irq CPUState :=
  default None (arm_pic_init_cpu false !! i).

Lemma interrupt_request_unlink env :
  interrupt_request (cpu_unlink_tb env) = interrupt_request env.
Proof. unfold cpu_unlink_tb. by destruct (current_tb env). Qed.

(** The pending bit of each of the two interrupts. *)
Definition hard_pending (env : CPUState) : bool := Z.testbit (interrupt_request env) 1.
Definition fiq_pending (env : CPUState) : bool := Z.testbit (interrupt_request env) 4.

Arguments hard_pending : simpl never.
Arguments fiq_pending : simpl never.

Local Ltac solve_line :=
  unfold hard_pending, fiq_pending; rewrite ?interrupt_request_unlink;
  unfold cpu_reset_interrupt, set_interrupt_request,
    CPU_INTERRUPT_HARD, CPU_INTERRUPT_FIQ; cbn [interrupt_request];
  rewrite ?Z.lor_spec, ?Z.ldiff_spec; simpl (Z.testbit 2 _); simpl (Z.testbit 16 _);
  btauto.

Lemma drive_cpu_irq c level :
  exists c', qemu_set_irq (cpu_line 0) level c = Ok c' /\
    hard_pending c' = ctrue level /\ fiq_pending c' = fiq_pending c.
Proof.
  cbn. unfold arm_pic_cpu_handler. cbn.
  destruct (ctrue level); eexists; (split; [done|split; solve_line]).
Qed.

Lemma drive_cpu_fiq c level :
  exists c', qemu_set_irq (cpu_line 1) level c = Ok c' /\
    fiq_pending c' = ctrue level /\ hard_pending c' = hard_pending c.
Proof.
  cbn. unfold arm_pic_cpu_handler. cbn.
  destruct (ctrue level); eexists; (split; [done|split; solve_line]).
Qed.

#[global] Instance arm_lines : LinePair (cpu_line 0) (cpu_line 1) := {|
  irq_level := hard_pending;
  fiq_level := fiq_pending;
  drive_irq := drive_cpu_irq;
  drive_fiq := drive_cpu_fiq
|}.
