(* ===== verification/GoldfishInterrupt.v ===== *)
(** * The goldfish interrupt controller: [hw/goldfish_interrupt.c] *)
From S2P Require Import Prelude Irq.

Definition INTERRUPT_STATUS : Z := 0x00.
Definition INTERRUPT_NUMBER : Z := 0x04.
Definition INTERRUPT_DISABLE_ALL : Z := 0x08.
Definition INTERRUPT_DISABLE : Z := 0x0c.
Definition INTERRUPT_ENABLE : Z := 0x10.

(** [struct goldfish_int_state], less the device header (constant after
    initialisation) and the two parent lines (the section's variables). *)
Record goldfish_int_state := mkInt {
  level : Z;
  pending_count : Z;
  irq_enabled : Z;
  fiq_enabled : Z
}.

Section Controller.
Context {C : Type} (parent_irq parent_fiq : qemu_irq C).

Definition goldfish_int_update (s : goldfish_int_state) (c : C) : res C :=
  let flags := Z.land (level s) (irq_enabled s) in
  let! c := qemu_set_irq parent_irq (cbool (ctrue flags)) c in
  let flags := Z.land (level s) (fiq_enabled s) in
  qemu_set_irq parent_fiq (cbool (ctrue flags)) c.

(** The line handler given to [qemu_allocate_irqs]. *)
Definition goldfish_int_set_irq (irq lvl : Z) (w : goldfish_int_state * C)
  : res (goldfish_int_state * C) :=
  let '(s, c) := w in
  if negb ((0 <=? irq) && (irq <? 32)) then Undef else
  let mask := bit32 irq in
  let s :=
    if ctrue lvl then
      if negb (ctrue (Z.land (level s) mask)) then
        mkInt (Z.lor (level s) mask)
          (if ctrue (Z.land (irq_enabled s) mask) then u32 (pending_count s + 1)
           else pending_count s)
          (irq_enabled s) (fiq_enabled s)
      else s
    else
      if ctrue (Z.land (level s) mask) then
        mkInt (Z.land (level s) (not32 mask))
          (if ctrue (Z.land (irq_enabled s) mask) then u32 (pending_count s - 1)
           else pending_count s)
          (irq_enabled s) (fiq_enabled s)
      else s
  in
  let! c := goldfish_int_update s c in
  Ok (s, c).

(** The loop of [INTERRUPT_NUMBER]: [for(i = 0; i < 32; i++)], with
    [fuel = 32 - i]. *)
Fixpoint first_pending (fuel : nat) (i pending : Z) : Z :=
  match fuel with
  | O => 0
  | S fuel' =>
      if ctrue (Z.land pending (bit32 i)) then i
      else first_pending fuel' (i + 1) pending
  end.

Definition goldfish_int_read (offset : Z) (s : goldfish_int_state) : res Z :=
  if offset =? INTERRUPT_STATUS then Ok (pending_count s)
  else if offset =? INTERRUPT_NUMBER then
    let pending := Z.land (level s) (irq_enabled s) in
    Ok (first_pending 32 0 pending)
  else Abort.

Definition goldfish_int_write (offset value : Z) (w : goldfish_int_state * C)
  : res (goldfish_int_state * C) :=
  let '(s, c) := w in
  if negb (value <? 32) then Undef else
  let mask := bit32 value in
  let! s :=
    (if offset =? INTERRUPT_DISABLE_ALL then
       Ok (mkInt 0 0 (irq_enabled s) (fiq_enabled s))
     else if offset =? INTERRUPT_DISABLE then
       if ctrue (Z.land (irq_enabled s) mask) then
         Ok (mkInt (level s)
               (if ctrue (Z.land (level s) mask) then u32 (pending_count s - 1)
                else pending_count s)
               (Z.land (irq_enabled s) (not32 mask)) (fiq_enabled s))
       else Ok s
     else if offset =? INTERRUPT_ENABLE then
       if negb (ctrue (Z.land (irq_enabled s) mask)) then
         Ok (mkInt (level s)
               (if ctrue (Z.land (level s) mask) then u32 (pending_count s + 1)
                else pending_count s)
               (Z.lor (irq_enabled s) mask) (fiq_enabled s))
       else Ok s
     else Abort)
  in
  let! c := goldfish_int_update s c in
  Ok (s, c).

(** The state [qemu_mallocz] gives and the lines allocated on it. *)
Definition goldfish_int_init : goldfish_int_state := mkInt 0 0 0 0.
Definition goldfish_int_lines : list (qemu_irq (goldfish_int_state * C)) :=
  qemu_allocate_irqs goldfish_int_set_irq 32.

(** ** Well-formedness *)

(** The registers are 32-bit, and the pending count is the number of lines
    that are both asserted and enabled. *)
Definition int_wf (s : goldfish_int_state) : Prop :=
  in_u32 (level s) /\ in_u32 (irq_enabled s) /\ in_u32 (fiq_enabled s) /\
  pending_count s = popcount 32 (Z.land (level s) (irq_enabled s)).

(** What the software and the devices can do to the controller. *)
Inductive int_step : goldfish_int_state * C -> goldfish_int_state * C -> Prop :=
| step_line irq lvl w w' :
    goldfish_int_set_irq irq lvl w = Ok w' -> int_step w w'
| step_write offset value w w' :
    0 <= value -> goldfish_int_write offset value w = Ok w' -> int_step w w'.

Inductive int_reach (c0 : C) : goldfish_int_state * C -> Prop :=
| reach_init : int_reach c0 (goldfish_int_init, c0)
| reach_step w w' : int_reach c0 w -> int_step w w' -> int_reach c0 w'.

End Controller.

Lemma int_wf_init : int_wf goldfish_int_init.
Proof. done. Qed.

Lemma in_u32_lor_bit z i : 0 <= i < 32 -> in_u32 z -> in_u32 (Z.lor z (bit32 i)).
Proof.
  intros Hi Hz. apply (bits_bound 32); [lia|]. intros j Hj.
  autorewrite with zbits. rewrite (testbit_bound 32 z) by lia.
  apply Z.eqb_neq. lia.
Qed.

#[local] Hint Resolve in_u32_lor_bit in_u32_land : bounds.

(** The four updates of the registers, each with the count kept exact. *)
Lemma count_set_l a b i (Hi : 0 <= i < 32) :
  Z.testbit a i = false ->
  popcount 32 (Z.land (Z.lor a (bit32 i)) b) =
  popcount 32 (Z.land a b) + Z.b2z (Z.testbit b i).
Proof.
  intros Ha. rewrite (popcount_upd 32 _ (Z.land a b) i) by
    (try lia; intros j Hj Hne; autorewrite with zbits;
     rewrite (proj2 (Z.eqb_neq j i)) by done; btauto).
  autorewrite with zbits. rewrite Ha, Z.eqb_refl. simpl. lia.
Qed.

Lemma count_clear_l a b i (Hi : 0 <= i < 32) :
  Z.testbit a i = true ->
  popcount 32 (Z.land (Z.land a (not32 (bit32 i))) b) =
  popcount 32 (Z.land a b) - Z.b2z (Z.testbit b i).
Proof.
  intros Ha. rewrite (popcount_upd 32 _ (Z.land a b) i); [|lia|].
  - autorewrite with zbits. rewrite Ha, Z.eqb_refl.
    replace ((0 <=? i) && (i <? 32)) with true by lia. simpl. lia.
  - intros j Hj Hne; autorewrite with zbits.
    rewrite (proj2 (Z.eqb_neq j i)) by done.
    replace ((0 <=? j) && (j <? 32)) with true by lia. btauto.
Qed.

Lemma count_set_r a b i (Hi : 0 <= i < 32) :
  Z.testbit b i = false ->
  popcount 32 (Z.land a (Z.lor b (bit32 i))) =
  popcount 32 (Z.land a b) + Z.b2z (Z.testbit a i).
Proof.
  intros Hb. rewrite (Z.land_comm a (Z.lor _ _)), (Z.land_comm a b).
  by apply count_set_l.
Qed.

Lemma count_clear_r a b i (Hi : 0 <= i < 32) :
  Z.testbit b i = true ->
  popcount 32 (Z.land a (Z.land b (not32 (bit32 i)))) =
  popcount 32 (Z.land a b) - Z.b2z (Z.testbit a i).
Proof.
  intros Hb. rewrite (Z.land_comm a (Z.land _ _)), (Z.land_comm a b).
  by apply count_clear_l.
Qed.

(** The counter never wraps: it stays between 0 and 32. *)
Lemma count_inc z (b : bool) p :
  p = popcount 32 z -> (if b then u32 (p + 1) else p) = popcount 32 z + Z.b2z b.
Proof.
  intros ->. pose proof (popcount_range 32 z). destruct b; simpl Z.b2z; [|lia].
  apply uwrap_small. lia.
Qed.

Lemma count_dec z z' (b : bool) p :
  p = popcount 32 z -> popcount 32 z' = popcount 32 z - Z.b2z b ->
  (if b then u32 (p - 1) else p) = popcount 32 z'.
Proof.
  intros -> H. pose proof (popcount_range 32 z). pose proof (popcount_range 32 z').
  destruct b; simpl Z.b2z in *; [|lia]. rewrite uwrap_small; lia.
Qed.

(** Splits the goals of the handlers into their branches, with the masked
    tests turned into the bits they test. *)
Ltac int_cases :=
  repeat match goal with
  | |- context [ctrue (Z.land ?z (bit32 ?i))] =>
      rewrite (land_bit32_ctrue z i) by lia
  | |- context [if ctrue ?l then _ else _] => destruct (ctrue l)
  | |- context [if negb (Z.testbit ?z ?i) then _ else _] =>
      destruct (Z.testbit z i) eqn:?; simpl negb; cbv iota
  | |- context [if Z.testbit (level ?z) ?i then mkInt _ _ _ _ else _] =>
      destruct (Z.testbit (level z) i) eqn:?; cbv iota
  | |- context [if Z.testbit (irq_enabled ?z) ?i then mkInt _ _ _ _ else _] =>
      destruct (Z.testbit (irq_enabled z) i) eqn:?; cbv iota
  end.

(** What a line change does to the registers, as a function of its own. *)
Definition int_line (irq : Z) (lvl : bool) (s : goldfish_int_state) : goldfish_int_state :=
  let en := Z.testbit (irq_enabled s) irq in
  if lvl then
    if Z.testbit (level s) irq then s
    else mkInt (Z.lor (level s) (bit32 irq))
           (if en then u32 (pending_count s + 1) else pending_count s)
           (irq_enabled s) (fiq_enabled s)
  else
    if Z.testbit (level s) irq then
      mkInt (Z.land (level s) (not32 (bit32 irq)))
        (if en then u32 (pending_count s - 1) else pending_count s)
        (irq_enabled s) (fiq_enabled s)
    else s.

Lemma int_line_wf irq lvl s : 0 <= irq < 32 -> int_wf s -> int_wf (int_line irq lvl s).
Proof.
  intros Hi (Hl & He & Hf & Hp). unfold int_line, int_wf.
  destruct lvl, (Z.testbit (level s) irq) eqn:E; simpl;
    (do 3 (split; [auto with bounds|])); try done.
  - rewrite count_set_l by done. by apply count_inc.
  - eapply count_dec; [done|]. by rewrite count_clear_l by done.
Qed.

Lemma int_line_level irq lvl s j :
  0 <= irq < 32 -> 0 <= j < 32 -> int_wf s ->
  Z.testbit (level (int_line irq lvl s)) j =
  if decide (j = irq) then lvl else Z.testbit (level s) j.
Proof.
  intros Hi Hj Hw. unfold int_line.
  destruct lvl, (Z.testbit (level s) irq) eqn:E; simpl; case_decide; subst;
    autorewrite with zbits; rewrite ?Z.eqb_refl; try done.
  - by rewrite orb_true_r.
  - rewrite (proj2 (Z.eqb_neq j irq)) by done. by rewrite orb_false_r.
  - replace ((0 <=? irq) && (irq <? 32)) with true by lia. by rewrite andb_false_r.
  - rewrite (proj2 (Z.eqb_neq j irq)) by done.
    replace ((0 <=? j) && (j <? 32)) with true by lia. by rewrite andb_true_r.
Qed.

(** The register part of a register write. *)
Definition int_ctl (offset value : Z) (s : goldfish_int_state) : res goldfish_int_state :=
  if offset =? INTERRUPT_DISABLE_ALL then Ok (mkInt 0 0 (irq_enabled s) (fiq_enabled s))
  else if offset =? INTERRUPT_DISABLE then
    if Z.testbit (irq_enabled s) value then
      Ok (mkInt (level s)
            (if Z.testbit (level s) value then u32 (pending_count s - 1)
             else pending_count s)
            (Z.land (irq_enabled s) (not32 (bit32 value))) (fiq_enabled s))
    else Ok s
  else if offset =? INTERRUPT_ENABLE then
    if Z.testbit (irq_enabled s) value then Ok s
    else Ok (mkInt (level s)
               (if Z.testbit (level s) value then u32 (pending_count s + 1)
                else pending_count s)
               (Z.lor (irq_enabled s) (bit32 value)) (fiq_enabled s))
  else Abort.

Lemma int_ctl_wf offset value s s' :
  0 <= value < 32 -> int_wf s -> int_ctl offset value s = Ok s' -> int_wf s'.
Proof.
  intros Hv (Hl & He & Hf & Hp). unfold int_ctl, int_wf.
  destruct (offset =? _); [intros; by simplify_eq/=|].
  destruct (offset =? _); [|destruct (offset =? _); [|done]];
    destruct (Z.testbit (irq_enabled s) value) eqn:E; intros; simplify_eq/=;
    (do 3 (split; [auto with bounds|])); try done.
  - eapply count_dec; [done|]. by rewrite count_clear_r by done.
  - rewrite count_set_r by done. by apply count_inc.
Qed.

Lemma first_pending_spec fuel i z :
  0 <= i ->
  (exists k, i <= k < i + Z.of_nat fuel /\ Z.testbit z k = true) ->
  let r := first_pending fuel i z in
  i <= r < i + Z.of_nat fuel /\ Z.testbit z r = true /\
  forall j, i <= j < r -> Z.testbit z j = false.
Proof.
  revert i. induction fuel as [|fuel IH]; intros i Hi [k [Hk Ht]]; [lia|].
  cbn [first_pending]. rewrite land_bit32_ctrue by done.
  destruct (Z.testbit z i) eqn:E.
  - split; [lia|]. split; [done|]. lia.
  - destruct (IH (i + 1)) as (H1 & H2 & H3); [lia| |].
    + exists k. split; [|done]. assert (k <> i) by congruence. lia.
    + split; [lia|]. split; [done|]. intros j Hj.
      destruct (decide (j = i)) as [->|]; [done|]. apply H3. lia.
Qed.

Lemma first_pending_none fuel i z :
  0 <= i -> (forall k, i <= k < i + Z.of_nat fuel -> Z.testbit z k = false) ->
  first_pending fuel i z = 0.
Proof.
  revert i. induction fuel as [|fuel IH]; intros i Hi H; [done|].
  cbn [first_pending]. rewrite land_bit32_ctrue, H by lia.
  apply IH; [lia|]. intros; apply H; lia.
Qed.

Lemma ctrue_u32_bits z :
  in_u32 z -> ctrue z = true <-> exists k, 0 <= k < 32 /\ Z.testbit z k = true.
Proof.
  intros Hz. split.
  - intros Hc. destruct (Z.log2_spec z) as [H1 H2].
    { apply negb_true_iff, Z.eqb_neq in Hc. lia. }
    exists (Z.log2 z). assert (0 < z) by (apply negb_true_iff, Z.eqb_neq in Hc; lia).
    split; [|by apply Z.bit_log2]. split; [apply Z.log2_nonneg|].
    apply Z.log2_lt_pow2; lia.
  - intros (k & Hk & Ht). destruct (ctrue z) eqn:E; [done|].
    apply ctrue_false_iff in E. subst. by rewrite Z.bits_0 in Ht.
Qed.

Section Lines.
Context {C : Type} (parent_irq parent_fiq : qemu_irq C) `{L : !LinePair parent_irq parent_fiq}.

Abbreviation set_irq := (goldfish_int_set_irq parent_irq parent_fiq).
Abbreviation reg_write := (goldfish_int_write parent_irq parent_fiq).
Abbreviation update := (goldfish_int_update parent_irq parent_fiq).

(** The two outputs follow the registers. *)
Definition outputs_ok (w : goldfish_int_state * C) : Prop :=
  irq_level w.2 = ctrue (Z.land (level w.1) (irq_enabled w.1)) /\
  fiq_level w.2 = ctrue (Z.land (level w.1) (fiq_enabled w.1)).

Lemma update_spec s c : exists c', update s c = Ok c' /\ outputs_ok (s, c').
Proof.
  unfold goldfish_int_update.
  destruct (drive_irq c (cbool (ctrue (Z.land (level s) (irq_enabled s)))))
    as (c1 & E1 & I1 & F1).
  destruct (drive_fiq c1 (cbool (ctrue (Z.land (level s) (fiq_enabled s)))))
    as (c2 & E2 & F2 & I2).
  exists c2. rewrite E1. simpl. rewrite E2. split; [done|].
  unfold outputs_ok. simpl. by rewrite I2, I1, F2, !ctrue_cbool.
Qed.

Lemma set_irq_spec irq lvl s c :
  0 <= irq < 32 ->
  exists c', set_irq irq lvl (s, c) = Ok (int_line irq (ctrue lvl) s, c') /\
    outputs_ok (int_line irq (ctrue lvl) s, c').
Proof.
  intros Hi. destruct (update_spec (int_line irq (ctrue lvl) s) c) as (c' & E & O).
  exists c'. split; [|done]. unfold goldfish_int_set_irq.
  replace ((0 <=? irq) && (irq <? 32)) with true by lia. simpl negb. cbv iota.
  rewrite !land_bit32_ctrue by lia.
  change (if ctrue lvl then _ else _) with (if ctrue lvl then
      if negb (Z.testbit (level s) irq) then
        mkInt (Z.lor (level s) (bit32 irq))
          (if Z.testbit (irq_enabled s) irq then u32 (pending_count s + 1)
           else pending_count s) (irq_enabled s) (fiq_enabled s) else s
      else if Z.testbit (level s) irq then
        mkInt (Z.land (level s) (not32 (bit32 irq)))
          (if Z.testbit (irq_enabled s) irq then u32 (pending_count s - 1)
           else pending_count s) (irq_enabled s) (fiq_enabled s) else s).
  replace (if ctrue lvl then _ else _) with (int_line irq (ctrue lvl) s).
  - by rewrite E.
  - unfold int_line. by destruct (ctrue lvl), (Z.testbit (level s) irq).
Qed.

Lemma reg_write_spec offset value s c :
  0 <= value < 32 ->
  match int_ctl offset value s with
  | Ok s' => exists c', reg_write offset value (s, c) = Ok (s', c') /\ outputs_ok (s', c')
  | _ => reg_write offset value (s, c) = Abort
  end.
Proof.
  intros Hv. unfold goldfish_int_write, int_ctl.
  replace (value <? 32) with true by lia. simpl negb. cbv iota.
  rewrite !land_bit32_ctrue by lia.
  destruct (offset =? _); [|destruct (offset =? _); [|destruct (offset =? _)]];
    try done; try destruct (Z.testbit (irq_enabled s) value) eqn:E; simpl;
    match goal with |- context [update ?s c] =>
      destruct (update_spec s c) as (c' & -> & O) end;
    exists c'; done.
Qed.

Lemma int_step_ok w w' :
  int_wf w.1 -> int_step parent_irq parent_fiq w w' -> int_wf w'.1 /\ outputs_ok w'.
Proof.
  intros Hwf Hs. destruct Hs as [irq lvl [s c] w' E|off v [s c] w' Hv E]; simpl in Hwf.
  - destruct (decide (0 <= irq < 32)) as [Hi|Hi].
    + destruct (set_irq_spec irq lvl s c Hi) as (c' & E' & O). rewrite E' in E.
      simplify_eq/=. split; [by apply int_line_wf|done].
    + unfold goldfish_int_set_irq in E.
      by replace ((0 <=? irq) && (irq <? 32)) with false in E by lia.
  - destruct (decide (v < 32)) as [Hi|Hi].
    + pose proof (reg_write_spec off v s c ltac:(lia)) as H.
      destruct (int_ctl off v s) as [s'| |] eqn:Ec; rewrite ?E in H; try done.
      destruct H as (c' & H & O). simplify_eq/=.
      split; [|done]. eapply int_ctl_wf; [|done|done]. lia.
    + unfold goldfish_int_write in E. by replace (v <? 32) with false in E by lia.
Qed.

(** Controller lines as the devices see them. *)
Definition pic_line (w : goldfish_int_state * C) (i : Z) : bool := Z.testbit (level w.1) i.

Lemma drive_pic_line w i lvl :
  int_wf w.1 -> 0 <= i < 32 ->
  exists w', (let! q := arr_get (goldfish_int_lines parent_irq parent_fiq) i in
              qemu_set_irq q lvl w) = Ok w' /\
    int_wf w'.1 /\ pic_line w' i = ctrue lvl /\
    forall j, 0 <= j < 32 -> j <> i -> pic_line w' j = pic_line w j.
Proof.
  intros Hwf Hi. destruct w as [s c].
  destruct (set_irq_spec i lvl s c Hi) as (c' & E & O).
  exists (int_line i (ctrue lvl) s, c'). split.
  { unfold arr_get. replace (i <? 0) with false by lia.
    unfold goldfish_int_lines, qemu_allocate_irqs.
    rewrite list_lookup_fmap, lookup_seq_lt by lia. simpl.
    by rewrite Z2Nat.id by lia. }
  split; [by apply int_line_wf|]. unfold pic_line; simpl in *. split.
  - rewrite int_line_level by done. by rewrite decide_True.
  - intros j Hj Hne. rewrite int_line_level by done. by rewrite decide_False.
Qed.

#[global] Instance goldfish_pic_lines :
  PicLines (goldfish_int_state * C) (goldfish_int_lines parent_irq parent_fiq) := {|
  line_level := pic_line;
  pic_ok w := int_wf w.1;
  drive_line := drive_pic_line
|}.

End Lines.

(** ** Properties *)

(** C5: Whatever sequence of line changes and register writes the devices and
    the guest perform after reset, the pending count is exactly the number of
    lines that are asserted and enabled (so it never wraps), and the two CPU
    lines carry exactly "some enabled line is asserted". *)
Theorem int_reach_invariant {C : Type} (parent_irq parent_fiq : qemu_irq C)
    `{L : !LinePair parent_irq parent_fiq} (c0 : C) w :
  irq_level c0 = false -> fiq_level c0 = false ->
  int_reach parent_irq parent_fiq c0 w ->
  int_wf w.1 /\
  irq_level w.2 = ctrue (Z.land (level w.1) (irq_enabled w.1)) /\
  fiq_level w.2 = ctrue (Z.land (level w.1) (fiq_enabled w.1)).
Proof.
  intros Hi Hf Hr. induction Hr as [|w w' Hr IH Hs].
  - split; [apply int_wf_init|]. simpl. by rewrite Hi, Hf.
  - destruct IH as [Hwf _]. by apply (int_step_ok parent_irq parent_fiq w w').
Qed.

Definition cpu0 : CPUState := mkCPU 0 (Some 7%nat) 0 0 [].

Lemma int_reach_invariant_witness :
  let w := (mkInt 8 1 8 0, mkCPU 2 None 0 0 [7%nat]) in
  int_wf w.1 /\ hard_pending w.2 = true /\ fiq_pending w.2 = false.
Proof.
  intros w. refine (int_reach_invariant (cpu_line 0) (cpu_line 1) cpu0 w eq_refl eq_refl _).
  apply (reach_step _ _ _ (mkInt 0 0 8 0, cpu0)).
  - apply (reach_step _ _ _ (goldfish_int_init, cpu0)); [constructor|].
    by apply (step_write _ _ INTERRUPT_ENABLE 3).
  - by apply (step_line _ _ 3 1).
Defined.

(** The guest's view of a well-formed controller: the status register is
    zero exactly when no enabled line is asserted, and otherwise the number
    register names the lowest asserted and enabled line. *)
Theorem int_read_status_number (s : goldfish_int_state) :
  int_wf s ->
  exists st num,
    goldfish_int_read INTERRUPT_STATUS s = Ok st /\
    goldfish_int_read INTERRUPT_NUMBER s = Ok num /\
    (st = 0 <-> ctrue (Z.land (level s) (irq_enabled s)) = false) /\
    (st = 0 -> num = 0) /\
    (st <> 0 -> 0 <= num < 32 /\
       Z.testbit (level s) num = true /\ Z.testbit (irq_enabled s) num = true /\
       forall j, 0 <= j < num ->
         Z.testbit (level s) j = false \/ Z.testbit (irq_enabled s) j = false).
Proof.
  intros (Hl & He & Hf & Hp). set (z := Z.land (level s) (irq_enabled s)) in *.
  assert (Hz : in_u32 z) by by apply in_u32_land.
  exists (pending_count s), (first_pending 32 0 z). split; [done|]. split; [done|].
  assert (H0 : pending_count s = 0 <-> ctrue z = false).
  { rewrite Hp, popcount_zero, <- not_true_iff_false, ctrue_u32_bits by done.
    split; [intros H (k & Hk & Ht); by rewrite H in Ht|].
    intros H i Hi. apply not_true_iff_false. naive_solver. }
  split; [done|]. split.
  - intros E. apply first_pending_none; [done|]. rewrite Hp in E.
    by apply popcount_zero.
  - intros E. destruct (first_pending_spec 32 0 z) as (H1 & H2 & H3); [done| |].
    + apply ctrue_u32_bits; [done|]. apply not_false_iff_true. naive_solver.
    + unfold z in H2. rewrite Z.land_spec in H2. apply andb_true_iff in H2 as [].
      split_and!; [lia..|done|done|]. intros j Hj. specialize (H3 j Hj).
      unfold z in H3. rewrite Z.land_spec in H3. by apply andb_false_iff in H3.
Qed.

Lemma int_read_status_number_witness :
  let s := mkInt 12 1 9 0 in
  int_wf s /\ goldfish_int_read INTERRUPT_NUMBER s = Ok 3.
Proof.
  split; [done|].
  destruct (int_read_status_number (mkInt 12 1 9 0)) as (st & num & _ & H & _ );
    [done|]. rewrite H. by vm_compute in H |- *.
Defined.

(** The controller of the board, wired to the ARM CPU, in its reset state:
    the concrete lines on which the devices' theorems are exercised. *)
Definition arm_pic : list (qemu_irq (goldfish_int_state * CPUState)) :=
  goldfish_int_lines (cpu_line 0) (cpu_line 1).
Definition pic0 : goldfish_int_state * CPUState := (goldfish_int_init, cpu0).
#[global] Instance arm_pic_lines : PicLines (goldfish_int_state * CPUState) arm_pic :=
  goldfish_pic_lines (cpu_line 0) (cpu_line 1).
