(* ===== verification/Aes.v ===== *)
(** * The AES cipher: [aes.c] and [aes.h]

    Key expansion, block encryption and decryption with the T-tables (the
    build leaves [FULL_UNROLL] undefined, so the loops are the ones modelled)
    and CBC mode. Words are 32-bit [Z]s, byte buffers lists of bytes; [rk] is
    the array [key->rd_key] together with the offset the pointer has moved. *)
From S2P Require Import Prelude AesTables.

Definition AES_MAXNR : nat := 14.
Definition AES_BLOCK_SIZE : nat := 16.

(** [struct aes_key_st] *)
Record AES_KEY := mkKey {
  rd_key : list Z;
  rounds : Z
}.

(** Reads at a [nat] index, in range by construction. *)
Definition ix (l : list Z) (k : nat) : Z := default 0 (l !! k).

(** [GETU32(pt + o)] and [PUTU32(ct, st)]. *)
Definition GETU32 (pt : list Z) (o : nat) : Z :=
  Z.lxor (Z.lxor (Z.lxor (Z.shiftl (ix pt o) 24) (Z.shiftl (ix pt (o + 1)) 16))
            (Z.shiftl (ix pt (o + 2)) 8))
    (ix pt (o + 3)).
Definition PUTU32 (st : Z) : list Z :=
  [u8 (Z.shiftr st 24); u8 (Z.shiftr st 16); u8 (Z.shiftr st 8); u8 st].

(** The byte selectors of the source: [w >> 24], [(w >> 16) & 0xff], ... *)
Definition b3 (w : Z) : Z := Z.shiftr w 24.
Definition b2 (w : Z) : Z := Z.land (Z.shiftr w 16) 0xff.
Definition b1 (w : Z) : Z := Z.land (Z.shiftr w 8) 0xff.
Definition b0 (w : Z) : Z := Z.land w 0xff.

(** ** Key expansion *)

(** The word mixed into every [Nk]-th word: the bytes of [temp] rotated,
    substituted, with the round constant. *)
Definition sub_rot_word (temp : Z) : Z :=
  Z.lxor (Z.lxor (Z.lxor
    (Z.land (arr Te4 (b2 temp)) 0xff000000)
    (Z.land (arr Te4 (b1 temp)) 0x00ff0000))
    (Z.land (arr Te4 (b0 temp)) 0x0000ff00))
    (Z.land (arr Te4 (b3 temp)) 0x000000ff).

(** The word of 256-bit keys that is only substituted. *)
Definition sub_word (temp : Z) : Z :=
  Z.lxor (Z.lxor (Z.lxor
    (Z.land (arr Te4 (b3 temp)) 0xff000000)
    (Z.land (arr Te4 (b2 temp)) 0x00ff0000))
    (Z.land (arr Te4 (b1 temp)) 0x0000ff00))
    (Z.land (arr Te4 (b0 temp)) 0x000000ff).

(** [rk[k] = v] *)
Definition put (k : nat) (v : Z) (rk : list Z) : list Z := <[k := v]> rk.

(** The three loops [while (1) { ... }]: [i] counts up to the exit test, [o]
    is how far [rk] has moved. *)
Fixpoint expand128 (fuel i o : nat) (rk : list Z) : option (list Z) :=
  match fuel with
  | O => None
  | S fuel' =>
      let temp := ix rk (o + 3) in
      let rk := put (o + 4) (Z.lxor (Z.lxor (ix rk o) (sub_rot_word temp)) (ix rcon i)) rk in
      let rk := put (o + 5) (Z.lxor (ix rk (o + 1)) (ix rk (o + 4))) rk in
      let rk := put (o + 6) (Z.lxor (ix rk (o + 2)) (ix rk (o + 5))) rk in
      let rk := put (o + 7) (Z.lxor (ix rk (o + 3)) (ix rk (o + 6))) rk in
      if (S i =? 10)%nat then Some rk
      else expand128 fuel' (S i) (o + 4) rk
  end.

Fixpoint expand192 (fuel i o : nat) (rk : list Z) : option (list Z) :=
  match fuel with
  | O => None
  | S fuel' =>
      let temp := ix rk (o + 5) in
      let rk := put (o + 6) (Z.lxor (Z.lxor (ix rk o) (sub_rot_word temp)) (ix rcon i)) rk in
      let rk := put (o + 7) (Z.lxor (ix rk (o + 1)) (ix rk (o + 6))) rk in
      let rk := put (o + 8) (Z.lxor (ix rk (o + 2)) (ix rk (o + 7))) rk in
      let rk := put (o + 9) (Z.lxor (ix rk (o + 3)) (ix rk (o + 8))) rk in
      if (S i =? 8)%nat then Some rk
      else
        let rk := put (o + 10) (Z.lxor (ix rk (o + 4)) (ix rk (o + 9))) rk in
        let rk := put (o + 11) (Z.lxor (ix rk (o + 5)) (ix rk (o + 10))) rk in
        expand192 fuel' (S i) (o + 6) rk
  end.

Fixpoint expand256 (fuel i o : nat) (rk : list Z) : option (list Z) :=
  match fuel with
  | O => None
  | S fuel' =>
      let temp := ix rk (o + 7) in
      let rk := put (o + 8) (Z.lxor (Z.lxor (ix rk o) (sub_rot_word temp)) (ix rcon i)) rk in
      let rk := put (o + 9) (Z.lxor (ix rk (o + 1)) (ix rk (o + 8))) rk in
      let rk := put (o + 10) (Z.lxor (ix rk (o + 2)) (ix rk (o + 9))) rk in
      let rk := put (o + 11) (Z.lxor (ix rk (o + 3)) (ix rk (o + 10))) rk in
      if (S i =? 7)%nat then Some rk
      else
        let temp := ix rk (o + 11) in
        let rk := put (o + 12) (Z.lxor (ix rk (o + 4)) (sub_word temp)) rk in
        let rk := put (o + 13) (Z.lxor (ix rk (o + 5)) (ix rk (o + 12))) rk in
        let rk := put (o + 14) (Z.lxor (ix rk (o + 6)) (ix rk (o + 13))) rk in
        let rk := put (o + 15) (Z.lxor (ix rk (o + 7)) (ix rk (o + 14))) rk in
        expand256 fuel' (S i) (o + 8) rk
  end.

(** [AES_set_encrypt_key]: the status and the key structure. A null pointer is
    [None]. The [None] result is a loop that ran out of fuel. *)
Definition AES_set_encrypt_key (userKey : option (list Z)) (bits : Z)
    (key : option AES_KEY) : option (Z * option AES_KEY) :=
  match userKey, key with
  | Some uk, Some k =>
      if negb (bits =? 128) && negb (bits =? 192) && negb (bits =? 256)
      then Some (-2, key)
      else
        let nr := if bits =? 128 then 10 else if bits =? 192 then 12 else 14 in
        let rk := rd_key k in
        let rk := put 0 (GETU32 uk 0) rk in
        let rk := put 1 (GETU32 uk 4) rk in
        let rk := put 2 (GETU32 uk 8) rk in
        let rk := put 3 (GETU32 uk 12) rk in
        if bits =? 128 then
          rk ← expand128 10 0 0 rk; Some (0, Some (mkKey rk nr))
        else
          let rk := put 4 (GETU32 uk 16) rk in
          let rk := put 5 (GETU32 uk 20) rk in
          if bits =? 192 then
            rk ← expand192 8 0 0 rk; Some (0, Some (mkKey rk nr))
          else
            let rk := put 6 (GETU32 uk 24) rk in
            let rk := put 7 (GETU32 uk 28) rk in
            rk ← expand256 7 0 0 rk; Some (0, Some (mkKey rk nr))
  | _, _ => Some (-1, key)
  end.

(** Swapping the round keys at [i] and [j], word by word. *)
Definition swap (a b : nat) (rk : list Z) : list Z :=
  let temp := ix rk a in
  let rk := put a (ix rk b) rk in
  put b temp rk.
Definition swap4 (i j : nat) (rk : list Z) : list Z :=
  swap (i + 3) (j + 3) (swap (i + 2) (j + 2) (swap (i + 1) (j + 1) (swap i j rk))).

(** [for (i = 0, j = 4*(key->rounds); i < j; i += 4, j -= 4)] *)
Fixpoint invert_order (fuel i j : nat) (rk : list Z) : list Z :=
  match fuel with
  | O => rk
  | S fuel' =>
      if (i <? j)%nat then invert_order fuel' (i + 4) (j - 4) (swap4 i j rk)
      else rk
  end.

Definition inv_mix_word (w : Z) : Z :=
  Z.lxor (Z.lxor (Z.lxor
    (arr Td0 (Z.land (arr Te4 (b3 w)) 0xff))
    (arr Td1 (Z.land (arr Te4 (b2 w)) 0xff)))
    (arr Td2 (Z.land (arr Te4 (b1 w)) 0xff)))
    (arr Td3 (Z.land (arr Te4 (b0 w)) 0xff)).

(** [for (i = 1; i < (key->rounds); i++) { rk += 4; ... }] with [n] rounds to
    go and [rk] moved to [o]. *)
Fixpoint inv_mix_keys (n o : nat) (rk : list Z) : list Z :=
  match n with
  | O => rk
  | S n' =>
      let o := (o + 4)%nat in
      let rk := put o (inv_mix_word (ix rk o)) rk in
      let rk := put (o + 1) (inv_mix_word (ix rk (o + 1))) rk in
      let rk := put (o + 2) (inv_mix_word (ix rk (o + 2))) rk in
      let rk := put (o + 3) (inv_mix_word (ix rk (o + 3))) rk in
      inv_mix_keys n' o rk
  end.

Definition AES_set_decrypt_key (userKey : option (list Z)) (bits : Z)
    (key : option AES_KEY) : option (Z * option AES_KEY) :=
  '(status, key) ← AES_set_encrypt_key userKey bits key;
  if status <? 0 then Some (status, key)
  else match key with
       | None => Some (status, key)
       | Some k =>
           let nr := Z.to_nat (rounds k) in
           let rk := invert_order nr 0 (4 * nr) (rd_key k) in
           let rk := inv_mix_keys (nr - 1) 0 rk in
           Some (0, Some (mkKey rk (rounds k)))
       end.

(** ** One block *)

(** The four state words. *)
Definition words : Type := Z * Z * Z * Z.

(** One table round: each new word takes one byte of each old word, in the
    order of [ShiftRows], and the round key at offset [o]. *)
Definition enc_word (a b c d k : Z) : Z :=
  Z.lxor (Z.lxor (Z.lxor (Z.lxor
    (arr Te0 (b3 a)) (arr Te1 (b2 b))) (arr Te2 (b1 c))) (arr Te3 (b0 d))) k.
Definition enc_round (s : words) (rk : list Z) (o : nat) : words :=
  let '(s0, s1, s2, s3) := s in
  (enc_word s0 s1 s2 s3 (ix rk o),
   enc_word s1 s2 s3 s0 (ix rk (o + 1)),
   enc_word s2 s3 s0 s1 (ix rk (o + 2)),
   enc_word s3 s0 s1 s2 (ix rk (o + 3))).

(** The loop [for (;;)], two rounds per turn, left in the middle when [--r]
    reaches 0; the result is [t0..t3] and the position of [rk]. *)
Fixpoint enc_loop (r : nat) (s : words) (rk : list Z) (o : nat) : option (words * nat) :=
  match r with
  | O => None
  | S r' =>
      let t := enc_round s rk (o + 4) in
      let o := (o + 8)%nat in
      if (r' =? 0)%nat then Some (t, o)
      else enc_loop r' (enc_round t rk o) rk o
  end.

Definition enc_last (a b c d k : Z) : Z :=
  Z.lxor (Z.lxor (Z.lxor (Z.lxor
    (Z.land (arr Te4 (b3 a)) 0xff000000)
    (Z.land (arr Te4 (b2 b)) 0x00ff0000))
    (Z.land (arr Te4 (b1 c)) 0x0000ff00))
    (Z.land (arr Te4 (b0 d)) 0x000000ff)) k.

Definition load_block (inp : list Z) (rk : list Z) : words :=
  (Z.lxor (GETU32 inp 0) (ix rk 0), Z.lxor (GETU32 inp 4) (ix rk 1),
   Z.lxor (GETU32 inp 8) (ix rk 2), Z.lxor (GETU32 inp 12) (ix rk 3)).

Definition AES_encrypt (inp : list Z) (key : AES_KEY) : option (list Z) :=
  let rk := rd_key key in
  let s := load_block inp rk in
  let r := Z.to_nat (Z.shiftr (rounds key) 1) in
  '((t0, t1, t2, t3), o) ← enc_loop r s rk 0;
  Some (PUTU32 (enc_last t0 t1 t2 t3 (ix rk o)) ++
        PUTU32 (enc_last t1 t2 t3 t0 (ix rk (o + 1))) ++
        PUTU32 (enc_last t2 t3 t0 t1 (ix rk (o + 2))) ++
        PUTU32 (enc_last t3 t0 t1 t2 (ix rk (o + 3)))).

Definition dec_word (a b c d k : Z) : Z :=
  Z.lxor (Z.lxor (Z.lxor (Z.lxor
    (arr Td0 (b3 a)) (arr Td1 (b2 b))) (arr Td2 (b1 c))) (arr Td3 (b0 d))) k.
Definition dec_round (s : words) (rk : list Z) (o : nat) : words :=
  let '(s0, s1, s2, s3) := s in
  (dec_word s0 s3 s2 s1 (ix rk o),
   dec_word s1 s0 s3 s2 (ix rk (o + 1)),
   dec_word s2 s1 s0 s3 (ix rk (o + 2)),
   dec_word s3 s2 s1 s0 (ix rk (o + 3))).

Fixpoint dec_loop (r : nat) (s : words) (rk : list Z) (o : nat) : option (words * nat) :=
  match r with
  | O => None
  | S r' =>
      let t := dec_round s rk (o + 4) in
      let o := (o + 8)%nat in
      if (r' =? 0)%nat then Some (t, o)
      else dec_loop r' (dec_round t rk o) rk o
  end.

Definition dec_last (a b c d k : Z) : Z :=
  Z.lxor (Z.lxor (Z.lxor (Z.lxor
    (Z.land (arr Td4 (b3 a)) 0xff000000)
    (Z.land (arr Td4 (b2 b)) 0x00ff0000))
    (Z.land (arr Td4 (b1 c)) 0x0000ff00))
    (Z.land (arr Td4 (b0 d)) 0x000000ff)) k.

Definition AES_decrypt (inp : list Z) (key : AES_KEY) : option (list Z) :=
  let rk := rd_key key in
  let s := load_block inp rk in
  let r := Z.to_nat (Z.shiftr (rounds key) 1) in
  '((t0, t1, t2, t3), o) ← dec_loop r s rk 0;
  Some (PUTU32 (dec_last t0 t3 t2 t1 (ix rk o)) ++
        PUTU32 (dec_last t1 t0 t3 t2 (ix rk (o + 1))) ++
        PUTU32 (dec_last t2 t1 t0 t3 (ix rk (o + 2))) ++
        PUTU32 (dec_last t3 t2 t1 t0 (ix rk (o + 3)))).

(** ** CBC mode *)

(** [for (n = 0; n < |a|; ++n) dst[n] = a[n] ^ b[n]] *)
Definition xor_bytes (a b : list Z) : list Z := zip_with Z.lxor a b.

(** The encryption branch of [AES_cbc_encrypt]: what is written to [out] and
    the final [ivec]. [len >= AES_BLOCK_SIZE] in the loop; the tail is padded
    with the bytes of [ivec]. *)
Fixpoint cbc_enc (fuel : nat) (inp : list Z) (key : AES_KEY) (ivec : list Z)
  : option (list Z * list Z) :=
  match fuel with
  | O => None
  | S fuel' =>
      if (AES_BLOCK_SIZE <=? length inp)%nat then
        let tmp := xor_bytes (take AES_BLOCK_SIZE inp) ivec in
        out ← AES_encrypt tmp key;
        '(rest, iv) ← cbc_enc fuel' (drop AES_BLOCK_SIZE inp) key out;
        Some (out ++ rest, iv)
      else if (0 <? length inp)%nat then
        let tmp := xor_bytes inp ivec ++ drop (length inp) ivec in
        tmp ← AES_encrypt tmp key;
        Some (tmp, tmp)
      else Some ([], ivec)
  end.

(** The decryption branch. [len] counts the bytes still to produce: the last,
    partial block still has its 16 bytes in [in]. *)
Fixpoint cbc_dec (fuel : nat) (inp : list Z) (len : nat) (key : AES_KEY) (ivec : list Z)
  : option (list Z * list Z) :=
  match fuel with
  | O => None
  | S fuel' =>
      if (AES_BLOCK_SIZE <=? len)%nat then
        let tmp := take AES_BLOCK_SIZE inp in
        out ← AES_decrypt tmp key;
        let out := xor_bytes out ivec in
        '(rest, iv) ← cbc_dec fuel' (drop AES_BLOCK_SIZE inp) (len - AES_BLOCK_SIZE) key tmp;
        Some (out ++ rest, iv)
      else if (0 <? len)%nat then
        let tmp := take AES_BLOCK_SIZE inp in
        tmp ← AES_decrypt tmp key;
        Some (xor_bytes (take len tmp) ivec, tmp)
      else Some ([], ivec)
  end.

(** [AES_cbc_encrypt(in, out, length, key, ivec, enc)]; every turn of the
    loops uses up a block, so [length / 16 + 1] turns are enough. *)
Definition AES_cbc_encrypt (inp : list Z) (len : nat) (key : AES_KEY) (ivec : list Z)
    (enc : bool) : option (list Z * list Z) :=
  let fuel := S (len / AES_BLOCK_SIZE) in
  if enc then cbc_enc fuel (take len inp) key ivec
  else cbc_dec fuel inp len key ivec.

(** FIPS-197, appendix C.1: a known answer. *)
Definition fips_key : list Z := map Z.of_nat (seq 0 16).
Definition fips_plain : list Z :=
  [0x00; 0x11; 0x22; 0x33; 0x44; 0x55; 0x66; 0x77;
   0x88; 0x99; 0xaa; 0xbb; 0xcc; 0xdd; 0xee; 0xff].
Definition blank_key : AES_KEY := mkKey (replicate 60 0) 0.

Example fips_197_c1 :
  ('(_, k) ← AES_set_encrypt_key (Some fips_key) 128 (Some blank_key);
   k ← k; AES_encrypt fips_plain k) =
  Some [0x69; 0xc4; 0xe0; 0xd8; 0x6a; 0x7b; 0x04; 0x30;
        0xd8; 0xcd; 0xb7; 0x80; 0x70; 0xb4; 0xc5; 0x5a].
Proof. vm_compute. reflexivity. Qed.
