(* ===== verification/AesSpec.v ===== *)
(** * FIPS-197: the cipher [aes.c] is to implement

    The field GF(2^8), the S-box as inversion followed by the affine map, the
    four transformations of the state and the cipher built from them; then
    that the T-tables of [AesTables] are what the comment over them says. *)
From S2P Require Import Prelude AesTables Aes.

(** ** The field *)

(** Multiplication by x modulo x^8 + x^4 + x^3 + x + 1. *)
Definition xtime (x : Z) : Z :=
  Z.lxor (Z.shiftl x 1) (if Z.testbit x 7 then 0x11b else 0).

(** Product, by the bits of the first factor. *)
Fixpoint gmul_bits (n : nat) (c x : Z) : Z :=
  match n with
  | O => 0
  | S n' => Z.lxor (if Z.odd c then x else 0) (gmul_bits n' (Z.div2 c) (xtime x))
  end.
Definition gmul (c x : Z) : Z := gmul_bits 8 c x.
Arguments gmul : simpl never.

(** The inverse, as the 254th power (0 goes to 0). *)
Fixpoint gpow (n : nat) (x : Z) : Z :=
  match n with O => 1 | S n' => gmul x (gpow n' x) end.
Definition ginv (x : Z) : Z :=
  let x2 := gmul x x in let x4 := gmul x2 x2 in let x8 := gmul x4 x4 in
  let x16 := gmul x8 x8 in let x32 := gmul x16 x16 in let x64 := gmul x32 x32 in
  let x128 := gmul x64 x64 in
  gmul x128 (gmul x64 (gmul x32 (gmul x16 (gmul x8 (gmul x4 x2))))).

Definition rotl8 (x k : Z) : Z := u8 (Z.lor (Z.shiftl x k) (Z.shiftr x (8 - k))).

(** The substitution box and its inverse. *)
Definition SubByte (x : Z) : Z :=
  let b := ginv x in
  Z.lxor (Z.lxor (Z.lxor (Z.lxor (Z.lxor b (rotl8 b 1)) (rotl8 b 2)) (rotl8 b 3))
            (rotl8 b 4)) 0x63.
Definition InvSubByte (y : Z) : Z :=
  ginv (Z.lxor (Z.lxor (Z.lxor (rotl8 y 1) (rotl8 y 3)) (rotl8 y 6)) 0x05).

(** The tabulated box of the source, and its inverse. *)
Definition S_ (x : Z) : Z := Z.land (arr Te4 x) 0xff.
Definition Si (x : Z) : Z := Z.land (arr Td4 x) 0xff.

(** ** States *)

Definition col : Type := Z * Z * Z * Z.
Definition state : Type := col * col * col * col.

Definition col_map (f : Z -> Z) (c : col) : col :=
  let '(x, y, z, t) := c in (f x, f y, f z, f t).
Definition col_xor (c d : col) : col :=
  let '(x, y, z, t) := c in let '(x', y', z', t') := d in
  (Z.lxor x x', Z.lxor y y', Z.lxor z z', Z.lxor t t').
Definition st_map (f : col -> col) (s : state) : state :=
  let '(a, b, c, d) := s in (f a, f b, f c, f d).

Definition AddRoundKey (s k : state) : state :=
  let '(a, b, c, d) := s in let '(a', b', c', d') := k in
  (col_xor a a', col_xor b b', col_xor c c', col_xor d d').
Definition SubBytes : state -> state := st_map (col_map SubByte).
Definition InvSubBytes : state -> state := st_map (col_map InvSubByte).

Definition ShiftRows (s : state) : state :=
  let '((a0, a1, a2, a3), (b0, b1, b2, b3), (c0, c1, c2, c3), (d0, d1, d2, d3)) := s in
  ((a0, b1, c2, d3), (b0, c1, d2, a3), (c0, d1, a2, b3), (d0, a1, b2, c3)).
Definition InvShiftRows (s : state) : state :=
  let '((a0, a1, a2, a3), (b0, b1, b2, b3), (c0, c1, c2, c3), (d0, d1, d2, d3)) := s in
  ((a0, d1, c2, b3), (b0, a1, d2, c3), (c0, b1, a2, d3), (d0, c1, b2, a3)).

Definition xor4 (a b c d : Z) : Z := Z.lxor (Z.lxor (Z.lxor a b) c) d.
Definition MixColumn (c : col) : col :=
  let '(x, y, z, t) := c in
  (xor4 (gmul 2 x) (gmul 3 y) z t, xor4 x (gmul 2 y) (gmul 3 z) t,
   xor4 x y (gmul 2 z) (gmul 3 t), xor4 (gmul 3 x) y z (gmul 2 t)).
Definition InvMixColumn (c : col) : col :=
  let '(x, y, z, t) := c in
  (xor4 (gmul 14 x) (gmul 11 y) (gmul 13 z) (gmul 9 t),
   xor4 (gmul 9 x) (gmul 14 y) (gmul 11 z) (gmul 13 t),
   xor4 (gmul 13 x) (gmul 9 y) (gmul 14 z) (gmul 11 t),
   xor4 (gmul 11 x) (gmul 13 y) (gmul 9 z) (gmul 14 t)).
Definition MixColumns : state -> state := st_map MixColumn.
Definition InvMixColumns : state -> state := st_map InvMixColumn.

(** ** The cipher, for the round keys [k 0 .. k Nr] *)

Fixpoint enc_state (k : nat -> state) (inp : state) (r : nat) : state :=
  match r with
  | O => AddRoundKey inp (k O)
  | S r' => AddRoundKey (MixColumns (ShiftRows (SubBytes (enc_state k inp r')))) (k r)
  end.
Definition Cipher (Nr : nat) (k : nat -> state) (inp : state) : state :=
  AddRoundKey (ShiftRows (SubBytes (enc_state k inp (Nr - 1)))) (k Nr).

(** ** Byte states *)

Definition byte_ok (x : Z) : Prop := in_u8 x.
Definition col_ok (c : col) : Prop :=
  let '(x, y, z, t) := c in byte_ok x /\ byte_ok y /\ byte_ok z /\ byte_ok t.
Definition state_ok (s : state) : Prop :=
  let '(a, b, c, d) := s in col_ok a /\ col_ok b /\ col_ok c /\ col_ok d.

(** A boolean test of all bytes decides a property of all bytes. *)
Definition all_bytes (f : Z -> bool) : bool := forallb f (map Z.of_nat (seq 0 256)).
Lemma all_bytes_spec f x : all_bytes f = true -> byte_ok x -> f x = true.
Proof.
  intros H Hx. unfold all_bytes in H. rewrite forallb_forall in H. apply H.
  rewrite <- (Z2Nat.id x) by (unfold byte_ok in Hx; lia).
  apply in_map, in_seq. unfold byte_ok in Hx. lia.
Qed.

(** ** Linearity *)

Lemma xtime_lxor x y : xtime (Z.lxor x y) = Z.lxor (xtime x) (xtime y).
Proof.
  unfold xtime. rewrite Z.lxor_spec, Z.shiftl_lxor.
  destruct (Z.testbit x 7), (Z.testbit y 7); simpl xorb; cbv iota;
    apply Z.bits_inj'; intros i Hi; rewrite !Z.lxor_spec, ?Z.bits_0; btauto.
Qed.

Lemma gmul_bits_lxor n c x y :
  gmul_bits n c (Z.lxor x y) = Z.lxor (gmul_bits n c x) (gmul_bits n c y).
Proof.
  revert c x y. induction n as [|n IH]; intros c x y; [done|]. cbn [gmul_bits].
  rewrite xtime_lxor, IH. destruct (Z.odd c);
    apply Z.bits_inj'; intros i Hi; rewrite !Z.lxor_spec, ?Z.bits_0; btauto.
Qed.

Lemma gmul_lxor c x y : gmul c (Z.lxor x y) = Z.lxor (gmul c x) (gmul c y).
Proof. apply gmul_bits_lxor. Qed.

Lemma xtime_byte x : byte_ok x -> byte_ok (xtime x).
Proof.
  intros Hx. pose proof (all_bytes_spec
    (fun x => (0 <=? xtime x) && (xtime x <? 256)) x) as H.
  specialize (H ltac:(by vm_compute) Hx). cbv beta in H. unfold byte_ok. lia.
Qed.

Lemma byte_lxor x y : byte_ok x -> byte_ok y -> byte_ok (Z.lxor x y).
Proof. apply (lxor_bound 8). lia. Qed.

Lemma gmul_byte c x : byte_ok x -> byte_ok (gmul c x).
Proof.
  unfold gmul. generalize 8%nat. intros n. revert c x.
  induction n as [|n IH]; intros c x Hx; [done|]. cbn [gmul_bits].
  apply byte_lxor; [by destruct (Z.odd c)|]. by apply IH, xtime_byte.
Qed.
#[global] Hint Resolve byte_lxor gmul_byte : bounds.

(** ** The box *)

Lemma S_SubByte x : byte_ok x -> S_ x = SubByte x.
Proof.
  intros Hx. apply Z.eqb_eq.
  apply (all_bytes_spec (fun x => S_ x =? SubByte x)); [by vm_compute|done].
Qed.

Lemma Si_InvSubByte x : byte_ok x -> Si x = InvSubByte x.
Proof.
  intros Hx. apply Z.eqb_eq.
  apply (all_bytes_spec (fun x => Si x =? InvSubByte x)); [by vm_compute|done].
Qed.

Lemma S_byte x : byte_ok (S_ x).
Proof. unfold S_, byte_ok. rewrite Z.land_comm. apply (land_bound 8); lia. Qed.
Lemma Si_byte x : byte_ok (Si x).
Proof. unfold Si, byte_ok. rewrite Z.land_comm. apply (land_bound 8); lia. Qed.

Lemma Si_S x : byte_ok x -> Si (S_ x) = x.
Proof.
  intros Hx. apply Z.eqb_eq.
  apply (all_bytes_spec (fun x => Si (S_ x) =? x)); [by vm_compute|done].
Qed.

Lemma S_Si x : byte_ok x -> S_ (Si x) = x.
Proof.
  intros Hx. apply Z.eqb_eq.
  apply (all_bytes_spec (fun x => S_ (Si x) =? x)); [by vm_compute|done].
Qed.
#[global] Hint Resolve S_byte Si_byte : bounds.

(** ** Words and columns *)

(** [GETU32] of four bytes. *)
Definition pack (x y z t : Z) : Z :=
  Z.lxor (Z.lxor (Z.lxor (Z.shiftl x 24) (Z.shiftl y 16)) (Z.shiftl z 8)) t.
Definition unpack (w : Z) : col := (b3 w, b2 w, b1 w, b0 w).

Lemma testbit_ff i : Z.testbit 0xff i = (0 <=? i) && (i <? 8).
Proof. change 0xff with (Z.ones 8). by apply testbit_ones. Qed.

Lemma testbit_byte x i : byte_ok x -> Z.testbit x i = (0 <=? i) && (i <? 8) && Z.testbit x i.
Proof.
  intros Hx. destruct (Z.leb_spec 0 i), (Z.ltb_spec i 8); simpl; try done.
  - by apply (testbit_bound 8).
  - by apply Z.testbit_neg_r.
  - by apply Z.testbit_neg_r.
Qed.

(** Proves a goal on the bits of packed words: the position is compared with
    the byte boundaries, and bits out of a byte are clear. *)
Ltac clear_bits :=
  repeat match goal with
  | H : byte_ok ?x |- context [Z.testbit ?x ?i] =>
      rewrite (testbit_bound 8 x i) by (unfold byte_ok in H; lia)
  | |- context [Z.testbit ?x ?i] => rewrite (Z.testbit_neg_r x i) by lia
  end.

Lemma unpack_pack x y z t :
  byte_ok x -> byte_ok y -> byte_ok z -> byte_ok t ->
  unpack (pack x y z t) = (x, y, z, t).
Proof.
  intros Hx Hy Hz Ht. unfold unpack, pack, b3, b2, b1, b0.
  repeat f_equal; apply Z.bits_inj'; intros i Hi;
    rewrite ?Z.land_spec, ?testbit_ff, ?Z.shiftr_spec, ?Z.lxor_spec, ?Z.shiftl_spec by lia;
    destruct (Z.lt_ge_cases i 8) as [Hlt|Hge];
    try (replace (0 <=? i) with true by lia; replace (i <? 8) with true by lia);
    try (replace (i <? 8) with false by lia; rewrite andb_false_r, ?andb_false_r);
    simpl andb; clear_bits; rewrite ?xorb_false_r, ?xorb_false_l, ?andb_true_r; try done;
    f_equal; lia.
Qed.

Lemma unpack_ok w : in_u32 w -> col_ok (unpack w).
Proof.
  intros Hw. unfold unpack, col_ok, byte_ok, b3, b2, b1, b0.
  split; [apply (shiftr_bound 32 24); lia|].
  rewrite !(Z.land_comm _ 0xff). split_and!; apply (land_bound 8); lia.
Qed.

(** Decides every comparison of the goal, keeping the consistent cases. *)
Ltac case_cmp :=
  repeat match goal with
  | |- context [?a <=? ?b] => destruct (Z.leb_spec a b)
  | |- context [?a <? ?b] => destruct (Z.ltb_spec a b)
  end; try lia; simpl andb.

Lemma testbit_shr w k j : 0 <= k -> Z.testbit (Z.shiftr w k) j = (0 <=? j) && Z.testbit w (j + k).
Proof.
  intros Hk. destruct (Z.leb_spec 0 j); simpl.
  - by apply Z.shiftr_spec.
  - by apply Z.testbit_neg_r.
Qed.

Lemma pack_unpack w : in_u32 w -> pack (b3 w) (b2 w) (b1 w) (b0 w) = w.
Proof.
  intros Hw. unfold pack, b3, b2, b1, b0. apply Z.bits_inj'. intros i Hi.
  rewrite !Z.lxor_spec, !Z.shiftl_spec, !Z.land_spec, !testbit_ff, !testbit_shr by lia.
  rewrite !Z.sub_add. destruct (Z.testbit w i); case_cmp; rewrite ?andb_false_r; done.
Qed.

Lemma unpack_lxor v w : unpack (Z.lxor v w) = col_xor (unpack v) (unpack w).
Proof.
  unfold unpack, col_xor, b3, b2, b1, b0.
  assert (H : forall x y m, Z.land (Z.lxor x y) m = Z.lxor (Z.land x m) (Z.land y m)).
  { intros x y m. apply Z.bits_inj'. intros i Hi.
    rewrite !Z.land_spec, !Z.lxor_spec, !Z.land_spec. btauto. }
  by rewrite !Z.shiftr_lxor, !H.
Qed.

Lemma pack_lxor x y z t x' y' z' t' :
  Z.lxor (pack x y z t) (pack x' y' z' t') =
  pack (Z.lxor x x') (Z.lxor y y') (Z.lxor z z') (Z.lxor t t').
Proof.
  unfold pack. rewrite !Z.shiftl_lxor.
  apply Z.bits_inj'. intros i Hi. rewrite !Z.lxor_spec. btauto.
Qed.

Lemma pack_u32 x y z t :
  byte_ok x -> byte_ok y -> byte_ok z -> byte_ok t -> in_u32 (pack x y z t).
Proof.
  intros Hx Hy Hz Ht. apply (bits_bound 32); [lia|]. intros i Hi. unfold pack.
  rewrite !Z.lxor_spec, !Z.shiftl_spec by lia. clear_bits. done.
Qed.

(** ** The tables *)

Lemma Te0_spec x : byte_ok x -> arr Te0 x = pack (gmul 2 (S_ x)) (S_ x) (S_ x) (gmul 3 (S_ x)).
Proof.
  intros Hx. apply Z.eqb_eq. apply (all_bytes_spec (fun x =>
    arr Te0 x =? pack (gmul 2 (S_ x)) (S_ x) (S_ x) (gmul 3 (S_ x)))); [by vm_compute|done].
Qed.
Lemma Te1_spec x : byte_ok x -> arr Te1 x = pack (gmul 3 (S_ x)) (gmul 2 (S_ x)) (S_ x) (S_ x).
Proof.
  intros Hx. apply Z.eqb_eq. apply (all_bytes_spec (fun x =>
    arr Te1 x =? pack (gmul 3 (S_ x)) (gmul 2 (S_ x)) (S_ x) (S_ x))); [by vm_compute|done].
Qed.
Lemma Te2_spec x : byte_ok x -> arr Te2 x = pack (S_ x) (gmul 3 (S_ x)) (gmul 2 (S_ x)) (S_ x).
Proof.
  intros Hx. apply Z.eqb_eq. apply (all_bytes_spec (fun x =>
    arr Te2 x =? pack (S_ x) (gmul 3 (S_ x)) (gmul 2 (S_ x)) (S_ x))); [by vm_compute|done].
Qed.
Lemma Te3_spec x : byte_ok x -> arr Te3 x = pack (S_ x) (S_ x) (gmul 3 (S_ x)) (gmul 2 (S_ x)).
Proof.
  intros Hx. apply Z.eqb_eq. apply (all_bytes_spec (fun x =>
    arr Te3 x =? pack (S_ x) (S_ x) (gmul 3 (S_ x)) (gmul 2 (S_ x)))); [by vm_compute|done].
Qed.
Lemma Te4_spec x : byte_ok x -> arr Te4 x = pack (S_ x) (S_ x) (S_ x) (S_ x).
Proof.
  intros Hx. apply Z.eqb_eq. apply (all_bytes_spec (fun x =>
    arr Te4 x =? pack (S_ x) (S_ x) (S_ x) (S_ x))); [by vm_compute|done].
Qed.
Lemma Td0_spec x : byte_ok x ->
  arr Td0 x = pack (gmul 14 (Si x)) (gmul 9 (Si x)) (gmul 13 (Si x)) (gmul 11 (Si x)).
Proof.
  intros Hx. apply Z.eqb_eq. apply (all_bytes_spec (fun x =>
    arr Td0 x =? pack (gmul 14 (Si x)) (gmul 9 (Si x)) (gmul 13 (Si x)) (gmul 11 (Si x))));
    [by vm_compute|done].
Qed.
Lemma Td1_spec x : byte_ok x ->
  arr Td1 x = pack (gmul 11 (Si x)) (gmul 14 (Si x)) (gmul 9 (Si x)) (gmul 13 (Si x)).
Proof.
  intros Hx. apply Z.eqb_eq. apply (all_bytes_spec (fun x =>
    arr Td1 x =? pack (gmul 11 (Si x)) (gmul 14 (Si x)) (gmul 9 (Si x)) (gmul 13 (Si x))));
    [by vm_compute|done].
Qed.
Lemma Td2_spec x : byte_ok x ->
  arr Td2 x = pack (gmul 13 (Si x)) (gmul 11 (Si x)) (gmul 14 (Si x)) (gmul 9 (Si x)).
Proof.
  intros Hx. apply Z.eqb_eq. apply (all_bytes_spec (fun x =>
    arr Td2 x =? pack (gmul 13 (Si x)) (gmul 11 (Si x)) (gmul 14 (Si x)) (gmul 9 (Si x))));
    [by vm_compute|done].
Qed.
Lemma Td3_spec x : byte_ok x ->
  arr Td3 x = pack (gmul 9 (Si x)) (gmul 13 (Si x)) (gmul 11 (Si x)) (gmul 14 (Si x)).
Proof.
  intros Hx. apply Z.eqb_eq. apply (all_bytes_spec (fun x =>
    arr Td3 x =? pack (gmul 9 (Si x)) (gmul 13 (Si x)) (gmul 11 (Si x)) (gmul 14 (Si x))));
    [by vm_compute|done].
Qed.
Lemma Td4_spec x : byte_ok x -> arr Td4 x = pack (Si x) (Si x) (Si x) (Si x).
Proof.
  intros Hx. apply Z.eqb_eq. apply (all_bytes_spec (fun x =>
    arr Td4 x =? pack (Si x) (Si x) (Si x) (Si x))); [by vm_compute|done].
Qed.

(** ** MixColumns and its inverse *)

Lemma gmul_2 x : gmul 2 x = xtime x.
Proof. unfold gmul. cbn. by rewrite ?Z.lxor_0_r, ?Z.lxor_0_l. Qed.
Lemma gmul_3 x : gmul 3 x = Z.lxor x (xtime x).
Proof. unfold gmul. cbn. by rewrite ?Z.lxor_0_r, ?Z.lxor_0_l. Qed.
Lemma gmul_9 x : gmul 9 x = Z.lxor x (xtime (xtime (xtime x))).
Proof. unfold gmul. cbn. by rewrite ?Z.lxor_0_r, ?Z.lxor_0_l. Qed.
Lemma gmul_11 x : gmul 11 x = Z.lxor x (Z.lxor (xtime x) (xtime (xtime (xtime x)))).
Proof. unfold gmul. cbn. by rewrite ?Z.lxor_0_r, ?Z.lxor_0_l. Qed.
Lemma gmul_13 x : gmul 13 x = Z.lxor x (Z.lxor (xtime (xtime x)) (xtime (xtime (xtime x)))).
Proof. unfold gmul. cbn. by rewrite ?Z.lxor_0_r, ?Z.lxor_0_l. Qed.
Lemma gmul_14 x : gmul 14 x =
  Z.lxor (xtime x) (Z.lxor (xtime (xtime x)) (xtime (xtime (xtime x)))).
Proof. unfold gmul. cbn. by rewrite ?Z.lxor_0_r, ?Z.lxor_0_l. Qed.

(** Equality of tuples, component by component. *)
Ltac split_pairs := repeat match goal with |- (_, _) = (_, _) => apply f_equal2 end.

(** Equality of two sums of field elements, bit by bit. *)
Ltac xor_bits := apply Z.bits_inj'; intros i Hi; rewrite ?Z.lxor_spec, ?Z.bits_0; btauto.

(** The two circulant matrices are inverse to each other, without using the
    reduction polynomial. *)
Lemma InvMix_Mix c : InvMixColumn (MixColumn c) = c.
Proof.
  destruct c as [[[x y] z] t]. unfold MixColumn, InvMixColumn, xor4.
  rewrite !gmul_lxor, !gmul_2, !gmul_3, !gmul_9, !gmul_11, !gmul_13, !gmul_14, !xtime_lxor.
  split_pairs; xor_bits.
Qed.

Lemma Mix_InvMix c : MixColumn (InvMixColumn c) = c.
Proof.
  destruct c as [[[x y] z] t]. unfold MixColumn, InvMixColumn, xor4.
  rewrite !gmul_lxor, !gmul_2, !gmul_3, !gmul_9, !gmul_11, !gmul_13, !gmul_14, !xtime_lxor.
  split_pairs; xor_bits.
Qed.

Lemma InvMix_xor c d : InvMixColumn (col_xor c d) = col_xor (InvMixColumn c) (InvMixColumn d).
Proof.
  destruct c as [[[x y] z] t], d as [[[x' y'] z'] t']. simpl. unfold xor4.
  rewrite !gmul_lxor. split_pairs; xor_bits.
Qed.

Lemma col_xor_cancel c d : col_xor (col_xor c d) d = c.
Proof.
  destruct c as [[[x y] z] t], d as [[[x' y'] z'] t']. simpl.
  split_pairs; xor_bits.
Qed.

Lemma AddRoundKey_cancel s k : AddRoundKey (AddRoundKey s k) k = s.
Proof.
  destruct s as [[[a b] c] d], k as [[[a' b'] c'] d']. simpl.
  by rewrite !col_xor_cancel.
Qed.

Lemma InvShift_Shift s : InvShiftRows (ShiftRows s) = s.
Proof. by destruct s as [[[[[[? ?] ?] ?] [[[? ?] ?] ?]] [[[? ?] ?] ?]] [[[? ?] ?] ?]]. Qed.

(** ** Byte states are kept *)

#[local] Opaque gmul.

Lemma col_xor_ok c d : col_ok c -> col_ok d -> col_ok (col_xor c d).
Proof.
  destruct c as [[[x y] z] t], d as [[[x' y'] z'] t']. simpl.
  intros (? & ? & ? & ?) (? & ? & ? & ?). auto 6 using byte_lxor.
Qed.

Lemma MixColumn_ok c : col_ok c -> col_ok (MixColumn c).
Proof.
  destruct c as [[[x y] z] t]. simpl. intros (? & ? & ? & ?). unfold xor4.
  (split; [|split; [|split]]); repeat apply byte_lxor; auto using gmul_byte.
Qed.

Lemma InvMixColumn_ok c : col_ok c -> col_ok (InvMixColumn c).
Proof.
  destruct c as [[[x y] z] t]. simpl. intros (? & ? & ? & ?). unfold xor4.
  (split; [|split; [|split]]); repeat apply byte_lxor; auto using gmul_byte.
Qed.

(** The tabulated box on a whole state. *)
Definition st_S : state -> state := st_map (col_map S_).
Definition st_Si : state -> state := st_map (col_map Si).

Lemma st_S_SubBytes s : state_ok s -> st_S s = SubBytes s.
Proof.
  destruct s as [[[[[[? ?] ?] ?] [[[? ?] ?] ?]] [[[? ?] ?] ?]] [[[? ?] ?] ?]].
  unfold state_ok, col_ok. intros H. destruct_and! H.
  unfold st_S, SubBytes, st_map, col_map. by rewrite !S_SubByte by done.
Qed.

Lemma st_Si_S s : state_ok s -> st_Si (st_S s) = s.
Proof.
  destruct s as [[[[[[? ?] ?] ?] [[[? ?] ?] ?]] [[[? ?] ?] ?]] [[[? ?] ?] ?]].
  unfold state_ok, col_ok. intros H. destruct_and! H.
  unfold st_S, st_Si, st_map, col_map. by rewrite !Si_S by done.
Qed.

Lemma st_S_ok s : state_ok (st_S s).
Proof.
  destruct s as [[[[[[? ?] ?] ?] [[[? ?] ?] ?]] [[[? ?] ?] ?]] [[[? ?] ?] ?]].
  unfold state_ok, col_ok, st_S, st_map, col_map. auto 30 using S_byte.
Qed.

Lemma ShiftRows_ok s : state_ok s -> state_ok (ShiftRows s).
Proof.
  destruct s as [[[[[[? ?] ?] ?] [[[? ?] ?] ?]] [[[? ?] ?] ?]] [[[? ?] ?] ?]].
  unfold state_ok, col_ok, ShiftRows. tauto.
Qed.

Lemma MixColumns_ok s : state_ok s -> state_ok (MixColumns s).
Proof.
  destruct s as [[[a b] c] d]. unfold state_ok, MixColumns, st_map.
  intros (? & ? & ? & ?). auto 6 using MixColumn_ok.
Qed.

Lemma AddRoundKey_ok s k : state_ok s -> state_ok k -> state_ok (AddRoundKey s k).
Proof.
  destruct s as [[[a b] c] d], k as [[[a' b'] c'] d']. unfold state_ok, AddRoundKey.
  intros (? & ? & ? & ?) (? & ? & ? & ?). auto 6 using col_xor_ok.
Qed.

Lemma st_S_Shift s : st_S (ShiftRows s) = ShiftRows (st_S s).
Proof. by destruct s as [[[[[[? ?] ?] ?] [[[? ?] ?] ?]] [[[? ?] ?] ?]] [[[? ?] ?] ?]]. Qed.
Lemma st_Si_Shift s : st_Si (ShiftRows s) = ShiftRows (st_Si s).
Proof. by destruct s as [[[[[[? ?] ?] ?] [[[? ?] ?] ?]] [[[? ?] ?] ?]] [[[? ?] ?] ?]]. Qed.
