(* ===== verification/AesProofs.v ===== *)
(** * [aes.c] implements FIPS-197

    The table rounds are the rounds of the standard, the key schedules are the
    standard's key expansion and its equivalent inverse schedule, decryption
    inverts encryption, and CBC decryption inverts CBC encryption. *)
From S2P Require Import Prelude AesTables Aes AesSpec.
#[local] Opaque gmul.

(** ** Words *)

Definition words_ok (s : words) : Prop :=
  let '(s0, s1, s2, s3) := s in in_u32 s0 /\ in_u32 s1 /\ in_u32 s2 /\ in_u32 s3.
Definition st_of (s : words) : state :=
  let '(s0, s1, s2, s3) := s in (unpack s0, unpack s1, unpack s2, unpack s3).

Lemma b3_byte w : in_u32 w -> byte_ok (b3 w).
Proof. intros H. apply (unpack_ok w H). Qed.
Lemma b2_byte w : byte_ok (b2 w).
Proof. unfold b2, byte_ok. rewrite Z.land_comm. apply (land_bound 8); lia. Qed.
Lemma b1_byte w : byte_ok (b1 w).
Proof. unfold b1, byte_ok. rewrite Z.land_comm. apply (land_bound 8); lia. Qed.
Lemma b0_byte w : byte_ok (b0 w).
Proof. unfold b0, byte_ok. rewrite Z.land_comm. apply (land_bound 8); lia. Qed.
Lemma u32_lxor v w : in_u32 v -> in_u32 w -> in_u32 (Z.lxor v w).
Proof. apply (lxor_bound 32). lia. Qed.
Create HintDb aes.
#[local] Hint Resolve b3_byte b2_byte b1_byte b0_byte u32_lxor
  S_byte Si_byte gmul_byte byte_lxor pack_u32 : aes.

Lemma st_of_ok s : words_ok s -> state_ok (st_of s).
Proof.
  destruct s as [[[? ?] ?] ?]. unfold words_ok, st_of, state_ok.
  intros (? & ? & ? & ?). auto 6 using unpack_ok.
Qed.

(** The packed sum of the four table entries. *)
Lemma enc_tables a b c d :
  byte_ok a -> byte_ok b -> byte_ok c -> byte_ok d ->
  Z.lxor (Z.lxor (Z.lxor (arr Te0 a) (arr Te1 b)) (arr Te2 c)) (arr Te3 d) =
  let '(x, y, z, t) := MixColumn (S_ a, S_ b, S_ c, S_ d) in pack x y z t.
Proof.
  intros. rewrite Te0_spec, Te1_spec, Te2_spec, Te3_spec by done.
  by rewrite !pack_lxor.
Qed.

Lemma dec_tables a b c d :
  byte_ok a -> byte_ok b -> byte_ok c -> byte_ok d ->
  Z.lxor (Z.lxor (Z.lxor (arr Td0 a) (arr Td1 b)) (arr Td2 c)) (arr Td3 d) =
  let '(x, y, z, t) := InvMixColumn (Si a, Si b, Si c, Si d) in pack x y z t.
Proof.
  intros. rewrite Td0_spec, Td1_spec, Td2_spec, Td3_spec by done.
  by rewrite !pack_lxor.
Qed.

Lemma packed_col (c : col) :
  col_ok c ->
  in_u32 (let '(x, y, z, t) := c in pack x y z t) /\
  unpack (let '(x, y, z, t) := c in pack x y z t) = c.
Proof.
  destruct c as [[[x y] z] t]. intros (? & ? & ? & ?).
  split; [by apply pack_u32|by apply unpack_pack].
Qed.

Lemma S_col_ok a b c d : col_ok (S_ a, S_ b, S_ c, S_ d).
Proof. unfold col_ok. auto using S_byte. Qed.
Lemma Si_col_ok a b c d : col_ok (Si a, Si b, Si c, Si d).
Proof. unfold col_ok. auto using Si_byte. Qed.

Lemma enc_word_spec a b c d k :
  in_u32 a -> in_u32 k ->
  in_u32 (enc_word a b c d k) /\
  unpack (enc_word a b c d k) =
  col_xor (MixColumn (S_ (b3 a), S_ (b2 b), S_ (b1 c), S_ (b0 d))) (unpack k).
Proof.
  intros Ha Hk. unfold enc_word. rewrite enc_tables by auto with aes.
  destruct (packed_col (MixColumn (S_ (b3 a), S_ (b2 b), S_ (b1 c), S_ (b0 d)))) as [H1 H2].
  { apply MixColumn_ok, S_col_ok. }
  split; [by apply u32_lxor|]. by rewrite unpack_lxor, H2.
Qed.

Lemma dec_word_spec a b c d k :
  in_u32 a -> in_u32 k ->
  in_u32 (dec_word a b c d k) /\
  unpack (dec_word a b c d k) =
  col_xor (InvMixColumn (Si (b3 a), Si (b2 b), Si (b1 c), Si (b0 d))) (unpack k).
Proof.
  intros Ha Hk. unfold dec_word. rewrite dec_tables by auto with aes.
  destruct (packed_col (InvMixColumn (Si (b3 a), Si (b2 b), Si (b1 c), Si (b0 d)))) as [H1 H2].
  { apply InvMixColumn_ok, Si_col_ok. }
  split; [by apply u32_lxor|]. by rewrite unpack_lxor, H2.
Qed.

(** The last round masks one byte out of four equal ones. *)
Lemma mask_pack x :
  byte_ok x ->
  Z.land (pack x x x x) 0xff000000 = pack x 0 0 0 /\
  Z.land (pack x x x x) 0x00ff0000 = pack 0 x 0 0 /\
  Z.land (pack x x x x) 0x0000ff00 = pack 0 0 x 0 /\
  Z.land (pack x x x x) 0x000000ff = pack 0 0 0 x.
Proof.
  intros Hx. split_and!; apply Z.eqb_eq.
  - apply (all_bytes_spec (fun x => Z.land (pack x x x x) 0xff000000 =? pack x 0 0 0));
      [by vm_compute|done].
  - apply (all_bytes_spec (fun x => Z.land (pack x x x x) 0x00ff0000 =? pack 0 x 0 0));
      [by vm_compute|done].
  - apply (all_bytes_spec (fun x => Z.land (pack x x x x) 0x0000ff00 =? pack 0 0 x 0));
      [by vm_compute|done].
  - apply (all_bytes_spec (fun x => Z.land (pack x x x x) 0x000000ff =? pack 0 0 0 x));
      [by vm_compute|done].
Qed.

Lemma masked_sum a b c d :
  byte_ok a -> byte_ok b -> byte_ok c -> byte_ok d ->
  Z.lxor (Z.lxor (Z.lxor (Z.land (pack a a a a) 0xff000000)
    (Z.land (pack b b b b) 0x00ff0000)) (Z.land (pack c c c c) 0x0000ff00))
    (Z.land (pack d d d d) 0x000000ff) = pack a b c d.
Proof.
  intros Ha Hb Hc Hd.
  destruct (mask_pack a Ha) as (-> & _), (mask_pack b Hb) as (_ & -> & _),
    (mask_pack c Hc) as (_ & _ & -> & _), (mask_pack d Hd) as (_ & _ & _ & ->).
  rewrite !pack_lxor. by rewrite ?Z.lxor_0_r, ?Z.lxor_0_l.
Qed.

Lemma enc_last_spec a b c d k :
  in_u32 a -> in_u32 k ->
  in_u32 (enc_last a b c d k) /\
  unpack (enc_last a b c d k) =
  col_xor (S_ (b3 a), S_ (b2 b), S_ (b1 c), S_ (b0 d)) (unpack k).
Proof.
  intros Ha Hk. unfold enc_last. rewrite !Te4_spec, masked_sum by auto with aes.
  split; [auto with aes|]. by rewrite unpack_lxor, unpack_pack by auto with aes.
Qed.

Lemma dec_last_spec a b c d k :
  in_u32 a -> in_u32 k ->
  in_u32 (dec_last a b c d k) /\
  unpack (dec_last a b c d k) =
  col_xor (Si (b3 a), Si (b2 b), Si (b1 c), Si (b0 d)) (unpack k).
Proof.
  intros Ha Hk. unfold dec_last. rewrite !Td4_spec, masked_sum by auto with aes.
  split; [auto with aes|]. by rewrite unpack_lxor, unpack_pack by auto with aes.
Qed.

(** ** Rounds *)

(** The round key at position [4 r] of an expanded key. *)
Definition rkey (rk : list Z) (r : nat) : state :=
  (unpack (ix rk (4 * r)), unpack (ix rk (4 * r + 1)),
   unpack (ix rk (4 * r + 2)), unpack (ix rk (4 * r + 3))).

(** All the words of an expanded key are 32-bit. *)
Definition rk_ok (rk : list Z) : Prop := forall i, in_u32 (ix rk i).

Lemma rkey_ok rk r : rk_ok rk -> state_ok (rkey rk r).
Proof. intros H. unfold rkey, state_ok. auto 6 using unpack_ok. Qed.

Lemma enc_round_spec s rk q :
  words_ok s -> rk_ok rk ->
  words_ok (enc_round s rk (4 * q)) /\
  st_of (enc_round s rk (4 * q)) =
  AddRoundKey (MixColumns (ShiftRows (SubBytes (st_of s)))) (rkey rk q).
Proof.
  intros Hs Hk. rewrite <- st_S_SubBytes by by apply st_of_ok.
  destruct s as [[[s0 s1] s2] s3]. destruct Hs as (H0 & H1 & H2 & H3).
  unfold enc_round.
  destruct (enc_word_spec s0 s1 s2 s3 (ix rk (4 * q))) as [A0 B0]; [done..|].
  destruct (enc_word_spec s1 s2 s3 s0 (ix rk (4 * q + 1))) as [A1 B1]; [done..|].
  destruct (enc_word_spec s2 s3 s0 s1 (ix rk (4 * q + 2))) as [A2 B2]; [done..|].
  destruct (enc_word_spec s3 s0 s1 s2 (ix rk (4 * q + 3))) as [A3 B3]; [done..|].
  split; [done|]. unfold st_of. by rewrite B0, B1, B2, B3.
Qed.

Lemma dec_round_spec s rk q :
  words_ok s -> rk_ok rk ->
  words_ok (dec_round s rk (4 * q)) /\
  st_of (dec_round s rk (4 * q)) =
  AddRoundKey (InvMixColumns (InvShiftRows (st_Si (st_of s)))) (rkey rk q).
Proof.
  intros Hs Hk. destruct s as [[[s0 s1] s2] s3]. destruct Hs as (H0 & H1 & H2 & H3).
  unfold dec_round.
  destruct (dec_word_spec s0 s3 s2 s1 (ix rk (4 * q))) as [A0 B0]; [done..|].
  destruct (dec_word_spec s1 s0 s3 s2 (ix rk (4 * q + 1))) as [A1 B1]; [done..|].
  destruct (dec_word_spec s2 s1 s0 s3 (ix rk (4 * q + 2))) as [A2 B2]; [done..|].
  destruct (dec_word_spec s3 s2 s1 s0 (ix rk (4 * q + 3))) as [A3 B3]; [done..|].
  split; [done|]. unfold st_of. by rewrite B0, B1, B2, B3.
Qed.

(** [enc_loop] runs [2 r - 1] rounds. *)
Lemma enc_loop_spec rk inp r q s :
  rk_ok rk -> (0 < r)%nat -> words_ok s -> st_of s = enc_state (rkey rk) inp q ->
  exists t, enc_loop r s rk (4 * q) = Some (t, (4 * (q + 2 * r))%nat) /\
    words_ok t /\ st_of t = enc_state (rkey rk) inp (q + 2 * r - 1).
Proof.
  intros Hk. revert q s. induction r as [|r IH]; intros q s Hr Hs E; [lia|].
  cbn [enc_loop].
  replace (4 * q + 4)%nat with (4 * S q)%nat by lia.
  destruct (enc_round_spec s rk (S q) Hs Hk) as [W1 E1]. rewrite E in E1.
  destruct (Nat.eqb_spec r 0) as [->|Hr0].
  - eexists. split; [apply f_equal, f_equal2; [done|lia]|]. split; [done|].
    by replace (q + 2 * 1 - 1)%nat with (S q) by lia.
  - replace (4 * q + 8)%nat with (4 * S (S q))%nat by lia.
    destruct (enc_round_spec (enc_round s rk (4 * S q)) rk (S (S q)) W1 Hk) as [W2 E2].
    rewrite E1 in E2.
    destruct (IH (S (S q)) _ ltac:(lia) W2 E2) as (t & H1 & H2 & H3).
    exists t. rewrite H1. split; [apply f_equal, f_equal2; [done|lia]|]. split; [done|].
    rewrite H3. f_equal. lia.
Qed.

(** ** Blocks *)

Definition bytes_ok (l : list Z) : Prop := Forall byte_ok l.

Definition block_state (l : list Z) : state :=
  ((ix l 0, ix l 1, ix l 2, ix l 3), (ix l 4, ix l 5, ix l 6, ix l 7),
   (ix l 8, ix l 9, ix l 10, ix l 11), (ix l 12, ix l 13, ix l 14, ix l 15)).
Definition col_bytes (c : col) : list Z := let '(x, y, z, t) := c in [x; y; z; t].
Definition state_bytes (s : state) : list Z :=
  let '(a, b, c, d) := s in col_bytes a ++ col_bytes b ++ col_bytes c ++ col_bytes d.

Lemma ix_byte l i : bytes_ok l -> byte_ok (ix l i).
Proof.
  intros H. unfold ix. destruct (l !! i) eqn:E; simpl; [|done].
  by apply (Forall_lookup_1 _ _ _ _ H E).
Qed.

Lemma block_state_bytes l : length l = 16%nat -> state_bytes (block_state l) = l.
Proof.
  intros H. do 16 (destruct l as [|? l]; [done|]). by destruct l.
Qed.

Lemma state_bytes_block s : block_state (state_bytes s) = s.
Proof. by destruct s as [[[[[[? ?] ?] ?] [[[? ?] ?] ?]] [[[? ?] ?] ?]] [[[? ?] ?] ?]]. Qed.

Lemma state_bytes_length s : length (state_bytes s) = 16%nat.
Proof. by destruct s as [[[[[[? ?] ?] ?] [[[? ?] ?] ?]] [[[? ?] ?] ?]] [[[? ?] ?] ?]]. Qed.

Lemma state_bytes_ok s : state_ok s -> bytes_ok (state_bytes s).
Proof.
  destruct s as [[[[[[? ?] ?] ?] [[[? ?] ?] ?]] [[[? ?] ?] ?]] [[[? ?] ?] ?]].
  unfold state_ok, col_ok. intros H. destruct_and! H. unfold bytes_ok; simpl.
  repeat (constructor; [done|]). constructor.
Qed.

Lemma GETU32_unpack l o :
  bytes_ok l ->
  in_u32 (GETU32 l o) /\
  unpack (GETU32 l o) = (ix l o, ix l (o + 1), ix l (o + 2), ix l (o + 3)).
Proof.
  intros H. change (GETU32 l o) with (pack (ix l o) (ix l (o + 1)) (ix l (o + 2)) (ix l (o + 3))).
  split; [apply pack_u32|apply unpack_pack]; by apply ix_byte.
Qed.

Lemma PUTU32_bytes w : in_u32 w -> PUTU32 w = col_bytes (unpack w).
Proof.
  intros Hw. unfold PUTU32, unpack, col_bytes, b3, b2, b1, b0.
  change 0xff with (Z.ones 8). rewrite !Z.land_ones by lia.
  rewrite (uwrap_small 8 (Z.shiftr w 24)); [done|]. by apply (b3_byte w).
Qed.

Lemma load_block_spec l rk :
  bytes_ok l -> rk_ok rk ->
  words_ok (load_block l rk) /\
  st_of (load_block l rk) = AddRoundKey (block_state l) (rkey rk 0).
Proof.
  intros Hl Hk. unfold load_block.
  destruct (GETU32_unpack l 0 Hl) as [A0 B0], (GETU32_unpack l 4 Hl) as [A1 B1],
    (GETU32_unpack l 8 Hl) as [A2 B2], (GETU32_unpack l 12 Hl) as [A3 B3].
  split; [by unfold words_ok; auto with aes|].
  unfold st_of. by rewrite !unpack_lxor, B0, B1, B2, B3.
Qed.

(** ** Encryption is the standard's cipher *)

Lemma encrypt_cipher l rk nr :
  bytes_ok l -> rk_ok rk -> (0 < nr)%nat ->
  AES_encrypt l (mkKey rk (2 * Z.of_nat nr)) =
  Some (state_bytes (Cipher (2 * nr) (rkey rk) (block_state l))) /\
  state_ok (Cipher (2 * nr) (rkey rk) (block_state l)).
Proof.
  intros Hl Hk Hn. unfold AES_encrypt. cbn [rd_key rounds].
  replace (Z.to_nat (Z.shiftr (2 * Z.of_nat nr) 1)) with nr
    by (rewrite Z.shiftr_div_pow2, Z.mul_comm, Z.div_mul; lia).
  destruct (load_block_spec l rk Hl Hk) as [W E].
  destruct (enc_loop_spec rk (block_state l) nr 0 _ Hk Hn W E)
    as (((( t0 & t1) & t2) & t3) & HL & (W0 & W1 & W2 & W3) & HE).
  change (4 * 0)%nat with 0%nat in HL. rewrite HL. cbn [mbind option_bind].
  replace (0 + 2 * nr)%nat with (2 * nr)%nat in * by lia.
  unfold Cipher. rewrite <- HE. rewrite <- st_S_SubBytes by by apply st_of_ok.
  destruct (enc_last_spec t0 t1 t2 t3 (ix rk (4 * (2 * nr)))) as [A0 B0]; [done..|].
  destruct (enc_last_spec t1 t2 t3 t0 (ix rk (4 * (2 * nr) + 1))) as [A1 B1]; [done..|].
  destruct (enc_last_spec t2 t3 t0 t1 (ix rk (4 * (2 * nr) + 2))) as [A2 B2]; [done..|].
  destruct (enc_last_spec t3 t0 t1 t2 (ix rk (4 * (2 * nr) + 3))) as [A3 B3]; [done..|].
  split.
  - by rewrite !PUTU32_bytes, B0, B1, B2, B3 by done.
  - apply AddRoundKey_ok; [apply ShiftRows_ok, st_S_ok|by apply rkey_ok].
Qed.

(** ** Arrays of words *)

Lemma ix_put_eq k v l : (k < length l)%nat -> ix (put k v l) k = v.
Proof. intros H. unfold ix, put. by rewrite list_lookup_insert_eq. Qed.
Lemma ix_put_ne k v l i : i <> k -> ix (put k v l) i = ix l i.
Proof. intros H. unfold ix, put. by rewrite list_lookup_insert_ne. Qed.
Lemma length_put k v l : length (put k v l) = length l.
Proof. apply length_insert. Qed.

Lemma rk_ok_put k v l : rk_ok l -> in_u32 v -> rk_ok (put k v l).
Proof.
  intros Hl Hv i. destruct (decide (i = k)) as [->|]; [|by rewrite ix_put_ne].
  destruct (decide (k < length l)%nat); [by rewrite ix_put_eq|].
  unfold put. by rewrite list_insert_ge by lia.
Qed.

(** ** Key expansion *)

(** The standard's recurrence (FIPS-197, 5.2), on columns. *)
Definition RotWord (c : col) : col := let '(x, y, z, t) := c in (y, z, t, x).
Definition SubWord : col -> col := col_map SubByte.
Definition Rcon (j : nat) : col := (Nat.iter (j - 1) xtime 1, 0, 0, 0).

Definition fips_word (Nk : nat) (w : nat -> col) (i : nat) : col :=
  let temp := w (i - 1)%nat in
  col_xor (w (i - Nk)%nat)
    (if (i mod Nk =? 0)%nat then col_xor (SubWord (RotWord temp)) (Rcon (i / Nk))
     else if (6 <? Nk)%nat && (i mod Nk =? 4)%nat then SubWord temp
     else temp).

(** The same step on the words of the code. *)
Definition next_word (Nk : nat) (rk : list Z) (a r : nat) : Z :=
  let i := (Nk * a + r)%nat in
  Z.lxor (ix rk (i - Nk))
    (if (r =? 0)%nat then Z.lxor (sub_rot_word (ix rk (i - 1))) (ix rcon (a - 1))
     else if (6 <? Nk)%nat && (r =? 4)%nat then sub_word (ix rk (i - 1))
     else ix rk (i - 1)).

(** The first [m] words of [rk] follow the recurrence. *)
Definition expanded (Nk m : nat) (rk : list Z) : Prop :=
  length rk = 60%nat /\ rk_ok rk /\
  forall a r, (r < Nk)%nat -> (0 < a)%nat -> (Nk * a + r < m)%nat ->
    ix rk (Nk * a + r) = next_word Nk rk a r.

Lemma sub_rot_spec w :
  in_u32 w -> in_u32 (sub_rot_word w) /\ unpack (sub_rot_word w) = SubWord (RotWord (unpack w)).
Proof.
  intros Hw. unfold sub_rot_word. rewrite !Te4_spec, masked_sum by auto with aes.
  split; [auto with aes|]. rewrite unpack_pack by auto with aes.
  unfold SubWord, col_map, RotWord, unpack. by rewrite !S_SubByte by auto with aes.
Qed.

Lemma sub_word_spec w :
  in_u32 w -> in_u32 (sub_word w) /\ unpack (sub_word w) = SubWord (unpack w).
Proof.
  intros Hw. unfold sub_word. rewrite !Te4_spec, masked_sum by auto with aes.
  split; [auto with aes|]. rewrite unpack_pack by auto with aes.
  unfold SubWord, col_map, unpack. by rewrite !S_SubByte by auto with aes.
Qed.

Lemma rcon_u32 j : in_u32 (ix rcon j).
Proof. do 10 (destruct j as [|j]; [done|]). by destruct j. Qed.

Lemma rcon_spec j : (j < 10)%nat -> unpack (ix rcon j) = Rcon (S j).
Proof. intros H. do 10 (destruct j as [|j]; [done|]). lia. Qed.

Lemma next_word_u32 Nk rk a r : rk_ok rk -> in_u32 (next_word Nk rk a r).
Proof.
  intros H. unfold next_word. apply u32_lxor; [done|].
  destruct (r =? 0)%nat; [|destruct (_ && _)].
  - apply u32_lxor; [by apply sub_rot_spec|apply rcon_u32].
  - by apply sub_word_spec.
  - done.
Qed.

Lemma next_word_fips Nk rk a r :
  rk_ok rk -> (r < Nk)%nat -> (0 < a)%nat -> (r = 0%nat -> a <= 10)%nat ->
  unpack (next_word Nk rk a r) = fips_word Nk (fun i => unpack (ix rk i)) (Nk * a + r).
Proof.
  intros Hk Hr Ha Ha10. unfold next_word, fips_word.
  assert (Hm : ((Nk * a + r) mod Nk = r)%nat).
  { rewrite Nat.add_comm, Nat.mul_comm, Nat.Div0.mod_add. by apply Nat.mod_small. }
  assert (Hd : ((Nk * a + r) / Nk = a)%nat).
  { rewrite Nat.add_comm, Nat.mul_comm, Nat.div_add, Nat.div_small by lia. lia. }
  rewrite Hm, Hd, unpack_lxor. f_equal.
  destruct (Nat.eqb_spec r 0) as [->|]; [|destruct (_ && _)].
  - rewrite unpack_lxor. destruct (sub_rot_spec (ix rk (Nk * a + 0 - 1))) as [_ ->]; [done|].
    f_equal. rewrite rcon_spec by lia. f_equal. lia.
  - by destruct (sub_word_spec (ix rk (Nk * a + r - 1))) as [_ ->].
  - done.
Qed.

(** Writing the next word keeps the recurrence. *)
Lemma expanded_put Nk a r rk v :
  expanded Nk (Nk * a + r) rk -> (r < Nk)%nat -> (0 < a)%nat -> (Nk * a + r < 60)%nat ->
  v = next_word Nk rk a r ->
  expanded Nk (Nk * a + S r) (put (Nk * a + r) v rk).
Proof.
  intros (Hl & Hk & He) Hr Ha Hm ->. split; [by rewrite length_put|].
  split; [by apply rk_ok_put, next_word_u32|]. intros a' r' Hr' Ha' Hlt.
  assert (Hsame : next_word Nk (put (Nk * a + r) (next_word Nk rk a r) rk) a' r' =
                  next_word Nk rk a' r').
  { unfold next_word. rewrite !ix_put_ne by nia. done. }
  rewrite Hsame. destruct (decide (Nk * a' + r' = Nk * a + r)%nat) as [E|E].
  - assert (a' = a) by nia. assert (r' = r) by nia. subst. by rewrite ix_put_eq by lia.
  - rewrite ix_put_ne by done. apply He; [done..|]. lia.
Qed.

Lemma expanded_carry Nk a rk :
  (0 < Nk)%nat -> expanded Nk (Nk * a + Nk) rk -> expanded Nk (Nk * S a + 0) rk.
Proof. intros H. by replace (Nk * S a + 0)%nat with (Nk * a + Nk)%nat by lia. Qed.

(** The key words stay in front. *)
Definition same_prefix (n : nat) (rk rk' : list Z) : Prop :=
  forall i, (i < n)%nat -> ix rk' i = ix rk i.
Lemma same_prefix_put n rk rk' k v :
  (n <= k)%nat -> same_prefix n rk rk' -> same_prefix n rk (put k v rk').
Proof. intros Hk H i Hi. rewrite ix_put_ne by lia. by apply H. Qed.

(** The three kinds of steps of the loops, with the indices of the code. *)
Lemma exp_first Nk a rk k p t c :
  expanded Nk (Nk * a + 0) rk -> (0 < Nk)%nat -> (0 < a)%nat ->
  k = (Nk * a + 0)%nat -> (p + Nk = k)%nat -> S t = k -> S c = a -> (k < 60)%nat ->
  expanded Nk (Nk * a + 1)
    (put k (Z.lxor (Z.lxor (ix rk p) (sub_rot_word (ix rk t))) (ix rcon c)) rk).
Proof.
  intros He HN Ha -> Hp Ht Hc Hlt. apply expanded_put; [done..|].
  unfold next_word. rewrite Nat.eqb_refl, Z.lxor_assoc.
  replace (Nk * a + 0 - Nk)%nat with p by lia.
  replace (Nk * a + 0 - 1)%nat with t by lia.
  by replace (a - 1)%nat with c by lia.
Qed.

Lemma exp_step Nk a r rk k p t :
  expanded Nk (Nk * a + r) rk -> (0 < a)%nat -> (0 < r < Nk)%nat ->
  (6 <? Nk)%nat && (r =? 4)%nat = false ->
  k = (Nk * a + r)%nat -> (p + Nk = k)%nat -> S t = k -> (k < 60)%nat ->
  expanded Nk (Nk * a + S r) (put k (Z.lxor (ix rk p) (ix rk t)) rk).
Proof.
  intros He Ha Hr Hno -> Hp Ht Hlt. apply expanded_put; [done|lia|lia|lia|].
  unfold next_word. rewrite (proj2 (Nat.eqb_neq r 0)) by lia. rewrite Hno.
  replace (Nk * a + r - Nk)%nat with p by lia.
  by replace (Nk * a + r - 1)%nat with t by lia.
Qed.

Lemma exp_sub a rk k p t :
  expanded 8 (8 * a + 4) rk -> (0 < a)%nat ->
  k = (8 * a + 4)%nat -> (p + 8 = k)%nat -> S t = k -> (k < 60)%nat ->
  expanded 8 (8 * a + 5) (put k (Z.lxor (ix rk p) (sub_word (ix rk t))) rk).
Proof.
  intros He Ha -> Hp Ht Hlt. apply expanded_put; [done|lia|lia|lia|].
  unfold next_word. simpl (4 =? 0)%nat. simpl ((6 <? 8)%nat && _).
  replace (8 * a + 4 - 8)%nat with p by lia.
  by replace (8 * a + 4 - 1)%nat with t by lia.
Qed.

(** One assignment of a loop body: the step lemma [L] names the indices, the
    array it makes is called [new]. *)
Tactic Notation "assign" uconstr(L) "from" constr(prev) "to" ident(new) ident(H) :=
  unshelve epose proof (L _ _ _ _ _ _ _) as H;
  [first [assumption | lia | done] ..|]; set (new := put _ _ prev) in *.

Lemma same_prefix_trans n a b c : same_prefix n a b -> same_prefix n b c -> same_prefix n a c.
Proof. intros H1 H2 i Hi. rewrite H2, H1; done. Qed.

Lemma expand128_spec fuel i rk :
  (i + fuel = 10)%nat -> (0 < fuel)%nat -> expanded 4 (4 * S i + 0) rk ->
  exists rk', expand128 fuel i (4 * i) rk = Some rk' /\
    expanded 4 44 rk' /\ same_prefix 4 rk rk'.
Proof.
  revert i rk. induction fuel as [|fuel IH]; intros i rk Hi Hf He; [lia|].
  cbn [expand128].
  assign (exp_first 4 (S i) rk (4 * i + 4) (4 * i) (4 * i + 3) i He) from rk to rk1 H1.
  assign (exp_step 4 (S i) 1 rk1 (4 * i + 5) (4 * i + 1) (4 * i + 4) H1) from rk1 to rk2 H2.
  assign (exp_step 4 (S i) 2 rk2 (4 * i + 6) (4 * i + 2) (4 * i + 5) H2) from rk2 to rk3 H3.
  assign (exp_step 4 (S i) 3 rk3 (4 * i + 7) (4 * i + 3) (4 * i + 6) H3) from rk3 to rk4 H4.
  assert (HP : same_prefix 4 rk rk4) by (repeat apply same_prefix_put; done || lia).
  destruct (Nat.eqb_spec (S i) 10) as [E|E].
  - exists rk4. split; [done|]. split; [|done].
    by replace 44%nat with (4 * S i + 4)%nat by lia.
  - replace (4 * i + 4)%nat with (4 * S i)%nat by lia. apply expanded_carry in H4; [|lia].
    destruct (IH (S i) rk4 ltac:(lia) ltac:(lia) H4) as (rk' & E1 & E2 & E3).
    exists rk'. eauto using same_prefix_trans.
Qed.

Lemma expand192_spec fuel i rk :
  (i + fuel = 8)%nat -> (0 < fuel)%nat -> expanded 6 (6 * S i + 0) rk ->
  exists rk', expand192 fuel i (6 * i) rk = Some rk' /\
    expanded 6 52 rk' /\ same_prefix 6 rk rk'.
Proof.
  revert i rk. induction fuel as [|fuel IH]; intros i rk Hi Hf He; [lia|].
  cbn [expand192].
  assign (exp_first 6 (S i) rk (6 * i + 6) (6 * i) (6 * i + 5) i He) from rk to rk1 H1.
  assign (exp_step 6 (S i) 1 rk1 (6 * i + 7) (6 * i + 1) (6 * i + 6) H1) from rk1 to rk2 H2.
  assign (exp_step 6 (S i) 2 rk2 (6 * i + 8) (6 * i + 2) (6 * i + 7) H2) from rk2 to rk3 H3.
  assign (exp_step 6 (S i) 3 rk3 (6 * i + 9) (6 * i + 3) (6 * i + 8) H3) from rk3 to rk4 H4.
  assert (HP : same_prefix 6 rk rk4) by (repeat apply same_prefix_put; done || lia).
  destruct (Nat.eqb_spec (S i) 8) as [E|E].
  - exists rk4. split; [done|]. split; [|done].
    by replace 52%nat with (6 * S i + 4)%nat by lia.
  - assign (exp_step 6 (S i) 4 rk4 (6 * i + 10) (6 * i + 4) (6 * i + 9) H4) from rk4 to rk5 H5.
    assign (exp_step 6 (S i) 5 rk5 (6 * i + 11) (6 * i + 5) (6 * i + 10) H5) from rk5 to rk6 H6.
    assert (HQ : same_prefix 6 rk rk6) by (repeat apply same_prefix_put; done || lia).
    replace (6 * i + 6)%nat with (6 * S i)%nat by lia. apply expanded_carry in H6; [|lia].
    destruct (IH (S i) rk6 ltac:(lia) ltac:(lia) H6) as (rk' & E1 & E2 & E3).
    exists rk'. eauto using same_prefix_trans.
Qed.

Lemma expand256_spec fuel i rk :
  (i + fuel = 7)%nat -> (0 < fuel)%nat -> expanded 8 (8 * S i + 0) rk ->
  exists rk', expand256 fuel i (8 * i) rk = Some rk' /\
    expanded 8 60 rk' /\ same_prefix 8 rk rk'.
Proof.
  revert i rk. induction fuel as [|fuel IH]; intros i rk Hi Hf He; [lia|].
  cbn [expand256].
  assign (exp_first 8 (S i) rk (8 * i + 8) (8 * i) (8 * i + 7) i He) from rk to rk1 H1.
  assign (exp_step 8 (S i) 1 rk1 (8 * i + 9) (8 * i + 1) (8 * i + 8) H1) from rk1 to rk2 H2.
  assign (exp_step 8 (S i) 2 rk2 (8 * i + 10) (8 * i + 2) (8 * i + 9) H2) from rk2 to rk3 H3.
  assign (exp_step 8 (S i) 3 rk3 (8 * i + 11) (8 * i + 3) (8 * i + 10) H3) from rk3 to rk4 H4.
  assert (HP : same_prefix 8 rk rk4) by (repeat apply same_prefix_put; done || lia).
  destruct (Nat.eqb_spec (S i) 7) as [E|E].
  - exists rk4. split; [done|]. split; [|done].
    by replace 60%nat with (8 * S i + 4)%nat by lia.
  - pose proof (exp_sub (S i) rk4 (8 * i + 12) (8 * i + 4) (8 * i + 11) H4
      ltac:(lia) ltac:(lia) ltac:(lia) ltac:(lia) ltac:(lia)) as H5.
    set (rk5 := put _ _ rk4) in *.
    assign (exp_step 8 (S i) 5 rk5 (8 * i + 13) (8 * i + 5) (8 * i + 12) H5) from rk5 to rk6 H6.
    assign (exp_step 8 (S i) 6 rk6 (8 * i + 14) (8 * i + 6) (8 * i + 13) H6) from rk6 to rk7 H7.
    assign (exp_step 8 (S i) 7 rk7 (8 * i + 15) (8 * i + 7) (8 * i + 14) H7) from rk7 to rk8 H8.
    assert (HQ : same_prefix 8 rk rk8) by (repeat apply same_prefix_put; done || lia).
    replace (8 * i + 8)%nat with (8 * S i)%nat by lia. apply expanded_carry in H8; [|lia].
    destruct (IH (S i) rk8 ltac:(lia) ltac:(lia) H8) as (rk' & E1 & E2 & E3).
    exists rk'. eauto using same_prefix_trans.
Qed.

(** Key sizes: bits, words of key, half the number of rounds. *)
Inductive key_size : Z -> nat -> nat -> Prop :=
| size128 : key_size 128 4 5
| size192 : key_size 192 6 6
| size256 : key_size 256 8 7.

(** The destination structure: any [AES_KEY] with its 60 words. *)
Definition key_ok (k : AES_KEY) : Prop := length (rd_key k) = 60%nat /\ rk_ok (rd_key k).

(** The words [0 .. n-1] of [rk] are the words of the user's key. *)
Definition key_words (n : nat) (uk rk : list Z) : Prop :=
  forall i, (i < n)%nat -> ix rk i = GETU32 uk (4 * i).

Lemma key_words_put n uk rk :
  (n < length rk)%nat -> key_words n uk rk ->
  key_words (S n) uk (put n (GETU32 uk (4 * n)) rk).
Proof.
  intros Hl H i Hi. destruct (decide (i = n)) as [->|]; [by rewrite ix_put_eq|].
  rewrite ix_put_ne by done. apply H. lia.
Qed.

Lemma key_words_prefix n uk rk rk' :
  key_words n uk rk -> same_prefix n rk rk' -> key_words n uk rk'.
Proof. intros H1 H2 i Hi. rewrite H2, H1; done. Qed.

Lemma expanded_start Nk rk :
  (0 < Nk)%nat -> length rk = 60%nat -> rk_ok rk -> expanded Nk (Nk * 1 + 0) rk.
Proof. intros H0 Hl Hk. split; [done|]. split; [done|]. intros a r Hr Ha Hlt. nia. Qed.

(** The first assignments: the words of the key. *)
Fixpoint load_key (n : nat) (uk rk : list Z) : list Z :=
  match n with
  | O => rk
  | S n' => put n' (GETU32 uk (4 * n')) (load_key n' uk rk)
  end.

Lemma load_key_spec n uk rk :
  (n <= 60)%nat -> length rk = 60%nat -> rk_ok rk -> bytes_ok uk ->
  length (load_key n uk rk) = 60%nat /\ rk_ok (load_key n uk rk) /\
  key_words n uk (load_key n uk rk).
Proof.
  intros Hn Hl Hk Hu. induction n as [|n IH]; [by split_and!; try done; intros i Hi; lia|].
  destruct IH as (H1 & H2 & H3); [lia|]. cbn [load_key]. rewrite length_put.
  split; [done|]. split; [apply rk_ok_put; [done|by apply GETU32_unpack]|].
  apply key_words_put; [lia|done].
Qed.

Lemma set_encrypt_key_spec uk bits Nk nr k :
  key_size bits Nk nr -> bytes_ok uk -> key_ok k ->
  exists rk, AES_set_encrypt_key (Some uk) bits (Some k) =
             Some (0, Some (mkKey rk (2 * Z.of_nat nr))) /\
    expanded Nk (4 * (2 * nr + 1)) rk /\ key_words Nk uk rk.
Proof.
  intros Hs Hu [Hl Hk]. destruct (load_key_spec Nk uk (rd_key k)) as (L1 & L2 & L3);
    [destruct Hs; lia|done..|].
  assert (HE : expanded Nk (Nk * 1 + 0) (load_key Nk uk (rd_key k))).
  { apply expanded_start; [destruct Hs; lia|done..]. }
  destruct Hs.
  - destruct (expand128_spec 10 0 _ eq_refl ltac:(lia) HE) as (rk & E1 & E2 & E3).
    change (4 * 0)%nat with 0%nat in E1. exists rk. split; [|eauto using key_words_prefix].
    transitivity (rk ← expand128 10 0 0 (load_key 4 uk (rd_key k));
                  Some (0, Some (mkKey rk 10))); [done|]. by rewrite E1.
  - destruct (expand192_spec 8 0 _ eq_refl ltac:(lia) HE) as (rk & E1 & E2 & E3).
    change (6 * 0)%nat with 0%nat in E1. exists rk. split; [|eauto using key_words_prefix].
    transitivity (rk ← expand192 8 0 0 (load_key 6 uk (rd_key k));
                  Some (0, Some (mkKey rk 12))); [done|]. by rewrite E1.
  - destruct (expand256_spec 7 0 _ eq_refl ltac:(lia) HE) as (rk & E1 & E2 & E3).
    change (8 * 0)%nat with 0%nat in E1. exists rk. split; [|eauto using key_words_prefix].
    transitivity (rk ← expand256 7 0 0 (load_key 8 uk (rd_key k));
                  Some (0, Some (mkKey rk 14))); [done|]. by rewrite E1.
Qed.

(** ** The decryption schedule *)

Lemma ix_swap a b rk i :
  (a < length rk)%nat -> (b < length rk)%nat ->
  ix (swap a b rk) i =
  if decide (i = b) then ix rk a else if decide (i = a) then ix rk b else ix rk i.
Proof.
  intros Ha Hb. unfold swap. case_decide as E1; [subst|].
  - by rewrite ix_put_eq by by rewrite length_put.
  - rewrite ix_put_ne by done. case_decide as E2; [subst|].
    + by rewrite ix_put_eq.
    + by rewrite ix_put_ne.
Qed.

Lemma length_swap a b rk : length (swap a b rk) = length rk.
Proof. unfold swap. by rewrite !length_put. Qed.

Lemma length_swap4 i j rk : length (swap4 i j rk) = length rk.
Proof. unfold swap4. by rewrite !length_swap. Qed.

(** The four words at [i] and at [j] change places. *)
Lemma ix_swap4 i j rk k :
  (i + 4 <= j)%nat -> (j + 4 <= length rk)%nat ->
  ix (swap4 i j rk) k =
  if decide (i <= k < i + 4)%nat then ix rk (k + j - i)
  else if decide (j <= k < j + 4)%nat then ix rk (k + i - j)
  else ix rk k.
Proof.
  intros Hij Hj. unfold swap4. rewrite !ix_swap by (rewrite ?length_swap; lia).
  repeat case_decide; subst; try lia; f_equal; lia.
Qed.

Lemma length_invert_order fuel i j rk : length (invert_order fuel i j rk) = length rk.
Proof.
  revert i j rk. induction fuel as [|fuel IH]; intros i j rk; [done|]. cbn [invert_order].
  destruct (i <? j)%nat; [|done]. by rewrite IH, length_swap4.
Qed.

(** Between round keys [p] and [q] the loop puts round key [p + q - r] at [r]. *)
Lemma invert_order_spec fuel p q rk r c :
  (4 * q + 4 <= length rk)%nat -> (q < p + 2 * fuel)%nat -> (c < 4)%nat ->
  ix (invert_order fuel (4 * p) (4 * q) rk) (4 * r + c) =
  if decide (p <= r <= q)%nat then ix rk (4 * (p + q - r) + c) else ix rk (4 * r + c).
Proof.
  revert p q rk. induction fuel as [|fuel IH]; intros p q rk Hq Hf Hc.
  { cbn. case_decide; [lia|done]. }
  cbn [invert_order]. destruct (Nat.ltb_spec (4 * p) (4 * q)) as [Hlt|Hge].
  - replace (4 * p + 4)%nat with (4 * S p)%nat by lia.
    replace (4 * q - 4)%nat with (4 * (q - 1))%nat by lia.
    rewrite IH by (rewrite ?length_swap4; lia).
    rewrite !ix_swap4 by lia.
    repeat case_decide; try lia; f_equal; lia.
  - case_decide; [|done]. f_equal. lia.
Qed.

Lemma length_inv_mix_keys n o rk : length (inv_mix_keys n o rk) = length rk.
Proof.
  revert o rk. induction n as [|n IH]; intros o rk; [done|]. cbn [inv_mix_keys].
  by rewrite IH, !length_put.
Qed.

(** The loop transforms the [n] round keys after the one at [o]. *)
Lemma inv_mix_keys_spec n o rk k :
  (o + 4 + 4 * n <= length rk)%nat ->
  ix (inv_mix_keys n o rk) k =
  if decide (o + 4 <= k < o + 4 + 4 * n)%nat then inv_mix_word (ix rk k) else ix rk k.
Proof.
  revert o rk. induction n as [|n IH]; intros o rk Hl.
  { cbn. case_decide; [lia|done]. }
  cbn [inv_mix_keys]. rewrite IH by (rewrite !length_put; lia).
  set (rk' := put (o + 4 + 3) _ _).
  assert (H : ix rk' k = if decide (o + 4 <= k < o + 4 + 4)%nat then inv_mix_word (ix rk k)
                         else ix rk k).
  { unfold rk'. case_decide as E.
    - destruct (decide (k = o + 4)%nat) as [->|];
        [rewrite !ix_put_ne, ix_put_eq by lia; done|].
      destruct (decide (k = o + 4 + 1)%nat) as [->|];
        [rewrite !(ix_put_ne _ _ _ (o + 4 + 1)), ix_put_eq, ?ix_put_ne
           by (rewrite ?length_put; lia); done|].
      destruct (decide (k = o + 4 + 2)%nat) as [->|];
        [rewrite (ix_put_ne (o + 4 + 3)), ix_put_eq, !ix_put_ne
           by (rewrite ?length_put; lia); done|].
      replace k with (o + 4 + 3)%nat by lia.
      rewrite ix_put_eq, !ix_put_ne by (rewrite ?length_put; lia). done.
    - by rewrite !ix_put_ne by lia. }
  rewrite H. repeat case_decide; done || lia.
Qed.

Lemma inv_mix_word_spec w :
  in_u32 w -> in_u32 (inv_mix_word w) /\ unpack (inv_mix_word w) = InvMixColumn (unpack w).
Proof.
  intros Hw. unfold inv_mix_word. rewrite dec_tables by apply S_byte.
  fold (S_ (b3 w)) (S_ (b2 w)) (S_ (b1 w)) (S_ (b0 w)).
  destruct (packed_col (InvMixColumn (Si (S_ (b3 w)), Si (S_ (b2 w)),
    Si (S_ (b1 w)), Si (S_ (b0 w))))) as [H1 H2].
  { apply InvMixColumn_ok, Si_col_ok. }
  split; [done|]. rewrite H2. unfold unpack. by rewrite !Si_S by auto with aes.
Qed.

(** What the decryption key is, round key by round key. *)
Definition dec_schedule (nr : nat) (ek dk : list Z) : Prop :=
  rk_ok dk /\
  forall r, (r <= nr)%nat -> rkey dk r =
    if decide (0 < r < nr)%nat then InvMixColumns (rkey ek (nr - r)) else rkey ek (nr - r).

Definition invert_keys (nr : nat) (ek : list Z) : list Z :=
  inv_mix_keys (nr - 1) 0 (invert_order nr 0 (4 * nr) ek).

Lemma ix_invert_keys nr ek r c :
  (0 < nr)%nat -> (4 * nr + 4 <= length ek)%nat -> (c < 4)%nat ->
  ix (invert_keys nr ek) (4 * r + c) =
  if decide (r <= nr)%nat then
    if decide (0 < r < nr)%nat then inv_mix_word (ix ek (4 * (nr - r) + c))
    else ix ek (4 * (nr - r) + c)
  else ix ek (4 * r + c).
Proof.
  intros Hn Hl Hc. unfold invert_keys.
  rewrite inv_mix_keys_spec by (rewrite length_invert_order; lia).
  pose proof (invert_order_spec nr 0 nr ek r c ltac:(lia) ltac:(lia) Hc) as H.
  change (4 * 0)%nat with 0%nat in H. rewrite H. repeat case_decide; try lia; done.
Qed.

Lemma invert_keys_spec nr ek :
  (0 < nr)%nat -> (4 * nr + 4 <= length ek)%nat -> rk_ok ek ->
  dec_schedule nr ek (invert_keys nr ek).
Proof.
  intros Hn Hl Hk. split.
  - intros i. pose proof (Nat.div_mod_eq i 4) as Hi.
    pose proof (Nat.mod_upper_bound i 4 ltac:(lia)) as Hm. rewrite Hi.
    rewrite ix_invert_keys by done. repeat case_decide; try apply Hk.
    by apply inv_mix_word_spec.
  - intros r Hr. unfold rkey.
    pose proof (ix_invert_keys nr ek r 0 Hn Hl ltac:(lia)) as H0.
    rewrite !Nat.add_0_r in H0. rewrite H0, !ix_invert_keys by lia. clear H0.
    destruct (decide (r <= nr)%nat); [|done].
    destruct (decide (0 < r < nr)%nat); [|done].
    unfold InvMixColumns, st_map.
    by rewrite !(fun w H => proj2 (inv_mix_word_spec w H)) by apply Hk.
Qed.

Lemma set_decrypt_key_spec uk bits Nk nr k :
  key_size bits Nk nr -> bytes_ok uk -> key_ok k ->
  exists ek dk,
    AES_set_encrypt_key (Some uk) bits (Some k) = Some (0, Some (mkKey ek (2 * Z.of_nat nr))) /\
    AES_set_decrypt_key (Some uk) bits (Some k) = Some (0, Some (mkKey dk (2 * Z.of_nat nr))) /\
    rk_ok ek /\ dec_schedule (2 * nr) ek dk.
Proof.
  intros Hs Hu Hk. destruct (set_encrypt_key_spec uk bits Nk nr k Hs Hu Hk) as (ek & E1 & E2 & _).
  exists ek, (invert_keys (2 * nr) ek). split; [done|]. destruct E2 as (Hl & Hek & _). split.
  - unfold AES_set_decrypt_key. rewrite E1. cbn [mbind option_bind rounds rd_key].
    by replace (Z.to_nat (2 * Z.of_nat nr)) with (2 * nr)%nat by lia.
  - split; [done|]. apply invert_keys_spec; [destruct Hs; lia|destruct Hs; lia|done].
Qed.

(** ** Decryption undoes encryption *)

Lemma enc_state_ok rk l r : rk_ok rk -> bytes_ok l -> state_ok (enc_state (rkey rk) (block_state l) r).
Proof.
  intros Hk Hl. induction r as [|r IH]; cbn [enc_state].
  - apply AddRoundKey_ok; [|by apply rkey_ok].
    unfold block_state, state_ok, col_ok. auto 30 using ix_byte.
  - apply AddRoundKey_ok; [|by apply rkey_ok]. apply MixColumns_ok, ShiftRows_ok.
    rewrite <- st_S_SubBytes by done. apply st_S_ok.
Qed.

Lemma InvMixColumns_cancel s k :
  AddRoundKey (InvMixColumns (AddRoundKey (MixColumns s) k)) (InvMixColumns k) = s.
Proof.
  destruct s as [[[a b] c] d], k as [[[a' b'] c'] d'].
  unfold AddRoundKey, InvMixColumns, MixColumns, st_map.
  by rewrite !InvMix_xor, !InvMix_Mix, !col_xor_cancel.
Qed.

Section Decrypt.
Context (nr : nat) (ek dk : list Z) (l : list Z).
Context (Hek : rk_ok ek) (Hl : bytes_ok l)
  (Hdk : dec_schedule nr ek dk).

(** The state of the encryption after [r] rounds, and the state the
    decryption reaches after [q] rounds. *)
Abbreviation E r := (enc_state (rkey ek) (block_state l) r).
Definition dec_target (q : nat) : state := ShiftRows (st_S (E (nr - 1 - q))).

Lemma undo_sub_shift q : InvShiftRows (st_Si (dec_target q)) = E (nr - 1 - q).
Proof using Hek Hl.
  unfold dec_target. rewrite st_Si_Shift, InvShift_Shift. apply st_Si_S.
  by apply enc_state_ok.
Qed.

Lemma dec_target_step q :
  (S q < nr)%nat ->
  AddRoundKey (InvMixColumns (InvShiftRows (st_Si (dec_target q)))) (rkey dk (S q)) =
  dec_target (S q).
Proof using Hek Hl Hdk.
  intros Hq. rewrite undo_sub_shift. destruct Hdk as [_ ->]; [|lia].
  rewrite decide_True by lia. unfold dec_target.
  replace (nr - 1 - q)%nat with (S (nr - 1 - S q)) by lia. cbn [enc_state].
  replace (S (nr - 1 - S q)) with (nr - S q)%nat by lia.
  rewrite InvMixColumns_cancel. f_equal. symmetry. apply st_S_SubBytes.
  by apply enc_state_ok.
Qed.

Lemma dec_loop_spec r q s :
  (0 < r)%nat -> (q + 2 * r = nr)%nat -> words_ok s -> st_of s = dec_target q ->
  exists t, dec_loop r s dk (4 * q) = Some (t, (4 * nr)%nat) /\
    words_ok t /\ st_of t = dec_target (nr - 1).
Proof using Hek Hl Hdk.
  revert q s. induction r as [|r IH]; intros q s Hr Hq Hs HE; [lia|]. cbn [dec_loop].
  replace (4 * q + 4)%nat with (4 * S q)%nat by lia. destruct Hdk as [Hk _].
  destruct (dec_round_spec s dk (S q) Hs Hk) as [W1 E1].
  rewrite HE, dec_target_step in E1 by lia.
  destruct (Nat.eqb_spec r 0) as [->|Hr0].
  - eexists. split; [apply f_equal, f_equal2; [done|lia]|]. split; [done|].
    by replace (nr - 1)%nat with (S q) by lia.
  - replace (4 * q + 8)%nat with (4 * S (S q))%nat by lia.
    destruct (dec_round_spec (dec_round s dk (4 * S q)) dk (S (S q)) W1 Hk) as [W2 E2].
    rewrite E1, dec_target_step in E2 by lia.
    apply (IH (S (S q))); [lia|lia|done|done].
Qed.

End Decrypt.

Lemma decrypt_encrypt l nr ek dk :
  length l = 16%nat -> bytes_ok l -> (0 < nr)%nat -> rk_ok ek ->
  dec_schedule (2 * nr) ek dk ->
  exists c, AES_encrypt l (mkKey ek (2 * Z.of_nat nr)) = Some c /\
    length c = 16%nat /\ bytes_ok c /\
    AES_decrypt c (mkKey dk (2 * Z.of_nat nr)) = Some l.
Proof.
  intros Hlen Hl Hn Hek Hdk. destruct (encrypt_cipher l ek nr Hl Hek Hn) as [E Hok].
  eexists. split; [done|]. split; [apply state_bytes_length|].
  split; [by apply state_bytes_ok|].
  set (c := state_bytes _). assert (Hc : bytes_ok c) by by apply state_bytes_ok.
  unfold AES_decrypt. cbn [rd_key rounds].
  replace (Z.to_nat (Z.shiftr (2 * Z.of_nat nr) 1)) with nr
    by (rewrite Z.shiftr_div_pow2, Z.mul_comm, Z.div_mul; lia).
  pose proof Hdk as [Hdk0 Hdk1].
  destruct (load_block_spec c dk Hc Hdk0) as [W0 E0].
  assert (HT : st_of (load_block c dk) = dec_target (2 * nr) ek l 0).
  { rewrite E0, Hdk1 by lia. rewrite decide_False by lia.
    unfold c. rewrite state_bytes_block. unfold Cipher, dec_target.
    rewrite !Nat.sub_0_r, AddRoundKey_cancel, st_S_SubBytes; [done|].
    by apply enc_state_ok. }
  destruct (dec_loop_spec (2 * nr) ek dk l Hek Hl Hdk nr 0 _ Hn eq_refl W0 HT)
    as ((((t0 & t1) & t2) & t3) & HL & (W1 & W2 & W3 & W4) & HE).
  change (4 * 0)%nat with 0%nat in HL. rewrite HL. cbn [mbind option_bind].
  destruct (dec_last_spec t0 t3 t2 t1 (ix dk (4 * (2 * nr)))) as [A0 B0]; [done..|].
  destruct (dec_last_spec t1 t0 t3 t2 (ix dk (4 * (2 * nr) + 1))) as [A1 B1]; [done..|].
  destruct (dec_last_spec t2 t1 t0 t3 (ix dk (4 * (2 * nr) + 2))) as [A2 B2]; [done..|].
  destruct (dec_last_spec t3 t2 t1 t0 (ix dk (4 * (2 * nr) + 3))) as [A3 B3]; [done..|].
  rewrite !PUTU32_bytes, B0, B1, B2, B3 by done. f_equal.
  transitivity (state_bytes (AddRoundKey (InvShiftRows (st_Si (st_of (t0, t1, t2, t3))))
                               (rkey dk (2 * nr)))); [done|].
  rewrite HE, undo_sub_shift, Hdk1 by (done || lia). rewrite decide_False by lia.
  replace (2 * nr - 1 - (2 * nr - 1))%nat with 0%nat by lia.
  replace (2 * nr - 2 * nr)%nat with 0%nat by lia.
  cbn [enc_state]. rewrite AddRoundKey_cancel. by apply block_state_bytes.
Qed.
