(* ===== verification/AesCbc.v ===== *)
(** * CBC mode, and the properties of the cipher of [aes.c] *)
From S2P Require Import Prelude AesTables Aes AesSpec AesProofs.

(** ** Sums of byte strings *)

Lemma xor_bytes_length a b :
  (length a <= length b)%nat -> length (xor_bytes a b) = length a.
Proof. intros H. unfold xor_bytes. rewrite length_zip_with. lia. Qed.

Lemma xor_bytes_cancel a b :
  (length a <= length b)%nat -> xor_bytes (xor_bytes a b) b = a.
Proof.
  revert b. induction a as [|x a IH]; intros [|y b] H; simpl in *; [done..|lia|].
  f_equal; [|apply IH; lia]. by rewrite Z.lxor_assoc, Z.lxor_nilpotent, Z.lxor_0_r.
Qed.

Lemma xor_bytes_ok a b : bytes_ok a -> bytes_ok b -> bytes_ok (xor_bytes a b).
Proof.
  intros Ha. revert b. unfold bytes_ok in *.
  induction Ha as [|x a Hx Ha IH]; intros [|y b] Hb; simpl; [constructor..|].
  inversion Hb; subst. constructor; [by apply byte_lxor|by apply IH].
Qed.

(** ** One key pair *)

Section Cbc.
Context (ekey dkey : AES_KEY).
(** The block functions are inverse to each other, which [decrypt_encrypt]
    establishes for the keys of the two schedules. *)
Context (block_inverse : forall l, length l = 16%nat -> bytes_ok l ->
  exists c, AES_encrypt l ekey = Some c /\ length c = 16%nat /\ bytes_ok c /\
    AES_decrypt c dkey = Some l).

Lemma cbc_round_trip fuel inp iv :
  (length inp < 16 * fuel)%nat -> length iv = 16%nat -> bytes_ok inp -> bytes_ok iv ->
  exists out iv1 iv2,
    cbc_enc fuel inp ekey iv = Some (out, iv1) /\
    (length inp <= length out < length inp + 16)%nat /\
    cbc_dec fuel out (length inp) dkey iv = Some (inp, iv2) /\
    (forall n, length inp = (16 * n)%nat -> iv1 = iv2).
Proof using block_inverse.
  revert inp iv. induction fuel as [|fuel IH]; intros inp iv Hf Hiv Hb Hbi; [lia|].
  cbn [cbc_enc cbc_dec]. unfold AES_BLOCK_SIZE.
  destruct (Nat.leb_spec 16 (length inp)) as [Hge|Hlt].
  - assert (Ht : length (take 16 inp) = 16%nat) by (rewrite length_take; lia).
    assert (Hbt : bytes_ok (take 16 inp)) by by apply Forall_take.
    destruct (block_inverse (xor_bytes (take 16 inp) iv)) as (c & E1 & E2 & E3 & E4).
    { rewrite xor_bytes_length; lia. } { by apply xor_bytes_ok. }
    destruct (IH (drop 16 inp) c) as (out & iv1 & iv2 & F1 & F2 & F3 & F4);
      [rewrite length_drop; lia|done|by apply Forall_drop|done|].
    rewrite length_drop in *.
    exists (c ++ out), iv1, iv2. rewrite E1. simpl. rewrite F1. simpl.
    split; [done|]. split; [rewrite length_app; lia|].
    rewrite take_app_length', drop_app_length', E4 by done. simpl. rewrite F3. simpl.
    split; [|intros n Hn; apply (F4 (n - 1)%nat); lia].
    rewrite xor_bytes_cancel by lia. by rewrite take_drop.
  - destruct (Nat.ltb_spec 0 (length inp)) as [Hp|Hz].
    + destruct (block_inverse (xor_bytes inp iv ++ drop (length inp) iv))
        as (c & E1 & E2 & E3 & E4).
      { rewrite length_app, xor_bytes_length, length_drop; lia. }
      { apply Forall_app. split; [by apply xor_bytes_ok|by apply Forall_drop]. }
      rewrite E1. simpl. exists c, c, (xor_bytes inp iv ++ drop (length inp) iv).
      split; [done|]. split; [lia|].
      rewrite take_ge, E4 by lia. simpl.
      rewrite take_app_length' by (rewrite xor_bytes_length; lia).
      rewrite xor_bytes_cancel by lia. split; [done|]. intros n Hn. lia.
    + destruct inp; [|simpl in Hz; lia]. exists [], iv, iv. simpl.
      split; [done|]. split; [lia|]. done.
Qed.

End Cbc.

(** ** Properties *)

(** C11: For every supported key size, key and block, both key schedules
    succeed and decrypting the encrypted block gives the block back. *)
Theorem aes_decrypt_encrypt uk bits Nk nr k l :
  key_size bits Nk nr -> bytes_ok uk -> key_ok k ->
  length l = 16%nat -> bytes_ok l ->
  exists ek dk c,
    AES_set_encrypt_key (Some uk) bits (Some k) = Some (0, Some ek) /\
    AES_set_decrypt_key (Some uk) bits (Some k) = Some (0, Some dk) /\
    AES_encrypt l ek = Some c /\ length c = 16%nat /\ AES_decrypt c dk = Some l.
Proof.
  intros Hs Hu Hk Hl Hb.
  destruct (set_decrypt_key_spec uk bits Nk nr k Hs Hu Hk) as (ek & dk & E1 & E2 & E3 & E4).
  destruct (decrypt_encrypt l nr ek dk Hl Hb) as (c & F1 & F2 & F3 & F4);
    [destruct Hs; lia|done..|]. eauto 10.
Qed.

Lemma blank_key_ok : key_ok blank_key.
Proof.
  split; [done|]. intros i. unfold ix. change (rd_key blank_key) with (replicate 60 0).
  destruct (replicate 60 0 !! i) eqn:E; [|simpl; lia].
  apply lookup_replicate in E as [-> _]. simpl. lia.
Qed.

Lemma fips_bytes_ok : bytes_ok fips_key /\ bytes_ok fips_plain.
Proof. split; (repeat (apply List.Forall_cons; [done|]); apply List.Forall_nil). Qed.

Lemma aes_decrypt_encrypt_witness :
  exists ek dk c,
    AES_set_encrypt_key (Some fips_key) 128 (Some blank_key) = Some (0, Some ek) /\
    AES_set_decrypt_key (Some fips_key) 128 (Some blank_key) = Some (0, Some dk) /\
    AES_encrypt fips_plain ek = Some c /\ length c = 16%nat /\
    AES_decrypt c dk = Some fips_plain.
Proof.
  apply (aes_decrypt_encrypt fips_key 128 4 5 blank_key fips_plain size128);
    [apply fips_bytes_ok|apply blank_key_ok|reflexivity|apply fips_bytes_ok].
Defined.

(** C25: The T-table encryption is the cipher of FIPS-197: for any expanded key
    of [2 nr] rounds, [AES_encrypt] computes [Cipher] on the block. *)
Theorem aes_encrypt_fips l rk nr :
  bytes_ok l -> rk_ok rk -> (0 < nr)%nat ->
  AES_encrypt l (mkKey rk (2 * Z.of_nat nr)) =
  Some (state_bytes (Cipher (2 * nr) (rkey rk) (block_state l))).
Proof. intros. by apply encrypt_cipher. Qed.

Lemma aes_encrypt_fips_witness :
  AES_encrypt fips_plain (mkKey (replicate 60 0) 10) =
  Some (state_bytes (Cipher 10 (rkey (replicate 60 0)) (block_state fips_plain))).
Proof.
  apply (aes_encrypt_fips fips_plain (replicate 60 0) 5);
    [apply fips_bytes_ok|apply blank_key_ok|lia].
Defined.

(** [AES_set_encrypt_key] computes the key expansion of FIPS-197: the
    first [Nk] words are the user's key and every later word of the
    [4 (Nr + 1)] follows the recurrence of the standard. *)
Theorem aes_key_expansion_fips uk bits Nk nr k :
  key_size bits Nk nr -> bytes_ok uk -> key_ok k ->
  exists rk,
    AES_set_encrypt_key (Some uk) bits (Some k) = Some (0, Some (mkKey rk (2 * Z.of_nat nr))) /\
    (forall i, (i < Nk)%nat ->
       unpack (ix rk i) =
       (ix uk (4 * i), ix uk (4 * i + 1), ix uk (4 * i + 2), ix uk (4 * i + 3))) /\
    (forall i, (Nk <= i < 4 * (2 * nr + 1))%nat ->
       unpack (ix rk i) = fips_word Nk (fun j => unpack (ix rk j)) i).
Proof.
  intros Hs Hu Hk.
  destruct (set_encrypt_key_spec uk bits Nk nr k Hs Hu Hk) as (rk & E1 & (_ & E2 & E3) & E4).
  exists rk. split; [done|]. split.
  - intros i Hi. rewrite E4 by done. by apply GETU32_unpack.
  - intros i Hi. pose proof (Nat.div_mod_eq i Nk) as Hd.
    assert (HN : Nk <> 0%nat) by (destruct Hs; lia).
    pose proof (Nat.mod_upper_bound i Nk HN) as Hm.
    assert (Ha : (0 < i / Nk)%nat) by (apply Nat.div_str_pos; lia).
    rewrite Hd, E3 by lia. apply next_word_fips; [done|done|done|].
    intros Hr. destruct Hs; lia.
Qed.

Lemma aes_key_expansion_fips_witness :
  exists rk,
    AES_set_encrypt_key (Some fips_key) 128 (Some blank_key) = Some (0, Some (mkKey rk 10)) /\
    unpack (ix rk 43) = fips_word 4 (fun j => unpack (ix rk j)) 43.
Proof.
  destruct (aes_key_expansion_fips fips_key 128 4 5 blank_key size128) as (rk & E & _ & H);
    [apply fips_bytes_ok|apply blank_key_ok|].
  exists rk. split; [exact E|]. apply H. lia.
Defined.

(** C36: CBC decryption undoes CBC encryption for a message of any length, the
    partial last block included; for whole blocks the two chaining values end
    up equal as well. *)
Theorem aes_cbc_round_trip uk bits Nk nr k inp iv :
  key_size bits Nk nr -> bytes_ok uk -> key_ok k ->
  bytes_ok inp -> length iv = 16%nat -> bytes_ok iv ->
  exists ek dk out iv1 iv2,
    AES_set_encrypt_key (Some uk) bits (Some k) = Some (0, Some ek) /\
    AES_set_decrypt_key (Some uk) bits (Some k) = Some (0, Some dk) /\
    AES_cbc_encrypt inp (length inp) ek iv true = Some (out, iv1) /\
    AES_cbc_encrypt out (length inp) dk iv false = Some (inp, iv2) /\
    (length inp `mod` 16 = 0 -> iv1 = iv2)%nat.
Proof.
  intros Hs Hu Hk Hi Hl Hv.
  destruct (set_decrypt_key_spec uk bits Nk nr k Hs Hu Hk) as (ek & dk & E1 & E2 & E3 & E4).
  destruct (cbc_round_trip (mkKey ek (2 * Z.of_nat nr)) (mkKey dk (2 * Z.of_nat nr)))
    with (fuel := S (length inp / 16)) (inp := inp) (iv := iv)
    as (out & iv1 & iv2 & F1 & F2 & F3 & F4); try done.
  - intros l Hll Hlb. apply decrypt_encrypt; try done. destruct Hs; lia.
  - pose proof (Nat.div_mod_eq (length inp) 16).
    pose proof (Nat.mod_upper_bound (length inp) 16 ltac:(lia)). lia.
  - exists (mkKey ek (2 * Z.of_nat nr)), (mkKey dk (2 * Z.of_nat nr)), out, iv1, iv2.
    split; [done|]. split; [done|]. unfold AES_cbc_encrypt, AES_BLOCK_SIZE.
    rewrite take_ge by lia. split; [done|]. split; [done|].
    intros Hm. apply (F4 (length inp / 16)%nat).
    pose proof (Nat.div_mod_eq (length inp) 16). lia.
Qed.

Lemma aes_cbc_round_trip_witness :
  exists ek dk out iv1 iv2,
    AES_set_encrypt_key (Some fips_key) 256 (Some blank_key) = Some (0, Some ek) /\
    AES_set_decrypt_key (Some fips_key) 256 (Some blank_key) = Some (0, Some dk) /\
    AES_cbc_encrypt (fips_key ++ [1; 2]) 18 ek fips_plain true = Some (out, iv1) /\
    AES_cbc_encrypt out 18 dk fips_plain false = Some (fips_key ++ [1; 2], iv2) /\
    (18 `mod` 16 = 0 -> iv1 = iv2)%nat.
Proof.
  apply (aes_cbc_round_trip fips_key 256 8 7 blank_key (fips_key ++ [1; 2]) fips_plain size256);
    [apply fips_bytes_ok|apply blank_key_ok| |reflexivity|apply fips_bytes_ok].
  apply Forall_app. split; [apply fips_bytes_ok|]. repeat constructor; done.
Defined.

(** After a partial last block the decrypted block, not the ciphertext block,
    is left in [ivec]: the two directions no longer have the same chaining
    value. *)
Example cbc_tail_ivec_differs :
  (e ← AES_set_encrypt_key (Some fips_key) 128 (Some blank_key);
   d ← AES_set_decrypt_key (Some fips_key) 128 (Some blank_key);
   ek ← e.2; dk ← d.2;
   '(out, iv1) ← AES_cbc_encrypt [7] 1 ek fips_plain true;
   '(_, iv2) ← AES_cbc_encrypt out 1 dk fips_plain false;
   Some (bool_decide (iv1 = iv2))) = Some false.
Proof. vm_compute. reflexivity. Qed.
