(* ===== verification/GuestMem.v ===== *)
(** * Guest memory: the debug accesses of [exec.c]

    [cpu_memory_rw_debug] is how the goldfish devices copy data from and to
    the guest. It walks the guest virtual addresses page by page, translates
    each page and copies through the physical page descriptors.

    The page tables of the guest are walked by the ARM helpers: the
    translation is the variable [cpu_get_phys_page_debug] of the sections
    below. The radix tree behind [phys_page_find] is a finite map, the host
    memory behind the RAM blocks a finite map from RAM offsets to bytes. *)
From stdpp Require Import gmap.
From S2P Require Import Prelude.

Definition TARGET_PAGE_BITS : Z := 10.
Definition TARGET_PAGE_SIZE : Z := 1024.
(** [x & TARGET_PAGE_MASK] and [x & ~TARGET_PAGE_MASK] for unsigned [x]. *)
Definition page_of (x : Z) : Z := Z.ldiff x (TARGET_PAGE_SIZE - 1).
Definition page_offset (x : Z) : Z := Z.land x (TARGET_PAGE_SIZE - 1).

Definition IO_MEM_SHIFT : Z := 3.
Definition IO_MEM_NB_ENTRIES : Z := 128.
Definition IO_MEM_RAM : Z := 0.
Definition IO_MEM_ROM : Z := 8.
Definition IO_MEM_UNASSIGNED : Z := 16.
Definition IO_MEM_ROMD : Z := 1.

Record PhysPageDesc := mkDesc { phys_offset : Z; region_offset : Z }.
Record RAMBlock := mkBlock { rb_offset : Z; rb_length : Z }.

Record PhysMem := mkMem {
  phys_map : gmap Z PhysPageDesc;      (* [l1_phys_map], by page number *)
  ram_blocks : list RAMBlock;
  ram : gmap Z Z                        (* the bytes of the RAM blocks *)
}.

Definition phys_page_find (m : PhysMem) (index : Z) : option PhysPageDesc :=
  phys_map m !! index.

Definition in_block (addr : Z) (b : RAMBlock) : bool :=
  (rb_offset b <=? addr) && (addr <? rb_offset b + rb_length b).

(** [qemu_get_ram_ptr]: the search for the block, and the exchange of the
    block found with the one before it. The pointer returned is the host
    address of [addr]; [abort] when no block has it. *)
Fixpoint find_block (addr : Z) (bs : list RAMBlock) : option (list RAMBlock) :=
  match bs with
  | [] => None
  | b :: rest =>
      if in_block addr b then Some bs
      else match rest with
           | [] => None
           | b' :: rest' =>
               if in_block addr b' then Some (b' :: b :: rest')
               else match find_block addr rest with
                    | Some bs' => Some (b :: bs')
                    | None => None
                    end
           end
  end.

Definition qemu_get_ram_ptr (m : PhysMem) (addr : Z) : res PhysMem :=
  match find_block addr (ram_blocks m) with
  | Some bs => Ok (mkMem (phys_map m) bs (ram m))
  | None => Abort
  end.

(** Two RAM offsets are in the same block, so that their host addresses
    differ by as much as they do. *)
Definition same_block (a b : Z) (m : PhysMem) : bool :=
  existsb (fun blk => in_block a blk && in_block b blk) (ram_blocks m).

(** [memcpy] to and from the host memory of the RAM. *)
Fixpoint ram_store (r : gmap Z Z) (a : Z) (buf : list Z) : gmap Z Z :=
  match buf with
  | [] => r
  | x :: buf' => ram_store (<[a := x]> r) (a + 1) buf'
  end.
Definition ram_byte (r : gmap Z Z) (a : Z) : Z := default 0 (r !! a).
Fixpoint ram_load (r : gmap Z Z) (a : Z) (n : nat) : list Z :=
  match n with
  | O => []
  | S k => ram_byte r a :: ram_load r (a + 1) k
  end.

(** The bytes up to the end of the page of [addr], at most [len]. *)
Definition chunk (addr len : Z) : Z :=
  let l := s32 (u32 (page_of addr + TARGET_PAGE_SIZE) - addr) in
  if len <? l then len else l.

(** The type of a page: what [p] being null or not gives [pd]. *)
Definition page_desc (p : option PhysPageDesc) : Z :=
  match p with None => IO_MEM_UNASSIGNED | Some p => phys_offset p end.

(** [cpu_physical_memory_write_rom]; [fuel] bounds the iterations. *)
Fixpoint write_rom_loop (fuel : nat) (addr : Z) (buf : list Z) (m : PhysMem) : res PhysMem :=
  match buf with
  | [] => Ok m
  | _ =>
    match fuel with
    | O => Undef
    | S fuel =>
      let l := chunk addr (Z.of_nat (length buf)) in
      let p := phys_page_find m (Z.shiftr (page_of addr) TARGET_PAGE_BITS) in
      let pd := page_desc p in
      let! m :=
        if negb (page_offset pd =? IO_MEM_RAM) && negb (page_offset pd =? IO_MEM_ROM)
           && negb (ctrue (Z.land pd IO_MEM_ROMD))
        then Ok m
        else
          let addr1 := page_of pd + page_offset addr in
          let! m := qemu_get_ram_ptr m addr1 in
          Ok (mkMem (phys_map m) (ram_blocks m)
                (ram_store (ram m) addr1 (take (Z.to_nat l) buf))) in
      write_rom_loop fuel (u32 (addr + l)) (drop (Z.to_nat l) buf) m
    end
  end.
Definition cpu_physical_memory_write_rom (addr : Z) (buf : list Z) (m : PhysMem) :=
  write_rom_loop (length buf) addr buf m.

(** Little-endian stores of an I/O read into the buffer ([stl_p], [stw_p],
    [stb_p] on a little-endian target). *)
Definition st_p (size : nat) (val : Z) : list Z :=
  map (fun i => u8 (Z.shiftr val (8 * Z.of_nat i))) (seq 0 size).

(** Little-endian loads ([ldl_p], [lduw_p], [ldub_p]). *)
Fixpoint ld_p (bytes : list Z) : Z :=
  match bytes with
  | [] => 0
  | b :: bytes' => Z.lor b (Z.shiftl (ld_p bytes') 8)
  end.

Definition CODE_DIRTY_FLAG : Z := 0x02.
Record DirtyState := mkDirty {
  phys_ram_dirty : gmap Z Z;
  tb_invalidated : list (Z * Z)
}.

Section Access.
(** [io_mem_read]: the read function of an I/O slot for accesses of 1, 2 and
    4 bytes, on the state [W] of the devices. *)
Context {W : Type} (io_mem_read : Z -> nat -> Z -> W -> res (Z * W)).
Context (cpu_get_phys_page_debug : Z -> option Z).

(** The read branch of [cpu_physical_memory_rw]: the bytes read. *)
Fixpoint phys_read_loop (fuel : nat) (addr : Z) (len : Z) (m : PhysMem) (w : W)
  : res (list Z * PhysMem * W) :=
  if len <=? 0 then Ok ([], m, w) else
  match fuel with
  | O => Undef
  | S fuel =>
      let l := chunk addr len in
      let p := phys_page_find m (Z.shiftr (page_of addr) TARGET_PAGE_BITS) in
      let pd := page_desc p in
      let! (l, bytes, m, w) :=
        if (IO_MEM_ROM <? page_offset pd) && negb (ctrue (Z.land pd IO_MEM_ROMD)) then
          let io_index := Z.land (Z.shiftr pd IO_MEM_SHIFT) (IO_MEM_NB_ENTRIES - 1) in
          let addr1 := match p with
                       | Some p => u32 (page_offset addr + region_offset p)
                       | None => addr
                       end in
          let size := if (4 <=? l) && (Z.land addr1 3 =? 0) then 4%nat
                      else if (2 <=? l) && (Z.land addr1 1 =? 0) then 2%nat
                      else 1%nat in
          let! (val, w) := io_mem_read io_index size addr1 w in
          Ok (Z.of_nat size, st_p size val, m, w)
        else
          let! m := qemu_get_ram_ptr m (page_of pd) in
          Ok (l, ram_load (ram m) (page_of pd + page_offset addr) (Z.to_nat l), m, w) in
      let! (rest, m, w) := phys_read_loop fuel (u32 (addr + l)) (len - l) m w in
      Ok (bytes ++ rest, m, w)
  end.
Definition cpu_physical_memory_read (addr len : Z) (m : PhysMem) (w : W) :=
  phys_read_loop (Z.to_nat len) addr len m w.

(** The write branch: [io_mem_write] of an I/O slot, the dirty flags of the
    RAM pages and the ranges whose translated code was invalidated. *)
Fixpoint phys_write_loop (io_mem_write : Z -> nat -> Z -> Z -> W -> res W)
  (fuel : nat) (addr : Z) (buf : list Z) (m : PhysMem) (dirty : DirtyState) (w : W)
  : res (PhysMem * DirtyState * W) :=
  match buf with
  | [] => Ok (m, dirty, w)
  | _ =>
    match fuel with
    | O => Undef
    | S fuel =>
      let l := chunk addr (Z.of_nat (length buf)) in
      let p := phys_page_find m (Z.shiftr (page_of addr) TARGET_PAGE_BITS) in
      let pd := page_desc p in
      let! (l, m, dirty, w) :=
        if negb (page_offset pd =? IO_MEM_RAM) then
          let io_index := Z.land (Z.shiftr pd IO_MEM_SHIFT) (IO_MEM_NB_ENTRIES - 1) in
          let addr1 := match p with
                       | Some p => u32 (page_offset addr + region_offset p)
                       | None => addr
                       end in
          let size := if (4 <=? l) && (Z.land addr1 3 =? 0) then 4%nat
                      else if (2 <=? l) && (Z.land addr1 1 =? 0) then 2%nat
                      else 1%nat in
          let! w := io_mem_write io_index size addr1 (ld_p (take size buf)) w in
          Ok (Z.of_nat size, m, dirty, w)
        else
          let addr1 := page_of pd + page_offset addr in
          let! m := qemu_get_ram_ptr m addr1 in
          let m := mkMem (phys_map m) (ram_blocks m)
                     (ram_store (ram m) addr1 (take (Z.to_nat l) buf)) in
          let page := Z.shiftr addr1 TARGET_PAGE_BITS in
          let flags := default 0 (phys_ram_dirty dirty !! page) in
          let dirty :=
            if flags =? 0xff then dirty
            else mkDirty (<[page := Z.lor flags (Z.ldiff 0xff CODE_DIRTY_FLAG)]> (phys_ram_dirty dirty))
                   ((addr1, addr1 + l) :: tb_invalidated dirty) in
          Ok (l, m, dirty, w) in
      phys_write_loop io_mem_write fuel (u32 (addr + l)) (drop (Z.to_nat l) buf) m dirty w
    end
  end.
Definition cpu_physical_memory_write io_mem_write (addr : Z) (buf : list Z) (m : PhysMem)
  (dirty : DirtyState) (w : W) :=
  phys_write_loop io_mem_write (length buf) addr buf m dirty w.

(** [cpu_memory_rw_debug] with [is_write = 1]: 0 or -1, and the memory. *)
Fixpoint rw_debug_write (fuel : nat) (addr : Z) (buf : list Z) (m : PhysMem)
  : res (Z * PhysMem) :=
  match buf with
  | [] => Ok (0, m)
  | _ =>
    match fuel with
    | O => Undef
    | S fuel =>
      match cpu_get_phys_page_debug (page_of addr) with
      | None => Ok (-1, m)
      | Some phys_addr =>
          let l := chunk addr (Z.of_nat (length buf)) in
          let phys_addr := u32 (phys_addr + page_offset addr) in
          let! m := cpu_physical_memory_write_rom phys_addr (take (Z.to_nat l) buf) m in
          rw_debug_write fuel (u32 (addr + l)) (drop (Z.to_nat l) buf) m
      end
    end
  end.

(** [cpu_memory_rw_debug] with [is_write = 0]: the bytes stored at the front
    of the caller's buffer (all of them when 0 is returned). *)
Fixpoint rw_debug_read (fuel : nat) (addr : Z) (len : Z) (m : PhysMem) (w : W)
  : res (Z * list Z * PhysMem * W) :=
  if len <=? 0 then Ok (0, [], m, w) else
  match fuel with
  | O => Undef
  | S fuel =>
      match cpu_get_phys_page_debug (page_of addr) with
      | None => Ok (-1, [], m, w)
      | Some phys_addr =>
          let l := chunk addr len in
          let phys_addr := u32 (phys_addr + page_offset addr) in
          let! (bytes, m, w) := cpu_physical_memory_read phys_addr l m w in
          let! (r, rest, m, w) := rw_debug_read fuel (u32 (addr + l)) (len - l) m w in
          Ok (r, bytes ++ rest, m, w)
      end
  end.

Definition cpu_memory_write_debug (addr : Z) (buf : list Z) (m : PhysMem) :=
  rw_debug_write (length buf) addr buf m.
Definition cpu_memory_read_debug (addr len : Z) (m : PhysMem) (w : W) :=
  rw_debug_read (Z.to_nat len) addr len m w.

(** ** The flat view

    [flat m va] is the RAM offset behind the guest virtual byte [va]: its
    page translates to a physical page that is plain RAM of a RAM block. *)
Definition flat (m : PhysMem) (va : Z) : option Z :=
  match cpu_get_phys_page_debug (page_of va) with
  | None => None
  | Some pa =>
      if negb (page_offset pa =? 0) || negb ((0 <=? pa) && (pa <? 4294967296)) then None else
      match phys_page_find m (Z.shiftr pa TARGET_PAGE_BITS) with
      | None => None
      | Some p =>
          if negb (page_offset (phys_offset p) =? IO_MEM_RAM) then None
          else if negb (forallb (fun a => existsb (in_block a) (ram_blocks m))
                  [phys_offset p; phys_offset p + page_offset va]) then None
          else Some (phys_offset p + page_offset va)
      end
  end.

End Access.

(** Byte-wise write and read through a translation [tr]. *)
Fixpoint flat_write (tr : Z -> option Z) (r : gmap Z Z) (va : Z) (buf : list Z) : gmap Z Z :=
  match buf with
  | [] => r
  | x :: buf' =>
      let r := match tr va with Some a => <[a := x]> r | None => r end in
      flat_write tr r (va + 1) buf'
  end.
Fixpoint flat_read (tr : Z -> option Z) (r : gmap Z Z) (va : Z) (n : nat) : list Z :=
  match n with
  | O => []
  | S k => (match tr va with Some a => ram_byte r a | None => 0 end)
             :: flat_read tr r (va + 1) k
  end.

(** ** Lemmas *)

Lemma page_of_mod x : page_of x = x - x mod 1024.
Proof.
  unfold page_of, TARGET_PAGE_SIZE. change (1024 - 1) with (Z.ones 10).
  rewrite Z.ldiff_ones_r, Z.shiftl_mul_pow2, Z.shiftr_div_pow2 by lia.
  change (2 ^ 10) with 1024. pose proof (Z.div_mod x 1024). lia.
Qed.
Lemma page_offset_mod x : page_offset x = x mod 1024.
Proof.
  unfold page_offset, TARGET_PAGE_SIZE. change (1024 - 1) with (Z.ones 10).
  by rewrite Z.land_ones by lia.
Qed.

Lemma page_of_ram x : page_offset x = IO_MEM_RAM -> page_of x = x.
Proof. rewrite page_offset_mod, page_of_mod. unfold IO_MEM_RAM. lia. Qed.
Lemma shiftr_page_of x :
  Z.shiftr (page_of x) TARGET_PAGE_BITS = Z.shiftr x TARGET_PAGE_BITS.
Proof.
  unfold TARGET_PAGE_BITS. rewrite page_of_mod, !Z.shiftr_div_pow2 by lia.
  change (2 ^ 10) with 1024. rewrite (Z.div_mod x 1024) at 1 by lia.
  replace (1024 * (x / 1024) + x mod 1024 - x mod 1024) with (x / 1024 * 1024) by lia.
  apply Z.div_mul. lia.
Qed.
Lemma mod_page_add pa o : pa mod 1024 = 0 -> (pa + o mod 1024) mod 1024 = o mod 1024.
Proof. intros H. rewrite <- Z.add_mod_idemp_l, H, Z.add_0_l by lia. by rewrite Z.mod_mod by lia. Qed.
Lemma shiftr_page_add pa o : pa mod 1024 = 0 ->
  Z.shiftr (pa + o mod 1024) TARGET_PAGE_BITS = Z.shiftr pa TARGET_PAGE_BITS.
Proof.
  intros H. rewrite <- shiftr_page_of, page_of_mod, mod_page_add by done. f_equal. lia.
Qed.
Lemma in_u32_page pa o : pa mod 1024 = 0 -> in_u32 pa -> in_u32 (pa + o mod 1024).
Proof.
  intros H Hp. pose proof (Z.mod_pos_bound o 1024). pose proof (Z.div_mod pa 1024). lia.
Qed.

Lemma chunk_spec addr len :
  in_u32 addr -> 0 < len -> chunk addr len = Z.min len (1024 - addr mod 1024).
Proof.
  intros Ha Hl. unfold chunk. rewrite page_of_mod by lia.
  pose proof (Z.mod_pos_bound addr 1024 ltac:(lia)) as Hm.
  assert (s32 (u32 (addr - addr mod 1024 + TARGET_PAGE_SIZE) - addr) = 1024 - addr mod 1024) as ->.
  { unfold TARGET_PAGE_SIZE.
    rewrite <- swrap_uwrap, <- Z.add_opp_r, uwrap_add_l, swrap_uwrap by lia.
    rewrite swrap_small; simpl; lia. }
  destruct (Z.ltb_spec len (1024 - addr mod 1024)); lia.
Qed.

Lemma find_block_spec a bs :
  existsb (in_block a) bs = true ->
  exists bs', find_block a bs = Some bs' /\ bs' ≡ₚ bs.
Proof.
  induction bs as [|b rest IH]; [done|]. simpl.
  destruct (in_block a b) eqn:E; [eauto|]. simpl. intros H.
  destruct rest as [|b' rest']; [done|].
  destruct (in_block a b') eqn:E'.
  - eexists. split; [done|]. constructor.
  - destruct (IH H) as (bs' & -> & Hp). eexists. split; [done|]. by rewrite Hp.
Qed.

#[global] Instance existsb_proper {A} (f : A -> bool) :
  Proper ((≡ₚ) ==> (=)) (existsb f).
Proof.
  intros l l' H. apply eq_true_iff_eq. rewrite !existsb_exists.
  split; intros (x & Hin & Hf); exists x; split; try done.
  - by apply list_elem_of_In; rewrite <- H; apply list_elem_of_In.
  - by apply list_elem_of_In; rewrite H; apply list_elem_of_In.
Qed.

(** Two memories that differ only in the order of the RAM blocks. *)
Definition mem_like (m : PhysMem) (r : gmap Z Z) (m' : PhysMem) : Prop :=
  phys_map m' = phys_map m /\ ram_blocks m' ≡ₚ ram_blocks m /\ ram m' = r.

Lemma flat_like tr m r m' : mem_like m r m' -> forall va, flat tr m' va = flat tr m va.
Proof.
  intros (H1 & H2 & _) va. unfold flat, phys_page_find. rewrite H1.
  repeat case_match; try done; simpl in *; by rewrite ?H2 in *; congruence.
Qed.

Lemma mem_like_trans m r1 m1 r2 m2 :
  mem_like m r1 m1 -> mem_like m1 r2 m2 -> mem_like m r2 m2.
Proof.
  intros (H1 & H2 & _) (H3 & H4 & H5). unfold mem_like.
  rewrite H3, H4, H5. done.
Qed.

Lemma get_ram_ptr_ok m a :
  existsb (in_block a) (ram_blocks m) = true ->
  exists m', qemu_get_ram_ptr m a = Ok m' /\ mem_like m (ram m) m'.
Proof.
  intros H. unfold qemu_get_ram_ptr. destruct (find_block_spec _ _ H) as (bs & -> & Hp).
  eexists. by split; [|split; [|split]].
Qed.

Lemma ram_store_app r a b1 b2 :
  ram_store r a (b1 ++ b2) = ram_store (ram_store r a b1) (a + Z.of_nat (length b1)) b2.
Proof.
  revert r a. induction b1 as [|x b1 IH]; intros r a; simpl; [f_equal; lia|].
  rewrite IH. f_equal. lia.
Qed.
Lemma length_ram_load r a n : length (ram_load r a n) = n.
Proof. revert a. induction n; intros; simpl; auto. Qed.

Section Flat.
Context {W : Type} (io_mem_read : Z -> nat -> Z -> W -> res (Z * W)).
Context (tr : Z -> option Z).

(** What [flat] says of the tables behind a guest byte. *)
Lemma flat_inv m va a :
  0 <= va -> flat tr m va = Some a ->
  exists pa p, tr (page_of va) = Some pa /\ pa mod 1024 = 0 /\ in_u32 pa /\
    phys_page_find m (Z.shiftr pa TARGET_PAGE_BITS) = Some p /\
    page_offset (phys_offset p) = IO_MEM_RAM /\
    existsb (in_block (phys_offset p)) (ram_blocks m) = true /\
    existsb (in_block a) (ram_blocks m) = true /\
    a = phys_offset p + va mod 1024.
Proof.
  intros Hva. unfold flat. destruct (tr (page_of va)) as [pa|] eqn:Ht; [|done].
  destruct (negb (page_offset pa =? 0) || _) eqn:E1; [done|].
  destruct (phys_page_find _ _) as [p|] eqn:Ep; [|done].
  destruct (negb (page_offset (phys_offset p) =? IO_MEM_RAM)) eqn:E2; [done|].
  cbn [forallb]. rewrite andb_true_r.
  destruct (existsb (in_block (phys_offset p)) _) eqn:E3; [|done].
  destruct (existsb (in_block (phys_offset p + page_offset va)) _) eqn:E4; [|done].
  simpl. intros [= <-]. exists pa, p.
  rewrite page_offset_mod in E1. rewrite (page_offset_mod va) in E4.
  apply orb_false_iff in E1 as [E1 E1'].
  apply negb_false_iff in E1, E2, E1'. apply andb_true_iff in E1'.
  rewrite (page_offset_mod va). repeat split; try done; lia.
Qed.

(** Bytes of one page are contiguous in RAM. *)
Lemma flat_same_page m va a i a' :
  0 <= va -> 0 <= i -> va mod 1024 + i < 1024 ->
  flat tr m va = Some a -> flat tr m (va + i) = Some a' -> a' = a + i.
Proof.
  intros Hva Hi Hp H1 H2.
  apply flat_inv in H1 as (pa & p & T1 & _ & _ & P1 & _ & _ & _ & ->); [|done].
  apply flat_inv in H2 as (pa' & p' & T2 & _ & _ & P2 & _ & _ & _ & ->); [|lia].
  assert (Hm : (va + i) mod 1024 = va mod 1024 + i).
  { rewrite <- Z.add_mod_idemp_l by lia. apply Z.mod_small.
    pose proof (Z.mod_pos_bound va 1024). lia. }
  rewrite page_of_mod, Hm in T2 by lia. rewrite page_of_mod in T1 by lia.
  replace (va + i - (va mod 1024 + i)) with (va - va mod 1024) in T2 by lia.
  rewrite T1 in T2. injection T2 as <-. rewrite P1 in P2. injection P2 as <-. lia.
Qed.

Lemma flat_write_page m r va a buf :
  0 <= va -> va mod 1024 + Z.of_nat (length buf) <= 1024 ->
  (buf <> [] -> flat tr m va = Some a) ->
  (forall i, 0 <= i < Z.of_nat (length buf) -> is_Some (flat tr m (va + i))) ->
  flat_write (flat tr m) r va buf = ram_store r a buf.
Proof.
  intros Hva. revert r va a Hva. induction buf as [|x buf IH]; intros r va a Hva Hp Ha Hall; [done|].
  simpl. rewrite Ha by done. cbn [length] in *.
  apply IH; [lia| | |].
  - destruct (decide (buf = [])) as [->|Hb].
    + simpl. pose proof (Z.mod_pos_bound (va + 1) 1024). lia.
    + assert (length buf <> 0%nat) by (by destruct buf).
      rewrite <- Z.add_mod_idemp_l by lia. rewrite Z.mod_small; [lia|].
      pose proof (Z.mod_pos_bound va 1024). lia.
  - intros Hb. assert (length buf <> 0%nat) by (by destruct buf).
    destruct (Hall 1) as [a' Ha']; [lia|]. rewrite Ha'. f_equal.
    eapply (flat_same_page m va a 1); [lia..|by apply Ha|done].
  - intros i Hi. replace (va + 1 + i) with (va + (1 + i)) by lia. apply Hall. lia.
Qed.

Lemma flat_write_app t r va b1 b2 :
  flat_write t r va (b1 ++ b2) =
  flat_write t (flat_write t r va b1) (va + Z.of_nat (length b1)) b2.
Proof.
  revert r va. induction b1 as [|x b1 IH]; intros r va; simpl; [f_equal; lia|].
  rewrite IH. f_equal. lia.
Qed.

Lemma flat_read_app t r va n1 n2 :
  flat_read t r va (n1 + n2) =
  flat_read t r va n1 ++ flat_read t r (va + Z.of_nat n1) n2.
Proof.
  revert va. induction n1 as [|k IH]; intros va; simpl; [f_equal; lia|].
  rewrite IH. do 3 f_equal. lia.
Qed.
Lemma flat_write_ext t t' r va buf :
  (forall x, t x = t' x) -> flat_write t r va buf = flat_write t' r va buf.
Proof.
  intros H. revert r va. induction buf as [|x buf IH]; intros; simpl; [done|].
  by rewrite H, IH.
Qed.
Lemma flat_read_ext t t' r va n :
  (forall x, t x = t' x) -> flat_read t r va n = flat_read t' r va n.
Proof.
  intros H. revert va. induction n as [|k IH]; intros; simpl; [done|].
  by rewrite H, IH.
Qed.

Lemma flat_read_page m r va a n :
  0 <= va -> va mod 1024 + Z.of_nat n <= 1024 ->
  (n <> 0%nat -> flat tr m va = Some a) ->
  (forall i, 0 <= i < Z.of_nat n -> is_Some (flat tr m (va + i))) ->
  flat_read (flat tr m) r va n = ram_load r a n.
Proof.
  intros Hva. revert va a Hva. induction n as [|n IH]; intros va a Hva Hp Ha Hall; [done|].
  simpl. rewrite Ha by done. f_equal. apply IH; [lia| | |].
  - destruct (decide (n = 0%nat)) as [->|Hb].
    + simpl. pose proof (Z.mod_pos_bound (va + 1) 1024). lia.
    + rewrite <- Z.add_mod_idemp_l by lia. rewrite Z.mod_small; [lia|].
      pose proof (Z.mod_pos_bound va 1024). lia.
  - intros Hb. destruct (Hall 1) as [a' Ha']; [lia|]. rewrite Ha'. f_equal.
    eapply (flat_same_page m va a 1); [lia..|by apply Ha|done].
  - intros i Hi. replace (va + 1 + i) with (va + (1 + i)) by lia. apply Hall. lia.
Qed.

End Flat.

(** ** The paged copies are the flat copies *)

Section Copies.
Context {W : Type} (io_mem_read : Z -> nat -> Z -> W -> res (Z * W)).
Context (tr : Z -> option Z).

(** A write that stays in one RAM page. *)
Lemma write_rom_page pa p m buf :
  buf <> [] -> in_u32 pa -> pa mod 1024 + Z.of_nat (length buf) <= 1024 ->
  phys_page_find m (Z.shiftr pa TARGET_PAGE_BITS) = Some p ->
  page_offset (phys_offset p) = IO_MEM_RAM ->
  existsb (in_block (phys_offset p + pa mod 1024)) (ram_blocks m) = true ->
  exists m', cpu_physical_memory_write_rom pa buf m = Ok m' /\
    mem_like m (ram_store (ram m) (phys_offset p + pa mod 1024) buf) m'.
Proof.
  intros Hb Hpa Hlen Hp Hram Hblk.
  pose proof (Z.mod_pos_bound pa 1024 ltac:(lia)) as Hmod.
  unfold cpu_physical_memory_write_rom.
  destruct buf as [|x buf']; [done|]. set (buf := x :: buf') in *.
  assert (Hc : chunk pa (Z.of_nat (length buf)) = Z.of_nat (length buf)).
  { rewrite chunk_spec by (simpl in *; lia). lia. }
  change (length buf) with (S (length buf')) at 1. cbn [write_rom_loop].
  fold buf. rewrite Hc, Nat2Z.id.
  change (match buf with [] => Ok m | _ :: _ => ?k end) with k.
  rewrite shiftr_page_of, Hp. cbn [page_desc]. rewrite Hram. cbn [Z.eqb negb andb IO_MEM_RAM].
  rewrite (page_of_ram _ Hram), (page_offset_mod pa).
  destruct (get_ram_ptr_ok _ _ Hblk) as (m' & -> & Hlike). cbn [rbind].
  rewrite drop_ge, take_ge by lia.
  eexists. split; [by destruct (length buf')|].
  destruct Hlike as (? & ? & Hr). unfold mem_like; cbn. by rewrite Hr.
Qed.

(** A read that stays in one RAM page. *)
Lemma phys_read_page pa p m n w :
  0 < n -> in_u32 pa -> pa mod 1024 + n <= 1024 ->
  phys_page_find m (Z.shiftr pa TARGET_PAGE_BITS) = Some p ->
  page_offset (phys_offset p) = IO_MEM_RAM ->
  existsb (in_block (phys_offset p)) (ram_blocks m) = true ->
  exists m', cpu_physical_memory_read io_mem_read pa n m w =
      Ok (ram_load (ram m) (phys_offset p + pa mod 1024) (Z.to_nat n), m', w) /\
    mem_like m (ram m) m'.
Proof.
  intros Hn Hpa Hlen Hp Hram Hblk.
  unfold cpu_physical_memory_read. destruct (Z.to_nat n) as [|k] eqn:Ek; [lia|].
  cbn [phys_read_loop]. rewrite (proj2 (Z.leb_gt n 0)) by lia.
  rewrite chunk_spec, Z.min_l, shiftr_page_of, Hp by lia. cbn [page_desc].
  rewrite Hram. cbn [Z.ltb Z.compare andb IO_MEM_RAM IO_MEM_ROM].
  rewrite (page_of_ram _ Hram), (page_offset_mod pa).
  destruct (get_ram_ptr_ok _ _ Hblk) as (m' & -> & Hlike). cbn [rbind].
  rewrite Z.sub_diag. exists m'. split; [|done].
  destruct Hlike as (_ & _ & ->). rewrite Ek.
  by destruct k; cbn [phys_read_loop Z.leb Z.compare rbind]; rewrite app_nil_r.
Qed.

(** The guest range [va, va+n) is RAM and does not wrap around. *)
Definition guest_ram (m : PhysMem) (va n : Z) : Prop :=
  0 <= va /\ 0 <= n /\ va + n <= 4294967296 /\
  forall i, 0 <= i < n -> is_Some (flat tr m (va + i)).

Lemma guest_ram_chunk m va n : guest_ram m va n -> 0 < n ->
  let l := Z.min n (1024 - va mod 1024) in
  0 < l <= n /\ va mod 1024 + l <= 1024 /\ chunk va n = l /\
  guest_ram m va l /\ guest_ram m (va + l) (n - l) /\ 
  (0 < n - l -> u32 (va + l) = va + l).
Proof.
  intros (H1 & H2 & H3 & H4) Hn l.
  pose proof (Z.mod_pos_bound va 1024 ltac:(lia)).
  assert (0 < l <= n) by lia.
  split; [done|]. split; [lia|]. split; [apply chunk_spec; lia|].
  split; [split_and!; try lia; intros; apply H4; lia|].
  split; [split_and!; try lia|intros; apply uwrap_small; lia].
  intros i Hi. rewrite <- Z.add_assoc. apply H4. lia.
Qed.

Lemma guest_ram_like m r m' va n : mem_like m r m' -> guest_ram m va n -> guest_ram m' va n.
Proof.
  intros Hl (?&?&?&H). split_and!; try done. intros i Hi.
  rewrite (flat_like _ _ _ _ Hl). by apply H.
Qed.

(** The copy of one chunk is the flat copy of its bytes. *)
Lemma write_chunk m va buf :
  buf <> [] -> guest_ram m va (Z.of_nat (length buf)) ->
  va mod 1024 + Z.of_nat (length buf) <= 1024 ->
  exists pa m1, tr (page_of va) = Some pa /\
    cpu_physical_memory_write_rom (u32 (pa + page_offset va)) buf m = Ok m1 /\
    mem_like m (flat_write (flat tr m) (ram m) va buf) m1.
Proof.
  intros Hb (Hva & _ & Hw & Hall) Hp.
  assert (length buf <> 0%nat) by (by destruct buf).
  destruct (Hall 0) as [a Ha]; [lia|]. rewrite Z.add_0_r in Ha.
  destruct (flat_inv _ _ _ _ Hva Ha) as (pa & p & Ht & Hpa & Hin & Hpf & Hr & Hb1 & Hb2 & ->).
  rewrite (flat_write_page tr m _ va (phys_offset p + va mod 1024)) by done.
  exists pa. rewrite page_offset_mod, uwrap_small by (by apply in_u32_page).
  destruct (write_rom_page (pa + va mod 1024) p m buf) as (m1 & Hm1 & Hl1);
    rewrite ?mod_page_add, ?shiftr_page_add in * by done; try done; [by apply in_u32_page|].
  by exists m1.
Qed.

Lemma read_chunk m va n w :
  0 < n -> guest_ram m va n -> va mod 1024 + n <= 1024 ->
  exists pa m1, tr (page_of va) = Some pa /\
    cpu_physical_memory_read io_mem_read (u32 (pa + page_offset va)) n m w
      = Ok (flat_read (flat tr m) (ram m) va (Z.to_nat n), m1, w) /\
    mem_like m (ram m) m1.
Proof.
  intros Hn (Hva & _ & Hw & Hall) Hp.
  destruct (Hall 0) as [a Ha]; [lia|]. rewrite Z.add_0_r in Ha.
  destruct (flat_inv _ _ _ _ Hva Ha) as (pa & p & Ht & Hpa & Hin & Hpf & Hr & Hb1 & Hb2 & ->).
  rewrite (flat_read_page tr m _ va (phys_offset p + va mod 1024))
    by (rewrite ?Z2Nat.id by lia; done).
  exists pa. rewrite page_offset_mod, uwrap_small by (by apply in_u32_page).
  destruct (phys_read_page (pa + va mod 1024) p m n w) as (m1 & Hm1 & Hl1);
    rewrite ?mod_page_add, ?shiftr_page_add in * by done; try done; [by apply in_u32_page|].
  by exists m1.
Qed.

Lemma guest_ram_next m va n l :
  guest_ram m (va + l) (n - l) -> l <= n -> (0 < n - l -> u32 (va + l) = va + l) ->
  guest_ram m (u32 (va + l)) (n - l).
Proof.
  intros Hg Hl Hu. destruct (decide (0 < n - l)); [by rewrite Hu|].
  pose proof (uwrap_range 32 (va + l) ltac:(lia)). split_and!; lia.
Qed.

Lemma rw_debug_write_flat fuel va buf m :
  (length buf <= fuel)%nat -> guest_ram m va (Z.of_nat (length buf)) ->
  exists m', rw_debug_write tr fuel va buf m = Ok (0, m') /\
    mem_like m (flat_write (flat tr m) (ram m) va buf) m'.
Proof.
  revert va buf m. induction fuel as [|fuel IH]; intros va buf m Hf Hg.
  { destruct buf; [|simpl in *; lia]. by eexists. }
  destruct buf as [|x buf']; [by eexists|]. remember (x :: buf') as buf eqn:Eb.
  assert (Hn : 0 < Z.of_nat (length buf)) by (subst; simpl; lia).
  destruct (guest_ram_chunk _ _ _ Hg Hn) as (Hl & Hp & Hc & Hg1 & Hg2 & Hu).
  set (l := Z.min _ _) in *.
  assert (Htk : Z.of_nat (length (take (Z.to_nat l) buf)) = l) by (rewrite length_take; lia).
  destruct (write_chunk m va (take (Z.to_nat l) buf)) as (pa & m1 & Ht & Hm1 & Hl1);
    rewrite ?Htk; try done.
  { intros E. rewrite E in Htk. simpl in Htk. lia. }
  destruct (IH (u32 (va + l)) (drop (Z.to_nat l) buf) m1) as (m2 & Hm2 & Hl2).
  { rewrite length_drop. lia. }
  { rewrite length_drop, Nat2Z.inj_sub, Z2Nat.id by lia.
    eapply guest_ram_like, guest_ram_next; [done..|lia|done]. }
  exists m2. split.
  { subst buf. cbn [rw_debug_write]. rewrite Ht, Hc, Hm1. done. }
  eapply mem_like_trans; [exact Hl1|].
  rewrite <- (take_drop (Z.to_nat l) buf) at 1. rewrite flat_write_app, Htk.
  rewrite (flat_write_ext _ (flat tr m)) in Hl2 by (by eapply flat_like).
  destruct Hl1 as (_ & _ & <-). destruct (decide (0 < Z.of_nat (length buf) - l)).
  - by rewrite <- Hu.
  - by rewrite drop_ge in * by lia.
Qed.

Lemma rw_debug_read_flat fuel va n m w :
  (Z.to_nat n <= fuel)%nat -> guest_ram m va n ->
  exists m', rw_debug_read io_mem_read tr fuel va n m w =
      Ok (0, flat_read (flat tr m) (ram m) va (Z.to_nat n), m', w) /\
    mem_like m (ram m) m'.
Proof.
  revert va n m. induction fuel as [|fuel IH]; intros va n m Hf Hg;
    (destruct (decide (n <= 0)) as [Hz|Hz];
     [exists m; replace (Z.to_nat n) with 0%nat by lia;
      cbn [rw_debug_read]; rewrite (proj2 (Z.leb_le n 0)) by lia; done|]); [lia|].
  assert (Hn : 0 < n) by lia. cbn [rw_debug_read]. rewrite (proj2 (Z.leb_gt n 0)) by lia.
  destruct (guest_ram_chunk _ _ _ Hg Hn) as (Hl & Hp & Hc & Hg1 & Hg2 & Hu).
  set (l := Z.min _ _) in *.
  destruct (read_chunk m va l w) as (pa & m1 & Ht & Hm1 & Hl1); [lia|done|done|].
  destruct (IH (u32 (va + l)) (n - l) m1) as (m2 & Hm2 & Hl2); [lia| |].
  { eapply guest_ram_like, guest_ram_next; [done..|lia|done]. }
  exists m2. rewrite Ht, Hc, Hm1. cbn [rbind]. rewrite Hm2. cbn [rbind]. split.
  - do 4 f_equal. replace (Z.to_nat n) with (Z.to_nat l + Z.to_nat (n - l))%nat by lia.
    rewrite flat_read_app, Z2Nat.id by lia.
    rewrite (flat_read_ext (flat tr m1) (flat tr m)) by (by eapply flat_like).
    destruct Hl1 as (_ & _ & ->). destruct (decide (0 < n - l)).
    + by rewrite Hu.
    + by replace (Z.to_nat (n - l)) with 0%nat by lia.
  - destruct Hl1 as (? & ? & Hr1). eapply mem_like_trans; [|rewrite <- Hr1; exact Hl2].
    done.
Qed.
End Copies.

(** ** What guest memory promises to the devices

    [gm_write] and [gm_read] are [cpu_memory_rw_debug] in its two directions;
    on a range that is [gm_ok] they succeed and act on the bytes [gm_byte]. *)
Class GuestMemory (M : Type) := {
  gm_write : Z -> list Z -> M -> res (Z * M);
  gm_read : Z -> Z -> M -> res (Z * list Z * M);
  gm_ok : M -> Z -> Z -> Prop;
  gm_byte : M -> Z -> Z;
  gm_write_ok m a buf : gm_ok m a (Z.of_nat (length buf)) ->
    exists m', gm_write a buf m = Ok (0, m') /\
      (forall i x, buf !! i = Some x -> gm_byte m' (a + Z.of_nat i) = x) /\
      (forall a' n', gm_ok m' a' n' <-> gm_ok m a' n');
  gm_read_ok m a n : gm_ok m a n ->
    exists m', gm_read a n m =
        Ok (0, map (fun i => gm_byte m (a + Z.of_nat i)) (seq 0 (Z.to_nat n)), m') /\
      (forall x, gm_byte m' x = gm_byte m x) /\
      (forall a' n', gm_ok m' a' n' <-> gm_ok m a' n');
  gm_ok_range m a n : gm_ok m a n -> 0 <= a /\ 0 <= n /\ a + n <= 2 ^ 32;
  gm_ok_sub m a n b k : gm_ok m a n -> a <= b -> 0 <= k -> b + k <= a + n -> gm_ok m b k;
  gm_write_frame m a buf r m' b n x :
    gm_write a buf m = Ok (r, m') -> gm_ok m b n -> b <= a -> a + Z.of_nat (length buf) <= b + n ->
    b <= x < b + n -> ~ (a <= x < a + Z.of_nat (length buf)) -> gm_byte m' x = gm_byte m x
}.

(** The bytes of a guest buffer. *)
Section Bytes.
Context {M : Type} `{GM : GuestMemory M}.

Definition guest_bytes (m : M) (a : Z) (n : nat) : list Z :=
  map (fun i => gm_byte m (a + Z.of_nat i)) (seq 0 n).

Lemma guest_bytes_app m a n1 n2 :
  guest_bytes m a (n1 + n2) = guest_bytes m a n1 ++ guest_bytes m (a + Z.of_nat n1) n2.
Proof.
  unfold guest_bytes. rewrite seq_app, map_app. f_equal.
  replace (seq (0 + n1) n2) with (map (Nat.add n1) (seq 0 n2))
    by (etransitivity; [apply (fmap_add_seq n1 0)|f_equal; lia]).
  rewrite map_map. apply map_ext. intros i. f_equal. lia.
Qed.

Lemma length_guest_bytes m a n : length (guest_bytes m a n) = n.
Proof. unfold guest_bytes. by rewrite length_map, length_seq. Qed.

Lemma guest_bytes_ext m m' a n :
  (forall x, a <= x < a + Z.of_nat n -> gm_byte m' x = gm_byte m x) -> guest_bytes m' a n = guest_bytes m a n.
Proof.
  intros H. unfold guest_bytes. apply map_ext_in. intros i Hi%in_seq. apply H. lia.
Qed.

Lemma guest_bytes_written m' a l : (forall i x, l !! i = Some x -> gm_byte m' (a + Z.of_nat i) = x) -> guest_bytes m' a (length l) = l.
Proof.
  intros H. apply list_eq. intros i. unfold guest_bytes. change (map ?g ?x) with (g <$> x). rewrite list_lookup_fmap.
  destruct (l !! i) as [x|] eqn:E.
  - rewrite lookup_seq_lt by (by eapply lookup_lt_Some). cbn. f_equal. by apply H.
  - apply lookup_ge_None in E. by rewrite lookup_seq_ge.
Qed.
End Bytes.

Section Instance.
Context {W : Type} (io_mem_read : Z -> nat -> Z -> W -> res (Z * W)).
Context (tr : Z -> option Z).

(** A guest buffer: a RAM range no two bytes of which share a RAM byte. *)
Definition guest_buffer (m : PhysMem) (va n : Z) : Prop :=
  guest_ram tr m va n /\
  forall i j, 0 <= i < n -> 0 <= j < n ->
    flat tr m (va + i) = flat tr m (va + j) -> i = j.

Lemma flat_read_seq t r va n :
  flat_read t r va n =
  map (fun i => match t (va + Z.of_nat i) with Some a => ram_byte r a | None => 0 end) (seq 0 n).
Proof.
  revert va. induction n as [|n IH]; intros va; [done|].
  cbn [flat_read seq map]. rewrite Z.add_0_r. f_equal.
  rewrite IH, <- seq_shift, map_map. apply map_ext. intros i.
  by replace (va + 1 + Z.of_nat i) with (va + Z.of_nat (S i)) by lia.
Qed.

Lemma flat_write_other t r va buf a :
  (forall i, (i < length buf)%nat -> t (va + Z.of_nat i) <> Some a) ->
  flat_write t r va buf !! a = r !! a.
Proof.
  revert r va. induction buf as [|x buf IH]; intros r va H; [done|]. cbn [flat_write].
  rewrite IH.
  - pose proof (H 0%nat) as H0. rewrite Z.add_0_r in H0. simpl in H0.
    destruct (t va) as [b|]; [|done]. apply lookup_insert_ne. intros ->. apply H0; [lia|done].
  - intros i Hi. replace (va + 1 + Z.of_nat i) with (va + Z.of_nat (S i)) by lia.
    apply H. simpl. lia.
Qed.

Lemma flat_write_at t r va buf i x a :
  (forall j, (i < j < length buf)%nat -> t (va + Z.of_nat j) <> Some a) ->
  t (va + Z.of_nat i) = Some a -> buf !! i = Some x ->
  flat_write t r va buf !! a = Some x.
Proof.
  revert r va i. induction buf as [|y buf IH]; intros r va i H Ht Hx; [done|].
  cbn [flat_write]. destruct i as [|i].
  - simpl in Hx. injection Hx as ->. rewrite Z.add_0_r in Ht. rewrite Ht.
    rewrite flat_write_other; [by apply lookup_insert_eq|].
    intros i Hi. replace (va + 1 + Z.of_nat i) with (va + Z.of_nat (S i)) by lia.
    apply H. simpl. lia.
  - apply (IH _ _ i); [|by replace (va + 1 + Z.of_nat i) with (va + Z.of_nat (S i)) by lia|done].
    intros j Hj. replace (va + 1 + Z.of_nat j) with (va + Z.of_nat (S j)) by lia.
    apply H. simpl. lia.
Qed.

Definition flat_byte (m : PhysMem * W) (va : Z) : Z :=
  match flat tr m.1 va with Some a => ram_byte (ram m.1) a | None => 0 end.

Lemma guest_buffer_like m r m' va n :
  mem_like m r m' -> guest_buffer m' va n <-> guest_buffer m va n.
Proof.
  intros Hl. pose proof (flat_like tr _ _ _ Hl) as H. unfold guest_buffer, guest_ram.
  split; intros ((?&?&?&H4)&H5); (split; [split_and!; try done|]); intros i *;
    specialize (H4 i) || specialize (H5 i); intros; rewrite ?H in *; eauto.
  all: apply H5; rewrite ?H; done.
Qed.

(** What a write that stored the bytes one by one leaves at the bytes
    written and at the other bytes of a buffer. *)
Lemma like_written (m m' : PhysMem) (w : W) a buf i x :
  guest_buffer m a (Z.of_nat (length buf)) -> mem_like m (flat_write (flat tr m) (ram m) a buf) m' ->
  buf !! i = Some x -> flat_byte (m', w) (a + Z.of_nat i) = x.
Proof.
  intros [Hg Hinj] Hl Hx. pose proof (lookup_lt_Some _ _ _ Hx) as Hi. unfold flat_byte.
  cbn [fst]. rewrite (flat_like tr _ _ _ Hl).
  destruct Hg as (_ & _ & _ & Hall). destruct (Hall (Z.of_nat i)) as [b Hb]; [lia|].
  rewrite Hb. destruct Hl as (_ & _ & ->). unfold ram_byte.
  erewrite flat_write_at; [done| |exact Hb|done].
  intros j Hj E. rewrite <- Hb in E. apply Hinj in E; lia.
Qed.

Lemma like_framed (m m' : PhysMem) (w w' : W) a buf b n x :
  guest_buffer m b n -> mem_like m (flat_write (flat tr m) (ram m) a buf) m' ->
  b <= a -> a + Z.of_nat (length buf) <= b + n -> b <= x < b + n ->
  ~ (a <= x < a + Z.of_nat (length buf)) -> flat_byte (m', w') x = flat_byte (m, w) x.
Proof.
  intros Hb Hl Hba Han Hx Hout. unfold flat_byte. cbn [fst].
  rewrite (flat_like tr _ _ _ Hl). destruct (flat tr m x) as [c|] eqn:Hc; [|done].
  destruct Hl as (_ & _ & ->). unfold ram_byte. rewrite flat_write_other; [done|].
  intros i Hi E. rewrite <- Hc in E. destruct Hb as [_ Hinj].
  replace (a + Z.of_nat i) with (b + (a - b + Z.of_nat i)) in E by lia.
  replace x with (b + (x - b)) in E by lia. apply Hinj in E; lia.
Qed.

Lemma mem_write_ok (m : PhysMem * W) a buf :
  guest_buffer m.1 a (Z.of_nat (length buf)) ->
  exists m', (let! (r, p) := cpu_memory_write_debug tr a buf m.1 in Ok (r, (p, m.2))) = Ok (0, m') /\
    (forall i x, buf !! i = Some x -> flat_byte m' (a + Z.of_nat i) = x) /\
    (forall a' n', guest_buffer m'.1 a' n' <-> guest_buffer m.1 a' n').
Proof.
  intros Hb. destruct (rw_debug_write_flat tr (length buf) a buf m.1) as (m' & He & Hl); [lia|apply Hb|].
  exists (m', m.2). unfold cpu_memory_write_debug. rewrite He. split; [done|]. split.
  - intros i x. by apply (like_written m.1).
  - intros. by eapply guest_buffer_like.
Qed.

Lemma guest_buffer_range m a n : guest_buffer m a n -> 0 <= a /\ 0 <= n /\ a + n <= 2 ^ 32.
Proof. intros [(? & ? & ? & _) _]. by split. Qed.

Lemma guest_buffer_sub m a n b k :
  guest_buffer m a n -> a <= b -> 0 <= k -> b + k <= a + n -> guest_buffer m b k.
Proof.
  intros [(H1 & H2 & H3 & Hall) Hinj] Hab Hk Hbk. split.
  - split_and!; try lia. intros i Hi. replace (b + i) with (a + (b - a + i)) by lia. apply Hall. lia.
  - intros i j Hi Hj. replace (b + i) with (a + (b - a + i)) by lia.
    replace (b + j) with (a + (b - a + j)) by lia. intros E. apply Hinj in E; lia.
Qed.

Lemma mem_write_frame (m : PhysMem * W) a buf r m' b n x :
  (let! (r, p) := cpu_memory_write_debug tr a buf m.1 in Ok (r, (p, m.2))) = Ok (r, m') ->
  guest_buffer m.1 b n -> b <= a -> a + Z.of_nat (length buf) <= b + n ->
  b <= x < b + n -> ~ (a <= x < a + Z.of_nat (length buf)) -> flat_byte m' x = flat_byte m x.
Proof.
  intros E Hb Hba Han Hx Hout.
  destruct (guest_buffer_sub _ _ _ a (Z.of_nat (length buf)) Hb) as [Hg _]; [lia..|].
  destruct (rw_debug_write_flat tr (length buf) a buf m.1) as (m1 & He & Hl); [lia|done|].
  unfold cpu_memory_write_debug in E. rewrite He in E. injection E as _ <-.
  destruct m as [p w]. by eapply like_framed.
Qed.

Lemma mem_read_ok (m : PhysMem * W) a n :
  guest_buffer m.1 a n ->
  exists m', (let! (r, b, p, w) := cpu_memory_read_debug io_mem_read tr a n m.1 m.2 in
              Ok (r, b, (p, w))) =
      Ok (0, map (fun i => flat_byte m (a + Z.of_nat i)) (seq 0 (Z.to_nat n)), m') /\
    (forall x, flat_byte m' x = flat_byte m x) /\
    (forall a' n', guest_buffer m'.1 a' n' <-> guest_buffer m.1 a' n').
Proof.
  intros [Hg Hinj].
  destruct (rw_debug_read_flat io_mem_read tr (Z.to_nat n) a n m.1 m.2) as (m' & He & Hl);
    [lia|done|].
  exists (m', m.2). unfold cpu_memory_read_debug. rewrite He. split; [|split].
  - simpl. by rewrite flat_read_seq.
  - intros x. unfold flat_byte. cbn [fst]. rewrite (flat_like tr _ _ _ Hl).
    by destruct Hl as (_ & _ & ->).
  - intros. by eapply guest_buffer_like.
Qed.

#[global] Instance exec_guest_memory : GuestMemory (PhysMem * W) := {|
  gm_write a buf m :=
    let! (r, p) := cpu_memory_write_debug tr a buf m.1 in Ok (r, (p, m.2));
  gm_read a n m :=
    let! (r, b, p, w) := cpu_memory_read_debug io_mem_read tr a n m.1 m.2 in Ok (r, b, (p, w));
  gm_ok m a n := guest_buffer m.1 a n;
  gm_byte := flat_byte;
  gm_write_ok := mem_write_ok;
  gm_read_ok := mem_read_ok;
  gm_ok_range m := guest_buffer_range m.1;
  gm_ok_sub m := guest_buffer_sub m.1;
  gm_write_frame := mem_write_frame
|}.
End Instance.

(** C12: On a guest range that translates to RAM pages, the page-by-page copy
    of [cpu_memory_rw_debug] towards the guest returns 0 and leaves exactly
    the memory that storing the bytes one by one at the translated addresses
    gives: nothing else of RAM changes, and the page descriptors and the set
    of RAM blocks are kept. *)
Theorem memory_write_flat (tr : Z -> option Z) (m : PhysMem) (addr : Z) (buf : list Z) :
  guest_ram tr m addr (Z.of_nat (length buf)) ->
  exists m', cpu_memory_write_debug tr addr buf m = Ok (0, m') /\
    ram m' = flat_write (flat tr m) (ram m) addr buf /\
    phys_map m' = phys_map m /\ ram_blocks m' ≡ₚ ram_blocks m.
Proof.
  intros Hg. destruct (rw_debug_write_flat tr (length buf) addr buf m) as (m' & H & ? & ? & ?);
    [lia|done|]. by exists m'.
Qed.

(** Two RAM pages of two blocks, mapped at guest addresses 0x2000 and 0x2400
    in the opposite order. *)
(** A guest buffer of known pages, by computation. *)
Definition buffer_check (tr : Z -> option Z) (m : PhysMem) (va : Z) (n : nat) : bool :=
  let l := map (fun i => flat tr m (va + Z.of_nat i)) (seq 0 n) in
  forallb (fun a => match a with Some _ => true | None => false end) l && bool_decide (NoDup l)
  && (0 <=? va) && (va + Z.of_nat n <=? 4294967296).

Lemma buffer_check_ok tr m va n : buffer_check tr m va n = true -> guest_buffer tr m va (Z.of_nat n).
Proof.
  unfold buffer_check. set (l := map _ _). rewrite !andb_true_iff, Z.leb_le, Z.leb_le.
  intros (((Hs & Hnd%bool_decide_eq_true_1) & H0) & Hn). rewrite forallb_forall in Hs.
  assert (Hl : forall i, 0 <= i < Z.of_nat n -> l !! Z.to_nat i = Some (flat tr m (va + i))).
  { intros i Hi. unfold l. change (map ?g ?x) with (g <$> x).
    rewrite list_lookup_fmap, lookup_seq_lt by lia. cbn. by rewrite Z2Nat.id by lia. }
  split; [split_and!; try lia|].
  - intros i Hi. specialize (Hs _ (proj1 (list_elem_of_In _ _) (list_elem_of_lookup_2 _ _ _ (Hl i Hi)))).
    by destruct (flat tr m (va + i)).
  - intros i j Hi Hj E. pose proof (Hl i Hi) as Li. pose proof (Hl j Hj) as Lj. rewrite <- E in Lj.
    pose proof (NoDup_lookup _ _ _ _ Hnd Li Lj). lia.
Qed.

Definition demo_tr (page : Z) : option Z :=
  if page =? 0x2000 then Some 0x400 else if page =? 0x2400 then Some 0 else None.
Definition demo_mem : PhysMem :=
  mkMem (<[0 := mkDesc 0 0]> (<[1 := mkDesc 0x800 0]> ∅))
    [mkBlock 0 0x400; mkBlock 0x800 0x400] ∅.

Lemma memory_write_flat_witness :
  exists m', cpu_memory_write_debug demo_tr 0x23fe [1; 2; 3; 4] demo_mem = Ok (0, m') /\
    ram m' = flat_write (flat demo_tr demo_mem) (ram demo_mem) 0x23fe [1; 2; 3; 4] /\
    phys_map m' = phys_map demo_mem /\ ram_blocks m' ≡ₚ ram_blocks demo_mem.
Proof.
  apply (memory_write_flat demo_tr demo_mem 0x23fe [1; 2; 3; 4]).
  split; [lia|]. split; [lia|]. split; [simpl; lia|].
  intros i Hi. assert (i = 0 \/ i = 1 \/ i = 2 \/ i = 3) as Hc by (simpl in Hi; lia).
  destruct Hc as [->|[->|[->| ->]]]; eexists; vm_compute; reflexivity.
Defined.

(** On a guest range that translates to RAM pages, reading with
    [cpu_memory_rw_debug] what it has just written gives the bytes written,
    when no two guest bytes of the range share a RAM byte. *)
Theorem memory_write_read {W : Type} (io_mem_read : Z -> nat -> Z -> W -> res (Z * W))
  (tr : Z -> option Z) (m : PhysMem) (w : W) (addr : Z) (buf : list Z) :
  guest_buffer tr m addr (Z.of_nat (length buf)) ->
  exists m1 m2, cpu_memory_write_debug tr addr buf m = Ok (0, m1) /\
    cpu_memory_read_debug io_mem_read tr addr (Z.of_nat (length buf)) m1 w = Ok (0, buf, m2, w).
Proof.
  intros Hb. destruct (mem_write_ok tr (m, w) addr buf Hb) as ([m1 w1] & He & Hbytes & Hok).
  apply rbind_Ok in He as ([r p] & He & [= -> -> <-]).
  pose proof (proj2 (Hok _ _) Hb) as [Hg _].
  destruct (rw_debug_read_flat io_mem_read tr (length buf) addr (Z.of_nat (length buf)) m1 w)
    as (m2 & Hr & _); [lia|done|].
  exists m1, m2. split; [done|]. unfold cpu_memory_read_debug. rewrite Nat2Z.id in *.
  rewrite Hr. do 4 f_equal. rewrite flat_read_seq. apply list_eq. intros i.
  rewrite list_lookup_fmap. destruct (buf !! i) as [x|] eqn:E.
  - rewrite lookup_seq_lt by (by eapply lookup_lt_Some). simpl. f_equal. by apply (Hbytes i).
  - apply lookup_ge_None in E. rewrite lookup_seq_ge by done. done.
Qed.

Lemma memory_write_read_witness :
  exists m1 m2, cpu_memory_write_debug demo_tr 0x23fe [1; 2; 3] demo_mem = Ok (0, m1) /\
    cpu_memory_read_debug (fun _ _ _ (w : unit) => Abort) demo_tr 0x23fe 3 m1 tt
      = Ok (0, [1; 2; 3], m2, tt).
Proof.
  apply (memory_write_read (fun _ _ _ (w : unit) => Abort) demo_tr demo_mem tt 0x23fe [1; 2; 3]).
  split.
  - split; [lia|]. split; [lia|]. split; [simpl; lia|].
    intros i Hi. assert (i = 0 \/ i = 1 \/ i = 2) as Hc by (simpl in Hi; lia).
    destruct Hc as [->|[->| ->]]; eexists; vm_compute; reflexivity.
  - intros i j Hi Hj. assert (i = 0 \/ i = 1 \/ i = 2) as Hc by (simpl in Hi; lia).
    assert (j = 0 \/ j = 1 \/ j = 2) as Hd by (simpl in Hj; lia).
    destruct Hc as [->|[->| ->]], Hd as [->|[->| ->]]; vm_compute; intros; congruence.
Defined.
