(* ===== verification/GuestPhys.v ===== *)
(** * Physical memory as guest memory

    [cpu_physical_memory_rw] of [exec.c], which devices use with physical
    addresses, keeps the promises of [GuestMemory]. *)
From S2P Require Import Prelude GuestMem.
From stdpp Require Import gmap.
#[local] Open Scope Z_scope.

(** Every page is mapped to itself. *)
Definition id_tr (page : Z) : option Z := Some page.

Section Phys.
Context {W : Type} (io_mem_read : Z -> nat -> Z -> W -> res (Z * W)) (io_mem_write : Z -> nat -> Z -> Z -> W -> res W).

(** What one round of the loops finds: the RAM page of the address. *)
Lemma phys_page_ram m va n : guest_ram id_tr m va n -> 0 < n ->
  exists p, phys_page_find m (Z.shiftr (page_of va) TARGET_PAGE_BITS) = Some p /\ page_offset (phys_offset p) = IO_MEM_RAM /\
    existsb (in_block (phys_offset p)) (ram_blocks m) = true /\ existsb (in_block (phys_offset p + va mod 1024)) (ram_blocks m) = true /\
    flat id_tr m va = Some (phys_offset p + va mod 1024).
Proof.
  intros (Hva & _ & _ & Hall) Hn. destruct (Hall 0) as [a Ha]; [lia|]. rewrite Z.add_0_r in Ha.
  destruct (flat_inv _ _ _ _ Hva Ha) as (pa & p & [= <-] & _ & _ & Hp & Hr & Hb1 & Hb2 & ->). by exists p.
Qed.

Lemma phys_write_flat fuel : forall va buf m d w,
  (length buf <= fuel)%nat -> guest_ram id_tr m va (Z.of_nat (length buf)) ->
  exists m' d', phys_write_loop io_mem_write fuel va buf m d w = Ok (m', d', w) /\
    mem_like m (flat_write (flat id_tr m) (ram m) va buf) m'.
Proof.
  induction fuel as [|fuel IH]; intros va buf m d w Hf Hg.
  { destruct buf; [|simpl in *; lia]. by do 2 eexists. }
  destruct buf as [|x buf']; [by do 2 eexists|]. remember (x :: buf') as buf eqn:Eb.
  assert (Hn : 0 < Z.of_nat (length buf)) by (subst; simpl; lia).
  destruct (guest_ram_chunk _ _ _ _ Hg Hn) as (Hl & Hp & Hc & Hg1 & Hg2 & Hu). set (l := Z.min _ _) in *.
  assert (Htk : Z.of_nat (length (take (Z.to_nat l) buf)) = l) by (rewrite length_take; lia).
  destruct (phys_page_ram m va _ Hg Hn) as (p & Hpf & Hr & _ & Hb & Ha).
  destruct (get_ram_ptr_ok m _ Hb) as (m0 & Hm0 & Hl0).
  set (m1 := mkMem (phys_map m0) (ram_blocks m0) (ram_store (ram m0) (phys_offset p + va mod 1024) (take (Z.to_nat l) buf))).
  assert (Hl1 : mem_like m (flat_write (flat id_tr m) (ram m) va (take (Z.to_nat l) buf)) m1).
  { destruct Hl0 as (L1 & L2 & L3). split; [done|]. split; [done|]. unfold m1. cbn [ram]. rewrite L3. symmetry.
    apply (flat_write_page id_tr); [apply Hg|lia|done|]. rewrite Htk. apply Hg1. }
  assert (Hnext : forall d1, exists m' d', phys_write_loop io_mem_write fuel (u32 (va + l)) (drop (Z.to_nat l) buf) m1 d1 w = Ok (m', d', w) /\
      mem_like m1 (flat_write (flat id_tr m1) (ram m1) (u32 (va + l)) (drop (Z.to_nat l) buf)) m').
  { intros d1. apply IH; [rewrite length_drop; lia|]. rewrite length_drop, Nat2Z.inj_sub, Z2Nat.id by lia.
    eapply guest_ram_like, guest_ram_next; [done..|lia|done]. }
  subst buf. cbn [phys_write_loop]. rewrite Hc, Hpf. cbn [page_desc]. rewrite Hr, Z.eqb_refl. cbn [negb].
  rewrite (page_of_ram _ Hr), page_offset_mod, Hm0. cbn [rbind]. fold m1. set (buf := x :: buf') in *. set (d1 := if _ =? 0xff then d else _).
  destruct (Hnext d1) as (m2 & d2 & Hm2 & Hl2). exists m2, d2. split; [exact Hm2|].
  eapply mem_like_trans; [exact Hl1|]. rewrite <- (take_drop (Z.to_nat l) buf) at 1. rewrite flat_write_app, Htk.
  rewrite (flat_write_ext _ (flat id_tr m)) in Hl2 by (by eapply flat_like).
  destruct Hl1 as (_ & _ & <-). destruct (decide (0 < Z.of_nat (length buf) - l)).
  - by rewrite <- Hu.
  - by rewrite drop_ge in * by lia.
Qed.

Lemma phys_read_flat fuel : forall va n m w,
  (Z.to_nat n <= fuel)%nat -> guest_ram id_tr m va n ->
  exists m', phys_read_loop io_mem_read fuel va n m w = Ok (flat_read (flat id_tr m) (ram m) va (Z.to_nat n), m', w) /\ mem_like m (ram m) m'.
Proof.
  induction fuel as [|fuel IH]; intros va n m w Hf Hg;
    (destruct (decide (n <= 0)) as [Hz|Hz];
     [exists m; replace (Z.to_nat n) with 0%nat by lia; cbn [phys_read_loop]; rewrite (proj2 (Z.leb_le n 0)) by lia; done|]); [lia|].
  assert (Hn : 0 < n) by lia. cbn [phys_read_loop]. rewrite (proj2 (Z.leb_gt n 0)) by lia.
  destruct (guest_ram_chunk _ _ _ _ Hg Hn) as (Hl & Hp & Hc & Hg1 & Hg2 & Hu). set (l := Z.min _ _) in *.
  destruct (phys_page_ram m va _ Hg Hn) as (p & Hpf & Hr & Hb & _ & Ha).
  destruct (get_ram_ptr_ok m _ Hb) as (m1 & Hm1 & Hl1). rewrite Hc, Hpf. cbn [page_desc]. rewrite Hr.
  change ((IO_MEM_ROM <? IO_MEM_RAM) && _) with false. cbn iota. rewrite (page_of_ram _ Hr), page_offset_mod, Hm1. cbn [rbind].
  destruct (IH (u32 (va + l)) (n - l) m1 w) as (m2 & Hm2 & Hl2); [lia|eapply guest_ram_like, guest_ram_next; [done..|lia|done]|].
  rewrite Hm2. cbn [rbind]. exists m2. split.
  - do 3 f_equal. replace (Z.to_nat n) with (Z.to_nat l + Z.to_nat (n - l))%nat by lia. rewrite flat_read_app, Z2Nat.id by lia.
    rewrite (flat_read_ext (flat id_tr m1) (flat id_tr m)) by (by eapply flat_like).
    rewrite (flat_read_page id_tr m _ va (phys_offset p + va mod 1024)); [|apply Hg|lia|done|rewrite Z2Nat.id by lia; apply Hg1].
    destruct Hl1 as (_ & _ & ->). f_equal. destruct (decide (0 < n - l)); [by rewrite Hu|].
    by replace (Z.to_nat (n - l)) with 0%nat by lia.
  - destruct Hl1 as (? & ? & Hr1). eapply mem_like_trans; [|rewrite <- Hr1; exact Hl2]. done.
Qed.
End Phys.

Section PhysInstance.
Context {W : Type} (io_mem_read : Z -> nat -> Z -> W -> res (Z * W)) (io_mem_write : Z -> nat -> Z -> Z -> W -> res W).
Let M : Type := PhysMem * DirtyState * W.

Definition phys_write (a : Z) (buf : list Z) (m : M) : res (Z * M) :=
  let! m' := cpu_physical_memory_write io_mem_write a buf m.1.1 m.1.2 m.2 in Ok (0, m').
Definition phys_read (a n : Z) (m : M) : res (Z * list Z * M) :=
  let! (b, p, w) := cpu_physical_memory_read io_mem_read a n m.1.1 m.2 in Ok (0, b, (p, m.1.2, w)).
Definition phys_byte (m : M) (a : Z) : Z := flat_byte id_tr (m.1.1, m.2) a.
Definition phys_buffer (m : M) (a n : Z) : Prop := guest_buffer id_tr m.1.1 a n.

Lemma phys_write_like (m : M) a buf : phys_buffer m a (Z.of_nat (length buf)) ->
  exists m', phys_write a buf m = Ok (0, m') /\ mem_like m.1.1 (flat_write (flat id_tr m.1.1) (ram m.1.1) a buf) m'.1.1.
Proof.
  intros [Hg _]. destruct (phys_write_flat io_mem_write (length buf) a buf m.1.1 m.1.2 m.2) as (p & d & He & Hl); [lia|done|].
  exists (p, d, m.2). unfold phys_write, cpu_physical_memory_write. by rewrite He.
Qed.

Lemma phys_write_ok (m : M) a buf : phys_buffer m a (Z.of_nat (length buf)) ->
  exists m', phys_write a buf m = Ok (0, m') /\
    (forall i x, buf !! i = Some x -> phys_byte m' (a + Z.of_nat i) = x) /\
    (forall a' n', phys_buffer m' a' n' <-> phys_buffer m a' n').
Proof.
  intros Hb. destruct (phys_write_like m a buf Hb) as (m' & He & Hl). exists m'. split; [done|]. split.
  - intros i x. by apply (like_written id_tr m.1.1).
  - intros. by eapply guest_buffer_like.
Qed.

Lemma phys_read_ok (m : M) a n : phys_buffer m a n ->
  exists m', phys_read a n m = Ok (0, map (fun i => phys_byte m (a + Z.of_nat i)) (seq 0 (Z.to_nat n)), m') /\
    (forall x, phys_byte m' x = phys_byte m x) /\ (forall a' n', phys_buffer m' a' n' <-> phys_buffer m a' n').
Proof.
  intros [Hg _]. destruct (phys_read_flat io_mem_read (Z.to_nat n) a n m.1.1 m.2) as (p & He & Hl); [lia|done|].
  exists (p, m.1.2, m.2). unfold phys_read, cpu_physical_memory_read. rewrite He. split; [|split].
  - simpl. by rewrite flat_read_seq.
  - intros x. unfold phys_byte, flat_byte. cbn [fst]. rewrite (flat_like id_tr _ _ _ Hl). by destruct Hl as (_ & _ & ->).
  - intros. by eapply guest_buffer_like.
Qed.

Lemma phys_write_frame (m : M) a buf r m' b n x :
  phys_write a buf m = Ok (r, m') -> phys_buffer m b n -> b <= a -> a + Z.of_nat (length buf) <= b + n ->
  b <= x < b + n -> ~ (a <= x < a + Z.of_nat (length buf)) -> phys_byte m' x = phys_byte m x.
Proof.
  intros E Hb Hba Han Hx Hout. destruct (phys_write_like m a buf) as (m1 & He & Hl).
  { eapply guest_buffer_sub; [exact Hb|lia..]. }
  rewrite He in E. assert (m' = m1) as -> by congruence. unfold phys_byte. by eapply like_framed.
Qed.

(** Physical memory as the devices reach it: a buffer is a range of RAM no
    two bytes of which share a RAM byte. *)
#[global] Instance phys_guest_memory : GuestMemory (PhysMem * DirtyState * W) := {|
  gm_write := phys_write;
  gm_read := phys_read;
  gm_ok := phys_buffer;
  gm_byte := phys_byte;
  gm_write_ok := phys_write_ok;
  gm_read_ok := phys_read_ok;
  gm_ok_range m := guest_buffer_range id_tr m.1.1;
  gm_ok_sub m := guest_buffer_sub id_tr m.1.1;
  gm_write_frame := phys_write_frame
|}.
End PhysInstance.
