(* ===== verification/GoldfishDevice.v ===== *)
(** * The goldfish platform bus: [hw/goldfish_device.c] and the board of
    [hw/android_arm.c]

    Devices are kept in the order they were added; a pointer to a device is
    its index in that order, [next] is the following index. *)
From Stdlib Require Import Ascii String.
From stdpp Require Import sets.
From S2P Require Import Prelude Irq GoldfishInterrupt GuestMem.

(** A C string literal as its bytes, without the terminator. *)
Definition cstr (s : string) : list Z :=
  map (fun c => Z.of_N (N_of_ascii c)) (list_ascii_of_string s).

(** [struct goldfish_device], less the links and the unused [cookie]. *)
Record goldfish_device := mkDev {
  reported_state : Z;
  name : list Z;
  id : Z;
  base : Z;
  size : Z;
  irq : Z;
  irq_count : Z
}.

Definition set_reported (d : goldfish_device) (r : Z) : goldfish_device :=
  mkDev r (name d) (id d) (base d) (size d) (irq d) (irq_count d).

(** [goldfish_device_set_irq]; the comparison is between unsigned values. *)
Definition goldfish_device_set_irq {W : Type} (pic : list (qemu_irq W))
  (dev : goldfish_device) (i level : Z) (w : W) : res W :=
  if irq_count dev <=? u32 i then Abort
  else let! q := arr_get pic (u32 (irq dev + u32 i)) in qemu_set_irq q level w.

(** The globals of the file with [struct bus_state]: the device list, the
    index of the bus's own device in it, and the allocation counters. *)
Record bus_state := mkBus {
  devices : list goldfish_device;
  bus_dev : nat;
  current : option nat;
  goldfish_free_base : Z;
  goldfish_free_irq : Z
}.

Definition goldfish_add_device_no_io (dev : goldfish_device) (b : bus_state) : bus_state :=
  let '(base', free_base) :=
    if base dev =? 0 then (goldfish_free_base b, u32 (goldfish_free_base b + size dev))
    else (base dev, goldfish_free_base b) in
  let '(irq', free_irq) :=
    if (irq dev =? 0) && (0 <? irq_count dev)
    then (goldfish_free_irq b, u32 (goldfish_free_irq b + irq_count dev))
    else (irq dev, goldfish_free_irq b) in
  mkBus (devices b ++ [mkDev (reported_state dev) (name dev) (id dev) base' (size dev)
                         irq' (irq_count dev)])
    (bus_dev b) (current b) free_base free_irq.

Definition goldfish_device_init (base irq : Z) (b : bus_state) : bus_state :=
  mkBus (devices b) (bus_dev b) (current b) base irq.

Definition goldfish_device_bus_init (base irq : Z) (b : bus_state) : bus_state :=
  let n := List.length (devices b) in
  let b := goldfish_add_device_no_io
             (mkDev 0 (cstr "goldfish_device_bus") 0xffffffff base 0x1000 irq 1) b in
  mkBus (devices b) n (current b) (goldfish_free_base b) (goldfish_free_irq b).

Definition PDEV_BUS_OP_DONE : Z := 0x00.
Definition PDEV_BUS_OP_ADD_DEV : Z := 0x08.
Definition PDEV_BUS_OP_INIT : Z := 0x00.
Definition PDEV_BUS_OP : Z := 0x00.
Definition PDEV_BUS_GET_NAME : Z := 0x04.
Definition PDEV_BUS_NAME_LEN : Z := 0x08.
Definition PDEV_BUS_ID : Z := 0x0c.
Definition PDEV_BUS_IO_BASE : Z := 0x10.
Definition PDEV_BUS_IO_SIZE : Z := 0x14.
Definition PDEV_BUS_IRQ : Z := 0x18.
Definition PDEV_BUS_IRQ_COUNT : Z := 0x1c.

(** The pointer to the device at index [i], null past the last one. *)
Definition dev_ptr (ds : list goldfish_device) (i : nat) : option nat :=
  if decide (i < List.length ds)%nat then Some i else None.

(** [while(s->current && s->current->reported_state == 1)
      s->current = s->current->next;] over the devices from index [i] on. *)
Fixpoint skip_reported (i : nat) (ds : list goldfish_device) : option nat :=
  match ds with
  | [] => None
  | d :: ds' => if reported_state d =? 1 then skip_reported (S i) ds' else Some i
  end.

Section Bus.
Context {W : Type} (pic : list (qemu_irq W)).

(** The device object of the bus, through which it drives its line. *)
Definition bus_set_irq (b : bus_state) (level : Z) (w : W) : res W :=
  let! dev := arr_get (devices b) (Z.of_nat (bus_dev b)) in
  goldfish_device_set_irq pic dev 0 level w.

Definition current_field (b : bus_state) (f : goldfish_device -> Z) : Z :=
  match current b with
  | None => 0
  | Some i => match devices b !! i with Some d => f d | None => 0 end
  end.

Definition goldfish_bus_read (offset : Z) (b : bus_state) (w : W) : res (Z * bus_state * W) :=
  if offset =? PDEV_BUS_OP then
    let '(ds, cur) :=
      match current b with
      | Some i => (alter (fun d => set_reported d 1) i (devices b), dev_ptr (devices b) (S i))
      | None => (devices b, dev_ptr (devices b) 0)
      end in
    let cur := match cur with
               | Some i => skip_reported i (drop i ds)
               | None => None
               end in
    let b := mkBus ds (bus_dev b) cur (goldfish_free_base b) (goldfish_free_irq b) in
    match cur with
    | Some _ => Ok (PDEV_BUS_OP_ADD_DEV, b, w)
    | None => let! w := bus_set_irq b 0 w in Ok (PDEV_BUS_OP_DONE, b, w)
    end
  else if offset =? PDEV_BUS_NAME_LEN then
    Ok (current_field b (fun d => Z.of_nat (List.length (name d))), b, w)
  else if offset =? PDEV_BUS_ID then Ok (current_field b id, b, w)
  else if offset =? PDEV_BUS_IO_BASE then Ok (current_field b base, b, w)
  else if offset =? PDEV_BUS_IO_SIZE then Ok (current_field b size, b, w)
  else if offset =? PDEV_BUS_IRQ then Ok (current_field b irq, b, w)
  else if offset =? PDEV_BUS_IRQ_COUNT then Ok (current_field b irq_count, b, w)
  else Abort.

Definition goldfish_bus_op_init (b : bus_state) (w : W) : res (bus_state * W) :=
  let b := mkBus (map (fun d => set_reported d 0) (devices b)) (bus_dev b) None
             (goldfish_free_base b) (goldfish_free_irq b) in
  let! w := bus_set_irq b (cbool (negb (bool_decide (devices b = [])))) w in
  Ok (b, w).

Definition goldfish_bus_write {M : Type} `{GuestMemory M} (offset value : Z)
  (b : bus_state) (w : W) (m : M) : res (bus_state * W * M) :=
  if offset =? PDEV_BUS_OP then
    if value =? PDEV_BUS_OP_INIT then
      let! (b, w) := goldfish_bus_op_init b w in Ok (b, w, m)
    else Abort
  else if offset =? PDEV_BUS_GET_NAME then
    match current b with
    | None => Ok (b, w, m)
    | Some i =>
        let! d := arr_get (devices b) (Z.of_nat i) in
        let! (_, m) := gm_write value (name d) m in
        Ok (b, w, m)
    end
  else Abort.

(** The enumeration a guest driver runs: read [PDEV_BUS_OP] until it answers
    [PDEV_BUS_OP_DONE], and for every device announced read its registers. *)
Definition read_reg (offset : Z) (b : bus_state) (w : W) : res Z :=
  let! (v, _, _) := goldfish_bus_read offset b w in Ok v.

Fixpoint guest_enumerate (fuel : nat) (b : bus_state) (w : W)
  : res (list (list Z) * bus_state * W) :=
  match fuel with
  | O => Undef
  | S fuel =>
      let! (op, b, w) := goldfish_bus_read PDEV_BUS_OP b w in
      if op =? PDEV_BUS_OP_ADD_DEV then
        let! n := read_reg PDEV_BUS_NAME_LEN b w in
        let! i := read_reg PDEV_BUS_ID b w in
        let! io := read_reg PDEV_BUS_IO_BASE b w in
        let! sz := read_reg PDEV_BUS_IO_SIZE b w in
        let! q := read_reg PDEV_BUS_IRQ b w in
        let! qc := read_reg PDEV_BUS_IRQ_COUNT b w in
        let! (rest, b, w) := guest_enumerate fuel b w in
        Ok ([n; i; io; sz; q; qc] :: rest, b, w)
      else Ok ([], b, w)
  end.

Definition dev_info (d : goldfish_device) : list Z :=
  [Z.of_nat (List.length (name d)); id d; base d; size d; irq d; irq_count d].

End Bus.

(** ** The board: [android_arm_init_]

    What of the machine's configuration decides which devices are added. *)
Record board_config := mkCfg {
  serial_hds : list bool;          (* ports 1 to 3 have a backend *)
  nd_table : list bool;            (* the eight NIC slots are in use *)
  has_audio : bool;                (* the audio output could be opened *)
  has_mmc : bool;
  has_virtual_device : bool;       (* its shared memory could be mapped *)
  hw_battery : bool;
  tracing : bool
}.

Definition dyn_dev (nm : string) (dev_id irqs : Z) : goldfish_device :=
  mkDev 0 (cstr nm) dev_id 0 0x1000 0 irqs.
Definition fixed_dev (nm : string) (dev_id at_base at_irq irqs : Z) : goldfish_device :=
  mkDev 0 (cstr nm) dev_id at_base 0x1000 at_irq irqs.

(** The devices of a table of slots, numbered from [i]. *)
Fixpoint slot_devs (nm : string) (i : Z) (l : list bool) : list goldfish_device :=
  match l with
  | [] => []
  | b :: l' => (if b then [dyn_dev nm i 1] else []) ++ slot_devs nm (i + 1) l'
  end.

(** The devices in the order [android_arm_init_] adds them after the bus. *)
Definition board_devices (c : board_config) : list goldfish_device :=
  [fixed_dev "goldfish_timer" 0xffffffff 0xff003000 3 1;
   dyn_dev "goldfish_rtc" 0xffffffff 1;
   fixed_dev "goldfish_tty" 0 0xff002000 4 1]
  ++ slot_devs "goldfish_tty" 1 (serial_hds c)
  ++ slot_devs "smc91x" 0 (nd_table c)
  ++ [dyn_dev "goldfish_fb" 0 1]
  ++ (if has_audio c then [fixed_dev "goldfish_audio" 0 0xff004000 0 1] else [])
  ++ (if has_mmc c then [fixed_dev "goldfish_mmc" 0 0xff005000 0 1] else [])
  ++ [fixed_dev "goldfish_memlog" 0 0xff006000 0 0]
  ++ (if has_virtual_device c then [fixed_dev "virtual-device" 0 0xff007000 0 1] else [])
  ++ (if hw_battery c then [dyn_dev "goldfish-battery" 0 1] else [])
  ++ [dyn_dev "goldfish_events" 0 1; dyn_dev "goldfish_nand" 0 0]
  ++ (if tracing c then [mkDev 0 (cstr "qemu_trace") 0xffffffff 0 0x2000 0 0] else [])
  ++ [dyn_dev "goldfish-switch" 0 1; dyn_dev "goldfish-switch" 1 1].

Definition bus_empty : bus_state := mkBus [] 0 None 0 0.

(** The interrupt controller and the bus, the first two devices. *)
Definition board_bus : bus_state :=
  let b := goldfish_add_device_no_io
             (fixed_dev "goldfish_interrupt_controller" 0xffffffff 0xff000000 0 0) bus_empty in
  let b := goldfish_device_init 0xff010000 10 b in
  goldfish_device_bus_init 0xff001000 1 b.

Definition android_arm_init_devices (c : board_config) : bus_state :=
  fold_left (fun b d => goldfish_add_device_no_io d b) (board_devices c) board_bus.

(** ** Driving a device's line *)

Section SetIrq.
Context {W : Type} (pic : list (qemu_irq W)) `{P : PicLines W pic}.

(** The device owns line [i] of its interrupts, and the line is one of the
    controller's. *)
Definition owns_line (dev : goldfish_device) (i : Z) : Prop :=
  0 <= i < irq_count dev /\ irq_count dev < 4294967296 /\ 0 <= irq dev /\ irq dev + i < 32.

Lemma device_set_irq_ok dev i level w :
  owns_line dev i -> pic_ok w ->
  exists w', goldfish_device_set_irq pic dev i level w = Ok w' /\ pic_ok w' /\
    line_level w' (irq dev + i) = ctrue level /\
    forall j, 0 <= j < 32 -> j <> irq dev + i -> line_level w' j = line_level w j.
Proof.
  intros (H1 & H2 & H3 & H4) Hw. unfold goldfish_device_set_irq.
  rewrite (uwrap_small 32 i) by lia. rewrite (proj2 (Z.leb_gt _ _)) by lia.
  rewrite uwrap_small by lia. apply drive_line; [done|lia].
Qed.

(** An interrupt the device does not have stops the emulator. *)
Lemma device_set_irq_bad dev i level w :
  0 <= irq_count dev <= i -> i < 4294967296 ->
  goldfish_device_set_irq pic dev i level w = Abort.
Proof.
  intros. unfold goldfish_device_set_irq. rewrite uwrap_small by lia.
  by rewrite (proj2 (Z.leb_le _ _)) by lia.
Qed.
End SetIrq.

(** ** Enumeration *)

(** The devices after [k] of them were announced: all before the current
    one, which is [k - 1], are marked. *)
Definition enum_devices (ds : list goldfish_device) (k : nat) : list goldfish_device :=
  imap (fun i d => set_reported d (cbool (S i <? k)%nat)) ds.
Definition enum_state (b : bus_state) (ds : list goldfish_device) (k : nat) : bus_state :=
  mkBus (enum_devices ds k) (bus_dev b) (match k with O => None | S j => Some j end)
    (goldfish_free_base b) (goldfish_free_irq b).

Lemma lookup_enum ds k i :
  enum_devices ds k !! i = (fun d => set_reported d (cbool (S i <? k)%nat)) <$> ds !! i.
Proof. apply list_lookup_imap. Qed.

Lemma length_enum ds k : List.length (enum_devices ds k) = List.length ds.
Proof. apply length_imap. Qed.

Lemma enum_zero ds : enum_devices ds 0 = map (fun d => set_reported d 0) ds.
Proof.
  apply list_eq. intros i. rewrite lookup_enum. by rewrite list_lookup_fmap.
Qed.

Lemma enum_one ds : enum_devices ds 1 = enum_devices ds 0.
Proof. apply list_eq. intros i. rewrite !lookup_enum. by destruct (ds !! i). Qed.

Lemma enum_mark ds j :
  alter (fun d => set_reported d 1) j (enum_devices ds (S j)) = enum_devices ds (S (S j)).
Proof.
  apply list_eq. intros i. rewrite lookup_enum. destruct (decide (i = j)) as [->|Hne].
  - rewrite list_lookup_alter_eq, lookup_enum. destruct (ds !! j); [|done].
    by rewrite (proj2 (Nat.ltb_lt (S j) (S (S j)))) by lia.
  - rewrite list_lookup_alter_ne, lookup_enum by done. destruct (ds !! i); [|done].
    simpl. do 2 f_equal. f_equal. 
    destruct (Nat.ltb_spec (S i) (S j)), (Nat.ltb_spec (S i) (S (S j))); lia || done.
Qed.

Lemma skip_reported_here k ds d :
  ds !! k = Some d -> reported_state d <> 1 -> skip_reported k (drop k ds) = Some k.
Proof.
  intros Hk Hr. rewrite (drop_S _ d) by done. simpl.
  by rewrite (proj2 (Z.eqb_neq _ _)) by done.
Qed.

Section Enumeration.
Context {W : Type} (pic : list (qemu_irq W)) `{P : PicLines W pic}.
Context (b : bus_state) (ds : list goldfish_device).

(** One step of the enumeration announces device [k]. *)
Lemma enum_step k w : (k < List.length ds)%nat ->
  goldfish_bus_read pic PDEV_BUS_OP (enum_state b ds k) w
  = Ok (PDEV_BUS_OP_ADD_DEV, enum_state b ds (S k), w).
Proof.
  intros Hk. destruct (lookup_lt_is_Some_2 _ _ Hk) as [d Hd].
  assert (Hnew : forall j, (j <= S k)%nat ->
    skip_reported k (drop k (enum_devices ds j)) = Some k).
  { intros j Hj. eapply skip_reported_here; [rewrite lookup_enum, Hd; done|].
    simpl. rewrite (proj2 (Nat.ltb_ge _ _)) by lia. done. }
  unfold goldfish_bus_read, enum_state. cbn [current devices bus_dev].
  unfold dev_ptr. rewrite length_enum. destruct k as [|j].
  - rewrite decide_True by done. rewrite Hnew by lia. by rewrite enum_one.
  - rewrite decide_True, enum_mark, Hnew by lia. done.
Qed.

(** The registers show the announced device. *)
Lemma enum_field k d w offset (g : goldfish_device -> Z) :
  ds !! k = Some d -> (forall d r, g (set_reported d r) = g d) ->
  (forall b w, goldfish_bus_read pic offset b w = Ok (current_field b g, b, w)) ->
  read_reg pic offset (enum_state b ds (S k)) w = Ok (g d).
Proof.
  intros Hd Hg Hr. unfold read_reg. rewrite Hr. cbn [rbind].
  unfold current_field, enum_state. cbn [current devices]. rewrite lookup_enum, Hd.
  cbn. by rewrite Hg.
Qed.

Lemma enum_done dev w :
  ds !! bus_dev b = Some dev -> owns_line dev 0 -> pic_ok w ->
  exists w', goldfish_bus_read pic PDEV_BUS_OP (enum_state b ds (List.length ds)) w
      = Ok (PDEV_BUS_OP_DONE, mkBus (map (fun d => set_reported d 1) ds) (bus_dev b) None
              (goldfish_free_base b) (goldfish_free_irq b), w') /\ pic_ok w' /\
    line_level w' (irq dev) = false /\
    forall j, 0 <= j < 32 -> j <> irq dev -> line_level w' j = line_level w j.
Proof.
  intros Hdev Hown Hw. assert (0 < List.length ds)%nat as Hlen
    by (apply lookup_lt_Some in Hdev; lia).
  destruct (List.length ds) as [|k] eqn:Hn; [lia|].
  unfold goldfish_bus_read, enum_state. cbn [current devices bus_dev].
  unfold dev_ptr. rewrite length_enum, Hn, decide_False by lia. rewrite enum_mark.
  assert (enum_devices ds (S (S k)) = map (fun d => set_reported d 1) ds) as ->.
  { apply list_eq. intros i. rewrite lookup_enum, list_lookup_fmap.
    destruct (ds !! i) eqn:Ei; [|done]. apply lookup_lt_Some in Ei.
    by rewrite (proj2 (Nat.ltb_lt _ _)) by lia. }
  cbn -[bus_set_irq]. unfold bus_set_irq, arr_get. cbn [devices bus_dev].
  rewrite (proj2 (Z.ltb_ge _ 0)), Nat2Z.id, list_lookup_fmap, Hdev by lia. cbn [fmap option_fmap option_map rbind].
  destruct (device_set_irq_ok pic (set_reported dev 1) 0 0 w) as (w' & -> & Hok & Hl & Ho);
    [done|done|]. simpl irq in *. rewrite Z.add_0_r in *. by exists w'.
Qed.

Lemma enumerate_from k w dev fuel :
  ds !! bus_dev b = Some dev -> owns_line dev 0 -> pic_ok w ->
  (fuel + k = List.length ds)%nat ->
  exists b' w', guest_enumerate pic (S fuel) (enum_state b ds k) w
      = Ok (map dev_info (drop k ds), b', w') /\ pic_ok w' /\
    line_level w' (irq dev) = false /\
    (forall j, 0 <= j < 32 -> j <> irq dev -> line_level w' j = line_level w j) /\
    Forall (fun d => reported_state d = 1) (devices b').
Proof.
  intros Hdev Hown Hw. revert k. induction fuel as [|fuel IH]; intros k Hk; cbn [guest_enumerate].
  - replace k with (List.length ds) by lia.
    destruct (enum_done dev w Hdev Hown Hw) as (w' & -> & Hok & Hl & Ho). cbn.
    eexists _, w'. rewrite drop_all. split; [done|]. split; [done|]. split; [done|]. split; [done|].
    apply Forall_map, Forall_true. done.
  - assert (k < List.length ds)%nat as Hlt by lia.
    destruct (lookup_lt_is_Some_2 _ _ Hlt) as [d Hd].
    rewrite enum_step by done. cbn [rbind]. rewrite Z.eqb_refl.
    rewrite (enum_field _ _ _ PDEV_BUS_NAME_LEN (fun d => Z.of_nat (List.length (name d))) Hd) by done.
    rewrite (enum_field _ _ _ PDEV_BUS_ID id Hd) by done.
    rewrite (enum_field _ _ _ PDEV_BUS_IO_BASE base Hd) by done.
    rewrite (enum_field _ _ _ PDEV_BUS_IO_SIZE size Hd) by done.
    rewrite (enum_field _ _ _ PDEV_BUS_IRQ irq Hd) by done.
    rewrite (enum_field _ _ _ PDEV_BUS_IRQ_COUNT irq_count Hd) by done.
    cbn [rbind]. destruct (IH (S k)) as (b' & w' & He & Hrest); [lia|].
    cbn [guest_enumerate] in He. rewrite He. cbn [rbind].
    exists b', w'. split; [|done]. by rewrite (drop_S _ d k) by done.
Qed.
End Enumeration.

(** C27: The bus enumeration is complete and exact. After the guest writes
    [PDEV_BUS_OP_INIT] the bus line is high; reading [PDEV_BUS_OP] until it
    answers [PDEV_BUS_OP_DONE] takes one read more than there are devices,
    announces every device exactly once, in the order they were added, with
    its own registers, and ends with the bus line low, no other line touched
    and every device marked as reported. *)
Theorem bus_enumeration {W : Type} (pic : list (qemu_irq W)) `{P : PicLines W pic}
  (b : bus_state) (w : W) (dev : goldfish_device) :
  devices b !! bus_dev b = Some dev -> owns_line dev 0 -> pic_ok w ->
  exists b1 w1 b2 w2,
    goldfish_bus_op_init pic b w = Ok (b1, w1) /\
    line_level w1 (irq dev) = true /\
    guest_enumerate pic (S (List.length (devices b))) b1 w1
      = Ok (map dev_info (devices b), b2, w2) /\
    line_level w2 (irq dev) = false /\
    (forall j, 0 <= j < 32 -> j <> irq dev -> line_level w2 j = line_level w j) /\
    Forall (fun d => reported_state d = 1) (devices b2).
Proof.
  intros Hdev Hown Hw.
  destruct (device_set_irq_ok pic (set_reported dev 0) 0 1 w) as (w1 & E1 & Hok1 & Hl1 & Ho1);
    [done|done|]. simpl irq in *. rewrite Z.add_0_r in *.
  destruct (enumerate_from pic b (devices b) 0 w1 dev (List.length (devices b)))
    as (b2 & w2 & He & Hok2 & Hl2 & Ho2 & Hrep); try done.
  exists (enum_state b (devices b) 0), w1, b2, w2.
  split; [|split; [done|split; [exact He|split; [done|split; [|done]]]]].
  - unfold goldfish_bus_op_init, bus_set_irq, arr_get, enum_state. rewrite enum_zero. cbn [devices bus_dev].
    rewrite (proj2 (Z.ltb_ge _ 0)), Nat2Z.id, list_lookup_fmap, Hdev by lia.
    cbn [fmap option_fmap option_map rbind]. rewrite bool_decide_eq_false_2; [by cbn [negb cbool]; rewrite E1|].
    intros Hnil. apply map_eq_nil in Hnil. by rewrite Hnil in Hdev.
  - intros j Hj Hne. rewrite Ho2, Ho1 by done. done.
Qed.

Lemma bus_enumeration_witness :
  exists b1 w1 b2 w2,
    goldfish_bus_op_init arm_pic board_bus pic0 = Ok (b1, w1) /\
    pic_line w1 1 = true /\
    guest_enumerate arm_pic 3 b1 w1
      = Ok ([[29; 0xffffffff; 0xff000000; 0x1000; 0; 0];
             [19; 0xffffffff; 0xff001000; 0x1000; 1; 1]], b2, w2) /\
    pic_line w2 1 = false /\
    (forall j, 0 <= j < 32 -> j <> 1 -> pic_line w2 j = pic_line pic0 j) /\
    Forall (fun d => reported_state d = 1) (devices b2).
Proof.
  refine (bus_enumeration arm_pic board_bus pic0 _ eq_refl _ int_wf_init).
  unfold owns_line. simpl. lia.
Defined.

(** ** Allocation of addresses and lines *)

Definition windows_disjoint (d1 d2 : goldfish_device) : Prop :=
  base d1 + size d1 <= base d2 \/ base d2 + size d2 <= base d1.
Definition lines_disjoint (d1 d2 : goldfish_device) : Prop :=
  irq d1 + irq_count d1 <= irq d2 \/ irq d2 + irq_count d2 <= irq d1.

Definition pairwise (R : goldfish_device -> goldfish_device -> Prop)
  (ds : list goldfish_device) : Prop :=
  forall i j d1 d2, (i < j)%nat -> ds !! i = Some d1 -> ds !! j = Some d2 -> R d1 d2.

Lemma pairwise_snoc R ds d :
  pairwise R ds -> Forall (fun x => R x d) ds -> pairwise R (ds ++ [d]).
Proof.
  intros Hp Hf i j d1 d2 Hij H1 H2.
  apply lookup_app_Some in H2 as [H2|[Hl H2]].
  - rewrite lookup_app_l in H1 by (apply lookup_lt_Some in H2; lia). by eapply Hp.
  - apply list_lookup_singleton_Some in H2 as [Hz <-].
    rewrite lookup_app_l in H1 by lia. by eapply (Forall_lookup_1 _ _ _ _ Hf).
Qed.

(** The window of a device is fixed, one of [F], or was allocated between
    [lo] and the counter, which has moved by at most [n]; likewise for its
    lines, fixed ones being below [lo]. *)
Definition base_inv (lo : Z) (F : list Z) (n : Z) (b : bus_state) : Prop :=
  (lo <= goldfish_free_base b <= lo + n) /\
  Forall (fun d => (base d ∈ F /\ size d = 0x1000) \/
                   (lo <= base d /\ base d + size d <= goldfish_free_base b)) (devices b) /\
  pairwise windows_disjoint (devices b).

Definition irq_inv (lo : Z) (Q : list Z) (n : Z) (b : bus_state) : Prop :=
  (lo <= goldfish_free_irq b <= lo + n) /\
  Forall (fun d => (irq d = 0 /\ irq_count d = 0) \/ (irq d ∈ Q /\ irq_count d = 1) \/
                   (lo <= irq d /\ 0 < irq_count d /\
                    irq d + irq_count d <= goldfish_free_irq b)) (devices b) /\
  pairwise lines_disjoint (devices b).

Section Allocation.
Context (lo : Z) (Hlo : 0 < lo).

Lemma add_base_dyn F n dev b :
  base_inv lo F n b -> base dev = 0 -> 0 <= size dev ->
  Forall (fun f => f + 0x1000 <= lo) F -> lo + n + size dev < 4294967296 ->
  base_inv lo F (n + size dev) (goldfish_add_device_no_io dev b).
Proof.
  intros (Hb & Hd & Hp) H0 Hs HF Hn. unfold goldfish_add_device_no_io. rewrite H0. cbn -[Z.add].
  case_match. rewrite uwrap_small by lia. unfold base_inv. cbn -[Z.add].
  split; [lia|]. split.
  - apply Forall_app. split; [|apply Forall_singleton; simpl; right; lia].
    eapply Forall_impl; [|exact Hd]. simpl. intros d [?|?]; [by left|right; lia].
  - apply pairwise_snoc; [done|]. eapply Forall_impl; [|exact Hd]. simpl. intros d Hx.
    left. simpl. destruct Hx as [[Hin ->]|?]; [|lia].
    rewrite Forall_forall in HF. apply list_elem_of_In in Hin. specialize (HF _ Hin). lia.
Qed.

Lemma add_base_fix F n dev b :
  base_inv lo F n b -> base dev <> 0 -> size dev = 0x1000 ->
  Forall (fun f => f + 0x1000 <= base dev \/ base dev + 0x1000 <= f) F ->
  base dev + 0x1000 <= lo ->
  base_inv lo (base dev :: F) n (goldfish_add_device_no_io dev b).
Proof.
  intros (Hb & Hd & Hp) H0 Hs HF Hn. unfold goldfish_add_device_no_io.
  rewrite (proj2 (Z.eqb_neq _ _)) by done. case_match. unfold base_inv. cbn -[Z.add].
  split; [lia|]. split.
  - apply Forall_app. split; [|apply Forall_singleton; simpl; left; by split; [left|]].
    eapply Forall_impl; [|exact Hd]. simpl. intros d [[? ?]|?]; [left|by right].
    split; [by right|done].
  - apply pairwise_snoc; [done|]. eapply Forall_impl; [|exact Hd]. simpl. intros d Hx.
    unfold windows_disjoint. simpl. rewrite Hs. destruct Hx as [[Hin ->]|?]; [|lia].
    rewrite Forall_forall in HF. apply list_elem_of_In in Hin. by apply HF.
Qed.

Lemma add_irq_dyn Q n dev b :
  irq_inv lo Q n b -> irq dev = 0 -> 0 < irq_count dev ->
  Forall (fun f => 0 < f < lo) Q -> lo + n + irq_count dev < 4294967296 ->
  irq_inv lo Q (n + irq_count dev) (goldfish_add_device_no_io dev b).
Proof.
  intros (Hb & Hd & Hp) H0 Hs HF Hn. unfold goldfish_add_device_no_io.
  rewrite H0, (proj2 (Z.ltb_lt _ _)) by done. cbn -[Z.add].
  case_match. rewrite uwrap_small by lia. unfold irq_inv. cbn -[Z.add].
  split; [lia|]. split.
  - apply Forall_app. split; [|apply Forall_singleton; simpl; right; right; lia].
    eapply Forall_impl; [|exact Hd]. simpl. intros d [?|[?|?]]; [by left|by right; left|right; right; lia].
  - apply pairwise_snoc; [done|]. eapply Forall_impl; [|exact Hd]. simpl. intros d Hx.
    left. simpl. destruct Hx as [[-> ->]|[[Hin ->]|?]]; [lia| |lia].
    rewrite Forall_forall in HF. apply list_elem_of_In in Hin. specialize (HF _ Hin). simpl in HF. lia.
Qed.

Lemma add_irq_fix Q n dev b :
  irq_inv lo Q n b -> irq_count dev = 1 -> 0 < irq dev < lo ->
  Forall (fun f => f <> irq dev) Q ->
  irq_inv lo (irq dev :: Q) n (goldfish_add_device_no_io dev b).
Proof.
  intros (Hb & Hd & Hp) Hs H0 HF. unfold goldfish_add_device_no_io.
  rewrite (proj2 (Z.eqb_neq (irq dev) 0)) by lia. cbn -[Z.add]. case_match. unfold irq_inv. cbn -[Z.add].
  split; [lia|]. split.
  - apply Forall_app. split; [|apply Forall_singleton; simpl; right; left; by split; [left|]].
    eapply Forall_impl; [|exact Hd]. simpl. intros d [?|[[? ?]|?]];
      [by left|right; left|by right; right]. split; [by right|done].
  - apply pairwise_snoc; [done|]. eapply Forall_impl; [|exact Hd]. simpl. intros d Hx.
    unfold lines_disjoint. simpl. rewrite Hs. destruct Hx as [[-> ->]|[[Hin ->]|?]]; [lia| |lia].
    rewrite Forall_forall in HF. apply list_elem_of_In in Hin. specialize (HF _ Hin). simpl in HF. lia.
Qed.

Lemma add_irq_none Q n dev b :
  irq_inv lo Q n b -> irq dev = 0 -> irq_count dev = 0 -> Forall (fun f => 0 < f) Q ->
  irq_inv lo Q n (goldfish_add_device_no_io dev b).
Proof.
  intros (Hb & Hd & Hp) H0 Hs HF. unfold goldfish_add_device_no_io. rewrite H0, Hs. cbn -[Z.add].
  case_match. unfold irq_inv. cbn -[Z.add]. split; [lia|]. split.
  - apply Forall_app. split; [done|apply Forall_singleton; simpl; by left].
  - apply pairwise_snoc; [done|]. eapply Forall_impl; [|exact Hd]. simpl. intros d Hx.
    right. simpl. destruct Hx as [[? ?]|[[Hin ?]|?]]; [lia| |lia].
    rewrite Forall_forall in HF. apply list_elem_of_In in Hin. specialize (HF _ Hin). simpl in HF. lia.
Qed.
End Allocation.

(** ** The board's layout *)

Definition lay (F Q : list Z) (nb nq : Z) (b : bus_state) : Prop :=
  base_inv 0xff010000 F nb b /\ irq_inv 10 Q nq b.

Definition low_bases (F : list Z) : Prop := Forall (fun f => f + 0x1000 <= 0xff010000) F.
Definition low_irqs (Q : list Z) : Prop := Forall (fun f => 0 < f < 10) Q.

Lemma low_irqs_pos Q : low_irqs Q -> Forall (fun f => 0 < f) Q.
Proof. intros H. eapply Forall_impl; [|exact H]. simpl. lia. Qed.

(** A dynamic device with [q] lines, 0 or 1. *)
Lemma lay_dyn F Q nb nq b sz nm i q :
  lay F Q nb nq b -> low_bases F -> low_irqs Q ->
  0 <= sz -> nb + sz < 0x100000 -> 0 <= nq < 1000 -> q = 0 \/ q = 1 ->
  lay F Q (nb + sz) (nq + q) (goldfish_add_device_no_io (mkDev 0 nm i 0 sz 0 q) b).
Proof.
  intros [Hb Hq] HF HQ Hs Hn Hnq Hq01. split.
  - apply (add_base_dyn 0xff010000 ltac:(lia) _ _ (mkDev 0 nm i 0 sz 0 q)); try done; simpl; lia.
  - destruct Hq01 as [-> | ->].
    + rewrite Z.add_0_r. apply (add_irq_none 10 ltac:(lia)); try done; by apply low_irqs_pos.
    + apply (add_irq_dyn 10 ltac:(lia) _ _ (mkDev 0 nm i 0 sz 0 1)); try done; simpl; lia.
Qed.

(** A device at a fixed address, with no line, an allocated line or a fixed
    line. *)
Definition free_base (F : list Z) (a : Z) : Prop :=
  a <> 0 /\ a + 0x1000 <= 0xff010000 /\
  Forall (fun f => f + 0x1000 <= a \/ a + 0x1000 <= f) F.

Lemma lay_fix F Q nb nq b nm i a q :
  lay F Q nb nq b -> free_base F a -> low_irqs Q -> 0 <= nq < 1000 -> q = 0 \/ q = 1 ->
  lay (a :: F) Q nb (nq + q) (goldfish_add_device_no_io (fixed_dev nm i a 0 q) b).
Proof.
  intros [Hb Hq] (Ha & Hlow & HF) HQ Hnq Hq01. split.
  - by apply (add_base_fix 0xff010000 _ _ (fixed_dev nm i a 0 q)).
  - destruct Hq01 as [-> | ->].
    + rewrite Z.add_0_r. apply (add_irq_none 10 ltac:(lia)); try done; by apply low_irqs_pos.
    + apply (add_irq_dyn 10 ltac:(lia) _ _ (fixed_dev nm i a 0 1)); try done; simpl; lia.
Qed.

Lemma lay_fix_irq F Q nb nq b nm i a q :
  lay F Q nb nq b -> free_base F a -> 0 < q < 10 -> Forall (fun f => f <> q) Q ->
  lay (a :: F) (q :: Q) nb nq (goldfish_add_device_no_io (fixed_dev nm i a q 1) b).
Proof.
  intros [Hb Hq] (Ha & Hlow & HF) Hq1 HQ. split.
  - by apply (add_base_fix 0xff010000 _ _ (fixed_dev nm i a q 1)).
  - by apply (add_irq_fix 10 _ _ (fixed_dev nm i a q 1)).
Qed.

(** The bounds of the invariant may be relaxed. *)
Lemma lay_weaken F F' Q nb nb' nq nq' b :
  lay F Q nb nq b -> F ⊆ F' -> nb <= nb' -> nq <= nq' -> lay F' Q nb' nq' b.
Proof.
  intros [(H1 & H2 & H3) (H4 & H5 & H6)] HF Hn Hq.
  split; (split; [lia|]; split; [|done]); [|done].
  eapply Forall_impl; [|exact H2]. simpl. intros d [[Hin ?]|?]; [left|by right].
  split; [|done]. by apply HF.
Qed.

Definition add_all (ds : list goldfish_device) (b : bus_state) : bus_state :=
  fold_left (fun b d => goldfish_add_device_no_io d b) ds b.

Lemma add_all_keeps ds b :
  bus_dev (add_all ds b) = bus_dev b /\
  forall i d, devices b !! i = Some d -> devices (add_all ds b) !! i = Some d.
Proof.
  revert b. induction ds as [|x ds IH]; intros b; [done|].
  cbn [add_all fold_left]. destruct (IH (goldfish_add_device_no_io x b)) as [H1 H2].
  unfold add_all in *. rewrite H1. unfold goldfish_add_device_no_io in *.
  repeat case_match; (split; [done|]; intros i d Hi; apply H2; simpl; by apply lookup_app_l_Some).
Qed.

Lemma add_all_app l1 l2 b : add_all (l1 ++ l2) b = add_all l2 (add_all l1 b).
Proof. apply fold_left_app. Qed.

Lemma lay_slots F Q nb nq b nm i l n :
  lay F Q nb nq b -> low_bases F -> low_irqs Q -> Z.of_nat (List.length l) <= n ->
  0 <= nb -> nb + 0x1000 * n < 0x100000 -> 0 <= nq -> nq + n < 1000 ->
  lay F Q (nb + 0x1000 * n) (nq + n) (add_all (slot_devs nm i l) b).
Proof.
  intros Hl HF HQ. revert nb nq b i n Hl.
  induction l as [|x l IH]; intros nb nq b i n Hl Hlen Hn Hn' Hq Hq'; cbn [List.length] in *.
  - eapply lay_weaken; [exact Hl|done|lia|lia].
  - cbn [slot_devs]. rewrite add_all_app.
    replace (nb + 0x1000 * n) with (nb + 0x1000 + 0x1000 * (n - 1)) by lia.
    replace (nq + n) with (nq + 1 + (n - 1)) by lia.
    apply IH; try lia. destruct x; simpl.
    + apply lay_dyn; try done; lia || by right.
    + eapply lay_weaken; [exact Hl|done|lia|lia].
Qed.

(** Adding a device that depends on the configuration. *)
Lemma lay_opt (c : bool) F F' Q nb nb' nq nq' d b :
  lay F Q nb nq b -> (c = true -> lay F' Q nb' nq' (goldfish_add_device_no_io d b)) ->
  F ⊆ F' -> nb <= nb' -> nq <= nq' ->
  lay F' Q nb' nq' (add_all (if c then [d] else []) b).
Proof.
  intros H1 H2 HF Hn Hq. destruct c; [by apply H2|]. by eapply lay_weaken.
Qed.

Local Ltac lay_side :=
  match goal with
  | |- low_bases _ => repeat constructor; simpl; lia
  | |- low_irqs _ => repeat constructor; simpl; lia
  | |- free_base _ _ => split; [lia|]; split; [lia|]; repeat constructor; lia
  | |- Forall _ _ => repeat constructor; lia
  | |- _ ⊆ _ => set_solver
  | |- _ \/ _ => by auto
  | |- _ => try (simpl in *; lia)
  end.

Lemma lay_start : lay [0xff001000; 0xff000000] [1] 0 0 board_bus.
Proof.
  apply (lay_fix_irq [0xff000000] [] 0 0 _ "goldfish_device_bus" 0xffffffff);
    [|lay_side..].
  split; (split; [simpl; lia|]; split; [by repeat constructor; simpl; set_solver|]);
    intros i j d1 d2 Hij H1 H2; apply lookup_lt_Some in H1, H2; simpl in *; lia.
Qed.

Lemma board_lay c :
  (List.length (serial_hds c) <= 3)%nat -> (List.length (nd_table c) <= 8)%nat ->
  exists F, low_bases F /\ lay F [4; 3; 1] 0x20000 22 (android_arm_init_devices c).
Proof.
  intros Hs Hn. pose proof lay_start as H.
  apply (lay_fix_irq _ _ _ _ _ "goldfish_timer" 0xffffffff 0xff003000 3) in H; [|lay_side..].
  apply (lay_dyn _ _ _ _ _ 0x1000 (cstr "goldfish_rtc") 0xffffffff 1) in H; [|lay_side..].
  apply (lay_fix_irq _ _ _ _ _ "goldfish_tty" 0 0xff002000 4) in H; [|lay_side..].
  apply (lay_slots _ _ _ _ _ "goldfish_tty" 1 (serial_hds c) 3) in H; [|lay_side..].
  apply (lay_slots _ _ _ _ _ "smc91x" 0 (nd_table c) 8) in H; [|lay_side..].
  apply (lay_dyn _ _ _ _ _ 0x1000 (cstr "goldfish_fb") 0 1) in H; [|lay_side..].
  eapply (lay_opt (has_audio c)) in H;
    [|intros _; eapply (lay_fix _ _ _ _ _ "goldfish_audio" 0 0xff004000 1); [exact H|lay_side..]|lay_side..].
  eapply (lay_opt (has_mmc c)) in H;
    [|intros _; eapply (lay_fix _ _ _ _ _ "goldfish_mmc" 0 0xff005000 1); [exact H|lay_side..]|lay_side..].
  apply (lay_fix _ _ _ _ _ "goldfish_memlog" 0 0xff006000 0) in H; [|lay_side..].
  eapply (lay_opt (has_virtual_device c)) in H;
    [|intros _; eapply (lay_fix _ _ _ _ _ "virtual-device" 0 0xff007000 1); [exact H|lay_side..]|lay_side..].
  eapply (lay_opt (hw_battery c)) in H;
    [|intros _; eapply (lay_dyn _ _ _ _ _ 0x1000 (cstr "goldfish-battery") 0 1); [exact H|lay_side..]|lay_side..].
  apply (lay_dyn _ _ _ _ _ 0x1000 (cstr "goldfish_events") 0 1) in H; [|lay_side..].
  apply (lay_dyn _ _ _ _ _ 0x1000 (cstr "goldfish_nand") 0 0) in H; [|lay_side..].
  eapply (lay_opt (tracing c)) in H;
    [|intros _; eapply (lay_dyn _ _ _ _ _ 0x2000 (cstr "qemu_trace") 0xffffffff 0); [exact H|lay_side..]|lay_side..].
  apply (lay_dyn _ _ _ _ _ 0x1000 (cstr "goldfish-switch") 0 1) in H; [|lay_side..].
  apply (lay_dyn _ _ _ _ _ 0x1000 (cstr "goldfish-switch") 1 1) in H; [|lay_side..].
  eexists. split; [|eapply lay_weaken; [|reflexivity|..]].
  2: { change (android_arm_init_devices c) with (add_all (board_devices c) board_bus).
       unfold board_devices. rewrite !add_all_app. exact H. }
  all: lay_side.
Qed.

(** C40: On every configuration of the board, no two devices
    [android_arm_init_] adds answer the same address or share an interrupt
    line, every line a device has is one of the controller's 32 (the fixed
    ones below 10, the allocated ones from 10 on), and the bus has a line. *)
Theorem board_layout (c : board_config) :
  (List.length (serial_hds c) <= 3)%nat -> (List.length (nd_table c) <= 8)%nat ->
  let ds := devices (android_arm_init_devices c) in
  pairwise windows_disjoint ds /\ pairwise lines_disjoint ds /\
  (forall d k, d ∈ ds -> 0 <= k < irq_count d -> 1 <= irq d /\ owns_line d k) /\
  (exists dev, ds !! bus_dev (android_arm_init_devices c) = Some dev /\ owns_line dev 0).
Proof.
  intros Hs Hn ds. destruct (board_lay c Hs Hn) as (F & _ & (_ & _ & Hw) & Hfree & Hirqs & Hl).
  split; [done|]. split; [done|]. 
  assert (Hown : forall d k, d ∈ ds -> 0 <= k < irq_count d -> 1 <= irq d /\ owns_line d k).
  { intros d k Hd Hk. rewrite Forall_forall in Hirqs. apply list_elem_of_In in Hd.
    destruct (Hirqs d Hd) as [[_ H0]|[[Hin H1]|H2]]; [lia| |unfold owns_line; lia].
    rewrite H1 in Hk. unfold owns_line. rewrite H1.
    assert (irq d = 4 \/ irq d = 3 \/ irq d = 1) by set_solver. lia. }
  split; [exact Hown|]. unfold ds.
  change (android_arm_init_devices c) with (add_all (board_devices c) board_bus).
  destruct (add_all_keeps (board_devices c) board_bus) as [-> Hk].
  eexists. split; [by apply Hk|]. unfold owns_line. simpl. lia.
Qed.

Definition full_config : board_config :=
  mkCfg [true; true; true] [true; false; true; true; true; true; true; true]
    true true true true true.

Lemma board_layout_witness :
  let ds := devices (android_arm_init_devices full_config) in
  pairwise windows_disjoint ds /\ pairwise lines_disjoint ds /\
  (forall d k, d ∈ ds -> 0 <= k < irq_count d -> 1 <= irq d /\ owns_line d k) /\
  (exists dev, ds !! bus_dev (android_arm_init_devices full_config) = Some dev /\ owns_line dev 0).
Proof. apply (board_layout full_config); simpl; lia. Defined.
