(* ===== verification/Savevm.v ===== *)
(** * Snapshots: the buffered files and the section format of [savevm.c]

    A [QEMUFile] on a standard file ([qemu_fopen]): the medium is the list of
    the file's bytes. [put_buffer] and [get_buffer] are the functions
    [file_put_buffer] and [file_get_buffer]; which of the two a file has is
    its opening mode. *)
From S2P Require Import Prelude.

Definition IO_BUF_SIZE : Z := 32768.

Record QEMUFile := mkFile {
  outfile : list Z;            (* the bytes of the file behind [opaque] *)
  has_put : bool;              (* [put_buffer] is not null: mode "wb" *)
  is_write : bool;
  buf_offset : Z;
  buf_index : Z;
  buf_size : Z;
  buf : list Z;
  has_error : bool
}.

(** [fseek] to [pos] and [fwrite] of the first [size] bytes of [b]: a gap
    before [pos] reads as zeroes. The value returned is [size]. *)
Definition file_put_buffer (b : list Z) (pos size : Z) (fil : list Z) : Z * list Z :=
  let p := Z.to_nat pos in
  (size, take p (fil ++ replicate (p - length fil) 0) ++ take (Z.to_nat size) b
           ++ drop (p + Z.to_nat size) fil).

(** [fseek] and [fread]: the bytes read, fewer at the end of the file. *)
Definition file_get_buffer (pos size : Z) (fil : list Z) : list Z :=
  take (Z.to_nat size) (drop (Z.to_nat pos) fil).

Definition qemu_fopen_wb : QEMUFile :=
  mkFile [] true false 0 0 0 (replicate (Z.to_nat IO_BUF_SIZE) 0) false.
Definition qemu_fopen_rb (contents : list Z) : QEMUFile :=
  mkFile contents false false 0 0 0 (replicate (Z.to_nat IO_BUF_SIZE) 0) false.

Definition qemu_file_has_error (f : QEMUFile) : bool := has_error f.
Definition qemu_file_set_error (f : QEMUFile) : QEMUFile :=
  mkFile (outfile f) (has_put f) (is_write f) (buf_offset f) (buf_index f) (buf_size f) (buf f) true.

Definition qemu_fflush (f : QEMUFile) : QEMUFile :=
  if negb (has_put f) then f
  else if is_write f && (0 <? buf_index f) then
    let '(len, out) := file_put_buffer (buf f) (buf_offset f) (buf_index f) (outfile f) in
    if 0 <? len then
      mkFile out (has_put f) (is_write f) (buf_offset f + buf_index f) 0 (buf_size f) (buf f) (has_error f)
    else
      mkFile out (has_put f) (is_write f) (buf_offset f) 0 (buf_size f) (buf f) true
  else f.

(** [-EAGAIN] is not a result of [file_get_buffer]. *)
Definition qemu_fill_buffer (f : QEMUFile) : res QEMUFile :=
  if has_put f then Ok f
  else if is_write f then Abort
  else
    let bytes := file_get_buffer (buf_offset f) IO_BUF_SIZE (outfile f) in
    let len := Z.of_nat (length bytes) in
    if 0 <? len then
      Ok (mkFile (outfile f) (has_put f) (is_write f) (buf_offset f + len) 0 len
            (splice (buf f) 0 bytes) (has_error f))
    else Ok (qemu_file_set_error f).

(** [qemu_fclose]: the bytes left in the file. *)
Definition qemu_fclose (f : QEMUFile) : list Z := outfile (qemu_fflush f).

(** The test at the head of the two write functions. *)
Definition write_while_reading (f : QEMUFile) : bool :=
  negb (has_error f) && negb (is_write f) && (0 <? buf_index f).

Fixpoint put_buffer_loop (fuel : nat) (b : list Z) (f : QEMUFile) : res QEMUFile :=
  match b with
  | [] => Ok f
  | _ =>
    if has_error f then Ok f else
    match fuel with
    | O => Undef
    | S fuel =>
        let size := Z.of_nat (length b) in
        let l := IO_BUF_SIZE - buf_index f in
        let l := if size <? l then size else l in
        let f := mkFile (outfile f) (has_put f) true (buf_offset f) (buf_index f + l) (buf_size f)
                   (splice (buf f) (Z.to_nat (buf_index f)) (take (Z.to_nat l) b)) (has_error f) in
        let f := if IO_BUF_SIZE <=? buf_index f then qemu_fflush f else f in
        put_buffer_loop fuel (drop (Z.to_nat l) b) f
    end
  end.

Definition qemu_put_buffer (f : QEMUFile) (b : list Z) : res QEMUFile :=
  if write_while_reading f then Abort else put_buffer_loop (length b) b f.

Definition qemu_put_byte (f : QEMUFile) (v : Z) : res QEMUFile :=
  if write_while_reading f then Abort else
  let! b := arr_set (buf f) (buf_index f) (u8 v) in
  let f := mkFile (outfile f) (has_put f) true (buf_offset f) (buf_index f + 1) (buf_size f)
             b (has_error f) in
  Ok (if IO_BUF_SIZE <=? buf_index f then qemu_fflush f else f).

(** [qemu_get_buffer]: the bytes copied to the caller's buffer. *)
Fixpoint get_buffer_loop (fuel : nat) (size : Z) (f : QEMUFile) : res (list Z * QEMUFile) :=
  if size <=? 0 then Ok ([], f) else
  match fuel with
  | O => Undef
  | S fuel =>
      let l := buf_size f - buf_index f in
      let! f := if l =? 0 then qemu_fill_buffer f else Ok f in
      let l := buf_size f - buf_index f in
      if l =? 0 then Ok ([], f) else
      let l := if size <? l then size else l in
      let bytes := take (Z.to_nat l) (drop (Z.to_nat (buf_index f)) (buf f)) in
      let f := mkFile (outfile f) (has_put f) (is_write f) (buf_offset f) (buf_index f + l)
                 (buf_size f) (buf f) (has_error f) in
      let! (rest, f) := get_buffer_loop fuel (size - l) f in
      Ok (bytes ++ rest, f)
  end.

Definition qemu_get_buffer (f : QEMUFile) (size : Z) : res (list Z * QEMUFile) :=
  if is_write f then Abort else get_buffer_loop (Z.to_nat size) size f.

Definition qemu_get_byte (f : QEMUFile) : res (Z * QEMUFile) :=
  if is_write f then Abort else
  let! f := if buf_size f <=? buf_index f then qemu_fill_buffer f else Ok f in
  if buf_size f <=? buf_index f then Ok (0, f) else
  let! x := arr_get (buf f) (buf_index f) in
  Ok (x, mkFile (outfile f) (has_put f) (is_write f) (buf_offset f) (buf_index f + 1)
           (buf_size f) (buf f) (has_error f)).

Definition qemu_ftell (f : QEMUFile) : Z := buf_offset f - buf_size f + buf_index f.

Definition SEEK_SET : Z := 0.
Definition SEEK_CUR : Z := 1.

Definition qemu_fseek (f : QEMUFile) (pos whence : Z) : Z * QEMUFile :=
  let go pos :=
    if has_put f then
      let f := qemu_fflush f in
      (pos, mkFile (outfile f) (has_put f) (is_write f) pos (buf_index f) (buf_size f) (buf f) (has_error f))
    else
      (pos, mkFile (outfile f) (has_put f) (is_write f) pos 0 0 (buf f) (has_error f)) in
  if whence =? SEEK_SET then go pos
  else if whence =? SEEK_CUR then go (pos + qemu_ftell f)
  else (-1, f).

(** ** Integers, in network order *)

Definition qemu_put_be16 (f : QEMUFile) (v : Z) : res QEMUFile :=
  let! f := qemu_put_byte f (Z.shiftr v 8) in
  qemu_put_byte f v.

Definition qemu_put_be32 (f : QEMUFile) (v : Z) : res QEMUFile :=
  let! f := qemu_put_byte f (Z.shiftr v 24) in
  let! f := qemu_put_byte f (Z.shiftr v 16) in
  let! f := qemu_put_byte f (Z.shiftr v 8) in
  qemu_put_byte f v.

Definition qemu_put_be64 (f : QEMUFile) (v : Z) : res QEMUFile :=
  let! f := qemu_put_be32 f (u32 (Z.shiftr v 32)) in
  qemu_put_be32 f (u32 v).

Definition qemu_get_be16 (f : QEMUFile) : res (Z * QEMUFile) :=
  let! (a, f) := qemu_get_byte f in
  let! (b, f) := qemu_get_byte f in
  Ok (Z.lor (Z.shiftl a 8) b, f).

Definition qemu_get_be32 (f : QEMUFile) : res (Z * QEMUFile) :=
  let! (a, f) := qemu_get_byte f in
  let! (b, f) := qemu_get_byte f in
  let! (c, f) := qemu_get_byte f in
  let! (d, f) := qemu_get_byte f in
  Ok (Z.lor (Z.lor (Z.lor (Z.shiftl a 24) (Z.shiftl b 16)) (Z.shiftl c 8)) d, f).

Definition qemu_get_be64 (f : QEMUFile) : res (Z * QEMUFile) :=
  let! (hi, f) := qemu_get_be32 f in
  let! (lo, f) := qemu_get_be32 f in
  Ok (Z.lor (Z.shiftl hi 32) lo, f).

(** ** Field lists *)

Inductive QFieldType :=
| Q_FIELD_END | Q_FIELD_BYTE | Q_FIELD_INT16 | Q_FIELD_INT32 | Q_FIELD_INT64
| Q_FIELD_BUFFER | Q_FIELD_BUFFER_SIZE.

Record QField := mkQField { qf_type : QFieldType; qf_offset : Z }.

#[global] Instance QFieldType_eq_dec : EqDecision QFieldType.
Proof. solve_decision. Defined.

(** The size a [Q_FIELD_BUFFER] takes from the two items after the first
    item of the list, [None] when they are not sizes ([fields[1]] and
    [fields[2]], whichever item is being processed). *)
Definition buffer_size (fields : list QField) : option Z :=
  match fields with
  | _ :: f1 :: f2 :: _ =>
      if decide (qf_type f1 = Q_FIELD_BUFFER_SIZE) then
        if decide (qf_type f2 = Q_FIELD_BUFFER_SIZE) then
          Some (Z.lor (Z.shiftl (qf_offset f1) 16) (qf_offset f2))
        else None
      else None
  | _ => None
  end.

Section Fields.
(** The structure: [n] bytes at an offset. *)
Context (field : Z -> nat -> Z) (field_bytes : Z -> Z -> list Z).
Context (fields : list QField).

(** [qemu_put_struct]: the items still to come, [qf]; an item read past the
    end of the array is undefined. *)
Fixpoint put_struct_loop (qf : list QField) (f : QEMUFile) : res QEMUFile :=
  match qf with
  | [] => Undef
  | q :: qf' =>
      match qf_type q with
      | Q_FIELD_END => put_struct_loop qf' f
      | Q_FIELD_BYTE =>
          let! f := qemu_put_byte f (field (qf_offset q) 1) in put_struct_loop qf' f
      | Q_FIELD_INT16 =>
          let! f := qemu_put_be16 f (field (qf_offset q) 2) in put_struct_loop qf' f
      | Q_FIELD_INT32 =>
          let! f := qemu_put_be32 f (field (qf_offset q) 4) in put_struct_loop qf' f
      | Q_FIELD_INT64 =>
          let! f := qemu_put_be64 f (field (qf_offset q) 8) in put_struct_loop qf' f
      | Q_FIELD_BUFFER =>
          match buffer_size fields with
          | None => Abort
          | Some size =>
              let! f := qemu_put_buffer f (field_bytes (qf_offset q) size) in
              match qf' with
              | _ :: _ :: qf'' => put_struct_loop qf'' f
              | _ => Undef
              end
          end
      | Q_FIELD_BUFFER_SIZE => Abort
      end
  end.
Definition qemu_put_struct (f : QEMUFile) : res QEMUFile := put_struct_loop fields f.

(** [qemu_get_struct] stores what it reads in the structure [s]; the call
    gives up with -1 on a malformed list or a short buffer. *)
Context {S : Type} (set_field : Z -> nat -> Z -> S -> S) (set_bytes : Z -> list Z -> S -> S).

Fixpoint get_struct_loop (qf : list QField) (s : S) (f : QEMUFile) : res (Z * S * QEMUFile) :=
  match qf with
  | [] => Undef
  | q :: qf' =>
      match qf_type q with
      | Q_FIELD_END => get_struct_loop qf' s f
      | Q_FIELD_BYTE =>
          let! (v, f) := qemu_get_byte f in get_struct_loop qf' (set_field (qf_offset q) 1 v s) f
      | Q_FIELD_INT16 =>
          let! (v, f) := qemu_get_be16 f in get_struct_loop qf' (set_field (qf_offset q) 2 v s) f
      | Q_FIELD_INT32 =>
          let! (v, f) := qemu_get_be32 f in get_struct_loop qf' (set_field (qf_offset q) 4 v s) f
      | Q_FIELD_INT64 =>
          let! (v, f) := qemu_get_be64 f in get_struct_loop qf' (set_field (qf_offset q) 8 v s) f
      | Q_FIELD_BUFFER =>
          match buffer_size fields with
          | None => Ok (-1, s, f)
          | Some size =>
              let! (b, f) := qemu_get_buffer f size in
              let s := set_bytes (qf_offset q) b s in
              if negb (Z.of_nat (length b) =? size) then Ok (-1, s, f) else
              match qf' with
              | _ :: _ :: qf'' => get_struct_loop qf'' s f
              | _ => Undef
              end
          end
      | Q_FIELD_BUFFER_SIZE => Abort
      end
  end.
Definition qemu_get_struct (s : S) (f : QEMUFile) : res (Z * S * QEMUFile) := get_struct_loop fields s f.
End Fields.

(** ** The abstract files

    A file being written is the list of the bytes written so far, a file
    being read the list of the bytes still to come. *)

Definition writing (f : QEMUFile) (data : list Z) : Prop :=
  has_put f = true /\ has_error f = false /\ length (buf f) = Z.to_nat IO_BUF_SIZE /\
  0 <= buf_index f < IO_BUF_SIZE /\ buf_size f = 0 /\
  buf_offset f = Z.of_nat (length (outfile f)) /\
  (is_write f = true \/ buf_index f = 0) /\
  data = outfile f ++ take (Z.to_nat (buf_index f)) (buf f).

Definition reading (f : QEMUFile) (rest : list Z) : Prop :=
  has_put f = false /\ is_write f = false /\ has_error f = false /\
  length (buf f) = Z.to_nat IO_BUF_SIZE /\
  0 <= buf_index f <= buf_size f /\ buf_size f <= IO_BUF_SIZE /\
  0 <= buf_offset f <= Z.of_nat (length (outfile f)) /\
  rest = take (Z.to_nat (buf_size f - buf_index f)) (drop (Z.to_nat (buf_index f)) (buf f))
           ++ drop (Z.to_nat (buf_offset f)) (outfile f).

Lemma writing_open : writing qemu_fopen_wb [].
Proof.
  unfold writing, qemu_fopen_wb, IO_BUF_SIZE. cbn [has_put has_error buf buf_index buf_size
    buf_offset outfile is_write]. rewrite length_replicate. repeat split; try lia; auto.
Qed.

Lemma reading_open contents : reading (qemu_fopen_rb contents) contents.
Proof.
  unfold reading, qemu_fopen_rb, IO_BUF_SIZE. cbn [has_put has_error buf buf_index buf_size
    buf_offset outfile is_write]. rewrite length_replicate. repeat split; try lia; auto.
Qed.

Lemma writing_not_reading f data : writing f data -> write_while_reading f = false.
Proof.
  intros (_ & He & _ & _ & _ & _ & Hw & _). unfold write_while_reading. rewrite He.
  destruct Hw as [-> | ->]; [done|]. by rewrite andb_false_r.
Qed.

(** A full or half-full buffer reaches the file unchanged. *)
Lemma flush_writing f data :
  has_put f = true -> has_error f = false -> length (buf f) = Z.to_nat IO_BUF_SIZE ->
  0 <= buf_index f <= IO_BUF_SIZE -> buf_size f = 0 ->
  buf_offset f = Z.of_nat (length (outfile f)) -> is_write f = true \/ buf_index f = 0 ->
  data = outfile f ++ take (Z.to_nat (buf_index f)) (buf f) ->
  writing (qemu_fflush f) data /\ outfile (qemu_fflush f) = data.
Proof.
  intros Hp He Hb Hi Hs Ho Hw Hd. unfold qemu_fflush. rewrite Hp. cbn [negb].
  destruct (Z.ltb_spec 0 (buf_index f)) as [Hpos|Hz].
  - destruct Hw as [Hw|Hw]; [|lia]. rewrite Hw. cbn [andb].
    unfold file_put_buffer. rewrite (proj2 (Z.ltb_lt _ _)) by done.
    rewrite Ho, Nat2Z.id, Nat.sub_diag, app_nil_r, firstn_all, drop_ge, app_nil_r by lia.
    rewrite <- Hd. split; [|done]. unfold writing. cbn.
    rewrite Hd. rewrite length_app, length_take. unfold IO_BUF_SIZE in *.
    repeat split; try done; try lia; auto. by rewrite app_nil_r.
  - rewrite andb_false_r. assert (buf_index f = 0) as Hz' by lia.
    rewrite Hz' in Hd. simpl in Hd. rewrite app_nil_r in Hd. split; [|done].
    unfold writing, IO_BUF_SIZE in *. rewrite Hz'. simpl. rewrite app_nil_r. auto 10 with lia.
Qed.

Lemma fclose_writing f data : writing f data -> qemu_fclose f = data.
Proof.
  intros (?&?&?&?&?&?&?&?).
  refine (proj2 (flush_writing f data _ _ _ _ _ _ _ _)); try done. lia.
Qed.

Lemma put_byte_writing f data v :
  writing f data -> exists f', qemu_put_byte f v = Ok f' /\ writing f' (data ++ [u8 v]).
Proof.
  intros Hw. pose proof (writing_not_reading _ _ Hw) as Hn.
  destruct Hw as (Hp & He & Hb & Hi & Hs & Ho & Hw & Hd).
  unfold qemu_put_byte. rewrite Hn. unfold arr_set.
  rewrite (proj2 (orb_false_iff _ _)) by (unfold IO_BUF_SIZE in *; split; [apply Z.ltb_ge|apply Z.leb_gt]; lia).
  cbn [rbind]. cbn [buf_index]. eexists. split; [done|].
  assert (Hdata : data ++ [u8 v] = outfile f ++
    take (Z.to_nat (buf_index f + 1)) (<[Z.to_nat (buf_index f):=u8 v]> (buf f))).
  { rewrite Hd, <- app_assoc. f_equal.
    replace (Z.to_nat (buf_index f + 1)) with (S (Z.to_nat (buf_index f))) by lia.
    rewrite (take_S_r _ _ (u8 v)) by (apply list_lookup_insert_eq; unfold IO_BUF_SIZE in *; lia).
    by rewrite take_insert_ge by lia. }
  destruct (Z.leb_spec IO_BUF_SIZE (buf_index f + 1)).
  - apply flush_writing; cbn; try done; try (rewrite length_insert; done); auto; lia.
  - unfold writing. cbn. rewrite length_insert. repeat split; try done; auto; lia.
Qed.

(** Copying into the free part of the buffer, and flushing it when full. *)
Lemma put_chunk_writing f data b :
  writing f data -> buf_index f + Z.of_nat (length b) <= IO_BUF_SIZE ->
  let f1 := mkFile (outfile f) (has_put f) true (buf_offset f)
              (buf_index f + Z.of_nat (length b)) (buf_size f)
              (splice (buf f) (Z.to_nat (buf_index f)) b) (has_error f) in
  writing (if IO_BUF_SIZE <=? buf_index f1 then qemu_fflush f1 else f1) (data ++ b).
Proof.
  intros (Hp & He & Hb & Hi & Hs & Ho & Hw & Hd) Hl f1.
  assert (Hd1 : data ++ b = outfile f1 ++ take (Z.to_nat (buf_index f1)) (buf f1)).
  { cbn. rewrite Hd, <- app_assoc. f_equal.
    rewrite <- (take_drop (Z.to_nat (buf_index f)) (buf f)) at 2.
    rewrite <- (take_drop (length b) (drop (Z.to_nat (buf_index f)) (buf f))).
    rewrite splice_app by (rewrite ?length_take, ?length_drop; unfold IO_BUF_SIZE in *; lia).
    rewrite app_assoc, take_app_length'; [done|].
    rewrite length_app, !length_take; unfold IO_BUF_SIZE in *; lia. }
  destruct (Z.leb_spec IO_BUF_SIZE (buf_index f1)) as [Hc|Hc].
  - apply flush_writing; cbn in *; try done; rewrite ?length_splice; auto; lia.
  - unfold writing. cbn in *. rewrite length_splice. repeat split; try done; auto; lia.
Qed.

Lemma put_loop_writing fuel b f data :
  (length b <= fuel)%nat -> writing f data ->
  exists f', put_buffer_loop fuel b f = Ok f' /\ writing f' (data ++ b).
Proof.
  revert b f data. induction fuel as [|fuel IH]; intros b f data Hf Hw.
  { destruct b; [|simpl in *; lia]. exists f. by rewrite app_nil_r. }
  destruct b as [|x b']; [exists f; by rewrite app_nil_r|].
  cbn [put_buffer_loop]. pose proof Hw as (_ & He & _ & Hi & _).
  match goal with |- context [if has_error f then Ok f else ?k] =>
    replace (if has_error f then Ok f else k) with k by (by rewrite He) end.
  set (b := x :: b') in *.
  assert (Hlen : 0 < Z.of_nat (length b)) by (simpl; lia).
  set (l := if _ <? _ then _ else _).
  assert (Hl : 0 < l <= Z.of_nat (length b) /\ buf_index f + l <= IO_BUF_SIZE)
    by (unfold l; case_match; lia).
  assert (Htk : Z.of_nat (length (take (Z.to_nat l) b)) = l) by (rewrite length_take; lia).
  pose proof (put_chunk_writing f data (take (Z.to_nat l) b) Hw) as Hw1.
  rewrite Htk in Hw1. specialize (Hw1 ltac:(lia)).
  destruct (IH (drop (Z.to_nat l) b) _ _ ltac:(rewrite length_drop; lia) Hw1) as (f2 & H2 & Hw2).
  exists f2. split; [exact H2|]. by rewrite <- app_assoc, take_drop in Hw2.
Qed.

Lemma put_buffer_writing f data b :
  writing f data -> exists f', qemu_put_buffer f b = Ok f' /\ writing f' (data ++ b).
Proof.
  intros Hw. unfold qemu_put_buffer. rewrite (writing_not_reading _ _ Hw).
  by apply put_loop_writing.
Qed.

(** *** Reading *)

(** Refilling an exhausted buffer. *)
Lemma fill_reading f rest :
  reading f rest -> buf_index f = buf_size f -> rest <> [] ->
  exists f', qemu_fill_buffer f = Ok f' /\ reading f' rest /\ buf_index f' < buf_size f'.
Proof.
  intros (Hp & Hw & He & Hb & Hi & Hs & Ho & Hr) Heq Hne.
  unfold qemu_fill_buffer. rewrite Hp, Hw. unfold file_get_buffer.
  rewrite Heq, Z.sub_diag in Hr. simpl in Hr.
  set (bytes := take _ (drop _ (outfile f))).
  assert (Hlb : length bytes = Nat.min (Z.to_nat IO_BUF_SIZE) (length rest)).
  { unfold bytes. rewrite length_take. by rewrite <- Hr. }
  assert (length rest <> 0%nat) by (by destruct rest).
  rewrite (proj2 (Z.ltb_lt 0 _)) by (unfold IO_BUF_SIZE in *; lia).
  eexists. split; [done|]. split; [|cbn; unfold IO_BUF_SIZE in *; lia].
  assert (Hlr : length rest = (length (outfile f) - Z.to_nat (buf_offset f))%nat)
    by (rewrite Hr; apply length_drop).
  unfold reading. cbn. rewrite length_splice. unfold IO_BUF_SIZE in *.
  repeat split; try done; try lia.
  rewrite Z.sub_0_r, Nat2Z.id, drop_0.
  assert (splice (buf f) 0 bytes = bytes ++ drop (length bytes) (buf f)) as ->.
  { pose proof (splice_app [] (take (length bytes) (buf f)) (drop (length bytes) (buf f))
      bytes 0 eq_refl) as Hsp.
    rewrite !app_nil_l, take_drop in Hsp. apply Hsp. rewrite length_take. lia. }
  rewrite take_app_length. unfold bytes at 1.
  replace (Z.to_nat (buf_offset f + Z.of_nat (length bytes)))
    with (Z.to_nat (buf_offset f) + length bytes)%nat by lia.
  rewrite <- drop_drop, <- Hr. rewrite Hlb.
  rewrite <- (take_drop (Z.to_nat 32768) rest) at 1. f_equal.
  destruct (Nat.min_spec (Z.to_nat 32768) (length rest)) as [[Hm ->]|[Hm ->]]; [done|].
  by rewrite !drop_ge by lia.
Qed.

(** The bytes left in the buffer are the front of what is still to come. *)
Lemma reading_head f rest n :
  reading f rest -> 0 <= n <= buf_size f - buf_index f ->
  take (Z.to_nat n) (drop (Z.to_nat (buf_index f)) (buf f)) = take (Z.to_nat n) rest /\
  (Z.to_nat n <= length rest)%nat /\
  reading (mkFile (outfile f) (has_put f) (is_write f) (buf_offset f) (buf_index f + n)
             (buf_size f) (buf f) (has_error f)) (drop (Z.to_nat n) rest).
Proof.
  intros (Hp & Hw & He & Hb & Hi & Hs & Ho & Hr) Hn.
  assert (Hlt : length (take (Z.to_nat (buf_size f - buf_index f))
                  (drop (Z.to_nat (buf_index f)) (buf f))) = Z.to_nat (buf_size f - buf_index f)).
  { rewrite length_take, length_drop. unfold IO_BUF_SIZE in *. lia. }
  split; [|split].
  - rewrite Hr, take_app_le, take_take by (rewrite Hlt; lia). f_equal. lia.
  - rewrite Hr, length_app, Hlt. lia.
  - unfold reading. cbn. repeat split; try done; try lia.
    rewrite Hr, drop_app_le by (rewrite Hlt; lia). f_equal.
    rewrite <- take_drop_commute || rewrite skipn_firstn_comm, drop_drop.
    f_equal; [lia|]. f_equal. lia.
Qed.

Lemma get_byte_reading f x rest :
  reading f (x :: rest) -> exists f', qemu_get_byte f = Ok (x, f') /\ reading f' rest.
Proof.
  intros Hr. assert (Hf : exists f1,
    (if buf_size f <=? buf_index f then qemu_fill_buffer f else Ok f) = Ok f1 /\
    reading f1 (x :: rest) /\ buf_index f1 < buf_size f1).
  { destruct (Z.leb_spec (buf_size f) (buf_index f)) as [Hc|Hc].
    - apply fill_reading; [done| |done]. destruct Hr as (_&_&_&_&?&_). lia.
    - by exists f. }
  destruct Hf as (f1 & E & Hr1 & Hlt). unfold qemu_get_byte.
  pose proof Hr as (_ & Hw & _). rewrite Hw, E. cbn [rbind].
  rewrite (proj2 (Z.leb_gt _ _)) by done.
  destruct (reading_head f1 (x :: rest) 1 Hr1 ltac:(lia)) as (Hh & _ & Hr2).
  pose proof Hr1 as (_ & _ & _ & _ & Hi & _).
  unfold arr_get. rewrite (proj2 (Z.ltb_ge _ 0)) by lia.
  replace (buf f1 !! Z.to_nat (buf_index f1)) with (Some x).
  - cbn [rbind]. eexists. split; [done|]. exact Hr2.
  - rewrite <- (Nat.add_0_r (Z.to_nat (buf_index f1))), <- lookup_drop.
    change (Z.to_nat 1) with 1%nat in Hh.
    destruct (drop (Z.to_nat (buf_index f1)) (buf f1)); simpl in *; congruence.
Qed.

(** At the end of the file a byte reads as 0 and the error flag is set. *)
Lemma get_byte_eof f :
  reading f [] -> exists f', qemu_get_byte f = Ok (0, f') /\ has_error f' = true.
Proof.
  intros (Hp & Hw & He & Hb & Hi & Hs & Ho & Hr). symmetry in Hr.
  apply app_eq_nil in Hr as [Hr1 Hr2].
  assert (Heq : buf_index f = buf_size f).
  { apply (f_equal length) in Hr1. rewrite length_take, length_drop in Hr1.
    unfold IO_BUF_SIZE in *. simpl in Hr1. lia. }
  unfold qemu_get_byte. rewrite Hw, (proj2 (Z.leb_le _ _)) by lia.
  unfold qemu_fill_buffer, file_get_buffer. rewrite Hp, Hw, Hr2, take_nil.
  change (0 <? Z.of_nat (length (@nil Z))) with false. cbn [rbind].
  change (buf_size (qemu_file_set_error f)) with (buf_size f).
  change (buf_index (qemu_file_set_error f)) with (buf_index f).
  rewrite (proj2 (Z.leb_le _ _)) by lia. by eexists.
Qed.

Lemma get_loop_reading fuel n f rest :
  (Z.to_nat n <= fuel)%nat -> 0 <= n <= Z.of_nat (length rest) -> reading f rest ->
  exists f', get_buffer_loop fuel n f = Ok (take (Z.to_nat n) rest, f') /\
    reading f' (drop (Z.to_nat n) rest).
Proof.
  revert n f rest. induction fuel as [|fuel IH]; intros n f rest Hf Hn Hr;
    (destruct (decide (n = 0)) as [->|Hz]; [by exists f|]); [lia|].
  cbn [get_buffer_loop]. rewrite (proj2 (Z.leb_gt _ _)) by lia.
  assert (Hfill : exists f1,
    (if buf_size f - buf_index f =? 0 then qemu_fill_buffer f else Ok f) = Ok f1 /\
    reading f1 rest /\ buf_index f1 < buf_size f1).
  { destruct (Z.eqb_spec (buf_size f - buf_index f) 0) as [Hc|Hc].
    - apply fill_reading; [done|lia|]. intros Hnil. subst rest. simpl in Hn. lia.
    - exists f. pose proof Hr as (_&_&_&_&Hi&_). split; [done|]. split; [done|lia]. }
  destruct Hfill as (f1 & -> & Hr1 & Hlt). cbn [rbind].
  rewrite (proj2 (Z.eqb_neq _ 0)) by lia.
  set (l := if _ <? _ then _ else _).
  assert (Hl : 0 < l <= n /\ l <= buf_size f1 - buf_index f1) by (unfold l; case_match; lia).
  destruct (reading_head f1 rest l Hr1 ltac:(lia)) as (Hh & Hlen & Hr2).
  destruct (IH (n - l) _ (drop (Z.to_nat l) rest) ltac:(lia) ltac:(rewrite length_drop; lia) Hr2) as (f2 & E2 & Hr3).
  rewrite E2. cbn [rbind]. exists f2. rewrite drop_drop in Hr3.
  replace (Z.to_nat l + Z.to_nat (n - l))%nat with (Z.to_nat n) in Hr3 by lia.
  split; [|done]. rewrite Hh. do 2 f_equal.
  replace (Z.to_nat n) with (Z.to_nat l + Z.to_nat (n - l))%nat by lia.
  by rewrite take_take_drop || rewrite <- firstn_skipn_comm.
Qed.

Lemma get_buffer_reading f b rest :
  reading f (b ++ rest) ->
  exists f', qemu_get_buffer f (Z.of_nat (length b)) = Ok (b, f') /\ reading f' rest.
Proof.
  intros Hr. unfold qemu_get_buffer. pose proof Hr as (_ & Hw & _). rewrite Hw.
  destruct (get_loop_reading (Z.to_nat (Z.of_nat (length b))) (Z.of_nat (length b)) f (b ++ rest))
    as (f' & E & Hr'); [done|rewrite length_app; lia|done|].
  rewrite Nat2Z.id in *. rewrite take_app_length in E. rewrite drop_app_length in Hr'. eauto.
Qed.

(** ** Integers as bytes *)

Definition be16 (v : Z) : list Z := [u8 (Z.shiftr v 8); u8 v].
Definition be32 (v : Z) : list Z :=
  [u8 (Z.shiftr v 24); u8 (Z.shiftr v 16); u8 (Z.shiftr v 8); u8 v].
Definition be64 (v : Z) : list Z := be32 (u32 (Z.shiftr v 32)) ++ be32 (u32 v).

(** Running a sequence of writes or reads, one at a time. *)
Local Ltac put_step :=
  match goal with H : writing ?f ?d |- context [qemu_put_byte ?f ?v] =>
    let f' := fresh "f" in let E := fresh "E" in let H' := fresh "H" in
    destruct (put_byte_writing f d v H) as (f' & E & H'); rewrite E; cbn [rbind]; clear H E
  end.
Local Ltac get_step :=
  match goal with H : reading ?f (?x :: ?r) |- context [qemu_get_byte ?f] =>
    let f' := fresh "f" in let E := fresh "E" in let H' := fresh "H" in
    destruct (get_byte_reading f x r H) as (f' & E & H'); rewrite E; cbn [rbind]; clear H E
  end.

Lemma put_be16_writing f data v :
  writing f data -> exists f', qemu_put_be16 f v = Ok f' /\ writing f' (data ++ be16 v).
Proof.
  intros H. unfold qemu_put_be16. repeat put_step. eexists. split; [done|].
  by rewrite <- !app_assoc in *.
Qed.

Lemma put_be32_writing f data v :
  writing f data -> exists f', qemu_put_be32 f v = Ok f' /\ writing f' (data ++ be32 v).
Proof.
  intros H. unfold qemu_put_be32. repeat put_step. eexists. split; [done|].
  by rewrite <- !app_assoc in *.
Qed.

Lemma put_be64_writing f data v :
  writing f data -> exists f', qemu_put_be64 f v = Ok f' /\ writing f' (data ++ be64 v).
Proof.
  intros H. unfold qemu_put_be64.
  destruct (put_be32_writing _ _ (u32 (Z.shiftr v 32)) H) as (f1 & -> & H1). cbn [rbind].
  destruct (put_be32_writing _ _ (u32 v) H1) as (f2 & E & H2). exists f2. split; [done|].
  unfold be64. by rewrite app_assoc.
Qed.

(** Reassembling a value from its bytes. *)
Local Ltac euclid :=
  change (2 ^ 8) with 256; change (2 ^ 16) with 65536; change (2 ^ 24) with 16777216;
  change (2 ^ 32) with 4294967296; Z.to_euclidean_division_equations; lia.

Lemma be16_value v : in_u16 v -> Z.lor (Z.shiftl (u8 (Z.shiftr v 8)) 8) (u8 v) = v.
Proof.
  intros Hv. unfold uwrap. rewrite Z.shiftl_mul_pow2, Z.shiftr_div_pow2 by lia.
  rewrite (lor_low 8) by euclid. euclid.
Qed.

Lemma be32_value v : in_u32 v ->
  Z.lor (Z.lor (Z.lor (Z.shiftl (u8 (Z.shiftr v 24)) 24) (Z.shiftl (u8 (Z.shiftr v 16)) 16))
    (Z.shiftl (u8 (Z.shiftr v 8)) 8)) (u8 v) = v.
Proof.
  intros Hv. unfold uwrap. rewrite !Z.shiftl_mul_pow2, !Z.shiftr_div_pow2 by lia.
  rewrite (lor_low 24 (_ * 2 ^ 24)) by euclid.
  rewrite (lor_low 16 (_ + _)) by euclid.
  rewrite (lor_low 8) by euclid. euclid.
Qed.

Lemma be64_value v : in_u64 v -> Z.lor (Z.shiftl (u32 (Z.shiftr v 32)) 32) (u32 v) = v.
Proof.
  intros Hv. unfold uwrap. rewrite Z.shiftl_mul_pow2, Z.shiftr_div_pow2 by lia.
  rewrite (lor_low 32) by euclid. euclid.
Qed.

Lemma get_be16_reading f v rest :
  in_u16 v -> reading f (be16 v ++ rest) ->
  exists f', qemu_get_be16 f = Ok (v, f') /\ reading f' rest.
Proof.
  intros Hv H. unfold qemu_get_be16, be16 in *. cbn [app] in H. repeat get_step.
  rewrite be16_value by done. eauto.
Qed.

Lemma get_be32_reading f v rest :
  in_u32 v -> reading f (be32 v ++ rest) ->
  exists f', qemu_get_be32 f = Ok (v, f') /\ reading f' rest.
Proof.
  intros Hv H. unfold qemu_get_be32, be32 in *. cbn [app] in H. repeat get_step.
  rewrite be32_value by done. eauto.
Qed.

Lemma get_be64_reading f v rest :
  in_u64 v -> reading f (be64 v ++ rest) ->
  exists f', qemu_get_be64 f = Ok (v, f') /\ reading f' rest.
Proof.
  intros Hv H. unfold qemu_get_be64, be64 in *. rewrite <- app_assoc in H.
  destruct (get_be32_reading f _ _ (uwrap_range 32 _ ltac:(lia)) H) as (f1 & -> & H1). cbn [rbind].
  destruct (get_be32_reading f1 _ _ (uwrap_range 32 _ ltac:(lia)) H1) as (f2 & -> & H2). cbn [rbind].
  rewrite be64_value by done. eauto.
Qed.

(** ** Records

    What the save functions write: a sequence of bytes, integers and buffers
    of known length. *)
Inductive item :=
| IByte (v : Z) | IBe16 (v : Z) | IBe32 (v : Z) | IBe64 (v : Z) | IBuf (b : list Z).

Definition put_item (f : QEMUFile) (it : item) : res QEMUFile :=
  match it with
  | IByte v => qemu_put_byte f v
  | IBe16 v => qemu_put_be16 f v
  | IBe32 v => qemu_put_be32 f v
  | IBe64 v => qemu_put_be64 f v
  | IBuf b => qemu_put_buffer f b
  end.

(** Reading an item of the same shape. *)
Definition get_item (f : QEMUFile) (it : item) : res (item * QEMUFile) :=
  match it with
  | IByte _ => let! (v, f) := qemu_get_byte f in Ok (IByte v, f)
  | IBe16 _ => let! (v, f) := qemu_get_be16 f in Ok (IBe16 v, f)
  | IBe32 _ => let! (v, f) := qemu_get_be32 f in Ok (IBe32 v, f)
  | IBe64 _ => let! (v, f) := qemu_get_be64 f in Ok (IBe64 v, f)
  | IBuf b => let! (v, f) := qemu_get_buffer f (Z.of_nat (length b)) in Ok (IBuf v, f)
  end.

Fixpoint put_items (f : QEMUFile) (its : list item) : res QEMUFile :=
  match its with
  | [] => Ok f
  | it :: its' => let! f := put_item f it in put_items f its'
  end.

Fixpoint get_items (f : QEMUFile) (its : list item) : res (list item * QEMUFile) :=
  match its with
  | [] => Ok ([], f)
  | it :: its' =>
      let! (v, f) := get_item f it in
      let! (vs, f) := get_items f its' in
      Ok (v :: vs, f)
  end.

Definition item_ok (it : item) : Prop :=
  match it with
  | IByte v => in_u8 v
  | IBe16 v => in_u16 v
  | IBe32 v => in_u32 v
  | IBe64 v => in_u64 v
  | IBuf b => True
  end.

Definition item_bytes (it : item) : list Z :=
  match it with
  | IByte v => [u8 v]
  | IBe16 v => be16 v
  | IBe32 v => be32 v
  | IBe64 v => be64 v
  | IBuf b => b
  end.
Definition items_bytes (its : list item) : list Z := concat (map item_bytes its).

Lemma put_item_writing f data it :
  writing f data -> exists f', put_item f it = Ok f' /\ writing f' (data ++ item_bytes it).
Proof.
  destruct it; simpl; [apply put_byte_writing|apply put_be16_writing|apply put_be32_writing|
    apply put_be64_writing|apply put_buffer_writing].
Qed.

Lemma get_item_reading f it rest :
  item_ok it -> reading f (item_bytes it ++ rest) ->
  exists f', get_item f it = Ok (it, f') /\ reading f' rest.
Proof.
  destruct it as [v|v|v|v|b]; simpl; intros Hok H.
  - rewrite uwrap_small in H by (simpl; lia).
    destruct (get_byte_reading _ _ _ H) as (f' & -> & ?). by exists f'.
  - destruct (get_be16_reading _ _ _ Hok H) as (f' & -> & ?). by exists f'.
  - destruct (get_be32_reading _ _ _ Hok H) as (f' & -> & ?). by exists f'.
  - destruct (get_be64_reading _ _ _ Hok H) as (f' & -> & ?). by exists f'.
  - destruct (get_buffer_reading _ _ _ H) as (f' & -> & ?). by exists f'.
Qed.

Lemma put_items_writing its f data :
  writing f data -> exists f', put_items f its = Ok f' /\ writing f' (data ++ items_bytes its).
Proof.
  revert f data. induction its as [|it its IH]; intros f data H.
  - exists f. by rewrite app_nil_r.
  - simpl. destruct (put_item_writing f data it H) as (f1 & -> & H1). cbn [rbind].
    destruct (IH f1 _ H1) as (f2 & E & H2). exists f2. split; [done|].
    unfold items_bytes in *. cbn [map concat]. by rewrite app_assoc.
Qed.

Lemma get_items_reading its f rest :
  Forall item_ok its -> reading f (items_bytes its ++ rest) ->
  exists f', get_items f its = Ok (its, f') /\ reading f' rest.
Proof.
  revert f. induction its as [|it its IH]; intros f Hok H.
  - by exists f.
  - apply Forall_cons_1 in Hok as [Hit Hits]. unfold items_bytes in *. cbn [map concat] in H.
    rewrite <- app_assoc in H. cbn [get_items].
    destruct (get_item_reading f it _ Hit H) as (f1 & -> & H1). cbn [rbind].
    destruct (IH f1 Hits H1) as (f2 & -> & H2). cbn [rbind]. by exists f2.
Qed.

(** C34: Whatever sequence of bytes, 16-, 32- and 64-bit integers and buffers
    is written to a fresh file, whatever its total length and however the
    items fall across the 32768-byte buffer, closing the file, reopening it
    and reading items of the same shapes gives the same values back, and
    neither side reports an error. *)
Theorem qemu_file_round_trip (its : list item) :
  Forall item_ok its ->
  exists f f', put_items qemu_fopen_wb its = Ok f /\ qemu_file_has_error f = false /\
    get_items (qemu_fopen_rb (qemu_fclose f)) its = Ok (its, f') /\
    qemu_file_has_error f' = false.
Proof.
  intros Hok. destruct (put_items_writing its _ _ writing_open) as (f & E & Hw).
  pose proof (fclose_writing _ _ Hw) as Hc. simpl in Hc.
  destruct (get_items_reading its (qemu_fopen_rb (qemu_fclose f)) []) as (f' & E' & Hr).
  { done. } { rewrite app_nil_r, Hc. apply reading_open. }
  exists f, f'. destruct Hw as (_ & He & _), Hr as (_ & _ & He' & _).
  split; [done|]. split; [done|]. split; done.
Qed.

Lemma qemu_file_round_trip_witness :
  exists f f',
    put_items qemu_fopen_wb [IBuf (replicate 32766 7); IBe32 0x80000001; IByte 255] = Ok f /\
    qemu_file_has_error f = false /\
    get_items (qemu_fopen_rb (qemu_fclose f)) [IBuf (replicate 32766 7); IBe32 0x80000001; IByte 255]
      = Ok ([IBuf (replicate 32766 7); IBe32 0x80000001; IByte 255], f') /\
    qemu_file_has_error f' = false.
Proof.
  apply (qemu_file_round_trip [IBuf (replicate 32766 7); IBe32 0x80000001; IByte 255]).
  constructor; [exact I|]. constructor; [simpl; lia|]. constructor; [simpl; lia|constructor].
Defined.

(** [qemu_put_struct] never returns: its [Q_FIELD_END] case leaves only
    the [switch], so the loop reads past the field array (or stops the
    emulator on a malformed list), for every field list. *)
Theorem put_struct_never_returns (field : Z -> nat -> Z) (field_bytes : Z -> Z -> list Z)
  (fields : list QField) (f f' : QEMUFile) :
  qemu_put_struct field field_bytes fields f <> Ok f'.
Proof.
  unfold qemu_put_struct. generalize fields at 2. intros qf. revert f.
  induction qf as [qf IH] using (induction_ltof1 _ (@length _)). unfold ltof in IH.
  intros f. destruct qf as [|q qf']; [done|]. cbn [put_struct_loop].
  assert (Hnext : forall (m : res QEMUFile),
    rbind m (put_struct_loop field field_bytes fields qf') <> Ok f').
  { intros m E. apply rbind_Ok in E as (f1 & _ & E). revert E. apply IH. simpl. lia. }
  destruct (qf_type q); try apply Hnext; try done.
  - apply IH. simpl. lia.
  - destruct (buffer_size fields) as [size|]; [|done]. intros E.
    apply rbind_Ok in E as (f1 & _ & E). destruct qf' as [|? [|? qf'']]; try done.
    revert E. apply IH. simpl. lia.
Qed.

(** Nor does [qemu_get_struct] ever report success. *)
Lemma get_struct_never_ok {S} (fields : list QField) (set_field : Z -> nat -> Z -> S -> S)
  (set_bytes : Z -> list Z -> S -> S) (s s' : S) (f f' : QEMUFile) :
  qemu_get_struct fields set_field set_bytes s f <> Ok (0, s', f').
Proof.
  unfold qemu_get_struct. generalize fields at 2. intros qf. revert s f.
  induction qf as [qf IH] using (induction_ltof1 _ (@length _)). unfold ltof in IH.
  intros s f. destruct qf as [|q qf']; [done|]. cbn [get_struct_loop].
  assert (Hnext : forall (m : res (Z * QEMUFile)) (g : Z -> S),
    (let! (v, f) := m in get_struct_loop fields set_field set_bytes qf' (g v) f) <> Ok (0, s', f')).
  { intros m g E. apply rbind_Ok in E as ([v f1] & _ & E). revert E. apply IH. simpl. lia. }
  destruct (qf_type q); try apply Hnext; try done.
  - apply IH. simpl. lia.
  - destruct (buffer_size fields) as [size|]; [|done]. intros E.
    apply rbind_Ok in E as ([b f1] & _ & E). destruct (negb _); [done|].
    destruct qf' as [|? [|? qf'']]; try done. revert E. apply IH. simpl. lia.
Qed.
