(* ===== verification/GoldfishTty.v ===== *)
(** * The goldfish serial port: [hw/goldfish_tty.c]

    The device is proved against three interfaces: the interrupt lines
    ([PicLines]), guest memory ([GuestMemory]) and the character backend. *)
From S2P Require Import Prelude Irq GoldfishInterrupt GuestMem GoldfishDevice Savevm.

(** A character backend: [qemu_chr_write] appends to what was sent. *)
Class CharBackend (K : Type) := {
  chr_write : list Z -> K -> K;
  chr_out : K -> list Z;
  chr_write_out b k : chr_out (chr_write b k) = chr_out k ++ b
}.

#[global] Instance memory_console : CharBackend (list Z) := {|
  chr_write b k := k ++ b;
  chr_out k := k;
  chr_write_out b k := eq_refl
|}.

Definition TTY_PUT_CHAR : Z := 0x00.
Definition TTY_BYTES_READY : Z := 0x04.
Definition TTY_CMD : Z := 0x08.
Definition TTY_DATA_PTR : Z := 0x10.
Definition TTY_DATA_LEN : Z := 0x14.
Definition TTY_CMD_INT_DISABLE : Z := 0.
Definition TTY_CMD_INT_ENABLE : Z := 1.
Definition TTY_CMD_WRITE_BUFFER : Z := 2.
Definition TTY_CMD_READ_BUFFER : Z := 3.

(** [struct tty_state]; [has_cs] says whether [cs] is not null. *)
Record tty_state := mkTty {
  dev : goldfish_device;
  has_cs : bool;
  ptr : Z;
  ptr_len : Z;
  ready : Z;
  data : list Z;
  data_count : Z
}.

Definition set_ready (s : tty_state) (r : Z) : tty_state :=
  mkTty (dev s) (has_cs s) (ptr s) (ptr_len s) r (data s) (data_count s).

(** [goldfish_tty_add]: the zeroed state of a new port, given its device as
    the bus has allocated it. *)
Definition goldfish_tty_init (d : goldfish_device) (cs : bool) : tty_state :=
  mkTty d cs 0 0 0 (replicate 128 0) 0.

Definition GOLDFISH_TTY_SAVE_VERSION : Z := 1.

Definition goldfish_tty_save (f : QEMUFile) (s : tty_state) : res QEMUFile :=
  let! f := qemu_put_be32 f (ptr s) in
  let! f := qemu_put_be32 f (ptr_len s) in
  let! f := qemu_put_byte f (ready s) in
  let! f := qemu_put_byte f (data_count s) in
  if Z.of_nat (length (data s)) <? data_count s then Undef
  else qemu_put_buffer f (take (Z.to_nat (data_count s)) (data s)).

(** [qemu_get_buffer] stores [data_count] bytes into [data]. *)
Definition goldfish_tty_load (f : QEMUFile) (s : tty_state) (version_id : Z)
  : res (Z * tty_state * QEMUFile) :=
  if negb (version_id =? GOLDFISH_TTY_SAVE_VERSION) then Ok (-1, s, f) else
  let! (p, f) := qemu_get_be32 f in
  let! (pl, f) := qemu_get_be32 f in
  let! (r, f) := qemu_get_byte f in
  let! (n, f) := qemu_get_byte f in
  let! (b, f) := qemu_get_buffer f n in
  if Z.of_nat (length (data s)) <? Z.of_nat (length b) then Undef
  else Ok (0, mkTty (dev s) (has_cs s) p pl r (splice (data s) 0 b) n, f).

Definition goldfish_tty_read (offset : Z) (s : tty_state) : res Z :=
  if offset =? TTY_BYTES_READY then Ok (data_count s) else Abort.

Section Tty.
Context {W : Type} (pic : list (qemu_irq W)).
Context {M : Type} `{GM : GuestMemory M} {K : Type} `{CB : CharBackend K}.

(** [while (len)] of [TTY_CMD_WRITE_BUFFER]. A chunk the guest memory cannot
    give leaves [temp] uninitialised, a negative length is outside what
    [qemu_chr_write] accepts. *)
Fixpoint tty_send (fuel : nat) (buf len : Z) (m : M) (k : K) : res (M * K) :=
  if len =? 0 then Ok (m, k) else
  match fuel with
  | O => Undef
  | S fuel =>
      let to_write := if len <? 64 then len else 64 in
      if to_write <? 0 then Undef else
      let! (r, temp, m) := gm_read buf to_write m in
      if negb (Z.of_nat (length temp) =? to_write) then Undef else
      tty_send fuel (u32 (buf + to_write)) (len - to_write) m (chr_write temp k)
  end.

(** The [TTY_CMD_READ_BUFFER] command. *)
Definition tty_cmd_read_buffer (s : tty_state) (w : W) (m : M) (k : K)
  : res (tty_state * W * M * K) :=
  if data_count s <? ptr_len s then Abort
  else if Z.of_nat (length (data s)) <? ptr_len s then Undef
  else
    let! (_, m) := gm_write (ptr s) (take (Z.to_nat (ptr_len s)) (data s)) m in
    let d := if ptr_len s <? data_count s then
               splice (data s) 0 (take (Z.to_nat (data_count s - ptr_len s))
                                    (drop (Z.to_nat (ptr_len s)) (data s)))
             else data s in
    let count := u32 (data_count s - ptr_len s) in
    let s := mkTty (dev s) (has_cs s) (ptr s) (ptr_len s) (ready s) d count in
    let! w := if (count =? 0) && ctrue (ready s)
              then goldfish_device_set_irq pic (dev s) 0 0 w else Ok w in
    Ok (s, w, m, k).

Definition goldfish_tty_write (offset value : Z) (s : tty_state) (w : W) (m : M) (k : K)
  : res (tty_state * W * M * K) :=
  if offset =? TTY_PUT_CHAR then
    Ok (s, w, m, if has_cs s then chr_write [u8 value] k else k)
  else if offset =? TTY_CMD then
    if value =? TTY_CMD_INT_DISABLE then
      if ctrue (ready s) then
        let! w := if 0 <? data_count s then goldfish_device_set_irq pic (dev s) 0 0 w else Ok w in
        Ok (set_ready s 0, w, m, k)
      else Ok (s, w, m, k)
    else if value =? TTY_CMD_INT_ENABLE then
      if negb (ctrue (ready s)) then
        let! w := if 0 <? data_count s then goldfish_device_set_irq pic (dev s) 0 1 w else Ok w in
        Ok (set_ready s 1, w, m, k)
      else Ok (s, w, m, k)
    else if value =? TTY_CMD_WRITE_BUFFER then
      if has_cs s then
        let len := s32 (ptr_len s) in
        let! (m, k) := tty_send (Z.to_nat len) (ptr s) len m k in
        Ok (s, w, m, k)
      else Ok (s, w, m, k)
    else if value =? TTY_CMD_READ_BUFFER then
      tty_cmd_read_buffer s w m k
    else Abort
  else if offset =? TTY_DATA_PTR then
    Ok (mkTty (dev s) (has_cs s) value (ptr_len s) (ready s) (data s) (data_count s), w, m, k)
  else if offset =? TTY_DATA_LEN then
    Ok (mkTty (dev s) (has_cs s) (ptr s) value (ready s) (data s) (data_count s), w, m, k)
  else Abort.

Definition tty_can_receive (s : tty_state) : Z := s32 (u32 (128 - data_count s)).

(** [memcpy] past the end of [data] is undefined. *)
Definition tty_receive (b : list Z) (s : tty_state) (w : W) : res (tty_state * W) :=
  let size := Z.of_nat (length b) in
  if Z.of_nat (length (data s)) <? data_count s + size then Undef else
  let s := mkTty (dev s) (has_cs s) (ptr s) (ptr_len s) (ready s)
             (splice (data s) (Z.to_nat (data_count s)) b) (u32 (data_count s + size)) in
  let! w := if (0 <? data_count s) && ctrue (ready s)
            then goldfish_device_set_irq pic (dev s) 0 1 w else Ok w in
  Ok (s, w).

(** ** The port as a queue *)

(** The bytes received and not yet read. *)
Definition queue (s : tty_state) : list Z := take (Z.to_nat (data_count s)) (data s).

Definition tty_wf (s : tty_state) : Prop :=
  length (data s) = 128%nat /\ 0 <= data_count s <= 128 /\ in_u32 (ptr_len s) /\ owns_line (dev s) 0.

Context `{P : PicLines W pic}.

(** The interrupt line is high exactly when interrupts are enabled and the
    queue is not empty. *)
Definition tty_line (s : tty_state) (w : W) : Prop :=
  pic_ok w /\ line_level w (irq (dev s)) = ctrue (ready s) && (0 <? data_count s).

Lemma tty_set_irq s w level :
  tty_wf s -> pic_ok w ->
  exists w', goldfish_device_set_irq pic (dev s) 0 level w = Ok w' /\ pic_ok w' /\
    line_level w' (irq (dev s)) = ctrue level.
Proof.
  intros (_ & _ & _ & Ho) Hw.
  destruct (device_set_irq_ok pic (dev s) 0 level w Ho Hw) as (w' & E & Hok & Hl & _).
  rewrite Z.add_0_r in Hl. by exists w'.
Qed.

Lemma length_queue s : tty_wf s -> Z.of_nat (length (queue s)) = data_count s.
Proof. intros (Hl & Hc & _). unfold queue. rewrite length_take. lia. Qed.

(** Receiving what fits appends to the queue and keeps the line right. *)
Lemma tty_receive_spec b s w :
  tty_wf s -> tty_line s w -> Z.of_nat (length b) <= 128 - data_count s ->
  exists s' w', tty_receive b s w = Ok (s', w') /\ tty_wf s' /\ tty_line s' w' /\
    queue s' = queue s ++ b /\ ready s' = ready s /\ dev s' = dev s.
Proof.
  intros Hwf [Hpic Hl] Hfit. pose proof Hwf as (Hd & Hc & Hp & Ho).
  unfold tty_receive. rewrite Hd, (proj2 (Z.ltb_ge _ _)) by lia.
  rewrite uwrap_small by lia.
  set (s' := mkTty _ _ _ _ _ _ _).
  assert (Hwf' : tty_wf s').
  { unfold tty_wf. cbn. rewrite length_splice. split; [done|]. split; [lia|done]. }
  assert (Hq : queue s' = queue s ++ b).
  { unfold queue. cbn.
    rewrite <- (take_drop (Z.to_nat (data_count s)) (data s)) at 1.
    rewrite <- (take_drop (length b) (drop _ (data s))).
    rewrite splice_app by (rewrite ?length_take, ?length_drop; lia).
    rewrite app_assoc. apply take_app_length'. rewrite length_app, length_take. lia. }
  change (data_count s') with (data_count s + Z.of_nat (length b)).
  change (ready s') with (ready s). change (dev s') with (dev s).
  destruct ((0 <? data_count s + Z.of_nat (length b)) && ctrue (ready s)) eqn:E.
  - destruct (tty_set_irq s w 1 Hwf Hpic) as (w' & E' & Hok & Hl'). rewrite E'.
    exists s', w'. split; [done|]. split; [done|]. split; [|done]. split; [done|].
    cbn. rewrite Hl'. apply andb_true_iff in E as [-> ->]. done.
  - exists s', w. split; [done|]. split; [done|]. split; [|done]. split; [done|].
    change (line_level w (irq (dev s))
      = ctrue (ready s) && (0 <? data_count s + Z.of_nat (length b))).
    rewrite Hl, (andb_comm (ctrue _) (0 <? _ + _)), E.
    apply andb_false_iff in E as [E|E]; [|by rewrite E].
    apply Z.ltb_ge in E. rewrite (proj2 (Z.ltb_ge _ _)) by lia. apply andb_false_r.
Qed.

(** *** Guest commands *)

Definition is_read_buffer (offset value : Z) : bool := (offset =? TTY_CMD) && (value =? TTY_CMD_READ_BUFFER).

(** The bytes a register write takes from the queue. *)
Definition popped (offset value : Z) (s : tty_state) : list Z :=
  if is_read_buffer offset value then take (Z.to_nat (ptr_len s)) (queue s) else [].

Lemma tty_enable_spec s w m k :
  tty_wf s -> tty_line s w ->
  exists s' w', goldfish_tty_write TTY_CMD TTY_CMD_INT_ENABLE s w m k = Ok (s', w', m, k) /\
    tty_wf s' /\ tty_line s' w' /\ queue s' = queue s /\ ctrue (ready s') = true.
Proof.
  intros Hwf Hline. pose proof Hline as [Hpic Hl].
  unfold goldfish_tty_write. cbn -[goldfish_device_set_irq Z.ltb].
  destruct (ctrue (ready s)) eqn:Er; cbn [negb]; [by exists s, w|].
  destruct (0 <? data_count s) eqn:Ec.
  - destruct (tty_set_irq s w 1 Hwf Hpic) as (w' & -> & Hok & Hl').
    exists (set_ready s 1), w'. split; [done|]. split; [done|]. split; [|done].
    split; [done|]. cbn -[Z.ltb]. by rewrite Hl', Ec.
  - exists (set_ready s 1), w. split; [done|]. split; [done|]. split; [|done].
    split; [done|]. cbn -[Z.ltb]. by rewrite Hl, Ec, andb_false_r.
Qed.

Lemma tty_disable_spec s w m k :
  tty_wf s -> tty_line s w ->
  exists s' w', goldfish_tty_write TTY_CMD TTY_CMD_INT_DISABLE s w m k = Ok (s', w', m, k) /\
    tty_wf s' /\ tty_line s' w' /\ queue s' = queue s /\ ctrue (ready s') = false.
Proof.
  intros Hwf Hline. pose proof Hline as [Hpic Hl].
  unfold goldfish_tty_write. cbn -[goldfish_device_set_irq Z.ltb].
  destruct (ctrue (ready s)) eqn:Er; [|by exists s, w].
  destruct (0 <? data_count s) eqn:Ec.
  - destruct (tty_set_irq s w 0 Hwf Hpic) as (w' & -> & Hok & Hl').
    exists (set_ready s 0), w'. split; [done|]. split; [done|]. split; [|done].
    split; [done|]. cbn -[Z.ltb]. by rewrite Hl'.
  - exists (set_ready s 0), w. split; [done|]. split; [done|]. split; [|done].
    split; [done|]. cbn -[Z.ltb]. by rewrite Hl.
Qed.

(** The state part of [TTY_CMD_READ_BUFFER]: the queue loses its front. *)
Lemma tty_pop_queue s n :
  tty_wf s -> 0 <= n <= data_count s ->
  let d := if n <? data_count s then
             splice (data s) 0 (take (Z.to_nat (data_count s - n)) (drop (Z.to_nat n) (data s)))
           else data s in
  length d = 128%nat /\ take (Z.to_nat (data_count s - n)) d = drop (Z.to_nat n) (queue s).
Proof.
  intros (Hd & Hc & _) Hn d. unfold d, queue. destruct (Z.ltb_spec n (data_count s)) as [Hlt|Hge].
  - rewrite length_splice. split; [done|].
    set (front := take (Z.to_nat (data_count s - n)) (drop (Z.to_nat n) (data s))).
    assert (Hf : length front = Z.to_nat (data_count s - n)).
    { unfold front. rewrite length_take, length_drop. lia. }
    pose proof (splice_app [] (take (length front) (data s)) (drop (length front) (data s))
                  front 0 eq_refl) as Hs.
    rewrite !app_nil_l, take_drop in Hs. rewrite Hs by (rewrite length_take; lia).
    rewrite <- Hf, take_app_length. unfold front. rewrite skipn_firstn_comm. f_equal. lia.
  - split; [done|]. replace (data_count s - n) with 0 by lia.
    rewrite drop_ge; [done|]. rewrite length_take. lia.
Qed.

Lemma tty_pop_spec s w m k r m' :
  tty_wf s -> tty_line s w -> ptr_len s <= data_count s ->
  gm_write (ptr s) (take (Z.to_nat (ptr_len s)) (data s)) m = Ok (r, m') ->
  exists s' w', tty_cmd_read_buffer s w m k = Ok (s', w', m', k) /\
    tty_wf s' /\ tty_line s' w' /\
    queue s = take (Z.to_nat (ptr_len s)) (queue s) ++ queue s'.
Proof.
  intros Hwf [Hpic Hl] Hle Hgm. pose proof Hwf as (Hd & Hc & Hp & Ho).
  destruct (tty_pop_queue s (ptr_len s) Hwf ltac:(lia)) as [Hd' Hq].
  unfold tty_cmd_read_buffer. rewrite (proj2 (Z.ltb_ge (data_count s) _)) by done.
  rewrite Hd, (proj2 (Z.ltb_ge (Z.of_nat 128) _)), Hgm by lia.
  cbn [rbind]. set (d := if ptr_len s <? data_count s then _ else _) in *.
  rewrite uwrap_small by lia. set (s' := mkTty _ _ _ _ _ _ _).
  assert (Hwf' : tty_wf s') by (unfold tty_wf; cbn; split; [done|]; split; [lia|done]).
  assert (Hres : queue s = take (Z.to_nat (ptr_len s)) (queue s) ++ queue s').
  { unfold queue at 3. cbn [data data_count s']. by rewrite Hq, take_drop. }
  destruct ((data_count s - ptr_len s =? 0) && ctrue (ready s')) eqn:E.
  - destruct (tty_set_irq s' w 0 Hwf' Hpic) as (w' & -> & Hok & Hl'). cbn [rbind].
    exists s', w'. split; [done|]. split; [done|]. split; [|done]. split; [done|].
    rewrite Hl'. apply andb_true_iff in E as [E _]. apply Z.eqb_eq in E.
    change (data_count s') with (data_count s - ptr_len s). by rewrite E, andb_false_r.
  - exists s', w. split; [done|]. split; [done|]. split; [|done]. split; [done|].
    change (dev s') with (dev s). change (ready s') with (ready s) in *. rewrite Hl.
    change (data_count s') with (data_count s - ptr_len s).
    destruct (ctrue (ready s)); [|done]. simpl. rewrite andb_true_r in E.
    apply Z.eqb_neq in E. destruct (Z.ltb_spec 0 (data_count s - ptr_len s)); [|lia].
    by rewrite (proj2 (Z.ltb_lt _ _)) by lia.
Qed.

Lemma take_queue s : tty_wf s -> ptr_len s <= data_count s ->
  take (Z.to_nat (ptr_len s)) (queue s) = take (Z.to_nat (ptr_len s)) (data s).
Proof. intros (_ & ? & ? & _) Hle. unfold queue. rewrite take_take. f_equal. lia. Qed.

(** *** Sending *)

(** Any part of a guest buffer is a guest buffer. *)
Definition sub_ok (m : M) (a n : Z) : Prop :=
  forall i j, 0 <= i -> 0 <= j -> i + j <= n -> gm_ok m (a + i) j.

Lemma tty_send_spec fuel a n m k :
  (Z.to_nat n <= fuel)%nat -> 0 <= n -> 0 <= a -> a + n <= 4294967296 -> sub_ok m a n ->
  exists m' k', tty_send fuel a n m k = Ok (m', k') /\
    chr_out k' = chr_out k ++ guest_bytes m a (Z.to_nat n).
Proof.
  revert a n m k. induction fuel as [|fuel IH]; intros a n m k Hf Hn Ha Hw Hok;
    (destruct (decide (n = 0)) as [->|Hz]; [exists m, k; simpl; by rewrite app_nil_r|]); [lia|].
  cbn [tty_send]. rewrite (proj2 (Z.eqb_neq n 0)) by done.
  set (l := if n <? 64 then n else 64).
  assert (Hl : 0 < l <= n) by (unfold l; case_match; lia).
  rewrite (proj2 (Z.ltb_ge l 0)) by lia.
  destruct (gm_read_ok m a l) as (m1 & -> & Hb & Hk).
  { rewrite <- (Z.add_0_r a). apply Hok; lia. }
  cbn [rbind]. rewrite length_map, length_seq, Z2Nat.id, Z.eqb_refl by lia. cbn [negb].
  fold (guest_bytes m a (Z.to_nat l)).
  assert (Hext : forall a' n', guest_bytes m1 a' n' = guest_bytes m a' n').
  { intros. unfold guest_bytes. apply map_ext. intros. by rewrite Hb. }
  destruct (decide (n - l = 0)) as [Hend|Hmore].
  - rewrite Hend. replace l with n by lia. destruct fuel; cbn; eexists _, _;
      (split; [done|]); by rewrite chr_write_out.
  - rewrite uwrap_small by lia.
    destruct (IH (a + l) (n - l) m1 (chr_write (guest_bytes m a (Z.to_nat l)) k))
      as (m2 & k2 & -> & Hout); try lia.
    { intros i j Hi Hj Hij. apply Hk. rewrite <- Z.add_assoc. apply Hok; lia. }
    exists m2, k2. split; [done|]. rewrite Hout, chr_write_out, Hext, <- app_assoc. f_equal.
    replace (Z.to_nat n) with (Z.to_nat l + Z.to_nat (n - l))%nat by lia.
    by rewrite guest_bytes_app, Z2Nat.id by lia.
Qed.

(** *** Traces *)

Inductive tty_op := Recv (b : list Z) | Wr (offset value : Z).

Definition tty_exec (op : tty_op) (st : tty_state * W * M * K) : res (tty_state * W * M * K) :=
  let '(s, w, m, k) := st in
  match op with
  | Recv b => let! (s, w) := tty_receive b s w in Ok (s, w, m, k)
  | Wr offset value => goldfish_tty_write offset value s w m k
  end.

(** The bytes a register write hands to the guest: what the guest then finds
    in its memory, in the buffer it gave. *)
Definition delivered (offset value : Z) (s : tty_state) (m' : M) : list Z :=
  if is_read_buffer offset value then guest_bytes m' (ptr s) (Z.to_nat (ptr_len s)) else [].

(** The run of a sequence of operations, with the bytes handed to the
    guest. *)
Fixpoint tty_run (ops : list tty_op) (st : tty_state * W * M * K)
  : res (list Z * (tty_state * W * M * K)) :=
  match ops with
  | [] => Ok ([], st)
  | op :: ops' =>
      let! st' := tty_exec op st in
      let d := match op with Recv _ => [] | Wr o v => delivered o v st.1.1.1 st'.1.2 end in
      let! (ds, st') := tty_run ops' st' in
      Ok (d ++ ds, st')
  end.

(** The guest reads into buffers of its memory: at every
    [TTY_CMD_READ_BUFFER] of the run, the address and the length it has set
    give a buffer. *)
Fixpoint reads_into_buffers (ops : list tty_op) (st : tty_state * W * M * K) : Prop :=
  match ops with
  | [] => True
  | op :: ops' =>
      match op with
      | Recv _ => True
      | Wr o v => is_read_buffer o v = true -> gm_ok st.1.2 (ptr st.1.1.1) (ptr_len st.1.1.1)
      end /\
      forall st', tty_exec op st = Ok st' -> reads_into_buffers ops' st'
  end.

Definition received (ops : list tty_op) : list Z :=
  concat (map (fun op => match op with Recv b => b | Wr _ _ => [] end) ops).

Definition op_ok (op : tty_op) : Prop :=
  match op with Recv _ => True | Wr _ v => in_u32 v end.

(** A write that returns keeps the invariant, and takes from the queue what
    it delivers. *)
Lemma tty_write_inv offset value s w m k s' w' m' k' :
  tty_wf s -> tty_line s w -> in_u32 value ->
  goldfish_tty_write offset value s w m k = Ok (s', w', m', k') ->
  tty_wf s' /\ tty_line s' w' /\ queue s = popped offset value s ++ queue s'.
Proof.
  intros Hwf Hline Hv. unfold popped, is_read_buffer.
  destruct (Z.eqb_spec offset TTY_CMD) as [->|Hoff].
  - destruct (Z.eqb_spec value TTY_CMD_READ_BUFFER) as [->|Hval].
    + change (goldfish_tty_write TTY_CMD TTY_CMD_READ_BUFFER s w m k)
        with (tty_cmd_read_buffer s w m k). intros E. simpl andb. cbv iota.
      assert (ptr_len s <= data_count s) as Hle.
      { unfold tty_cmd_read_buffer in E. destruct (Z.ltb_spec (data_count s) (ptr_len s)); done. }
      assert (exists r m1, gm_write (ptr s) (take (Z.to_nat (ptr_len s)) (data s)) m = Ok (r, m1))
        as (r & m1 & Hgm).
      { unfold tty_cmd_read_buffer in E.
        destruct (data_count s <? ptr_len s); [done|].
        destruct (Z.of_nat (length (data s)) <? ptr_len s); [done|].
        apply rbind_Ok in E as ([r m1] & E & _). eauto. }
      destruct (tty_pop_spec s w m k r m1 Hwf Hline Hle Hgm) as (s1 & w1 & E1 & ? & ? & ?).
      rewrite E1 in E. by injection E as <- <- <- <-.
    + destruct (Z.eqb_spec value TTY_CMD_INT_ENABLE) as [->|Hen].
      { destruct (tty_enable_spec s w m k Hwf Hline) as (s1 & w1 & E1 & ? & ? & Hq & _).
        rewrite E1. intros [= <- <- <- <-]. by rewrite Hq. }
      destruct (Z.eqb_spec value TTY_CMD_INT_DISABLE) as [->|Hdis].
      { destruct (tty_disable_spec s w m k Hwf Hline) as (s1 & w1 & E1 & ? & ? & Hq & _).
        rewrite E1. intros [= <- <- <- <-]. by rewrite Hq. }
      unfold goldfish_tty_write. rewrite Z.eqb_refl.
      rewrite (proj2 (Z.eqb_neq value TTY_CMD_INT_DISABLE)),
        (proj2 (Z.eqb_neq value TTY_CMD_INT_ENABLE)),
        (proj2 (Z.eqb_neq value TTY_CMD_READ_BUFFER)) by done.
      change (TTY_CMD =? TTY_PUT_CHAR) with false. cbv iota.
      intros E. repeat case_match; try done.
      * apply rbind_Ok in E as ([m1 k1] & _ & [= <- <- <- <-]). done.
      * by injection E as <- <- <- <-.
  - unfold goldfish_tty_write. rewrite (proj2 (Z.eqb_neq offset TTY_CMD)) by done.
    intros E. pose proof Hwf as (? & ? & ? & ?).
    repeat case_match; try done; injection E as <- <- <- <-; done.
Qed.

(** What the guest finds in its buffer is what left the queue. *)
Lemma delivered_popped offset value s w m k s' w' m' k' :
  tty_wf s -> goldfish_tty_write offset value s w m k = Ok (s', w', m', k') ->
  (is_read_buffer offset value = true -> gm_ok m (ptr s) (ptr_len s)) ->
  delivered offset value s m' = popped offset value s.
Proof.
  intros Hwf E Hok. unfold delivered, popped. destruct (is_read_buffer offset value) eqn:Er; [|done]. specialize (Hok eq_refl).
  unfold is_read_buffer in Er. apply andb_true_iff in Er as [->%Z.eqb_eq ->%Z.eqb_eq].
  change (goldfish_tty_write TTY_CMD TTY_CMD_READ_BUFFER s w m k) with (tty_cmd_read_buffer s w m k) in E.
  pose proof Hwf as (Hd & Hc & Hpl & _). unfold tty_cmd_read_buffer in E.
  destruct (Z.ltb_spec (data_count s) (ptr_len s)) as [|Hle]; [done|]. destruct (Z.of_nat (length (data s)) <? ptr_len s); [done|].
  set (b := take (Z.to_nat (ptr_len s)) (data s)) in E. assert (Hb : length b = Z.to_nat (ptr_len s)) by (unfold b; rewrite length_take; lia).
  destruct (gm_write_ok m (ptr s) b) as (m1 & Hw & Hbytes & _); [by rewrite Hb, Z2Nat.id by lia|]. rewrite Hw in E. cbn [rbind] in E.
  apply rbind_Ok in E as (w1 & _ & [= <- <- <- <-]). rewrite take_queue by done. fold b. rewrite <- Hb. by apply guest_bytes_written.
Qed.

Lemma tty_run_inv ops s w m k ds s' w' m' k' :
  tty_wf s -> tty_line s w -> Forall op_ok ops -> reads_into_buffers ops (s, w, m, k) ->
  tty_run ops (s, w, m, k) = Ok (ds, (s', w', m', k')) ->
  tty_wf s' /\ tty_line s' w' /\ queue s ++ received ops = ds ++ queue s'.
Proof.
  revert s w m k ds. induction ops as [|op ops IH]; intros s w m k ds Hwf Hline Hok Hrd.
  - intros [= <- <- <- <- <-]. by rewrite app_nil_r.
  - inversion Hok as [|? ? Hop Hops]; subst. destruct Hrd as [Hbuf Hrd]. cbn [tty_run fst snd].
    intros E. apply rbind_Ok in E as ([[[s1 w1] m1] k1] & E1 & E).
    apply rbind_Ok in E as ([ds2 st2] & E2 & E). injection E as <- ->. specialize (Hrd _ E1).
    unfold received in *. cbn [map concat]. destruct op as [b|o v].
    + cbn [tty_exec] in E1. apply rbind_Ok in E1 as ([s2 w2] & E1 & [= -> -> -> ->]).
      assert (Z.of_nat (length b) <= 128 - data_count s) as Hfit.
      { pose proof Hwf as (Hd & _). unfold tty_receive in E1. rewrite Hd in E1.
        destruct (Z.ltb_spec (Z.of_nat 128) (data_count s + Z.of_nat (length b))); [done|lia]. }
      destruct (tty_receive_spec b s w Hwf Hline Hfit) as (s3 & w3 & E3 & Hwf3 & Hl3 & Hq & _).
      rewrite E3 in E1. injection E1 as -> ->.
      destruct (IH _ _ _ _ _ Hwf3 Hl3 Hops Hrd E2) as (? & ? & Heq).
      split; [done|]. split; [done|]. by rewrite app_assoc, <- Hq.
    + destruct (tty_write_inv _ _ _ _ _ _ _ _ _ _ Hwf Hline Hop E1) as (Hwf3 & Hl3 & Hq).
      destruct (IH _ _ _ _ _ Hwf3 Hl3 Hops Hrd E2) as (? & ? & Heq).
      split; [done|]. split; [done|]. cbn [fst snd]. rewrite (delivered_popped _ _ _ _ _ _ _ _ _ _ Hwf E1 Hbuf).
      by rewrite Hq, <- !app_assoc, <- Heq.
Qed.
End Tty.

(** *** Snapshots *)

Definition tty_bytes (s : tty_state) : list Z :=
  be32 (ptr s) ++ be32 (ptr_len s) ++ [u8 (ready s)] ++ [u8 (data_count s)] ++ queue s.

Lemma tty_save_writing f d s :
  tty_wf s -> writing f d ->
  exists f', goldfish_tty_save f s = Ok f' /\ writing f' (d ++ tty_bytes s).
Proof.
  intros (Hd & Hc & _) H. unfold goldfish_tty_save.
  destruct (put_be32_writing _ _ (ptr s) H) as (f1 & -> & H1). cbn [rbind].
  destruct (put_be32_writing _ _ (ptr_len s) H1) as (f2 & -> & H2). cbn [rbind].
  destruct (put_byte_writing _ _ (ready s) H2) as (f3 & -> & H3). cbn [rbind].
  destruct (put_byte_writing _ _ (data_count s) H3) as (f4 & -> & H4). cbn [rbind].
  rewrite (proj2 (Z.ltb_ge _ _)) by lia.
  destruct (put_buffer_writing _ _ (queue s) H4) as (f5 & E & H5).
  exists f5. split; [done|]. unfold tty_bytes. by rewrite <- !app_assoc in H5.
Qed.

Lemma tty_load_reading f s s0 rest :
  tty_wf s -> tty_wf s0 -> in_u32 (ptr s) -> in_u8 (ready s) ->
  reading f (tty_bytes s ++ rest) ->
  exists s' f', goldfish_tty_load f s0 GOLDFISH_TTY_SAVE_VERSION = Ok (0, s', f') /\
    reading f' rest /\ tty_wf s' /\ dev s' = dev s0 /\ ptr s' = ptr s /\ ptr_len s' = ptr_len s /\
    ready s' = ready s /\ data_count s' = data_count s /\ queue s' = queue s.
Proof.
  intros Hwf (Hd0 & _ & _ & Ho) Hp Hr H. pose proof Hwf as (Hd & Hc & Hpl & _).
  unfold tty_bytes in H. rewrite <- !app_assoc in H. unfold goldfish_tty_load.
  rewrite Z.eqb_refl. cbn [negb].
  destruct (get_be32_reading _ _ _ Hp H) as (f1 & -> & H1). cbn [rbind].
  destruct (get_be32_reading _ _ _ Hpl H1) as (f2 & -> & H2). cbn [rbind].
  rewrite (uwrap_small 8 (ready s)), (uwrap_small 8 (data_count s)) in H2 by (simpl; lia).
  destruct (get_byte_reading _ _ _ H2) as (f3 & -> & H3). cbn [rbind].
  destruct (get_byte_reading _ _ _ H3) as (f4 & -> & H4). cbn [rbind].
  pose proof (length_queue s Hwf) as Hlq.
  destruct (get_buffer_reading _ _ _ H4) as (f5 & E5 & H5). rewrite Hlq in E5. rewrite E5. cbn [rbind].
  rewrite (proj2 (Z.ltb_ge _ _)) by lia. eexists _, f5. split; [done|]. split; [done|].
  unfold tty_wf. cbn. rewrite length_splice. split; [by split; [|split]|].
  do 5 (split; [done|]). unfold queue at 1. cbn.
  pose proof (splice_app [] (take (length (queue s)) (data s0)) (drop (length (queue s)) (data s0))
                (queue s) 0 eq_refl) as Hs.
  rewrite !app_nil_l, take_drop in Hs. rewrite Hs by (rewrite length_take; lia).
  apply take_app_length'. lia.
Qed.

(** ** Properties *)

(** C13: The serial port is a first-in first-out queue with a level-triggered
    interrupt. Starting from a new port with its line low, after any sequence
    of receptions from the host and register writes by the guest that reads
    into buffers of its memory, the bytes the guest finds in these buffers
    after its reads, followed by the bytes still queued, are exactly the bytes
    received, in order; the queue never exceeds its 128 bytes; and the
    interrupt line is high exactly when interrupts are enabled and the queue
    is not empty. *)
Theorem tty_fifo {W : Type} (pic : list (qemu_irq W)) `{P : PicLines W pic}
  {M : Type} `{GM : GuestMemory M} {K : Type} `{CB : CharBackend K}
  (d : goldfish_device) (cs : bool) (w : W) (m : M) (k : K) (ops : list tty_op)
  ds s' w' m' k' :
  owns_line d 0 -> pic_ok w -> line_level w (irq d) = false -> Forall op_ok ops ->
  reads_into_buffers pic ops (goldfish_tty_init d cs, w, m, k) ->
  tty_run pic ops (goldfish_tty_init d cs, w, m, k) = Ok (ds, (s', w', m', k')) ->
  received ops = ds ++ queue s' /\ Z.of_nat (length (queue s')) = data_count s' /\
  0 <= data_count s' <= 128 /\
  line_level w' (irq (dev s')) = ctrue (ready s') && (0 <? data_count s').
Proof.
  intros Ho Hw Hl Hops Hrd E.
  destruct (tty_run_inv pic ops (goldfish_tty_init d cs) w m k ds s' w' m' k') as (Hwf & [_ Hl'] & Hq);
    try done.
  pose proof (length_queue s' Hwf). destruct Hwf as (_ & Hc & _). done.
Qed.

(** The memory of two pages, without I/O. *)
#[local] Instance demo_guest_memory : GuestMemory (PhysMem * unit) :=
  exec_guest_memory (fun _ _ _ _ => Abort) demo_tr.

Definition tty_dev : goldfish_device := default (mkDev 0 [] 0 0 0 0 0)
  (devices (android_arm_init_devices full_config) !! 4%nat).
Definition demo_ops : list tty_op :=
  [Wr TTY_CMD TTY_CMD_INT_ENABLE; Recv [1; 2; 3; 4]; Wr TTY_DATA_PTR 0x23ff;
   Wr TTY_DATA_LEN 2; Wr TTY_CMD TTY_CMD_READ_BUFFER; Recv [5]].

Lemma tty_fifo_witness :
  exists ds s' w' m' k',
    tty_run arm_pic demo_ops (goldfish_tty_init tty_dev true, pic0, (demo_mem, tt), @nil Z)
      = Ok (ds, (s', w', m', k')) /\ ds = [1; 2] /\
    received demo_ops = ds ++ queue s' /\ Z.of_nat (length (queue s')) = data_count s' /\
    0 <= data_count s' <= 128 /\
    line_level w' (irq (dev s')) = ctrue (ready s') && (0 <? data_count s').
Proof.
  eexists _, _, _, _, _. split; [vm_compute; reflexivity|]. split; [reflexivity|].
  refine (tty_fifo arm_pic tty_dev true pic0 (demo_mem, tt) [] demo_ops _ _ _ _ _ _ int_wf_init
            eq_refl _ _ eq_refl).
  - unfold owns_line. simpl. lia.
  - unfold demo_ops. repeat (apply List.Forall_cons; [first [exact I|split; vm_compute; congruence]|]).
    apply List.Forall_nil.
  - unfold demo_ops. repeat (split; [first [exact I|discriminate|intros _]|intros st Hst; vm_compute in Hst; injection Hst as <-]);
      [apply (buffer_check_ok demo_tr _ 0x23ff 2); vm_compute; reflexivity|exact I].
Defined.

(** Nothing the host may legally do, and none of the guest's transfers on
    a valid buffer, fails: bytes within [tty_can_receive] are accepted; a
    [TTY_CMD_READ_BUFFER] of at most [TTY_BYTES_READY] bytes stores the oldest
    bytes of the queue at the guest address, in order, and removes them; a
    [TTY_CMD_WRITE_BUFFER] sends exactly the bytes of the guest buffer, in
    order, whatever its length, and changes neither the port nor the lines. *)
Theorem tty_transfers {W : Type} (pic : list (qemu_irq W)) `{P : PicLines W pic}
  {M : Type} `{GM : GuestMemory M} {K : Type} `{CB : CharBackend K}
  (s : tty_state) (w : W) (m : M) (k : K) :
  tty_wf s -> tty_line pic s w ->
  (forall b, Z.of_nat (length b) <= tty_can_receive s ->
     exists s' w', tty_receive pic b s w = Ok (s', w') /\ queue s' = queue s ++ b) /\
  (ptr_len s <= data_count s -> gm_ok m (ptr s) (ptr_len s) ->
     exists s' w' m', goldfish_tty_write pic TTY_CMD TTY_CMD_READ_BUFFER s w m k = Ok (s', w', m', k) /\
       queue s' = drop (Z.to_nat (ptr_len s)) (queue s) /\
       forall i x, (i < Z.to_nat (ptr_len s))%nat -> queue s !! i = Some x ->
         gm_byte m' (ptr s + Z.of_nat i) = x) /\
  (has_cs s = true -> ptr_len s < 2147483648 -> 0 <= ptr s -> ptr s + ptr_len s <= 4294967296 ->
   sub_ok m (ptr s) (ptr_len s) ->
     exists m' k', goldfish_tty_write pic TTY_CMD TTY_CMD_WRITE_BUFFER s w m k = Ok (s, w, m', k') /\
       chr_out k' = chr_out k ++ guest_bytes m (ptr s) (Z.to_nat (ptr_len s))).
Proof.
  intros Hwf Hline. pose proof Hwf as (Hd & Hc & Hpl & _). split; [|split].
  - intros b Hb. unfold tty_can_receive in Hb.
    rewrite uwrap_small, swrap_small in Hb by (simpl; lia).
    destruct (tty_receive_spec pic b s w Hwf Hline Hb) as (s' & w' & E & _ & _ & Hq & _). eauto.
  - intros Hle Hgm.
    destruct (gm_write_ok m (ptr s) (take (Z.to_nat (ptr_len s)) (data s))) as (m' & Ew & Hb & _).
    { rewrite length_take, Nat.min_l, Z2Nat.id by lia. done. }
    destruct (tty_pop_spec pic s w m k 0 m' Hwf Hline Hle Ew) as (s' & w' & E & _ & _ & Hq).
    exists s', w', m'. split; [done|]. split.
    + rewrite Hq. rewrite drop_app_length'; [done|].
      pose proof (length_queue s Hwf). rewrite length_take. lia.
    + intros i x Hi Hx. apply Hb. rewrite <- take_queue by done.
      by rewrite lookup_take_lt.
  - intros Hcs Hlen H0 Hend Hsub.
    destruct (tty_send_spec (Z.to_nat (ptr_len s)) (ptr s) (ptr_len s) m k)
      as (m' & k' & E & Hout); try done; try lia.
    exists m', k'. split; [|done].
    change (goldfish_tty_write pic TTY_CMD TTY_CMD_WRITE_BUFFER s w m k) with
      (if has_cs s then
         let! (m, k) := tty_send (Z.to_nat (s32 (ptr_len s))) (ptr s) (s32 (ptr_len s)) m k in
         Ok (s, w, m, k)
       else Ok (s, w, m, k)).
    rewrite Hcs, swrap_small by (simpl; lia). by rewrite E.
Qed.

Definition demo_tty : tty_state :=
  mkTty tty_dev true 0x23fe 3 0 (splice (replicate 128 0) 0 [10; 20; 30; 40]) 4.

Lemma demo_buffer_ok i j :
  0 <= i -> 0 <= j -> i + j <= 3 -> guest_buffer demo_tr demo_mem (0x23fe + i) j.
Proof.
  intros Hi Hj Hij. split.
  - split; [lia|]. split; [lia|]. split; [lia|]. intros n Hn.
    assert (Hc : i + n = 0 \/ i + n = 1 \/ i + n = 2) by lia. rewrite <- Z.add_assoc.
    destruct Hc as [->|[->| ->]]; eexists; vm_compute; reflexivity.
  - intros n n' Hn Hn'. rewrite <- !Z.add_assoc.
    assert (Hc : i + n = 0 \/ i + n = 1 \/ i + n = 2) by lia.
    assert (Hc' : i + n' = 0 \/ i + n' = 1 \/ i + n' = 2) by lia.
    intros E. enough (i + n = i + n') by lia. revert E.
    destruct Hc as [->|[->| ->]], Hc' as [->|[->| ->]]; vm_compute; congruence.
Qed.

Lemma tty_transfers_witness :
  (exists s' w', tty_receive arm_pic [1; 2] demo_tty pic0 = Ok (s', w') /\
     queue s' = [10; 20; 30; 40; 1; 2]) /\
  (exists s' w' m', goldfish_tty_write arm_pic TTY_CMD TTY_CMD_READ_BUFFER demo_tty pic0
       (demo_mem, tt) (@nil Z) = Ok (s', w', m', []) /\ queue s' = [40] /\
     forall i x, (i < 3)%nat -> queue demo_tty !! i = Some x ->
       gm_byte m' (0x23fe + Z.of_nat i) = x) /\
  (exists m' k', goldfish_tty_write arm_pic TTY_CMD TTY_CMD_WRITE_BUFFER demo_tty pic0
       (demo_mem, tt) (@nil Z) = Ok (demo_tty, pic0, m', k') /\
     chr_out k' = guest_bytes (demo_mem, tt) 0x23fe 3).
Proof.
  destruct (tty_transfers arm_pic demo_tty pic0 (demo_mem, tt) (@nil Z)) as (H1 & H2 & H3).
  - split; [reflexivity|]. split; [simpl; lia|]. split; [simpl; lia|].
    unfold owns_line. simpl. lia.
  - split; [exact int_wf_init|reflexivity].
  - split; [|split].
    + apply (H1 [1; 2]). vm_compute. discriminate.
    + apply H2; [vm_compute; discriminate|]. apply (demo_buffer_ok 0 3); lia.
    + apply H3; [reflexivity|simpl; lia..|].
      intros i j Hi Hj Hij. by apply demo_buffer_ok.
Defined.

(** Saving a serial port and loading the snapshot into a port of the
    same machine restores the guest-visible registers and the queue. *)
Theorem tty_save_load (s s0 : tty_state) :
  tty_wf s -> tty_wf s0 -> in_u32 (ptr s) -> in_u8 (ready s) ->
  exists f s' f', goldfish_tty_save qemu_fopen_wb s = Ok f /\
    goldfish_tty_load (qemu_fopen_rb (qemu_fclose f)) s0 GOLDFISH_TTY_SAVE_VERSION = Ok (0, s', f') /\
    tty_wf s' /\ dev s' = dev s0 /\ ptr s' = ptr s /\ ptr_len s' = ptr_len s /\
    ready s' = ready s /\ data_count s' = data_count s /\ queue s' = queue s.
Proof.
  intros Hwf Hwf0 Hp Hr. destruct (tty_save_writing _ [] s Hwf writing_open) as (f & E & Hw).
  pose proof (fclose_writing _ _ Hw) as Hc. simpl in Hc.
  destruct (tty_load_reading (qemu_fopen_rb (qemu_fclose f)) s s0 [] Hwf Hwf0 Hp Hr)
    as (s' & f' & E' & _ & Hs).
  { rewrite app_nil_r, Hc. apply reading_open. }
  exists f, s', f'. split; [exact E|]. split; [exact E'|exact Hs].
Qed.

Lemma tty_save_load_witness :
  exists f s' f', goldfish_tty_save qemu_fopen_wb demo_tty = Ok f /\
    goldfish_tty_load (qemu_fopen_rb (qemu_fclose f)) (goldfish_tty_init tty_dev true)
      GOLDFISH_TTY_SAVE_VERSION = Ok (0, s', f') /\
    tty_wf s' /\ dev s' = tty_dev /\ ptr s' = 0x23fe /\ ptr_len s' = 3 /\
    ready s' = 0 /\ data_count s' = 4 /\ queue s' = [10; 20; 30; 40].
Proof.
  refine (tty_save_load demo_tty (goldfish_tty_init tty_dev true) _ _ _ _).
  - split; [reflexivity|]. split; [simpl; lia|]. split; [simpl; lia|]. unfold owns_line. simpl. lia.
  - split; [reflexivity|]. split; [simpl; lia|]. split; [simpl; lia|]. unfold owns_line. simpl. lia.
  - simpl. lia.
  - simpl. lia.
Defined.

(** The count byte of a serial port's snapshot is not checked: a snapshot
    whose count is above 128, followed by that many bytes, makes
    [goldfish_tty_load] store past the end of the 128-byte buffer. *)
Theorem tty_load_overflow (s : tty_state) (n : Z) (b rest : list Z) :
  length (data s) = 128%nat -> 128 < n < 256 -> Z.of_nat (length b) = n ->
  goldfish_tty_load (qemu_fopen_rb (be32 0 ++ be32 0 ++ [0; n] ++ b ++ rest)) s
    GOLDFISH_TTY_SAVE_VERSION = Undef.
Proof.
  intros Hd Hn Hb. unfold goldfish_tty_load. rewrite Z.eqb_refl. cbn [negb].
  pose proof (reading_open (be32 0 ++ be32 0 ++ [0; n] ++ b ++ rest)) as H.
  destruct (get_be32_reading _ 0 _ ltac:(lia) H) as (f1 & -> & H1). cbn [rbind].
  destruct (get_be32_reading _ 0 _ ltac:(lia) H1) as (f2 & -> & H2). cbn [rbind].
  destruct (get_byte_reading _ _ _ H2) as (f3 & -> & H3). cbn [rbind].
  destruct (get_byte_reading _ _ _ H3) as (f4 & -> & H4). cbn [rbind].
  destruct (get_buffer_reading _ _ _ H4) as (f5 & E5 & H5). rewrite Hb in E5. rewrite E5. cbn [rbind].
  by rewrite (proj2 (Z.ltb_lt _ _)) by lia.
Qed.

Lemma tty_load_overflow_witness :
  goldfish_tty_load (qemu_fopen_rb (be32 0 ++ be32 0 ++ [0; 129] ++ replicate 129 7 ++ []))
    (goldfish_tty_init tty_dev true) GOLDFISH_TTY_SAVE_VERSION = Undef.
Proof.
  apply (tty_load_overflow (goldfish_tty_init tty_dev true) 129 (replicate 129 7) []);
    [reflexivity|lia|reflexivity].
Defined.
