(* ===== verification/QemuTimer.v ===== *)
(** * Timers: [qemu-timer.h] and the timer lists of [vl-android.c]

    The timers of one clock. A [QEMUTimer] pointer is a number; the field
    [expire_time] of the objects is a finite map, the list linked through
    [next] from [active_timers] a list of timers. *)
From S2P Require Import Prelude.
From stdpp Require Import list gmap sorting.
#[local] Open Scope Z_scope.

Definition get_ticks_per_sec : Z := 1000000000.

(** [muldiv64]: the halves of [u] and [res] as numbers. *)
Definition muldiv64 (a b c : Z) : Z :=
  let u_low := u32 a in
  let u_high := Z.shiftr a 32 in
  let rl := u64 (u_low * b) in
  let rh := u64 (u_high * b) in
  let rh := u64 (rh + Z.shiftr rl 32) in
  let res_high := u32 (rh / c) in
  let res_low := u32 (u64 (u64 (Z.shiftl (rh mod c) 32) + Z.land rl 0xffffffff) / c) in
  Z.lor (Z.shiftl res_high 32) res_low.

Record clock_timers := mkTimers {
  expire_time : gmap nat Z;
  active_timers : list nat
}.

Definition expires (c : clock_timers) (t : nat) : Z := default 0 (expire_time c !! t).

(** The walk of [qemu_del_timer]. *)
Fixpoint del_walk (ts : nat) (l : list nat) : list nat :=
  match l with
  | [] => []
  | t :: l' => if decide (t = ts) then l' else t :: del_walk ts l'
  end.

Definition qemu_del_timer (ts : nat) (c : clock_timers) : clock_timers :=
  mkTimers (expire_time c) (del_walk ts (active_timers c)).

(** The walk of [qemu_mod_timer] to the first timer that expires later. *)
Fixpoint mod_walk (e : nat -> Z) (ts : nat) (at_time : Z) (l : list nat) : list nat :=
  match l with
  | [] => [ts]
  | t :: l' => if at_time <? e t then ts :: l else t :: mod_walk e ts at_time l'
  end.

(** [qemu_mod_timer]; the boolean says that the timer became the first of
    the list, in which case the host alarm is rearmed. *)
Definition qemu_mod_timer (ts : nat) (at_time : Z) (c : clock_timers) : bool * clock_timers :=
  let c := qemu_del_timer ts c in
  let l := mod_walk (expires c) ts at_time (active_timers c) in
  (bool_decide (head l = Some ts),
   mkTimers (<[ts := at_time]> (expire_time c)) l).

Definition qemu_timer_pending (ts : nat) (c : clock_timers) : Z :=
  cbool (bool_decide (ts ∈ active_timers c)).

Definition qemu_timer_expired (c : clock_timers) (current_time : Z) : Z :=
  match active_timers c with
  | [] => 0
  | t :: _ => cbool (expires c t <=? current_time)
  end.

(** [qemu_run_timers], with the callbacks acting on the timers and on the
    rest of the machine [W]; the timers run, in order, are returned too. *)
Section Run.
Context {W : Type} (cb : nat -> clock_timers * W -> res (clock_timers * W)).

Fixpoint qemu_run_timers (fuel : nat) (current_time : Z) (c : clock_timers) (w : W)
  : res (list nat * clock_timers * W) :=
  match active_timers c with
  | [] => Ok ([], c, w)
  | ts :: l =>
      if current_time <? expires c ts then Ok ([], c, w) else
      match fuel with
      | O => Undef
      | S fuel =>
          let! (c, w) := cb ts (mkTimers (expire_time c) l, w) in
          let! (ran, c, w) := qemu_run_timers fuel current_time c w in
          Ok (ts :: ran, c, w)
      end
  end.
End Run.

(** ** The list is sorted *)

Definition timers_wf (c : clock_timers) : Prop :=
  NoDup (active_timers c) /\
  StronglySorted (fun a b => expires c a <= expires c b) (active_timers c).

Lemma del_walk_elem ts l x :
  NoDup l -> x ∈ del_walk ts l <-> x ∈ l /\ x <> ts.
Proof.
  induction l as [|t l IH]; intros Hn; simpl; [set_solver|].
  apply NoDup_cons in Hn as [Hnt Hn]. destruct (decide (t = ts)) as [->|Hne].
  - split; [|set_solver]. intros Hx. split; [set_solver|]. by intros ->.
  - rewrite !elem_of_cons, IH by done. naive_solver.
Qed.

Lemma del_walk_sub ts l x : x ∈ del_walk ts l -> x ∈ l.
Proof. induction l as [|t l IH]; simpl; [done|]. case_decide; set_solver. Qed.

Lemma del_walk_NoDup ts l : NoDup l -> NoDup (del_walk ts l).
Proof.
  induction l as [|t l IH]; intros Hn; simpl; [done|].
  apply NoDup_cons in Hn as [Hnt Hn]. case_decide; [done|].
  apply NoDup_cons. split; [|by apply IH]. rewrite del_walk_elem by done. naive_solver.
Qed.

Section Sorting.
Context (e : nat -> Z).
Abbreviation R := (fun a b : nat => e a <= e b).

Lemma del_walk_sorted ts l : StronglySorted R l -> StronglySorted R (del_walk ts l).
Proof.
  induction 1 as [|t l Hl IH Hall]; simpl; [constructor|].
  case_decide; [done|]. constructor; [done|].
  rewrite Forall_forall in *. intros x Hx. by apply Hall, (del_walk_sub ts).
Qed.

Lemma mod_walk_elem ts at_time l x : x ∈ mod_walk e ts at_time l <-> x = ts \/ x ∈ l.
Proof.
  induction l as [|t l IH]; simpl; [set_solver|].
  case_match; rewrite ?elem_of_cons; [set_solver|]. rewrite IH. naive_solver.
Qed.

Lemma mod_walk_NoDup ts at_time l : ts ∉ l -> NoDup l -> NoDup (mod_walk e ts at_time l).
Proof.
  intros Hts Hn. induction l as [|t l IH]; simpl; [apply NoDup_singleton|].
  apply NoDup_cons in Hn as [Hnt Hn]. case_match.
  - apply NoDup_cons. split; [done|]. by apply NoDup_cons.
  - apply NoDup_cons. rewrite mod_walk_elem. split; [set_solver|]. apply IH; set_solver.
Qed.

Lemma mod_walk_sorted ts at_time l :
  e ts = at_time -> StronglySorted R l -> StronglySorted R (mod_walk e ts at_time l).
Proof.
  intros He. induction 1 as [|t l Hl IH Hall]; simpl; [repeat constructor|].
  destruct (Z.ltb_spec at_time (e t)) as [Hlt|Hge].
  - constructor; [by constructor|]. constructor; [lia|].
    eapply Forall_impl; [exact Hall|]. simpl. lia.
  - constructor; [done|]. rewrite Forall_forall in *. intros x Hx.
    apply mod_walk_elem in Hx as [->|Hx]; [lia|]. by apply Hall.
Qed.
End Sorting.

Lemma mod_walk_ext e e' ts at_time l :
  (forall x, x ∈ l -> e x = e' x) -> mod_walk e ts at_time l = mod_walk e' ts at_time l.
Proof.
  induction l as [|t l IH]; intros H; simpl; [done|].
  rewrite (H t) by set_solver. case_match; [done|]. f_equal. apply IH. set_solver.
Qed.

Lemma sorted_ext e e' (l : list nat) :
  (forall x, x ∈ l -> e x = e' x) ->
  StronglySorted (fun a b => e a <= e b) l -> StronglySorted (fun a b => e' a <= e' b) l.
Proof.
  intros H Hs. induction Hs as [|t l Hl IH Hall]; constructor.
  - apply IH. set_solver.
  - rewrite Forall_forall in *. intros x Hx. rewrite <- !H by set_solver. by apply Hall.
Qed.

Lemma del_timer_wf ts c : timers_wf c -> timers_wf (qemu_del_timer ts c).
Proof. intros [H1 H2]. split; [by apply del_walk_NoDup|by apply del_walk_sorted]. Qed.

Lemma expires_mod ts at_time c x :
  expires (qemu_mod_timer ts at_time c).2 x = if decide (x = ts) then at_time else expires c x.
Proof.
  unfold expires. simpl. case_decide; subst.
  - by rewrite lookup_insert_eq.
  - by rewrite lookup_insert_ne.
Qed.

Lemma mod_timer_wf ts at_time c : timers_wf c -> timers_wf (qemu_mod_timer ts at_time c).2.
Proof.
  intros [Hn Hs].
  assert (Hnot : ts ∉ del_walk ts (active_timers c)) by (rewrite del_walk_elem by done; naive_solver).
  split.
  - simpl. apply mod_walk_NoDup; [done|]. by apply del_walk_NoDup.
  - set (e := expires (qemu_mod_timer ts at_time c).2).
    assert (He : forall x, x ∈ del_walk ts (active_timers c) -> expires c x = e x).
    { intros x Hx. unfold e. rewrite expires_mod, decide_False; [done|]. by intros ->. }
    simpl. rewrite (mod_walk_ext _ e) by done. apply mod_walk_sorted.
    + unfold e. by rewrite expires_mod, decide_True.
    + apply (sorted_ext (expires c)); [done|]. by apply del_walk_sorted.
Qed.

Lemma mod_timer_pending ts at_time c x : timers_wf c ->
  x ∈ active_timers (qemu_mod_timer ts at_time c).2 <-> x = ts \/ x ∈ active_timers c.
Proof.
  intros [Hn _]. simpl. rewrite mod_walk_elem, del_walk_elem by done.
  destruct (decide (x = ts)); naive_solver.
Qed.

(** The first of the list is the new timer exactly when all the others
    expire later. *)
Lemma mod_walk_head e ts at_time l : ts ∉ l -> StronglySorted (fun a b => e a <= e b) l ->
  head (mod_walk e ts at_time l) = Some ts <-> forall x, x ∈ l -> at_time < e x.
Proof.
  intros Hts Hs. destruct Hs as [|t l Hl Hall]; simpl; [set_solver|].
  destruct (Z.ltb_spec at_time (e t)) as [Hlt|Hge]; simpl; split.
  - intros _ x [->|Hx]%elem_of_cons; [done|]. rewrite Forall_forall in Hall.
    specialize (Hall _ Hx). simpl in Hall. lia.
  - done.
  - intros [= ->]. set_solver.
  - intros H. specialize (H t ltac:(set_solver)). lia.
Qed.

(** ** Running the timers *)

Definition due (now : Z) (c : clock_timers) : list nat :=
  filter (fun t => expires c t <= now) (active_timers c).

Lemma due_none now c t l :
  timers_wf c -> active_timers c = t :: l -> now < expires c t -> due now c = [].
Proof.
  intros [_ Hs] Ha Ht. unfold due. rewrite Ha in *. apply StronglySorted_inv in Hs as [_ Hall].
  rewrite filter_cons_False by lia. clear Ha.
  induction Hall as [|x l Hx Hall IH]; [done|]. rewrite filter_cons_False by (simpl in *; lia). done.
Qed.

(** A callback that returns and leaves alone the timers that are due: it may
    arm or rearm timers, but only for later than [now]. [I] is what the
    callbacks rely on and keep of the rest of the machine. *)
Definition polite {W : Type} (I : W -> Prop) (now : Z) (cb : nat -> clock_timers * W -> res (clock_timers * W)) : Prop :=
  forall ts c w, timers_wf c -> ts ∉ active_timers c -> I w ->
    exists c' w', cb ts (c, w) = Ok (c', w') /\ timers_wf c' /\ due now c' = due now c /\ I w'.

Lemma run_timers_due {W : Type} (I : W -> Prop) now (cb : nat -> clock_timers * W -> res (clock_timers * W)) c w :
  polite I now cb -> timers_wf c -> I w ->
  exists c' w', qemu_run_timers cb (length (due now c)) now c w = Ok (due now c, c', w') /\
    timers_wf c' /\ due now c' = [] /\ I w'.
Proof.
  intros Hcb. remember (length (due now c)) as n eqn:Hn. revert c w Hn.
  induction n as [|n IH]; intros c w Hn Hwf HI;
    (destruct (active_timers c) as [|t l] eqn:Ha;
     [unfold due in *; rewrite Ha in *; simpl in *; try lia|]).
  - exists c, w. simpl. by rewrite Ha.
  - assert (now < expires c t) as Hlt.
    { unfold due in Hn. rewrite Ha in Hn. destruct (decide (expires c t <= now)); [|lia].
      rewrite filter_cons_True in Hn by done. simpl in Hn. lia. }
    rewrite (due_none now c t l) by done. exists c, w. simpl.
    rewrite Ha, (proj2 (Z.ltb_lt _ _)) by done. split; [done|]. split; [done|].
    split; [by apply (due_none now c t l)|done].
  - destruct (decide (expires c t <= now)) as [Hle|Hgt].
    2: { rewrite (due_none now c t l) in Hn by (try done; lia). done. }
    simpl. rewrite Ha, (proj2 (Z.ltb_ge _ _)) by done.
    set (c1 := mkTimers (expire_time c) l).
    assert (Hwf1 : timers_wf c1).
    { destruct Hwf as [Hn' Hs']. rewrite Ha in *. apply NoDup_cons in Hn' as [_ ?].
      apply StronglySorted_inv in Hs' as [? _]. by split. }
    assert (Ht : t ∉ active_timers c1).
    { destruct Hwf as [Hn' _]. rewrite Ha in Hn'. by apply NoDup_cons in Hn' as [? _]. }
    assert (Hdue : due now c = t :: due now c1).
    { unfold due at 1. rewrite Ha. by rewrite filter_cons_True. }
    destruct (Hcb t c1 w Hwf1 Ht HI) as (c2 & w2 & -> & Hwf2 & Hd2 & HI2). cbn [rbind].
    destruct (IH c2 w2) as (c3 & w3 & E3 & Hwf3 & Hd3); [|done|done|].
    { rewrite Hd2. rewrite Hdue in Hn. simpl in Hn. lia. }
    rewrite E3. cbn [rbind]. exists c3, w3. split; [|done]. by rewrite Hdue, Hd2.
Qed.

Lemma sorted_filter (e : nat -> Z) (Q : nat -> Prop) `{!forall x, Decision (Q x)} (l : list nat) :
  StronglySorted (fun a b => e a <= e b) l -> StronglySorted (fun a b => e a <= e b) (filter Q l).
Proof.
  induction 1 as [|t l Hl IH Hall]; [constructor|]. destruct (decide (Q t)).
  - rewrite filter_cons_True by done. constructor; [done|]. rewrite Forall_forall in *.
    intros x [_ Hx]%list_elem_of_filter. by apply Hall.
  - by rewrite filter_cons_False by done.
Qed.

Lemma filter_mod_walk (Q : nat -> Prop) `{!forall x, Decision (Q x)} e ts at_time (l : list nat) :
  ~ Q ts -> filter Q (mod_walk e ts at_time l) = filter Q l.
Proof.
  intros Hts. induction l as [|x l IH]; simpl; [by rewrite filter_cons_False|].
  case_match; [by rewrite filter_cons_False|]. rewrite !filter_cons. by rewrite IH.
Qed.

Lemma filter_ext_in (P Q : nat -> Prop) `{!forall x, Decision (P x)} `{!forall x, Decision (Q x)} (l : list nat) :
  (forall x, x ∈ l -> P x <-> Q x) -> filter P l = filter Q l.
Proof.
  induction l as [|x l IH]; intros Hin; [done|]. rewrite !filter_cons, IH by set_solver.
  pose proof (Hin x ltac:(set_solver)). by repeat case_decide; try naive_solver.
Qed.

Lemma del_walk_id ts l : ts ∉ l -> del_walk ts l = l.
Proof.
  induction l as [|x l IH]; intros Hx; simpl; [done|]. rewrite decide_False by set_solver.
  by rewrite IH by set_solver.
Qed.

(** Arming a timer for the future leaves the due timers as they are. *)
Lemma mod_timer_due ts at_time now c :
  ts ∉ active_timers c -> now < at_time ->
  due now (qemu_mod_timer ts at_time c).2 = due now c.
Proof.
  intros Hts Hat. unfold due. pose proof (expires_mod ts at_time c) as He.
  assert (Hact : active_timers (qemu_mod_timer ts at_time c).2 =
                 mod_walk (expires c) ts at_time (active_timers c)).
  { simpl. by rewrite del_walk_id. }
  rewrite Hact, filter_mod_walk.
  - apply filter_ext_in. intros x Hx.
    rewrite He, decide_False by (by intros ->). done.
  - rewrite He, decide_True by done. lia.
Qed.

Lemma muldiv64_spec (a b c : Z) :
  in_u64 a -> in_u32 b -> 0 < c < 4294967296 ->
  muldiv64 a b c = u64 (a * b / c).
Proof.
  intros Ha Hb Hc. unfold muldiv64.
  set (B := 4294967296) in *.
  assert (Hlo : u32 a = a mod B) by done. assert (Hhi : Z.shiftr a 32 = a / B) by (apply Z.shiftr_div_pow2; lia).
  rewrite Hlo, Hhi. pose proof (Z.div_mod a B ltac:(lia)) as Hd.
  pose proof (Z.mod_pos_bound a B ltac:(lia)) as Hm.
  assert (Hh : 0 <= a / B < B) by (split; [apply Z.div_pos|apply Z.div_lt_upper_bound]; lia).
  set (al := a mod B) in *. set (ah := a / B) in *.
  rewrite (uwrap_small 64 (al * b)), (uwrap_small 64 (ah * b)) by (simpl; nia).
  rewrite Z.shiftr_div_pow2 by lia. change (2 ^ 32) with B.
  assert (Hcarry : 0 <= al * b / B < B) by (split; [apply Z.div_pos|apply Z.div_lt_upper_bound]; nia).
  rewrite (uwrap_small 64 (ah * b + _)) by (simpl; nia).
  change 0xffffffff with (Z.ones 32). rewrite Z.land_ones by lia. change (2 ^ 32) with B.
  set (rh := ah * b + al * b / B).
  pose proof (Z.mod_pos_bound (al * b) B ltac:(lia)) as Hrl.
  pose proof (Z.mod_pos_bound rh c ltac:(lia)) as Hr.
  rewrite !Z.shiftl_mul_pow2 by lia. change (2 ^ 32) with B.
  rewrite (uwrap_small 64 (rh mod c * B)) by (simpl; nia).
  rewrite (uwrap_small 64 (rh mod c * B + _)) by (simpl; nia).
  set (ql := (rh mod c * B + al * b mod B) / c).
  assert (Hql : 0 <= ql < B) by (split; [apply Z.div_pos|apply Z.div_lt_upper_bound]; nia).
  rewrite (uwrap_small 32 ql) by done.
  assert (Hprod : a * b / c = rh / c * B + ql).
  { unfold ql. rewrite <- Z.div_add_l by lia. f_equal.
    pose proof (Z.div_mod (al * b) B ltac:(lia)). pose proof (Z.div_mod rh c ltac:(lia)).
    unfold rh in *. nia. }
  rewrite Hprod, (lor_low 32) by (rewrite ?Z.mod_mul; done).
  unfold uwrap. change (2 ^ 64) with (B * B). change (2 ^ 32) with B.
  pose proof (Z.div_mod (rh / c) B ltac:(lia)). pose proof (Z.mod_pos_bound (rh / c) B ltac:(lia)).
  apply (Z.mod_unique _ _ (rh / c / B)); nia.
Qed.

(** Multiplying and dividing by the same factor changes nothing. *)
Lemma muldiv64_same a b : in_u64 a -> 0 < b < 4294967296 -> muldiv64 a b b = a.
Proof.
  intros Ha Hb. rewrite muldiv64_spec, Z.div_mul by lia. by apply uwrap_small.
Qed.

(** ** Properties *)

(** [muldiv64] computes the quotient of the exact 96-bit product, reduced
    modulo 2^64: no intermediate result overflows and no precision is lost. *)
Theorem muldiv64_exact (a b c : Z) :
  in_u64 a -> in_u32 b -> 0 < c < 4294967296 ->
  muldiv64 a b c = u64 (a * b / c).
Proof. apply muldiv64_spec. Qed.

Lemma muldiv64_exact_witness :
  muldiv64 0x8000000000000001 1000000000 1000000000 = u64 (0x8000000000000001 * 1000000000 / 1000000000).
Proof. apply (muldiv64_exact 0x8000000000000001 1000000000 1000000000); lia. Defined.

(** [qemu_mod_timer] keeps the list of active timers sorted by expiry and
    free of duplicates; afterwards the timer is pending with its new expiry,
    no other timer changed, and the host alarm is rearmed exactly when every
    other pending timer expires strictly later. *)
Theorem mod_timer_ordered (ts : nat) (at_time : Z) (c : clock_timers) :
  timers_wf c ->
  let '(rearm, c') := qemu_mod_timer ts at_time c in
  timers_wf c' /\ expires c' ts = at_time /\
  (forall x, qemu_timer_pending x c' = if decide (x = ts) then 1 else qemu_timer_pending x c) /\
  (forall x, x <> ts -> expires c' x = expires c x) /\
  (rearm = true <-> forall x, x <> ts -> x ∈ active_timers c -> at_time < expires c x).
Proof.
  intros Hwf. destruct (qemu_mod_timer ts at_time c) as [rearm c'] eqn:E.
  pose proof (mod_timer_wf ts at_time c Hwf) as Hwf'.
  pose proof (expires_mod ts at_time c) as He.
  pose proof (mod_timer_pending ts at_time c) as Hp. rewrite E in *. simpl in *.
  split; [done|]. split; [by rewrite He, decide_True|]. split; [|split].
  - intros x. unfold qemu_timer_pending. specialize (Hp x Hwf). case_decide as Hx.
    + by rewrite bool_decide_eq_true_2 by (apply Hp; by left).
    + f_equal. apply bool_decide_ext. rewrite Hp. naive_solver.
  - intros x Hx. by rewrite He, decide_False.
  - unfold qemu_mod_timer in E. injection E as <- _. rewrite bool_decide_eq_true.
    destruct Hwf as [Hn Hs]. rewrite mod_walk_head.
    + setoid_rewrite del_walk_elem; [|done]. unfold expires. simpl. naive_solver.
    + rewrite del_walk_elem by done. naive_solver.
    + by apply (del_walk_sorted (expires c)).
Qed.

Definition demo_timers : clock_timers :=
  mkTimers (<[0%nat := 50]> (<[1%nat := 20]> ∅)) [1%nat; 0%nat].
Lemma demo_timers_wf : timers_wf demo_timers.
Proof.
  split; [apply (bool_decide_unpack _); vm_compute; done|].
  simpl. repeat constructor; vm_compute; congruence.
Qed.

Lemma mod_timer_ordered_witness :
  let '(rearm, c') := qemu_mod_timer 0 10 demo_timers in
  timers_wf c' /\ expires c' 0 = 10 /\
  (forall x, qemu_timer_pending x c' = if decide (x = 0%nat) then 1 else qemu_timer_pending x demo_timers) /\
  (forall x, x <> 0%nat -> expires c' x = expires demo_timers x) /\
  (rearm = true <-> forall x, x <> 0%nat -> x ∈ active_timers demo_timers -> 10 < expires demo_timers x).
Proof. exact (mod_timer_ordered 0 10 demo_timers demo_timers_wf). Defined.

(** C26: When the callbacks return, arm timers only for times after the one
    that is run for, and leave the other due timers alone, [qemu_run_timers] terminates after exactly as many iterations as timers
    are due, runs each due timer once, in order of expiry, and leaves no due
    timer behind. *)
Theorem run_timers_complete {W : Type} (I : W -> Prop) (now : Z)
  (cb : nat -> clock_timers * W -> res (clock_timers * W)) (c : clock_timers) (w : W) :
  polite I now cb -> timers_wf c -> I w ->
  exists c' w', qemu_run_timers cb (length (due now c)) now c w = Ok (due now c, c', w') /\
    StronglySorted (fun a b => expires c a <= expires c b) (due now c) /\ NoDup (due now c) /\
    timers_wf c' /\ I w' /\ forall t, t ∈ active_timers c' -> now < expires c' t.
Proof.
  intros Hcb Hwf HI. destruct (run_timers_due I now cb c w Hcb Hwf HI) as (c' & w' & E & Hwf' & Hd & HI').
  exists c', w'. split; [done|]. destruct Hwf as [Hn Hs].
  split; [by apply sorted_filter|]. split; [by apply NoDup_filter|]. split; [done|]. split; [done|].
  intros t Ht. destruct (decide (expires c' t <= now)) as [Hle|]; [|lia].
  assert (t ∈ due now c') as Hin by (by apply list_elem_of_filter). rewrite Hd in Hin. set_solver.
Qed.

(** A callback that rearms its timer 100 ticks later. *)
Definition periodic (ts : nat) (cw : clock_timers * nat) : res (clock_timers * nat) :=
  Ok ((qemu_mod_timer ts 100 cw.1).2, S cw.2).

Lemma periodic_polite : polite (fun n => True) 30 periodic.
Proof.
  intros ts c w Hwf Hts _. eexists _, _. split; [reflexivity|].
  split; [by apply mod_timer_wf|]. split; [by apply mod_timer_due|done].
Qed.

Lemma run_timers_complete_witness :
  exists c' w', qemu_run_timers periodic 1 30 demo_timers 0%nat = Ok ([1%nat], c', w') /\
    StronglySorted (fun a b => expires demo_timers a <= expires demo_timers b) [1%nat] /\
    NoDup [1%nat] /\ timers_wf c' /\ True /\ forall t, t ∈ active_timers c' -> 30 < expires c' t.
Proof.
  exact (run_timers_complete (fun _ => True) 30 periodic demo_timers 0%nat
    periodic_polite demo_timers_wf Logic.I).
Defined.
