(* ===== verification/GoldfishTimer.v ===== *)
(** * The goldfish timer and real-time clock: [hw/goldfish_timer.c]

    [clk] is what [qemu_get_clock(vm_clock)] returns at the time of the call,
    [now_s] what [time(NULL)] returns. *)
From S2P Require Import Prelude Irq GoldfishInterrupt GuestMem GoldfishDevice Savevm QemuTimer.

Definition TIMER_TIME_LOW : Z := 0x00.
Definition TIMER_TIME_HIGH : Z := 0x04.
Definition TIMER_ALARM_LOW : Z := 0x08.
Definition TIMER_ALARM_HIGH : Z := 0x0c.
Definition TIMER_CLEAR_INTERRUPT : Z := 0x10.
Definition TIMER_CLEAR_ALARM : Z := 0x14.

(** [struct timer_state]; [timer] is the number of its [QEMUTimer]. *)
Record timer_state := mkTimer {
  dev : goldfish_device;
  alarm_low : Z;
  alarm_high : Z;
  now : Z;
  armed : Z;
  timer : nat
}.

(** [s->alarm_low | (int64_t)s->alarm_high << 32] *)
Definition alarm_value (s : timer_state) : Z :=
  s64 (Z.lor (alarm_low s) (Z.shiftl (alarm_high s) 32)).

(** The alarm in clock ticks: the argument of [muldiv64] is converted to
    [uint64_t], its result to [int64_t]. *)
Definition alarm_ticks (s : timer_state) : Z :=
  s64 (muldiv64 (u64 (alarm_value s)) (u32 get_ticks_per_sec) 1000000000).

Definition GOLDFISH_TIMER_SAVE_VERSION : Z := 1.

Definition goldfish_timer_save (clk : Z) (f : QEMUFile) (s : timer_state) : res QEMUFile :=
  let! f := qemu_put_be64 f (u64 (now s)) in
  let! f := qemu_put_byte f (armed s) in
  if ctrue (armed s) then qemu_put_be64 f (u64 (alarm_ticks s - clk))
  else Ok f.

Section Timer.
Context {W : Type} (pic : list (qemu_irq W)).

Definition set_armed (s : timer_state) (a : Z) : timer_state :=
  mkTimer (dev s) (alarm_low s) (alarm_high s) (now s) a (timer s).

Definition goldfish_timer_load (clk : Z) (f : QEMUFile) (s : timer_state) (c : clock_timers)
  (w : W) (version_id : Z) : res (Z * timer_state * clock_timers * W * QEMUFile) :=
  if negb (version_id =? GOLDFISH_TIMER_SAVE_VERSION) then Ok (-1, s, c, w, f) else
  let! (n, f) := qemu_get_be64 f in
  let! (a, f) := qemu_get_byte f in
  let s := mkTimer (dev s) (alarm_low s) (alarm_high s) (s64 n) a (timer s) in
  if ctrue (armed s) then
    let! (diff, f) := qemu_get_be64 f in
    let alarm := s64 (clk + s64 diff) in
    if alarm <=? clk then
      let! w := goldfish_device_set_irq pic (dev s) 0 1 w in
      Ok (0, set_armed s 0, c, w, f)
    else
      Ok (0, s, (qemu_mod_timer (timer s) alarm c).2, w, f)
  else Ok (0, s, c, w, f).

Definition goldfish_timer_read (clk : Z) (offset : Z) (s : timer_state) : res (Z * timer_state) :=
  if offset =? TIMER_TIME_LOW then
    let n := s64 (muldiv64 (u64 clk) 1000000000 (u32 get_ticks_per_sec)) in
    Ok (u32 n, mkTimer (dev s) (alarm_low s) (alarm_high s) n (armed s) (timer s))
  else if offset =? TIMER_TIME_HIGH then Ok (u32 (Z.shiftr (now s) 32), s)
  else Abort.

Definition goldfish_timer_write (clk : Z) (offset value : Z) (s : timer_state)
  (c : clock_timers) (w : W) : res (timer_state * clock_timers * W) :=
  if offset =? TIMER_ALARM_LOW then
    let s := mkTimer (dev s) value (alarm_high s) (now s) (armed s) (timer s) in
    let alarm := alarm_ticks s in
    if alarm <=? clk then
      let! w := goldfish_device_set_irq pic (dev s) 0 1 w in Ok (s, c, w)
    else Ok (set_armed s 1, (qemu_mod_timer (timer s) alarm c).2, w)
  else if offset =? TIMER_ALARM_HIGH then
    Ok (mkTimer (dev s) (alarm_low s) (s32 value) (now s) (armed s) (timer s), c, w)
  else if offset =? TIMER_CLEAR_ALARM then
    let c := qemu_del_timer (timer s) c in
    let s := set_armed s 0 in
    let! w := goldfish_device_set_irq pic (dev s) 0 0 w in Ok (s, c, w)
  else if offset =? TIMER_CLEAR_INTERRUPT then
    let! w := goldfish_device_set_irq pic (dev s) 0 0 w in Ok (s, c, w)
  else Abort.

Definition goldfish_timer_tick (s : timer_state) (w : W) : res (timer_state * W) :=
  let s := set_armed s 0 in
  let! w := goldfish_device_set_irq pic (dev s) 0 1 w in Ok (s, w).

(** The callback of the timer list: a due timer is this device's tick. *)
Definition timer_cb (ts : nat) (cw : clock_timers * (timer_state * W))
  : res (clock_timers * (timer_state * W)) :=
  let '(c, (s, w)) := cw in
  if decide (ts = timer s) then let! sw := goldfish_timer_tick s w in Ok (c, sw)
  else Ok (c, (s, w)).

(** ** The real-time clock *)

Record rtc_state := mkRtc {
  rtc_dev : goldfish_device;
  rtc_alarm_low : Z;
  rtc_alarm_high : Z;
  rtc_now : Z
}.

Definition goldfish_rtc_save (f : QEMUFile) (s : rtc_state) : res QEMUFile :=
  qemu_put_be64 f (u64 (rtc_now s)).

Definition goldfish_rtc_load (f : QEMUFile) (s : rtc_state) (version_id : Z)
  : res (Z * rtc_state * QEMUFile) :=
  if negb (version_id =? 1) then Ok (-1, s, f) else
  let! (n, f) := qemu_get_be64 f in
  Ok (0, mkRtc (rtc_dev s) (rtc_alarm_low s) (rtc_alarm_high s) (s64 n), f).

Definition goldfish_rtc_read (now_s : Z) (offset : Z) (s : rtc_state) : res (Z * rtc_state) :=
  if offset =? 0x0 then
    let n := s64 (now_s * 1000000000) in
    Ok (u32 n, mkRtc (rtc_dev s) (rtc_alarm_low s) (rtc_alarm_high s) n)
  else if offset =? 0x4 then Ok (u32 (Z.shiftr (rtc_now s) 32), s)
  else Abort.

Definition goldfish_rtc_write (offset value : Z) (s : rtc_state) (w : W) : res (rtc_state * W) :=
  if offset =? 0x8 then Ok (mkRtc (rtc_dev s) value (rtc_alarm_high s) (rtc_now s), w)
  else if offset =? 0xc then Ok (mkRtc (rtc_dev s) (rtc_alarm_low s) (s32 value) (rtc_now s), w)
  else if offset =? 0x10 then
    let! w := goldfish_device_set_irq pic (rtc_dev s) 0 0 w in Ok (s, w)
  else Abort.

(** [goldfish_timer_and_rtc_init]: the two states, given their devices. *)
Definition goldfish_timer_init (d : goldfish_device) (t : nat) : timer_state := mkTimer d 0 0 0 0 t.
Definition goldfish_rtc_init (d : goldfish_device) : rtc_state := mkRtc d 0 0 0.

End Timer.

(** ** Lemmas *)

Lemma testbit_high_low lo hi :
  in_u32 lo -> s64 (Z.lor lo (Z.shiftl hi 32)) = s64 (lo + hi * 4294967296).
Proof.
  intros Hlo. rewrite Z.lor_comm, (lor_low 32), Z.shiftl_mul_pow2;
    [by rewrite Z.add_comm|lia|lia| |done].
  rewrite Z.shiftl_mul_pow2 by lia. apply Z.mod_mul. lia.
Qed.

(** The tick rate is that of the nanoseconds, so an alarm is its value. *)
Lemma alarm_ticks_value s : alarm_ticks s = alarm_value s.
Proof.
  unfold alarm_ticks. change (u32 get_ticks_per_sec) with 1000000000.
  rewrite muldiv64_same; [|apply uwrap_range; lia|lia].
  rewrite swrap_uwrap by lia. unfold alarm_value.
  apply swrap_small; [lia|]. apply swrap_range. lia.
Qed.

Lemma split_s64 z : in_s64 z -> u32 z + 4294967296 * u32 (Z.shiftr z 32) = u64 z.
Proof.
  intros Hz. unfold uwrap. rewrite Z.shiftr_div_pow2 by lia.
  change (2 ^ 32) with 4294967296. change (2 ^ 64) with 18446744073709551616.
  Z.to_euclidean_division_equations; lia.
Qed.

(** Reading the low half of the timer and then its high half gives one
    64-bit time, the clock at the first of the two reads, however far the
    clock has advanced in between. *)
Theorem timer_read_consistent (s : timer_state) (clk clk' : Z) :
  in_s64 clk ->
  exists lo s1 hi s2,
    goldfish_timer_read clk TIMER_TIME_LOW s = Ok (lo, s1) /\
    goldfish_timer_read clk' TIMER_TIME_HIGH s1 = Ok (hi, s2) /\
    lo + 4294967296 * hi = u64 clk /\ s2 = s1 /\ in_u32 lo /\ in_u32 hi.
Proof.
  intros Hc. eexists _, _, _, _. split; [reflexivity|]. split; [reflexivity|].
  change (u32 get_ticks_per_sec) with 1000000000.
  rewrite muldiv64_same by (try (apply uwrap_range; lia); lia).
  rewrite swrap_uwrap by lia. cbn [now]. rewrite swrap_small by (simpl; lia).
  split; [by apply split_s64|]. split; [done|]. split; apply uwrap_range; lia.
Qed.

Definition timer_dev : goldfish_device :=
  default (mkDev 0 [] 0 0 0 0 0) (devices (android_arm_init_devices full_config) !! 2%nat).

Lemma timer_read_consistent_witness :
  exists lo s1 hi s2,
    goldfish_timer_read 0x1ffffffff TIMER_TIME_LOW (goldfish_timer_init timer_dev 0) = Ok (lo, s1) /\
    goldfish_timer_read 0x200000001 TIMER_TIME_HIGH s1 = Ok (hi, s2) /\
    lo + 4294967296 * hi = u64 0x1ffffffff /\ s2 = s1 /\ in_u32 lo /\ in_u32 hi.
Proof. apply (timer_read_consistent (goldfish_timer_init timer_dev 0)). lia. Defined.

(** ** The life of an alarm *)

Section Alarm.
Context {W : Type} (pic : list (qemu_irq W)) `{P : PicLines W pic}.

(** The device is armed exactly when its timer is pending. *)
Definition timer_inv (s : timer_state) (c : clock_timers) (w : W) : Prop :=
  timers_wf c /\ owns_line (dev s) 0 /\ pic_ok w /\
  (armed s = 1 /\ timer s ∈ active_timers c \/ armed s = 0 /\ timer s ∉ active_timers c).

Definition timer_line (s : timer_state) (w : W) : bool := line_level w (irq (dev s)).

Lemma timer_set_irq s level w :
  owns_line (dev s) 0 -> pic_ok w ->
  exists w', goldfish_device_set_irq pic (dev s) 0 level w = Ok w' /\ pic_ok w' /\
    timer_line s w' = ctrue level.
Proof.
  intros Ho Hw. destruct (device_set_irq_ok pic (dev s) 0 level w Ho Hw) as (w' & E & Hok & Hl & _).
  rewrite Z.add_0_r in Hl. by exists w'.
Qed.

(** The alarm the guest sets with the high half [h] and the low half [l]. *)
Definition guest_alarm (h l : Z) : Z := s64 (l + s32 h * 4294967296).

Lemma write_alarm_high clk h s c w :
  goldfish_timer_write pic clk TIMER_ALARM_HIGH h s c w
  = Ok (mkTimer (dev s) (alarm_low s) (s32 h) (now s) (armed s) (timer s), c, w).
Proof. done. Qed.

Lemma write_alarm_low clk h l s c w :
  in_u32 l -> alarm_high s = s32 h -> timer_inv s c w ->
  exists s' c' w', goldfish_timer_write pic clk TIMER_ALARM_LOW l s c w = Ok (s', c', w') /\
    timer_inv s' c' w' /\ dev s' = dev s /\ timer s' = timer s /\
    if guest_alarm h l <=? clk then timer_line s' w' = true /\ c' = c /\ armed s' = armed s
    else w' = w /\ armed s' = 1 /\ expires c' (timer s') = guest_alarm h l.
Proof.
  intros Hl Hh (Hwf & Ho & Hw & Ha). unfold goldfish_timer_write. cbn -[alarm_ticks qemu_mod_timer Z.leb].
  set (s1 := mkTimer _ _ _ _ _ _).
  assert (Hal : alarm_ticks s1 = guest_alarm h l).
  { rewrite alarm_ticks_value. unfold alarm_value, guest_alarm. cbn [s1 alarm_low alarm_high].
    rewrite Hh. by apply testbit_high_low. }
  rewrite Hal. destruct (guest_alarm h l <=? clk).
  - destruct (timer_set_irq s1 1 w Ho Hw) as (w' & E & Hok & Hl').
    change (dev s1) with (dev s) in E. rewrite E. exists s1, c, w'.
    split; [done|]. split; [by split; [|split; [|split]]|]. done.
  - pose proof (mod_timer_wf (timer s) (guest_alarm h l) c Hwf) as Hwf'.
    eexists _, _, w. split; [reflexivity|]. split; [|split; [done|split; [done|]]].
    + split; [done|]. split; [done|]. split; [done|]. left. split; [done|].
      by apply mod_timer_pending; [|left].
    + split; [done|]. split; [done|]. cbn [timer set_armed]. rewrite expires_mod. by rewrite decide_True.
Qed.

(** What the due timers do to the device. *)
Lemma run_timer_cb fuel t c s w ran c' s' w' :
  owns_line (dev s) 0 -> pic_ok w ->
  qemu_run_timers (timer_cb pic) fuel t c (s, w) = Ok (ran, c', (s', w')) ->
  pic_ok w' /\ dev s' = dev s /\ timer s' = timer s /\
  (if decide (timer s ∈ ran) then timer_line s w' = true /\ armed s' = 0 else s' = s /\ w' = w).
Proof.
  revert c s w ran. induction fuel as [|fuel IH]; intros c s w ran Ho Hw; simpl;
    (destruct (active_timers c) as [|x l]; [intros [= <- <- <- <-]; by rewrite decide_False by (by apply not_elem_of_nil)|]);
    (destruct (t <? expires c x); [intros [= <- <- <- <-]; by rewrite decide_False by (by apply not_elem_of_nil)|]);
    [done|].
  intros E. apply rbind_Ok in E as ([c1 [s1 w1]] & E1 & E).
  apply rbind_Ok in E as ([[ran2 c2] [s2 w2]] & E2 & [= <- <- <- <-]).
  destruct (decide (x = timer s)) as [->|Hne].
  - unfold goldfish_timer_tick in E1. apply rbind_Ok in E1 as ([s3 w3] & E1 & [= <- <- <-]).
    apply rbind_Ok in E1 as (w4 & E1 & [= <- <-]).
    destruct (timer_set_irq (set_armed s 0) 1 w Ho Hw) as (w5 & E5 & Hok & Hl). rewrite E5 in E1.
    injection E1 as ->. destruct (IH _ (set_armed s 0) _ _ Ho Hok E2) as (? & ? & ? & Hr).
    rewrite decide_True by (by left). split; [done|]. split; [done|]. split; [done|].
    change (timer (set_armed s 0)) with (timer s) in Hr. case_decide; [done|].
    by destruct Hr as [-> ->].
  - injection E1 as <- <- <-. destruct (IH _ _ _ _ Ho Hw E2) as (? & ? & ? & Hr).
    split; [done|]. split; [done|]. split; [done|].
    destruct (decide (timer s ∈ ran2)) as [Hin|Hnin].
    + by rewrite decide_True by (by right).
    + rewrite decide_False; [done|]. intros [Heq|]%elem_of_cons; [by apply Hne|done].
Qed.

Lemma timer_cb_polite s0 t :
  owns_line (dev s0) 0 ->
  polite (fun sw : timer_state * W => dev sw.1 = dev s0 /\ pic_ok sw.2) t (timer_cb pic).
Proof.
  intros Ho ts c [s w] Hwf Hts [Hd Hw]. unfold timer_cb. case_decide.
  - simpl in *. destruct (timer_set_irq (set_armed s 0) 1 w) as (w' & E & Hok & _);
      [by rewrite <- Hd in Ho|done|].
    unfold goldfish_timer_tick. rewrite E. cbn. by eexists _, _.
  - by eexists _, _.
Qed.

(** Running the timers at time [t]: the device's alarm rings if it is due. *)
Lemma run_device_timers t c s w :
  timer_inv s c w ->
  exists ran c' s' w', qemu_run_timers (timer_cb pic) (length (due t c)) t c (s, w)
      = Ok (ran, c', (s', w')) /\ dev s' = dev s /\ timer s' = timer s /\
    if decide (timer s ∈ active_timers c /\ expires c (timer s) <= t)
    then timer_line s w' = true /\ armed s' = 0
    else s' = s /\ w' = w.
Proof.
  intros (Hwf & Ho & Hw & Ha).
  destruct (run_timers_due _ t (timer_cb pic) c (s, w) (timer_cb_polite s t Ho) Hwf)
    as (c' & [s' w'] & E & _); [done|].
  destruct (run_timer_cb _ _ _ _ _ _ _ _ _ Ho Hw E) as (_ & Hd & Ht & Hr).
  exists (due t c), c', s', w'. split; [done|]. split; [done|]. split; [done|].
  assert (Hiff : timer s ∈ due t c <-> timer s ∈ active_timers c /\ expires c (timer s) <= t).
  { unfold due. rewrite list_elem_of_filter. tauto. }
  repeat case_decide; tauto.
Qed.
End Alarm.

(** ** Properties *)

(** C38: An alarm rings, once and on time. After the guest writes the high and
    the low half of an alarm, an alarm that is not in the future raises the
    line at once; otherwise the line is left alone, and the timers run later
    raise it if and only if they run at or after the alarm, which also
    disarms the device. *)
Theorem timer_alarm_rings {W : Type} (pic : list (qemu_irq W)) `{P : PicLines W pic}
  (s : timer_state) (c : clock_timers) (w : W) (clk h l t : Z) :
  timer_inv pic s c w -> in_u32 h -> in_u32 l ->
  exists s1 s2 c2 w2,
    goldfish_timer_write pic clk TIMER_ALARM_HIGH h s c w = Ok (s1, c, w) /\
    goldfish_timer_write pic clk TIMER_ALARM_LOW l s1 c w = Ok (s2, c2, w2) /\
    timer_inv pic s2 c2 w2 /\
    if guest_alarm h l <=? clk then timer_line pic s w2 = true
    else w2 = w /\ armed s2 = 1 /\
      exists ran c3 s3 w3,
        qemu_run_timers (timer_cb pic) (length (due t c2)) t c2 (s2, w2) = Ok (ran, c3, (s3, w3)) /\
        if guest_alarm h l <=? t then timer_line pic s w3 = true /\ armed s3 = 0
        else s3 = s2 /\ w3 = w.
Proof.
  intros Hinv Hh Hl. eexists. pose proof (write_alarm_high pic clk h s c w) as E1.
  set (s1 := mkTimer _ _ _ _ _ _) in E1. assert (Hinv1 : timer_inv pic s1 c w) by exact Hinv.
  destruct (write_alarm_low pic clk h l s1 c w Hl eq_refl Hinv1)
    as (s2 & c2 & w2 & E2 & Hinv2 & Hd & Ht & Hcase).
  exists s2, c2, w2. split; [exact E1|]. split; [exact E2|]. split; [done|].
  destruct (guest_alarm h l <=? clk).
  - destruct Hcase as [Hline _]. unfold timer_line in *. by rewrite Hd in Hline.
  - destruct Hcase as (-> & Ha & He). split; [done|]. split; [done|].
    destruct (run_device_timers pic t c2 s2 w Hinv2) as (ran & c3 & s3 & w3 & E3 & _ & _ & Hr).
    exists ran, c3, s3, w3. split; [done|].
    destruct Hinv2 as (_ & _ & _ & [[_ Hin]|[Ha0 _]]); [|lia]. rewrite He in Hr.
    destruct (Z.leb_spec (guest_alarm h l) t).
    + rewrite decide_True in Hr by done. unfold timer_line in *. by rewrite Hd in Hr.
    + rewrite decide_False in Hr by lia. done.
Qed.


Definition idle_timers : clock_timers := mkTimers ∅ [].
Lemma demo_timer_inv : timer_inv arm_pic (goldfish_timer_init timer_dev 0) idle_timers pic0.
Proof.
  split; [split; constructor|]. split; [unfold owns_line; simpl; lia|].
  split; [exact int_wf_init|]. right. split; [reflexivity|]. by apply not_elem_of_nil.
Qed.

Lemma timer_alarm_rings_witness :
  exists s1 s2 c2 w2,
    goldfish_timer_write arm_pic 100 TIMER_ALARM_HIGH 0 (goldfish_timer_init timer_dev 0) idle_timers pic0
      = Ok (s1, idle_timers, pic0) /\
    goldfish_timer_write arm_pic 100 TIMER_ALARM_LOW 500 s1 idle_timers pic0 = Ok (s2, c2, w2) /\
    timer_inv arm_pic s2 c2 w2 /\
    (w2 = pic0 /\ armed s2 = 1 /\
      exists ran c3 s3 w3,
        qemu_run_timers (timer_cb arm_pic) (length (due 700 c2)) 700 c2 (s2, w2) = Ok (ran, c3, (s3, w3)) /\
        (pic_line w3 3 = true /\ armed s3 = 0)).
Proof.
  refine (timer_alarm_rings arm_pic _ idle_timers pic0 100 0 500 700 demo_timer_inv _ _); lia.
Defined.

(** [TIMER_CLEAR_ALARM] lowers the line and cancels the alarm: whenever
    the timers run afterwards, the device's line stays as it is. *)
Theorem timer_clear_cancels {W : Type} (pic : list (qemu_irq W)) `{P : PicLines W pic}
  (s : timer_state) (c : clock_timers) (w : W) (clk value t : Z) :
  timer_inv pic s c w ->
  exists s1 c1 w1 ran c2,
    goldfish_timer_write pic clk TIMER_CLEAR_ALARM value s c w = Ok (s1, c1, w1) /\
    timer_inv pic s1 c1 w1 /\ timer_line pic s w1 = false /\
    qemu_timer_pending (timer s) c1 = 0 /\ armed s1 = 0 /\
    qemu_run_timers (timer_cb pic) (length (due t c1)) t c1 (s1, w1) = Ok (ran, c2, (s1, w1)).
Proof.
  intros (Hwf & Ho & Hw & Ha).
  destruct (timer_set_irq pic (set_armed s 0) 0 w Ho Hw) as (w1 & E & Hok & Hl).
  set (c1 := qemu_del_timer (timer s) c).
  assert (Hnot : timer s ∉ active_timers c1).
  { unfold c1. simpl. destruct Hwf as [Hn _]. rewrite del_walk_elem by done. naive_solver. }
  assert (Hinv : timer_inv pic (set_armed s 0) c1 w1).
  { split; [by apply del_timer_wf|]. split; [done|]. split; [done|]. by right. }
  destruct (run_device_timers pic t c1 (set_armed s 0) w1 Hinv) as (ran & c2 & s2 & w2 & E2 & _ & _ & Hr).
  rewrite decide_False in Hr by (intros [? _]; done). destruct Hr as [-> ->].
  exists (set_armed s 0), c1, w1, ran, c2.
  change (dev (set_armed s 0)) with (dev s) in E.
  split; [unfold goldfish_timer_write; cbn -[goldfish_device_set_irq]; by rewrite E|].
  split; [done|]. split; [done|]. split; [|done].
  unfold qemu_timer_pending. by rewrite bool_decide_eq_false_2.
Qed.

Lemma timer_clear_cancels_witness :
  exists s1 c1 w1 ran c2,
    goldfish_timer_write arm_pic 5 TIMER_CLEAR_ALARM 1 (goldfish_timer_init timer_dev 0) idle_timers pic0
      = Ok (s1, c1, w1) /\
    timer_inv arm_pic s1 c1 w1 /\ pic_line w1 3 = false /\
    qemu_timer_pending 0 c1 = 0 /\ armed s1 = 0 /\
    qemu_run_timers (timer_cb arm_pic) (length (due 9 c1)) 9 c1 (s1, w1) = Ok (ran, c2, (s1, w1)).
Proof.
  refine (timer_clear_cancels arm_pic _ idle_timers pic0 5 1 9 demo_timer_inv).
Defined.
