(* ===== verification/GoldfishBattery.v ===== *)
(** * The goldfish battery and switches: [hw/goldfish_battery.c],
    [hw/goldfish_switch.c] *)
From stdpp Require Import relations.
From S2P Require Import Prelude Irq GoldfishInterrupt GuestMem GoldfishDevice Savevm.

(** ** The battery *)

Definition BATTERY_INT_STATUS : Z := 0x00.
Definition BATTERY_INT_ENABLE : Z := 0x04.
Definition BATTERY_AC_ONLINE : Z := 0x08.
Definition BATTERY_STATUS : Z := 0x0C.
Definition BATTERY_HEALTH : Z := 0x10.
Definition BATTERY_PRESENT : Z := 0x14.
Definition BATTERY_CAPACITY : Z := 0x18.
Definition BATTERY_STATUS_CHANGED : Z := 1.
Definition AC_STATUS_CHANGED : Z := 2.

(** [enum power_supply_property] and the default values. *)
Definition POWER_SUPPLY_PROP_STATUS : Z := 0.
Definition POWER_SUPPLY_PROP_HEALTH : Z := 1.
Definition POWER_SUPPLY_PROP_PRESENT : Z := 2.
Definition POWER_SUPPLY_PROP_ONLINE : Z := 3.
Definition POWER_SUPPLY_PROP_CAPACITY : Z := 23.
Definition POWER_SUPPLY_STATUS_CHARGING : Z := 1.
Definition POWER_SUPPLY_HEALTH_GOOD : Z := 1.

Record goldfish_battery_state := mkBattery {
  dev : goldfish_device;
  int_status : Z;
  int_enable : Z;
  ac_online : Z;
  status : Z;
  health : Z;
  present : Z;
  capacity : Z
}.

Definition goldfish_battery_init (d : goldfish_device) : goldfish_battery_state :=
  mkBattery d 0 0 1 POWER_SUPPLY_STATUS_CHARGING POWER_SUPPLY_HEALTH_GOOD 1 50.

(** The field list of the snapshot; offsets are counted from [int_status]. *)
Definition goldfish_battery_fields : list QField :=
  map (mkQField Q_FIELD_INT32) [0; 4; 8; 12; 16; 20; 24] ++ [mkQField Q_FIELD_END 0].

Definition battery_field (s : goldfish_battery_state) (offset : Z) (n : nat) : Z :=
  u32 (default 0 ([int_status s; int_enable s; ac_online s; status s; health s; present s; capacity s]
                  !! Z.to_nat (offset / 4))).

Definition goldfish_battery_save (f : QEMUFile) (s : goldfish_battery_state) : res QEMUFile :=
  qemu_put_struct (battery_field s) (fun _ _ => []) goldfish_battery_fields f.

Definition BATTERY_STATE_SAVE_VERSION : Z := 1.

(** A word stored at an offset. *)
Definition set_battery_field (offset : Z) (n : nat) (v : Z) (s : goldfish_battery_state) : goldfish_battery_state :=
  let '(mkBattery d a b c e h p q) := s in
  match Z.to_nat (offset / 4) with
  | 0 => mkBattery d v b c e h p q | 1 => mkBattery d a v c e h p q | 2 => mkBattery d a b v e h p q
  | 3 => mkBattery d a b c v h p q | 4 => mkBattery d a b c e v p q | 5 => mkBattery d a b c e h v q
  | _ => mkBattery d a b c e h p v
  end%nat.

Definition goldfish_battery_load (f : QEMUFile) (s : goldfish_battery_state) (version_id : Z)
  : res (Z * goldfish_battery_state * QEMUFile) :=
  if negb (version_id =? BATTERY_STATE_SAVE_VERSION) then Ok (-1, s, f)
  else qemu_get_struct goldfish_battery_fields set_battery_field (fun _ _ s => s) s f.

Section Devices.
Context {W : Type} (pic : list (qemu_irq W)).

Definition goldfish_battery_read (offset : Z) (s : goldfish_battery_state) (w : W)
  : res (Z * goldfish_battery_state * W) :=
  if offset =? BATTERY_INT_STATUS then
    let ret := Z.land (int_status s) (int_enable s) in
    if ctrue ret then
      let! w := goldfish_device_set_irq pic (dev s) 0 0 w in
      Ok (ret, mkBattery (dev s) 0 (int_enable s) (ac_online s) (status s) (health s)
                 (present s) (capacity s), w)
    else Ok (ret, s, w)
  else if offset =? BATTERY_INT_ENABLE then Ok (int_enable s, s, w)
  else if offset =? BATTERY_AC_ONLINE then Ok (u32 (ac_online s), s, w)
  else if offset =? BATTERY_STATUS then Ok (u32 (status s), s, w)
  else if offset =? BATTERY_HEALTH then Ok (u32 (health s), s, w)
  else if offset =? BATTERY_PRESENT then Ok (u32 (present s), s, w)
  else if offset =? BATTERY_CAPACITY then Ok (u32 (capacity s), s, w)
  else Abort.

Definition goldfish_battery_write (offset val : Z) (s : goldfish_battery_state)
  : res goldfish_battery_state :=
  if offset =? BATTERY_INT_ENABLE then
    Ok (mkBattery (dev s) (int_status s) val (ac_online s) (status s) (health s)
          (present s) (capacity s))
  else Abort.

Definition goldfish_battery_set_prop (ac property value : Z) (s : goldfish_battery_state) (w : W)
  : res (goldfish_battery_state * W) :=
  let new_status := if ctrue ac then AC_STATUS_CHANGED else BATTERY_STATUS_CHANGED in
  let upd a st h p c := mkBattery (dev s) (int_status s) (int_enable s) a st h p c in
  let s :=
    if ctrue ac then
      if property =? POWER_SUPPLY_PROP_ONLINE
      then upd value (status s) (health s) (present s) (capacity s) else s
    else if property =? POWER_SUPPLY_PROP_STATUS
      then upd (ac_online s) value (health s) (present s) (capacity s)
    else if property =? POWER_SUPPLY_PROP_HEALTH
      then upd (ac_online s) (status s) value (present s) (capacity s)
    else if property =? POWER_SUPPLY_PROP_PRESENT
      then upd (ac_online s) (status s) (health s) value (capacity s)
    else if property =? POWER_SUPPLY_PROP_CAPACITY
      then upd (ac_online s) (status s) (health s) (present s) value
    else s in
  if negb (new_status =? int_status s) then
    let st := Z.lor (int_status s) new_status in
    let s := mkBattery (dev s) st (int_enable s) (ac_online s) (status s) (health s)
               (present s) (capacity s) in
    let! w := goldfish_device_set_irq pic (dev s) 0 (Z.land st (int_enable s)) w in
    Ok (s, w)
  else Ok (s, w).

(** ** Switches *)

Definition SW_NAME_LEN : Z := 0x00.
Definition SW_NAME_PTR : Z := 0x04.
Definition SW_FLAGS : Z := 0x08.
Definition SW_STATE : Z := 0x0c.
Definition SW_INT_STATUS : Z := 0x10.
Definition SW_INT_ENABLE : Z := 0x14.
Definition SW_FLAGS_OUTPUT : Z := 1.

(** [writefn] with its opaque argument acts on the rest of the machine. *)
Record switch_state := mkSwitch {
  sw_dev : goldfish_device;
  sw_name : list Z;
  state : Z;
  state_changed : bool;        (* one-bit fields *)
  sw_int_enable : bool;
  writefn : option (Z -> W -> res (Z * W))
}.

Definition goldfish_switch_set_state (st : Z) (s : switch_state) (w : W) : res (switch_state * W) :=
  let s := mkSwitch (sw_dev s) (sw_name s) st true (sw_int_enable s) (writefn s) in
  let! w := if sw_int_enable s then goldfish_device_set_irq pic (sw_dev s) 0 1 w else Ok w in
  Ok (s, w).

Definition goldfish_switch_read (offset : Z) (s : switch_state) (w : W)
  : res (Z * switch_state * W) :=
  if offset =? SW_NAME_LEN then Ok (Z.of_nat (length (sw_name s)), s, w)
  else if offset =? SW_FLAGS then
    Ok (match writefn s with Some _ => SW_FLAGS_OUTPUT | None => 0 end, s, w)
  else if offset =? SW_STATE then Ok (state s, s, w)
  else if offset =? SW_INT_STATUS then
    if state_changed s && sw_int_enable s then
      let s := mkSwitch (sw_dev s) (sw_name s) (state s) false (sw_int_enable s) (writefn s) in
      let! w := goldfish_device_set_irq pic (sw_dev s) 0 0 w in
      Ok (1, s, w)
    else Ok (0, s, w)
  else Abort.

Definition goldfish_switch_write {M : Type} `{GuestMemory M} (offset value : Z)
  (s : switch_state) (w : W) (m : M) : res (switch_state * W * M) :=
  if offset =? SW_NAME_PTR then
    let! (_, m) := gm_write value (sw_name s) m in Ok (s, w, m)
  else if offset =? SW_STATE then
    match writefn s with
    | Some fn =>
        let! (new_state, w) := fn value w in
        if negb (new_state =? state s) then
          let! (s, w) := goldfish_switch_set_state new_state s w in Ok (s, w, m)
        else Ok (s, w, m)
    | None => Abort
    end
  else if offset =? SW_INT_ENABLE then
    let en := ctrue (Z.land value 1) in
    let! w := if state_changed s && negb (eqb (sw_int_enable s) en)
              then goldfish_device_set_irq pic (sw_dev s) 0 (cbool en) w else Ok w in
    Ok (mkSwitch (sw_dev s) (sw_name s) (state s) (state_changed s) en (writefn s), w, m)
  else Abort.

Definition goldfish_switch_save (f : QEMUFile) (s : switch_state) : res QEMUFile :=
  let! f := qemu_put_be32 f (state s) in
  let! f := qemu_put_byte f (cbool (state_changed s)) in
  qemu_put_byte f (cbool (sw_int_enable s)).

(** The bytes are stored into one-bit fields. *)
Definition goldfish_switch_load (f : QEMUFile) (s : switch_state) (version_id : Z)
  : res (Z * switch_state * QEMUFile) :=
  if negb (version_id =? 1) then Ok (-1, s, f) else
  let! (st, f) := qemu_get_be32 f in
  let! (ch, f) := qemu_get_byte f in
  let! (en, f) := qemu_get_byte f in
  Ok (0, mkSwitch (sw_dev s) (sw_name s) st (Z.odd ch) (Z.odd en) (writefn s), f).

Definition goldfish_switch_init (d : goldfish_device) (nm : list Z)
  (fn : option (Z -> W -> res (Z * W))) : switch_state := mkSwitch d nm 0 false false fn.

End Devices.
Arguments switch_state : clear implicits.

(** ** Lines *)

Section Lines.
Context {W : Type} (pic : list (qemu_irq W)) `{P : PicLines W pic}.

Lemma dev_set_irq d level w :
  owns_line d 0 -> pic_ok w ->
  exists w', goldfish_device_set_irq pic d 0 level w = Ok w' /\ pic_ok w' /\
    line_level w' (irq d) = ctrue level.
Proof.
  intros Ho Hw. destruct (device_set_irq_ok pic d 0 level w Ho Hw) as (w' & E & Hok & Hl & _).
  rewrite Z.add_0_r in Hl. by exists w'.
Qed.

(** The switch's line is high exactly when a change is pending and its
    interrupt is enabled. *)
Definition switch_inv (s : switch_state W) (w : W) : Prop :=
  owns_line (sw_dev s) 0 /\ pic_ok w /\
  line_level w (irq (sw_dev s)) = state_changed s && sw_int_enable s.

(** What the switch relies on of its output function: it drives other
    lines only. *)
Definition writefn_ok (s : switch_state W) : Prop :=
  forall fn v w r w', writefn s = Some fn -> fn v w = Ok (r, w') -> pic_ok w ->
    pic_ok w' /\ line_level w' (irq (sw_dev s)) = line_level w (irq (sw_dev s)).

Context {M : Type} `{GM : GuestMemory M}.

Inductive switch_step : switch_state W * W * M -> switch_state W * W * M -> Prop :=
| sw_step_host st s w m s' w' :
    goldfish_switch_set_state pic st s w = Ok (s', w') -> switch_step (s, w, m) (s', w', m)
| sw_step_read offset v s w m s' w' :
    goldfish_switch_read pic offset s w = Ok (v, s', w') -> switch_step (s, w, m) (s', w', m)
| sw_step_write offset value s w m s' w' m' :
    goldfish_switch_write pic offset value s w m = Ok (s', w', m') ->
    switch_step (s, w, m) (s', w', m').

Lemma set_state_inv st s w : switch_inv s w ->
  exists s' w', goldfish_switch_set_state pic st s w = Ok (s', w') /\ switch_inv s' w' /\
    sw_dev s' = sw_dev s /\ writefn s' = writefn s.
Proof.
  intros (Ho & Hw & Hl). unfold goldfish_switch_set_state. cbn -[goldfish_device_set_irq].
  destruct (sw_int_enable s) eqn:En.
  - destruct (dev_set_irq (sw_dev s) 1 w Ho Hw) as (w' & -> & Hok & Hl'). cbn.
    eexists _, w'. split; [done|]. split; [|done]. split; [done|]. split; [done|]. cbn. by rewrite Hl'.
  - eexists _, w. split; [done|]. split; [|done]. split; [done|]. split; [done|].
    cbn. by rewrite Hl, andb_false_r.
Qed.

Lemma switch_read_inv offset v s w s' w' :
  switch_inv s w -> goldfish_switch_read pic offset s w = Ok (v, s', w') ->
  switch_inv s' w' /\ sw_dev s' = sw_dev s /\ writefn s' = writefn s.
Proof.
  intros Hinv. pose proof Hinv as (Ho & Hw & Hl). unfold goldfish_switch_read.
  repeat (case_match; [intros [= <- <- <-]; done|]). case_match; [|done].
  destruct (state_changed s && sw_int_enable s) eqn:E.
  - cbn [sw_dev]. destruct (dev_set_irq (sw_dev s) 0 w Ho Hw) as (w1 & -> & Hok & Hl').
    intros [= <- <- <-]. split; [|done]. split; [done|]. split; [done|]. done.
  - intros [= <- <- <-]. done.
Qed.

Lemma switch_write_inv offset value s w m s' w' m' :
  switch_inv s w -> writefn_ok s -> goldfish_switch_write pic offset value s w m = Ok (s', w', m') ->
  switch_inv s' w' /\ sw_dev s' = sw_dev s /\ writefn s' = writefn s.
Proof.
  intros Hinv Hfn. pose proof Hinv as (Ho & Hw & Hl). unfold goldfish_switch_write.
  case_match.
  { intros E. apply rbind_Ok in E as ([r m1] & _ & [= <- <- <-]). done. }
  case_match.
  { destruct (writefn s) as [fn|] eqn:Ew; [|done]. intros E.
    apply rbind_Ok in E as ([ns w1] & E1 & E). destruct (Hfn _ _ _ _ _ Ew E1 Hw) as [Hok Hsame].
    assert (Hinv1 : switch_inv s w1) by (split; [done|split; [done|by rewrite Hsame]]).
    case_match; [|by injection E as <- <- <-].
    destruct (set_state_inv ns s w1 Hinv1) as (s2 & w2 & E2 & Hinv2 & Hd & Hf). rewrite E2 in E.
    injection E as <- <- <-. by rewrite Hf, Ew. }
  case_match; [|done]. set (en := ctrue (Z.land value 1)).
  destruct (state_changed s && negb (eqb (sw_int_enable s) en)) eqn:Ec; cbn [rbind].
  - destruct (dev_set_irq (sw_dev s) (cbool en) w Ho Hw) as (w1 & -> & Hok & Hl').
    intros [= <- <- <-]. split; [|done]. split; [done|]. split; [done|]. cbn.
    apply andb_true_iff in Ec as [-> _]. rewrite Hl'. apply ctrue_cbool.
  - intros [= <- <- <-]. split; [|done]. split; [done|]. split; [done|]. cbn. rewrite Hl.
    destruct (state_changed s); [|done]. simpl in *. apply negb_false_iff, eqb_prop in Ec. done.
Qed.
End Lines.

(** Over every sequence of host state changes, guest reads and guest
    writes, a switch's interrupt line is high exactly when a state change is
    pending and the guest has enabled the interrupt. *)
Theorem switch_line_invariant {W : Type} (pic : list (qemu_irq W)) `{P : PicLines W pic}
  {M : Type} `{GM : GuestMemory M} (s s' : switch_state W) (w w' : W) (m m' : M) :
  switch_inv pic s w -> writefn_ok pic s ->
  rtc (switch_step pic) (s, w, m) (s', w', m') ->
  line_level w' (irq (sw_dev s')) = state_changed s' && sw_int_enable s' /\ sw_dev s' = sw_dev s.
Proof.
  intros Hinv Hfn Hr.
  set (Q := fun x : switch_state W * W * M => switch_inv pic x.1.1 x.1.2 /\
              sw_dev x.1.1 = sw_dev s /\ writefn x.1.1 = writefn s).
  assert (Hstep : forall x y, switch_step pic x y -> Q x -> Q y).
  { intros x y Hs (Hi & Hd & Hf).
    assert (Hfn1 : writefn_ok pic x.1.1) by (unfold writefn_ok; rewrite Hd, Hf; exact Hfn).
    destruct Hs; simpl in *.
    - destruct (set_state_inv pic st s0 w0 Hi) as (? & ? & E & Hi' & Hd' & Hf').
      rewrite E in *. simplify_eq. unfold Q. simpl. by rewrite Hd', Hf'.
    - destruct (switch_read_inv pic _ _ _ _ _ _ Hi H) as (? & Hd' & Hf').
      unfold Q. simpl. by rewrite Hd', Hf'.
    - destruct (switch_write_inv pic _ _ _ _ _ _ _ _ Hi Hfn1 H) as (? & Hd' & Hf').
      unfold Q. simpl. by rewrite Hd', Hf'. }
  assert (Q (s', w', m')) as ((_ & _ & ?) & ? & _); [|done].
  revert Hr. generalize (s', w', m'). intros y Hr.
  apply (rtc_ind_r Q (s, w, m)) in Hr; [done|by split|]. eauto.
Qed.

#[local] Instance demo_guest_memory : GuestMemory (PhysMem * unit) :=
  exec_guest_memory (fun _ _ _ _ => Abort) demo_tr.

Definition switch_dev : goldfish_device :=
  mkDev 0 [] 1 0xff024000 0x1000 28 1.
Definition demo_switch : switch_state (goldfish_int_state * CPUState) :=
  goldfish_switch_init switch_dev [116; 101; 115; 116] None.

Lemma demo_switch_inv : switch_inv arm_pic demo_switch pic0.
Proof.
  split; [|split; [exact int_wf_init|vm_compute; reflexivity]].
  unfold owns_line. change (irq_count (sw_dev demo_switch)) with 1.
  assert (irq (sw_dev demo_switch) = 28) as -> by (vm_compute; reflexivity). lia.
Qed.

Lemma switch_line_invariant_witness :
  exists (s' : switch_state (goldfish_int_state * CPUState)) w',
    line_level w' (irq (sw_dev s')) = true /\ sw_dev s' = switch_dev.
Proof.
  destruct (goldfish_switch_set_state arm_pic 1 demo_switch pic0) as [[s1 w1]| |] eqn:E1;
    [|vm_compute in E1; discriminate..].
  destruct (goldfish_switch_write arm_pic SW_INT_ENABLE 1 s1 w1 (demo_mem, tt)) as [[[s2 w2] m2]| |] eqn:E2;
    [|vm_compute in E1; injection E1 as <- <-; vm_compute in E2; discriminate..].
  exists s2, w2.
  assert (Hen : state_changed s2 && sw_int_enable s2 = true).
  { vm_compute in E1. injection E1 as <- <-. vm_compute in E2. by injection E2 as <- <- <-. }
  destruct (switch_line_invariant arm_pic demo_switch s2 pic0 w2 (demo_mem, tt) m2 demo_switch_inv)
    as [H1 H2].
  - by intros fn v w r w'.
  - eapply rtc_l; [eapply sw_step_host; exact E1|].
    eapply rtc_l; [eapply sw_step_write; exact E2|]. apply rtc_refl.
  - split; [by rewrite H1|exact H2].
Defined.

(** The flag a change of property raises. *)
Definition change_kind (ac : Z) : Z := if ctrue ac then AC_STATUS_CHANGED else BATTERY_STATUS_CHANGED.

(** A change of property: some new values, then the interrupt. *)
Lemma set_prop_shape {W : Type} (pic : list (qemu_irq W)) ac property value s w :
  exists a st h p c, goldfish_battery_set_prop pic ac property value s w =
    if negb (change_kind ac =? int_status s) then
      let ist := Z.lor (int_status s) (change_kind ac) in
      let! w := goldfish_device_set_irq pic (dev s) 0 (Z.land ist (int_enable s)) w in
      Ok (mkBattery (dev s) ist (int_enable s) a st h p c, w)
    else Ok (mkBattery (dev s) (int_status s) (int_enable s) a st h p c, w).
Proof.
  unfold goldfish_battery_set_prop. fold (change_kind ac). destruct s as [d ist ie a st h p c].
  destruct (ctrue ac); repeat (destruct (property =? _); [by eexists _, _, _, _, _|]);
    by eexists _, _, _, _, _.
Qed.

(** A property change the guest has enabled interrupts for is delivered:
    with no change pending, [goldfish_battery_set_prop] raises the line, and
    the guest's read of the interrupt status then returns the kind of the
    change, lowers the line and leaves nothing pending. *)
Theorem battery_notify {W : Type} (pic : list (qemu_irq W)) `{P : PicLines W pic}
  (s : goldfish_battery_state) (w : W) (ac property value : Z) :
  owns_line (dev s) 0 -> pic_ok w -> int_status s = 0 -> int_enable s = 3 ->
  exists s1 w1 s2 w2,
    goldfish_battery_set_prop pic ac property value s w = Ok (s1, w1) /\
    line_level w1 (irq (dev s)) = true /\
    goldfish_battery_read pic BATTERY_INT_STATUS s1 w1 = Ok (change_kind ac, s2, w2) /\
    line_level w2 (irq (dev s)) = false /\ int_status s2 = 0.
Proof.
  intros Ho Hw Hs He.
  destruct (dev_set_irq pic (dev s) (change_kind ac) w Ho Hw) as (w1 & E1 & Hok1 & Hl1).
  destruct (dev_set_irq pic (dev s) 0 w1 Ho Hok1) as (w2 & E2 & Hok2 & Hl2).
  destruct (set_prop_shape pic ac property value s w) as (a & st & h & p & c & ->).
  assert (Hk : change_kind ac = 1 \/ change_kind ac = 2)
    by (unfold change_kind; destruct (ctrue ac); auto).
  cbv zeta. rewrite Hs, He. replace (negb (change_kind ac =? 0)) with true by (by destruct Hk as [-> | ->]).
  rewrite Z.lor_0_l. replace (Z.land (change_kind ac) 3) with (change_kind ac) by (by destruct Hk as [-> | ->]).
  rewrite E1. eexists _, w1, (mkBattery (dev s) 0 3 a st h p c), w2. split; [reflexivity|].
  split; [rewrite Hl1; by destruct Hk as [-> | ->]|]. split; [|done].
  unfold goldfish_battery_read. cbn -[goldfish_device_set_irq Z.land].
  replace (Z.land (change_kind ac) 3) with (change_kind ac) by (by destruct Hk as [-> | ->]).
  replace (ctrue (change_kind ac)) with true by (by destruct Hk as [-> | ->]). by rewrite E2.
Qed.

Definition battery_dev : goldfish_device :=
  mkDev 0 [] 0 0xff01f000 0x1000 25 1.
Definition demo_battery : goldfish_battery_state :=
  mkBattery battery_dev 0 3 1 1 1 1 50.

Lemma battery_owns : owns_line battery_dev 0.
Proof.
  unfold owns_line. assert (irq_count battery_dev = 1) as -> by (vm_compute; reflexivity).
  assert (irq battery_dev = 25) as -> by (vm_compute; reflexivity). lia.
Qed.

Lemma battery_notify_witness :
  exists s1 w1 s2 w2,
    goldfish_battery_set_prop arm_pic 0 POWER_SUPPLY_PROP_CAPACITY 80 demo_battery pic0 = Ok (s1, w1) /\
    line_level w1 (irq battery_dev) = true /\
    goldfish_battery_read arm_pic BATTERY_INT_STATUS s1 w1 = Ok (1, s2, w2) /\
    line_level w2 (irq battery_dev) = false /\ int_status s2 = 0.
Proof.
  refine (battery_notify arm_pic demo_battery pic0 0 POWER_SUPPLY_PROP_CAPACITY 80
            battery_owns int_wf_init eq_refl eq_refl).
Defined.

(** A battery change made while the guest's interrupts are disabled
    blocks later ones: after the guest enables the interrupts, further
    battery changes leave the line low although a change is pending and
    enabled, because [goldfish_battery_set_prop] compares the whole status
    word with the new flag. *)
Theorem battery_lost_interrupt {W : Type} (pic : list (qemu_irq W)) `{P : PicLines W pic}
  (d : goldfish_device) (w : W) (p1 v1 p2 v2 : Z) :
  owns_line d 0 -> pic_ok w -> 
  exists s1 w1 s2 s3,
    goldfish_battery_set_prop pic 0 p1 v1 (goldfish_battery_init d) w = Ok (s1, w1) /\
    goldfish_battery_write BATTERY_INT_ENABLE 3 s1 = Ok s2 /\
    goldfish_battery_set_prop pic 0 p2 v2 s2 w1 = Ok (s3, w1) /\
    line_level w1 (irq d) = false /\ ctrue (Z.land (int_status s3) (int_enable s3)) = true.
Proof.
  intros Ho Hw. destruct (dev_set_irq pic d 0 w Ho Hw) as (w1 & E1 & Hok1 & Hl1).
  destruct (set_prop_shape pic 0 p1 v1 (goldfish_battery_init d) w) as (a & st & h & p & c & ->).
  cbv zeta. change (dev (goldfish_battery_init d)) with d.
  change (change_kind 0) with 1. change (int_status (goldfish_battery_init d)) with 0.
  change (int_enable (goldfish_battery_init d)) with 0.
  change (Z.land (Z.lor 0 1) 0) with 0. change (negb (1 =? 0)) with true. rewrite E1.
  set (s2 := mkBattery d 1 3 a st h p c).
  destruct (set_prop_shape pic 0 p2 v2 s2 w1) as (a' & st' & h' & p' & c' & E2).
  eexists _, w1, s2, _. split; [reflexivity|]. split; [done|]. split; [exact E2|]. split; [exact Hl1|done].
Qed.

Lemma battery_lost_interrupt_witness :
  exists s1 w1 s2 s3,
    goldfish_battery_set_prop arm_pic 0 POWER_SUPPLY_PROP_CAPACITY 40 (goldfish_battery_init battery_dev) pic0
      = Ok (s1, w1) /\
    goldfish_battery_write BATTERY_INT_ENABLE 3 s1 = Ok s2 /\
    goldfish_battery_set_prop arm_pic 0 POWER_SUPPLY_PROP_CAPACITY 10 s2 w1 = Ok (s3, w1) /\
    line_level w1 (irq battery_dev) = false /\ ctrue (Z.land (int_status s3) (int_enable s3)) = true.
Proof.
  exact (battery_lost_interrupt arm_pic battery_dev pic0 POWER_SUPPLY_PROP_CAPACITY 40
           POWER_SUPPLY_PROP_CAPACITY 10 battery_owns int_wf_init).
Defined.
