(* ===== verification/Gsm.v ===== *)
(** * GSM text codecs: [telephony/gsm.c]

    Strings are lists of bytes; a function that fills a destination buffer
    returns the bytes it stores, in order (the callers size the buffer with a
    first call on a null destination, whose result is the length of the
    list). *)
From S2P Require Import Prelude.

(** ** Binary-coded decimals *)

Definition gsm_int_to_bcdi (value : Z) : Z :=
  u8 (Z.lor (Z.quot value 10) (Z.shiftl (Z.rem value 10) 4)).

Definition gsm_int_from_bcdi (val : Z) : Z :=
  let ret := 0 in
  let ret := if Z.land val 0xf0 <=? 0x90 then Z.shiftr val 4 else ret in
  if Z.land val 0x0f <=? 0x90 then Z.lor ret (Z.rem val 0xf * 10) else ret.

(** ** Hexadecimal *)

(** [(unsigned)(c - lo) < n] *)
Definition in_span (c lo n : Z) : bool := u32 (c - lo) <? n.

Definition gsm_hexchar_to_int (c : Z) : Z :=
  if in_span c 48 10 then c - 48
  else if in_span c 97 6 then 10 + (c - 97)
  else if in_span c 65 6 then 10 + (c - 65)
  else -1.

Definition gsm_hexchar_to_int0 (c : Z) : Z :=
  let ret := gsm_hexchar_to_int c in if ret <? 0 then 0 else ret.

(** The two characters at the pointer. *)
Definition gsm_hex2_to_byte (c0 c1 : Z) : Z :=
  let hi := gsm_hexchar_to_int c0 in
  let lo := gsm_hexchar_to_int c1 in
  if (hi <? 0) || (lo <? 0) then -1 else Z.lor (Z.shiftl hi 4) lo.

Definition gsm_hex4_to_short (c0 c1 c2 c3 : Z) : Z :=
  let hi := gsm_hex2_to_byte c0 c1 in
  let lo := gsm_hex2_to_byte c2 c3 in
  if (hi <? 0) || (lo <? 0) then -1 else Z.lor (Z.shiftl hi 8) lo.

Definition gsm_hex2_to_byte0 (c0 c1 : Z) : Z :=
  u8 (Z.lor (Z.shiftl (gsm_hexchar_to_int0 c0) 4) (gsm_hexchar_to_int0 c1)).

Definition hexdigits : list Z :=
  [48; 49; 50; 51; 52; 53; 54; 55; 56; 57; 97; 98; 99; 100; 101; 102].

Definition gsm_hex_from_byte (val : Z) : list Z :=
  [arr hexdigits (Z.land (Z.shiftr val 4) 15); arr hexdigits (Z.land val 15)].

Definition gsm_hex_from_short (val : Z) : list Z :=
  gsm_hex_from_byte (Z.shiftr val 8) ++ gsm_hex_from_byte val.

Fixpoint gsm_hex_to_bytes0 (hex : list Z) : list Z :=
  match hex with
  | c0 :: c1 :: hex' => gsm_hex2_to_byte0 c0 c1 :: gsm_hex_to_bytes0 hex'
  | [c0] => [u8 (Z.shiftl (gsm_hexchar_to_int0 c0) 4)]
  | [] => []
  end.

(** The loop of [gsm_hex_to_bytes] over an even number of characters. *)
Fixpoint hex_pairs (hex : list Z) : option (list Z) :=
  match hex with
  | c0 :: c1 :: hex' =>
      let c := gsm_hex2_to_byte c0 c1 in
      if c <? 0 then None
      else match hex_pairs hex' with
           | Some r => Some (u8 c :: r)
           | None => None
           end
  | _ => Some []
  end.

(** [gsm_hex_to_bytes]: [None] is the result -1. *)
Definition gsm_hex_to_bytes (hex : list Z) : option (list Z) :=
  if ctrue (Z.land (Z.of_nat (length hex)) 1) then None else hex_pairs hex.

Definition gsm_hex_from_bytes (src : list Z) : list Z := concat (map gsm_hex_from_byte src).

(** ** UTF-8 and UCS-2 *)

(** [while (p < end && (p[0] & 0xc0) == 0x80)] of [utf8_next]. *)
Fixpoint utf8_continue (c : Z) (p : list Z) : Z * list Z :=
  match p with
  | x :: p' => if Z.land x 0xc0 =? 0x80
               then utf8_continue (s32 (Z.lor (Z.shiftl c 6) (Z.land x 0x3f))) p'
               else (c, p)
  | [] => (c, p)
  end.

(** [utf8_next]: -1 at the end of the string. *)
Definition utf8_next (p : list Z) : Z * list Z :=
  match p with
  | [] => (-1, [])
  | c :: p' =>
      if 128 <=? c then
        let c := if Z.land c 0xe0 =? 0xc0 then Z.land c 0x1f
                 else if Z.land c 0xf0 =? 0xe0 then Z.land c 0x0f
                 else Z.land c 0x07 in
        utf8_continue c p'
      else (c, p')
  end.

Fixpoint skip_continuation (p : list Z) : list Z :=
  match p with
  | x :: p' => if Z.land x 0xc0 =? 0x80 then skip_continuation p' else p
  | [] => []
  end.

Fixpoint utf8_skip (p : list Z) (count : nat) : list Z :=
  match count, p with
  | O, _ => p
  | _, [] => []
  | S count', c :: p' => utf8_skip (if 128 <? c then skip_continuation p' else p') count'
  end.

(** [utf8_write]: the bytes stored at [utf8 + offset]. *)
Definition utf8_write (v : Z) : list Z :=
  if v <? 128 then [u8 v]
  else if v <? 0x800 then
    [u8 (Z.lor 0xc0 (Z.shiftr v 6)); u8 (Z.lor 0x80 (Z.land v 0x3f))]
  else if v <? 0x10000 then
    [u8 (Z.lor 0xe0 (Z.shiftr v 12)); u8 (Z.lor 0x80 (Z.land (Z.shiftr v 6) 0x3f));
     u8 (Z.lor 0x80 (Z.land v 0x3f))]
  else
    [u8 (Z.lor 0xf0 (Z.land (Z.shiftr v 18) 0x7)); u8 (Z.lor 0x80 (Z.land (Z.shiftr v 12) 0x3f));
     u8 (Z.lor 0x80 (Z.land (Z.shiftr v 6) 0x3f)); u8 (Z.lor 0x80 (Z.land v 0x3f))].

Definition ucs2_write (v : Z) : list Z := [u8 (Z.shiftr v 8); u8 v].

(** The continuation bytes of one character: the string after them. *)
Fixpoint check_continuation (len : nat) (p : list Z) : option (list Z) :=
  match len with
  | O => Some p
  | S len' =>
      match p with
      | x :: p' => if Z.land x 0xc0 =? 0x80 then check_continuation len' p' else None
      | [] => None
      end
  end.

Fixpoint utf8_check_loop (fuel : nat) (p : list Z) : bool :=
  match p with
  | [] => true
  | c :: p' =>
      match fuel with
      | O => false
      | S fuel =>
          if 128 <=? c then
            let len := if Z.land c 0xe0 =? 0xc0 then Some 1%nat
                       else if Z.land c 0xf0 =? 0xe0 then Some 2%nat
                       else if Z.land c 0xf8 =? 0xf0 then Some 3%nat
                       else None in
            match len with
            | None => false
            | Some len =>
                match check_continuation len p' with
                | Some p'' => utf8_check_loop fuel p''
                | None => false
                end
            end
          else utf8_check_loop fuel p'
      end
  end.
Definition utf8_check (p : list Z) : bool := utf8_check_loop (length p) p.

Fixpoint ucs2_to_utf8 (ucs2 : list Z) : list Z :=
  match ucs2 with
  | hi :: lo :: ucs2' => utf8_write (Z.lor (Z.shiftl hi 8) lo) ++ ucs2_to_utf8 ucs2'
  | _ => []
  end.

(** The characters of a string, as the loops over [utf8_next] see them. *)
Fixpoint utf8_chars (fuel : nat) (p : list Z) : list Z :=
  match p with
  | [] => []
  | _ =>
      match fuel with
      | O => []
      | S fuel =>
          let '(c, p') := utf8_next p in
          if c <? 0 then [] else c :: utf8_chars fuel p'
      end
  end.
Definition utf8_decode (p : list Z) : list Z := utf8_chars (length p) p.

Definition utf8_to_ucs2 (utf8 : list Z) : list Z := concat (map ucs2_write (utf8_decode utf8)).

(** ** The GSM alphabet *)

Definition GSM_7BITS_ESCAPE : Z := 0x1b.

Definition gsm7bits_to_unicode : list Z :=
  [64; 163; 36; 165; 232; 233; 249; 236; 242; 199; 10; 216; 248; 13; 197; 229;
   0x394; 95; 0x3a6; 0x393; 0x39b; 0x3a9; 0x3a0; 0x3a8; 0x3a3; 0x398; 0x39e; 0; 198; 230; 223; 201;
   32; 33; 34; 35; 164; 37; 38; 39; 40; 41; 42; 43; 44; 45; 46; 47;
   48; 49; 50; 51; 52; 53; 54; 55; 56; 57; 58; 59; 60; 61; 62; 63;
   161; 65; 66; 67; 68; 69; 70; 71; 72; 73; 74; 75; 76; 77; 78; 79;
   80; 81; 82; 83; 84; 85; 86; 87; 88; 89; 90; 196; 214; 0x147; 220; 167;
   191; 97; 98; 99; 100; 101; 102; 103; 104; 105; 106; 107; 108; 109; 110; 111;
   112; 113; 114; 115; 116; 117; 118; 119; 120; 121; 122; 228; 246; 241; 252; 224].

Definition gsm7bits_extend_to_unicode : list Z :=
  [0; 0; 0; 0; 0; 0; 0; 0; 0; 0; 12; 0; 0; 0; 0; 0;
   0; 0; 0; 0; 94; 0; 0; 0; 0; 0; 0; 0; 0; 0; 0; 0;
   0; 0; 0; 0; 0; 0; 0; 0; 123; 125; 0; 0; 0; 0; 0; 92;
   0; 0; 0; 0; 0; 0; 0; 0; 0; 0; 0; 0; 91; 126; 93; 0;
   124; 0; 0; 0; 0; 0; 0; 0; 0; 0; 0; 0; 0; 0; 0; 0;
   0; 0; 0; 0; 0; 0; 0; 0; 0; 0; 0; 0; 0; 0; 0; 0;
   0; 0; 0; 0; 0; 0x20ac; 0; 0; 0; 0; 0; 0; 0; 0; 0; 0;
   0; 0; 0; 0; 0; 0; 0; 0; 0; 0; 0; 0; 0; 0; 0; 0].

(** [for (nn = 0; nn < 128; nn++)] over a table. *)
Fixpoint table_index (table : list Z) (nn unicode : Z) : Z :=
  match table with
  | [] => -1
  | x :: table' => if x =? unicode then nn else table_index table' (nn + 1) unicode
  end.

Definition unichar_to_gsm7 (unicode : Z) : Z := table_index gsm7bits_to_unicode 0 unicode.
Definition unichar_to_gsm7_extend (unicode : Z) : Z :=
  table_index gsm7bits_extend_to_unicode 0 unicode.

Definition unichar_to_gsm7_count (unicode : Z) : Z :=
  if 0 <=? unichar_to_gsm7 unicode then 1
  else if 0 <=? unichar_to_gsm7_extend unicode then 2
  else 0.

Fixpoint check_gsm7_loop (fuel : nat) (utf8 : list Z) : bool :=
  match utf8, fuel with
  | [], _ => true
  | _, O => true
  | _, S fuel =>
      let '(c, utf8') := utf8_next utf8 in
      if unichar_to_gsm7_count c =? 0 then false else check_gsm7_loop fuel utf8'
  end.
Definition utf8_check_gsm7 (utf8 : list Z) : bool := check_gsm7_loop (length utf8) utf8.

Definition utf8_to_gsm7_count (utf8 : list Z) : Z :=
  fold_left (fun result c =>
    let len := unichar_to_gsm7_count c in result + (if len =? 0 then 1 else len))
    (utf8_decode utf8) 0.

(** The characters [utf8_skip_gsm7] skips are returned as the rest. *)
Fixpoint skip_gsm7_loop (fuel : nat) (p : list Z) (gsm7len : Z) : list Z :=
  match fuel with
  | O => p
  | S fuel =>
      if gsm7len <=? 0 then p else
      let '(c, q) := utf8_next p in
      if c <? 0 then p else
      let len := unichar_to_gsm7_count c in
      let len := if len =? 0 then 1 else len in
      if gsm7len <? len then p else skip_gsm7_loop fuel q (gsm7len - len)
  end.
Definition utf8_skip_gsm7 (utf8 : list Z) (gsm7len : Z) : list Z :=
  skip_gsm7_loop (length utf8) utf8 gsm7len.

(** *** The bit writer

    [bw_out] is what has been stored from the first destination byte on. *)
Record BWriterRec := mkBW {
  bw_out : list Z;
  pad : Z;
  bits : Z;
  offset : Z
}.

(** [dst0] is the byte at [dst + (start >> 3)]; only its low bits are kept. *)
Definition bwriter_init (dst0 start : Z) : BWriterRec :=
  let shift := Z.land start 7 in
  mkBW [] (if 0 <? shift then Z.ldiff dst0 (Z.shiftl 0xFF shift) else 0) shift start.

Definition bwriter_add7 (w : BWriterRec) (value : Z) : BWriterRec :=
  let pad1 := Z.lor (pad w) (u32 (Z.shiftl value (bits w))) in
  let bits1 := bits w + 7 in
  if 8 <=? bits1 then
    mkBW (bw_out w ++ [u8 pad1]) (Z.shiftr pad1 8) (bits1 - 8) (offset w + 7)
  else mkBW (bw_out w) pad1 bits1 (offset w + 7).

(** [bwriter_done]: the bit offset reached, and the bytes. *)
Definition bwriter_done (w : BWriterRec) : Z * list Z :=
  (offset w, if 0 <? bits w then bw_out w ++ [u8 (pad w)] else bw_out w).

(** The septets of a character: itself, an escape and its code in the
    extension table, or a space. *)
Definition gsm7_septets (c : Z) : list Z :=
  let nn := unichar_to_gsm7 c in
  if 0 <=? nn then [nn]
  else let nn := unichar_to_gsm7_extend c in
       if 0 <=? nn then [GSM_7BITS_ESCAPE; nn] else [0x20].

Definition bwriter_add_all (w : BWriterRec) (l : list Z) : BWriterRec := fold_left bwriter_add7 l w.

(** [utf8_to_gsm7] with a destination. *)
Definition utf8_to_gsm7 (utf8 : list Z) (dst0 start : Z) : Z * list Z :=
  bwriter_done (fold_left (fun w c => bwriter_add_all w (gsm7_septets c))
                  (utf8_decode utf8) (bwriter_init dst0 start)).

Definition utf8_to_gsm8 (utf8 : list Z) : list Z := concat (map gsm7_septets (utf8_decode utf8)).

(** The septet at the pointer: a second byte is read when the septet
    crosses into it. *)
Definition read_septet (src : list Z) (shift : Z) : res Z :=
  let! b0 := arr_get src 0 in
  let c := Z.land (Z.shiftr b0 shift) 0x7f in
  if 1 <? shift then
    let! b1 := arr_get src 1 in
    Ok (Z.land (Z.lor (Z.shiftl b1 (8 - shift)) c) 0x7f)
  else Ok c.

(** The loop of [utf8_from_gsm7]; [escaped] is never reset. *)
Fixpoint from_gsm7_loop (septet_count : nat) (src : list Z) (shift : Z) (escaped : bool)
  : res (list Z) :=
  match septet_count with
  | O => Ok []
  | S n =>
      let! c := read_septet src shift in
      let '(out, escaped) :=
        if escaped then (utf8_write (arr gsm7bits_extend_to_unicode c), escaped)
        else if c =? GSM_7BITS_ESCAPE then ([], true)
        else (utf8_write (arr gsm7bits_to_unicode c), escaped) in
      let shift := shift + 7 in
      let! rest := if 8 <=? shift then from_gsm7_loop n (drop 1 src) (shift - 8) escaped
                   else from_gsm7_loop n src shift escaped in
      Ok (out ++ rest)
  end.
Definition utf8_from_gsm7 (src : list Z) (septet_offset : Z) (septet_count : nat) : res (list Z) :=
  from_gsm7_loop septet_count (drop (Z.to_nat (Z.shiftr septet_offset 3)) src)
    (Z.land septet_offset 7) false.

(** [utf8_from_gsm8]; [escaped] is not reset after an extended character. *)
Fixpoint from_gsm8_loop (src : list Z) (escaped : bool) : list Z :=
  match src with
  | [] => []
  | c :: src' =>
      if c =? 0xff then []
      else if c =? GSM_7BITS_ESCAPE then
        if escaped then utf8_write 0x20 ++ from_gsm8_loop src' false
        else from_gsm8_loop src' true
      else if 0x80 <=? c then utf8_write 0x20 ++ from_gsm8_loop src' false
      else if escaped then utf8_write (arr gsm7bits_extend_to_unicode c) ++ from_gsm8_loop src' escaped
      else utf8_write (arr gsm7bits_to_unicode c) ++ from_gsm8_loop src' escaped
  end.
Definition utf8_from_gsm8 (src : list Z) : list Z := from_gsm8_loop src false.

(** ** Hexadecimal round trip *)

Lemma hex_pairs_from_byte b r :
  in_u8 b -> hex_pairs (gsm_hex_from_byte b ++ r) =
             match hex_pairs r with Some l => Some (b :: l) | None => None end.
Proof.
  intros Hb. assert (H : gsm_hex2_to_byte (arr hexdigits (Z.land (Z.shiftr b 4) 15))
                           (arr hexdigits (Z.land b 15)) = b).
  { apply Z.eqb_eq. revert b Hb.
    apply (below_forall 256 (fun b => gsm_hex2_to_byte (arr hexdigits (Z.land (Z.shiftr b 4) 15))
             (arr hexdigits (Z.land b 15)) =? b)). vm_compute. reflexivity. }
  cbn [gsm_hex_from_byte app hex_pairs]. rewrite H. rewrite (proj2 (Z.ltb_ge b 0)) by lia.
  by rewrite uwrap_small by (simpl; lia).
Qed.

Lemma hex_pairs_from_bytes l :
  Forall (fun b => in_u8 b) l -> hex_pairs (gsm_hex_from_bytes l) = Some l.
Proof.
  unfold gsm_hex_from_bytes. induction 1 as [|b l Hb Hl IH]; [done|].
  cbn [map concat]. by rewrite hex_pairs_from_byte, IH.
Qed.

Lemma length_hex_from_bytes l : length (gsm_hex_from_bytes l) = (2 * length l)%nat.
Proof. unfold gsm_hex_from_bytes. induction l as [|b l IH]; [done|]. cbn [map concat]. rewrite length_app, IH. simpl. lia. Qed.

(** ** UTF-8 round trip *)

(** A continuation byte carrying six bits, and the lead bytes. *)
Lemma cont_byte y : 0 <= y < 64 ->
  Z.land (u8 (Z.lor 0x80 y)) 0xc0 = 0x80 /\ Z.land (u8 (Z.lor 0x80 y)) 0x3f = y.
Proof.
  intros Hy. rewrite <- !Z.eqb_eq, <- andb_true_iff. revert y Hy.
  apply (below_forall 64 (fun y => (Z.land (u8 (Z.lor 0x80 y)) 0xc0 =? 0x80) &&
    (Z.land (u8 (Z.lor 0x80 y)) 0x3f =? y))). vm_compute. reflexivity.
Qed.

Lemma lead_byte2 x : 0 <= x < 32 -> let b := u8 (Z.lor 0xc0 x) in
  (128 <=? b) = true /\ (Z.land b 0xe0 =? 0xc0) = true /\ Z.land b 0x1f = x.
Proof.
  intros Hx b. rewrite <- Z.eqb_eq, <- !andb_true_iff. revert x Hx b.
  apply (below_forall 32 (fun x => let b := u8 (Z.lor 0xc0 x) in
    (128 <=? b) && ((Z.land b 0xe0 =? 0xc0) && (Z.land b 0x1f =? x)))). vm_compute. reflexivity.
Qed.

Lemma lead_byte3 x : 0 <= x < 16 -> let b := u8 (Z.lor 0xe0 x) in
  (128 <=? b) = true /\ (Z.land b 0xe0 =? 0xc0) = false /\ (Z.land b 0xf0 =? 0xe0) = true /\
  Z.land b 0x0f = x.
Proof.
  intros Hx b. rewrite <- Z.eqb_eq, <- negb_true_iff, <- !andb_true_iff. revert x Hx b.
  apply (below_forall 16 (fun x => let b := u8 (Z.lor 0xe0 x) in
    (128 <=? b) && (negb (Z.land b 0xe0 =? 0xc0) && ((Z.land b 0xf0 =? 0xe0) && (Z.land b 0x0f =? x))))).
  vm_compute. reflexivity.
Qed.

Lemma lead_byte4 x : 0 <= x < 8 -> let b := u8 (Z.lor 0xf0 x) in
  (128 <=? b) = true /\ (Z.land b 0xe0 =? 0xc0) = false /\ (Z.land b 0xf0 =? 0xe0) = false /\
  (Z.land b 0xf8 =? 0xf0) = true /\ Z.land b 0x07 = x.
Proof.
  intros Hx b. rewrite <- Z.eqb_eq, <- !negb_true_iff, <- !andb_true_iff. revert x Hx b.
  apply (below_forall 8 (fun x => let b := u8 (Z.lor 0xf0 x) in
    (128 <=? b) && (negb (Z.land b 0xe0 =? 0xc0) && (negb (Z.land b 0xf0 =? 0xe0) &&
     ((Z.land b 0xf8 =? 0xf0) && (Z.land b 0x07 =? x)))))).
  vm_compute. reflexivity.
Qed.

(** A string that does not continue a character. *)
Definition no_continuation (p : list Z) : Prop :=
  match p with [] => True | x :: _ => Z.land x 0xc0 <> 0x80 end.

Lemma utf8_continue_stop c p : no_continuation p -> utf8_continue c p = (c, p).
Proof. destruct p as [|x p]; simpl; [done|]. intros H. by rewrite (proj2 (Z.eqb_neq _ _)). Qed.

Lemma utf8_continue_step c y p :
  0 <= y < 64 -> 0 <= c < 32768 ->
  utf8_continue c (u8 (Z.lor 0x80 y) :: p) = utf8_continue (c * 64 + y) p.
Proof.
  intros Hy Hc. destruct (cont_byte y Hy) as [H1 H2]. cbn [utf8_continue]. rewrite H1, H2, Z.eqb_refl.
  rewrite Z.shiftl_mul_pow2, (lor_low 6) by (try apply Z.mod_mul; lia).
  rewrite swrap_small; [done|lia|]. simpl. lia.
Qed.

Lemma land_3f y : Z.land y 0x3f = y mod 64.
Proof. change 0x3f with (Z.ones 6). by rewrite Z.land_ones by lia. Qed.

Lemma utf8_next_write v rest :
  0 <= v < 0x200000 -> no_continuation rest -> utf8_next (utf8_write v ++ rest) = (v, rest).
Proof.
  intros Hv Hr. unfold utf8_write.
  destruct (Z.ltb_spec v 128) as [H1|H1].
  { cbn [app utf8_next]. rewrite uwrap_small by (simpl; lia). by rewrite (proj2 (Z.leb_gt 128 v)) by lia. }
  rewrite !land_3f, !Z.shiftr_div_pow2 by lia.
  change (2 ^ 6) with 64. change (2 ^ 12) with 4096. change (2 ^ 18) with 262144.
  destruct (Z.ltb_spec v 0x800) as [H2|H2].
  { cbn [app utf8_next]. destruct (lead_byte2 (v / 64)) as (-> & -> & ->);
      [Z.to_euclidean_division_equations; lia|].
    rewrite utf8_continue_step, utf8_continue_stop by (try done; Z.to_euclidean_division_equations; lia).
    f_equal. Z.to_euclidean_division_equations; lia. }
  destruct (Z.ltb_spec v 0x10000) as [H3|H3].
  { cbn [app utf8_next]. destruct (lead_byte3 (v / 4096)) as (-> & -> & -> & ->);
      [Z.to_euclidean_division_equations; lia|].
    rewrite !utf8_continue_step, utf8_continue_stop by (try done; Z.to_euclidean_division_equations; lia).
    f_equal. Z.to_euclidean_division_equations; lia. }
  change 0x7 with (Z.ones 3). rewrite Z.land_ones by lia. change (2 ^ 3) with 8.
  cbn [app utf8_next]. destruct (lead_byte4 ((v / 262144) mod 8)) as (-> & -> & -> & _ & ->);
    [Z.to_euclidean_division_equations; lia|].
  rewrite !utf8_continue_step, utf8_continue_stop by (try done; Z.to_euclidean_division_equations; lia).
  f_equal. Z.to_euclidean_division_equations; lia.
Qed.

Lemma utf8_write_lead v r : 0 <= v < 0x200000 -> no_continuation (utf8_write v ++ r).
Proof.
  intros Hv. unfold utf8_write. destruct (Z.ltb_spec v 128).
  { cbn [app no_continuation]. rewrite <- Z.eqb_neq. apply negb_true_iff.
    apply (below_forall 128 (fun v => negb (Z.land (u8 v) 0xc0 =? 0x80)));
      [vm_compute; reflexivity|simpl; lia]. }
  assert (Hlead : forall x, 0 <= x < 64 -> Z.land (u8 (Z.lor 0xc0 x)) 0xc0 <> 0x80).
  { intros x Hx. rewrite <- Z.eqb_neq. apply negb_true_iff.
    apply (below_forall 64 (fun x => negb (Z.land (u8 (Z.lor 0xc0 x)) 0xc0 =? 0x80)));
      [vm_compute; reflexivity|done]. }
  change 0x7 with (Z.ones 3). rewrite Z.land_ones, !Z.shiftr_div_pow2 by lia.
  destruct (Z.ltb_spec v 0x800); [|destruct (Z.ltb_spec v 0x10000)]; cbn [app no_continuation].
  - apply Hlead. change (2 ^ 6) with 64. Z.to_euclidean_division_equations; lia.
  - replace (Z.lor 0xe0 (v / 2 ^ 12)) with (Z.lor 0xc0 (Z.lor 0x20 (v / 2 ^ 12))) by (by rewrite Z.lor_assoc).
    apply Hlead. apply (lor_bound 6); [lia|simpl; lia|]. change (2 ^ 12) with 4096.
    change (2 ^ 6) with 64. Z.to_euclidean_division_equations; lia.
  - set (y := (v / 2 ^ 18) mod 2 ^ 3).
    replace (Z.lor 0xf0 y) with (Z.lor 0xc0 (Z.lor 0x30 y)) by (by rewrite Z.lor_assoc).
    apply Hlead. apply (lor_bound 6); [lia|simpl; lia|]. pose proof (Z.mod_pos_bound (v / 2 ^ 18) 8).
    unfold y. change (2 ^ 3) with 8. change (2 ^ 6) with 64. lia.
Qed.

Lemma utf8_write_cons v : exists b r, utf8_write v = b :: r.
Proof. unfold utf8_write. repeat case_match; eauto. Qed.

Abbreviation unichar v := (0 <= v < 0x200000).

Lemma no_continuation_chars vs : Forall (fun v => unichar v) vs ->
  no_continuation (concat (map utf8_write vs)).
Proof. intros [|v vs' Hv _]; [exact I|]. by apply utf8_write_lead. Qed.

Lemma utf8_chars_write vs fuel :
  (length vs <= fuel)%nat -> Forall (fun v => unichar v) vs ->
  utf8_chars fuel (concat (map utf8_write vs)) = vs.
Proof.
  revert fuel. induction vs as [|v vs IH]; intros fuel Hf Hv; [by destruct fuel|].
  inversion Hv as [|? ? Hv1 Hvs]; subst. destruct fuel as [|fuel]; [simpl in Hf; lia|].
  cbn [map concat]. pose proof (utf8_next_write v (concat (map utf8_write vs)) Hv1
    (no_continuation_chars vs Hvs)) as E.
  destruct (utf8_write_cons v) as (b & r & Hw). rewrite Hw in *. cbn [app utf8_chars] in *. rewrite E.
  rewrite (proj2 (Z.ltb_ge v 0)) by lia. f_equal. apply IH; [simpl in Hf; lia|done].
Qed.

Lemma utf8_decode_write vs :
  Forall (fun v => unichar v) vs -> utf8_decode (concat (map utf8_write vs)) = vs.
Proof.
  intros Hv. apply utf8_chars_write; [|done]. clear Hv.
  induction vs as [|v vs IH]; simpl; [lia|]. rewrite length_app.
  destruct (utf8_write_cons v) as (b & r & ->). simpl. lia.
Qed.

(** ** Packing septets *)

(** The number whose base-256 digits are the bytes. *)
Fixpoint le_num (l : list Z) : Z :=
  match l with [] => 0 | b :: l' => b + 256 * le_num l' end.

(** The number whose base-128 digits are the septets. *)
Fixpoint septet_num (l : list Z) : Z :=
  match l with [] => 0 | s :: l' => s + 128 * septet_num l' end.

Abbreviation septet s := (0 <= s < 128).

Lemma le_num_app l1 l2 : le_num (l1 ++ l2) = le_num l1 + 256 ^ Z.of_nat (length l1) * le_num l2.
Proof.
  induction l1 as [|b l1 IH]; cbn [app le_num length]; [lia|].
  rewrite IH, Nat2Z.inj_succ, Z.pow_succ_r by lia. ring.
Qed.

Lemma le_num_bound l : Forall (fun b => in_u8 b) l -> 0 <= le_num l < 256 ^ Z.of_nat (length l).
Proof.
  induction 1 as [|b l Hb Hl IH]; cbn [le_num length]; [lia|].
  rewrite Nat2Z.inj_succ, Z.pow_succ_r by lia. lia.
Qed.

(** The writer holds the digits written so far: [v] is the number of all bits
    stored, [k] their count. *)
Definition bw_holds (w : BWriterRec) (v k : Z) : Prop :=
  Forall (fun b => in_u8 b) (bw_out w) /\ 0 <= bits w < 8 /\ 0 <= pad w < 2 ^ bits w /\
  8 * Z.of_nat (length (bw_out w)) + bits w = k /\
  le_num (bw_out w) + 256 ^ Z.of_nat (length (bw_out w)) * pad w = v.

Lemma pow256 n : 0 <= n -> 256 ^ n = 2 ^ (8 * n).
Proof. intros. change 256 with (2 ^ 8). by rewrite <- Z.pow_mul_r by lia. Qed.

Lemma bwriter_add7_holds w v k s :
  bw_holds w v k -> septet s -> bw_holds (bwriter_add7 w s) (v + 2 ^ k * s) (k + 7).
Proof.
  intros (Hout & Hb & Hp & Hk & Hv) Hs. unfold bwriter_add7.
  assert (Hpow : 2 ^ (bits w + 7) = 2 ^ bits w * 128) by (rewrite Z.pow_add_r by lia; done).
  assert (Hpb : 1 <= 2 ^ bits w <= 128).
  { split; [pose proof (Z.pow_pos_nonneg 2 (bits w)); lia|].
    change 128 with (2 ^ 7). apply Z.pow_le_mono_r; lia. }
  rewrite (uwrap_small 32) by (rewrite Z.shiftl_mul_pow2 by lia; simpl; nia).
  rewrite Z.lor_comm, (lor_low (bits w)), Z.shiftl_mul_pow2 by
    (try lia; rewrite Z.shiftl_mul_pow2 by lia; apply Z.mod_mul; lia).
  set (pad1 := s * 2 ^ bits w + pad w).
  assert (Hpad1 : 0 <= pad1 < 2 ^ (bits w + 7)) by (unfold pad1; nia).
  assert (Hkv : v + 2 ^ k * s = le_num (bw_out w) + 256 ^ Z.of_nat (length (bw_out w)) * pad1).
  { unfold pad1. rewrite <- Hv, <- Hk, Z.pow_add_r, <- pow256 by lia. ring. }
  destruct (Z.leb_spec 8 (bits w + 7)) as [H8|H8]; unfold bw_holds; cbn [bw_out bits pad].
  - split; [apply Forall_app; split; [done|]; repeat constructor; apply uwrap_range; lia|].
    split; [lia|]. rewrite Z.shiftr_div_pow2 by lia. change (2 ^ 8) with 256. split.
    + split; [apply Z.div_pos; lia|]. apply Z.div_lt_upper_bound; [lia|].
      change 256 with (2 ^ 8). rewrite <- Z.pow_add_r by lia.
      replace (8 + (bits w + 7 - 8)) with (bits w + 7) by lia. apply Hpad1.
    + rewrite length_app. cbn [length]. split; [lia|].
      rewrite le_num_app. cbn [le_num]. rewrite Hkv, Nat2Z.inj_add, Z.pow_add_r by lia.
      unfold uwrap. change (2 ^ 8) with 256. change (256 ^ Z.of_nat 1) with 256.
      pose proof (Z.div_mod pad1 256 ltac:(lia)) as Hdm. rewrite Hdm at 3. ring.
  - split; [done|]. split; [lia|]. split; [done|]. split; [lia|]. done.
Qed.

Lemma bwriter_add_all_holds l w v k :
  bw_holds w v k -> Forall (fun s => septet s) l ->
  bw_holds (bwriter_add_all w l) (v + 2 ^ k * septet_num l) (k + 7 * Z.of_nat (length l)).
Proof.
  intros H Hl. revert w v k H. induction Hl as [|s l Hs Hl IH]; intros w v k H.
  - cbn [septet_num length]. rewrite !Z.mul_0_r, !Z.add_0_r. done.
  - cbn [bwriter_add_all fold_left septet_num length].
    pose proof (IH _ _ _ (bwriter_add7_holds w v k s H Hs)) as H'.
    assert (0 <= k) by (destruct H as (_ & ? & _ & ? & _); lia).
    rewrite Z.pow_add_r in H' by lia. change (2 ^ 7) with 128 in H'.
    replace (v + 2 ^ k * (s + 128 * septet_num l))
      with (v + 2 ^ k * s + 2 ^ k * 128 * septet_num l) by ring.
    replace (k + 7 * Z.of_nat (S (length l))) with (k + 7 + 7 * Z.of_nat (length l)) by lia.
    exact H'.
Qed.

(** The bytes left by [bwriter_done] are the digits of the number held. *)
Lemma bwriter_done_holds w v k :
  bw_holds w v k -> let bytes := (bwriter_done w).2 in
  Forall (fun b => in_u8 b) bytes /\ le_num bytes = v /\ k <= 8 * Z.of_nat (length bytes).
Proof.
  intros (Hout & Hb & Hp & Hk & Hv) bytes. unfold bytes, bwriter_done. cbn [snd].
  destruct (Z.ltb_spec 0 (bits w)) as [Hpos|Hz].
  - assert (2 ^ bits w <= 128) by (change 128 with (2 ^ 7); apply Z.pow_le_mono_r; lia).
    rewrite (uwrap_small 8) by (simpl; lia).
    split; [apply Forall_app; split; [done|]; repeat constructor; lia|].
    split; [rewrite le_num_app; cbn [le_num]; lia|]. rewrite length_app. simpl. lia.
  - replace (bits w) with 0 in * by lia. change (2 ^ 0) with 1 in Hp.
    replace (pad w) with 0 in Hv by lia. split; [done|]. split; [lia|lia].
Qed.

Lemma land_7f y : Z.land y 0x7f = y mod 128.
Proof. change 0x7f with (Z.ones 7). by rewrite Z.land_ones by lia. Qed.

(** The reader extracts one base-128 digit. *)
Lemma read_septet_spec src shift :
  Forall (fun b => in_u8 b) src -> 0 <= shift < 8 -> shift + 7 <= 8 * Z.of_nat (length src) ->
  read_septet src shift = Ok ((le_num src / 2 ^ shift) mod 128).
Proof.
  intros Hsrc Hs Hlen. destruct Hsrc as [|b0 r Hb0 Hr]; [simpl in Hlen; lia|].
  unfold read_septet. change (arr_get (b0 :: r) 0) with (Ok b0). cbn [rbind].
  rewrite land_7f, Z.shiftr_div_pow2 by lia. cbn [le_num].
  destruct (Z.ltb_spec 1 shift) as [H1|H1].
  - destruct Hr as [|b1 r Hb1 Hr]; [simpl in Hlen; lia|].
    change (arr_get (b0 :: b1 :: r) 1) with (Ok b1). cbn [rbind le_num].
    rewrite land_7f, Z.shiftl_mul_pow2 by lia. pose proof (le_num_bound r Hr) as Hn.
    generalize dependent (le_num r). intros n Hn.
    rewrite (lor_low (8 - shift)).
    + f_equal. assert (shift = 2 \/ shift = 3 \/ shift = 4 \/ shift = 5 \/ shift = 6 \/ shift = 7) as Hc by lia.
      destruct Hc as [->|[->|[->|[->|[->| ->]]]]]; simpl (2 ^ _);
        Z.to_euclidean_division_equations; lia.
    + lia.
    + apply Z.mod_mul. pose proof (Z.pow_pos_nonneg 2 (8 - shift)). lia.
    + assert (b0 / 2 ^ shift < 2 ^ (8 - shift)).
      { apply Z.div_lt_upper_bound; [pose proof (Z.pow_pos_nonneg 2 shift); lia|].
        rewrite <- Z.pow_add_r by lia. replace (shift + (8 - shift)) with 8 by lia. simpl. lia. }
      assert (0 <= b0 / 2 ^ shift) by (apply Z.div_pos; [lia|pose proof (Z.pow_pos_nonneg 2 shift); lia]).
      pose proof (Z.mod_pos_bound (b0 / 2 ^ shift) 128). pose proof (Z.mod_le (b0 / 2 ^ shift) 128). lia.
  - f_equal. pose proof (le_num_bound r Hr) as Hn. generalize dependent (le_num r). intros n Hn.
    assert (shift = 0 \/ shift = 1) as [-> | ->] by lia; simpl (2 ^ _);
      Z.to_euclidean_division_equations; lia.
Qed.

(** What [utf8_from_gsm7] makes of a sequence of septets. *)
Fixpoint decode_septets (l : list Z) (escaped : bool) : list Z :=
  match l with
  | [] => []
  | c :: l' =>
      if escaped then utf8_write (arr gsm7bits_extend_to_unicode c) ++ decode_septets l' escaped
      else if c =? GSM_7BITS_ESCAPE then decode_septets l' true
      else utf8_write (arr gsm7bits_to_unicode c) ++ decode_septets l' escaped
  end.

Lemma septet_num_mod s l : septet s -> (s + 128 * septet_num l) mod 128 = s.
Proof. intros. rewrite Z.mul_comm, Z.mod_add by lia. by apply Z.mod_small. Qed.
Lemma septet_num_div s l : septet s -> (s + 128 * septet_num l) / 128 = septet_num l.
Proof. intros. rewrite Z.mul_comm, Z.div_add by lia. rewrite Z.div_small; lia. Qed.

Lemma from_gsm7_septets l src shift escaped :
  Forall (fun b => in_u8 b) src -> 0 <= shift < 8 ->
  shift + 7 * Z.of_nat (length l) <= 8 * Z.of_nat (length src) ->
  Forall (fun s => septet s) l -> le_num src / 2 ^ shift = septet_num l ->
  from_gsm7_loop (length l) src shift escaped = Ok (decode_septets l escaped).
Proof.
  intros Hsrc Hs Hlen Hl. revert src shift escaped Hsrc Hs Hlen.
  induction Hl as [|s l Hsep Hl IH]; intros src shift escaped Hsrc Hs Hlen Hn; [done|].
  cbn [length from_gsm7_loop]. cbn [length] in Hlen. cbn [septet_num] in Hn.
  rewrite read_septet_spec by (try done; lia). rewrite Hn, septet_num_mod by done. cbn [rbind].
  assert (Hrest : forall e,
    (if 8 <=? shift + 7 then from_gsm7_loop (length l) (drop 1 src) (shift + 7 - 8) e
     else from_gsm7_loop (length l) src (shift + 7) e) = Ok (decode_septets l e)).
  { intros e. destruct (Z.leb_spec 8 (shift + 7)) as [H8|H8].
    - destruct Hsrc as [|b0 r Hb0 Hr]; [simpl in Hlen; lia|]. cbn [length] in Hlen.
      change (drop 1 (b0 :: r)) with (drop 0 r). rewrite drop_0. set (k := shift + 7 - 8).
      apply IH; try done; try lia.
      rewrite <- (septet_num_div s l Hsep), <- Hn. rewrite Z.div_div by (pose proof (Z.pow_pos_nonneg 2 shift); lia).
      change 128 with (2 ^ 7). rewrite <- Z.pow_add_r by lia. cbn [le_num].
      replace (shift + 7) with (8 + k) by lia.
      rewrite Z.pow_add_r, <- Z.div_div by (pose proof (Z.pow_pos_nonneg 2 k); lia).
      change (2 ^ 8) with 256. by rewrite (Z.mul_comm 256), Z.div_add, (Z.div_small b0) by lia.
    - apply IH; try done; try lia.
      rewrite <- (septet_num_div s l Hsep), <- Hn. rewrite Z.div_div by (pose proof (Z.pow_pos_nonneg 2 shift); lia).
      change 128 with (2 ^ 7). by rewrite <- Z.pow_add_r by lia. }
  cbn [decode_septets]. destruct escaped; [by rewrite Hrest|].
  destruct (s =? GSM_7BITS_ESCAPE); by rewrite Hrest.
Qed.

Lemma bwriter_init_holds start :
  0 <= start -> forall d0, in_u8 d0 ->
  bw_holds (bwriter_init d0 start) (d0 mod 2 ^ (start mod 8)) (start mod 8).
Proof.
  intros Hst d0 Hd. unfold bwriter_init, bw_holds. cbn [bw_out bits pad length le_num].
  assert (Hm : Z.land start 7 = start mod 8) by (change 7 with (Z.ones 3); by rewrite Z.land_ones by lia).
  rewrite Hm. pose proof (Z.mod_pos_bound start 8 ltac:(lia)) as Hb.
  pose proof (Z.pow_pos_nonneg 2 (start mod 8) ltac:(lia) ltac:(lia)) as Hpow.
  assert (Hpad : (if 0 <? start mod 8 then Z.ldiff d0 (Z.shiftl 0xFF (start mod 8)) else 0)
                 = d0 mod 2 ^ (start mod 8)).
  { destruct (Z.ltb_spec 0 (start mod 8)) as [Hpos|Hz].
    - rewrite <- Z.land_ones by lia. apply Z.bits_inj'. intros i Hi.
      rewrite Z.land_spec, Z.ldiff_spec, Z.shiftl_spec, Z.testbit_ones_nonneg by lia.
      destruct (Z.ltb_spec i (start mod 8)) as [Hlt|Hge].
      + rewrite (Z.testbit_neg_r 0xFF) by lia. done.
      + destruct (Z.lt_ge_cases i 8).
        * change 0xFF with (Z.ones 8). rewrite Z.testbit_ones_nonneg by lia.
          rewrite (proj2 (Z.ltb_lt (i - start mod 8) 8)) by lia. by destruct (Z.testbit d0 i).
        * rewrite (testbit_bound 8 d0 i) by (simpl; lia). done.
    - replace (start mod 8) with 0 by lia. by rewrite Z.mod_1_r. }
  rewrite Hpad. split; [constructor|]. split; [lia|].
  split; [by apply Z.mod_pos_bound|]. split; lia.
Qed.

(** ** The alphabet *)

Lemma table_index_spec table nn u i :
  table_index table nn u = i -> 0 <= nn -> i = -1 \/
  (nn <= i < nn + Z.of_nat (length table) /\ table !! Z.to_nat (i - nn) = Some u).
Proof.
  revert nn. induction table as [|x table IH]; intros nn; cbn [table_index]; [by left|].
  destruct (Z.eqb_spec x u) as [->|Hne]; intros H Hnn.
  - right. subst. rewrite Z.sub_diag. simpl. split; [lia|done].
  - destruct (IH (nn + 1) H ltac:(lia)) as [->|[Hi Hl]]; [by left|right].
    cbn [length]. split; [lia|].
    replace (Z.to_nat (i - nn)) with (S (Z.to_nat (i - (nn + 1)))) by lia. done.
Qed.

Arguments table_index : simpl never.
Arguments unichar_to_gsm7 : simpl never.
Arguments unichar_to_gsm7_extend : simpl never.

Lemma unichar_to_gsm7_spec c : 0 <= unichar_to_gsm7 c ->
  septet (unichar_to_gsm7 c) /\ arr gsm7bits_to_unicode (unichar_to_gsm7 c) = c.
Proof.
  intros H. destruct (table_index_spec gsm7bits_to_unicode 0 c _ eq_refl (Z.le_refl 0)) as [E|[Hr Hl]];
    [unfold unichar_to_gsm7 in H; lia|].
  unfold unichar_to_gsm7, arr in *. rewrite Z.sub_0_r in Hl. rewrite Hl.
  change (length gsm7bits_to_unicode) with 128%nat in Hr. split; [lia|done].
Qed.

Lemma unichar_to_gsm7_extend_spec c : 0 <= unichar_to_gsm7_extend c ->
  septet (unichar_to_gsm7_extend c) /\
  arr gsm7bits_extend_to_unicode (unichar_to_gsm7_extend c) = c.
Proof.
  intros H. destruct (table_index_spec gsm7bits_extend_to_unicode 0 c _ eq_refl (Z.le_refl 0)) as [E|[Hr Hl]];
    [unfold unichar_to_gsm7_extend in H; lia|].
  unfold unichar_to_gsm7_extend, arr in *. rewrite Z.sub_0_r in Hl. rewrite Hl.
  change (length gsm7bits_extend_to_unicode) with 128%nat in Hr. split; [lia|done].
Qed.

(** A character of the basic alphabet; NUL stands for no character in the
    table, at the place of the escape. *)
Definition basic_char (c : Z) : Prop := 0 <= unichar_to_gsm7 c /\ c <> 0.

Lemma basic_char_unichar c : basic_char c -> unichar c.
Proof.
  intros [H _]. destruct (unichar_to_gsm7_spec c H) as [Hs <-].
  assert (Hall : forallb (fun i => let c := arr gsm7bits_to_unicode i in (0 <=? c) && (c <? 0x200000))
                   (map Z.of_nat (seq 0 128)) = true) by (vm_compute; reflexivity).
  pose proof (below_forall 128 _ Hall (unichar_to_gsm7 c) Hs) as Hb. simpl in Hb. lia.
Qed.

Lemma basic_char_not_escape c : basic_char c -> unichar_to_gsm7 c <> GSM_7BITS_ESCAPE.
Proof.
  intros [H Hc] E. destruct (unichar_to_gsm7_spec c H) as [_ Ht]. rewrite E in Ht.
  vm_compute in Ht. by subst.
Qed.

Lemma gsm7_septets_basic c : basic_char c -> gsm7_septets c = [unichar_to_gsm7 c].
Proof. intros [H _]. unfold gsm7_septets. by rewrite (proj2 (Z.leb_le _ _)) by done. Qed.

Lemma gsm7_septets_septet c : Forall (fun s => septet s) (gsm7_septets c).
Proof.
  unfold gsm7_septets. destruct (Z.leb_spec 0 (unichar_to_gsm7 c)) as [H|H].
  { constructor; [|constructor]. by apply unichar_to_gsm7_spec. }
  destruct (Z.leb_spec 0 (unichar_to_gsm7_extend c)) as [H'|H'].
  { constructor; [unfold GSM_7BITS_ESCAPE; lia|]. constructor; [|constructor].
    by apply unichar_to_gsm7_extend_spec. }
  constructor; [lia|constructor].
Qed.

Definition text_septets (cs : list Z) : list Z := concat (map gsm7_septets cs).

Lemma text_septets_septet cs : Forall (fun s => septet s) (text_septets cs).
Proof.
  unfold text_septets. induction cs as [|c cs IH]; [constructor|].
  cbn [map concat]. apply Forall_app. split; [apply gsm7_septets_septet|done].
Qed.

Lemma bwriter_add_all_app w l1 l2 : bwriter_add_all w (l1 ++ l2) = bwriter_add_all (bwriter_add_all w l1) l2.
Proof. apply fold_left_app. Qed.

Lemma fold_septets cs w :
  fold_left (fun w c => bwriter_add_all w (gsm7_septets c)) cs w = bwriter_add_all w (text_septets cs).
Proof.
  revert w. induction cs as [|c cs IH]; intros w; [done|]. cbn [fold_left].
  rewrite IH. unfold text_septets. cbn [map concat]. by rewrite bwriter_add_all_app.
Qed.

Lemma add_all_offset l w : offset (bwriter_add_all w l) = offset w + 7 * Z.of_nat (length l).
Proof.
  revert w. induction l as [|s l IH]; intros w; cbn [bwriter_add_all fold_left length]; [lia|].
  unfold bwriter_add_all in IH. rewrite IH. unfold bwriter_add7. case_match; cbn [offset]; lia.
Qed.

(** Encoding a text and reading the septets back at the same bit offset. *)
Lemma gsm7_pack_unpack cs start d0 pre :
  Forall (fun c => unichar c) cs -> 0 <= start -> in_u8 d0 ->
  Z.of_nat (length pre) = start / 8 -> Forall (fun b => in_u8 b) pre ->
  let '(off, bytes) := utf8_to_gsm7 (concat (map utf8_write cs)) d0 start in
  off = start + 7 * Z.of_nat (length (text_septets cs)) /\
  utf8_from_gsm7 (pre ++ bytes) start (length (text_septets cs))
    = Ok (decode_septets (text_septets cs) false).
Proof.
  intros Hcs Hst Hd Hpre Hpb. unfold utf8_to_gsm7. rewrite utf8_decode_write, fold_septets by done.
  pose proof (bwriter_init_holds start Hst d0 Hd) as H0.
  pose proof (bwriter_add_all_holds _ _ _ _ H0 (text_septets_septet cs)) as H1.
  set (w := bwriter_add_all _ _) in *. pose proof (bwriter_done_holds _ _ _ H1) as (Hb & Hn & Hk).
  pose proof (Z.mod_pos_bound start 8 ltac:(lia)) as Hm.
  pose proof (Z.pow_pos_nonneg 2 (start mod 8) ltac:(lia) ltac:(lia)) as Hpow.
  destruct (bwriter_done w) as [off bytes] eqn:Ed. cbn [snd] in *. split.
  - unfold bwriter_done in Ed. injection Ed as <- _. unfold w. rewrite add_all_offset. done.
  - unfold utf8_from_gsm7. rewrite Z.shiftr_div_pow2 by lia. change (2 ^ 3) with 8.
    rewrite drop_app_length' by lia.
    replace (Z.land start 7) with (start mod 8) by (change 7 with (Z.ones 3); by rewrite Z.land_ones by lia).
    apply from_gsm7_septets; try done; try lia; [apply text_septets_septet|].
    rewrite Hn, Z.add_comm, Z.mul_comm, Z.div_add_l by lia.
    rewrite (Z.div_small (_ mod _)) by (apply Z.mod_pos_bound; lia). lia.
Qed.

Lemma decode_basic cs : Forall basic_char cs ->
  text_septets cs = map unichar_to_gsm7 cs /\
  decode_septets (text_septets cs) false = concat (map utf8_write cs).
Proof.
  unfold text_septets. induction 1 as [|c cs Hc Hcs [IH1 IH2]]; [done|]. cbn [map concat].
  rewrite gsm7_septets_basic by done. cbn [app decode_septets]. split; [by rewrite IH1|].
  rewrite (proj2 (Z.eqb_neq _ _)) by (by apply basic_char_not_escape).
  rewrite IH2. by rewrite (proj2 (unichar_to_gsm7_spec c (proj1 Hc))).
Qed.

Lemma check_write v r fuel :
  unichar v -> utf8_check_loop (S fuel) (utf8_write v ++ r) = utf8_check_loop fuel r.
Proof.
  intros Hv. unfold utf8_write. destruct (Z.ltb_spec v 128) as [H1|H1].
  { cbn [app utf8_check_loop]. rewrite uwrap_small by (simpl; lia).
    by rewrite (proj2 (Z.leb_gt 128 v)) by lia. }
  rewrite !land_3f, !Z.shiftr_div_pow2 by lia.
  change (2 ^ 6) with 64. change (2 ^ 12) with 4096. change (2 ^ 18) with 262144.
  assert (Hc : forall y n p, check_continuation (S n) (u8 (Z.lor 0x80 (y mod 64)) :: p) = check_continuation n p).
  { intros y n p. cbn [check_continuation].
    destruct (cont_byte (y mod 64) (Z.mod_pos_bound y 64 ltac:(lia))) as [-> _]. done. }
  destruct (Z.ltb_spec v 0x800) as [H2|H2]; [|destruct (Z.ltb_spec v 0x10000) as [H3|H3]];
    cbn [app utf8_check_loop].
  - destruct (lead_byte2 (v / 64)) as (-> & -> & _); [Z.to_euclidean_division_equations; lia|].
    by rewrite Hc.
  - destruct (lead_byte3 (v / 4096)) as (-> & -> & -> & _); [Z.to_euclidean_division_equations; lia|].
    by rewrite !Hc.
  - change 0x7 with (Z.ones 3). rewrite Z.land_ones by lia. change (2 ^ 3) with 8.
    destruct (lead_byte4 ((v / 262144) mod 8)) as (-> & -> & -> & -> & _);
      [Z.to_euclidean_division_equations; lia|]. by rewrite !Hc.
Qed.

Lemma utf8_check_write vs : Forall (fun v => unichar v) vs ->
  utf8_check (concat (map utf8_write vs)) = true.
Proof.
  intros Hvs. unfold utf8_check.
  assert (Hlen : (length vs <= length (concat (map utf8_write vs)))%nat).
  { clear Hvs. induction vs as [|v vs IH]; simpl; [lia|]. rewrite length_app.
    destruct (utf8_write_cons v) as (b & r & ->). simpl. lia. }
  revert Hlen. generalize (length (concat (map utf8_write vs))). intros n. revert n.
  induction Hvs as [|v vs Hv Hvs IH]; intros n Hn; [by destruct n|].
  destruct n as [|n]; [simpl in Hn; lia|]. cbn [map concat]. rewrite check_write by done.
  apply IH. simpl in Hn. lia.
Qed.

Lemma ucs2_value c : in_u16 c -> Z.lor (Z.shiftl (u8 (Z.shiftr c 8)) 8) (u8 c) = c.
Proof.
  intros Hc. unfold uwrap. rewrite Z.shiftl_mul_pow2, Z.shiftr_div_pow2 by lia.
  rewrite (lor_low 8) by (change (2 ^ 8) with 256; Z.to_euclidean_division_equations; lia).
  change (2 ^ 8) with 256. Z.to_euclidean_division_equations; lia.
Qed.

Lemma ucs2_to_utf8_write cs : Forall (fun c => in_u16 c) cs ->
  ucs2_to_utf8 (concat (map ucs2_write cs)) = concat (map utf8_write cs).
Proof.
  induction 1 as [|c cs Hc Hcs IH]; [done|]. cbn [map concat ucs2_write app ucs2_to_utf8].
  by rewrite ucs2_value, IH.
Qed.

(** ** Telephone numbers *)

Definition bcd_chars : list Z := [48; 49; 50; 51; 52; 53; 54; 55; 56; 57; 42; 35; 44; 78].

(** [gsm_bcdnum_to_ascii]: [count] is never decremented. *)
Fixpoint bcdnum_to_ascii_loop (fuel : nat) (bcd : list Z) (count shift : Z) : res (list Z) :=
  if count <=? 0 then Ok [] else
  match fuel with
  | O => Undef
  | S fuel =>
      let! b := arr_get bcd 0 in
      let c := Z.land (Z.shiftr b shift) 0xf in
      if (c =? 15) && (count =? 1) then Ok []
      else
        let c := if 14 <=? c then 0 else c in
        let shift := shift + 4 in
        let! rest := if shift =? 8 then bcdnum_to_ascii_loop fuel (drop 1 bcd) count 0
                     else bcdnum_to_ascii_loop fuel bcd count shift in
        Ok (arr bcd_chars c :: rest)
  end.
Definition gsm_bcdnum_to_ascii (fuel : nat) (bcd : list Z) (count : Z) : res (list Z) :=
  bcdnum_to_ascii_loop fuel bcd count 0.

(** The digit of a character, [None] when it has none. *)
Definition bcd_digit (c : Z) : option Z :=
  if c =? 42 then Some 10
  else if c =? 35 then Some 11
  else if c =? 44 then Some 12
  else if c =? 78 then Some 13
  else let c := c - 48 in if 10 <=? u32 c then None else Some c.

(** [gsm_bcdnum_from_ascii] with a destination array. *)
Fixpoint bcdnum_from_ascii_loop (ascii : list Z) (dst : list Z) (result phase : Z)
  : res (Z * list Z) :=
  match ascii with
  | [] =>
      if ctrue (Z.land result 1) then
        let! dst := arr_set dst (result / 2) (u8 (Z.lor phase 0xf0)) in Ok (result, dst)
      else Ok (result, dst)
  | c :: ascii' =>
      match bcd_digit c with
      | None => Ok (-1, dst)
      | Some c =>
          let phase := Z.lor (Z.shiftl phase 4) c in
          let result := result + 1 in
          if ctrue (Z.land phase 0x100) then
            let! dst := arr_set dst (result / 2) (u8 phase) in
            bcdnum_from_ascii_loop ascii' dst result 0x01
          else bcdnum_from_ascii_loop ascii' dst result phase
      end
  end.
Definition gsm_bcdnum_from_ascii (ascii dst : list Z) : res (Z * list Z) :=
  bcdnum_from_ascii_loop ascii dst 0 0x01.

Lemma bcdnum_loop_never fuel bcd count shift out :
  1 < count -> bcdnum_to_ascii_loop fuel bcd count shift <> Ok out.
Proof.
  intros Hc. revert bcd shift out. induction fuel as [|fuel IH]; intros bcd shift out;
    cbn [bcdnum_to_ascii_loop]; rewrite (proj2 (Z.leb_gt count 0)) by lia; [done|].
  intros E. apply rbind_Ok in E as (b & _ & E).
  rewrite (proj2 (Z.eqb_neq count 1)), andb_false_r in E by lia.
  apply rbind_Ok in E as (rest & E & _). case_match; by apply IH in E.
Qed.

(** ** Properties *)

(** Hexadecimal encoding and decoding of byte strings are inverse. *)
Theorem gsm_hex_round_trip (l : list Z) :
  Forall (fun b => in_u8 b) l -> gsm_hex_to_bytes (gsm_hex_from_bytes l) = Some l.
Proof.
  intros Hl. unfold gsm_hex_to_bytes. rewrite length_hex_from_bytes, Nat2Z.inj_mul.
  rewrite (Z.land_ones _ 1 ltac:(lia) : Z.land _ 1 = _). change (2 ^ 1) with 2.
  rewrite Z.mul_comm, Z.mod_mul by lia. by apply hex_pairs_from_bytes.
Qed.

Lemma gsm_hex_round_trip_witness :
  gsm_hex_to_bytes (gsm_hex_from_bytes [0; 15; 0xa5; 255]) = Some [0; 15; 0xa5; 255].
Proof. apply (gsm_hex_round_trip [0; 15; 0xa5; 255]). repeat constructor; lia. Defined.

(** Encoding code points as UTF-8 with [utf8_write] gives a string that
    [utf8_check] accepts and from which repeated [utf8_next] reads exactly
    the code points back, up to 21 bits each; in particular a UCS-2 string
    survives [ucs2_to_utf8] followed by [utf8_to_ucs2]. *)
Theorem utf8_round_trip (vs cs : list Z) :
  Forall (fun v => 0 <= v < 0x200000) vs -> Forall (fun c => in_u16 c) cs ->
  utf8_check (concat (map utf8_write vs)) = true /\
  utf8_decode (concat (map utf8_write vs)) = vs /\
  utf8_to_ucs2 (ucs2_to_utf8 (concat (map ucs2_write cs))) = concat (map ucs2_write cs).
Proof.
  intros Hvs Hcs. split; [by apply utf8_check_write|]. split; [by apply utf8_decode_write|].
  unfold utf8_to_ucs2. rewrite ucs2_to_utf8_write, utf8_decode_write; [done| |done].
  eapply Forall_impl; [|exact Hcs]. simpl. lia.
Qed.

Lemma utf8_round_trip_witness :
  utf8_check (concat (map utf8_write [65; 0xe9; 0x20ac; 0x1f600])) = true /\
  utf8_decode (concat (map utf8_write [65; 0xe9; 0x20ac; 0x1f600])) = [65; 0xe9; 0x20ac; 0x1f600] /\
  utf8_to_ucs2 (ucs2_to_utf8 (concat (map ucs2_write [65; 0x20ac]))) = concat (map ucs2_write [65; 0x20ac]).
Proof.
  apply (utf8_round_trip [65; 0xe9; 0x20ac; 0x1f600] [65; 0x20ac]); repeat constructor; lia.
Defined.

(** C37: A text of the basic GSM alphabet survives 7-bit packing: written by
    [utf8_to_gsm7] at any bit offset of a buffer (keeping the bits before it)
    and read by [utf8_from_gsm7] at that offset, it comes back unchanged, and
    the offset returned is past its septets. *)
Theorem gsm7_text_round_trip (cs : list Z) (start d0 : Z) (pre : list Z) :
  Forall basic_char cs -> 0 <= start -> in_u8 d0 ->
  Z.of_nat (length pre) = start / 8 -> Forall (fun b => in_u8 b) pre ->
  let '(off, bytes) := utf8_to_gsm7 (concat (map utf8_write cs)) d0 start in
  off = start + 7 * Z.of_nat (length cs) /\
  utf8_from_gsm7 (pre ++ bytes) start (length cs) = Ok (concat (map utf8_write cs)).
Proof.
  intros Hcs Hst Hd Hpre Hpb.
  assert (Huni : Forall (fun c => unichar c) cs).
  { eapply Forall_impl; [|exact Hcs]. intros c. apply basic_char_unichar. }
  destruct (decode_basic cs Hcs) as [Hs Hdec].
  pose proof (gsm7_pack_unpack cs start d0 pre Huni Hst Hd Hpre Hpb) as H.
  destruct (utf8_to_gsm7 _ _ _) as [off bytes]. rewrite Hdec in H. rewrite Hs, length_map in H.
  exact H.
Qed.

Lemma gsm7_text_round_trip_witness :
  let '(off, bytes) := utf8_to_gsm7 (concat (map utf8_write [72; 0xe9; 0x394; 33; 90; 65; 66; 67; 68])) 0x55 11 in
  off = 11 + 7 * 9 /\
  utf8_from_gsm7 ([9] ++ bytes) 11 9 = Ok (concat (map utf8_write [72; 0xe9; 0x394; 33; 90; 65; 66; 67; 68])).
Proof.
  refine (gsm7_text_round_trip [72; 0xe9; 0x394; 33; 90; 65; 66; 67; 68] 11 0x55 [9] _ _ _ _ _);
    try lia; [|reflexivity|repeat constructor; lia].
  repeat (constructor; [split; vm_compute; congruence|]). constructor.
Defined.

(** [utf8_from_gsm7] never leaves the extension table: after a character
    of the extension (say an opening brace), a character of the basic
    alphabet is decoded as if it were escaped too. *)
Theorem gsm7_escape_sticks (c1 c2 : Z) :
  unichar_to_gsm7 c1 = -1 -> 0 <= unichar_to_gsm7_extend c1 -> unichar c1 -> basic_char c2 ->
  utf8_from_gsm7 (utf8_to_gsm7 (utf8_write c1 ++ utf8_write c2) 0 0).2 0 3
  = Ok (utf8_write c1 ++ utf8_write (arr gsm7bits_extend_to_unicode (unichar_to_gsm7 c2))).
Proof.
  intros H1 H1e Hu Hb.
  pose proof (gsm7_pack_unpack [c1; c2] 0 0 []) as H. cbn [map concat length] in H.
  rewrite app_nil_r in H. destruct (utf8_to_gsm7 _ 0 0) as [off bytes]. cbn [snd].
  assert (Hs : text_septets [c1; c2] = [GSM_7BITS_ESCAPE; unichar_to_gsm7_extend c1; unichar_to_gsm7 c2]).
  { unfold text_septets. cbn [map concat]. rewrite (gsm7_septets_basic c2) by done.
    unfold gsm7_septets. rewrite H1, (proj2 (Z.leb_le 0 (unichar_to_gsm7_extend c1))) by done. done. }
  rewrite Hs in H. destruct H as [_ H]; try done; try lia.
  { constructor; [done|]. constructor; [by apply basic_char_unichar|constructor]. }
  cbn [app length] in H. rewrite H. cbn [decode_septets]. rewrite Z.eqb_refl, app_nil_r.
  by rewrite (proj2 (unichar_to_gsm7_extend_spec c1 H1e)).
Qed.

(** An opening brace followed by an [a] is read back followed by NUL. *)
Lemma gsm7_escape_sticks_witness :
  utf8_from_gsm7 (utf8_to_gsm7 (utf8_write 123 ++ utf8_write 97) 0 0).2 0 3
  = Ok (utf8_write 123 ++ utf8_write 0).
Proof.
  refine (gsm7_escape_sticks 123 97 eq_refl _ _ _); [vm_compute; congruence|lia|].
  split; vm_compute; congruence.
Defined.

(** The two-digit decimals of the GSM timestamps do not survive
    [gsm_int_to_bcdi] followed by [gsm_int_from_bcdi], except the multiples
    of ten. *)
Theorem gsm_bcdi_round_trips (v : Z) :
  0 <= v < 100 -> gsm_int_from_bcdi (gsm_int_to_bcdi v) = v <-> v mod 10 = 0.
Proof.
  intros Hv. rewrite <- !Z.eqb_eq. revert v Hv.
  assert (H : forall v, 0 <= v < Z.of_nat 100 ->
    eqb (gsm_int_from_bcdi (gsm_int_to_bcdi v) =? v) (v mod 10 =? 0) = true).
  { apply below_forall. vm_compute. reflexivity. }
  intros v Hv. specialize (H v Hv). apply eqb_prop in H. by rewrite H.
Qed.

Lemma gsm_bcdi_round_trips_witness : gsm_int_from_bcdi (gsm_int_to_bcdi 12) = 12 <-> 12 mod 10 = 0.
Proof. apply (gsm_bcdi_round_trips 12). lia. Defined.

(** [gsm_bcdnum_to_ascii] does not terminate on any number of more than
    one digit: its loop never decrements the count, so whatever the bytes and
    however many iterations are allowed, it does not return. *)
Theorem gsm_bcdnum_to_ascii_never_returns (fuel : nat) (bcd : list Z) (count : Z) (out : list Z) :
  1 < count -> gsm_bcdnum_to_ascii fuel bcd count <> Ok out.
Proof. apply bcdnum_loop_never. Qed.

Lemma gsm_bcdnum_to_ascii_never_returns_witness :
  gsm_bcdnum_to_ascii 100 [0x21; 0x43] 4 <> Ok [49; 50; 51; 52].
Proof. apply (gsm_bcdnum_to_ascii_never_returns 100 [0x21; 0x43] 4). lia. Defined.

(** [gsm_bcdnum_from_ascii] stores the first pair of digits in the second
    byte, high digit first. *)
Example bcdnum_from_ascii_misplaced :
  gsm_bcdnum_from_ascii [49; 50; 51; 52] [0; 0; 0] = Ok (4, [0; 0x12; 0x34]).
Proof. reflexivity. Qed.
