(* ===== verification/Snapshot.v ===== *)
(** * Snapshots: the sections of a machine state ([savevm.c])

    The registry of save and load handlers, the three phases of
    [qemu_savevm_state], and [qemu_loadvm_state] with the old format. A
    handler is an argument of the registration in the source and a field of
    its entry here; it acts on the machine [V]. The last part states what an
    entry has to promise ([section_laws]) and proves that a snapshot restores
    the machine for every registry whose entries keep that promise. *)
From S2P Require Import Prelude Savevm.
From stdpp Require Import list sets.
#[local] Open Scope Z_scope.

Definition QEMU_VM_FILE_MAGIC : Z := 1363498573.      (* 0x5145564d *)
Definition QEMU_VM_FILE_VERSION_COMPAT : Z := 2.
Definition QEMU_VM_FILE_VERSION : Z := 3.
Definition QEMU_VM_EOF : Z := 0.
Definition QEMU_VM_SECTION_START : Z := 1.
Definition QEMU_VM_SECTION_PART : Z := 2.
Definition QEMU_VM_SECTION_END : Z := 3.
Definition QEMU_VM_SECTION_FULL : Z := 4.

Definition EIO : Z := 5.
Definition EINVAL : Z := 22.
Definition ENOTSUP : Z := 95.

(** A C string in a buffer: the bytes before the first zero. *)
Fixpoint cstr (l : list Z) : list Z :=
  match l with
  | [] => []
  | c :: l' => if c =? 0 then [] else c :: cstr l'
  end.

(** [pstrcpy], of a string given by its bytes. *)
Definition pstrcpy (buf_size : nat) (str : list Z) : list Z := take (buf_size - 1) str.

(** ** The cycle counter and the running state ([vl-android.c])

    [ticks] and [clk] are the values of [cpu_get_real_ticks] and
    [get_clock]; instruction counting is off. *)

Record TimersState := mkTS {
  cpu_ticks_prev : Z;
  cpu_ticks_offset : Z;
  cpu_clock_offset : Z;
  cpu_ticks_enabled : bool
}.

Definition cpu_get_ticks (ticks : Z) (t : TimersState) : Z * TimersState :=
  if negb (cpu_ticks_enabled t) then (cpu_ticks_offset t, t)
  else
    let off := if ticks <? cpu_ticks_prev t
               then s64 (cpu_ticks_offset t + (cpu_ticks_prev t - ticks)) else cpu_ticks_offset t in
    (s64 (ticks + off), mkTS ticks off (cpu_clock_offset t) (cpu_ticks_enabled t)).

Definition cpu_get_clock (clk : Z) (t : TimersState) : Z :=
  if negb (cpu_ticks_enabled t) then cpu_clock_offset t else s64 (clk + cpu_clock_offset t).

Definition cpu_enable_ticks (ticks clk : Z) (t : TimersState) : TimersState :=
  if negb (cpu_ticks_enabled t) then
    mkTS (cpu_ticks_prev t) (s64 (cpu_ticks_offset t - ticks)) (s64 (cpu_clock_offset t - clk)) true
  else t.

Definition cpu_disable_ticks (ticks clk : Z) (t : TimersState) : TimersState :=
  if cpu_ticks_enabled t then
    let '(off, t) := cpu_get_ticks ticks t in
    let t := mkTS (cpu_ticks_prev t) off (cpu_clock_offset t) (cpu_ticks_enabled t) in
    mkTS (cpu_ticks_prev t) (cpu_ticks_offset t) (cpu_get_clock clk t) false
  else t.

(** Running a sequence of writes or reads, one at a time. *)
Ltac wr_step :=
  match goal with H : writing ?f ?d |- context [?op ?f] =>
    let f' := fresh "f" in let E := fresh "E" in let H' := fresh "H" in
    match goal with
    | |- context [qemu_put_byte f ?v] => destruct (put_byte_writing f d v H) as (f' & E & H')
    | |- context [qemu_put_be32 f ?v] => destruct (put_be32_writing f d v H) as (f' & E & H')
    | |- context [qemu_put_be64 f ?v] => destruct (put_be64_writing f d v H) as (f' & E & H')
    | |- context [qemu_put_buffer f ?b] => destruct (put_buffer_writing f d b H) as (f' & E & H')
    end; rewrite E; cbn [rbind]; clear H E
  end.
Ltac rd_step :=
  match goal with H : reading ?f _ |- _ =>
    let f' := fresh "f" in let E := fresh "E" in let H' := fresh "H" in
    match goal with
    | |- context [qemu_get_byte f] => destruct (get_byte_reading f _ _ H) as (f' & E & H')
    | |- context [qemu_get_be32 f] =>
        destruct (get_be32_reading f _ _ ltac:(first [apply (uwrap_range 32); lia | lia]) H)
          as (f' & E & H')
    | |- context [qemu_get_be64 f] => destruct (get_be64_reading f _ _ ltac:(lia) H) as (f' & E & H')
    | |- context [qemu_get_buffer f _] => destruct (get_buffer_reading f _ _ H) as (f' & E & H')
    end; rewrite E; cbn [rbind]; clear H E
  end.

Section Snapshot.
(** The devices, their memory and the rest of the process. *)
Context {M : Type}.

Record VM := mkVM { vm_running : bool; timers_state : TimersState; machine : M }.

(** The handlers of [vm_change_state_head], the writing back of the disk
    caches, and the host's counters at the two calls. *)
Context (change_handlers : list (bool -> Z -> M -> M)).
Context (bdrv_flush_all : M -> M).
Context (stop_ticks stop_clk start_ticks start_clk : Z).

Definition vm_state_notify (running : bool) (reason : Z) (m : M) : M :=
  fold_left (fun m cb => cb running reason m) change_handlers m.

(** [pause_all_vcpus] and [resume_all_vcpus] are empty without an I/O thread;
    re-arming the host's alarm timer is not visible here. *)
Definition vm_stop (reason : Z) (v : VM) : VM :=
  if vm_running v then
    mkVM false (cpu_disable_ticks stop_ticks stop_clk (timers_state v))
      (vm_state_notify false reason (machine v))
  else v.

Definition vm_start (v : VM) : VM :=
  if negb (vm_running v) then
    mkVM true (cpu_enable_ticks start_ticks start_clk (timers_state v))
      (vm_state_notify true 0 (machine v))
  else v.

(** ** The registry *)

Record SaveStateEntry := mkSE {
  idstr : list Z;
  instance_id : Z;
  version_id : Z;
  section_id : Z;
  save_live_state : option (QEMUFile -> Z -> VM -> res (Z * QEMUFile * VM));
  save_state : option (QEMUFile -> VM -> res (QEMUFile * VM));
  load_state : QEMUFile -> Z -> VM -> res (Z * QEMUFile * VM);
  opaque : Z
}.

Record registry := mkReg { first_se : list SaveStateEntry; global_section_id : Z }.

(** The walk to the end of the list, which chooses the instance number. *)
Fixpoint pick_instance (auto : bool) (id : list Z) (n : Z) (l : list SaveStateEntry) : Z :=
  match l with
  | [] => n
  | p :: l' =>
      pick_instance auto id
        (if auto && bool_decide (id = idstr p) && (n <=? instance_id p)
         then s32 (instance_id p + 1) else n) l'
  end.

Definition register_savevm_live (id : list Z) (inst ver : Z)
  (live : option (QEMUFile -> Z -> VM -> res (Z * QEMUFile * VM)))
  (save : option (QEMUFile -> VM -> res (QEMUFile * VM)))
  (load : QEMUFile -> Z -> VM -> res (Z * QEMUFile * VM)) (op : Z) (r : registry) : registry :=
  let id := pstrcpy 256 id in
  let n := pick_instance (inst =? -1) id (if inst =? -1 then 0 else inst) (first_se r) in
  mkReg (first_se r ++ [mkSE id n ver (global_section_id r) live save load op])
    (s32 (global_section_id r + 1)).

Definition register_savevm (id : list Z) (inst ver : Z)
  (save : option (QEMUFile -> VM -> res (QEMUFile * VM)))
  (load : QEMUFile -> Z -> VM -> res (Z * QEMUFile * VM)) (op : Z) (r : registry) : registry :=
  register_savevm_live id inst ver None save load op r.

Fixpoint unregister_walk (id : list Z) (op : Z) (l : list SaveStateEntry) : list SaveStateEntry :=
  match l with
  | [] => []
  | p :: l' =>
      if bool_decide (idstr p = id) && (opaque p =? op) then unregister_walk id op l'
      else p :: unregister_walk id op l'
  end.

Definition unregister_savevm (id : list Z) (op : Z) (r : registry) : registry :=
  mkReg (unregister_walk id op (first_se r)) (global_section_id r).

Fixpoint find_se (id : list Z) (inst : Z) (l : list SaveStateEntry) : option SaveStateEntry :=
  match l with
  | [] => None
  | p :: l' =>
      if bool_decide (idstr p = id) && (inst =? instance_id p) then Some p else find_se id inst l'
  end.

(** ** Saving *)

(** The head of a section that names its entry, and of one that does not. *)
Definition put_section_head (ty : Z) (se : SaveStateEntry) (f : QEMUFile) : res QEMUFile :=
  let! f := qemu_put_byte f ty in
  let! f := qemu_put_be32 f (u32 (section_id se)) in
  let! f := qemu_put_byte f (Z.of_nat (length (idstr se))) in
  let! f := qemu_put_buffer f (idstr se) in
  let! f := qemu_put_be32 f (u32 (instance_id se)) in
  qemu_put_be32 f (u32 (version_id se)).

Definition put_part_head (ty : Z) (se : SaveStateEntry) (f : QEMUFile) : res QEMUFile :=
  let! f := qemu_put_byte f ty in
  qemu_put_be32 f (u32 (section_id se)).

Fixpoint begin_loop (l : list SaveStateEntry) (f : QEMUFile) (v : VM) : res (QEMUFile * VM) :=
  match l with
  | [] => Ok (f, v)
  | se :: l' =>
      match save_live_state se with
      | None => begin_loop l' f v
      | Some save =>
          let! f := put_section_head QEMU_VM_SECTION_START se f in
          let! (_, f, v) := save f QEMU_VM_SECTION_START v in
          begin_loop l' f v
      end
  end.

Definition qemu_savevm_state_begin (l : list SaveStateEntry) (f : QEMUFile) (v : VM)
  : res (Z * QEMUFile * VM) :=
  let! f := qemu_put_be32 f QEMU_VM_FILE_MAGIC in
  let! f := qemu_put_be32 f QEMU_VM_FILE_VERSION in
  let! (f, v) := begin_loop l f v in
  Ok (if qemu_file_has_error f then - EIO else 0, f, v).

Fixpoint iterate_loop (l : list SaveStateEntry) (ret : Z) (f : QEMUFile) (v : VM)
  : res (Z * QEMUFile * VM) :=
  match l with
  | [] => Ok (ret, f, v)
  | se :: l' =>
      match save_live_state se with
      | None => iterate_loop l' ret f v
      | Some save =>
          let! f := put_part_head QEMU_VM_SECTION_PART se f in
          let! (r, f, v) := save f QEMU_VM_SECTION_PART v in
          iterate_loop l' (Z.land ret (cbool (ctrue r))) f v
      end
  end.

Definition qemu_savevm_state_iterate (l : list SaveStateEntry) (f : QEMUFile) (v : VM)
  : res (Z * QEMUFile * VM) :=
  let! (ret, f, v) := iterate_loop l 1 f v in
  Ok (if ctrue ret then 1 else if qemu_file_has_error f then - EIO else 0, f, v).

Fixpoint complete_live_loop (l : list SaveStateEntry) (f : QEMUFile) (v : VM)
  : res (QEMUFile * VM) :=
  match l with
  | [] => Ok (f, v)
  | se :: l' =>
      match save_live_state se with
      | None => complete_live_loop l' f v
      | Some save =>
          let! f := put_part_head QEMU_VM_SECTION_END se f in
          let! (_, f, v) := save f QEMU_VM_SECTION_END v in
          complete_live_loop l' f v
      end
  end.

Fixpoint complete_full_loop (l : list SaveStateEntry) (f : QEMUFile) (v : VM)
  : res (QEMUFile * VM) :=
  match l with
  | [] => Ok (f, v)
  | se :: l' =>
      match save_state se with
      | None => complete_full_loop l' f v
      | Some save =>
          let! f := put_section_head QEMU_VM_SECTION_FULL se f in
          let! (f, v) := save f v in
          complete_full_loop l' f v
      end
  end.

Definition qemu_savevm_state_complete (l : list SaveStateEntry) (f : QEMUFile) (v : VM)
  : res (Z * QEMUFile * VM) :=
  let! (f, v) := complete_live_loop l f v in
  let! (f, v) := complete_full_loop l f v in
  let! f := qemu_put_byte f QEMU_VM_EOF in
  Ok (if qemu_file_has_error f then - EIO else 0, f, v).

(** The [do ... while (ret == 0)] of [qemu_savevm_state]. *)
Fixpoint iterate_until (fuel : nat) (l : list SaveStateEntry) (f : QEMUFile) (v : VM)
  : res (Z * QEMUFile * VM) :=
  match fuel with
  | O => Undef
  | S fuel =>
      let! (ret, f, v) := qemu_savevm_state_iterate l f v in
      if ret <? 0 then Ok (ret, f, v)
      else if ret =? 0 then iterate_until fuel l f v
      else Ok (ret, f, v)
  end.

Definition qemu_savevm_state (fuel : nat) (l : list SaveStateEntry) (f : QEMUFile) (v : VM)
  : res (Z * QEMUFile * VM) :=
  let saved_vm_running := vm_running v in
  let v := vm_stop 0 v in
  let v := mkVM (vm_running v) (timers_state v) (bdrv_flush_all (machine v)) in
  let! (ret, f, v) :=
    let! (ret, f, v) := qemu_savevm_state_begin l f v in
    if ret <? 0 then Ok (ret, f, v) else
    let! (ret, f, v) := iterate_until fuel l f v in
    if ret <? 0 then Ok (ret, f, v) else qemu_savevm_state_complete l f v in
  let ret := if qemu_file_has_error f then - EIO else ret in
  Ok (ret, f, if (ret =? 0) && saved_vm_running then vm_start v else v).

(** ** Loading *)

Record LoadStateEntry := mkLE {
  le_se : SaveStateEntry;
  le_section_id : Z;
  le_version_id : Z
}.

(** The name of a section: a short read leaves part of the buffer
    indeterminate. *)
Definition get_idstr (f : QEMUFile) : res (list Z * QEMUFile) :=
  let! (len, f) := qemu_get_byte f in
  let! (bytes, f) := qemu_get_buffer f len in
  if Z.of_nat (length bytes) <? len then Undef else Ok (cstr bytes, f).

Fixpoint find_le (sid : Z) (les : list LoadStateEntry) : option LoadStateEntry :=
  match les with
  | [] => None
  | le :: les' => if u32 (le_section_id le) =? sid then Some le else find_le sid les'
  end.

Fixpoint load_loop (fuel : nat) (l : list SaveStateEntry) (les : list LoadStateEntry)
  (f : QEMUFile) (v : VM) : res (Z * QEMUFile * VM) :=
  let! (section_type, f) := qemu_get_byte f in
  if section_type =? QEMU_VM_EOF then Ok (0, f, v) else
  match fuel with
  | O => Undef
  | S fuel =>
    if (section_type =? QEMU_VM_SECTION_START) || (section_type =? QEMU_VM_SECTION_FULL) then
      let! (section_id, f) := qemu_get_be32 f in
      let! (id, f) := get_idstr f in
      let! (inst, f) := qemu_get_be32 f in
      let! (ver, f) := qemu_get_be32 f in
      match find_se id (s32 inst) l with
      | None => Ok (- EINVAL, f, v)
      | Some se =>
          if u32 (version_id se) <? ver then Ok (- EINVAL, f, v) else
          let le := mkLE se (s32 section_id) (s32 ver) in
          let! (_, f, v) := load_state se f (le_version_id le) v in
          load_loop fuel l (le :: les) f v
      end
    else if (section_type =? QEMU_VM_SECTION_PART) || (section_type =? QEMU_VM_SECTION_END) then
      let! (section_id, f) := qemu_get_be32 f in
      match find_le section_id les with
      | None => Ok (- EINVAL, f, v)
      | Some le =>
          let! (_, f, v) := load_state (le_se le) f (le_version_id le) v in
          load_loop fuel l les f v
      end
    else Ok (- EINVAL, f, v)
  end.

(** The format of version 2. *)
Fixpoint load_v2_loop (fuel : nat) (l : list SaveStateEntry) (end_pos : Z)
  (f : QEMUFile) (v : VM) : res (Z * QEMUFile * VM) :=
  if end_pos <=? qemu_ftell f then
    Ok (if qemu_file_has_error f then - EIO else 0, f, v)
  else
  match fuel with
  | O => Undef
  | S fuel =>
      let! (id, f) := get_idstr f in
      let! (inst, f) := qemu_get_be32 f in
      let! (ver, f) := qemu_get_be32 f in
      let! (record_len, f) := qemu_get_be32 f in
      let cur_pos := qemu_ftell f in
      let! (ret, f, v) :=
        match find_se id (s32 inst) l with
        | None => Ok (0, f, v)
        | Some se => load_state se f (s32 ver) v
        end in
      if ret <? 0 then Ok (ret, f, v) else
      let '(_, f) := qemu_fseek f (cur_pos + s32 record_len) SEEK_SET in
      load_v2_loop fuel l end_pos f v
  end.

Definition qemu_loadvm_state_v2 (fuel : nat) (l : list SaveStateEntry) (f : QEMUFile) (v : VM)
  : res (Z * QEMUFile * VM) :=
  let! (total_len, f) := qemu_get_be64 f in
  load_v2_loop fuel l (s64 total_len + qemu_ftell f) f v.

Definition qemu_loadvm_state (fuel : nat) (l : list SaveStateEntry) (f : QEMUFile) (v : VM)
  : res (Z * QEMUFile * VM) :=
  let! (w, f) := qemu_get_be32 f in
  if negb (w =? QEMU_VM_FILE_MAGIC) then Ok (- EINVAL, f, v) else
  let! (w, f) := qemu_get_be32 f in
  if w =? QEMU_VM_FILE_VERSION_COMPAT then qemu_loadvm_state_v2 fuel l f v
  else if negb (w =? QEMU_VM_FILE_VERSION) then Ok (- ENOTSUP, f, v) else
  let! (ret, f, v) := load_loop fuel l [] f v in
  Ok (if qemu_file_has_error f then - EIO else ret, f, v).


(** ** Names

    Every entry registered with automatic numbering gets a name of its own. *)

Definition se_key (se : SaveStateEntry) : list Z * Z := (idstr se, instance_id se).

Lemma pick_instance_above id n l :
  Forall (fun p => in_s32 (instance_id p) /\ instance_id p < 2147483647) l ->
  n <= pick_instance true id n l /\
  Forall (fun p => idstr p = id -> instance_id p < pick_instance true id n l) l.
Proof.
  intros H. revert n. induction H as [|p l [Hp1 Hp2] Hl IH]; intros n; [by split|].
  cbn [pick_instance].
  set (n' := if true && bool_decide (id = idstr p) && (n <=? instance_id p)
             then s32 (instance_id p + 1) else n).
  assert (n <= n' /\ (idstr p = id -> instance_id p < n')) as [Hn1 Hn2].
  { unfold n'. clear n'. simpl. case_bool_decide; simpl; [|naive_solver lia].
    destruct (Z.leb_spec n (instance_id p)); [|naive_solver lia].
    rewrite swrap_small by lia. lia. }
  destruct (IH n') as [IH1 IH2]. split; [lia|].
  constructor; [intros Hid; specialize (Hn2 Hid); lia|done].
Qed.

Lemma find_se_NoDup l se :
  NoDup (map se_key l) -> se ∈ l -> find_se (idstr se) (instance_id se) l = Some se.
Proof.
  induction l as [|p l IH]; intros Hn Hin; [by apply elem_of_nil in Hin|].
  cbn [map] in Hn. apply NoDup_cons in Hn as [Hp Hn]. cbn [find_se].
  apply elem_of_cons in Hin as [->|Hin].
  - by rewrite bool_decide_true, Z.eqb_refl by done.
  - destruct (bool_decide_reflect (idstr p = idstr se)) as [He|]; [|by apply IH].
    destruct (Z.eqb_spec (instance_id se) (instance_id p)) as [Hi|]; [|by apply IH].
    destruct Hp. apply list_elem_of_fmap. exists se. split; [|done].
    unfold se_key. by rewrite He, Hi.
Qed.

(** ** What a section promises

    [view s v] is the state of the device of section [s], [content] the part
    of it a snapshot has to restore (a live section also keeps what is left
    to send), [partial] the relation between the sending and the receiving
    side while a live section is open, [work] how much is left to send and
    [cap] how much at most when it is opened; [wf] holds of the machines the
    handlers are written for. *)
Section Laws.
Context {D C : Type} (view : Z -> VM -> D) (content : Z -> D -> C).
Context (partial : Z -> D -> D -> Prop) (work : Z -> D -> nat) (cap : Z -> nat).
Context (wf : VM -> Prop).

(** A call of section [s] leaves the other devices alone. *)
Definition frame (s : Z) (v v' : VM) : Prop := forall s', s' <> s -> view s' v' = view s' v.

(** [call] writes some bytes without changing the content, and the load
    handler of the entry takes exactly these bytes and turns [pre] into
    [post]; [prog] relates the result of [call] to the state before and
    after it. *)
Definition saves (se : SaveStateEntry) (call : QEMUFile -> VM -> res (Z * QEMUFile * VM))
  (pre post : D -> D -> Prop) (prog : Z -> D -> D -> Prop) : Prop :=
  let s := section_id se in
  forall v f data, wf v -> writing f data ->
  exists r f' v' b,
    call f v = Ok (r, f', v') /\ writing f' (data ++ b) /\ wf v' /\ frame s v v' /\
    content s (view s v') = content s (view s v) /\ prog r (view s v) (view s v') /\
    forall t g rest, wf t -> pre (view s v) (view s t) -> reading g (b ++ rest) ->
    exists r' g' t',
      load_state se g (version_id se) t = Ok (r', g', t') /\ reading g' rest /\ wf t' /\
      frame s t t' /\ post (view s v') (view s t').

Definition same_content (s : Z) (d d' : D) : Prop := content s d' = content s d.
Definition any_state (d d' : D) : Prop := True.
Definition any_result (r : Z) (d d' : D) : Prop := True.

(** A round of a live section that is not the last one leaves less to do. *)
Definition progress (s : Z) (r : Z) (d d' : D) : Prop :=
  (work s d' <= work s d)%nat /\ (r = 0 -> (work s d' < work s d)%nat).

Definition opened (s : Z) (r : Z) (d d' : D) : Prop := (work s d' <= cap s)%nat.

Record section_laws (se : SaveStateEntry) : Prop := mkLaws {
  law_id : (length (idstr se) <= 255)%nat /\ Forall (fun c => 0 < c < 256) (idstr se);
  law_ints : in_s32 (instance_id se) /\ in_s32 (version_id se) /\ in_s32 (section_id se);
  law_full : forall save, save_state se = Some save ->
    saves se (fun f v => let! (f, v) := save f v in Ok (0, f, v))
      any_state (same_content (section_id se)) any_result;
  law_start : forall live, save_live_state se = Some live ->
    saves se (fun f => live f QEMU_VM_SECTION_START)
      any_state (partial (section_id se)) (opened (section_id se));
  law_part : forall live, save_live_state se = Some live ->
    saves se (fun f => live f QEMU_VM_SECTION_PART)
      (partial (section_id se)) (partial (section_id se)) (progress (section_id se));
  law_end : forall live, save_live_state se = Some live ->
    saves se (fun f => live f QEMU_VM_SECTION_END)
      (partial (section_id se)) (same_content (section_id se)) any_result
}.

(** ** Sections on the wire *)

Definition head_bytes (ty : Z) (se : SaveStateEntry) : list Z :=
  [u8 ty] ++ be32 (u32 (section_id se)) ++ [u8 (Z.of_nat (length (idstr se)))] ++ idstr se
    ++ be32 (u32 (instance_id se)) ++ be32 (u32 (version_id se)).

Definition part_bytes (ty : Z) (se : SaveStateEntry) : list Z :=
  [u8 ty] ++ be32 (u32 (section_id se)).

Definition le_of (se : SaveStateEntry) : LoadStateEntry := mkLE se (section_id se) (version_id se).

Lemma put_section_head_writing ty se f data :
  writing f data ->
  exists f', put_section_head ty se f = Ok f' /\ writing f' (data ++ head_bytes ty se).
Proof.
  intros H. unfold put_section_head, head_bytes. repeat wr_step. eexists. split; [done|].
  by rewrite <- !app_assoc in *.
Qed.

Lemma put_part_head_writing ty se f data :
  writing f data ->
  exists f', put_part_head ty se f = Ok f' /\ writing f' (data ++ part_bytes ty se).
Proof.
  intros H. unfold put_part_head, part_bytes. repeat wr_step. eexists. split; [done|].
  by rewrite <- !app_assoc in *.
Qed.

Lemma cstr_id l : Forall (fun c => 0 < c < 256) l -> cstr l = l.
Proof.
  induction 1 as [|c l Hc Hl IH]; [done|]. simpl.
  destruct (Z.eqb_spec c 0); [lia|]. by rewrite IH.
Qed.

Lemma get_idstr_reading id f rest :
  (length id <= 255)%nat -> Forall (fun c => 0 < c < 256) id ->
  reading f ([u8 (Z.of_nat (length id))] ++ id ++ rest) ->
  exists f', get_idstr f = Ok (id, f') /\ reading f' rest.
Proof.
  intros Hl Hc H. unfold get_idstr. rewrite uwrap_small in H by (simpl; lia). cbn [app] in H.
  rd_step. rd_step. rewrite Z.ltb_irrefl, cstr_id by done. eauto.
Qed.

Context (l : list SaveStateEntry).
Context (Hkeys : NoDup (map se_key l)) (Hsids : NoDup (map section_id l)).
Context (Hlaws : forall se, se ∈ l -> section_laws se).

(** The loader at the head of a section. *)
Lemma load_named ty se les g t rest :
  ty = QEMU_VM_SECTION_START \/ ty = QEMU_VM_SECTION_FULL -> se ∈ l ->
  reading g (head_bytes ty se ++ rest) ->
  exists g', reading g' rest /\ forall fuel,
    load_loop (S fuel) l les g t =
      let! (_, f, v) := load_state se g' (version_id se) t in load_loop fuel l (le_of se :: les) f v.
Proof.
  intros Hty Hin H. destruct (Hlaws se Hin) as [[Hl Hc] (Hi & Hv & Hs) _ _ _ _].
  unfold head_bytes in H. rewrite <- !app_assoc in H. cbn [app] in H. cbn [load_loop].
  do 2 rd_step.
  destruct (get_idstr_reading (idstr se) _ _ Hl Hc H) as (g2 & -> & H2).
  clear H. cbn [rbind]. do 2 rd_step.
  rewrite !swrap_uwrap, !swrap_small, find_se_NoDup, Z.ltb_irrefl by (lia || done).
  eexists. split; [done|]. intros fuel. by destruct Hty as [-> | ->].
Qed.

Lemma section_id_inj se se' :
  se ∈ l -> se' ∈ l -> section_id se = section_id se' -> se = se'.
Proof.
  intros H1%list_elem_of_lookup H2%list_elem_of_lookup He.
  destruct H1 as [i Hi], H2 as [j Hj].
  assert (i = j) as ->; [|congruence].
  apply (NoDup_lookup (map section_id l) i j (section_id se)); [done| |];
    rewrite list_lookup_fmap, ?Hi, ?Hj; simpl; congruence.
Qed.

Lemma find_le_of se les :
  se ∈ l -> le_of se ∈ les -> (forall le, le ∈ les -> exists se', se' ∈ l /\ le = le_of se') ->
  find_le (u32 (section_id se)) les = Some (le_of se).
Proof.
  intros Hin. induction les as [|le les IH]; intros He Hall; [by apply elem_of_nil in He|].
  destruct (Hall le) as (se' & Hin' & ->); [by left|]. cbn [find_le le_of le_section_id].
  destruct (Hlaws se Hin) as [_ (_ & _ & Hs) _ _ _ _].
  destruct (Hlaws se' Hin') as [_ (_ & _ & Hs') _ _ _ _].
  destruct (Z.eqb_spec (u32 (section_id se')) (u32 (section_id se))) as [Heq|Hne].
  - apply (f_equal (swrap 32)) in Heq. rewrite !swrap_uwrap, !swrap_small in Heq by lia.
    by rewrite (section_id_inj se' se).
  - apply elem_of_cons in He as [He|He]; [by injection He as <-|].
    apply IH; [done|]. intros; apply Hall. by right.
Qed.

Lemma load_part ty se les g t rest :
  ty = QEMU_VM_SECTION_PART \/ ty = QEMU_VM_SECTION_END -> se ∈ l -> le_of se ∈ les ->
  (forall le, le ∈ les -> exists se', se' ∈ l /\ le = le_of se') ->
  reading g (part_bytes ty se ++ rest) ->
  exists g', reading g' rest /\ forall fuel,
    load_loop (S fuel) l les g t =
      let! (_, f, v) := load_state se g' (version_id se) t in load_loop fuel l les f v.
Proof.
  intros Hty Hin He Hall H. unfold part_bytes in H. rewrite <- !app_assoc in H. cbn [app] in H.
  cbn [load_loop]. do 2 rd_step. rewrite (find_le_of se) by done.
  eexists. split; [done|]. intros fuel. by destruct Hty as [-> | ->].
Qed.

(** ** What has arrived

    The sections of [A] are open, those of [B] are restored. *)
Definition synced (A B : list Z) (v t : VM) : Prop :=
  wf t /\
  (forall s, s ∈ A -> partial s (view s v) (view s t)) /\
  (forall s, s ∈ B -> content s (view s t) = content s (view s v)).

Lemma synced_step s A B A' B' v v' t t' :
  synced A B v t -> wf t' -> frame s v v' -> frame s t t' ->
  (forall x, x ∈ A' -> x <> s -> x ∈ A) -> (forall x, x ∈ B' -> x <> s -> x ∈ B) ->
  (s ∈ A' -> partial s (view s v') (view s t')) ->
  (s ∈ B' -> content s (view s t') = content s (view s v')) ->
  synced A' B' v' t'.
Proof.
  intros (_ & HA & HB) Hwt Hv Ht HA' HB' Hs Hs'. split; [done|]. split; intros x Hx;
    destruct (decide (x = s)) as [->|Hne]; auto; rewrite Hv, Ht by done; auto.
Qed.

(** The bytes [b], written while the machine went from [v] to [v'], take the
    loader from the list [les] to [les'] and from [P] to [P']. *)
Definition transfers (les les' : list LoadStateEntry) (P P' : VM -> VM -> Prop)
  (v v' : VM) (b : list Z) : Prop :=
  forall t g rest, P v t -> reading g (b ++ rest) ->
  exists n g' t', (n <= length b)%nat /\ reading g' rest /\ P' v' t' /\
    forall fuel, load_loop (n + fuel) l les g t = load_loop fuel l les' g' t'.

Lemma transfers_nil les P v : transfers les les P P v v [].
Proof. intros t g rest HP H. by exists 0%nat, g, t. Qed.

Lemma transfers_app les1 les2 les3 P1 P2 P3 v1 v2 v3 b1 b2 :
  transfers les1 les2 P1 P2 v1 v2 b1 -> transfers les2 les3 P2 P3 v2 v3 b2 ->
  transfers les1 les3 P1 P3 v1 v3 (b1 ++ b2).
Proof.
  intros H1 H2 t g rest HP Hr. rewrite <- app_assoc in Hr.
  destruct (H1 t g _ HP Hr) as (n1 & g1 & t1 & Hn1 & Hr1 & HP1 & E1).
  destruct (H2 t1 g1 _ HP1 Hr1) as (n2 & g2 & t2 & Hn2 & Hr2 & HP2 & E2).
  exists (n1 + n2)%nat, g2, t2. split; [rewrite length_app; lia|].
  split; [done|]. split; [done|]. intros fuel. by rewrite <- Nat.add_assoc, E1, E2.
Qed.

Definition contents_kept (v v' : VM) : Prop :=
  forall s, content s (view s v') = content s (view s v).

(** One section, whatever its kind: [hd] writes its head, [hb] are the bytes
    of the head, and the loader, past the head, calls the load handler. *)
Lemma one_section se call pre post prog (hd : QEMUFile -> res QEMUFile) hb A B A' B' les les' f v data :
  let s := section_id se in
  se ∈ l -> saves se call pre post prog ->
  (forall f data, writing f data -> exists f', hd f = Ok f' /\ writing f' (data ++ hb)) ->
  (1 <= length hb)%nat ->
  (forall g t rest, reading g (hb ++ rest) -> exists g', reading g' rest /\ forall fuel,
     load_loop (S fuel) l les g t =
       let! (_, f, v) := load_state se g' (version_id se) t in load_loop fuel l les' f v) ->
  (forall v t, synced A B v t -> pre (view s v) (view s t)) ->
  (forall x, x ∈ A' -> x <> s -> x ∈ A) -> (forall x, x ∈ B' -> x <> s -> x ∈ B) ->
  (forall d d', s ∈ A' -> post d d' -> partial s d d') ->
  (forall d d', s ∈ B' -> post d d' -> same_content s d d') ->
  wf v -> writing f data ->
  exists r f' v' b,
    (let! f := hd f in call f v) = Ok (r, f', v') /\ writing f' (data ++ b) /\ wf v' /\
    frame s v v' /\ contents_kept v v' /\ prog r (view s v) (view s v') /\
    transfers les les' (synced A B) (synced A' B') v v' b.
Proof.
  intros s Hin Hsv Hhd Hhb Hld Hpre HA HB HpA HpB Hwf Hw.
  destruct (Hhd f data Hw) as (f1 & -> & Hw1). cbn [rbind].
  destruct (Hsv v f1 _ Hwf Hw1) as (r & f2 & v' & b & -> & Hw2 & Hwf' & Hfr & Hc & Hpr & Hl).
  exists r, f2, v', (hb ++ b). split; [done|]. split; [by rewrite app_assoc|].
  split; [done|]. split; [done|]. split.
  { intros x. destruct (decide (x = s)) as [->|Hne]; [done|]. by rewrite Hfr. }
  split; [done|]. intros t g rest HP Hr. rewrite <- app_assoc in Hr.
  destruct (Hld g t _ Hr) as (g1 & Hr1 & E1).
  destruct (Hl t g1 rest (proj1 HP) (Hpre _ _ HP) Hr1) as (r' & g2 & t' & El & Hr2 & Hwt & Hft & Hpost).
  exists 1%nat, g2, t'. split; [rewrite length_app; lia|]. split; [done|].
  split; [by apply (synced_step s A B A' B' v v' t t'); auto; intros; apply HpB|].
  intros fuel. change (1 + fuel)%nat with (S fuel). rewrite E1, El. done.
Qed.

(** ** The phases *)

Definition is_live (se : SaveStateEntry) : bool :=
  match save_live_state se with Some _ => true | None => false end.
Definition is_full (se : SaveStateEntry) : bool :=
  match save_state se with Some _ => true | None => false end.
Definition live_ids (l' : list SaveStateEntry) : list Z := map section_id (List.filter is_live l').
Definition full_ids (l' : list SaveStateEntry) : list Z := map section_id (List.filter is_full l').

Fixpoint live_work (l' : list SaveStateEntry) (v : VM) : nat :=
  match l' with
  | [] => 0
  | se :: l' =>
      ((if is_live se then work (section_id se) (view (section_id se) v) else 0) + live_work l' v)%nat
  end.

Fixpoint live_cap (l' : list SaveStateEntry) : nat :=
  match l' with
  | [] => 0
  | se :: l' => ((if is_live se then cap (section_id se) else 0) + live_cap l')%nat
  end.

Lemma is_live_some se live : save_live_state se = Some live -> is_live se = true.
Proof. unfold is_live. by intros ->. Qed.

Lemma is_live_none se : save_live_state se = None -> is_live se = false.
Proof. unfold is_live. by intros ->. Qed.

Lemma live_ids_cons se l' :
  live_ids (se :: l') = if is_live se then section_id se :: live_ids l' else live_ids l'.
Proof. unfold live_ids. simpl. by destruct (is_live se). Qed.

Lemma full_ids_cons se l' :
  full_ids (se :: l') = if is_full se then section_id se :: full_ids l' else full_ids l'.
Proof. unfold full_ids. simpl. by destruct (is_full se). Qed.

Lemma live_ids_sub l' s : s ∈ live_ids l' -> s ∈ map section_id l'.
Proof.
  induction l' as [|se l' IH]; [done|]. rewrite live_ids_cons. cbn [map].
  destruct (is_live se); set_solver.
Qed.

Lemma head_bytes_pos ty se : (1 <= length (head_bytes ty se))%nat.
Proof. unfold head_bytes. rewrite length_app. simpl. lia. Qed.

Lemma part_bytes_pos ty se : (1 <= length (part_bytes ty se))%nat.
Proof. unfold part_bytes. rewrite length_app. simpl. lia. Qed.

Lemma rbind_head {A B C'} (m : res A) (f : A -> res B) (g : B -> res C') x :
  rbind m f = Ok x -> (let! a := m in let! b := f a in g b) = g x.
Proof. intros H. destruct m; simpl in *; try done. by rewrite H. Qed.

Definition les_ok (les : list LoadStateEntry) : Prop :=
  forall le, le ∈ les -> exists se', se' ∈ l /\ le = le_of se'.

Lemma live_work_frame l' s v v' :
  (forall x, x <> s -> view x v' = view x v) -> s ∉ map section_id l' ->
  live_work l' v' = live_work l' v.
Proof.
  intros H. induction l' as [|se l' IH]; intros Hs; [done|]. cbn [map live_work] in *.
  apply not_elem_of_cons in Hs as [H1 H2]. rewrite IH by done. by rewrite H.
Qed.

Lemma begin_loop_ok l' f v data A les :
  (forall se, se ∈ l' -> se ∈ l) -> NoDup (map section_id l') -> les_ok les -> wf v -> writing f data ->
  exists f' v' b les',
    begin_loop l' f v = Ok (f', v') /\ wf v' /\ writing f' (data ++ b) /\ contents_kept v v' /\
    (live_work l' v' <= live_cap l')%nat /\
    (forall s, s ∉ map section_id l' -> view s v' = view s v) /\ les_ok les' /\ (forall le, le ∈ les -> le ∈ les') /\
    (forall se, se ∈ l' -> is_live se = true -> le_of se ∈ les') /\
    transfers les les' (synced A []) (synced (rev_append (live_ids l') A) []) v v' b.
Proof.
  revert f v data A les. induction l' as [|se l' IH]; intros f v data A les Hl Hnd Hles Hwf Hw.
  { exists f, v, [], les. rewrite app_nil_r. split_and!; try done.
    - by intros se ?%elem_of_nil. - apply transfers_nil. }
  cbn [map] in Hnd. apply NoDup_cons in Hnd as [Hs Hnd].
  assert (Hin : se ∈ l) by (apply Hl; by left).
  assert (Hl' : forall x, x ∈ l' -> x ∈ l) by (intros; apply Hl; by right).
  rewrite live_ids_cons. cbn [begin_loop live_work live_cap].
  destruct (save_live_state se) as [live|] eqn:E.
  - rewrite (is_live_some _ _ E). cbn [rev_append].
    destruct (one_section se _ _ _ _ (put_section_head QEMU_VM_SECTION_START se) _
      A [] (section_id se :: A) [] les (le_of se :: les) f v data Hin (law_start se (Hlaws se Hin) live E)
      (put_section_head_writing _ _) (head_bytes_pos _ _)
      (fun g t rest => load_named _ se les g t rest (or_introl eq_refl) Hin))
      as (r & f1 & v1 & b1 & E1 & Hw1 & Hwf1 & Hf1 & Hc1 & Hp1 & Ht1); try done.
    { intros x [->|]%elem_of_cons; done. } { by intros ?? ?%elem_of_nil. }
    destruct (IH f1 v1 (data ++ b1) (section_id se :: A) (le_of se :: les) Hl' Hnd)
      as (f2 & v2 & b2 & les' & E2 & Hwf2 & Hw2 & Hc2 & Hlw & Hf2 & Hok & Hsub & Hlive & Ht2); [|done|done|].
    { intros le [->|Hle]%elem_of_cons; [by exists se|by apply Hles]. }
    exists f2, v2, (b1 ++ b2), les'. rewrite app_assoc.
    rewrite (rbind_head _ _ (fun '(_, f0, v0) => begin_loop l' f0 v0) _ E1).
    split_and!; try done.
    + intros s. by rewrite Hc2.
    + rewrite (Hf2 _ Hs). unfold opened in Hp1. lia.
    + cbn [map]. intros s [H1 H2]%not_elem_of_cons. rewrite Hf2, Hf1; done.
    + intros le Hle. apply Hsub. by right.
    + intros x [->|Hx]%elem_of_cons Hlv; [apply Hsub; by left|by apply Hlive].
    + exact (transfers_app _ _ _ _ _ _ _ _ _ _ _ Ht1 Ht2).
  - rewrite (is_live_none _ E).
    destruct (IH f v data A les Hl' Hnd Hles Hwf Hw) as (f2 & v2 & b2 & les' & E2 & Hwf2 & Hw2 & Hc2 & Hlw & Hf2 & Hok & Hsub & Hlive & Ht2).
    exists f2, v2, b2, les'. split_and!; try done.
    { cbn [map]. intros s [H1 H2]%not_elem_of_cons. by apply Hf2. }
    intros x [->|Hx]%elem_of_cons Hlv; [|by apply Hlive].
    by rewrite (is_live_none _ E) in Hlv.
Qed.

Lemma iterate_loop_ok l' ret f v data A les :
  (forall se, se ∈ l' -> se ∈ l) -> NoDup (map section_id l') -> les_ok les ->
  (forall se, se ∈ l' -> is_live se = true -> le_of se ∈ les /\ section_id se ∈ A) ->
  ret = 0 \/ ret = 1 -> wf v -> writing f data ->
  exists ret' f' v' b,
    iterate_loop l' ret f v = Ok (ret', f', v') /\ wf v' /\ writing f' (data ++ b) /\
    contents_kept v v' /\ (ret' = 0 \/ ret' = 1) /\
    (live_work l' v' <= live_work l' v)%nat /\
    (ret' = 0 -> ret = 0 \/ (live_work l' v' < live_work l' v)%nat) /\
    (forall s, s ∉ map section_id l' -> view s v' = view s v) /\
    transfers les les (synced A []) (synced A []) v v' b.
Proof.
  revert ret f v data. induction l' as [|se l' IH]; intros ret f v data Hl Hnd Hles HA Hret Hwf Hw.
  { exists ret, f, v, []. rewrite app_nil_r.
    split_and!; try done; [naive_solver|apply transfers_nil]. }
  cbn [map] in Hnd. apply NoDup_cons in Hnd as [Hs Hnd].
  assert (Hin : se ∈ l) by (apply Hl; by left).
  cbn [iterate_loop live_work].
  destruct (save_live_state se) as [live|] eqn:E.
  - rewrite (is_live_some _ _ E).
    destruct (HA se) as [Hle HsA]; [by left|by apply (is_live_some _ live)|].
    destruct (one_section se _ _ _ _ (put_part_head QEMU_VM_SECTION_PART se) _
      A [] A [] les les f v data Hin (law_part se (Hlaws se Hin) live E)
      (put_part_head_writing _ _) (part_bytes_pos _ _)
      (fun g t rest => load_part _ se les g t rest (or_introl eq_refl) Hin Hle Hles))
      as (r & f1 & v1 & b1 & E1 & Hw1 & Hwf1 & Hf1 & Hc1 & [Hp1 Hp2] & Ht1); try done.
    { intros v1 t1 (_ & H1 & _). by apply H1. } { by intros ?? ?%elem_of_nil. }
    destruct (IH (Z.land ret (cbool (ctrue r))) f1 v1 (data ++ b1))
      as (ret' & f2 & v2 & b2 & E2 & Hwf2 & Hw2 & Hc2 & Hr2 & Hle2 & Hlt2 & Hf2 & Ht2); try done.
    { intros; apply Hl; by right. } { intros; apply HA; [by right|done]. }
    { destruct Hret as [-> | ->], (ctrue r); auto. }
    exists ret', f2, v2, (b1 ++ b2). rewrite app_assoc.
    rewrite (rbind_head _ _ (fun '(r, f0, v0) => iterate_loop l' (Z.land ret (cbool (ctrue r))) f0 v0) _ E1).
    rewrite (Hf2 _ Hs). rewrite <- (live_work_frame l' _ v v1 Hf1 Hs).
    split_and!; try done.
    + intros s. by rewrite Hc2.
    + lia.
    + intros Hz. destruct (Hlt2 Hz) as [Hr0|Hlt]; [|right; lia].
      destruct Hret as [->|Hret]; [by left|]. right. subst ret.
      destruct (ctrue r) eqn:Er; [done|]. apply ctrue_false_iff in Er. specialize (Hp2 Er). lia.
    + cbn [map]. intros s [H1 H2]%not_elem_of_cons. rewrite Hf2, Hf1; done.
    + exact (transfers_app _ _ _ _ _ _ _ _ _ _ _ Ht1 Ht2).
  - rewrite (is_live_none _ E).
    destruct (IH ret f v data) as (ret' & f2 & v2 & b2 & E2 & Hwf2 & Hw2 & Hc2 & Hr2 & Hle2 & Hlt2 & Hf2 & Ht2);
      try done.
    { intros; apply Hl; by right. } { intros; apply HA; [by right|done]. }
    exists ret', f2, v2, b2. split_and!; try done.
    cbn [map]. intros s [H1 H2]%not_elem_of_cons. by apply Hf2.
Qed.

Lemma iterate_until_ok fuel f v data A les :
  les_ok les -> (forall se, se ∈ l -> is_live se = true -> le_of se ∈ les /\ section_id se ∈ A) ->
  wf v -> writing f data -> (live_work l v < fuel)%nat ->
  exists f' v' b,
    iterate_until fuel l f v = Ok (1, f', v') /\ wf v' /\ writing f' (data ++ b) /\ contents_kept v v' /\
    transfers les les (synced A []) (synced A []) v v' b.
Proof.
  intros Hles HA. revert f v data. induction fuel as [|fuel IH]; intros f v data Hwf Hw Hf; [lia|].
  destruct (iterate_loop_ok l 1 f v data A les) as (ret & f1 & v1 & b1 & E1 & Hwf1 & Hw1 & Hc1 & Hr1 & Hle1 & Hlt1 & _ & Ht1);
    auto.
  cbn [iterate_until]. unfold qemu_savevm_state_iterate. rewrite E1. cbn [rbind].
  destruct Hr1 as [-> | ->]; cbn [ctrue negb Z.eqb].
  - destruct Hw1 as (Hp1 & He1 & Hw1). unfold qemu_file_has_error. rewrite He1. cbn [Z.ltb Z.eqb Z.compare].
    destruct (IH f1 v1 (data ++ b1)) as (f2 & v2 & b2 & E2 & Hwf2 & Hw2 & Hc2 & Ht2); [done|done| |].
    { destruct (Hlt1 eq_refl); [done|lia]. }
    exists f2, v2, (b1 ++ b2). rewrite app_assoc. split_and!; try done.
    + intros s. by rewrite Hc2.
    + exact (transfers_app _ _ _ _ _ _ _ _ _ _ _ Ht1 Ht2).
  - exists f1, v1, b1. done.
Qed.

Lemma complete_live_ok l' f v data B les :
  (forall se, se ∈ l' -> se ∈ l) -> NoDup (map section_id l') -> les_ok les ->
  (forall se, se ∈ l' -> is_live se = true -> le_of se ∈ les) -> wf v -> writing f data ->
  exists f' v' b,
    complete_live_loop l' f v = Ok (f', v') /\ wf v' /\ writing f' (data ++ b) /\ contents_kept v v' /\
    transfers les les (synced (live_ids l') B) (synced [] (rev_append (live_ids l') B)) v v' b.
Proof.
  revert f v data B. induction l' as [|se l' IH]; intros f v data B Hl Hnd Hles HA Hwf Hw.
  { exists f, v, []. rewrite app_nil_r. split_and!; try done. apply transfers_nil. }
  cbn [map] in Hnd. apply NoDup_cons in Hnd as [Hs Hnd].
  assert (Hin : se ∈ l) by (apply Hl; by left).
  assert (Hl' : forall x, x ∈ l' -> x ∈ l) by (intros; apply Hl; by right).
  rewrite live_ids_cons. cbn [complete_live_loop].
  destruct (save_live_state se) as [live|] eqn:E.
  - rewrite (is_live_some _ _ E). cbn [rev_append].
    assert (Hle : le_of se ∈ les) by (apply HA; [by left|by apply (is_live_some _ live)]).
    destruct (one_section se _ _ _ _ (put_part_head QEMU_VM_SECTION_END se) _
      (section_id se :: live_ids l') B (live_ids l') (section_id se :: B) les les f v data Hin
      (law_end se (Hlaws se Hin) live E) (put_part_head_writing _ _) (part_bytes_pos _ _)
      (fun g t rest => load_part _ se les g t rest (or_intror eq_refl) Hin Hle Hles))
      as (r & f1 & v1 & b1 & E1 & Hw1 & Hwf1 & Hf1 & Hc1 & _ & Ht1); try done.
    { intros v1 t1 (_ & H1 & _). apply H1. by left. } { by right. }
    { intros x [->|]%elem_of_cons; done. } { intros d d' Hx. by apply live_ids_sub in Hx. }
    destruct (IH f1 v1 (data ++ b1) (section_id se :: B) Hl' Hnd Hles)
      as (f2 & v2 & b2 & E2 & Hwf2 & Hw2 & Hc2 & Ht2); [|done|done|].
    { intros; apply HA; [by right|done]. }
    exists f2, v2, (b1 ++ b2). rewrite app_assoc.
    rewrite (rbind_head _ _ (fun '(_, f0, v0) => complete_live_loop l' f0 v0) _ E1).
    split_and!; try done.
    + intros s. by rewrite Hc2.
    + exact (transfers_app _ _ _ _ _ _ _ _ _ _ _ Ht1 Ht2).
  - rewrite (is_live_none _ E). apply (IH f v data B Hl' Hnd Hles); [|done|done].
    intros; apply HA; [by right|done].
Qed.

Lemma complete_full_ok l' f v data B les :
  (forall se, se ∈ l' -> se ∈ l) -> wf v -> writing f data ->
  exists f' v' b les',
    complete_full_loop l' f v = Ok (f', v') /\ wf v' /\ writing f' (data ++ b) /\ contents_kept v v' /\
    transfers les les' (synced [] B) (synced [] (rev_append (full_ids l') B)) v v' b.
Proof.
  revert f v data B les. induction l' as [|se l' IH]; intros f v data B les Hl Hwf Hw.
  { exists f, v, [], les. rewrite app_nil_r. split_and!; try done. apply transfers_nil. }
  assert (Hin : se ∈ l) by (apply Hl; by left).
  assert (Hl' : forall x, x ∈ l' -> x ∈ l) by (intros; apply Hl; by right).
  rewrite full_ids_cons. cbn [complete_full_loop]. unfold is_full.
  destruct (save_state se) as [save|] eqn:E; [|by apply IH]. cbn [rev_append].
  destruct (one_section se _ _ _ _ (put_section_head QEMU_VM_SECTION_FULL se) _
    [] B [] (section_id se :: B) les (le_of se :: les) f v data Hin
    (law_full se (Hlaws se Hin) save E) (put_section_head_writing _ _) (head_bytes_pos _ _)
    (fun g t rest => load_named _ se les g t rest (or_intror eq_refl) Hin))
    as (r & f1 & v1 & b1 & E1 & Hw1 & Hwf1 & Hf1 & Hc1 & _ & Ht1); try done.
  { intros x [->|]%elem_of_cons; done. } { by intros ?? ?%elem_of_nil. }
  destruct (IH f1 v1 (data ++ b1) (section_id se :: B) (le_of se :: les) Hl' Hwf1 Hw1)
    as (f2 & v2 & b2 & les' & E2 & Hwf2 & Hw2 & Hc2 & Ht2).
  exists f2, v2, (b1 ++ b2), les'. rewrite app_assoc. split_and!; try done.
  - destruct (put_section_head QEMU_VM_SECTION_FULL se f) as [f0| |]; try done.
    cbn [rbind] in E1 |- *. destruct (save f0 v) as [[f0' v0']| |]; try done.
    cbn [rbind] in E1 |- *. by injection E1 as <- <- <-.
  - intros s. by rewrite Hc2.
  - exact (transfers_app _ _ _ _ _ _ _ _ _ _ _ Ht1 Ht2).
Qed.

(** The sections a snapshot restores. *)
Definition saved_ids : list Z := rev_append (full_ids l) (rev_append (live_ids l) []).

Lemma saved_ids_spec se :
  se ∈ l -> is_live se = true \/ is_full se = true -> section_id se ∈ saved_ids.
Proof.
  intros Hin H. unfold saved_ids. rewrite !rev_append_rev, app_nil_r.
  apply elem_of_app. destruct H as [H|H]; [right|left]; apply list_elem_of_In, in_rev;
    rewrite rev_involutive; apply in_map_iff; exists se; (split; [done|]);
    apply filter_In; by rewrite <- list_elem_of_In.
Qed.

Definition file_head : list Z := be32 QEMU_VM_FILE_MAGIC ++ be32 QEMU_VM_FILE_VERSION.

(** The three phases of saving write the file's head, bytes that restore
    every saved section, and the end mark. *)
Lemma savevm_phases fuel f v data :
  wf v -> writing f data -> (live_cap l < fuel)%nat ->
  exists f' v' b les,
    (let! (ret, f, v) := qemu_savevm_state_begin l f v in
     if ret <? 0 then Ok (ret, f, v) else
     let! (ret, f, v) := iterate_until fuel l f v in
     if ret <? 0 then Ok (ret, f, v) else qemu_savevm_state_complete l f v) = Ok (0, f', v') /\
    writing f' (data ++ file_head ++ b ++ [QEMU_VM_EOF]) /\ contents_kept v v' /\
    transfers [] les (synced [] []) (synced [] saved_ids) v v' b.
Proof.
  intros Hwf Hw Hfuel. unfold qemu_savevm_state_begin, qemu_file_has_error. do 2 wr_step.
  match goal with H : writing ?x ?d |- _ => rename H into Hw0, x into fh; set (d0 := d) in * end.
  destruct (begin_loop_ok l fh v d0 [] [])
    as (fa & va & ba & les & Ea & Hwfa & Hwa & Hca & Hlw & _ & Hok & _ & Hlive & Hta); [done|done| |done|done|].
  { by intros le ?%elem_of_nil. }
  rewrite Ea. cbn [rbind]. rewrite (proj1 (proj2 Hwa)). cbn [Z.ltb Z.compare].
  destruct (iterate_until_ok fuel fa va (d0 ++ ba) (rev_append (live_ids l) []) les Hok)
    as (fb & vb & bb & Eb & Hwfb & Hwb & Hcb & Htb); [|done|done|lia|].
  { intros se Hin Hlv. split; [by apply Hlive|]. rewrite rev_append_rev, app_nil_r.
    apply list_elem_of_In, in_rev. rewrite rev_involutive.
    apply in_map, filter_In. by rewrite <- list_elem_of_In. }
  rewrite Eb. cbn [rbind Z.ltb Z.compare]. unfold qemu_savevm_state_complete.
  destruct (complete_live_ok l fb vb _ [] les (fun _ H => H) Hsids Hok Hlive Hwfb Hwb)
    as (fc & vc & bc & Ec & Hwfc & Hwc & Hcc & Htc). rewrite Ec. cbn [rbind].
  destruct (complete_full_ok l fc vc _ (rev_append (live_ids l) []) les (fun _ H => H) Hwfc Hwc)
    as (fd & vd & bd & les' & Ed & Hwfd & Hwd & Hcd & Htd). rewrite Ed. cbn [rbind].
  wr_step. match goal with H : writing _ (_ ++ [_]) |- _ => rename H into Hwe end.
  unfold qemu_file_has_error. rewrite (proj1 (proj2 Hwe)).
  eexists _, vd, (ba ++ bb ++ bc ++ bd), les'. split; [done|]. split.
  { unfold d0, file_head in Hwe. rewrite <- !app_assoc in *. exact Hwe. }
  split; [intros s; by rewrite Hcd, Hcc, Hcb, Hca|].
  apply (transfers_app _ _ _ _ _ _ _ _ _ _ _ Hta).
  apply (transfers_app _ _ _ _ _ _ _ _ _ _ _ Htb).
  refine (transfers_app _ _ _ _ _ _ _ _ _ _ _ _ Htd).
  intros t g rest (Ht & HA & HB). apply Htc. split; [done|]. split; [|done]. intros s Hs. apply HA.
  rewrite rev_append_rev, app_nil_r. apply list_elem_of_In, in_rev.
  rewrite rev_involutive. by apply list_elem_of_In.
Qed.

(** Loading such a file. *)
Lemma loadvm_transfers les P v v' b g t n :
  transfers [] les P (synced [] saved_ids) v v' b -> P v t ->
  reading g (file_head ++ b ++ [QEMU_VM_EOF]) -> (length b <= n)%nat ->
  exists g' t', qemu_loadvm_state n l g t = Ok (0, g', t') /\ synced [] saved_ids v' t'.
Proof.
  intros Ht HP Hr Hn. unfold qemu_loadvm_state, file_head in *. rewrite <- app_assoc in Hr.
  assert (Hm : in_u32 QEMU_VM_FILE_MAGIC) by (unfold QEMU_VM_FILE_MAGIC; lia).
  assert (Hv : in_u32 QEMU_VM_FILE_VERSION) by (unfold QEMU_VM_FILE_VERSION; lia).
  destruct (get_be32_reading _ _ _ Hm Hr) as (g1 & -> & Hr1). cbn [rbind]. rewrite Z.eqb_refl. cbn [negb].
  destruct (get_be32_reading _ _ _ Hv Hr1) as (g2 & -> & Hr2). cbn [rbind].
  change (QEMU_VM_FILE_VERSION =? QEMU_VM_FILE_VERSION_COMPAT) with false. rewrite Z.eqb_refl. cbn [negb].
  destruct (Ht t g2 _ HP Hr2) as (k & g3 & t' & Hk & Hr3 & HP' & E).
  replace n with (k + (n - k))%nat by lia. rewrite E.
  destruct (get_byte_reading _ _ _ Hr3) as (g4 & E4 & Hr4).
  exists g4, t'. split; [|done].
  assert (Hl : load_loop (n - k) l les g3 t' = Ok (0, g4, t')).
  { destruct (n - k)%nat; cbn [load_loop]; rewrite E4; done. }
  rewrite Hl. cbn [rbind]. unfold qemu_file_has_error.
  by rewrite (proj1 (proj2 (proj2 Hr4))).
Qed.

End Laws.
End Snapshot.
Arguments VM M : clear implicits.
Arguments SaveStateEntry M : clear implicits.
Arguments registry M : clear implicits.

Section Theorems.
Context {M : Type} (change_handlers : list (bool -> Z -> M -> M)) (bdrv_flush_all : M -> M).
Context (stop_ticks stop_clk start_ticks start_clk : Z).

(** ** The registry over time

    What devices do: register with automatic numbering, register under a
    number of their own that no entry of that name has, unregister. *)
Inductive registered : registry M -> Prop :=
| registered_empty : registered (mkReg [] 0)
| registered_auto id ver live save load op r :
    registered r -> global_section_id r < 2147483647 ->
    Forall (fun p => in_s32 (instance_id p) /\ instance_id p < 2147483647) (first_se r) ->
    registered (register_savevm_live id (-1) ver live save load op r)
| registered_fixed id inst ver live save load op r :
    registered r -> global_section_id r < 2147483647 -> inst <> -1 ->
    find_se (pstrcpy 256 id) inst (first_se r) = None ->
    registered (register_savevm_live id inst ver live save load op r)
| registered_unregister id op r :
    registered r -> registered (unregister_savevm id op r).

Definition registry_wf (r : registry M) : Prop :=
  NoDup (map se_key (first_se r)) /\ NoDup (map section_id (first_se r)) /\
  0 <= global_section_id r /\
  Forall (fun se => 0 <= section_id se < global_section_id r) (first_se r).

Lemma find_se_None id inst (l : list (SaveStateEntry M)) :
  find_se id inst l = None -> (id, inst) ∉ map se_key l.
Proof.
  induction l as [|p l IH]; cbn [find_se map]; intros H; [apply not_elem_of_nil|].
  destruct (bool_decide_reflect (idstr p = id)) as [Hi|Hi]; cbn [andb] in H;
    [destruct (Z.eqb_spec inst (instance_id p)) as [Hn|Hn]; [done|]|];
    apply not_elem_of_cons; (split; [|by apply IH]); unfold se_key; congruence.
Qed.

(** An entry with a fresh name is added with a fresh number. *)
Lemma registry_add id n ver live save load op (r : registry M) :
  registry_wf r -> global_section_id r < 2147483647 -> (id, n) ∉ map se_key (first_se r) ->
  registry_wf (mkReg (first_se r ++ [mkSE id n ver (global_section_id r) live save load op])
                 (s32 (global_section_id r + 1))).
Proof.
  intros (H1 & H2 & H3 & H4) Hg Hf. unfold registry_wf. cbn [first_se global_section_id].
  rewrite swrap_small, !map_app by lia. split_and!.
  - apply NoDup_app. split; [done|]. split; [|apply NoDup_singleton].
    intros x Hx ->%list_elem_of_singleton. by apply Hf.
  - apply NoDup_app. split; [done|]. split; [|apply NoDup_singleton].
    intros x Hx ->%list_elem_of_singleton. cbn in Hx. apply list_elem_of_fmap in Hx as (se & E & Hin).
    rewrite Forall_forall in H4. specialize (H4 se Hin). lia.
  - lia.
  - apply Forall_app. split; [|constructor; [cbn; lia|constructor]].
    eapply Forall_impl; [exact H4|]. cbn. lia.
Qed.

Lemma unregister_sublist id op (l : list (SaveStateEntry M)) : unregister_walk id op l `sublist_of` l.
Proof.
  induction l as [|p l IH]; [done|]. cbn [unregister_walk].
  case_match; [by apply sublist_cons|by apply sublist_skip].
Qed.

Lemma registered_wf r : registered r -> registry_wf r.
Proof.
  induction 1 as [|id ver live save load op r _ IH Hg Hi|id inst ver live save load op r _ IH Hg Hi Hf
    |id op r _ IH].
  - unfold registry_wf. cbn. split_and!; [apply NoDup_nil_2|apply NoDup_nil_2|done|constructor].
  - apply registry_add; [done|done|]. change (-1 =? -1) with true. cbn iota.
    destruct (pick_instance_above (pstrcpy 256 id) 0 (first_se r) Hi) as [_ Hab].
    intros Hx. apply list_elem_of_fmap in Hx as (p & E & Hin). injection E as E1 E2.
    rewrite Forall_forall in Hab. specialize (Hab p Hin (eq_sym E1)). rewrite <- E2 in Hab. lia.
  - apply registry_add; [done|done|].
    assert (Hp : forall n (l : list (SaveStateEntry M)), pick_instance false (pstrcpy 256 id) n l = n)
      by (intros n l'; induction l'; done).
    destruct (Z.eqb_spec inst (-1)); [done|]. rewrite Hp. by apply find_se_None.
  - destruct IH as (H1 & H2 & H3 & H4). unfold registry_wf. cbn [unregister_savevm first_se global_section_id].
    pose proof (unregister_sublist id op (first_se r)) as Hs. split_and!; [| |done|].
    + eapply sublist_NoDup; [exact H1|]. by apply fmap_sublist.
    + eapply sublist_NoDup; [exact H2|]. by apply fmap_sublist.
    + rewrite Forall_forall in *. intros se Hin. apply H4.
      by apply (sublist_subseteq _ _ Hs).
Qed.

(** Names and numbers stay unambiguous. However devices register (with
    automatic numbers, or under explicit ones that are not in use) and
    unregister, no two entries have the same name and instance, no two the
    same section number, and [find_se] finds every entry by its name. *)
Theorem registry_names r :
  registered r ->
  NoDup (map se_key (first_se r)) /\ NoDup (map section_id (first_se r)) /\
  forall se, se ∈ first_se r -> find_se (idstr se) (instance_id se) (first_se r) = Some se.
Proof.
  intros H. destruct (registered_wf r H) as (H1 & H2 & _). split; [done|]. split; [done|].
  intros se Hin. by apply find_se_NoDup.
Qed.

(** The machine as [qemu_savevm_state] saves it: stopped, its disk caches
    written back. *)
Definition stopped (v : VM M) : VM M :=
  let v := vm_stop change_handlers stop_ticks stop_clk 0 v in
  mkVM (vm_running v) (timers_state v) (bdrv_flush_all (machine v)).

(** The two directions together. *)
Lemma snapshot_restores {D C : Type} (view : Z -> VM M -> D) (content : Z -> D -> C)
  (partial : Z -> D -> D -> Prop) (work : Z -> D -> nat) (cap : Z -> nat) (wf : VM M -> Prop)
  (l : list (SaveStateEntry M)) (fuel : nat) (v t : VM M) :
  NoDup (map se_key l) -> NoDup (map section_id l) ->
  (forall se, se ∈ l -> section_laws view content partial work cap wf se) ->
  wf (stopped v) -> wf t -> (live_cap cap l < fuel)%nat ->
  exists f v1 g t',
    qemu_savevm_state change_handlers bdrv_flush_all stop_ticks stop_clk start_ticks start_clk
      fuel l qemu_fopen_wb v
      = Ok (0, f, if vm_running v then vm_start change_handlers start_ticks start_clk v1 else v1) /\
    (forall s, content s (view s v1) = content s (view s (stopped v))) /\
    qemu_loadvm_state (length (qemu_fclose f)) l (qemu_fopen_rb (qemu_fclose f)) t = Ok (0, g, t') /\
    forall se, se ∈ l -> save_live_state se <> None \/ save_state se <> None ->
      let s := section_id se in content s (view s t') = content s (view s (stopped v)).
Proof.
  intros Hk Hs Hlaws Hwf Hwt Hfuel.
  destruct (savevm_phases view content partial work cap wf l Hk Hs Hlaws fuel qemu_fopen_wb
    (stopped v) [] Hwf writing_open Hfuel) as (f & v1 & b & les & E & Hw & Hc & Ht).
  pose proof (fclose_writing _ _ Hw) as Hb. cbn [app] in Hb.
  destruct (loadvm_transfers view content partial wf l les _ _ _ b
    (qemu_fopen_rb (qemu_fclose f)) t (length (qemu_fclose f)) Ht) as (g & t' & E' & Hsy).
  { split; [exact Hwt|]. split; intros s H; destruct (not_elem_of_nil _ H). }
  { rewrite <- Hb. exact (reading_open _). }
  { rewrite Hb, !length_app. lia. }
  exists f, v1, g, t'. split; [|split; [exact Hc|split; [exact E'|]]].
  - unfold qemu_savevm_state. fold (stopped v). rewrite E. cbn [rbind].
    unfold qemu_file_has_error. rewrite (proj1 (proj2 Hw)). reflexivity.
  - intros se Hin Hsv s. rewrite (proj2 (proj2 Hsy) s); [apply Hc|].
    apply saved_ids_spec; [exact Hin|]. clear -Hsv. unfold is_live, is_full.
    destruct (save_live_state se), (save_state se); naive_solver.
Qed.

(** C8: A snapshot restores the machine. For every registry whose entries have
    distinct names and numbers and keep the promises of [section_laws],
    [qemu_savevm_state] ends, returns 0 and restarts the machine if it was
    running, after at most as many rounds as the live sections have work to
    do; and [qemu_loadvm_state] on the file it wrote, in any machine [t] with
    the same registry, ends, returns 0, and leaves every section that has a
    save handler with the content it had when the machine was stopped. *)
Theorem snapshot_round_trip {D C : Type} (view : Z -> VM M -> D) (content : Z -> D -> C)
  (partial : Z -> D -> D -> Prop) (work : Z -> D -> nat) (cap : Z -> nat) (wf : VM M -> Prop)
  (l : list (SaveStateEntry M)) (fuel : nat) (v t : VM M) :
  NoDup (map se_key l) -> NoDup (map section_id l) ->
  (forall se, se ∈ l -> section_laws view content partial work cap wf se) ->
  wf (stopped v) -> wf t -> (live_cap cap l < fuel)%nat ->
  exists f v1 g t',
    qemu_savevm_state change_handlers bdrv_flush_all stop_ticks stop_clk start_ticks start_clk
      fuel l qemu_fopen_wb v
      = Ok (0, f, if vm_running v then vm_start change_handlers start_ticks start_clk v1 else v1) /\
    (forall s, content s (view s v1) = content s (view s (stopped v))) /\
    qemu_loadvm_state (length (qemu_fclose f)) l (qemu_fopen_rb (qemu_fclose f)) t = Ok (0, g, t') /\
    forall se, se ∈ l -> save_live_state se <> None \/ save_state se <> None ->
      let s := section_id se in content s (view s t') = content s (view s (stopped v)).
Proof. apply snapshot_restores. Qed.

End Theorems.

(** ** A small machine

    Two 32-bit registers: one saved in a full section, one in a live one. *)
Module Example2.
Definition M2 : Type := Z * Z.
Definition get_reg (s : Z) (v : VM M2) : Z := 
  if s =? 0 then (machine v).1 else if s =? 1 then (machine v).2 else 0.
Definition set_reg (s x : Z) (v : VM M2) : VM M2 :=
  mkVM (vm_running v) (timers_state v)
    (if s =? 0 then (x, (machine v).2) else ((machine v).1, x)).
Definition put_reg (s : Z) (f : QEMUFile) (v : VM M2) : res (QEMUFile * VM M2) :=
  let! f := qemu_put_be32 f (u32 (get_reg s v)) in Ok (f, v).
Definition load_reg (s : Z) (f : QEMUFile) (ver : Z) (v : VM M2) : res (Z * QEMUFile * VM M2) :=
  let! (x, f) := qemu_get_be32 f in Ok (0, f, set_reg s x v).
Definition live_reg (f : QEMUFile) (stage : Z) (v : VM M2) : res (Z * QEMUFile * VM M2) :=
  let! (f, v) := put_reg 1 f v in Ok (1, f, v).

Definition reg2 : registry M2 :=
  register_savevm_live [114; 97; 109] (-1) 1 (Some live_reg) None (load_reg 1) 0
    (register_savevm [99; 112; 117] 0 1 (Some (put_reg 0)) (load_reg 0) 0 (mkReg [] 0)).

Definition partial2 (s d d' : Z) : Prop := True.
Definition wf2 (v : VM M2) : Prop := True.
Abbreviation laws2 :=
  (section_laws get_reg (fun _ => u32) partial2 (fun _ _ => 0%nat) (fun _ => 0%nat) wf2).

(** Writing a register and reading it back. *)
Lemma reg_saves (se : SaveStateEntry M2) s r (pre post : Z -> Z -> Prop) prog :
  section_id se = s -> load_state se = load_reg s -> s = 0 \/ s = 1 ->
  (forall d d', u32 d' = u32 d -> post d d') -> (forall d, prog r d d) ->
  saves get_reg (fun _ => u32) wf2 se
    (fun f v => let! (f, v) := put_reg s f v in Ok (r, f, v)) pre post prog.
Proof.
  intros Hid Hld Hs Hpost Hprog v f data _ Hw. rewrite Hid, Hld. unfold put_reg.
  wr_step. eexists r, _, v, _. split; [reflexivity|]. split; [eassumption|].
  split; [done|]. split; [done|]. split; [done|]. split; [apply Hprog|].
  intros t g rest _ _ Hr. unfold load_reg.
  destruct (get_be32_reading g _ rest (uwrap_range 32 _ ltac:(lia)) Hr) as (g' & -> & Hr').
  cbn [rbind]. eexists _, g', _. split; [reflexivity|]. split; [done|]. split; [done|].
  split.
  - intros s' Hs'. unfold get_reg, set_reg. cbn [machine].
    destruct Hs as [-> | ->], (Z.eqb_spec s' 0), (Z.eqb_spec s' 1); done.
  - apply Hpost. unfold get_reg, set_reg. cbn [machine].
    destruct Hs as [-> | ->]; cbn; by rewrite uwrap_idem.
Qed.

Lemma laws2_hold se : se ∈ first_se reg2 -> laws2 se.
Proof.
  intros [->|[->|H%elem_of_nil]%elem_of_cons]%elem_of_cons; [| |done];
    (split; [split; [cbn; lia|repeat constructor; lia]|vm_compute; intuition congruence
            |intros x [= <-]|intros x [= <-]|intros x [= <-]|intros x [= <-]]).
  - apply (reg_saves _ 0); by auto.
  - apply (reg_saves _ 1 1); [reflexivity|reflexivity|by right|done
      |unfold opened, progress, any_result; intros; lia || done].
  - apply (reg_saves _ 1 1); [reflexivity|reflexivity|by right|done
      |unfold opened, progress, any_result; intros; lia || done].
  - apply (reg_saves _ 1 1); [reflexivity|reflexivity|by right|done
      |unfold opened, progress, any_result; intros; lia || done].
Qed.
End Example2.

Lemma registry_names_witness :
  registered Example2.reg2 /\
  NoDup (map se_key (first_se Example2.reg2)) /\ NoDup (map section_id (first_se Example2.reg2)) /\
  forall se, se ∈ first_se Example2.reg2 ->
    find_se (idstr se) (instance_id se) (first_se Example2.reg2) = Some se.
Proof.
  assert (H : registered Example2.reg2).
  { apply registered_auto; [apply registered_fixed; [constructor|done|done|reflexivity]|done|].
    repeat constructor; cbn; lia. }
  split; [exact H|]. exact (registry_names _ H).
Defined.

Lemma snapshot_round_trip_witness :
  exists f v1 g t',
    qemu_savevm_state [] (fun m => m) 5 6 7 8 1 (first_se Example2.reg2) qemu_fopen_wb
      (mkVM true (mkTS 0 0 0 true) (17, 34)) = Ok (0, f, vm_start [] 7 8 v1) /\
    (forall s, u32 (Example2.get_reg s v1) =
       u32 (Example2.get_reg s (mkVM false (mkTS 5 5 6 false) (17, 34)))) /\
    qemu_loadvm_state (length (qemu_fclose f)) (first_se Example2.reg2)
      (qemu_fopen_rb (qemu_fclose f)) (mkVM false (mkTS 0 0 0 false) (0, 0)) = Ok (0, g, t') /\
    forall se, se ∈ first_se Example2.reg2 ->
      save_live_state se <> None \/ save_state se <> None ->
      u32 (Example2.get_reg (section_id se) t') =
      u32 (Example2.get_reg (section_id se) (mkVM false (mkTS 5 5 6 false) (17, 34))).
Proof.
  apply (snapshot_round_trip [] (fun m => m) 5 6 7 8 Example2.get_reg (fun _ => u32)
    Example2.partial2 (fun _ _ => 0%nat) (fun _ => 0%nat) Example2.wf2 (first_se Example2.reg2) 1
    (mkVM true (mkTS 0 0 0 true) (17, 34)) (mkVM false (mkTS 0 0 0 false) (0, 0))).
  - apply (bool_decide_unpack _). vm_compute. exact I.
  - apply (bool_decide_unpack _). vm_compute. exact I.
  - exact Example2.laws2_hold.
  - exact I.
  - exact I.
  - cbn. lia.
Defined.
