(* ===== verification/RamSave.v ===== *)
(** * The "ram" section of a snapshot ([vl-android.c])

    Saving the RAM in rounds, guided by the dirty flags, and loading it, on
    the RAM blocks and host memory of [GuestMem] and the files of [Savevm].
    The file is a standard one, so [qemu_file_rate_limit] is 0. *)
From stdpp Require Import gmap.
From S2P Require Import Prelude GuestMem Savevm Snapshot.

Definition MIGRATION_DIRTY_FLAG : Z := 8.
Definition RAM_SAVE_FLAG_FULL : Z := 1.
Definition RAM_SAVE_FLAG_COMPRESS : Z := 2.
Definition RAM_SAVE_FLAG_MEM_SIZE : Z := 4.
Definition RAM_SAVE_FLAG_PAGE : Z := 8.
Definition RAM_SAVE_FLAG_EOS : Z := 16.
Definition BDRV_HASH_BLOCK_SIZE : Z := 1024.
Definition IOBUF_SIZE : Z := 4096.
Definition RAM_CBLOCK_MAGIC : Z := 64190.   (* 0xfabe *)

(** The bytes of a page. *)
Definition page_n : nat := Z.to_nat TARGET_PAGE_SIZE.

Record RamState := mkRam {
  mem : PhysMem;
  ram_dirty : gmap Z Z;         (* [phys_ram_dirty], by page *)
  last_ram_offset : Z;
  current_addr : Z;             (* the static of [ram_save_block] *)
  bytes_transferred : Z;
  in_migration : bool
}.

Definition set_mem (s : RamState) (m : PhysMem) : RamState :=
  mkRam m (ram_dirty s) (last_ram_offset s) (current_addr s) (bytes_transferred s) (in_migration s).
Definition set_ram_dirty (s : RamState) (d : gmap Z Z) : RamState :=
  mkRam (mem s) d (last_ram_offset s) (current_addr s) (bytes_transferred s) (in_migration s).
Definition set_current_addr (s : RamState) (a : Z) : RamState :=
  mkRam (mem s) (ram_dirty s) (last_ram_offset s) a (bytes_transferred s) (in_migration s).
Definition add_transferred (s : RamState) (n : Z) : RamState :=
  mkRam (mem s) (ram_dirty s) (last_ram_offset s) (current_addr s)
    (u64 (bytes_transferred s + n)) (in_migration s).

(** ** Dirty flags ([cpu-all.h], [exec.c]) *)

Definition page_index (addr : Z) : Z := Z.shiftr addr TARGET_PAGE_BITS.

Definition cpu_physical_memory_get_dirty (addr flags : Z) (s : RamState) : Z :=
  Z.land (default 0 (ram_dirty s !! page_index addr)) flags.

Definition cpu_physical_memory_set_dirty (addr : Z) (s : RamState) : RamState :=
  set_ram_dirty s (<[page_index addr := 255]> (ram_dirty s)).

Definition TARGET_PAGE_ALIGN (addr : Z) : Z := page_of (addr + TARGET_PAGE_SIZE - 1).

Fixpoint clear_dirty (len : nat) (p flags : Z) (d : gmap Z Z) : gmap Z Z :=
  match len with
  | O => d
  | S len => clear_dirty len (p + 1) flags (<[p := Z.ldiff (default 0 (d !! p)) flags]> d)
  end.

(** The update of the CPUs' TLBs is not modelled. *)
Definition cpu_physical_memory_reset_dirty (start end_ flags : Z) (s : RamState) : res RamState :=
  let start := page_of start in
  let end_ := TARGET_PAGE_ALIGN end_ in
  let length := end_ - start in
  if length =? 0 then Ok s else
  let len := Z.shiftr length TARGET_PAGE_BITS in
  let s := set_ram_dirty s (clear_dirty (Z.to_nat len) (page_index start) flags (ram_dirty s)) in
  let! m := qemu_get_ram_ptr (mem s) start in
  let! m := qemu_get_ram_ptr m (end_ - 1) in
  if same_block start (end_ - 1) m then Ok (set_mem s m) else Abort.

(** ** Saving *)

(** The [i]-th 32-bit word of a page on a little-endian host. *)
Definition page_word (page : list Z) (i : nat) : Z := ld_p (take 4 (drop (4 * i) page)).

Fixpoint dup_loop (n i : nat) (page : list Z) (val : Z) : bool :=
  match n with
  | O => true
  | S n => if negb (page_word page i =? val) then false else dup_loop n (S i) page val
  end.

Definition is_dup_page (page : list Z) (ch : Z) : bool :=
  let val := u32 (Z.lor (Z.lor (Z.lor (Z.shiftl ch 24) (Z.shiftl ch 16)) (Z.shiftl ch 8)) ch) in
  dup_loop (Z.to_nat (TARGET_PAGE_SIZE / 4)) 0 page val.

(** The loop of [ram_save_block]; [fuel] counts the pages. *)
Fixpoint save_block_loop (fuel : nat) (saved_addr addr : Z) (f : QEMUFile) (s : RamState)
  : res (Z * QEMUFile * RamState) :=
  if negb (addr <? last_ram_offset s) then Ok (0, f, s) else
  match fuel with
  | O => Undef
  | S fuel =>
    let cur := current_addr s in
    if ctrue (cpu_physical_memory_get_dirty cur MIGRATION_DIRTY_FLAG s) then
      let! s := cpu_physical_memory_reset_dirty cur (cur + TARGET_PAGE_SIZE) MIGRATION_DIRTY_FLAG s in
      let! m := qemu_get_ram_ptr (mem s) cur in
      let s := set_mem s m in
      let p := ram_load (ram m) cur page_n in
      let p0 := ram_byte (ram m) cur in
      let! f :=
        if is_dup_page p p0 then
          let! f := qemu_put_be64 f (Z.lor cur RAM_SAVE_FLAG_COMPRESS) in qemu_put_byte f p0
        else
          let! f := qemu_put_be64 f (Z.lor cur RAM_SAVE_FLAG_PAGE) in qemu_put_buffer f p in
      Ok (1, f, s)
    else
      let addr := addr + TARGET_PAGE_SIZE in
      save_block_loop fuel saved_addr addr f
        (set_current_addr s ((saved_addr + addr) mod last_ram_offset s))
  end.

Definition ram_pages (s : RamState) : nat := Z.to_nat (last_ram_offset s / TARGET_PAGE_SIZE).

Definition ram_save_block (f : QEMUFile) (s : RamState) : res (Z * QEMUFile * RamState) :=
  save_block_loop (ram_pages s) (current_addr s) 0 f s.

Fixpoint remaining_loop (n : nat) (addr : Z) (s : RamState) : Z :=
  match n with
  | O => 0
  | S n =>
      cbool (ctrue (cpu_physical_memory_get_dirty addr MIGRATION_DIRTY_FLAG s))
        + remaining_loop n (addr + TARGET_PAGE_SIZE) s
  end.

Definition ram_save_remaining (s : RamState) : Z := remaining_loop (ram_pages s) 0 s.

(** The loop that marks every page at the first stage. *)
Fixpoint mark_loop (n : nat) (addr : Z) (s : RamState) : RamState :=
  match n with
  | O => s
  | S n =>
      mark_loop n (addr + TARGET_PAGE_SIZE)
        (if negb (ctrue (cpu_physical_memory_get_dirty addr MIGRATION_DIRTY_FLAG s))
         then cpu_physical_memory_set_dirty addr s else s)
  end.

(** The two loops around [ram_save_block]: the first counts [ret] pages per
    call, the second one page. Both stop at the first call that finds none. *)
Fixpoint send_loop (fuel : nat) (f : QEMUFile) (s : RamState) : res (QEMUFile * RamState) :=
  match fuel with
  | O => Undef
  | S fuel =>
      let! (ret, f, s) := ram_save_block f s in
      let s := add_transferred s (ret * TARGET_PAGE_SIZE) in
      if ret =? 0 then Ok (f, s) else send_loop fuel f s
  end.
Fixpoint flush_loop (fuel : nat) (f : QEMUFile) (s : RamState) : res (QEMUFile * RamState) :=
  match fuel with
  | O => Undef
  | S fuel =>
      let! (ret, f, s) := ram_save_block f s in
      if negb (ret =? 0) then flush_loop fuel f (add_transferred s TARGET_PAGE_SIZE) else Ok (f, s)
  end.

Section SaveLive.
(** Whether sending this many pages is expected to take no longer than
    [migrate_max_downtime], at the bandwidth measured with the host clock. *)
Context (short_downtime : Z -> bool).

Definition set_tracking (s : RamState) (b : bool) : RamState :=
  mkRam (mem s) (ram_dirty s) (last_ram_offset s) (current_addr s) (bytes_transferred s) b.

Definition ram_save_live (f : QEMUFile) (stage : Z) (s : RamState) : res (Z * QEMUFile * RamState) :=
  let! (f, s) :=
    if stage =? 1 then
      let s := set_tracking (mark_loop (ram_pages s) 0 s) true in
      let! f := qemu_put_be64 f (Z.lor (last_ram_offset s) RAM_SAVE_FLAG_MEM_SIZE) in Ok (f, s)
    else Ok (f, s) in
  let! (f, s) := send_loop (S (ram_pages s)) f s in
  let! (f, s) :=
    if stage =? 3 then
      let! (f, s) := flush_loop (S (ram_pages s)) f s in Ok (f, set_tracking s false)
    else Ok (f, s) in
  let! f := qemu_put_be64 f RAM_SAVE_FLAG_EOS in
  Ok (cbool ((stage =? 2) && short_downtime (ram_save_remaining s)), f, s).
End SaveLive.

(** ** Loading *)

(** [memset] and [memcpy] to a page of host memory, which has to lie in one
    block. *)
Definition store_page (addr : Z) (bytes : list Z) (s : RamState) : res RamState :=
  let! m := qemu_get_ram_ptr (mem s) addr in
  if same_block addr (addr + TARGET_PAGE_SIZE - 1) m then
    Ok (set_mem s (mkMem (phys_map m) (ram_blocks m) (ram_store (ram m) addr bytes)))
  else Undef.

(** The first format: a byte that says how each page is coded. *)
Definition ram_get_page (f : QEMUFile) (addr : Z) (s : RamState) : res (Z * QEMUFile * RamState) :=
  let len := TARGET_PAGE_SIZE in
  let! (v, f) := qemu_get_byte f in
  let! (ret, f, s) :=
    if v =? 0 then
      let! (bytes, f) := qemu_get_buffer f len in
      let! s := store_page addr bytes s in
      Ok (if Z.of_nat (length bytes) =? len then 0 else - EIO, f, s)
    else if v =? 1 then
      let! (v, f) := qemu_get_byte f in
      let! s := store_page addr (replicate page_n v) s in Ok (0, f, s)
    else Ok (- EINVAL, f, s) in
  if negb (ret =? 0) then Ok (ret, f, s)
  else Ok (if qemu_file_has_error f then - EIO else 0, f, s).

Fixpoint load_v1_loop (n : nat) (i : Z) (f : QEMUFile) (s : RamState) : res (Z * QEMUFile * RamState) :=
  match n with
  | O => Ok (0, f, s)
  | S n =>
      let! (ret, f, s) := ram_get_page f i s in
      if ctrue ret then Ok (ret, f, s) else load_v1_loop n (i + TARGET_PAGE_SIZE) f s
  end.

Definition ram_load_v1 (f : QEMUFile) (s : RamState) : res (Z * QEMUFile * RamState) :=
  let! (n, f) := qemu_get_be32 f in
  if negb (n =? last_ram_offset s) then Ok (- EINVAL, f, s)
  else load_v1_loop (ram_pages s) 0 f s.

Section Inflate.
(** zlib: a stream; [inflate st inp avail_out] is the return code, the input
    left over, the output produced and the stream after the call. *)
Context {ZS : Type} (inflateInit : option ZS).
Context (inflate : ZS -> list Z -> Z -> Z * list Z * list Z * ZS) (Z_OK Z_STREAM_END : Z).
(** A bound on the calls of [inflate] for one buffer. *)
Context (zfuel : nat).

Record RamDecompressState := mkDec {
  zstream : ZS;
  next_in : list Z;             (* [avail_in] bytes at [next_in] *)
  dec_buf : list Z
}.

(** [ram_decompress_buf]: the bytes produced; [None] for -1. *)
Fixpoint decompress_loop (fuel : nat) (len : Z) (d : RamDecompressState) (f : QEMUFile)
  : res (option (list Z) * RamDecompressState * QEMUFile) :=
  if len <=? 0 then Ok (Some [], d, f) else
  match fuel with
  | O => Undef
  | S fuel =>
    let! (inp, f) :=
      match next_in d with
      | [] =>
          let! (magic, f) := qemu_get_be16 f in
          if negb (magic =? RAM_CBLOCK_MAGIC) then Ok (None, f) else
          let! (clen, f) := qemu_get_be16 f in
          if IOBUF_SIZE <? clen then Ok (None, f) else
          let! (bytes, f) := qemu_get_buffer f clen in
          let buf := splice (dec_buf d) 0 bytes in
          Ok (Some (take (Z.to_nat clen) buf, buf), f)
      | inp => Ok (Some (inp, dec_buf d), f)
      end in
    match inp with
    | None => Ok (None, d, f)
    | Some (inp, buf) =>
        let '(ret, inp_left, out, z) := inflate (zstream d) inp len in
        let d := mkDec z inp_left buf in
        if negb (ret =? Z_OK) && negb (ret =? Z_STREAM_END) then Ok (None, d, f) else
        let! (rest, d, f) := decompress_loop fuel (len - Z.of_nat (length out)) d f in
        Ok (match rest with Some r => Some (out ++ r) | None => None end, d, f)
    end
  end.

Fixpoint load_dead_loop (n : nat) (i : Z) (d : RamDecompressState) (f : QEMUFile) (s : RamState)
  : res (Z * QEMUFile * RamState) :=
  match n with
  | O => Ok (0, f, s)
  | S n =>
      let! (hd, d, f) := decompress_loop zfuel 1 d f in
      match hd with
      | Some [0] =>
          let! (bytes, d, f) := decompress_loop zfuel BDRV_HASH_BLOCK_SIZE d f in
          match bytes with
          | Some bytes => let! s := store_page i bytes s in
                          load_dead_loop n (i + BDRV_HASH_BLOCK_SIZE) d f s
          | None => Ok (- EINVAL, f, s)
          end
      | _ => Ok (- EINVAL, f, s)
      end
  end.

Definition ram_load_dead (f : QEMUFile) (s : RamState) : res (Z * QEMUFile * RamState) :=
  match inflateInit with
  | None => Ok (- EINVAL, f, s)
  | Some z => load_dead_loop (ram_pages s) 0 (mkDec z [] (replicate (Z.to_nat IOBUF_SIZE) 0)) f s
  end.

(** The entries of the third format, up to the end mark. *)
Fixpoint ram_load_loop (fuel : nat) (f : QEMUFile) (s : RamState) : res (Z * QEMUFile * RamState) :=
  match fuel with
  | O => Undef
  | S fuel =>
    let! (addr, f) := qemu_get_be64 f in
    let flags := page_offset addr in
    let addr := page_of addr in
    if ctrue (Z.land flags RAM_SAVE_FLAG_MEM_SIZE) && negb (addr =? last_ram_offset s)
    then Ok (- EINVAL, f, s) else
    let! (ret, f, s) :=
      if ctrue (Z.land flags RAM_SAVE_FLAG_FULL) then ram_load_dead f s else Ok (0, f, s) in
    if ret <? 0 then Ok (- EINVAL, f, s) else
    let! (f, s) :=
      if ctrue (Z.land flags RAM_SAVE_FLAG_COMPRESS) then
        let! (ch, f) := qemu_get_byte f in
        let! s := store_page addr (replicate page_n ch) s in Ok (f, s)
      else if ctrue (Z.land flags RAM_SAVE_FLAG_PAGE) then
        let! (bytes, f) := qemu_get_buffer f TARGET_PAGE_SIZE in
        let! s := store_page addr bytes s in Ok (f, s)
      else Ok (f, s) in
    if ctrue (Z.land flags RAM_SAVE_FLAG_EOS) then Ok (0, f, s) else ram_load_loop fuel f s
  end.

(** [ram_load]. A round that reads no end mark reads at least eight bytes, or
    the file has ended and no round will: as many rounds as there are bytes
    in the buffer and in the file are all there can be. *)
Definition vl_ram_load (f : QEMUFile) (version : Z) (s : RamState) : res (Z * QEMUFile * RamState) :=
  if version =? 1 then ram_load_v1 f s
  else if version =? 2 then
    let! (n, f) := qemu_get_be32 f in
    if negb (n =? last_ram_offset s) then Ok (- EINVAL, f, s) else ram_load_dead f s
  else if negb (version =? 3) then Ok (- EINVAL, f, s)
  else ram_load_loop (S (Z.to_nat (buf_size f - buf_index f) + length (outfile f))) f s.
End Inflate.

(** ** The state between calls *)

Lemma page_n_Z : Z.of_nat page_n = 1024.
Proof. done. Qed.
#[global] Opaque page_n.

Definition page_dirty (s : RamState) (a : Z) : bool :=
  ctrue (cpu_physical_memory_get_dirty a MIGRATION_DIRTY_FLAG s).

Definition is_page (N a : Z) : Prop := 0 <= a < N /\ a mod 1024 = 0.

Definition ram_wf (N : Z) (s : RamState) : Prop :=
  last_ram_offset s = N /\ 0 < N < 4294967296 /\ N mod 1024 = 0 /\
  (forall a, is_page N a -> same_block a (a + 1023) (mem s) = true) /\
  is_page N (current_addr s) /\ (forall a, in_u8 (ram_byte (ram (mem s)) a)).

Lemma page_index_div a : page_index a = a / 1024.
Proof. unfold page_index, TARGET_PAGE_BITS. by rewrite Z.shiftr_div_pow2. Qed.

Lemma page_mod N x : N mod 1024 = 0 -> (x mod N) mod 1024 = x mod 1024.
Proof. intros H. apply Z.mod_mod_divide. by apply Z.mod_divide. Qed.

Lemma page_of_page N a : is_page N a -> page_of a = a.
Proof. intros [_ H]. rewrite page_of_mod. lia. Qed.

Lemma same_block_in a b m : same_block a b m = true ->
  existsb (in_block a) (ram_blocks m) = true /\ existsb (in_block b) (ram_blocks m) = true.
Proof.
  unfold same_block. rewrite !existsb_exists.
  intros (blk & Hin & [H1 H2]%andb_true_iff). split; by exists blk.
Qed.

Lemma same_block_like m r m' a b : mem_like m r m' -> same_block a b m' = same_block a b m.
Proof. intros (_ & H & _). unfold same_block. by rewrite H. Qed.

(** The memory of a page is found. *)
Lemma page_ptr_ok N s a :
  ram_wf N s -> is_page N a ->
  exists m', qemu_get_ram_ptr (mem s) a = Ok m' /\ mem_like (mem s) (ram (mem s)) m'.
Proof.
  intros (_ & _ & _ & Hb & _) Ha. apply get_ram_ptr_ok.
  exact (proj1 (same_block_in _ _ _ (Hb a Ha))).
Qed.

(** [s'] is [s] with the blocks in another order and other flags. *)
Lemma ram_wf_like N s s' r :
  ram_wf N s -> mem_like (mem s) r (mem s') -> last_ram_offset s' = last_ram_offset s ->
  is_page N (current_addr s') -> (forall a, in_u8 (ram_byte r a)) -> ram_wf N s'.
Proof.
  intros (H1 & H2 & H3 & H4 & _) Hl Hn Hc Hr. pose proof Hl as (_ & _ & He).
  unfold ram_wf. rewrite Hn, He. split_and!; try done; try lia.
  intros a Ha. rewrite (same_block_like _ _ _ _ _ Hl). by apply H4.
Qed.

Lemma reset_page N s a :
  ram_wf N s -> is_page N a ->
  exists s', cpu_physical_memory_reset_dirty a (a + TARGET_PAGE_SIZE) MIGRATION_DIRTY_FLAG s = Ok s' /\
    ram_wf N s' /\ ram (mem s') = ram (mem s) /\ current_addr s' = current_addr s /\
    ram_dirty s' = <[a / 1024 := Z.ldiff (default 0 (ram_dirty s !! (a / 1024))) 8]> (ram_dirty s).
Proof.
  intros Hwf Ha. unfold cpu_physical_memory_reset_dirty, TARGET_PAGE_ALIGN, TARGET_PAGE_SIZE.
  rewrite (page_of_page N a Ha), page_of_mod.
  replace (a + 1024 + 1024 - 1 - (a + 1024 + 1024 - 1) mod 1024) with (a + 1024)
    by (destruct Ha; Z.to_euclidean_division_equations; lia).
  replace (a + 1024 - a) with 1024 by lia. cbn [Z.eqb].
  change (Z.to_nat (Z.shiftr 1024 TARGET_PAGE_BITS)) with 1%nat. cbn [clear_dirty].
  rewrite page_index_div. cbn [mem set_ram_dirty].
  destruct (page_ptr_ok N s a Hwf Ha) as (m1 & -> & Hl1). cbn [rbind].
  pose proof Hwf as (_ & _ & _ & Hb & Hc & Hu). pose proof (Hb a Ha) as Hsb.
  assert (Hsb1 : same_block a (a + 1023) m1 = true) by by rewrite (same_block_like _ _ _ _ _ Hl1).
  replace (a + 1024 - 1) with (a + 1023) by lia.
  destruct (get_ram_ptr_ok m1 (a + 1023)) as (m2 & -> & Hl2); [by eapply same_block_in|].
  cbn [rbind]. rewrite (same_block_like _ _ _ _ _ Hl2), Hsb1.
  pose proof Hl1 as (_ & _ & He). rewrite He in Hl2.
  pose proof (mem_like_trans _ _ _ _ _ Hl1 Hl2) as Hl.
  eexists. split; [reflexivity|]. split_and!; try done.
  - apply (ram_wf_like N s _ (ram (mem s))); done.
  - apply Hl.
Qed.

Lemma page_dirty_insert s s' a x :
  ram_dirty s' = <[a / 1024 := Z.ldiff (default 0 (ram_dirty s !! (a / 1024))) 8]> (ram_dirty s) ->
  a mod 1024 = 0 -> x mod 1024 = 0 ->
  page_dirty s' x = page_dirty s x && negb (x =? a).
Proof.
  intros Hd Ha Hx. unfold page_dirty, cpu_physical_memory_get_dirty, MIGRATION_DIRTY_FLAG.
  rewrite Hd, page_index_div. destruct (Z.eqb_spec x a) as [->|Hne].
  - rewrite lookup_insert, decide_True, andb_false_r by done. apply ctrue_false_iff.
    cbn [from_option id]. generalize (default 0 (ram_dirty s !! (a / 1024))). intros z.
    apply Z.bits_inj'. intros i Hi. rewrite Z.land_spec, Z.ldiff_spec, Z.bits_0. btauto.
  - rewrite lookup_insert_ne, andb_true_r; [done|].
    intros He. apply Hne. Z.to_euclidean_division_equations. lia.
Qed.

(** ** Uniform pages *)

Lemma dup_loop_words n i page val :
  dup_loop n i page val = true -> forall k, (i <= k < i + n)%nat -> page_word page k = val.
Proof.
  revert i. induction n as [|n IH]; intros i H k Hk; [lia|]. cbn [dup_loop] in H.
  destruct (Z.eqb_spec (page_word page i) val) as [E|]; [|done]. cbn [negb] in H.
  destruct (decide (k = i)) as [->|]; [done|]. apply (IH (S i)); [done|lia].
Qed.

Lemma word_bytes a b c d ch :
  in_u8 a -> in_u8 b -> in_u8 c -> in_u8 d -> in_u8 ch ->
  ld_p [a; b; c; d] =
    u32 (Z.lor (Z.lor (Z.lor (Z.shiftl ch 24) (Z.shiftl ch 16)) (Z.shiftl ch 8)) ch) ->
  a = ch /\ b = ch /\ c = ch /\ d = ch.
Proof.
  intros Ha Hb Hc Hd Hch. cbn [ld_p]. rewrite Z.shiftl_0_l, Z.lor_0_r.
  rewrite !Z.shiftl_mul_pow2 by lia.
  rewrite (Z.lor_comm c), (lor_low 8 (d * 2 ^ 8) c) by (simpl; Z.to_euclidean_division_equations; lia).
  rewrite (Z.lor_comm b), (lor_low 8 _ b) by (simpl; Z.to_euclidean_division_equations; lia).
  rewrite (Z.lor_comm a), (lor_low 8 _ a) by (simpl; Z.to_euclidean_division_equations; lia).
  rewrite (lor_low 24 (ch * 2 ^ 24)) by (simpl; Z.to_euclidean_division_equations; lia).
  rewrite (lor_low 16 _ (ch * 2 ^ 8)) by (simpl; Z.to_euclidean_division_equations; lia).
  rewrite (lor_low 8 _ ch) by (simpl; Z.to_euclidean_division_equations; lia).
  rewrite uwrap_small by (simpl; lia). simpl. lia.
Qed.

Lemma is_dup_page_spec page ch :
  length page = page_n -> Forall (fun x => in_u8 x) page -> in_u8 ch ->
  is_dup_page page ch = true -> page = replicate page_n ch.
Proof.
  intros Hl Hu Hch H. unfold is_dup_page in H.
  pose proof (dup_loop_words _ _ _ _ H) as Hw. change (Z.to_nat (TARGET_PAGE_SIZE / 4)) with 256%nat in Hw.
  pose proof page_n_Z. apply list_eq_same_length with page_n; [by rewrite length_replicate|done|].
  intros j x y Hj Hx Hy. apply lookup_replicate in Hy as [-> _].
  assert (Hj4 : (j = 4 * (j / 4) + j mod 4)%nat) by apply Nat.div_mod_eq.
  assert (Hm : (j mod 4 < 4)%nat) by (apply Nat.mod_upper_bound; lia).
  specialize (Hw (j / 4)%nat ltac:(lia)). unfold page_word in Hw.
  assert (Hd : (4 <= length (drop (4 * (j / 4)) page))%nat)
    by (rewrite length_drop, Hl; lia).
  pose proof (Forall_drop _ (4 * (j / 4)) _ Hu) as Hud.
  assert (Hxd : drop (4 * (j / 4)) page !! (j mod 4)%nat = Some x).
  { rewrite lookup_drop. rewrite <- Hx. f_equal. lia. }
  clear Hj4 Hx Hj. revert Hw Hd Hud Hxd Hm. generalize (drop (4 * (j / 4)) page), (j mod 4)%nat.
  intros [|a [|b [|c [|d rest]]]] k Hw Hd Hud Hxd Hm; simpl in Hd; try lia.
  cbn [take] in Hw. repeat (apply Forall_cons_1 in Hud as [? Hud]).
  apply word_bytes in Hw; try done. destruct Hw as (-> & -> & -> & ->).
  do 4 (destruct k as [|k]; [by injection Hxd as <-|]). lia.
Qed.

(** ** Counting the dirty pages *)

Lemma remaining_range n addr s : 0 <= remaining_loop n addr s <= Z.of_nat n.
Proof.
  revert addr. induction n as [|n IH]; intros addr; [done|]. cbn [remaining_loop].
  specialize (IH (addr + TARGET_PAGE_SIZE)).
  destruct (ctrue _); unfold cbool; lia.
Qed.

Lemma remaining_zero n addr s :
  remaining_loop n addr s = 0 <->
  forall k, 0 <= k < Z.of_nat n -> page_dirty s (addr + k * 1024) = false.
Proof.
  revert addr. induction n as [|n IH]; intros addr; cbn [remaining_loop].
  { split; [|done]. intros _ k Hk. lia. }
  pose proof (remaining_range n (addr + TARGET_PAGE_SIZE) s). fold (page_dirty s addr).
  rewrite <- (Z.add_0_r addr) at 1. change 0 with (0 * 1024) at 1.
  split.
  - intros H0 k Hk. destruct (page_dirty s (addr + 0 * 1024)) eqn:E; unfold cbool in H0; [lia|].
    destruct (decide (k = 0)) as [->|]; [done|].
    replace (addr + k * 1024) with (addr + TARGET_PAGE_SIZE + (k - 1) * 1024)
      by (unfold TARGET_PAGE_SIZE; lia).
    apply IH; lia.
  - intros H0. rewrite (H0 0) by lia. cbn [cbool]. rewrite Z.add_0_l. apply IH. intros k Hk.
    replace (addr + TARGET_PAGE_SIZE + k * 1024) with (addr + (k + 1) * 1024)
      by (unfold TARGET_PAGE_SIZE; lia).
    apply H0. lia.
Qed.

Lemma remaining_ext n addr s s' :
  (forall k, 0 <= k < Z.of_nat n -> page_dirty s' (addr + k * 1024) = page_dirty s (addr + k * 1024)) ->
  remaining_loop n addr s' = remaining_loop n addr s.
Proof.
  revert addr. induction n as [|n IH]; intros addr H; [done|]. cbn [remaining_loop].
  pose proof (H 0 ltac:(lia)) as H0. rewrite Z.mul_0_l, Z.add_0_r in H0.
  unfold page_dirty in H0. rewrite H0. f_equal. apply IH. intros k Hk.
  replace (addr + TARGET_PAGE_SIZE + k * 1024) with (addr + (k + 1) * 1024)
    by (unfold TARGET_PAGE_SIZE; lia).
  apply H. lia.
Qed.

(** Cleaning one dirty page. *)
Lemma remaining_clean n addr s s' j :
  0 <= j < Z.of_nat n -> page_dirty s (addr + j * 1024) = true ->
  (forall k, 0 <= k < Z.of_nat n ->
     page_dirty s' (addr + k * 1024) = page_dirty s (addr + k * 1024) && negb (k =? j)) ->
  remaining_loop n addr s' = remaining_loop n addr s - 1.
Proof.
  revert addr j. induction n as [|n IH]; intros addr j Hj Hd H; [lia|]. cbn [remaining_loop].
  pose proof (H 0 ltac:(lia)) as H0. rewrite Z.mul_0_l, Z.add_0_r in H0.
  fold (page_dirty s addr) (page_dirty s' addr). rewrite H0.
  assert (Hs : forall k, addr + TARGET_PAGE_SIZE + k * 1024 = addr + (k + 1) * 1024)
    by (intros; unfold TARGET_PAGE_SIZE; lia).
  destruct (Z.eqb_spec 0 j) as [<-|Hne].
  - rewrite Z.mul_0_l, Z.add_0_r in Hd. rewrite Hd, (remaining_ext n _ s s'); [cbn; lia|].
    intros k Hk. rewrite Hs, H by lia. destruct (Z.eqb_spec (k + 1) 0); [lia|]. btauto.
  - rewrite andb_true_r, (IH (addr + TARGET_PAGE_SIZE) (j - 1)); [lia|lia| |].
    + rewrite Hs. by replace (j - 1 + 1) with j by lia.
    + intros k Hk. rewrite Hs, H by lia. do 2 f_equal.
      destruct (Z.eqb_spec (k + 1) j), (Z.eqb_spec k (j - 1)); lia || done.
Qed.

(** ** One page *)

(** What is written for the page at [a] of the memory [r]. *)
Definition page_entry (r : gmap Z Z) (a : Z) : list Z :=
  let p := ram_load r a page_n in
  if is_dup_page p (ram_byte r a)
  then be64 (Z.lor a RAM_SAVE_FLAG_COMPRESS) ++ [ram_byte r a]
  else be64 (Z.lor a RAM_SAVE_FLAG_PAGE) ++ p.

Lemma page_entry_writing r a f data :
  in_u8 (ram_byte r a) -> writing f data ->
  exists f',
    (if is_dup_page (ram_load r a page_n) (ram_byte r a) then
       let! f := qemu_put_be64 f (Z.lor a RAM_SAVE_FLAG_COMPRESS) in qemu_put_byte f (ram_byte r a)
     else
       let! f := qemu_put_be64 f (Z.lor a RAM_SAVE_FLAG_PAGE) in
       qemu_put_buffer f (ram_load r a page_n)) = Ok f' /\
    writing f' (data ++ page_entry r a).
Proof.
  intros Hu Hw. unfold page_entry. destruct (is_dup_page _ _).
  - destruct (put_be64_writing f data (Z.lor a RAM_SAVE_FLAG_COMPRESS) Hw) as (f1 & -> & Hw1). cbn [rbind].
    destruct (put_byte_writing f1 _ (ram_byte r a) Hw1) as (f2 & -> & Hw2).
    exists f2. rewrite uwrap_small in Hw2 by (simpl; lia). by rewrite app_assoc.
  - destruct (put_be64_writing f data (Z.lor a RAM_SAVE_FLAG_PAGE) Hw) as (f1 & -> & Hw1). cbn [rbind].
    destruct (put_buffer_writing f1 _ (ram_load r a page_n) Hw1) as (f2 & -> & Hw2).
    exists f2. by rewrite app_assoc.
Qed.

(** The outcome of a search for a dirty page. *)
Definition block_outcome (N : Z) (data : list Z) (f : QEMUFile) (s : RamState)
  (r : Z) (f' : QEMUFile) (s' : RamState) : Prop :=
  ram_wf N s' /\ ram (mem s') = ram (mem s) /\
  ((r = 0 /\ f' = f /\ ram_dirty s' = ram_dirty s /\
    forall a, is_page N a -> page_dirty s a = false) \/
   (r = 1 /\ exists a, is_page N a /\ page_dirty s a = true /\
      (forall x, x mod 1024 = 0 -> page_dirty s' x = page_dirty s x && negb (x =? a)) /\
      writing f' (data ++ page_entry (ram (mem s)) a))).

Lemma save_block_loop_ok N fuel saved addr f s data :
  ram_wf N s -> is_page N saved -> writing f data ->
  0 <= addr -> N - addr = Z.of_nat fuel * 1024 -> current_addr s = (saved + addr) mod N ->
  (forall d, 0 <= d < addr -> d mod 1024 = 0 -> page_dirty s ((saved + d) mod N) = false) ->
  exists r f' s', save_block_loop fuel saved addr f s = Ok (r, f', s') /\
    block_outcome N data f s r f' s'.
Proof.
  revert addr s. induction fuel as [|fuel IH]; intros addr s Hwf Hsv Hw Ha Hf Hc Hclean;
    pose proof Hwf as (HN & HNr & HNm & Hb & Hcp & Hu); cbn [save_block_loop]; rewrite HN.
  { destruct (Z.ltb_spec addr N); [lia|]. cbn [negb]. exists 0, f, s. split; [done|].
    split; [done|]. split; [done|]. left. split_and!; try done. intros a [Har Ham].
    destruct Hsv as [Hs1 Hs2].
    specialize (Hclean ((a - saved) mod N)). rewrite Zplus_mod_idemp_r in Hclean.
    replace (saved + (a - saved)) with a in Hclean by lia. rewrite (Z.mod_small a N) in Hclean by lia.
    apply Hclean; [replace addr with N by lia; apply Z.mod_pos_bound; lia|]. rewrite page_mod by done.
    Z.to_euclidean_division_equations; lia. }
  destruct (Z.ltb_spec addr N); [|lia]. cbn [negb].
  fold (page_dirty s (current_addr s)). destruct (page_dirty s (current_addr s)) eqn:Hd.
  - destruct (reset_page N s _ Hwf Hcp) as (s1 & -> & Hwf1 & Hr1 & Hc1 & Hd1). cbn [rbind].
    destruct (page_ptr_ok N s1 _ Hwf1 Hcp) as (m & -> & Hl). cbn [rbind].
    pose proof Hl as (_ & _ & Hrm). rewrite Hrm, Hr1.
    destruct (page_entry_writing (ram (mem s)) (current_addr s) f data (Hu _) Hw) as (f' & Ef & Hw').
    rewrite Ef. cbn [rbind]. exists 1, f', (set_mem s1 m). split; [done|].
    split; [apply (ram_wf_like N s1 _ (ram (mem s1))); try done; [by rewrite <- Hc1 in Hcp|apply Hwf1]|].
    split; [cbn; congruence|]. right. split; [done|]. exists (current_addr s).
    split_and!; try done. intros x Hx. destruct Hcp as [_ Hcm].
    apply (page_dirty_insert s _ _ _ Hd1 Hcm Hx).
  - assert (Hpg : is_page N ((saved + (addr + 1024)) mod N)).
    { destruct Hsv. split; [apply Z.mod_pos_bound; lia|].
      rewrite page_mod by done. Z.to_euclidean_division_equations; lia. }
    destruct (IH (addr + 1024) (set_current_addr s ((saved + (addr + 1024)) mod N)))
      as (r & f' & s' & E & Ho); try done; try lia.
    + intros d Hd' Hdm. change (page_dirty s ((saved + d) mod N) = false).
      destruct (decide (d < addr)); [apply Hclean; lia|].
      assert (d = addr) as -> by (Z.to_euclidean_division_equations; lia). congruence.
    + exists r, f', s'. split; [exact E|exact Ho].
Qed.

Lemma ram_pages_spec N s : ram_wf N s -> N = Z.of_nat (ram_pages s) * 1024.
Proof.
  intros (HN & HNr & HNm & _). unfold ram_pages, TARGET_PAGE_SIZE. rewrite HN.
  Z.to_euclidean_division_equations. lia.
Qed.

Lemma ram_save_block_ok N f s data :
  ram_wf N s -> writing f data ->
  exists r f' s', ram_save_block f s = Ok (r, f', s') /\ block_outcome N data f s r f' s'.
Proof.
  intros Hwf Hw. pose proof (ram_pages_spec N s Hwf). pose proof Hwf as (HN & HNr & HNm & Hb & Hcp & Hu).
  apply save_block_loop_ok; try done; try lia.
  rewrite Z.add_0_r, Z.mod_small; [done|apply Hcp].
Qed.

(** ** Loading a page *)

Lemma ram_store_byte buf r a x :
  ram_byte (ram_store r a buf) x =
  if (a <=? x) && (x <? a + Z.of_nat (length buf)) then default 0 (buf !! Z.to_nat (x - a))
  else ram_byte r x.
Proof.
  revert r a. induction buf as [|y buf IH]; intros r a; cbn [ram_store length].
  { destruct (Z.leb_spec a x), (Z.ltb_spec x (a + Z.of_nat 0)); try done; lia. }
  rewrite IH. destruct (Z.leb_spec a x), (Z.leb_spec (a + 1) x); try lia; cbn [andb].
  - destruct (Z.ltb_spec x (a + 1 + Z.of_nat (length buf))),
      (Z.ltb_spec x (a + Z.of_nat (S (length buf)))); try lia.
    + replace (Z.to_nat (x - a)) with (S (Z.to_nat (x - (a + 1)))) by lia. done.
    + unfold ram_byte. by rewrite lookup_insert_ne by lia.
  - assert (x = a) as -> by lia. destruct (Z.ltb_spec a (a + Z.of_nat (S (length buf)))); [|lia].
    rewrite Z.sub_diag. unfold ram_byte. by rewrite lookup_insert, decide_True.
  - unfold ram_byte. by rewrite lookup_insert_ne by lia.
Qed.

Lemma ram_load_lookup r a n k : (k < n)%nat -> ram_load r a n !! k = Some (ram_byte r (a + Z.of_nat k)).
Proof.
  revert a k. induction n as [|n IH]; intros a k Hk; [lia|]. cbn [ram_load].
  destruct k as [|k]; cbn; [by rewrite Z.add_0_r|]. rewrite IH by lia. do 2 f_equal. lia.
Qed.

(** Storing a page of the memory [r] at its place. *)
Lemma store_page_ok N t r a :
  ram_wf N t -> is_page N a -> (forall x, in_u8 (ram_byte r x)) ->
  exists t', store_page a (ram_load r a page_n) t = Ok t' /\ ram_wf N t' /\
    forall x, ram_byte (ram (mem t')) x =
      if (a <=? x) && (x <? a + 1024) then ram_byte r x else ram_byte (ram (mem t)) x.
Proof.
  intros Hwf Ha Hr. unfold store_page, TARGET_PAGE_SIZE.
  destruct (page_ptr_ok N t a Hwf Ha) as (m & -> & Hl). cbn [rbind].
  pose proof Hwf as (HN & HNr & HNm & Hb & Hcp & Hu).
  replace (a + 1024 - 1) with (a + 1023) by lia.
  rewrite (same_block_like _ _ _ _ _ Hl), (Hb a Ha). destruct Hl as (Hl1 & Hl2 & Hl3).
  assert (Hbyte : forall x, ram_byte (ram_store (ram m) a (ram_load r a page_n)) x =
    if (a <=? x) && (x <? a + 1024) then ram_byte r x else ram_byte (ram (mem t)) x).
  { intros x. rewrite ram_store_byte, length_ram_load, Hl3, page_n_Z.
    destruct (Z.leb_spec a x), (Z.ltb_spec x (a + 1024)); try done; cbn [andb].
    pose proof page_n_Z. rewrite ram_load_lookup by lia. cbn [from_option id]. f_equal. lia. }
  eexists. split; [reflexivity|]. split; [|exact Hbyte].
  apply (ram_wf_like N t _ (ram_store (ram m) a (ram_load r a page_n)));
    [exact Hwf|split; [exact Hl1|split; [exact Hl2|reflexivity]]|reflexivity|exact Hcp|].
  intros x. rewrite Hbyte. case_match; [apply Hr|apply Hu].
Qed.

Lemma entry_flags a fl :
  0 <= a -> a mod 1024 = 0 -> 0 <= fl < 1024 ->
  page_offset (Z.lor a fl) = fl /\ page_of (Z.lor a fl) = a.
Proof.
  intros Ha Hm Hf. rewrite (lor_low 10 a fl) by done. rewrite page_offset_mod, page_of_mod.
  Z.to_euclidean_division_equations. lia.
Qed.

Lemma in_u64_lor a fl : 0 <= a < 4294967296 -> a mod 1024 = 0 -> 0 <= fl < 1024 -> in_u64 (Z.lor a fl).
Proof. intros Ha Hm Hf. rewrite (lor_low 10 a fl) by done. lia. Qed.

(** The tests on the flags of a known entry. *)
Ltac flags_simpl :=
  repeat match goal with |- context [ctrue (Z.land ?a ?b)] =>
    let v := eval vm_compute in (ctrue (Z.land a b)) in change (ctrue (Z.land a b)) with v end;
  cbn [andb negb rbind Z.ltb Z.compare].

Section Load.
Context {ZS : Type} (inflateInit : option ZS).
Context (inflate : ZS -> list Z -> Z -> Z * list Z * list Z * ZS) (Z_OK Z_STREAM_END : Z) (zfuel : nat).
Abbreviation load_loop := (ram_load_loop inflateInit inflate Z_OK Z_STREAM_END zfuel).

(** Reading the entry of a page puts the page there. *)
Lemma load_entry N r a t g rest :
  ram_wf N t -> is_page N a -> (forall x, in_u8 (ram_byte r x)) ->
  reading g (page_entry r a ++ rest) ->
  exists g' t', reading g' rest /\ ram_wf N t' /\
    (forall x, ram_byte (ram (mem t')) x =
       if (a <=? x) && (x <? a + 1024) then ram_byte r x else ram_byte (ram (mem t)) x) /\
    forall fuel, load_loop (S fuel) g t = load_loop fuel g' t'.
Proof.
  intros Hwf Ha Hr Hrd. pose proof Hwf as (_ & HNr & _). pose proof Ha as [Har Ham].
  destruct (store_page_ok N t r a Hwf Ha Hr) as (t' & Est & Hwf' & Hb).
  cbn [ram_load_loop]. unfold page_entry in Hrd.
  destruct (is_dup_page _ _) eqn:Hdup; rewrite <- app_assoc in Hrd.
  - apply is_dup_page_spec in Hdup; [|by rewrite length_ram_load| |apply Hr].
    2: { apply Forall_lookup. intros i x Hx. assert (i < page_n)%nat.
         { apply lookup_lt_Some in Hx. by rewrite length_ram_load in Hx. }
         rewrite ram_load_lookup in Hx by done. injection Hx as <-. apply Hr. }
    destruct (get_be64_reading g _ _ (in_u64_lor a RAM_SAVE_FLAG_COMPRESS ltac:(lia) Ham ltac:(done)) Hrd)
      as (g1 & -> & Hr1). cbn [rbind].
    destruct (entry_flags a RAM_SAVE_FLAG_COMPRESS ltac:(lia) Ham ltac:(done)) as [-> ->].
    flags_simpl.
    destruct (get_byte_reading g1 _ _ Hr1) as (g2 & -> & Hr2). cbn [rbind].
    rewrite <- Hdup, Est. cbn [rbind].
    exists g2, t'. split_and!; auto.
  - destruct (get_be64_reading g _ _ (in_u64_lor a RAM_SAVE_FLAG_PAGE ltac:(lia) Ham ltac:(done)) Hrd)
      as (g1 & -> & Hr1). cbn [rbind].
    destruct (entry_flags a RAM_SAVE_FLAG_PAGE ltac:(lia) Ham ltac:(done)) as [-> ->].
    destruct (get_buffer_reading g1 _ _ Hr1) as (g2 & E2 & Hr2).
    rewrite length_ram_load, page_n_Z in E2. change 1024 with TARGET_PAGE_SIZE in E2.
    flags_simpl.
    rewrite E2. cbn [rbind]. rewrite Est. cbn [rbind].
    exists g2, t'. split_and!; auto.
Qed.

(** ** A run of pages

    [t] has the pages of [s] that are not marked any more. *)
Definition agrees (N : Z) (s t : RamState) : Prop :=
  forall x, 0 <= x < N -> page_dirty s (page_of x) = false ->
    ram_byte (ram (mem t)) x = ram_byte (ram (mem s)) x.

Definition all_clean (N : Z) (s : RamState) : Prop :=
  forall a, is_page N a -> page_dirty s a = false.

(** The bytes [b], written by a sender that came to [s'], bring a receiver
    that satisfies [P] to agree with [s']. *)
Definition ram_sends (N : Z) (P : RamState -> Prop) (s' : RamState) (b : list Z) : Prop :=
  forall t g rest, ram_wf N t -> P t -> reading g (b ++ rest) ->
  exists n g' t', (n <= length b)%nat /\ reading g' rest /\ ram_wf N t' /\ agrees N s' t' /\
    forall fuel, load_loop (n + fuel) g t = load_loop fuel g' t'.

Lemma sends_nil N s s' :
  ram (mem s') = ram (mem s) -> ram_dirty s' = ram_dirty s -> ram_sends N (agrees N s) s' [].
Proof.
  intros Hr Hd t g rest Hwf Ha H. exists 0%nat, g, t. split_and!; try done.
  intros x Hx Hp. rewrite Hr. apply Ha; [done|]. revert Hp.
  unfold page_dirty, cpu_physical_memory_get_dirty. by rewrite Hd.
Qed.

Lemma sends_app N P s2 s3 b1 b2 :
  ram_sends N P s2 b1 -> ram_sends N (agrees N s2) s3 b2 -> ram_sends N P s3 (b1 ++ b2).
Proof.
  intros H1 H2 t g rest Hwf Ha Hr. rewrite <- app_assoc in Hr.
  destruct (H1 t g _ Hwf Ha Hr) as (n1 & g1 & t1 & Hn1 & Hr1 & Hwf1 & Ha1 & E1).
  destruct (H2 t1 g1 _ Hwf1 Ha1 Hr1) as (n2 & g2 & t2 & Hn2 & Hr2 & Hwf2 & Ha2 & E2).
  exists (n1 + n2)%nat, g2, t2. split; [rewrite length_app; lia|]. split_and!; try done.
  intros fuel. by rewrite <- Nat.add_assoc, E1, E2.
Qed.

Lemma be64_length v : length (be64 v) = 8%nat.
Proof. done. Qed.

Lemma sends_page N s s' a :
  ram_wf N s -> is_page N a -> ram (mem s') = ram (mem s) ->
  (forall x, x mod 1024 = 0 -> page_dirty s' x = page_dirty s x && negb (x =? a)) ->
  ram_sends N (agrees N s) s' (page_entry (ram (mem s)) a).
Proof.
  intros Hwf Ha Hr Hd t g rest Hwt Hag Hrd. pose proof Hwf as (_ & _ & _ & _ & _ & Hu).
  destruct (load_entry N (ram (mem s)) a t g rest Hwt Ha Hu Hrd) as (g' & t' & Hr' & Hwt' & Hb & E).
  exists 1%nat, g', t'. split.
  { unfold page_entry. case_match; rewrite length_app, be64_length; lia. }
  split_and!; try done. intros x Hx Hp. rewrite Hb, Hr.
  rewrite Hd in Hp by (rewrite page_of_mod; Z.to_euclidean_division_equations; lia).
  destruct Ha as [Har Ham].
  destruct ((a <=? x) && (x <? a + 1024)) eqn:Hin; [done|]. apply Hag; [done|].
  destruct (Z.eqb_spec (page_of x) a) as [He|]; [|by rewrite andb_true_r in Hp].
  rewrite page_of_mod in He. apply andb_false_iff in Hin.
  rewrite Z.leb_gt, Z.ltb_ge in Hin. Z.to_euclidean_division_equations. lia.
Qed.

(** Sending one page leaves one page less. *)
Lemma remaining_page N s s' a :
  ram_wf N s -> ram_wf N s' -> is_page N a -> page_dirty s a = true ->
  (forall x, x mod 1024 = 0 -> page_dirty s' x = page_dirty s x && negb (x =? a)) ->
  ram_save_remaining s' = ram_save_remaining s - 1.
Proof.
  intros Hwf Hwf' [Har Ham] Hd H. pose proof (ram_pages_spec N s Hwf) as Hn.
  pose proof (ram_pages_spec N s' Hwf') as Hn'. unfold ram_save_remaining.
  replace (ram_pages s') with (ram_pages s) by lia.
  apply (remaining_clean _ 0 s s' (a / 1024)); rewrite ?Z.add_0_l.
  - Z.to_euclidean_division_equations. lia.
  - by replace (a / 1024 * 1024) with a by (Z.to_euclidean_division_equations; lia).
  - intros k Hk. rewrite Z.add_0_l, H by (apply Z.mod_mul; done). do 2 f_equal.
    destruct (Z.eqb_spec (k * 1024) a), (Z.eqb_spec k (a / 1024)); try done;
      Z.to_euclidean_division_equations; lia.
Qed.

(** The result of sending until nothing is marked. *)
Definition sent_all (N : Z) (data : list Z) (s : RamState) (f' : QEMUFile) (s' : RamState) : Prop :=
  exists b, writing f' (data ++ b) /\ ram_wf N s' /\ ram (mem s') = ram (mem s) /\
    all_clean N s' /\ ram_sends N (agrees N s) s' b.

Lemma send_loop_ok N fuel f s data :
  ram_wf N s -> writing f data -> ram_save_remaining s < Z.of_nat fuel ->
  exists f' s', send_loop fuel f s = Ok (f', s') /\ sent_all N data s f' s'.
Proof.
  revert f s data. induction fuel as [|fuel IH]; intros f s data Hwf Hw Hf.
  { pose proof (remaining_range (ram_pages s) 0 s). unfold ram_save_remaining in Hf. lia. }
  destruct (ram_save_block_ok N f s data Hwf Hw) as (r & f1 & s1 & E & Hwf1 & Hr1 & Ho).
  cbn [send_loop]. rewrite E. cbn [rbind].
  destruct Ho as [(-> & -> & Hd & Hcl)|(-> & a & Ha & Hda & Hd & Hw1)].
  - eexists f, _. split; [reflexivity|]. exists []. rewrite app_nil_r. split_and!; try done.
    + intros a Ha. rewrite <- (Hcl a Ha). unfold page_dirty, cpu_physical_memory_get_dirty. cbn. by rewrite Hd.
    + by apply sends_nil.
  - cbn [Z.eqb]. set (s2 := add_transferred s1 (1 * TARGET_PAGE_SIZE)).
    assert (Hwf2 : ram_wf N s2) by exact Hwf1.
    destruct (IH f1 s2 _ Hwf2 Hw1) as (f' & s' & E' & b & Hw' & Hwf' & Hr' & Hcl' & Hs').
    { rewrite (remaining_page N s s2 a); try done; lia. }
    exists f', s'. split; [done|]. exists (page_entry (ram (mem s)) a ++ b).
    rewrite app_assoc. split_and!; try done; [by rewrite Hr'|].
    apply (sends_app N _ s2); [|done]. by apply sends_page.
Qed.

(** With nothing marked, the last loop sends nothing. *)
Lemma flush_loop_clean N fuel f s data :
  ram_wf N s -> writing f data -> all_clean N s ->
  exists s', flush_loop (S fuel) f s = Ok (f, s') /\ ram_wf N s' /\
    ram (mem s') = ram (mem s) /\ ram_dirty s' = ram_dirty s.
Proof.
  intros Hwf Hw Hcl. destruct (ram_save_block_ok N f s data Hwf Hw) as (r & f1 & s1 & E & Hwf1 & Hr1 & Ho).
  cbn [flush_loop]. rewrite E. cbn [rbind].
  destruct Ho as [(-> & -> & Hd & _)|(-> & a & Ha & Hda & _)]; [|rewrite Hcl in Hda; done].
  exists s1. done.
Qed.

Lemma mark_loop_ok N n addr s :
  ram_wf N s -> 0 <= addr -> addr mod 1024 = 0 ->
  let s' := mark_loop n addr s in
  ram_wf N s' /\ ram (mem s') = ram (mem s) /\ ram_pages s' = ram_pages s.
Proof.
  revert addr s. induction n as [|n IH]; intros addr s Hwf Ha Hm; cbn [mark_loop]; [done|].
  destruct (IH (addr + TARGET_PAGE_SIZE)
    (if negb (ctrue (cpu_physical_memory_get_dirty addr MIGRATION_DIRTY_FLAG s))
     then cpu_physical_memory_set_dirty addr s else s)) as (H1 & H2 & H3).
  - case_match; done.
  - unfold TARGET_PAGE_SIZE. lia.
  - unfold TARGET_PAGE_SIZE. Z.to_euclidean_division_equations. lia.
  - split_and!; [done| |]; rewrite ?H2, ?H3; case_match; done.
Qed.

Lemma mark_page_dirty addr s x :
  addr mod 1024 = 0 -> x mod 1024 = 0 ->
  let s' := if negb (page_dirty s addr) then cpu_physical_memory_set_dirty addr s else s in
  page_dirty s' x = page_dirty s x || (x =? addr).
Proof.
  intros Ha Hx s'. unfold s'. clear s'. destruct (page_dirty s addr) eqn:E; cbn [negb].
  { destruct (Z.eqb_spec x addr) as [->|]; [by rewrite E|by rewrite orb_false_r]. }
  unfold page_dirty, cpu_physical_memory_get_dirty, cpu_physical_memory_set_dirty. cbn [ram_dirty set_ram_dirty].
  rewrite !page_index_div. destruct (Z.eqb_spec x addr) as [->|Hne].
  - rewrite lookup_insert, decide_True, orb_true_r by done. done.
  - rewrite lookup_insert_ne, orb_false_r; [done|].
    intros He. apply Hne. Z.to_euclidean_division_equations. lia.
Qed.

Lemma mark_loop_dirty n addr s x :
  addr mod 1024 = 0 -> x mod 1024 = 0 ->
  page_dirty s x = true \/ addr <= x < addr + Z.of_nat n * 1024 ->
  page_dirty (mark_loop n addr s) x = true.
Proof.
  revert addr s. induction n as [|n IH]; intros addr s Ha Hx H; cbn [mark_loop].
  { destruct H; [done|lia]. }
  apply IH; [unfold TARGET_PAGE_SIZE; Z.to_euclidean_division_equations; lia|done|].
  fold (page_dirty s addr). rewrite mark_page_dirty by done. unfold TARGET_PAGE_SIZE.
  destruct H as [->|H]; [by left|]. destruct (Z.eqb_spec x addr) as [->|]; [left; apply orb_true_r|].
  right. Z.to_euclidean_division_equations. lia.
Qed.

Lemma mark_all N s t :
  ram_wf N s ->
  let s' := set_tracking (mark_loop (ram_pages s) 0 s) true in
  ram_wf N s' /\ ram (mem s') = ram (mem s) /\ ram_pages s' = ram_pages s /\ agrees N s' t.
Proof.
  intros Hwf. destruct (mark_loop_ok N (ram_pages s) 0 s Hwf) as (H1 & H2 & H3); [done|done|].
  pose proof (ram_pages_spec N s Hwf) as Hn. cbn zeta. split_and!; try done.
  intros x Hx Hp. exfalso. revert Hp.
  change (page_dirty (mark_loop (ram_pages s) 0 s) (page_of x) = false -> False).
  rewrite mark_loop_dirty; [done|done| |]; rewrite page_of_mod;
    [|right]; Z.to_euclidean_division_equations; lia.
Qed.

(** ** A round of the live section *)

(** The entries that carry no page: the size of the memory, the end mark. *)
Lemma load_size N t g rest :
  ram_wf N t -> reading g (be64 (Z.lor N RAM_SAVE_FLAG_MEM_SIZE) ++ rest) ->
  exists g', reading g' rest /\ forall fuel, load_loop (S fuel) g t = load_loop fuel g' t.
Proof.
  intros (HN & HNr & HNm & _) H. cbn [ram_load_loop].
  destruct (get_be64_reading g _ _ (in_u64_lor N RAM_SAVE_FLAG_MEM_SIZE ltac:(lia) HNm ltac:(done)) H)
    as (g1 & -> & Hr1). cbn [rbind].
  destruct (entry_flags N RAM_SAVE_FLAG_MEM_SIZE ltac:(lia) HNm ltac:(done)) as [-> ->].
  rewrite HN, Z.eqb_refl. flags_simpl. by exists g1.
Qed.

Lemma load_eos t g rest :
  reading g (be64 RAM_SAVE_FLAG_EOS ++ rest) ->
  exists g', reading g' rest /\ forall fuel, load_loop (S fuel) g t = Ok (0, g', t).
Proof.
  intros H. cbn [ram_load_loop].
  destruct (get_be64_reading g RAM_SAVE_FLAG_EOS _ ltac:(unfold RAM_SAVE_FLAG_EOS; lia) H) as (g1 & -> & Hr1).
  cbn [rbind]. change (page_offset RAM_SAVE_FLAG_EOS) with RAM_SAVE_FLAG_EOS.
  flags_simpl. by exists g1.
Qed.

Lemma reading_length g b :
  reading g b -> (length b <= Z.to_nat (buf_size g - buf_index g) + length (outfile g))%nat.
Proof.
  intros (_ & _ & _ & _ & _ & _ & _ & ->). rewrite length_app, length_take, !length_drop. lia.
Qed.

(** Sending, then the end mark: what the load handler makes of it. *)
Lemma sent_then_eos N P s' b :
  ram_sends N P s' b ->
  forall t g rest, ram_wf N t -> P t -> reading g ((b ++ be64 RAM_SAVE_FLAG_EOS) ++ rest) ->
  exists g' t',
    vl_ram_load inflateInit inflate Z_OK Z_STREAM_END zfuel g 3 t = Ok (0, g', t') /\
    reading g' rest /\ ram_wf N t' /\ agrees N s' t'.
Proof.
  intros Hs t g rest Hwf Ha Hr. pose proof (reading_length g _ Hr) as Hlen.
  rewrite <- app_assoc in Hr. rewrite !length_app, be64_length in Hlen.
  destruct (Hs t g _ Hwf Ha Hr) as (n & g1 & t1 & Hn & Hr1 & Hwf1 & Ha1 & E1).
  destruct (load_eos t1 g1 rest Hr1) as (g2 & Hr2 & E2).
  exists g2, t1. split_and!; try done. unfold vl_ram_load. cbn [Z.eqb Pos.eqb negb].
  match goal with |- load_loop ?k g t = _ => replace k with (n + S (k - n - 1))%nat by lia end.
  by rewrite E1, E2.
Qed.


Context (short_downtime : Z -> bool) (Hshort : short_downtime 0 = true).

(** What the receiver must be for a round of the given stage. *)
Definition stage_pre (N stage : Z) (s t : RamState) : Prop := stage = 1 \/ agrees N s t.

(** The head of a round. *)
Lemma stage_head N stage f s data :
  ram_wf N s -> writing f data ->
  exists f1 s1 b,
    (if stage =? 1 then
       let s := set_tracking (mark_loop (ram_pages s) 0 s) true in
       let! f := qemu_put_be64 f (Z.lor (last_ram_offset s) RAM_SAVE_FLAG_MEM_SIZE) in Ok (f, s)
     else Ok (f, s)) = Ok (f1, s1) /\ writing f1 (data ++ b) /\
    ram_wf N s1 /\ ram (mem s1) = ram (mem s) /\ ram_pages s1 = ram_pages s /\
    ram_sends N (stage_pre N stage s) s1 b.
Proof.
  intros Hwf Hw. destruct (Z.eqb_spec stage 1) as [->|Hne].
  - destruct (mark_all N s s Hwf) as (H1 & H2 & H3 & _). cbn zeta.
    set (s1 := set_tracking _ true) in *. rewrite (proj1 H1).
    destruct (put_be64_writing f data (Z.lor N RAM_SAVE_FLAG_MEM_SIZE) Hw) as (f1 & -> & Hw1).
    cbn [rbind]. exists f1, s1, (be64 (Z.lor N RAM_SAVE_FLAG_MEM_SIZE)). split_and!; try done.
    intros t g rest Hwt _ Hr. destruct (load_size N t g rest Hwt Hr) as (g' & Hr' & E).
    exists 1%nat, g', t. split; [rewrite be64_length; lia|]. split_and!; try done.
    by apply (mark_all N s t).
  - exists f, s, []. rewrite app_nil_r. split_and!; try done.
    intros t g rest Hwt [->|Ha]; [done|].
    by apply (sends_nil N s s eq_refl eq_refl).
Qed.

Lemma all_clean_remaining N s : ram_wf N s -> all_clean N s -> ram_save_remaining s = 0.
Proof.
  intros Hwf Hcl. pose proof (ram_pages_spec N s Hwf) as Hn. apply remaining_zero.
  intros k Hk. apply Hcl. split; [lia|]. by apply Z.mod_mul.
Qed.

Lemma ram_save_live_ok N stage f s data :
  ram_wf N s -> writing f data ->
  exists r f' s' b,
    ram_save_live short_downtime f stage s = Ok (r, f', s') /\ writing f' (data ++ b) /\
    ram_wf N s' /\ ram (mem s') = ram (mem s) /\ all_clean N s' /\ (stage = 2 -> r = 1) /\
    forall t g rest, ram_wf N t -> stage_pre N stage s t -> reading g (b ++ rest) ->
    exists g' t',
      vl_ram_load inflateInit inflate Z_OK Z_STREAM_END zfuel g 3 t = Ok (0, g', t') /\
      reading g' rest /\ ram_wf N t' /\ agrees N s' t'.
Proof.
  intros Hwf Hw. unfold ram_save_live.
  destruct (stage_head N stage f s data Hwf Hw) as (f1 & s1 & b1 & E1 & Hw1 & Hwf1 & Hr1 & _ & Hs1).
  cbn zeta in E1 |- *. rewrite E1. cbn [rbind].
  destruct (send_loop_ok N (S (ram_pages s1)) f1 s1 _ Hwf1 Hw1)
    as (f2 & s2 & -> & b2 & Hw2 & Hwf2 & Hr2 & Hcl2 & Hs2).
  { pose proof (remaining_range (ram_pages s1) 0 s1). unfold ram_save_remaining. lia. }
  cbn [rbind]. pose proof (sends_app _ _ _ _ _ _ Hs1 Hs2) as Hs.
  assert (exists s3, (if stage =? 3 then
      let! (f, s) := flush_loop (S (ram_pages s2)) f2 s2 in Ok (f, set_tracking s false)
    else Ok (f2, s2)) = Ok (f2, s3) /\ ram_wf N s3 /\ ram (mem s3) = ram (mem s2) /\
    ram_dirty s3 = ram_dirty s2) as (s3 & -> & Hwf3 & Hr3 & Hd3).
  { destruct (stage =? 3); [|by exists s2].
    destruct (flush_loop_clean N (ram_pages s2) f2 s2 _ Hwf2 Hw2 Hcl2) as (s3 & -> & Hwf3 & Hr3 & Hd3).
    by exists (set_tracking s3 false). }
  cbn [rbind].
  assert (Hcl3 : all_clean N s3).
  { intros a Ha. rewrite <- (Hcl2 a Ha). unfold page_dirty, cpu_physical_memory_get_dirty. by rewrite Hd3. }
  destruct (put_be64_writing f2 _ RAM_SAVE_FLAG_EOS Hw2) as (f3 & -> & Hw3). cbn [rbind].
  rewrite (all_clean_remaining N s3 Hwf3 Hcl3), Hshort, andb_true_r.
  eexists _, f3, s3, ((b1 ++ b2) ++ be64 RAM_SAVE_FLAG_EOS). split; [reflexivity|].
  split; [by rewrite <- !app_assoc in *|]. split; [done|]. split; [congruence|]. split; [done|].
  split; [by intros ->|].
  apply (sent_then_eos N (stage_pre N stage s) s3 (b1 ++ b2)).
  rewrite <- (app_nil_r (b1 ++ b2)). apply (sends_app _ _ s2); [done|]. by apply sends_nil.
Qed.

(** Nothing marked and agreement: the memories are the same. *)
Lemma agrees_clean N s t :
  0 < N -> N mod 1024 = 0 -> all_clean N s -> agrees N s t ->
  ram_load (ram (mem t)) 0 (Z.to_nat N) = ram_load (ram (mem s)) 0 (Z.to_nat N).
Proof.
  intros HN HNm Hcl Ha. apply list_eq_same_length with (Z.to_nat N);
    [by rewrite length_ram_load|by rewrite length_ram_load|].
  intros i x y Hi Hx Hy. rewrite ram_load_lookup in Hx, Hy by done.
  injection Hx as <-. injection Hy as <-. apply Ha; [lia|]. apply Hcl.
  split; rewrite page_of_mod; Z.to_euclidean_division_equations; lia.
Qed.
End Load.

(** ** A file that ends early *)

Definition at_eof (f : QEMUFile) : Prop :=
  has_put f = false /\ is_write f = false /\ buf_size f <= buf_index f /\
  drop (Z.to_nat (buf_offset f)) (outfile f) = [].

Lemma get_byte_at_eof f : at_eof f -> exists f', qemu_get_byte f = Ok (0, f') /\ at_eof f'.
Proof.
  intros (Hp & Hw & Hb & Ho). unfold qemu_get_byte, qemu_fill_buffer, file_get_buffer.
  rewrite Hw, Hp, Ho, take_nil, (proj2 (Z.leb_le _ _)) by done.
  change (0 <? Z.of_nat (length (@nil Z))) with false. cbn [rbind].
  change (buf_size (qemu_file_set_error f)) with (buf_size f).
  change (buf_index (qemu_file_set_error f)) with (buf_index f).
  rewrite (proj2 (Z.leb_le _ _)) by done. eexists. split; [reflexivity|]. by split_and!.
Qed.

Lemma get_be64_at_eof f : at_eof f -> exists f', qemu_get_be64 f = Ok (0, f') /\ at_eof f'.
Proof.
  intros H. unfold qemu_get_be64, qemu_get_be32.
  do 8 (match goal with H : at_eof ?x |- context [qemu_get_byte ?x] =>
    let E := fresh in destruct (get_byte_at_eof x H) as (? & E & ?); rewrite E; clear E H; cbn [rbind] end).
  eexists. split; [reflexivity|done].
Qed.

Section Truncated.
Context {ZS : Type} (inflateInit : option ZS).
Context (inflate : ZS -> list Z -> Z -> Z * list Z * list Z * ZS) (Z_OK Z_STREAM_END : Z) (zfuel : nat).

(** The loader of the memory does not stop at the end of the file. Once
    the bytes of a snapshot run out before an end mark, [ram_load] reads
    address 0 with no flags for ever: no number of rounds is enough. *)
Theorem ram_load_truncated (fuel : nat) (f : QEMUFile) (s : RamState) :
  at_eof f ->
  ram_load_loop inflateInit inflate Z_OK Z_STREAM_END zfuel fuel f s = Undef.
Proof.
  revert f. induction fuel as [|fuel IH]; intros f Hf; [done|]. cbn [ram_load_loop].
  destruct (get_be64_at_eof f Hf) as (f' & -> & Hf'). cbn [rbind].
  change (page_offset 0) with 0. flags_simpl. by apply IH.
Qed.
End Truncated.

(** ** A small memory: two pages in one block *)

Definition two_page_mem (r : gmap Z Z) : PhysMem := mkMem ∅ [mkBlock 0 2048] r.
Definition two_page_ram (r : gmap Z Z) (cur : Z) : RamState :=
  mkRam (two_page_mem r) ∅ 2048 cur 0 false.
Definition demo_ram : RamState := two_page_ram (<[5 := 7]> ∅) 1024.

Lemma two_page_wf r cur :
  (forall a, in_u8 (ram_byte r a)) -> is_page 2048 cur -> ram_wf 2048 (two_page_ram r cur).
Proof.
  intros Hr Hc. unfold ram_wf. split; [done|]. split; [lia|]. split; [done|]. split; [|split; done].
  intros a [Ha Hm]. unfold same_block, in_block. cbn.
  rewrite !(proj2 (Z.leb_le _ _)), !(proj2 (Z.ltb_lt _ _)) by (Z.to_euclidean_division_equations; lia). done.
Qed.

Lemma demo_ram_wf : ram_wf 2048 demo_ram.
Proof.
  apply two_page_wf; [|done]. intros a. unfold ram_byte.
  destruct (decide (a = 5)) as [->|]; [done|]. by rewrite lookup_insert_ne.
Qed.

Lemma ram_load_truncated_witness :
  at_eof (qemu_fopen_rb []) /\
  vl_ram_load (ZS := unit) None (fun z _ _ => (0, [], [], z)) 0 1 0 (qemu_fopen_rb []) 3 demo_ram = Undef.
Proof.
  assert (H : at_eof (qemu_fopen_rb [])).
  { split; [reflexivity|]. split; [reflexivity|]. split; [discriminate|reflexivity]. }
  split; [exact H|]. exact (ram_load_truncated None _ 0 1 0 _ (qemu_fopen_rb []) demo_ram H).
Defined.
