(* ===== verification/BoardSnapshot.v ===== *)
(** * A snapshot of a board

    The sections of [Snapshot] with handlers of the program: the memory,
    saved live ([ram_save_live] and [ram_load] of [vl-android.c]), and a
    serial port ([goldfish_tty_save] and [goldfish_tty_load]). Both keep the
    promises of [section_laws], so a snapshot of the two restores them. *)
From stdpp Require Import gmap.
From S2P Require Import Prelude Irq GuestMem GoldfishDevice Savevm GoldfishTty Snapshot RamSave.

Record Board := mkBoard { b_ram : RamState; b_tty : tty_state }.

Section Board.
Context {ZS : Type} (inflateInit : option ZS).
Context (inflate : ZS -> list Z -> Z -> Z * list Z * list Z * ZS) (Z_OK Z_STREAM_END : Z) (zfuel : nat).
Context (short_downtime : Z -> bool).

Definition with_ram (v : VM Board) (s : RamState) : VM Board :=
  mkVM (vm_running v) (timers_state v) (mkBoard s (b_tty (machine v))).
Definition with_tty (v : VM Board) (s : tty_state) : VM Board :=
  mkVM (vm_running v) (timers_state v) (mkBoard (b_ram (machine v)) s).

Definition board_save_ram (f : QEMUFile) (stage : Z) (v : VM Board) : res (Z * QEMUFile * VM Board) :=
  let! (r, f, s) := ram_save_live short_downtime f stage (b_ram (machine v)) in Ok (r, f, with_ram v s).
Definition board_load_ram (f : QEMUFile) (ver : Z) (v : VM Board) : res (Z * QEMUFile * VM Board) :=
  let! (r, f, s) := vl_ram_load inflateInit inflate Z_OK Z_STREAM_END zfuel f ver (b_ram (machine v)) in
  Ok (r, f, with_ram v s).
Definition board_save_tty (f : QEMUFile) (v : VM Board) : res (QEMUFile * VM Board) :=
  let! f := goldfish_tty_save f (b_tty (machine v)) in Ok (f, v).
Definition board_load_tty (f : QEMUFile) (ver : Z) (v : VM Board) : res (Z * QEMUFile * VM Board) :=
  let! (r, s, f) := goldfish_tty_load f (b_tty (machine v)) ver in Ok (r, f, with_tty v s).

Definition id_ram : list Z := [114; 97; 109].
Definition id_tty : list Z := [103; 111; 108; 100; 102; 105; 115; 104; 95; 116; 116; 121].

(** The calls of [main] and of [goldfish_tty_add]. *)
Definition board_registry : registry Board :=
  register_savevm id_tty 0 GOLDFISH_TTY_SAVE_VERSION (Some board_save_tty) board_load_tty 1
    (register_savevm_live id_ram 0 3 (Some board_save_ram) None board_load_ram 0 (mkReg [] 0)).

(** ** The promises *)

Context (N : Z).

Definition board_view (s : Z) (v : VM Board) : option (RamState + tty_state) :=
  if s =? 0 then Some (inl (b_ram (machine v)))
  else if s =? 1 then Some (inr (b_tty (machine v))) else None.

Definition ram_content (s : RamState) : list Z := ram_load (ram (mem s)) 0 (Z.to_nat N).
Definition tty_content (s : tty_state) : Z * Z * Z * Z * list Z :=
  (ptr s, ptr_len s, ready s, data_count s, queue s).

Definition board_content (s : Z) (d : option (RamState + tty_state))
  : option (list Z + (Z * Z * Z * Z * list Z)) :=
  match d with
  | Some (inl r) => Some (inl (ram_content r))
  | Some (inr y) => Some (inr (tty_content y))
  | None => None
  end.

Definition board_partial (s : Z) (d d' : option (RamState + tty_state)) : Prop :=
  match d, d' with
  | Some (inl r), Some (inl r') => all_clean N r /\ agrees N r r'
  | _, _ => True
  end.

Definition board_wf (v : VM Board) : Prop :=
  ram_wf N (b_ram (machine v)) /\ tty_wf (b_tty (machine v)) /\
  in_u32 (ptr (b_tty (machine v))) /\ in_u8 (ready (b_tty (machine v))).

Abbreviation board_laws :=
  (section_laws board_view board_content board_partial (fun _ _ => 0%nat) (fun _ => 0%nat) board_wf).
Abbreviation board_saves := (saves board_view board_content board_wf).

Lemma frame_ram v s : frame board_view 0 v (with_ram v s).
Proof. intros s' Hs'. unfold board_view. by destruct (Z.eqb_spec s' 0). Qed.

Lemma frame_tty v s : frame board_view 1 v (with_tty v s).
Proof. intros s' Hs'. unfold board_view. by destruct (Z.eqb_spec s' 0), (Z.eqb_spec s' 1). Qed.

(** A stage of the memory section. *)
Lemma ram_saves (se : SaveStateEntry Board) stage pre post prog :
  short_downtime 0 = true ->
  section_id se = 0 -> version_id se = 3 -> load_state se = board_load_ram ->
  (forall r r', pre (Some (inl r)) (Some (inl r')) -> stage_pre N stage r r') ->
  (forall r r', all_clean N r -> agrees N r r' -> ram_content r' = ram_content r ->
     post (Some (inl r)) (Some (inl r'))) ->
  (forall r d d', (stage = 2 -> r = 1) -> prog r d d') ->
  board_saves se (fun f => board_save_ram f stage) pre post prog.
Proof.
  intros Hsh Hid Hver Hld Hpre Hpost Hprog v f data (Hr & Ht) Hw. rewrite Hid, Hver, Hld.
  destruct (ram_save_live_ok inflateInit inflate Z_OK Z_STREAM_END zfuel short_downtime Hsh N stage f _ data Hr Hw)
    as (r & f' & s' & b & E & Hw' & Hwf' & Hram & Hcl & Hres & Hload).
  exists r, f', (with_ram v s'), b. unfold board_save_ram. rewrite E. split; [reflexivity|].
  split; [done|]. split; [by split|]. split; [apply frame_ram|].
  split; [cbn; unfold ram_content; by rewrite Hram|]. split; [by apply Hprog|].
  intros t g rest (Htr & Htt) Hp Hrd.
  destruct (Hload _ _ _ Htr (Hpre _ _ Hp) Hrd) as (g' & t' & El & Hrd' & Hwt' & Hag).
  exists 0, g', (with_ram t t'). unfold board_load_ram. rewrite El. split; [reflexivity|].
  split; [done|]. split; [by split|]. split; [apply frame_ram|]. apply Hpost; [done|done|].
  destruct Hr as (_ & HN & HNm & _). apply agrees_clean; try done. lia.
Qed.

Lemma tty_saves (se : SaveStateEntry Board) :
  section_id se = 1 -> version_id se = GOLDFISH_TTY_SAVE_VERSION -> load_state se = board_load_tty ->
  board_saves se (fun f v => let! (f, v) := board_save_tty f v in Ok (0, f, v))
    any_state (same_content board_content 1) any_result.
Proof.
  intros Hid Hver Hld v f data (Hr & Ht & Hp & Hrd) Hw. rewrite Hid, Hver, Hld.
  destruct (tty_save_writing f data _ Ht Hw) as (f' & E & Hw').
  exists 0, f', v, (tty_bytes (b_tty (machine v))). unfold board_save_tty. rewrite E.
  split; [reflexivity|]. split; [done|]. split; [done|]. split; [by intros s' _|].
  split; [done|]. split; [done|]. intros t g rest (Htr & Htt & _) _ Hrg.
  destruct (tty_load_reading g _ _ rest Ht Htt Hp Hrd Hrg)
    as (s' & g' & El & Hrg' & Hwf' & Hdev & H1 & H2 & H3 & H4 & H5).
  exists 0, g', (with_tty t s'). unfold board_load_tty. rewrite El. split; [reflexivity|].
  split; [done|]. split; [split; [done|split; [done|cbn; by rewrite H1, H3]]|]. split; [apply frame_tty|].
  unfold same_content. cbn. unfold tty_content. by rewrite H1, H2, H3, H4, H5.
Qed.

Lemma board_laws_hold se :
  short_downtime 0 = true -> se ∈ first_se board_registry -> board_laws se.
Proof.
  intros Hsh [->|[->|H%elem_of_nil]%elem_of_cons]%elem_of_cons; [| |done];
    (split; [split; [cbn; lia|repeat constructor; lia]|vm_compute; intuition congruence
            |intros x [= <-]|intros x [= <-]|intros x [= <-]|intros x [= <-]]).
  - apply ram_saves; try done.
    + by left.
    + intros r d d' _. unfold opened. lia.
  - apply ram_saves; try done.
    + intros r r' [_ Ha]. by right.
    + intros r d d' Hr1. split; [done|]. by rewrite Hr1.
  - apply ram_saves; try done.
    + intros r r' [_ Ha]. by right.
    + intros r r' _ _ Hc. unfold same_content. cbn. by rewrite Hc.
  - by apply tty_saves.
Qed.
End Board.

Section Theorems.
Context {ZS : Type} (inflateInit : option ZS).
Context (inflate : ZS -> list Z -> Z -> Z * list Z * list Z * ZS) (Z_OK Z_STREAM_END : Z) (zfuel : nat).
Context (short_downtime : Z -> bool).
Context (change_handlers : list (bool -> Z -> Board -> Board)) (bdrv_flush_all : Board -> Board).
Context (stop_ticks stop_clk start_ticks start_clk : Z).
Abbreviation entries :=
  (first_se (board_registry inflateInit inflate Z_OK Z_STREAM_END zfuel short_downtime)).
Abbreviation board_stopped := (stopped change_handlers bdrv_flush_all stop_ticks stop_clk).

Lemma ram_entry : exists se, se ∈ entries /\ section_id se = 0 /\ save_live_state se <> None.
Proof. eexists. split; [apply list_elem_of_here|]. split; [reflexivity|discriminate]. Qed.

Lemma tty_entry : exists se, se ∈ entries /\ section_id se = 1 /\ save_state se <> None.
Proof.
  eexists. split; [apply list_elem_of_further, list_elem_of_here|]. split; [reflexivity|discriminate].
Qed.

(** C14: Saving a board and loading the file into any board with a memory of
    the same size restores the whole memory, whatever its pages hold and
    whatever pages were marked, and the registers and the queue of the serial
    port; both directions end without an error. The one assumption is that
    sending no page is expected to take no time. *)
Theorem board_snapshot (N : Z) (fuel : nat) (v t : VM Board) :
  short_downtime 0 = true -> board_wf N (board_stopped v) -> board_wf N t -> (0 < fuel)%nat ->
  exists f v1 g t',
    qemu_savevm_state change_handlers bdrv_flush_all stop_ticks stop_clk start_ticks start_clk
      fuel entries qemu_fopen_wb v
      = Ok (0, f, if vm_running v then vm_start change_handlers start_ticks start_clk v1 else v1) /\
    qemu_loadvm_state (length (qemu_fclose f)) entries (qemu_fopen_rb (qemu_fclose f)) t = Ok (0, g, t') /\
    ram_content N (b_ram (machine t')) = ram_content N (b_ram (machine (board_stopped v))) /\
    tty_content (b_tty (machine t')) = tty_content (b_tty (machine (board_stopped v))).
Proof.
  intros Hsh Hv Ht Hf.
  destruct (snapshot_restores change_handlers bdrv_flush_all stop_ticks stop_clk start_ticks start_clk
    board_view (board_content N) (board_partial N) (fun _ _ => 0%nat) (fun _ => 0%nat) (board_wf N)
    entries fuel v t) as (f & v1 & g & t' & E1 & _ & E2 & Hc).
  - apply (bool_decide_unpack _). vm_compute. exact I.
  - apply (bool_decide_unpack _). vm_compute. exact I.
  - intros se Hin. exact (board_laws_hold _ _ _ _ _ _ N se Hsh Hin).
  - exact Hv.
  - exact Ht.
  - exact Hf.
  - exists f, v1, g, t'. split; [exact E1|]. split; [exact E2|].
    destruct ram_entry as (se & Hin & Hid & Hlive). destruct tty_entry as (se' & Hin' & Hid' & Hfull).
    pose proof (Hc se Hin (or_introl Hlive)) as Hram. pose proof (Hc se' Hin' (or_intror Hfull)) as Htty.
    rewrite Hid in Hram. rewrite Hid' in Htty. clear -Hram Htty.
    unfold board_content, board_view in Hram, Htty. cbn [Z.eqb Pos.eqb] in Hram, Htty.
    apply (inj Some), (inj inl) in Hram. apply (inj Some), (inj inr) in Htty. exact (conj Hram Htty).
Qed.
End Theorems.

Definition demo_board : Board := mkBoard demo_ram demo_tty.
Definition empty_board : Board :=
  mkBoard (two_page_ram ∅ 0) (goldfish_tty_init tty_dev true).

Lemma demo_tty_wf : tty_wf demo_tty.
Proof. split; [reflexivity|]. split; [simpl; lia|]. split; [simpl; lia|]. unfold owns_line. simpl. lia. Qed.

Lemma init_tty_wf : tty_wf (goldfish_tty_init tty_dev true).
Proof. split; [reflexivity|]. split; [simpl; lia|]. split; [simpl; lia|]. unfold owns_line. simpl. lia. Qed.

Lemma board_snapshot_witness :
  let v := mkVM true (mkTS 0 0 0 true) demo_board in
  let entries := first_se (board_registry (ZS := unit) None (fun z _ _ => (0, [], [], z)) 0 1 0 (Z.eqb 0)) in
  exists f v1 g t',
    qemu_savevm_state [] (fun m => m) 5 6 7 8 1 entries qemu_fopen_wb v = Ok (0, f, vm_start [] 7 8 v1) /\
    qemu_loadvm_state (length (qemu_fclose f)) entries (qemu_fopen_rb (qemu_fclose f))
      (mkVM false (mkTS 0 0 0 false) empty_board) = Ok (0, g, t') /\
    ram_content 2048 (b_ram (machine t')) = ram_content 2048 demo_ram /\
    tty_content (b_tty (machine t')) = tty_content demo_tty.
Proof.
  refine (board_snapshot None _ 0 1 0 (Z.eqb 0) [] (fun m => m) 5 6 7 8 2048 1 _ _ _ _ _ _).
  - reflexivity.
  - split; [exact demo_ram_wf|]. split; [exact demo_tty_wf|]. vm_compute. intuition congruence.
  - split; [by apply two_page_wf|]. split; [exact init_tty_wf|]. vm_compute. intuition congruence.
  - lia.
Defined.
