(* ===== verification/HostFile.v ===== *)
(** * Files of the host

    What [read], [write] and [lseek] of the host answer on a regular file:
    interrupted calls, media errors, full disks, files opened for reading
    only. The flash memory and the block devices keep their contents in such
    files. *)
From stdpp Require Import list.
From S2P Require Import Prelude.
#[local] Open Scope Z_scope.

Definition EINTR : Z := 4.
Definition EIO : Z := 5.
Definition EBADF : Z := 9.
Definition ENOSPC : Z := 28.

Record hfile := mkFile {
  contents : list Z;
  position : Z;
  interrupted : nat;     (* how many of the next calls a signal interrupts *)
  bad_media : bool;      (* reads fail *)
  writable : bool;       (* opened for writing *)
  capacity : Z           (* how large the disk lets the file grow *)
}.

Inductive sys_result := Ret (n : Z) | Err (errno : Z).

Definition set_position f p := mkFile (contents f) p (interrupted f) (bad_media f) (writable f) (capacity f).
Definition set_interrupted f n := mkFile (contents f) (position f) n (bad_media f) (writable f) (capacity f).

(** Bytes stored from [o] on; a gap before them is filled with zeros. *)
Definition put_at (l : list Z) (o : nat) (buf : list Z) : list Z :=
  take o (l ++ replicate (o - length l) 0) ++ buf ++ drop (o + length buf) l.

Definition sys_read (f : hfile) (size : Z) : sys_result * list Z * hfile :=
  match interrupted f with
  | S n => (Err EINTR, [], set_interrupted f n)
  | O =>
      if bad_media f then (Err EIO, [], f) else
      let bytes := take (Z.to_nat size) (drop (Z.to_nat (position f)) (contents f)) in
      let n := Z.of_nat (length bytes) in
      (Ret n, bytes, set_position f (position f + n))
  end.

Definition sys_write (f : hfile) (buf : list Z) : sys_result * hfile :=
  match interrupted f with
  | S n => (Err EINTR, set_interrupted f n)
  | O =>
      if negb (writable f) then (Err EBADF, f) else
      let n := Z.min (Z.of_nat (length buf)) (capacity f - position f) in
      if (n <=? 0) && (0 <? Z.of_nat (length buf)) then (Err ENOSPC, f) else
      (Ret n, mkFile (put_at (contents f) (Z.to_nat (position f)) (take (Z.to_nat n) buf))
                (position f + n) 0 (bad_media f) (writable f) (capacity f))
  end.

(** [lseek] with [SEEK_SET]; a negative offset is refused. *)
Definition lseek_set (f : hfile) (offset : Z) : hfile :=
  if s64 offset <? 0 then f else set_position f offset.

(** [lseek] with [SEEK_END] and offset 0: the length of the file. *)
Definition lseek_end (f : hfile) : Z * hfile :=
  let n := Z.of_nat (length (contents f)) in (n, set_position f n).

(** ** The contents of a file *)

Lemma length_put_at l o buf : length (put_at l o buf) = max (length l) (o + length buf).
Proof. unfold put_at. rewrite !length_app, length_take, length_app, length_replicate, length_drop. lia. Qed.

Lemma lookup_put_at l o buf i :
  put_at l o buf !! i =
    if decide (i < o)%nat then if decide (i < length l)%nat then l !! i else Some 0
    else if decide (i < o + length buf)%nat then buf !! (i - o)%nat else l !! i.
Proof.
  unfold put_at. assert (Ht : length (take o (l ++ replicate (o - length l) 0)) = o).
  { rewrite length_take, length_app, length_replicate. lia. }
  case_decide as H1.
  - rewrite lookup_app_l by lia. rewrite lookup_take_lt by lia. case_decide.
    + by rewrite lookup_app_l.
    + rewrite lookup_app_r, lookup_replicate_2 by lia. done.
  - rewrite lookup_app_r, Ht by lia. case_decide.
    + by rewrite lookup_app_l by lia.
    + rewrite lookup_app_r, lookup_drop by lia. f_equal. lia.
Qed.

Lemma put_at_app l o b1 b2 : put_at (put_at l o b1) (o + length b1) b2 = put_at l o (b1 ++ b2).
Proof.
  apply list_eq. intros i. rewrite !lookup_put_at, length_put_at, length_app.
  repeat case_decide; try lia; try done.
  - by rewrite lookup_app_l by lia.
  - rewrite lookup_app_r by lia. f_equal. lia.
Qed.

Lemma put_at_nil l o : (o <= length l)%nat -> put_at l o [] = l.
Proof.
  intros Ho. apply list_eq. intros i. rewrite lookup_put_at. simpl. repeat case_decide; try lia; done.
Qed.

Lemma lseek_ok f a : 0 <= a < 2 ^ 63 -> lseek_set f a = set_position f a.
Proof. intros Ha. unfold lseek_set. rewrite swrap_small by (simpl; lia). by rewrite (proj2 (Z.ltb_ge _ _)) by lia. Qed.
