(* ===== verification/Block.v ===== *)
(** * Block devices

    [block.c]: the requests of sectors and of bytes to a disk image, whatever
    driver reads and writes the image. A driver is the record of its
    functions, like [struct BlockDriver] of [block_int.h]; what the requests
    rely on is the class [BlockImage], which the raw driver implements in
    [RawPosix]. *)
From stdpp Require Import list.
From S2P Require Import Prelude HostFile.
#[local] Open Scope Z_scope.

Definition EACCES : Z := 13.
Definition ENOTSUP : Z := 95.
Definition ENOMEDIUM : Z := 123.

Definition SECTOR_BITS : Z := 9.
Definition SECTOR_SIZE : Z := Z.shiftl 1 SECTOR_BITS.

(** A buffer: the host address of its first byte and its bytes. *)
Record hbuf := mkBuf { buf_addr : Z; buf_bytes : list Z }.

(** [buf += n]. *)
Definition skip (n : Z) (b : hbuf) : hbuf := mkBuf (buf_addr b + n) (drop (Z.to_nat n) (buf_bytes b)).
(** The bytes of a buffer whose bytes from [n] on are now [rest]. *)
Definition unskip (n : Z) (b : list Z) (rest : list Z) : list Z := take (Z.to_nat n) b ++ rest.

(** [memcpy (dst + o, src + p, n)] on bytes: undefined past the end of either
    buffer. *)
Definition memcpy (dst : list Z) (o : Z) (src : list Z) (p n : Z) : res (list Z) :=
  if (o <? 0) || (p <? 0) || (n <? 0) || (Z.of_nat (length dst) <? o + n) || (Z.of_nat (length src) <? p + n) then Undef
  else Ok (splice dst (Z.to_nat o) (take (Z.to_nat n) (drop (Z.to_nat p) src))).

(** The functions of a driver on its private state [D], and the null pointers
    among them. Reading gives the value returned and the bytes of the buffer. *)
Record BlockDriver (D : Type) := mkDriver {
  drv_read : Z -> hbuf -> Z -> D -> res (Z * list Z * D);
  drv_write : Z -> hbuf -> Z -> D -> res (Z * D);
  drv_truncate : option (Z -> D -> res (Z * D));
  drv_getlength : option (D -> Z * D);
  drv_is_inserted : option (D -> Z)
}.
Arguments mkDriver {D}.
Arguments drv_read {D}.
Arguments drv_write {D}.
Arguments drv_truncate {D}.
Arguments drv_getlength {D}.
Arguments drv_is_inserted {D}.

Record BlockDriverState (D : Type) := mkBs {
  total_sectors : Z;
  read_only : Z;
  growable : Z;
  bs_drv : option (BlockDriver D);       (* null: no media *)
  opaque : D
}.
Arguments mkBs {D}.
Arguments total_sectors {D}.
Arguments read_only {D}.
Arguments growable {D}.
Arguments bs_drv {D}.
Arguments opaque {D}.

Section Block.
Context {D : Type}.
Implicit Types bs : BlockDriverState D.

Definition set_opaque bs (d : D) : BlockDriverState D :=
  mkBs (total_sectors bs) (read_only bs) (growable bs) (bs_drv bs) d.

Definition bdrv_is_inserted bs : Z :=
  match bs_drv bs with
  | None => 0
  | Some drv => match drv_is_inserted drv with None => 1 | Some f => f (opaque bs) end
  end.

Definition bdrv_is_read_only bs : Z := read_only bs.

Definition bdrv_getlength bs : Z * BlockDriverState D :=
  match bs_drv bs with
  | None => (- ENOMEDIUM, bs)
  | Some drv =>
      match drv_getlength drv with
      | None => (s64 (total_sectors bs * SECTOR_SIZE), bs)
      | Some f => let '(n, d) := f (opaque bs) in (n, set_opaque bs d)
      end
  end.

Definition bdrv_truncate offset bs : res (Z * BlockDriverState D) :=
  match bs_drv bs with
  | None => Ok (- ENOMEDIUM, bs)
  | Some drv =>
      match drv_truncate drv with
      | None => Ok (- ENOTSUP, bs)
      | Some f => let! (r, d) := f offset (opaque bs) in Ok (r, set_opaque bs d)
      end
  end.

Definition bdrv_get_geometry bs : Z * BlockDriverState D :=
  let '(length, bs) := bdrv_getlength bs in
  (if length <? 0 then 0 else Z.shiftr length SECTOR_BITS, bs).

(** [len - offset < size] compares unsigned numbers: [size_t] has 64 bits. *)
Definition bdrv_check_byte_request offset size bs : Z * BlockDriverState D :=
  if negb (ctrue (bdrv_is_inserted bs)) then (- ENOMEDIUM, bs)
  else if ctrue (growable bs) then (0, bs)
  else
    let '(len, bs) := bdrv_getlength bs in
    if offset <? 0 then (- EIO, bs)
    else if (len <? offset) || (u64 (len - offset) <? size) then (- EIO, bs)
    else (0, bs).

(** [nb_sectors * 512] is an [int], converted to [size_t]. *)
Definition bdrv_check_request sector_num nb_sectors bs : Z * BlockDriverState D :=
  bdrv_check_byte_request (s64 (sector_num * 512)) (u64 (s32 (nb_sectors * 512))) bs.

Definition bdrv_read sector_num (buf : hbuf) nb_sectors bs : res (Z * list Z * BlockDriverState D) :=
  match bs_drv bs with
  | None => Ok (- ENOMEDIUM, buf_bytes buf, bs)
  | Some drv =>
      let '(r, bs) := bdrv_check_request sector_num nb_sectors bs in
      if ctrue r then Ok (- EIO, buf_bytes buf, bs)
      else let! (r, b, d) := drv_read drv sector_num buf nb_sectors (opaque bs) in Ok (r, b, set_opaque bs d)
  end.

Definition bdrv_write sector_num (buf : hbuf) nb_sectors bs : res (Z * BlockDriverState D) :=
  match bs_drv bs with
  | None => Ok (- ENOMEDIUM, bs)
  | Some drv =>
      if ctrue (read_only bs) then Ok (- EACCES, bs)
      else
        let '(r, bs) := bdrv_check_request sector_num nb_sectors bs in
        if ctrue r then Ok (- EIO, bs)
        else let! (r, d) := drv_write drv sector_num buf nb_sectors (opaque bs) in Ok (r, set_opaque bs d)
  end.

(** [bdrv_pread]: the value returned and the bytes of [buf]; [tmp_buf] is the
    local array of one sector, with whatever it holds at first. *)
Definition pread_tail sector_num (buf tmp_buf : hbuf) count count1 bs : res (Z * list Z * BlockDriverState D) :=
  if 0 <? count then
    let! (r, t, bs) := bdrv_read sector_num tmp_buf 1 bs in
    if r <? 0 then Ok (- EIO, buf_bytes buf, bs)
    else let! b := memcpy (buf_bytes buf) 0 t 0 count in Ok (count1, b, bs)
  else Ok (count1, buf_bytes buf, bs).

Definition pread_middle sector_num (buf tmp_buf : hbuf) count count1 bs : res (Z * list Z * BlockDriverState D) :=
  let nb_sectors := Z.shiftr count SECTOR_BITS in
  if 0 <? nb_sectors then
    let! (r, b, bs) := bdrv_read sector_num buf nb_sectors bs in
    if r <? 0 then Ok (- EIO, b, bs)
    else
      let len := Z.shiftl nb_sectors SECTOR_BITS in
      let! (r, rest, bs) := pread_tail (sector_num + nb_sectors) (skip len (mkBuf (buf_addr buf) b)) tmp_buf (count - len) count1 bs in
      Ok (r, unskip len b rest, bs)
  else pread_tail sector_num buf tmp_buf count count1 bs.

Definition bdrv_pread offset (buf : hbuf) count1 (tmp_buf : hbuf) bs : res (Z * list Z * BlockDriverState D) :=
  let count := count1 in
  let len := Z.land (SECTOR_SIZE - offset) (SECTOR_SIZE - 1) in
  let len := if count <? len then count else len in
  let sector_num := Z.shiftr offset SECTOR_BITS in
  if 0 <? len then
    let! (r, t, bs) := bdrv_read sector_num tmp_buf 1 bs in
    if r <? 0 then Ok (- EIO, buf_bytes buf, bs)
    else
      let! b := memcpy (buf_bytes buf) 0 t (Z.land offset (SECTOR_SIZE - 1)) len in
      let count := count - len in
      if count =? 0 then Ok (count1, b, bs)
      else
        let! (r, rest, bs) := pread_middle (sector_num + 1) (skip len (mkBuf (buf_addr buf) b)) (mkBuf (buf_addr tmp_buf) t) count count1 bs in
        Ok (r, unskip len b rest, bs)
  else pread_middle sector_num buf tmp_buf count count1 bs.

(** [bdrv_pwrite]. *)
Definition pwrite_tail sector_num (buf tmp_buf : hbuf) count count1 bs : res (Z * BlockDriverState D) :=
  if 0 <? count then
    let! (r, t, bs) := bdrv_read sector_num tmp_buf 1 bs in
    if r <? 0 then Ok (- EIO, bs)
    else
      let! t := memcpy t 0 (buf_bytes buf) 0 count in
      let! (r, bs) := bdrv_write sector_num (mkBuf (buf_addr tmp_buf) t) 1 bs in
      if r <? 0 then Ok (- EIO, bs) else Ok (count1, bs)
  else Ok (count1, bs).

Definition pwrite_middle sector_num (buf tmp_buf : hbuf) count count1 bs : res (Z * BlockDriverState D) :=
  let nb_sectors := Z.shiftr count SECTOR_BITS in
  if 0 <? nb_sectors then
    let! (r, bs) := bdrv_write sector_num buf nb_sectors bs in
    if r <? 0 then Ok (- EIO, bs)
    else
      let len := Z.shiftl nb_sectors SECTOR_BITS in
      pwrite_tail (sector_num + nb_sectors) (skip len buf) tmp_buf (count - len) count1 bs
  else pwrite_tail sector_num buf tmp_buf count count1 bs.

Definition bdrv_pwrite offset (buf : hbuf) count1 (tmp_buf : hbuf) bs : res (Z * BlockDriverState D) :=
  let count := count1 in
  let len := Z.land (SECTOR_SIZE - offset) (SECTOR_SIZE - 1) in
  let len := if count <? len then count else len in
  let sector_num := Z.shiftr offset SECTOR_BITS in
  if 0 <? len then
    let! (r, t, bs) := bdrv_read sector_num tmp_buf 1 bs in
    if r <? 0 then Ok (- EIO, bs)
    else
      let! t := memcpy t (Z.land offset (SECTOR_SIZE - 1)) (buf_bytes buf) 0 len in
      let! (r, bs) := bdrv_write sector_num (mkBuf (buf_addr tmp_buf) t) 1 bs in
      if r <? 0 then Ok (- EIO, bs)
      else
        let count := count - len in
        if count =? 0 then Ok (count1, bs)
        else pwrite_middle (sector_num + 1) (skip len buf) (mkBuf (buf_addr tmp_buf) t) count count1 bs
  else pwrite_middle sector_num buf tmp_buf count count1 bs.
End Block.

(** ** Bytes of lists *)

(** [n] bytes of a list from [o] on. *)
Definition seg (l : list Z) (o n : Z) : list Z := take (Z.to_nat n) (drop (Z.to_nat o) l).

Lemma length_seg l o n : 0 <= o -> 0 <= n -> o + n <= Z.of_nat (length l) -> Z.of_nat (length (seg l o n)) = n.
Proof. intros. unfold seg. rewrite length_take, length_drop. lia. Qed.

Lemma seg_app l o n1 n2 : 0 <= o -> 0 <= n1 -> 0 <= n2 -> seg l o n1 ++ seg l (o + n1) n2 = seg l o (n1 + n2).
Proof. intros. unfold seg. rewrite Z2Nat.inj_add, <- drop_drop, take_take_drop by lia. f_equal. lia. Qed.

Lemma seg_seg l o n p k : 0 <= o -> 0 <= p -> 0 <= k -> p + k <= n -> seg (seg l o n) p k = seg l (o + p) k.
Proof.
  intros. unfold seg. rewrite skipn_firstn_comm, take_take, drop_drop, <- Z2Nat.inj_add by lia. f_equal. lia.
Qed.

Lemma seg_nil l o : seg l o 0 = [].
Proof. done. Qed.

Lemma seg_all l n : n = Z.of_nat (length l) -> seg l 0 n = l.
Proof. intros ->. unfold seg. rewrite Nat2Z.id. by rewrite drop_0, take_ge. Qed.

Lemma lookup_seg l o n i : 0 <= o -> seg l o n !! i = if decide (i < Z.to_nat n)%nat then l !! (Z.to_nat o + i)%nat else None.
Proof. intros. unfold seg. case_decide; [by rewrite lookup_take_lt, lookup_drop|by rewrite lookup_take_ge by lia]. Qed.

Lemma splice_put_at (l src : list Z) o : (o + length src <= length l)%nat -> splice l o src = put_at l o src.
Proof.
  intros Hl. rewrite <- (take_drop o l) at 1. rewrite <- (take_drop (length src) (drop o l)) at 1.
  assert (H : length (take o l) = o) by (rewrite length_take; lia).
  rewrite splice_app; [|by symmetry|rewrite length_take, length_drop; lia]. unfold put_at. rewrite drop_drop.
  f_equal. symmetry. rewrite take_app_le; [done|lia].
Qed.

Lemma memcpy_ok dst o src p n : 0 <= o -> 0 <= p -> 0 <= n -> o + n <= Z.of_nat (length dst) -> p + n <= Z.of_nat (length src) ->
  memcpy dst o src p n = Ok (put_at dst (Z.to_nat o) (seg src p n)).
Proof.
  intros. unfold memcpy. do 5 (rewrite (proj2 (Z.ltb_ge _ _)) by lia). cbn [orb].
  fold (seg src p n). rewrite splice_put_at; [done|]. pose proof (length_seg src p n). lia.
Qed.

Lemma put_at_front l src : put_at l 0 src = src ++ drop (length src) l.
Proof. done. Qed.

Lemma put_at_skip l n src : (n <= length l)%nat -> take n l ++ put_at (drop n l) 0 src = put_at l n src.
Proof. intros. rewrite put_at_front, drop_drop. unfold put_at. by rewrite take_app_le by lia. Qed.

(** A part of some bytes replaced, put back where the bytes were. *)
Lemma put_at_part l o n p src : 0 <= o -> 0 <= p -> p + Z.of_nat (length src) <= n -> o + n <= Z.of_nat (length l) ->
  put_at l (Z.to_nat o) (put_at (seg l o n) (Z.to_nat p) src) = put_at l (Z.to_nat (o + p)) src.
Proof.
  intros Ho Hp Hs Hn. pose proof (length_seg l o n) as Hl. apply list_eq. intros i. rewrite !lookup_put_at, length_put_at, lookup_seg by lia.
  repeat case_decide; try lia; try done; f_equal; lia.
Qed.

Lemma seg_put_at l o src : 0 <= o -> o + Z.of_nat (length src) <= Z.of_nat (length l) ->
  seg (put_at l (Z.to_nat o) src) o (Z.of_nat (length src)) = src.
Proof.
  intros. apply list_eq. intros i. rewrite lookup_seg, lookup_put_at by lia. case_decide as Hd; [|by rewrite lookup_ge_None_2 by lia].
  repeat case_decide; try lia. f_equal. lia.
Qed.

(** The end of the sectors that hold the first [n] bytes. *)
Definition sectors_end (n : Z) : Z := (n + 511) / 512 * 512.

Lemma sectors_end_spec n : n <= sectors_end n < n + 512 /\ exists k, sectors_end n = k * 512.
Proof. unfold sectors_end. pose proof (Z.div_mod (n + 511) 512 ltac:(lia)). pose proof (Z.mod_pos_bound (n + 511) 512 ltac:(lia)). split; [lia|eauto]. Qed.

(** Facts on sectors for [lia]. *)
Ltac sectors :=
  repeat match goal with
  | |- context [sectors_end ?n] => pose proof (sectors_end_spec n) as (? & ? & ?); generalize dependent (sectors_end n); intros
  | _ : context [sectors_end ?n] |- _ => pose proof (sectors_end_spec n) as (? & ? & ?); generalize dependent (sectors_end n); intros
  end; lia.

(** ** What a driver promises *)

(** A disk image behind a driver: its bytes, and when the host lets the
    driver read it ([healthy false]) or also write it ([healthy true]). *)
Class BlockImage {D : Type} (drv : BlockDriver D) := {
  image : D -> list Z;
  healthy : bool -> D -> Prop;
  bi_size w d : healthy w d -> Z.of_nat (length (image d)) < 2 ^ 63;
  bi_read w d sector buf nb :
    healthy w d -> 0 <= sector -> 0 < nb -> nb * 512 < 2 ^ 31 ->
    (sector + nb) * 512 <= Z.of_nat (length (image d)) -> nb * 512 <= Z.of_nat (length (buf_bytes buf)) ->
    exists d', drv_read drv sector buf nb d =
        Ok (0, seg (image d) (sector * 512) (nb * 512) ++ drop (Z.to_nat (nb * 512)) (buf_bytes buf), d') /\
      image d' = image d /\ healthy w d';
  bi_write d sector buf nb :
    healthy true d -> 0 <= sector -> 0 < nb -> nb * 512 < 2 ^ 31 ->
    (sector + nb) * 512 <= Z.of_nat (length (image d)) -> nb * 512 <= Z.of_nat (length (buf_bytes buf)) ->
    exists d', drv_write drv sector buf nb d = Ok (0, d') /\
      image d' = put_at (image d) (Z.to_nat (sector * 512)) (take (Z.to_nat (nb * 512)) (buf_bytes buf)) /\
      healthy true d';
  bi_getlength f : drv_getlength drv = Some f -> forall w d, healthy w d ->
    exists d', f d = (Z.of_nat (length (image d)), d') /\ image d' = image d /\ healthy w d';
  bi_is_inserted f : drv_is_inserted drv = Some f -> forall w d, healthy w d -> ctrue (f d) = true
}.

Section Requests.
Context {D : Type} (drv : BlockDriver D) `{BI : !BlockImage drv}.

Definition disk (bs : BlockDriverState D) : list Z := image (opaque bs).

(** An open device of fixed size on a healthy image. *)
Definition opened (w : bool) (bs : BlockDriverState D) : Prop :=
  bs_drv bs = Some drv /\ growable bs = 0 /\ healthy w (opaque bs) /\ (w = true -> read_only bs = 0) /\
  (drv_getlength drv = None -> total_sectors bs * 512 = Z.of_nat (length (disk bs))).

Lemma opened_set w bs d : opened w bs -> healthy w d -> length (image d) = length (disk bs) -> opened w (set_opaque bs d).
Proof. intros (H1 & H2 & _ & H4 & H5) Hd Hi. split_and!; try done. intros Hn. unfold disk. cbn. rewrite Hi. by apply H5. Qed.


Lemma getlength_opened w bs : opened w bs ->
  exists bs', bdrv_getlength bs = (Z.of_nat (length (disk bs)), bs') /\ opened w bs' /\ disk bs' = disk bs.
Proof.
  intros Ho. pose proof Ho as (H1 & H2 & H3 & H4 & H5). unfold bdrv_getlength. rewrite H1.
  destruct (drv_getlength drv) as [f|] eqn:E.
  - destruct (bi_getlength f E w _ H3) as (d' & -> & Hi & Hh). eexists. split; [done|].
    split; [|exact Hi]. apply opened_set; [done..|]. by rewrite Hi.
  - exists bs. split; [|done]. f_equal. change SECTOR_SIZE with 512. rewrite H5 by done.
    pose proof (bi_size w _ H3). fold (disk bs) in *. by rewrite swrap_small by (simpl; lia).
Qed.

Lemma is_inserted_opened w bs : opened w bs -> ctrue (bdrv_is_inserted bs) = true.
Proof.
  intros (H1 & _ & H3 & _). unfold bdrv_is_inserted. rewrite H1.
  destruct (drv_is_inserted drv) as [f|] eqn:E; [by eapply bi_is_inserted|done].
Qed.

(** Exactly the requests within the image are let through. *)
Lemma check_request_opened w bs sector nb :
  opened w bs -> - 2 ^ 54 <= sector < 2 ^ 54 -> 0 <= nb -> nb * 512 < 2 ^ 31 ->
  exists bs', bdrv_check_request sector nb bs =
      (if (0 <=? sector) && ((sector + nb) * 512 <=? Z.of_nat (length (disk bs))) then 0 else - EIO, bs') /\
    opened w bs' /\ disk bs' = disk bs.
Proof.
  intros Ho Hs Hn Hn31. pose proof Ho as (_ & H2 & H3 & _). pose proof (bi_size w _ H3) as Hsz. fold (disk bs) in Hsz.
  unfold bdrv_check_request, bdrv_check_byte_request. rewrite (is_inserted_opened w bs) by done. cbn [negb].
  rewrite H2. change (ctrue 0) with false. cbn iota.
  destruct (getlength_opened w bs Ho) as (bs' & -> & Ho' & Hd). exists bs'. split; [|done]. f_equal.
  rewrite (swrap_small 64), (swrap_small 32) by (simpl; lia). rewrite (uwrap_small 64 (nb * 512)) by lia.
  destruct (Z.leb_spec 0 sector) as [Hs0|Hs0]; cbn [andb]; [|by rewrite (proj2 (Z.ltb_lt _ _)) by lia].
  rewrite (proj2 (Z.ltb_ge _ 0)) by lia. destruct (Z.leb_spec ((sector + nb) * 512) (Z.of_nat (length (disk bs)))) as [Hle|Hgt].
  - rewrite (proj2 (Z.ltb_ge _ _)) by lia. rewrite uwrap_small by lia. by rewrite (proj2 (Z.ltb_ge _ _)) by lia.
  - destruct (Z.ltb_spec (Z.of_nat (length (disk bs))) (sector * 512)); [done|]. rewrite uwrap_small by lia.
    by rewrite (proj2 (Z.ltb_lt _ _)) by lia.
Qed.

Lemma bdrv_read_opened w bs sector buf nb :
  opened w bs -> 0 <= sector -> 0 < nb -> nb * 512 < 2 ^ 31 ->
  (sector + nb) * 512 <= Z.of_nat (length (disk bs)) -> nb * 512 <= Z.of_nat (length (buf_bytes buf)) ->
  exists bs', bdrv_read sector buf nb bs =
      Ok (0, seg (disk bs) (sector * 512) (nb * 512) ++ drop (Z.to_nat (nb * 512)) (buf_bytes buf), bs') /\
    opened w bs' /\ disk bs' = disk bs.
Proof.
  intros Ho Hs Hn Hn31 Hle Hb. pose proof Ho as (H1 & _ & H3 & _). pose proof (bi_size w _ H3) as Hsz. fold (disk bs) in Hsz.
  unfold bdrv_read. rewrite H1. destruct (check_request_opened w bs sector nb) as (bs1 & -> & Ho1 & Hd1); [done|lia..|].
  rewrite (proj2 (Z.leb_le 0 sector)), (proj2 (Z.leb_le _ _)) by lia. change (ctrue 0) with false. cbn [andb]. change (ctrue 0) with false. cbn iota.
  pose proof Ho1 as (_ & _ & Hh1 & _). rewrite <- Hd1 in *.
  destruct (bi_read w (opaque bs1) sector buf nb) as (d & -> & Hi & Hh); [done..|]. cbn [rbind].
  eexists. split; [done|]. split; [|exact Hi]. apply opened_set; [done..|]. unfold disk. by rewrite Hi.
Qed.

Lemma bdrv_write_opened bs sector buf nb :
  opened true bs -> 0 <= sector -> 0 < nb -> nb * 512 < 2 ^ 31 ->
  (sector + nb) * 512 <= Z.of_nat (length (disk bs)) -> nb * 512 <= Z.of_nat (length (buf_bytes buf)) ->
  exists bs', bdrv_write sector buf nb bs = Ok (0, bs') /\ opened true bs' /\
    disk bs' = put_at (disk bs) (Z.to_nat (sector * 512)) (take (Z.to_nat (nb * 512)) (buf_bytes buf)).
Proof.
  intros Ho Hs Hn Hn31 Hle Hb. pose proof Ho as (H1 & _ & H3 & Hro & _). pose proof (bi_size _ _ H3) as Hsz. fold (disk bs) in Hsz.
  unfold bdrv_write. rewrite H1, Hro by done. change (ctrue 0) with false. cbn iota.
  destruct (check_request_opened true bs sector nb) as (bs1 & -> & Ho1 & Hd1); [done|lia..|].
  rewrite (proj2 (Z.leb_le 0 sector)), (proj2 (Z.leb_le _ _)) by lia. cbn [andb]. change (ctrue 0) with false. cbn iota.
  pose proof Ho1 as (_ & _ & Hh1 & _). rewrite <- Hd1 in *.
  destruct (bi_write (opaque bs1) sector buf nb) as (d & -> & Hi & Hh); [done..|]. cbn [rbind].
  eexists. split; [done|]. split; [|exact Hi]. apply opened_set; [done..|]. rewrite Hi, length_put_at, length_take. fold (disk bs1). lia.
Qed.

(** A request past the end of the image is refused and changes nothing. *)
Lemma bdrv_past_end w bs sector buf nb :
  opened w bs -> 0 <= sector < 2 ^ 54 -> 0 <= nb -> nb * 512 < 2 ^ 31 ->
  Z.of_nat (length (disk bs)) < (sector + nb) * 512 ->
  exists bs', bdrv_read sector buf nb bs = Ok (- EIO, buf_bytes buf, bs') /\
    bdrv_write sector buf nb bs = Ok (if ctrue (read_only bs) then - EACCES else - EIO, if ctrue (read_only bs) then bs else bs') /\
    opened w bs' /\ disk bs' = disk bs.
Proof.
  intros Ho Hs Hn Hn31 Hgt. pose proof Ho as (H1 & _). unfold bdrv_read, bdrv_write. rewrite H1.
  destruct (check_request_opened w bs sector nb) as (bs1 & -> & Ho1 & Hd1); [done|lia..|].
  rewrite (proj2 (Z.leb_gt ((sector + nb) * 512) _)) by lia. rewrite andb_false_r. change (ctrue (- EIO)) with true. cbn iota.
  exists bs1. split; [done|]. by destruct (ctrue (read_only bs)).
Qed.

(** ** Requests of bytes *)

Lemma pread_tail_ok w bs sector buf tmp count count1 :
  opened w bs -> 0 <= sector -> 0 <= count < 512 -> sector * 512 + sectors_end count <= Z.of_nat (length (disk bs)) ->
  count <= Z.of_nat (length (buf_bytes buf)) -> length (buf_bytes tmp) = 512%nat ->
  exists bs', pread_tail sector buf tmp count count1 bs =
      Ok (count1, put_at (buf_bytes buf) 0 (seg (disk bs) (sector * 512) count), bs') /\ opened w bs' /\ disk bs' = disk bs.
Proof.
  intros Ho Hs Hc He Hb Ht. unfold pread_tail. destruct (Z.ltb_spec 0 count) as [Hc0|Hc0].
  - assert (Hf : sector * 512 + 512 <= Z.of_nat (length (disk bs))) by sectors.
    destruct (bdrv_read_opened w bs sector tmp 1) as (bs1 & -> & Ho1 & Hd1); [done|sectors..|]. cbn [rbind Z.ltb Z.compare].
    change (1 * 512) with 512. rewrite drop_ge, app_nil_r by lia. pose proof (length_seg (disk bs) (sector * 512) 512) as Hl.
    rewrite memcpy_ok, seg_seg, Z.add_0_r by lia. cbn [rbind]. by exists bs1.
  - replace count with 0 by lia. exists bs. by rewrite seg_nil, put_at_front.
Qed.

Lemma pread_middle_ok w bs sector buf tmp count count1 :
  opened w bs -> 0 <= sector -> 0 <= count < 2 ^ 31 -> sector * 512 + sectors_end count <= Z.of_nat (length (disk bs)) ->
  count <= Z.of_nat (length (buf_bytes buf)) -> length (buf_bytes tmp) = 512%nat ->
  exists bs', pread_middle sector buf tmp count count1 bs =
      Ok (count1, put_at (buf_bytes buf) 0 (seg (disk bs) (sector * 512) count), bs') /\ opened w bs' /\ disk bs' = disk bs.
Proof.
  intros Ho Hs Hc He Hb Ht. unfold pread_middle. rewrite Z.shiftr_div_pow2, Z.shiftl_mul_pow2 by (unfold SECTOR_BITS; lia).
  change (2 ^ SECTOR_BITS) with 512. pose proof (Z.div_mod count 512 ltac:(lia)) as Hd. pose proof (Z.mod_pos_bound count 512 ltac:(lia)) as Hm. set (n := count / 512) in *. destruct (Z.ltb_spec 0 n) as [Hn|Hn].
  - assert (Hf : sector * 512 + count <= Z.of_nat (length (disk bs))) by sectors.
    destruct (bdrv_read_opened w bs sector buf n) as (bs1 & -> & Ho1 & Hd1); [done|sectors..|]. cbn [rbind Z.ltb Z.compare].
    pose proof (length_seg (disk bs) (sector * 512) (n * 512)) as Hl.
    set (b := seg _ _ _ ++ _). assert (Eb : b = put_at (buf_bytes buf) 0 (seg (disk bs) (sector * 512) (n * 512))).
    { rewrite put_at_front. unfold b. f_equal. f_equal. lia. }
    assert (Hlb : length b = length (buf_bytes buf)) by (rewrite Eb, length_put_at; lia).
    destruct (pread_tail_ok w bs1 (sector + n) (skip (n * 512) (mkBuf (buf_addr buf) b)) tmp (count - n * 512) count1)
      as (bs2 & -> & Ho2 & Hd2); [done|lia|lia|rewrite Hd1; sectors|cbn; rewrite length_drop; lia|done|].
    cbn [rbind skip buf_bytes]. exists bs2. split; [|split; [done|congruence]]. unfold unskip. rewrite put_at_skip by lia.
    rewrite Eb, Hd1. replace (Z.to_nat (n * 512)) with (0 + length (seg (disk bs) (sector * 512) (n * 512)))%nat at 1 by lia.
    rewrite put_at_app. replace ((sector + n) * 512) with (sector * 512 + n * 512) by lia. rewrite seg_app by lia.
    by replace (n * 512 + (count - n * 512)) with count by lia.
  - apply pread_tail_ok; try done; sectors.
Qed.

(** The bytes of the first sector that come before [offset], and how many
    bytes of the request it holds. *)
Lemma head_split offset count : 0 <= offset -> 0 <= count ->
  let p := offset mod 512 in let l := Z.land (SECTOR_SIZE - offset) (SECTOR_SIZE - 1) in
  let len := if count <? l then count else l in
  Z.land offset (SECTOR_SIZE - 1) = p /\ Z.shiftr offset SECTOR_BITS = offset / 512 /\ 0 <= len <= count /\
  (0 < len -> p + len <= 512 /\ 0 < p) /\ (len <= 0 -> count = 0 \/ p = 0) /\ (0 < len < count -> p + len = 512).
Proof.
  intros Ho Hc p l len. assert (Hp : Z.land offset (SECTOR_SIZE - 1) = p) by (apply (Z.land_ones offset 9); lia).
  assert (Hl : l = (512 - offset) mod 512) by (apply (Z.land_ones (512 - offset) 9); lia).
  split; [done|]. split; [rewrite Z.shiftr_div_pow2 by (unfold SECTOR_BITS; lia); done|].
  pose proof (Z.div_mod offset 512 ltac:(lia)) as Hd. pose proof (Z.mod_pos_bound offset 512 ltac:(lia)) as Hm. fold p in Hd, Hm.
  assert (Hlp : l = if decide (p = 0) then 0 else 512 - p).
  { rewrite Hl. case_decide as Hz; symmetry; [apply (Z.mod_unique _ _ (1 - offset / 512))|apply (Z.mod_unique _ _ (- (offset / 512)))]; lia. }
  unfold len. clearbody l p. case_decide; destruct (Z.ltb_spec count l); lia.
Qed.

Lemma bdrv_pread_image w bs offset buf count tmp :
  opened w bs -> 0 <= offset -> 0 <= count < 2 ^ 31 -> sectors_end (offset + count) <= Z.of_nat (length (disk bs)) ->
  count <= Z.of_nat (length (buf_bytes buf)) -> length (buf_bytes tmp) = 512%nat ->
  exists bs', bdrv_pread offset buf count tmp bs = Ok (count, put_at (buf_bytes buf) 0 (seg (disk bs) offset count), bs') /\
    opened w bs' /\ disk bs' = disk bs.
Proof.
  intros Hop Ho Hc He Hb Ht. unfold bdrv_pread. cbv zeta. destruct (head_split offset count Ho) as (-> & -> & Hlen & Hl1 & Hl2 & Hl3); [lia|].
  set (len := if count <? _ then count else _) in *. clearbody len. pose proof (Z.div_mod offset 512 ltac:(lia)) as Hd.
  pose proof (Z.mod_pos_bound offset 512 ltac:(lia)) as Hm. set (p := offset mod 512) in *. set (q := offset / 512) in *.
  destruct (Z.ltb_spec 0 len) as [Hl0|Hl0].
  - assert (Hf : q * 512 + 512 <= Z.of_nat (length (disk bs)) /\ offset + count <= Z.of_nat (length (disk bs))) by sectors.
    destruct (bdrv_read_opened w bs q tmp 1) as (bs1 & -> & Ho1 & Hd1); [done|sectors..|]. cbn [rbind Z.ltb Z.compare].
    change (1 * 512) with 512. rewrite drop_ge, app_nil_r by lia. pose proof (length_seg (disk bs) (q * 512) 512) as Hls.
    rewrite memcpy_ok, seg_seg by lia. cbn [rbind]. replace (q * 512 + p) with offset by lia. change (Z.to_nat 0) with 0%nat.
    pose proof (length_seg (disk bs) offset len) as Hl.
    destruct (Z.eqb_spec (count - len) 0) as [Hcl|Hcl]; [replace len with count by lia; by exists bs1|].
    set (b := put_at (buf_bytes buf) 0 _). assert (Hlb : length b = length (buf_bytes buf)) by (unfold b; rewrite length_put_at; lia).
    destruct (pread_middle_ok w bs1 (q + 1) (skip len (mkBuf (buf_addr buf) b)) (mkBuf (buf_addr tmp) (seg (disk bs) (q * 512) 512)) (count - len) count)
      as (bs2 & -> & Ho2 & Hd2); [done|lia|lia|rewrite Hd1; sectors|cbn; rewrite length_drop; lia|cbn; lia|].
    cbn [rbind skip buf_bytes]. exists bs2. split; [|split; [done|congruence]]. unfold unskip. rewrite put_at_skip by lia.
    unfold b. rewrite Hd1. replace (Z.to_nat len) with (0 + length (seg (disk bs) offset len))%nat at 1 by lia.
    rewrite put_at_app. replace ((q + 1) * 512) with (offset + len) by lia. rewrite seg_app by lia.
    by replace (len + (count - len)) with count by lia.
  - destruct (decide (count = 0)) as [Hz|Hz].
    + destruct (pread_middle_ok w bs q buf tmp count count) as (bs1 & H & ?); [done|lia|lia|subst count; rewrite Z.add_0_r in He; change (sectors_end 0) with 0; sectors|done..|].
      exists bs1. rewrite H. subst count. by rewrite !seg_nil.
    + assert (Eo : offset = q * 512) by lia. rewrite Eo. apply pread_middle_ok; try done; [lia|sectors].
Qed.

(** A sector read, a part of it replaced, written back. *)
Lemma sector_update bs sector tmp p src n :
  opened true bs -> 0 <= sector -> 0 <= p -> 0 <= n -> p + n <= 512 -> n <= Z.of_nat (length src) ->
  sector * 512 + 512 <= Z.of_nat (length (disk bs)) -> length (buf_bytes tmp) = 512%nat ->
  exists bs1 t1 bs2, bdrv_read sector tmp 1 bs = Ok (0, seg (disk bs) (sector * 512) 512, bs1) /\
    memcpy (seg (disk bs) (sector * 512) 512) p src 0 n = Ok t1 /\ length t1 = 512%nat /\
    bdrv_write sector (mkBuf (buf_addr tmp) t1) 1 bs1 = Ok (0, bs2) /\ opened true bs2 /\
    disk bs2 = put_at (disk bs) (Z.to_nat (sector * 512 + p)) (seg src 0 n).
Proof.
  intros Ho Hs Hp Hn Hpn Hsrc Hf Ht. destruct (bdrv_read_opened true bs sector tmp 1) as (bs1 & Hr & Ho1 & Hd1); [done|lia..|].
  change (1 * 512) with 512 in Hr. rewrite drop_ge, app_nil_r in Hr by lia. pose proof (length_seg (disk bs) (sector * 512) 512) as Hl.
  pose proof (length_seg src 0 n) as Hl'. rewrite memcpy_ok by lia. set (t := put_at (seg (disk bs) _ _) _ _).
  assert (Hlt : length t = 512%nat) by (unfold t; rewrite length_put_at; lia).
  destruct (bdrv_write_opened bs1 sector (mkBuf (buf_addr tmp) t) 1) as (bs2 & Hw & Ho2 & Hd2); [done|rewrite ?Hd1; cbn; lia..|].
  exists bs1, t, bs2. split_and!; try done. rewrite Hd2. cbn [buf_bytes]. rewrite take_ge by lia. rewrite Hd1. unfold t. apply put_at_part; lia.
Qed.

Lemma pwrite_tail_ok bs sector buf tmp count count1 :
  opened true bs -> 0 <= sector -> 0 <= count < 512 -> sector * 512 + sectors_end count <= Z.of_nat (length (disk bs)) ->
  count <= Z.of_nat (length (buf_bytes buf)) -> length (buf_bytes tmp) = 512%nat ->
  exists bs', pwrite_tail sector buf tmp count count1 bs = Ok (count1, bs') /\ opened true bs' /\
    disk bs' = put_at (disk bs) (Z.to_nat (sector * 512)) (seg (buf_bytes buf) 0 count).
Proof.
  intros Ho Hs Hc He Hb Ht. unfold pwrite_tail. destruct (Z.ltb_spec 0 count) as [Hc0|Hc0].
  - destruct (sector_update bs sector tmp 0 (buf_bytes buf) count) as (bs1 & t & bs2 & Hr & Hm & Hl & Hw & Ho2 & Hd); [done|try done; sectors..|].
    rewrite Hr. cbn [rbind Z.ltb Z.compare]. rewrite Hm. cbn [rbind]. rewrite Hw. cbn [rbind Z.ltb Z.compare].
    exists bs2. rewrite Z.add_0_r in Hd. done.
  - replace count with 0 by lia. exists bs. split_and!; try done. rewrite seg_nil, put_at_nil; [done|].
    pose proof (sectors_end_spec count). lia.
Qed.

Lemma pwrite_middle_ok bs sector buf tmp count count1 :
  opened true bs -> 0 <= sector -> 0 <= count < 2 ^ 31 -> sector * 512 + sectors_end count <= Z.of_nat (length (disk bs)) ->
  count <= Z.of_nat (length (buf_bytes buf)) -> length (buf_bytes tmp) = 512%nat ->
  exists bs', pwrite_middle sector buf tmp count count1 bs = Ok (count1, bs') /\ opened true bs' /\
    disk bs' = put_at (disk bs) (Z.to_nat (sector * 512)) (seg (buf_bytes buf) 0 count).
Proof.
  intros Ho Hs Hc He Hb Ht. unfold pwrite_middle. rewrite Z.shiftr_div_pow2, Z.shiftl_mul_pow2 by (unfold SECTOR_BITS; lia).
  change (2 ^ SECTOR_BITS) with 512. pose proof (Z.div_mod count 512 ltac:(lia)) as Hd. pose proof (Z.mod_pos_bound count 512 ltac:(lia)) as Hm.
  set (n := count / 512) in *. destruct (Z.ltb_spec 0 n) as [Hn|Hn].
  - assert (Hf : sector * 512 + count <= Z.of_nat (length (disk bs))) by sectors.
    destruct (bdrv_write_opened bs sector buf n) as (bs1 & -> & Ho1 & Hd1); [done|sectors..|]. cbn [rbind Z.ltb Z.compare].
    pose proof (length_seg (buf_bytes buf) 0 (n * 512)) as Hl. change (take (Z.to_nat (n * 512)) (buf_bytes buf)) with (seg (buf_bytes buf) 0 (n * 512)) in Hd1.
    assert (Hld : length (disk bs1) = length (disk bs)) by (rewrite Hd1, length_put_at; lia).
    destruct (pwrite_tail_ok bs1 (sector + n) (skip (n * 512) buf) tmp (count - n * 512) count1)
      as (bs2 & -> & Ho2 & Hd2); [done|lia|lia|rewrite Hld; sectors|cbn; rewrite length_drop; lia|done|].
    exists bs2. split_and!; try done. rewrite Hd2, Hd1. cbn [skip buf_bytes].
    replace (Z.to_nat ((sector + n) * 512)) with (Z.to_nat (sector * 512) + length (seg (buf_bytes buf) 0 (n * 512)))%nat by lia.
    rewrite put_at_app. f_equal.
    replace count with (n * 512 + (count - n * 512)) at 2 by lia. rewrite <- seg_app by lia. done.
  - apply pwrite_tail_ok; try done; sectors.
Qed.

Lemma bdrv_pwrite_image bs offset buf count tmp :
  opened true bs -> 0 <= offset -> 0 <= count < 2 ^ 31 -> sectors_end (offset + count) <= Z.of_nat (length (disk bs)) ->
  count <= Z.of_nat (length (buf_bytes buf)) -> length (buf_bytes tmp) = 512%nat ->
  exists bs', bdrv_pwrite offset buf count tmp bs = Ok (count, bs') /\ opened true bs' /\
    disk bs' = put_at (disk bs) (Z.to_nat offset) (seg (buf_bytes buf) 0 count).
Proof.
  intros Hop Ho Hc He Hb Ht. unfold bdrv_pwrite. cbv zeta. destruct (head_split offset count Ho) as (-> & -> & Hlen & Hl1 & Hl2 & Hl3); [lia|].
  set (len := if count <? _ then count else _) in *. clearbody len. pose proof (Z.div_mod offset 512 ltac:(lia)) as Hd.
  pose proof (Z.mod_pos_bound offset 512 ltac:(lia)) as Hm. set (p := offset mod 512) in *. set (q := offset / 512) in *.
  destruct (Z.ltb_spec 0 len) as [Hl0|Hl0].
  - assert (Hf : q * 512 + 512 <= Z.of_nat (length (disk bs)) /\ offset + count <= Z.of_nat (length (disk bs))) by sectors.
    destruct (sector_update bs q tmp p (buf_bytes buf) len) as (bs1 & t & bs2 & Hr & Hmc & Hl & Hw & Ho2 & Hd2); [done|try done; lia..|].
    rewrite Hr. cbn [rbind Z.ltb Z.compare]. rewrite Hmc. cbn [rbind]. rewrite Hw. cbn [rbind Z.ltb Z.compare].
    replace (q * 512 + p) with offset in Hd2 by lia. pose proof (length_seg (buf_bytes buf) 0 len) as Hls.
    destruct (Z.eqb_spec (count - len) 0) as [Hcl|Hcl]; [exists bs2; by replace count with len by lia|].
    assert (Hld : length (disk bs2) = length (disk bs)) by (rewrite Hd2, length_put_at; lia).
    destruct (pwrite_middle_ok bs2 (q + 1) (skip len buf) (mkBuf (buf_addr tmp) t) (count - len) count)
      as (bs3 & -> & Ho3 & Hd3); [done|lia|lia|rewrite Hld; sectors|cbn; rewrite length_drop; lia|done|].
    exists bs3. split_and!; try done. rewrite Hd3, Hd2. cbn [skip buf_bytes].
    replace (Z.to_nat ((q + 1) * 512)) with (Z.to_nat offset + length (seg (buf_bytes buf) 0 len))%nat by lia.
    rewrite put_at_app. f_equal. replace count with (len + (count - len)) at 2 by lia. rewrite <- seg_app by lia. done.
  - destruct (decide (count = 0)) as [Hz|Hz].
    + destruct (pwrite_middle_ok bs q buf tmp count count) as (bs1 & H & ? & H'); [done|lia|lia|subst count; rewrite Z.add_0_r in He; change (sectors_end 0) with 0; sectors|done..|].
      exists bs1. rewrite H. subst count. split_and!; try done. rewrite H', !seg_nil, !put_at_nil; [done|..]; rewrite Z.add_0_r in He; pose proof (sectors_end_spec offset); lia.
    + assert (Eo : offset = q * 512) by lia. rewrite Eo. apply pwrite_middle_ok; try done; [lia|sectors].
Qed.
End Requests.

(** ** The device as an array of bytes *)

(** The requests of bytes, each with its buffers. *)
Inductive byte_request :=
| PRead (offset count : Z) (buf tmp_buf : hbuf)
| PWrite (offset count : Z) (buf tmp_buf : hbuf).

(** What the requests do to an array: the array and what the buffers that
    were read into hold. *)
Fixpoint on_array (reqs : list byte_request) (a : list Z) : list (list Z) * list Z :=
  match reqs with
  | [] => ([], a)
  | PRead offset count buf _ :: reqs =>
      let '(out, a') := on_array reqs a in (put_at (buf_bytes buf) 0 (seg a offset count) :: out, a')
  | PWrite offset count buf _ :: reqs => on_array reqs (put_at a (Z.to_nat offset) (seg (buf_bytes buf) 0 count))
  end.

(** What they do to a device; a request that fails ends them. *)
Fixpoint on_device {D} (reqs : list byte_request) (bs : BlockDriverState D) : res (list (list Z) * BlockDriverState D) :=
  match reqs with
  | [] => Ok ([], bs)
  | PRead offset count buf tmp :: reqs =>
      let! (r, b, bs) := bdrv_pread offset buf count tmp bs in
      if r =? count then let! (out, bs) := on_device reqs bs in Ok (b :: out, bs) else Abort
  | PWrite offset count buf tmp :: reqs =>
      let! (r, bs) := bdrv_pwrite offset buf count tmp bs in
      if r =? count then on_device reqs bs else Abort
  end.

(** A request within an image of [n] bytes, with large enough buffers. *)
Definition within (n : Z) (req : byte_request) : Prop :=
  match req with
  | PRead offset count buf tmp | PWrite offset count buf tmp =>
      0 <= offset /\ 0 <= count < 2 ^ 31 /\ sectors_end (offset + count) <= n /\
      count <= Z.of_nat (length (buf_bytes buf)) /\ length (buf_bytes tmp) = 512%nat
  end.

Lemma on_device_array {D} (drv : BlockDriver D) `{!BlockImage drv} reqs : forall bs,
  opened drv true bs -> Forall (within (Z.of_nat (length (disk drv bs)))) reqs ->
  exists bs', on_device reqs bs = Ok (fst (on_array reqs (disk drv bs)), bs') /\
    opened drv true bs' /\ disk drv bs' = snd (on_array reqs (disk drv bs)).
Proof.
  induction reqs as [|req reqs IH]; intros bs Ho Hr; [by exists bs|]. apply Forall_cons_1 in Hr as [Hq Hr].
  destruct req as [offset count buf tmp|offset count buf tmp]; destruct Hq as (H1 & H2 & H3 & H4 & H5); cbn [on_device on_array].
  - destruct (bdrv_pread_image drv true bs offset buf count tmp) as (bs1 & -> & Ho1 & Hd1); try done. cbn [rbind].
    rewrite Z.eqb_refl. destruct (IH bs1) as (bs2 & -> & Ho2 & Hd2); [done|by rewrite Hd1|]. cbn [rbind]. exists bs2.
    rewrite Hd1 in *. by destruct (on_array reqs (disk drv bs)).
  - destruct (bdrv_pwrite_image drv bs offset buf count tmp) as (bs1 & -> & Ho1 & Hd1); try done. cbn [rbind].
    rewrite Z.eqb_refl, <- Hd1. apply IH; [done|]. rewrite Hd1, length_put_at.
    pose proof (length_seg (buf_bytes buf) 0 count). pose proof (sectors_end_spec (offset + count)).
    by replace (Nat.max _ _) with (length (disk drv bs)) by lia.
Qed.
