(* ===== verification/RawPosix.v ===== *)
(** * Disk images in files of the host

    [block/raw-posix.c]: the driver whose image is the file itself, as it is
    on Linux for a regular file. A file opened without the host's cache
    ([BDRV_O_NOCACHE], [O_DIRECT]) takes requests of whole sectors from
    aligned buffers only, so that other requests go through [aligned_buf]. *)
From stdpp Require Import list.
From S2P Require Import Prelude HostFile Block.
#[local] Open Scope Z_scope.

Definition EINVAL : Z := 22.
Definition ALIGNED_BUFFER_SIZE : Z := 32 * 512.
Definition BDRV_TYPE_HD : Z := 0.
Definition BDRV_TYPE_CDROM : Z := 1.

(** [BDRVRawState] of a regular file ([FTYPE_FILE]), the type of the device
    the state belongs to, and the address of [aligned_buf]. *)
Record BDRVRawState := mkRaw {
  fd : hfile;
  bs_type : Z;
  aligned_buf : option hbuf        (* null unless the file is [O_DIRECT] *)
}.
Definition set_fd s f := mkRaw f (bs_type s) (aligned_buf s).
Definition set_aligned s b := mkRaw (fd s) (bs_type s) b.

(** [x & 0x1ff] and [x & ~0x1ff]. *)
Definition low9 (x : Z) : Z := Z.land x 0x1ff.
Definition high9 (x : Z) : Z := Z.ldiff x 0x1ff.

(** [read] and [write] of the host on the file: the alignment [O_DIRECT]
    asks for, and a buffer that has the bytes. *)
Definition misaligned (s : BDRVRawState) (addr count : Z) : bool :=
  match aligned_buf s with
  | None => false
  | Some _ => negb (low9 addr =? 0) || negb (low9 count =? 0) || negb (low9 (position (fd s)) =? 0)
  end.

Definition fd_read (buf : hbuf) (count : Z) (s : BDRVRawState) : res (sys_result * list Z * BDRVRawState) :=
  if (count <? 0) || (Z.of_nat (length (buf_bytes buf)) <? count) then Undef
  else if misaligned s (buf_addr buf) count then Ok (Err EINVAL, buf_bytes buf, s)
  else let '(r, bytes, f) := sys_read (fd s) count in Ok (r, splice (buf_bytes buf) 0 bytes, set_fd s f).

Definition fd_write (buf : hbuf) (count : Z) (s : BDRVRawState) : res (sys_result * BDRVRawState) :=
  if (count <? 0) || (Z.of_nat (length (buf_bytes buf)) <? count) then Undef
  else if misaligned s (buf_addr buf) count then Ok (Err EINVAL, s)
  else let '(r, f) := sys_write (fd s) (take (Z.to_nat count) (buf_bytes buf)) in Ok (r, set_fd s f).

Definition is_count (r : sys_result) (count : Z) : bool :=
  match r with Ret n => n =? count | Err _ => false end.
(** [(ret < 0) ? -errno : ret]. *)
Definition or_errno (r : sys_result) : Z := match r with Ret n => n | Err e => - e end.

(** A regular file can be sought to any offset that is not negative. *)
Definition raw_pread_aligned (offset : Z) (buf : hbuf) (count : Z) (s : BDRVRawState) : res (Z * list Z * BDRVRawState) :=
  let s := if 0 <=? offset then set_fd s (lseek_set (fd s) offset) else s in
  let! (ret, b, s) := fd_read buf count s in
  if is_count ret count || negb (bs_type s =? BDRV_TYPE_CDROM) then Ok (or_errno ret, b, s)
  else
    let! (ret, b, s) := fd_read (mkBuf (buf_addr buf) b) count (set_fd s (lseek_set (fd s) offset)) in
    if is_count ret count then Ok (or_errno ret, b, s)
    else
      let! (ret, b, s) := fd_read (mkBuf (buf_addr buf) b) count (set_fd s (lseek_set (fd s) offset)) in
      Ok (or_errno ret, b, s).

Definition raw_pwrite_aligned (offset : Z) (buf : hbuf) (count : Z) (s : BDRVRawState) : res (Z * BDRVRawState) :=
  let s := if 0 <=? offset then set_fd s (lseek_set (fd s) offset) else s in
  let! (ret, s) := fd_write buf count s in
  Ok (or_errno ret, s).

(** [while (count)] of [raw_pread]: the bytes of [buf] and [sum]. *)
Fixpoint pread_loop (fuel : nat) (offset : Z) (buf : hbuf) (count sum : Z) (s : BDRVRawState) : res (Z * list Z * BDRVRawState) :=
  if count =? 0 then Ok (sum, buf_bytes buf, s) else
  match fuel, aligned_buf s with
  | S fuel, Some a =>
      let size := high9 (count + 0x1ff) in
      let size := if ALIGNED_BUFFER_SIZE <? size then ALIGNED_BUFFER_SIZE else size in
      let! (ret, b, s) := raw_pread_aligned offset a size s in
      let s := set_aligned s (Some (mkBuf (buf_addr a) b)) in
      if ret <? 0 then Ok (ret, buf_bytes buf, s)
      else
        let size := ret in
        let size := if count <? size then count else size in
        let! c := memcpy (buf_bytes buf) 0 b 0 size in
        let! (r, rest, s) := pread_loop fuel (offset + size) (skip size (mkBuf (buf_addr buf) c)) (count - size) (sum + size) s in
        Ok (r, unskip size c rest, s)
  | _, _ => Undef
  end.

(** What [raw_pread] does with an offset at the start of a sector. Each round
    of the loop that does not fail reads at least a byte before the end of
    the file. *)
Definition pread_from_sector (offset : Z) (buf : hbuf) (count sum : Z) (s : BDRVRawState) : res (Z * list Z * BDRVRawState) :=
  match aligned_buf s with
  | Some _ =>
      if ctrue (low9 count) || ctrue (low9 (buf_addr buf)) then pread_loop (Z.to_nat count) offset buf count sum s
      else let! (r, b, s) := raw_pread_aligned offset buf count s in Ok (r + sum, b, s)
  | None => let! (r, b, s) := raw_pread_aligned offset buf count s in Ok (r + sum, b, s)
  end.

Definition raw_pread (offset : Z) (buf : hbuf) (count : Z) (s : BDRVRawState) : res (Z * list Z * BDRVRawState) :=
  match aligned_buf s with
  | Some a =>
      if ctrue (low9 offset) then
        let shift := low9 offset in
        let size := high9 (shift + count + 0x1ff) in
        let size := if ALIGNED_BUFFER_SIZE <? size then ALIGNED_BUFFER_SIZE else size in
        let! (ret, b, s) := raw_pread_aligned (offset - shift) a size s in
        let s := set_aligned s (Some (mkBuf (buf_addr a) b)) in
        if ret <? 0 then Ok (ret, buf_bytes buf, s)
        else
          let size := 512 - shift in
          let size := if count <? size then count else size in
          let! c := memcpy (buf_bytes buf) 0 b shift size in
          let count := count - size in
          if count =? 0 then Ok (size, c, s)
          else
            let! (r, rest, s) := pread_from_sector (offset + size) (skip size (mkBuf (buf_addr buf) c)) count size s in
            Ok (r, unskip size c rest, s)
      else pread_from_sector offset buf count 0 s
  | None => pread_from_sector offset buf count 0 s
  end.

Definition raw_read (sector_num : Z) (buf : hbuf) (nb_sectors : Z) (s : BDRVRawState) : res (Z * list Z * BDRVRawState) :=
  let! (ret, b, s) := raw_pread (s64 (sector_num * 512)) buf (s32 (nb_sectors * 512)) s in
  Ok (if ret =? s32 (nb_sectors * 512) then 0 else ret, b, s).

(** The loop of [raw_pwrite] and the bytes after its last whole sector. *)
Fixpoint pwrite_loop (fuel : nat) (offset : Z) (buf : hbuf) (count sum : Z) (s : BDRVRawState) : res (Z * BDRVRawState) :=
  match aligned_buf s with
  | None => Undef
  | Some a =>
      let size := high9 count in
      if negb (size =? 0) then
        match fuel with
        | O => Undef
        | S fuel =>
            let size := if ALIGNED_BUFFER_SIZE <? size then ALIGNED_BUFFER_SIZE else size in
            let! b := memcpy (buf_bytes a) 0 (buf_bytes buf) 0 size in
            let a := mkBuf (buf_addr a) b in
            let! (ret, s) := raw_pwrite_aligned offset a size (set_aligned s (Some a)) in
            if ret <? 0 then Ok (ret, s)
            else pwrite_loop fuel (offset + ret) (skip ret buf) (count - ret) (sum + ret) s
        end
      else if negb (count =? 0) then
        let! (ret, b, s) := raw_pread_aligned offset a 512 s in
        let s := set_aligned s (Some (mkBuf (buf_addr a) b)) in
        if ret <? 0 then Ok (ret, s)
        else
          let! b := memcpy b 0 (buf_bytes buf) 0 count in
          let a := mkBuf (buf_addr a) b in
          let! (ret, s) := raw_pwrite_aligned offset a 512 (set_aligned s (Some a)) in
          if ret <? 0 then Ok (ret, s)
          else Ok (sum + (if count <? ret then count else ret), s)
      else Ok (sum, s)
  end.

Definition pwrite_from_sector (offset : Z) (buf : hbuf) (count sum : Z) (s : BDRVRawState) : res (Z * BDRVRawState) :=
  match aligned_buf s with
  | Some _ =>
      if ctrue (low9 count) || ctrue (low9 (buf_addr buf)) then pwrite_loop (Z.to_nat count) offset buf count sum s
      else let! (r, s) := raw_pwrite_aligned offset buf count s in Ok (r + sum, s)
  | None => let! (r, s) := raw_pwrite_aligned offset buf count s in Ok (r + sum, s)
  end.

Definition raw_pwrite (offset : Z) (buf : hbuf) (count : Z) (s : BDRVRawState) : res (Z * BDRVRawState) :=
  match aligned_buf s with
  | Some a =>
      if ctrue (low9 offset) then
        let shift := low9 offset in
        let! (ret, b, s) := raw_pread_aligned (offset - shift) a 512 s in
        let s := set_aligned s (Some (mkBuf (buf_addr a) b)) in
        if ret <? 0 then Ok (ret, s)
        else
          let size := 512 - shift in
          let size := if count <? size then count else size in
          let! b := memcpy b shift (buf_bytes buf) 0 size in
          let a := mkBuf (buf_addr a) b in
          let! (ret, s) := raw_pwrite_aligned (offset - shift) a 512 (set_aligned s (Some a)) in
          if ret <? 0 then Ok (ret, s)
          else
            let count := count - size in
            if count =? 0 then Ok (size, s)
            else pwrite_from_sector (offset + size) (skip size buf) count size s
      else pwrite_from_sector offset buf count 0 s
  | None => pwrite_from_sector offset buf count 0 s
  end.

Definition raw_write (sector_num : Z) (buf : hbuf) (nb_sectors : Z) (s : BDRVRawState) : res (Z * BDRVRawState) :=
  let! (ret, s) := raw_pwrite (s64 (sector_num * 512)) buf (s32 (nb_sectors * 512)) s in
  Ok (if ret =? s32 (nb_sectors * 512) then 0 else ret, s).

Definition raw_getlength (s : BDRVRawState) : Z * BDRVRawState :=
  let '(size, f) := lseek_end (fd s) in (size, set_fd s f).

(** [raw_truncate] on a regular file: [ftruncate] cuts the file or fills it
    with zeros. *)
Definition raw_truncate (offset : Z) (s : BDRVRawState) : res (Z * BDRVRawState) :=
  let f := fd s in
  if (offset <? 0) || negb (writable f) then Ok (- EINVAL, s)
  else
    let c := take (Z.to_nat offset) (contents f ++ replicate (Z.to_nat offset - length (contents f)) 0) in
    Ok (0, set_fd s (mkFile c (position f) (interrupted f) (bad_media f) (writable f) (capacity f))).

Definition bdrv_raw : BlockDriver BDRVRawState :=
  mkDriver raw_read raw_write (Some raw_truncate) (Some raw_getlength) None.

(** ** A file the host reads and writes *)

Definition raw_sound (w : bool) (s : BDRVRawState) : Prop :=
  interrupted (fd s) = 0%nat /\ bad_media (fd s) = false /\ Z.of_nat (length (contents (fd s))) < 2 ^ 63 /\
  (w = true -> writable (fd s) = true /\ Z.of_nat (length (contents (fd s))) <= capacity (fd s)) /\
  (forall a, aligned_buf s = Some a -> low9 (buf_addr a) = 0 /\ length (buf_bytes a) = Z.to_nat ALIGNED_BUFFER_SIZE).

(** The accesses the host takes from the file. *)
Definition aligned (s : BDRVRawState) (offset addr count : Z) : Prop :=
  aligned_buf s <> None -> low9 offset = 0 /\ low9 addr = 0 /\ low9 count = 0.

(** The driver's state after an access: the file is [c], and what else counts
    is kept. *)
Definition left (w : bool) (s : BDRVRawState) (c : list Z) (s' : BDRVRawState) : Prop :=
  raw_sound w s' /\ contents (fd s') = c /\ aligned_buf s' = aligned_buf s.

Lemma low9_mod x : low9 x = x mod 512.
Proof. apply (Z.land_ones x 9). lia. Qed.

Lemma high9_div x : high9 x = x / 512 * 512.
Proof. unfold high9. change 0x1ff with (Z.ones 9). rewrite Z.ldiff_ones_r, Z.shiftl_mul_pow2, Z.shiftr_div_pow2 by lia. done. Qed.

Lemma high9_up x : high9 (x + 0x1ff) = sectors_end x.
Proof. apply high9_div. Qed.

Lemma low9_sectors k : low9 (k * 512) = 0.
Proof. rewrite low9_mod. apply Z.mod_mul. lia. Qed.

Lemma low9_split x : exists k, x = k * 512 + low9 x /\ 0 <= low9 x < 512.
Proof. rewrite low9_mod. exists (x / 512). pose proof (Z.div_mod x 512 ltac:(lia)). pose proof (Z.mod_pos_bound x 512 ltac:(lia)). lia. Qed.

Lemma low9_add x k : low9 (x + k * 512) = low9 x.
Proof. rewrite !low9_mod. apply Z.mod_add. lia. Qed.

Lemma sound_sought w s offset : raw_sound w s -> raw_sound w (set_fd s (set_position (fd s) offset)).
Proof. done. Qed.

Lemma seek_left w s offset : raw_sound w s -> 0 <= offset < 2 ^ 63 ->
  (if 0 <=? offset then set_fd s (lseek_set (fd s) offset) else s) = set_fd s (set_position (fd s) offset).
Proof. intros _ Ho. rewrite (proj2 (Z.leb_le _ _)) by lia. by rewrite lseek_ok. Qed.

Lemma fd_read_ok w s offset buf count :
  raw_sound w s -> 0 <= offset -> 0 <= count <= Z.of_nat (length (buf_bytes buf)) -> aligned s offset (buf_addr buf) count ->
  let d := seg (contents (fd s)) offset count in
  exists s', fd_read buf count (set_fd s (set_position (fd s) offset)) = Ok (Ret (Z.of_nat (length d)), put_at (buf_bytes buf) 0 d, s') /\
    left w s (contents (fd s)) s'.
Proof.
  intros (Hi & Hm & Hsz & Hw & Ha) Ho Hc Hal d. unfold fd_read. rewrite !(proj2 (Z.ltb_ge _ _)) by lia. cbn [orb].
  assert (Hmis : misaligned (set_fd s (set_position (fd s) offset)) (buf_addr buf) count = false).
  { unfold misaligned. cbn. destruct (aligned_buf s) eqn:E; [|done]. destruct Hal as (H1 & H2 & H3); [congruence|]. by rewrite H1, H2, H3. }
  rewrite Hmis. unfold sys_read. cbn [fd set_fd set_position interrupted bad_media position contents]. rewrite Hi, Hm.
  change (take (Z.to_nat count) (drop (Z.to_nat offset) (contents (fd s)))) with d.
  assert (Hd : (length d <= Z.to_nat count)%nat) by (unfold d, seg; rewrite length_take; lia).
  rewrite splice_put_at by lia. eexists. split; [done|]. done.
Qed.

Lemma raw_pread_aligned_ok w s offset buf count :
  raw_sound w s -> 0 <= offset < 2 ^ 63 -> 0 <= count <= Z.of_nat (length (buf_bytes buf)) -> aligned s offset (buf_addr buf) count ->
  let d := seg (contents (fd s)) offset count in
  exists s', raw_pread_aligned offset buf count s = Ok (Z.of_nat (length d), put_at (buf_bytes buf) 0 d, s') /\
    left w s (contents (fd s)) s'.
Proof.
  intros Hs Ho Hc Hal d. unfold raw_pread_aligned. rewrite (seek_left w) by done.
  destruct (fd_read_ok w s offset buf count) as (s1 & -> & Hs1 & Hc1 & Ha1); [done|lia|done|done|]. cbn [rbind or_errno].
  destruct (is_count _ count || _); [by exists s1|]. fold d.
  assert (Hld : (length d <= length (buf_bytes buf))%nat) by (unfold d, seg; rewrite length_take; lia).
  assert (Hbb : put_at (put_at (buf_bytes buf) 0 d) 0 d = put_at (buf_bytes buf) 0 d).
  { rewrite !put_at_front, drop_app_length. done. }
  assert (Hlb : length (put_at (buf_bytes buf) 0 d) = length (buf_bytes buf)) by (rewrite length_put_at; lia).
  assert (again : forall s0, raw_sound w s0 -> contents (fd s0) = contents (fd s) -> aligned_buf s0 = aligned_buf s ->
    exists s', fd_read (mkBuf (buf_addr buf) (put_at (buf_bytes buf) 0 d)) count (set_fd s0 (lseek_set (fd s0) offset)) =
      Ok (Ret (Z.of_nat (length d)), put_at (buf_bytes buf) 0 d, s') /\ left w s (contents (fd s)) s').
  { intros s0 H0 H0c H0a. rewrite lseek_ok by done.
    destruct (fd_read_ok w s0 offset (mkBuf (buf_addr buf) (put_at (buf_bytes buf) 0 d)) count) as (s2 & H2 & H3 & H4 & H5);
      [done|lia|cbn; lia|by unfold aligned; rewrite H0a|]. cbn [buf_bytes] in H2. rewrite H0c in *. fold d in H2. rewrite Hbb in H2.
    exists s2. split; [done|]. split_and!; try done. congruence. }
  destruct (again s1) as (s2 & -> & Hs2 & Hc2 & Ha2); [done..|]. cbn [rbind or_errno].
  destruct (is_count _ _); [by exists s2|]. destruct (again s2) as (s3 & -> & Hl3); [done..|]. cbn [rbind or_errno]. by exists s3.
Qed.

Lemma raw_pwrite_aligned_ok s offset buf count :
  raw_sound true s -> 0 <= offset -> 0 <= count <= Z.of_nat (length (buf_bytes buf)) -> aligned s offset (buf_addr buf) count ->
  offset + count <= Z.of_nat (length (contents (fd s))) ->
  exists s', raw_pwrite_aligned offset buf count s = Ok (count, s') /\
    left true s (put_at (contents (fd s)) (Z.to_nat offset) (seg (buf_bytes buf) 0 count)) s'.
Proof.
  intros Hs Ho Hc Hal Hle. pose proof Hs as (Hi & Hm & Hsz & Hw & Ha). unfold raw_pwrite_aligned. rewrite (seek_left true) by (try done; lia).
  destruct Hw as [Hw Hcap]; [done|]. unfold fd_write. rewrite !(proj2 (Z.ltb_ge _ _)) by lia. cbn [orb].
  assert (Hmis : misaligned (set_fd s (set_position (fd s) offset)) (buf_addr buf) count = false).
  { unfold misaligned. cbn. destruct (aligned_buf s) eqn:E; [|done]. destruct Hal as (H1 & H2 & H3); [congruence|]. by rewrite H1, H2, H3. }
  rewrite Hmis. unfold sys_write. cbn [fd set_fd set_position interrupted bad_media position contents writable capacity]. rewrite Hi, Hw. cbn [negb].
  change (take (Z.to_nat count) (buf_bytes buf)) with (seg (buf_bytes buf) 0 count).
  pose proof (length_seg (buf_bytes buf) 0 count ltac:(lia) ltac:(lia) ltac:(lia)) as Hl. rewrite Hl, Z.min_l by lia.
  destruct ((count <=? 0) && (0 <? count)) eqn:E; [lia|]. cbn [rbind or_errno]. rewrite take_ge by lia.
  eexists. split; [done|]. split; [|done]. unfold raw_sound. cbn. rewrite length_put_at. split_and!; try done; lia.
Qed.

Lemma sound_bounce w s a b : raw_sound w s -> aligned_buf s = Some a -> length b = length (buf_bytes a) ->
  raw_sound w (set_aligned s (Some (mkBuf (buf_addr a) b))).
Proof.
  intros (Hi & Hm & Hsz & Hw & Ha) E Hb. destruct (Ha a E) as [H1 H2]. split_and!; try done. intros ? [= <-]. cbn. split; [done|lia].
Qed.

Lemma sound_buffer w s a : raw_sound w s -> aligned_buf s = Some a -> low9 (buf_addr a) = 0 /\ Z.of_nat (length (buf_bytes a)) = 16384.
Proof. intros (_ & _ & _ & _ & Ha) E. destruct (Ha a E) as [H1 ->]. done. Qed.

(** Whole sectors read into [aligned_buf]. *)
Lemma bounce_read w s a offset size :
  raw_sound w s -> aligned_buf s = Some a -> 0 <= offset < 2 ^ 63 -> low9 offset = 0 -> 0 <= size <= 16384 -> low9 size = 0 ->
  let d := seg (contents (fd s)) offset size in let b := put_at (buf_bytes a) 0 d in
  exists s', raw_pread_aligned offset a size s = Ok (Z.of_nat (length d), b, s') /\
    raw_sound w (set_aligned s' (Some (mkBuf (buf_addr a) b))) /\ contents (fd s') = contents (fd s) /\
    length b = length (buf_bytes a) /\ forall p n, 0 <= p -> 0 <= n -> p + n <= Z.of_nat (length d) -> seg b p n = seg (contents (fd s)) (offset + p) n.
Proof.
  intros Hs E Ho Ho9 Hz Hz9 d b. destruct (sound_buffer w s a Hs E) as [Ha Hl].
  destruct (raw_pread_aligned_ok w s offset a size) as (s' & Hr & Hs' & Hc & Ea); [done|done|lia|done|].
  assert (Hd : Z.of_nat (length d) <= size) by (unfold d, seg; rewrite length_take; lia).
  assert (Hb : length b = length (buf_bytes a)) by (unfold b; rewrite length_put_at; lia).
  exists s'. split_and!; try done. { apply sound_bounce; [done|congruence|done]. }
  intros p n Hp Hn Hpn. rewrite <- (seg_seg (contents (fd s)) offset size p n) by lia. fold d. unfold b. rewrite put_at_front.
  unfold seg. rewrite drop_app_le, take_app_le by (rewrite ?length_drop; lia). done.
Qed.

Lemma bounce_write s a offset size :
  raw_sound true s -> aligned_buf s = Some a -> 0 <= offset -> low9 offset = 0 -> 0 <= size <= 16384 -> low9 size = 0 ->
  offset + size <= Z.of_nat (length (contents (fd s))) ->
  exists s', raw_pwrite_aligned offset a size s = Ok (size, s') /\ raw_sound true s' /\ aligned_buf s' = Some a /\
    contents (fd s') = put_at (contents (fd s)) (Z.to_nat offset) (seg (buf_bytes a) 0 size).
Proof.
  intros Hs E Ho Ho9 Hz Hz9 Hle. destruct (sound_buffer true s a Hs E) as [Ha Hl].
  destruct (raw_pwrite_aligned_ok s offset a size) as (s' & Hr & Hs' & Hc & Ea); [done|done|lia|done|done|].
  exists s'. split_and!; try done. congruence.
Qed.

(** How much a round of the loops moves. *)
Lemma round_size count : 0 < count ->
  let size := if ALIGNED_BUFFER_SIZE <? sectors_end count then ALIGNED_BUFFER_SIZE else sectors_end count in
  0 < size <= 16384 /\ low9 size = 0 /\ (count <= size \/ size = 16384).
Proof.
  intros Hc size. destruct (sectors_end_spec count) as (H1 & k & H2). unfold size. change ALIGNED_BUFFER_SIZE with 16384.
  destruct (Z.ltb_spec 16384 (sectors_end count)); [split_and!; try lia; done|]. split_and!; [lia|lia| |lia]. rewrite H2. apply low9_sectors.
Qed.

Lemma bytes_left l o n : 0 <= o -> 0 <= n -> Z.of_nat (length (seg l o n)) = Z.min n (Z.max 0 (Z.of_nat (length l) - o)).
Proof. intros. unfold seg. rewrite length_take, length_drop. lia. Qed.

Lemma pread_loop_ok w fuel : forall offset buf count sum s,
  raw_sound w s -> aligned_buf s <> None -> (Z.to_nat count <= fuel)%nat -> 0 <= offset -> count = 0 \/ low9 offset = 0 -> 0 <= count <= Z.of_nat (length (buf_bytes buf)) ->
  offset + count <= Z.of_nat (length (contents (fd s))) ->
  exists s', pread_loop fuel offset buf count sum s =
      Ok (sum + count, put_at (buf_bytes buf) 0 (seg (contents (fd s)) offset count), s') /\
    raw_sound w s' /\ contents (fd s') = contents (fd s).
Proof.
  induction fuel as [|fuel IH]; intros offset buf count sum s Hs Ha Hf Ho Ho9 Hc Hle; cbn [pread_loop];
    (destruct (Z.eqb_spec count 0) as [Hz|Hz]; [exists s; subst count; by rewrite seg_nil, put_at_front, Z.add_0_r|]); [lia|].
  destruct Ho9 as [Ho9|Ho9]; [lia|].
  destruct (aligned_buf s) as [a|] eqn:E; [|done]. rewrite high9_up. destruct (round_size count) as (Hsz & Hsz9 & Hcase); [lia|].
  set (size := if ALIGNED_BUFFER_SIZE <? _ then _ else _) in *. clearbody size. pose proof Hs as (_ & _ & H63 & _).
  destruct (bounce_read w s a offset size) as (s1 & -> & Hs1 & Hc1 & Hlb & Hseg); [done|done|lia|done|lia|done|]. cbn [rbind].
  set (b := put_at (buf_bytes a) 0 _) in *. pose proof (bytes_left (contents (fd s)) offset size ltac:(lia) ltac:(lia)) as Hld.
  set (d := seg (contents (fd s)) offset size) in *. rewrite (proj2 (Z.ltb_ge _ 0)) by lia.
  set (n := if count <? Z.of_nat (length d) then count else _). assert (Hn : n = Z.min count size) by (unfold n; destruct (Z.ltb_spec count (Z.of_nat (length d))); lia).
  clearbody n. destruct (sound_buffer w s a Hs E) as [_ Hla]. rewrite memcpy_ok by lia. cbn [rbind]. rewrite Hseg, Z.add_0_r by lia. change (Z.to_nat 0) with 0%nat.
  pose proof (length_seg (contents (fd s)) offset n) as Hln. set (c := put_at (buf_bytes buf) 0 _).
  assert (Hlc : length c = length (buf_bytes buf)) by (unfold c; rewrite length_put_at; lia).
  set (s2 := set_aligned s1 (Some (mkBuf (buf_addr a) b))) in *.
  destruct (IH (offset + n) (skip n (mkBuf (buf_addr buf) c)) (count - n) (sum + n) s2) as (s3 & H3 & Hs3 & Hc3);
    [done|done|lia|lia| |cbn; rewrite length_drop; lia|unfold s2; cbn; rewrite Hc1; lia|].
  { destruct (decide (n = count)); [lia|]. right. replace n with (32 * 512) by lia. by rewrite low9_add. }
  rewrite H3. cbn [rbind skip buf_bytes buf_addr]. exists s3. split; [|split; [done|by rewrite Hc3]]. do 2 f_equal. f_equal; [lia|].
  unfold unskip. rewrite put_at_skip by lia. unfold c. change (contents (fd s2)) with (contents (fd s1)). rewrite Hc1.
  replace (Z.to_nat n) with (0 + length (seg (contents (fd s)) offset n))%nat at 1 by lia. rewrite put_at_app, seg_app by lia.
  by replace (n + (count - n)) with count by lia.
Qed.

Lemma pread_from_sector_ok w offset buf count sum s :
  raw_sound w s -> aligned_buf s = None \/ low9 offset = 0 -> 0 <= offset -> 0 <= count <= Z.of_nat (length (buf_bytes buf)) ->
  offset + count <= Z.of_nat (length (contents (fd s))) ->
  exists s', pread_from_sector offset buf count sum s =
      Ok (sum + count, put_at (buf_bytes buf) 0 (seg (contents (fd s)) offset count), s') /\
    raw_sound w s' /\ contents (fd s') = contents (fd s).
Proof.
  intros Hs Ho9 Ho Hc Hle. pose proof Hs as (_ & _ & H63 & _). unfold pread_from_sector.
  assert (straight : aligned s offset (buf_addr buf) count ->
    exists s', (let! (r, b, s) := raw_pread_aligned offset buf count s in Ok (r + sum, b, s)) =
      Ok (sum + count, put_at (buf_bytes buf) 0 (seg (contents (fd s)) offset count), s') /\ raw_sound w s' /\ contents (fd s') = contents (fd s)).
  { intros Hal. destruct (raw_pread_aligned_ok w s offset buf count) as (s' & -> & Hs' & Hc' & _); [done|lia|lia|done|].
    cbn [rbind]. exists s'. rewrite length_seg by lia. by rewrite Z.add_comm. }
  destruct (aligned_buf s) as [a|] eqn:E; [|apply straight; unfold aligned; congruence].
  destruct Ho9 as [|Ho9]; [done|]. destruct (ctrue (low9 count) || ctrue (low9 (buf_addr buf))) eqn:Eal.
  - apply pread_loop_ok; try done; [congruence|by right].
  - apply straight. intros _. apply orb_false_iff in Eal as [E1 E2]. unfold ctrue in *. lia.
Qed.

Lemma raw_pread_ok w offset buf count s :
  raw_sound w s -> 0 <= offset -> 0 <= count <= Z.of_nat (length (buf_bytes buf)) ->
  offset + count <= Z.of_nat (length (contents (fd s))) ->
  exists s', raw_pread offset buf count s = Ok (count, put_at (buf_bytes buf) 0 (seg (contents (fd s)) offset count), s') /\
    raw_sound w s' /\ contents (fd s') = contents (fd s).
Proof.
  intros Hs Ho Hc Hle. pose proof Hs as (_ & _ & H63 & _). unfold raw_pread.
  destruct (aligned_buf s) as [a|] eqn:E; [|apply pread_from_sector_ok; try done; by left].
  destruct (ctrue (low9 offset)) eqn:E9; [|apply pread_from_sector_ok; try done; right; unfold ctrue in E9; lia].
  destruct (low9_split offset) as (k & Hk & Hk9). set (shift := low9 offset) in *. clearbody shift.
  assert (Hs0 : 0 < shift) by (unfold ctrue in E9; lia). rewrite high9_up. destruct (round_size (shift + count)) as (Hz & Hz9 & Hcase); [lia|].
  set (size := if ALIGNED_BUFFER_SIZE <? _ then _ else _) in *. clearbody size. replace (offset - shift) with (k * 512) by lia.
  destruct (bounce_read w s a (k * 512) size) as (s1 & -> & Hs1 & Hc1 & Hlb & Hseg); [done|done|lia|apply low9_sectors|lia|done|]. cbn [rbind].
  set (b := put_at (buf_bytes a) 0 _) in *. rewrite (proj2 (Z.ltb_ge _ 0)) by lia.
  pose proof (bytes_left (contents (fd s)) (k * 512) size ltac:(lia) ltac:(lia)) as Hld. destruct (low9_split size) as (kz & Hkz & _).
  destruct (sound_buffer w s a Hs E) as [_ Hla].
  set (n := if count <? 512 - shift then count else _). assert (Hn : n = Z.min count (512 - shift)) by (unfold n; destruct (Z.ltb_spec count (512 - shift)); lia).
  clearbody n. rewrite memcpy_ok by lia. cbn [rbind]. rewrite Hseg by lia. replace (k * 512 + shift) with offset by lia. change (Z.to_nat 0) with 0%nat.
  pose proof (length_seg (contents (fd s)) offset n) as Hln. set (c := put_at (buf_bytes buf) 0 _).
  set (s2 := set_aligned s1 (Some (mkBuf (buf_addr a) b))) in *.
  destruct (Z.eqb_spec (count - n) 0) as [Hcn|Hcn]; [exists s2; unfold c; by replace n with count by lia|].
  assert (Hlc : length c = length (buf_bytes buf)) by (unfold c; rewrite length_put_at; lia).
  destruct (pread_from_sector_ok w (offset + n) (skip n (mkBuf (buf_addr buf) c)) (count - n) n s2) as (s3 & -> & Hs3 & Hc3);
    [done|right; replace (offset + n) with ((k + 1) * 512) by lia; apply low9_sectors|lia|cbn; rewrite length_drop; lia|unfold s2; cbn; rewrite Hc1; lia|].
  cbn [rbind skip buf_bytes buf_addr]. exists s3. split; [|split; [done|by rewrite Hc3]]. do 2 f_equal. f_equal; [lia|].
  unfold unskip. rewrite put_at_skip by lia. unfold c. change (contents (fd s2)) with (contents (fd s1)). rewrite Hc1.
  replace (Z.to_nat n) with (0 + length (seg (contents (fd s)) offset n))%nat at 1 by lia. rewrite put_at_app, seg_app by lia.
  by replace (n + (count - n)) with count by lia.
Qed.

Lemma seg_front a d p src : 0 <= p -> p + Z.of_nat (length src) <= Z.of_nat (length d) -> (length d <= length a)%nat ->
  seg (put_at (put_at a 0 d) (Z.to_nat p) src) 0 (Z.of_nat (length d)) = put_at d (Z.to_nat p) src.
Proof.
  intros Hp Hs Hd. apply list_eq. intros i. rewrite lookup_seg, !lookup_put_at, !length_put_at by lia. cbn [Nat.add Z.to_nat]. rewrite Nat2Z.id.
  destruct (decide (i < length d)%nat); [repeat case_decide; try lia; try done; f_equal; lia|].
  repeat case_decide; try lia. by rewrite lookup_ge_None_2 by lia.
Qed.

(** A sector read into [aligned_buf], changed there and written back. *)
Lemma bounce_update s a offset p src n :
  raw_sound true s -> aligned_buf s = Some a -> 0 <= offset -> low9 offset = 0 -> 0 <= p -> 0 <= n -> p + n <= 512 ->
  n <= Z.of_nat (length src) -> offset + 512 <= Z.of_nat (length (contents (fd s))) ->
  exists b s1 b2 s2, raw_pread_aligned offset a 512 s = Ok (512, b, s1) /\ memcpy b p src 0 n = Ok b2 /\
    raw_pwrite_aligned offset (mkBuf (buf_addr a) b2) 512
      (set_aligned (set_aligned s1 (Some (mkBuf (buf_addr a) b))) (Some (mkBuf (buf_addr a) b2))) = Ok (512, s2) /\
    raw_sound true s2 /\ aligned_buf s2 <> None /\
    contents (fd s2) = put_at (contents (fd s)) (Z.to_nat (offset + p)) (seg src 0 n).
Proof.
  intros Hs E Ho Ho9 Hp Hn Hpn Hsrc Hle. pose proof Hs as (_ & _ & H63 & _).
  destruct (sound_buffer true s a Hs E) as [Ha9 Hla]. pose proof (length_seg (contents (fd s)) offset 512) as Hld. pose proof (length_seg src 0 n) as Hls.
  destruct (bounce_read true s a offset 512) as (s1 & Hr & Hs1 & Hc1 & Hlb & _); [done|done|lia|done|lia|done|].
  set (d := seg (contents (fd s)) offset 512) in *. set (b := put_at (buf_bytes a) 0 d) in *. rewrite Hld in Hr by lia.
  set (b2 := put_at b (Z.to_nat p) (seg src 0 n)). assert (Hlb2 : length b2 = length b) by (unfold b2; rewrite length_put_at; lia).
  set (a2 := mkBuf (buf_addr a) b2). set (s2 := set_aligned (set_aligned s1 (Some (mkBuf (buf_addr a) b))) (Some a2)).
  assert (Hs2 : raw_sound true s2) by (apply (sound_bounce true _ (mkBuf (buf_addr a) b) b2 Hs1 eq_refl); done).
  destruct (bounce_write s2 a2 offset 512) as (s3 & Hw & Hs3 & Ha3 & Hc3); [done|done|lia|done|lia|done|unfold s2; cbn; rewrite Hc1; lia|].
  exists b, s1, b2, s3. split_and!; try done; [by rewrite memcpy_ok by lia|congruence|].
  rewrite Hc3. change (contents (fd s2)) with (contents (fd s1)). rewrite Hc1. change (buf_bytes a2) with b2.
  pose proof (seg_front (buf_bytes a) d p (seg src 0 n)) as Hsf. rewrite Hld in Hsf by lia. unfold b2, b. rewrite Hsf by lia. apply put_at_part; lia.
Qed.

Lemma pwrite_loop_ok fuel : forall offset buf count sum s,
  raw_sound true s -> aligned_buf s <> None -> (Z.to_nat count <= fuel)%nat -> 0 <= offset -> low9 offset = 0 ->
  0 <= count <= Z.of_nat (length (buf_bytes buf)) -> offset + sectors_end count <= Z.of_nat (length (contents (fd s))) ->
  exists s', pwrite_loop fuel offset buf count sum s = Ok (sum + count, s') /\ raw_sound true s' /\
    contents (fd s') = put_at (contents (fd s)) (Z.to_nat offset) (seg (buf_bytes buf) 0 count).
Proof.
  induction fuel as [|fuel IH]; intros offset buf count sum s Hs Ha Hf Ho Ho9 Hc Hle; cbn [pwrite_loop];
    (destruct (aligned_buf s) as [a|] eqn:E; [|done]); rewrite high9_div;
    pose proof (Z.div_mod count 512 ltac:(lia)) as Hd; pose proof (Z.mod_pos_bound count 512 ltac:(lia)) as Hm; set (h := count / 512) in *.
  { assert (count = 0) as -> by lia. exists s. change (h * 512 =? 0) with true. cbn. rewrite Z.add_0_r, seg_nil, put_at_nil; [done|].
    change (sectors_end 0) with 0 in Hle. lia. }
  destruct (Z.eqb_spec (h * 512) 0) as [Hh|Hh]; cbn [negb].
  - destruct (Z.eqb_spec count 0) as [Hz|Hz]; cbn [negb].
    { subst count. exists s. rewrite Z.add_0_r, seg_nil, put_at_nil; [done|]. change (sectors_end 0) with 0 in Hle. lia. }
    destruct (bounce_update s a offset 0 (buf_bytes buf) count) as (b & s1 & b2 & s2 & -> & Hmc & Hw & Hs2 & _ & Hc2);
      [try done; sectors..|]. cbn [rbind Z.ltb Z.compare]. rewrite Hmc. cbn [rbind]. rewrite Hw. cbn [rbind Z.ltb Z.compare].
    rewrite (proj2 (Z.ltb_lt count 512)) by lia. exists s2. rewrite Z.add_0_r in Hc2. done.
  - set (size := if ALIGNED_BUFFER_SIZE <? h * 512 then _ else _).
    assert (Hz : exists j, size = j * 512 /\ 0 < size <= 16384 /\ size <= count).
    { unfold size. change ALIGNED_BUFFER_SIZE with 16384. destruct (Z.ltb_spec 16384 (h * 512)); [exists 32|exists h]; lia. }
    destruct Hz as (j & Hj & Hz & Hzc). clearbody size. destruct (sound_buffer true s a Hs E) as [_ Hla].
    assert (Hfit : offset + count <= Z.of_nat (length (contents (fd s)))) by sectors.
    pose proof (length_seg (buf_bytes buf) 0 size) as Hls. rewrite memcpy_ok by lia. cbn [rbind]. set (b := put_at (buf_bytes a) _ _).
    assert (Hlb : length b = length (buf_bytes a)) by (unfold b; rewrite length_put_at; lia).
    destruct (bounce_write (set_aligned s (Some (mkBuf (buf_addr a) b))) (mkBuf (buf_addr a) b) offset size) as (s1 & -> & Hs1 & Ha1 & Hc1);
      [by apply sound_bounce|done|lia|done|lia|rewrite Hj; apply low9_sectors|cbn; lia|].
    cbn [rbind]. rewrite (proj2 (Z.ltb_ge size 0)) by lia. cbn [set_aligned fd buf_bytes] in Hc1.
    assert (Hb : seg b 0 size = seg (buf_bytes buf) 0 size).
    { unfold b. pose proof (seg_put_at (buf_bytes a) 0 (seg (buf_bytes buf) 0 size)) as Hsp. rewrite Hls in Hsp by lia. apply Hsp; lia. }
    rewrite Hb in Hc1. assert (Hlc : length (contents (fd s1)) = length (contents (fd s))) by (rewrite Hc1, length_put_at; lia).
    destruct (IH (offset + size) (skip size buf) (count - size) (sum + size) s1) as (s2 & -> & Hs2 & Hc2);
      [done|congruence|lia|lia|rewrite Hj, low9_add; done|cbn; rewrite length_drop; lia|rewrite Hlc; sectors|].
    exists s2. split; [do 2 f_equal; lia|]. split; [done|]. rewrite Hc2, Hc1. cbn [skip buf_bytes].
    replace (Z.to_nat (offset + size)) with (Z.to_nat offset + length (seg (buf_bytes buf) 0 size))%nat by lia.
    rewrite put_at_app. f_equal. replace count with (size + (count - size)) at 2 by lia. rewrite <- seg_app by lia. done.
Qed.

Lemma pwrite_from_sector_ok offset buf count sum s :
  raw_sound true s -> aligned_buf s = None \/ low9 offset = 0 -> 0 <= offset -> 0 <= count <= Z.of_nat (length (buf_bytes buf)) ->
  offset + count <= Z.of_nat (length (contents (fd s))) ->
  (aligned_buf s <> None -> offset + sectors_end count <= Z.of_nat (length (contents (fd s)))) ->
  exists s', pwrite_from_sector offset buf count sum s = Ok (sum + count, s') /\ raw_sound true s' /\
    contents (fd s') = put_at (contents (fd s)) (Z.to_nat offset) (seg (buf_bytes buf) 0 count).
Proof.
  intros Hs Ho9 Ho Hc Hle Hse. unfold pwrite_from_sector.
  assert (straight : aligned s offset (buf_addr buf) count ->
    exists s', (let! (r, s) := raw_pwrite_aligned offset buf count s in Ok (r + sum, s)) = Ok (sum + count, s') /\ raw_sound true s' /\
      contents (fd s') = put_at (contents (fd s)) (Z.to_nat offset) (seg (buf_bytes buf) 0 count)).
  { intros Hal. destruct (raw_pwrite_aligned_ok s offset buf count) as (s' & -> & Hs' & Hc' & _); [done|lia|lia|done|lia|].
    cbn [rbind]. exists s'. by rewrite Z.add_comm. }
  destruct (aligned_buf s) as [a|] eqn:E; [|apply straight; unfold aligned; congruence].
  destruct Ho9 as [|Ho9]; [done|]. destruct (ctrue (low9 count) || ctrue (low9 (buf_addr buf))) eqn:Eal.
  - apply pwrite_loop_ok; try done; [congruence|by apply Hse].
  - apply straight. intros _. apply orb_false_iff in Eal as [E1 E2]. unfold ctrue in *. lia.
Qed.

Lemma raw_pwrite_ok offset buf count s :
  raw_sound true s -> 0 <= offset -> 0 <= count <= Z.of_nat (length (buf_bytes buf)) ->
  sectors_end (offset + count) <= Z.of_nat (length (contents (fd s))) ->
  exists s', raw_pwrite offset buf count s = Ok (count, s') /\ raw_sound true s' /\
    contents (fd s') = put_at (contents (fd s)) (Z.to_nat offset) (seg (buf_bytes buf) 0 count).
Proof.
  intros Hs Ho Hc Hle. unfold raw_pwrite. destruct (low9_split offset) as (k & Hk & Hk9).
  destruct (aligned_buf s) as [a|] eqn:E; [|apply pwrite_from_sector_ok; try done; [by left|sectors]].
  destruct (ctrue (low9 offset)) eqn:E9; unfold ctrue in E9; [|apply pwrite_from_sector_ok; try done; [right; lia|sectors|intros _; sectors]].
  set (shift := low9 offset) in *. clearbody shift. assert (Hs0 : 0 < shift) by lia. replace (offset - shift) with (k * 512) by lia.
  set (n := if count <? 512 - shift then count else _). assert (Hn : n = Z.min count (512 - shift)) by (unfold n; destruct (Z.ltb_spec count (512 - shift)); lia).
  clearbody n. assert (Hfit : k * 512 + 512 <= Z.of_nat (length (contents (fd s))) /\ offset + count <= Z.of_nat (length (contents (fd s)))) by sectors.
  destruct (bounce_update s a (k * 512) shift (buf_bytes buf) n) as (b & s1 & b2 & s2 & -> & Hmc & Hw & Hs2 & Ha2 & Hc2);
    [try done; try apply low9_sectors; lia..|]. cbn [rbind Z.ltb Z.compare]. rewrite Hmc. cbn [rbind]. rewrite Hw. cbn [rbind Z.ltb Z.compare].
  replace (k * 512 + shift) with offset in Hc2 by lia. destruct (Z.eqb_spec (count - n) 0) as [Hcn|Hcn]; [exists s2; by replace count with n by lia|].
  pose proof (length_seg (buf_bytes buf) 0 n) as Hln.
  assert (Hlc : length (contents (fd s2)) = length (contents (fd s))) by (rewrite Hc2, length_put_at; lia).
  destruct (pwrite_from_sector_ok (offset + n) (skip n buf) (count - n) n s2) as (s3 & -> & Hs3 & Hc3);
    [done|right; replace (offset + n) with ((k + 1) * 512) by lia; apply low9_sectors|lia|cbn; rewrite length_drop; lia|lia|intros _; rewrite Hlc; sectors|].
  exists s3. split; [do 2 f_equal; lia|]. split; [done|]. rewrite Hc3, Hc2. cbn [skip buf_bytes].
  replace (Z.to_nat (offset + n)) with (Z.to_nat offset + length (seg (buf_bytes buf) 0 n))%nat by lia.
  rewrite put_at_app. f_equal. replace count with (n + (count - n)) at 2 by lia. rewrite <- seg_app by lia. done.
Qed.

(** ** The driver keeps what block devices rely on *)

Lemma raw_read_ok w s sector buf nb :
  raw_sound w s -> 0 <= sector -> 0 < nb -> nb * 512 < 2 ^ 31 -> (sector + nb) * 512 <= Z.of_nat (length (contents (fd s))) ->
  nb * 512 <= Z.of_nat (length (buf_bytes buf)) ->
  exists s', raw_read sector buf nb s =
      Ok (0, seg (contents (fd s)) (sector * 512) (nb * 512) ++ drop (Z.to_nat (nb * 512)) (buf_bytes buf), s') /\
    contents (fd s') = contents (fd s) /\ raw_sound w s'.
Proof.
  intros Hs Hse Hn Hn31 Hle Hb. pose proof Hs as (_ & _ & H63 & _). unfold raw_read. rewrite (swrap_small 64), (swrap_small 32) by (simpl; lia).
  destruct (raw_pread_ok w (sector * 512) buf (nb * 512) s) as (s' & -> & Hs' & Hc); [done|lia..|]. cbn [rbind].
  rewrite Z.eqb_refl. exists s'. split; [|done]. rewrite put_at_front. pose proof (length_seg (contents (fd s)) (sector * 512) (nb * 512)).
  by replace (length (seg _ _ _)) with (Z.to_nat (nb * 512)) by lia.
Qed.

Lemma raw_write_ok s sector buf nb :
  raw_sound true s -> 0 <= sector -> 0 < nb -> nb * 512 < 2 ^ 31 -> (sector + nb) * 512 <= Z.of_nat (length (contents (fd s))) ->
  nb * 512 <= Z.of_nat (length (buf_bytes buf)) ->
  exists s', raw_write sector buf nb s = Ok (0, s') /\
    contents (fd s') = put_at (contents (fd s)) (Z.to_nat (sector * 512)) (take (Z.to_nat (nb * 512)) (buf_bytes buf)) /\ raw_sound true s'.
Proof.
  intros Hs Hse Hn Hn31 Hle Hb. pose proof Hs as (_ & _ & H63 & _). unfold raw_write. rewrite (swrap_small 64), (swrap_small 32) by (simpl; lia).
  destruct (raw_pwrite_ok (sector * 512) buf (nb * 512) s) as (s' & -> & Hs' & Hc); [done|lia|lia|sectors|]. cbn [rbind].
  rewrite Z.eqb_refl. by exists s'.
Qed.

#[global] Instance raw_image : BlockImage bdrv_raw.
Proof.
  refine {| image s := contents (fd s); healthy := raw_sound |}.
  - intros w s (_ & _ & H & _). exact H.
  - apply raw_read_ok.
  - apply raw_write_ok.
  - intros f [= <-] w s Hs. unfold raw_getlength, lseek_end. eexists. split; [done|]. done.
  - done.
Defined.

(** C16: A writable device on a raw image, with or without the cache of the
    host, is an array of bytes: every sequence of [bdrv_pread] and
    [bdrv_pwrite] within the image, whatever the alignment of the offsets,
    of the counts and of the buffers, succeeds, reads what the array has and
    leaves in the file what the array becomes. *)
Theorem raw_image_bytes (reqs : list byte_request) (bs : BlockDriverState BDRVRawState) :
  bs_drv bs = Some bdrv_raw -> growable bs = 0 -> read_only bs = 0 -> raw_sound true (opaque bs) ->
  Forall (within (Z.of_nat (length (contents (fd (opaque bs)))))) reqs ->
  exists bs', on_device reqs bs = Ok (fst (on_array reqs (contents (fd (opaque bs)))), bs') /\
    raw_sound true (opaque bs') /\ contents (fd (opaque bs')) = snd (on_array reqs (contents (fd (opaque bs)))).
Proof.
  intros Hd Hg Hro Hs Hr. destruct (on_device_array bdrv_raw reqs bs) as (bs' & H1 & (_ & _ & H2 & _) & H3); [|done|].
  - split_and!; done.
  - by exists bs'.
Qed.

(** A file of five sectors opened without the host's cache, read and written
    across sectors through buffers that are not aligned. *)
Definition demo_raw : BDRVRawState :=
  mkRaw (mkFile (replicate 2560 7) 0 0 false true 4096) BDRV_TYPE_HD (Some (mkBuf 0x10000 (replicate 16384 0))).
Definition demo_bs : BlockDriverState BDRVRawState := mkBs 5 0 0 (Some bdrv_raw) demo_raw.
Definition demo_reqs : list byte_request :=
  [PWrite 510 1030 (mkBuf 0x20001 (replicate 1030 1)) (mkBuf 0x30008 (replicate 512 9));
   PRead 500 1050 (mkBuf 0x20003 (replicate 1050 2)) (mkBuf 0x30008 (replicate 512 9))].

Lemma raw_image_bytes_witness :
  exists bs', on_device demo_reqs demo_bs = Ok (fst (on_array demo_reqs (contents (fd demo_raw))), bs') /\
    raw_sound true (opaque bs') /\ contents (fd (opaque bs')) = snd (on_array demo_reqs (contents (fd demo_raw))).
Proof.
  apply (raw_image_bytes demo_reqs demo_bs); [reflexivity|reflexivity|reflexivity| |].
  - split; [reflexivity|]. split; [reflexivity|]. split; [vm_compute; reflexivity|]. split; [intros _; split; [reflexivity|vm_compute; discriminate]|].
    intros a [= <-]. split; vm_compute; reflexivity.
  - repeat constructor; vm_compute; congruence.
Defined.

(** A raw image opened without the host's cache never returns from a read of
    whole sectors past its end into a buffer that is not aligned: [read]
    gives no byte and the loop goes on. A device that [bdrv_file_open] opened
    is [growable], so that nothing stops such a request. *)
Theorem raw_pread_past_end (w : bool) (fuel : nat) : forall offset buf count sum s,
  raw_sound w s -> aligned_buf s <> None -> low9 offset = 0 -> Z.of_nat (length (contents (fd s))) <= offset < 2 ^ 63 ->
  0 < count -> pread_loop fuel offset buf count sum s = Undef.
Proof.
  induction fuel as [|fuel IH]; intros offset buf count sum s Hs Ha Ho9 Ho Hc; cbn [pread_loop]; rewrite (proj2 (Z.eqb_neq _ _)) by lia; [done|].
  destruct (aligned_buf s) as [a|] eqn:E; [|done]. rewrite high9_up. destruct (round_size count Hc) as (Hz & Hz9 & _).
  set (size := if ALIGNED_BUFFER_SIZE <? _ then _ else _) in *. clearbody size.
  destruct (bounce_read w s a offset size) as (s1 & -> & Hs1 & Hc1 & Hlb & _); [done|done|lia|done|lia|done|]. cbn [rbind].
  rewrite bytes_left by lia. replace (Z.min _ _) with 0 by lia. cbn [Z.ltb Z.compare]. rewrite (proj2 (Z.ltb_ge count 0)) by lia.
  unfold memcpy. destruct ((0 <? 0) || _ || _ || _ || _) eqn:Em; [done|]. cbn [rbind].
  rewrite IH; [done|done|done|by rewrite Z.add_0_r|cbn; rewrite Hc1; lia|lia].
Qed.
