(* ===== verification/GoldfishMmc.v ===== *)
(** * The SD card controller: [hw/goldfish_mmc.c]

    The registers and the commands of the controller, which moves sectors of
    a block device ([Block]) from and to the guest's physical memory
    ([GuestPhys]). *)
From stdpp Require Import list.
From S2P Require Import Prelude Irq GoldfishInterrupt GuestMem GuestPhys GoldfishDevice Savevm HostFile Block RawPosix.
#[local] Open Scope Z_scope.

Definition MMC_INT_STATUS : Z := 0x00.
Definition MMC_INT_ENABLE : Z := 0x04.
Definition MMC_SET_BUFFER : Z := 0x08.
Definition MMC_CMD : Z := 0x0C.
Definition MMC_ARG : Z := 0x10.
Definition MMC_RESP_0 : Z := 0x14.
Definition MMC_RESP_1 : Z := 0x18.
Definition MMC_RESP_2 : Z := 0x1C.
Definition MMC_RESP_3 : Z := 0x20.
Definition MMC_BLOCK_LENGTH : Z := 0x24.
Definition MMC_BLOCK_COUNT : Z := 0x28.
Definition MMC_STATE : Z := 0x2C.
Definition MMC_STAT_END_OF_CMD : Z := Z.shiftl 1 0.
Definition MMC_STAT_END_OF_DATA : Z := Z.shiftl 1 1.
Definition MMC_STAT_STATE_CHANGE : Z := Z.shiftl 1 2.
Definition MMC_STATE_INSERTED : Z := Z.shiftl 1 0.
Definition MMC_STATE_READ_ONLY : Z := Z.shiftl 1 1.

(** The commands of [hw/mmc.h] and [hw/sd.h] the controller knows. *)
Definition MMC_ALL_SEND_CID : Z := 2.
Definition MMC_SET_RELATIVE_ADDR : Z := 3.
Definition MMC_SWITCH : Z := 6.
Definition MMC_SELECT_CARD : Z := 7.
Definition MMC_SEND_EXT_CSD : Z := 8.
Definition MMC_SEND_CSD : Z := 9.
Definition MMC_STOP_TRANSMISSION : Z := 12.
Definition MMC_SEND_STATUS : Z := 13.
Definition MMC_SET_BLOCKLEN : Z := 16.
Definition MMC_READ_SINGLE_BLOCK : Z := 17.
Definition MMC_READ_MULTIPLE_BLOCK : Z := 18.
Definition MMC_WRITE_BLOCK : Z := 24.
Definition MMC_WRITE_MULTIPLE_BLOCK : Z := 25.
Definition MMC_APP_CMD : Z := 55.
Definition SD_APP_OP_COND : Z := 41.
Definition SD_APP_SEND_SCR : Z := 51.
Definition R1_READY_FOR_DATA : Z := Z.shiftl 1 8.
Definition R1_APP_CMD : Z := Z.shiftl 1 5.
Definition SET_R1_CURRENT_STATE (s : Z) : Z := Z.land (Z.shiftl s 9) 0x00001E00.

Record goldfish_mmc_state (D : Type) := mkMmc {
  dev : goldfish_device;
  bs : BlockDriverState D;
  buffer_address : Z;
  read_offset : Z;
  write_offset : Z;
  int_status : Z;
  int_enable : Z;
  arg : Z;
  resp0 : Z; resp1 : Z; resp2 : Z; resp3 : Z;
  block_length : Z;
  block_count : Z;
  is_SDHC : Z;
  buf : hbuf
}.
Arguments mkMmc {D}. Arguments dev {D}. Arguments bs {D}. Arguments buffer_address {D}. Arguments read_offset {D}.
Arguments write_offset {D}. Arguments int_status {D}. Arguments int_enable {D}. Arguments arg {D}. Arguments resp0 {D}.
Arguments resp1 {D}. Arguments resp2 {D}. Arguments resp3 {D}. Arguments block_length {D}. Arguments block_count {D}.
Arguments is_SDHC {D}. Arguments buf {D}.

Section Setters.
Context {D : Type} (s : goldfish_mmc_state D).
Definition set_bs (b : BlockDriverState D) := mkMmc (dev s) b (buffer_address s) (read_offset s) (write_offset s) (int_status s) (int_enable s) (arg s)
  (resp0 s) (resp1 s) (resp2 s) (resp3 s) (block_length s) (block_count s) (is_SDHC s) (buf s).
Definition set_buf b := mkMmc (dev s) (bs s) (buffer_address s) (read_offset s) (write_offset s) (int_status s) (int_enable s) (arg s)
  (resp0 s) (resp1 s) (resp2 s) (resp3 s) (block_length s) (block_count s) (is_SDHC s) (mkBuf (buf_addr (buf s)) b).
Definition set_buffer_address a := mkMmc (dev s) (bs s) a (read_offset s) (write_offset s) (int_status s) (int_enable s) (arg s)
  (resp0 s) (resp1 s) (resp2 s) (resp3 s) (block_length s) (block_count s) (is_SDHC s) (buf s).
Definition set_int st en := mkMmc (dev s) (bs s) (buffer_address s) (read_offset s) (write_offset s) st en (arg s)
  (resp0 s) (resp1 s) (resp2 s) (resp3 s) (block_length s) (block_count s) (is_SDHC s) (buf s).
Definition set_arg a := mkMmc (dev s) (bs s) (buffer_address s) (read_offset s) (write_offset s) (int_status s) (int_enable s) a
  (resp0 s) (resp1 s) (resp2 s) (resp3 s) (block_length s) (block_count s) (is_SDHC s) (buf s).
Definition set_resp a b c d := mkMmc (dev s) (bs s) (buffer_address s) (read_offset s) (write_offset s) (int_status s) (int_enable s) (arg s)
  a b c d (block_length s) (block_count s) (is_SDHC s) (buf s).
Definition set_resp0 a := set_resp a (resp1 s) (resp2 s) (resp3 s).
Definition set_block_length l := mkMmc (dev s) (bs s) (buffer_address s) (read_offset s) (write_offset s) (int_status s) (int_enable s) (arg s)
  (resp0 s) (resp1 s) (resp2 s) (resp3 s) l (block_count s) (is_SDHC s) (buf s).
Definition set_block_count n := mkMmc (dev s) (bs s) (buffer_address s) (read_offset s) (write_offset s) (int_status s) (int_enable s) (arg s)
  (resp0 s) (resp1 s) (resp2 s) (resp3 s) (block_length s) n (is_SDHC s) (buf s).
Definition set_is_SDHC h := mkMmc (dev s) (bs s) (buffer_address s) (read_offset s) (write_offset s) (int_status s) (int_enable s) (arg s)
  (resp0 s) (resp1 s) (resp2 s) (resp3 s) (block_length s) (block_count s) h (buf s).
End Setters.

(** ** Snapshots *)

Definition GOLDFISH_MMC_SAVE_VERSION : Z := 2.

(** The field list; offsets are counted from [buffer_address]. *)
Definition goldfish_mmc_fields : list QField :=
  map (mkQField Q_FIELD_INT32) [0; 4; 8; 12; 16; 20; 24; 28; 32; 36; 40; 44; 48] ++ [mkQField Q_FIELD_END 0].

Definition mmc_field {D} (s : goldfish_mmc_state D) (offset : Z) (n : nat) : Z :=
  u32 (default 0 ([buffer_address s; read_offset s; write_offset s; int_status s; int_enable s; arg s; resp0 s; resp1 s; resp2 s; resp3 s;
                   block_length s; block_count s; is_SDHC s] !! Z.to_nat (offset / 4))).

(** A word stored at an offset; [is_SDHC] is an [int]. *)
Definition set_mmc_field {D} (offset : Z) (n : nat) (v : Z) (s : goldfish_mmc_state D) : goldfish_mmc_state D :=
  let '(mkMmc d b ba ro wo st en ag r0 r1 r2 r3 bl bc sd bf) := s in
  match Z.to_nat (offset / 4) with
  | 0 => mkMmc d b v ro wo st en ag r0 r1 r2 r3 bl bc sd bf
  | 1 => mkMmc d b ba v wo st en ag r0 r1 r2 r3 bl bc sd bf
  | 2 => mkMmc d b ba ro v st en ag r0 r1 r2 r3 bl bc sd bf
  | 3 => mkMmc d b ba ro wo v en ag r0 r1 r2 r3 bl bc sd bf
  | 4 => mkMmc d b ba ro wo st v ag r0 r1 r2 r3 bl bc sd bf
  | 5 => mkMmc d b ba ro wo st en v r0 r1 r2 r3 bl bc sd bf
  | 6 => mkMmc d b ba ro wo st en ag v r1 r2 r3 bl bc sd bf
  | 7 => mkMmc d b ba ro wo st en ag r0 v r2 r3 bl bc sd bf
  | 8 => mkMmc d b ba ro wo st en ag r0 r1 v r3 bl bc sd bf
  | 9 => mkMmc d b ba ro wo st en ag r0 r1 r2 v bl bc sd bf
  | 10 => mkMmc d b ba ro wo st en ag r0 r1 r2 r3 v bc sd bf
  | 11 => mkMmc d b ba ro wo st en ag r0 r1 r2 r3 bl v sd bf
  | _ => mkMmc d b ba ro wo st en ag r0 r1 r2 r3 bl bc (s32 v) bf
  end%nat.

Definition goldfish_mmc_save {D} (f : QEMUFile) (s : goldfish_mmc_state D) : res QEMUFile :=
  qemu_put_struct (mmc_field s) (fun _ _ => []) goldfish_mmc_fields f.

Definition goldfish_mmc_load {D} (f : QEMUFile) (s : goldfish_mmc_state D) (version_id : Z)
  : res (Z * goldfish_mmc_state D * QEMUFile) :=
  if negb (version_id =? GOLDFISH_MMC_SAVE_VERSION) then Ok (-1, s, f)
  else qemu_get_struct goldfish_mmc_fields set_mmc_field (fun _ _ s => s) s f.

(** ** Commands *)

Section Mmc.
Context {D M W : Type} (pic : list (qemu_irq W)) `{GM : GuestMemory M}.
Implicit Types s : goldfish_mmc_state D.

(** [goldfish_mmc_bdrv_read]: a sector at a time through [buf], until an
    error. *)
Fixpoint bdrv_read_loop (num_sectors : nat) (sector_number dst_address : Z) s (m : M) : res (Z * goldfish_mmc_state D * M) :=
  match num_sectors with
  | O => Ok (0, s, m)
  | S num_sectors =>
      let! (ret, b, bs) := bdrv_read sector_number (buf s) 1 (bs s) in
      let s := set_buf (set_bs s bs) b in
      if ret <? 0 then Ok (ret, s, m)
      else
        let! (_, m) := gm_write dst_address (take 512 b) m in
        bdrv_read_loop num_sectors (sector_number + 1) (u32 (dst_address + 512)) s m
  end.
Definition goldfish_mmc_bdrv_read s (sector_number dst_address num_sectors : Z) (m : M) :=
  bdrv_read_loop (Z.to_nat num_sectors) sector_number dst_address s m.

Fixpoint bdrv_write_loop (num_sectors : nat) (sector_number dst_address : Z) s (m : M) : res (Z * goldfish_mmc_state D * M) :=
  match num_sectors with
  | O => Ok (0, s, m)
  | S num_sectors =>
      let! (_, b, m) := gm_read dst_address 512 m in
      let s := set_buf s (splice (buf_bytes (buf s)) 0 b) in
      let! (ret, bs) := bdrv_write sector_number (buf s) 1 (bs s) in
      let s := set_bs s bs in
      if ret <? 0 then Ok (ret, s, m)
      else bdrv_write_loop num_sectors (sector_number + 1) (u32 (dst_address + 512)) s m
  end.
Definition goldfish_mmc_bdrv_write s (sector_number dst_address num_sectors : Z) (m : M) :=
  bdrv_write_loop (Z.to_nat num_sectors) sector_number dst_address s m.

(** [while (capacity > 4096)] of [MMC_SEND_CSD]: [exponent] has 8 bits, and
    a 64-bit capacity is 0 after 64 rounds. *)
Fixpoint scale_capacity (fuel : nat) (exponent capacity : Z) : Z * Z :=
  if capacity <=? 4096 then (exponent, capacity)
  else match fuel with
       | O => (exponent, capacity)
       | S fuel => scale_capacity fuel (u8 (exponent + 1)) (Z.shiftr capacity 1)
       end.

(** [MMC_SEND_CSD]. *)
Definition send_csd s : res (goldfish_mmc_state D) :=
  let '(sector_count, bs) := bdrv_get_geometry (bs s) in
  let s := set_bs s bs in
  let capacity := u64 (s64 sector_count * 512) in
  if 2147483648 <? capacity then
    let s := set_is_SDHC s 1 in
    let m := u32 (u32 (capacity / (512 * 1024)) - 1) in
    if ctrue (Z.land m 0xFFC00000) then Abort
    else Ok (set_resp s 0x0A4040DF (Z.lor 0x00007F80 (u32 (Z.shiftl (Z.land m 0x0000FFFF) 16)))
               (Z.lor 0x5B590000 (Z.shiftr m 16)) 0x400E0032)
  else
    let s := set_is_SDHC s 0 in
    let capacity := Z.shiftr capacity 10 in
    let '(exponent, capacity) := scale_capacity 64 0 capacity in
    let capacity := u64 (capacity - 1) in
    if exponent <? 2 then Abort
    else
      let exponent := exponent - 2 in
      if 7 <? exponent then Abort
      else
        let resp2 := Z.lor 0x5F5A8000 (Z.land (Z.shiftr (u32 capacity) 2) 0x3FF) in
        let resp1 := Z.lor 0x3EF84FFF (u32 (Z.shiftl (Z.land (u32 capacity) 3) 30)) in
        let resp1 := Z.lor resp1 (Z.shiftl exponent (47 - 32)) in
        Ok (set_resp s 0x928040CB resp1 resp2 0x00260032).

(** The argument of a transfer as a sector number: a division by
    zero is undefined. *)
Definition transfer_sector s (arg : Z) : res Z :=
  if ctrue (is_SDHC s) then Ok arg
  else if block_length s =? 0 then Undef else Ok (arg / block_length s).

(** [MMC_READ_SINGLE_BLOCK] and [MMC_READ_MULTIPLE_BLOCK]; the result of the
    transfer is not used. *)
Definition read_blocks s (arg : Z) (m : M) : res (goldfish_mmc_state D * M) :=
  let! arg := transfer_sector s arg in
  let! (result, s, m) := goldfish_mmc_bdrv_read s arg (buffer_address s) (s32 (block_count s)) m in
  Ok (set_resp0 s (Z.lor (SET_R1_CURRENT_STATE 4) R1_READY_FOR_DATA), m).

Definition write_blocks s (arg : Z) (m : M) : res (goldfish_mmc_state D * M) :=
  let! arg := transfer_sector s arg in
  let! (result, s, m) := goldfish_mmc_bdrv_write s arg (buffer_address s) (s32 (block_count s)) m in
  Ok (set_resp0 s (Z.lor (SET_R1_CURRENT_STATE 4) R1_READY_FOR_DATA), m).

Definition r1_app : Z := Z.lor (Z.lor (SET_R1_CURRENT_STATE 4) R1_READY_FOR_DATA) R1_APP_CMD.

(** The [switch] of [goldfish_mmc_do_command]: the state, the memory, and
    whether data was moved. *)
Definition mmc_opcode s (opcode arg : Z) (m : M) : res (goldfish_mmc_state D * M * bool) :=
  if opcode =? MMC_SEND_CSD then let! s := send_csd s in Ok (s, m, false)
  else if opcode =? MMC_SEND_EXT_CSD then Ok (set_resp0 s arg, m, false)
  else if opcode =? MMC_APP_CMD then Ok (set_resp0 s r1_app, m, false)
  else if opcode =? SD_APP_OP_COND then Ok (set_resp0 s 0x80FF8000, m, false)
  else if opcode =? SD_APP_SEND_SCR then
    let! (_, m) := gm_write (buffer_address s) [0x02; 0x25; 0; 0; 0; 0; 0; 0] m in
    Ok (set_resp0 s r1_app, m, true)
  else if opcode =? MMC_SET_RELATIVE_ADDR then Ok (set_resp0 s (u32 (-518519520)), m, false)
  else if opcode =? MMC_ALL_SEND_CID then
    Ok (set_resp s (u32 (-436179883)) (u32 (-2147479692)) 1429221959 55788627, m, false)
  else if opcode =? MMC_SELECT_CARD then
    Ok (set_resp0 s (Z.lor (SET_R1_CURRENT_STATE 3) R1_READY_FOR_DATA), m, false)
  else if opcode =? MMC_SWITCH then
    let! (m, data) :=
      if (arg =? 0x00FFFFF1) || (arg =? 0x80FFFFF1) then
        let! (_, m) := gm_write (buffer_address s) (<[13%nat := 2]> (replicate 64 0)) m in Ok (m, true)
      else Ok (m, false) in
    Ok (set_resp0 s r1_app, m, data)
  else if opcode =? MMC_SET_BLOCKLEN then
    Ok (set_resp0 (set_block_length s arg) (Z.lor (SET_R1_CURRENT_STATE 4) R1_READY_FOR_DATA), m, false)
  else if (opcode =? MMC_READ_SINGLE_BLOCK) || (opcode =? MMC_READ_MULTIPLE_BLOCK) then
    let s := if opcode =? MMC_READ_SINGLE_BLOCK then set_block_count s 1 else s in
    let! (s, m) := read_blocks s arg m in Ok (s, m, true)
  else if (opcode =? MMC_WRITE_BLOCK) || (opcode =? MMC_WRITE_MULTIPLE_BLOCK) then
    let s := if opcode =? MMC_WRITE_BLOCK then set_block_count s 1 else s in
    let! (s, m) := write_blocks s arg m in Ok (s, m, true)
  else if opcode =? MMC_STOP_TRANSMISSION then
    Ok (set_resp0 s (Z.lor (SET_R1_CURRENT_STATE 5) R1_READY_FOR_DATA), m, false)
  else if opcode =? MMC_SEND_STATUS then
    Ok (set_resp0 s (Z.lor (SET_R1_CURRENT_STATE 4) R1_READY_FOR_DATA), m, false)
  else Ok (s, m, false).

Definition goldfish_mmc_do_command s (cmd arg : Z) (w : W) (m : M) : res (goldfish_mmc_state D * W * M) :=
  let opcode := Z.land cmd 63 in
  let! (s, m, data) := mmc_opcode (set_resp s 0 0 0 0) opcode arg m in
  let new_status := if data : bool then Z.lor MMC_STAT_END_OF_CMD MMC_STAT_END_OF_DATA else MMC_STAT_END_OF_CMD in
  let s := set_int s (Z.lor (int_status s) new_status) (int_enable s) in
  let! w := if ctrue (Z.land (int_status s) (int_enable s))
            then goldfish_device_set_irq pic (dev s) 0 (Z.land (int_status s) (int_enable s)) w else Ok w in
  Ok (s, w, m).

(** ** Registers *)

Definition goldfish_mmc_read (offset : Z) s : res Z :=
  if offset =? MMC_INT_STATUS then Ok (Z.land (int_status s) (int_enable s))
  else if offset =? MMC_RESP_0 then Ok (resp0 s)
  else if offset =? MMC_RESP_1 then Ok (resp1 s)
  else if offset =? MMC_RESP_2 then Ok (resp2 s)
  else if offset =? MMC_RESP_3 then Ok (resp3 s)
  else if offset =? MMC_STATE then
    Ok (if ctrue (bdrv_is_read_only (bs s)) then Z.lor MMC_STATE_INSERTED MMC_STATE_READ_ONLY else MMC_STATE_INSERTED)
  else Abort.

Definition goldfish_mmc_write (offset val : Z) s (w : W) (m : M) : res (goldfish_mmc_state D * W * M) :=
  if offset =? MMC_INT_STATUS then
    let old_status := int_status s in
    let status := Z.ldiff old_status val in
    let s := set_int s status (int_enable s) in
    let! w := if negb (status =? old_status) then goldfish_device_set_irq pic (dev s) 0 status w else Ok w in
    Ok (s, w, m)
  else if offset =? MMC_INT_ENABLE then
    let s := set_int s 0 val in
    let! w := goldfish_device_set_irq pic (dev s) 0 (Z.land (int_status s) (int_enable s)) w in
    Ok (s, w, m)
  else if offset =? MMC_SET_BUFFER then Ok (set_buffer_address s val, w, m)
  else if offset =? MMC_CMD then goldfish_mmc_do_command s val (arg s) w m
  else if offset =? MMC_ARG then Ok (set_arg s val, w, m)
  else if offset =? MMC_BLOCK_LENGTH then Ok (set_block_length s (u32 (val + 1)), w, m)
  else if offset =? MMC_BLOCK_COUNT then Ok (set_block_count s (u32 (val + 1)), w, m)
  else Abort.

(** [goldfish_mmc_init]: the zeroed state, given the device as the bus has
    allocated it; [qemu_memalign] gives the buffer of a sector at the address
    [at_], a multiple of 512, with whatever the host's memory holds. *)
Definition goldfish_mmc_init (d : goldfish_device) (b : BlockDriverState D) (at_ : Z) (garbage : list Z) : goldfish_mmc_state D :=
  mkMmc d b 0 0 0 0 0 0 0 0 0 0 0 0 0 (mkBuf at_ garbage).
End Mmc.

(** ** The size of the card as the guest sees it *)

(** [UNSTUFF_BITS] on a response: [size] bits from bit [start] on. *)
Definition response {D} (s : goldfish_mmc_state D) : Z :=
  resp0 s + resp1 s * 2 ^ 32 + resp2 s * 2 ^ 64 + resp3 s * 2 ^ 96.
Definition unstuff_bits (r start size : Z) : Z := (r / 2 ^ start) mod 2 ^ size.

(** The capacity in bytes that the card-specific data announces: of a high
    capacity card, whose structure version is 1, in units of 512 KiB; of a
    standard card by a mantissa, an exponent and a block length. *)
Definition csd_capacity (r : Z) : Z :=
  if unstuff_bits r 126 2 =? 1 then (1 + unstuff_bits r 48 22) * 524288
  else Z.shiftl (1 + unstuff_bits r 62 12) (unstuff_bits r 47 3 + 2) * 2 ^ unstuff_bits r 80 4.

Lemma scale_capacity_spec fuel : forall e c,
  0 <= e -> e + Z.of_nat fuel < 256 -> 0 <= c <= 4096 * 2 ^ Z.of_nat fuel ->
  exists k, 0 <= k <= Z.of_nat fuel /\ scale_capacity fuel e c = (e + k, c / 2 ^ k) /\ c / 2 ^ k <= 4096 /\
    (0 < k -> 4097 * 2 ^ k <= 2 * c).
Proof.
  induction fuel as [|fuel IH]; intros e c He Hf Hc; cbn [scale_capacity]; destruct (Z.leb_spec c 4096) as [Hle|Hgt];
    try (exists 0; change (2 ^ 0) with 1; rewrite Z.div_1_r; split_and!; [lia|lia|f_equal; lia|done|lia]).
  { change (4096 * 2 ^ Z.of_nat 0) with 4096 in Hc. lia. }
  rewrite (uwrap_small 8) by lia. rewrite Z.shiftr_div_pow2 by lia. change (2 ^ 1) with 2.
  rewrite Nat2Z.inj_succ, Z.pow_succ_r in Hc by lia. pose proof (Z.div_mod c 2 ltac:(lia)). pose proof (Z.mod_pos_bound c 2 ltac:(lia)).
  destruct (IH (e + 1) (c / 2)) as (k & Hk & -> & Hle & Hlow); [lia|lia|lia|].
  exists (k + 1). rewrite Z.pow_add_r, (Z.mul_comm _ (2 ^ 1)), <- Z.div_div by lia. change (2 ^ 1) with 2.
  split_and!; [lia|lia|f_equal; lia|done|]. intros _. destruct (decide (k = 0)) as [->|Hk0]; [lia|]. specialize (Hlow ltac:(lia)). lia.
Qed.

(** Numbers put next to each other. *)
Lemma lor_above a b k : 0 <= k -> 0 <= a < 2 ^ k -> Z.lor a (Z.shiftl b k) = a + b * 2 ^ k.
Proof.
  intros Hk Ha. rewrite Z.shiftl_mul_pow2 by lia. rewrite <- Z.lxor_lor, <- Z.add_nocarry_lxor; [done|..];
    apply Z.bits_inj'; intros i Hi; rewrite Z.land_spec, Z.bits_0; (destruct (decide (i < k)) as [Hlt|Hge];
    [rewrite Z.mul_pow2_bits_low by lia; apply andb_false_r|]);
    rewrite <- (Z.mod_small a (2 ^ k)) by lia; rewrite Z.mod_pow2_bits_high by lia; done.
Qed.

Lemma sdhc_capacity n r0 r3 : 1 <= n <= 2 ^ 22 -> 0 <= r0 < 2 ^ 32 -> r3 = 0x400E0032 ->
  let m := u32 (n - 1) in
  Z.land m 0xFFC00000 = 0 /\
  csd_capacity (r0 + Z.lor 0x00007F80 (u32 (Z.shiftl (Z.land m 0x0000FFFF) 16)) * 2 ^ 32 +
    Z.lor 0x5B590000 (Z.shiftr m 16) * 2 ^ 64 + r3 * 2 ^ 96) = n * 524288.
Proof.
  intros Hn Hr0 -> m. assert (Hm : m = n - 1) by (apply uwrap_small; lia). clearbody m.
  pose proof (Z.div_mod m 65536 ltac:(lia)) as Hd. pose proof (Z.mod_pos_bound m 65536 ltac:(lia)) as Hb.
  assert (E0 : Z.land m 0xFFC00000 = 0).
  { change 0xFFC00000 with (Z.shiftl 1023 22). apply Z.bits_inj'. intros i Hi. rewrite Z.land_spec, Z.bits_0.
    destruct (decide (i < 22)); [rewrite Z.shiftl_spec_low by lia; apply andb_false_r|].
    rewrite <- (Z.mod_small m (2 ^ 22)) by lia. rewrite Z.mod_pow2_bits_high by lia. done. }
  assert (E1 : Z.lor 0x00007F80 (u32 (Z.shiftl (Z.land m 0x0000FFFF) 16)) = 0x7F80 + m mod 65536 * 65536).
  { change 0x0000FFFF with (Z.ones 16). rewrite Z.land_ones by lia. rewrite uwrap_small; [apply lor_above; lia|].
    rewrite Z.shiftl_mul_pow2 by lia. change (2 ^ 16) with 65536. lia. }
  assert (E2 : Z.lor 0x5B590000 (Z.shiftr m 16) = m / 65536 + 0x5B59 * 65536).
  { rewrite Z.shiftr_div_pow2, Z.lor_comm by lia. change (2 ^ 16) with 65536. apply (lor_above (m / 65536) 0x5B59 16); lia. }
  split; [done|]. rewrite E1, E2. set (a := m mod 65536) in *. set (b := m / 65536) in *. clearbody a b.
  set (R := r0 + _ + _ + _). unfold csd_capacity, unstuff_bits.
  assert (V : (R / 2 ^ 126) mod 2 ^ 2 = 1).
  { replace (R / 2 ^ 126) with 1; [done|]. apply (Z.div_unique R (2 ^ 126) 1 (R - 2 ^ 126)); [left; unfold R|]; lia. }
  rewrite V. cbn [Z.eqb Pos.eqb]. assert (C : (R / 2 ^ 48) mod 2 ^ 22 = m).
  { replace (R / 2 ^ 48) with (a + (b + 0x5B59 * 65536) * 65536 + 0x400E0032 * 2 ^ 48).
    - symmetry. apply (Z.mod_unique _ _ (0x5B59 * 1024 + 0x400E0032 * 2 ^ 26)); [left|]; lia.
    - apply (Z.div_unique R (2 ^ 48) _ (r0 + 0x7F80 * 2 ^ 32)); [left|unfold R]; lia. }
  rewrite C. lia.
Qed.

(** The responses of a standard card, for every exponent and every two low
    bits of the mantissa. *)
Lemma sd_resp1 l x : 0 <= l < 4 -> 0 <= x < 8 ->
  Z.lor (Z.lor 0x3EF84FFF (u32 (Z.shiftl l 30))) (Z.shiftl x 15) = 0x3EF84FFF + l * 2 ^ 30 + x * 2 ^ 15.
Proof.
  intros Hl Hx. assert (l = 0 \/ l = 1 \/ l = 2 \/ l = 3) as H by lia.
  assert (x = 0 \/ x = 1 \/ x = 2 \/ x = 3 \/ x = 4 \/ x = 5 \/ x = 6 \/ x = 7) as H' by lia.
  destruct H as [->|[->|[->| ->]]], H' as [->|[->|[->|[->|[->|[->|[->| ->]]]]]]]; reflexivity.
Qed.

Lemma standard_capacity c x r0 : 1 <= c <= 4096 -> 0 <= x < 8 -> 0 <= r0 < 2 ^ 32 ->
  csd_capacity (r0 + Z.lor (Z.lor 0x3EF84FFF (u32 (Z.shiftl (Z.land (u32 (c - 1)) 3) 30))) (Z.shiftl x 15) * 2 ^ 32 +
    Z.lor 0x5F5A8000 (Z.land (Z.shiftr (u32 (c - 1)) 2) 0x3FF) * 2 ^ 64 + 0x00260032 * 2 ^ 96) = c * 2 ^ (x + 2) * 1024.
Proof.
  intros Hc Hx Hr0. rewrite (uwrap_small 32 (c - 1)) by lia. set (m := c - 1). assert (Hm : m = c - 1) by done. clearbody m.
  pose proof (Z.div_mod m 4 ltac:(lia)) as Hd. pose proof (Z.mod_pos_bound m 4 ltac:(lia)) as Hb.
  rewrite Z.shiftr_div_pow2 by lia. change (2 ^ 2) with 4. replace (Z.land m 3) with (m mod 4) by (symmetry; apply (Z.land_ones m 2); lia).
  rewrite sd_resp1 by lia. replace (Z.land (m / 4) 0x3FF) with (m / 4) by (symmetry; etransitivity; [apply (Z.land_ones (m / 4) 10); lia|apply Z.mod_small; lia]).
  assert (E2 : Z.lor 0x5F5A8000 (m / 4) = m / 4 + 0x17D6A0 * 2 ^ 10) by (rewrite Z.lor_comm; apply (lor_above (m / 4) 0x17D6A0 10); lia).
  rewrite E2. set (l := m mod 4) in *. set (h := m / 4) in *. clearbody l h. set (R := r0 + _ + _ + _). unfold csd_capacity, unstuff_bits.
  assert (V : (R / 2 ^ 126) mod 2 ^ 2 = 0).
  { replace (R / 2 ^ 126) with 0; [done|]. apply (Z.div_unique R (2 ^ 126) 0 R); [left; unfold R|]; lia. }
  rewrite V. cbn [Z.eqb].
  assert (Hmant : (R / 2 ^ 62) mod 2 ^ 12 = m).
  { replace (R / 2 ^ 62) with (l + (h + 0x17D6A0 * 2 ^ 10) * 4 + 0x00260032 * 2 ^ 34).
    - symmetry. apply (Z.mod_unique _ _ (0x17D6A0 + 0x00260032 * 2 ^ 22)); [left|]; lia.
    - apply (Z.div_unique R (2 ^ 62) _ (r0 + (0x3EF84FFF + x * 2 ^ 15) * 2 ^ 32)); [left|unfold R]; lia. }
  assert (Hexp : (R / 2 ^ 47) mod 2 ^ 3 = x).
  { replace (R / 2 ^ 47) with (x + 0x7DF0 + l * 2 ^ 15 + (h + 0x17D6A0 * 2 ^ 10) * 2 ^ 17 + 0x00260032 * 2 ^ 49).
    - symmetry. apply (Z.mod_unique _ _ (0xFBE + l * 2 ^ 12 + (h + 0x17D6A0 * 2 ^ 10) * 2 ^ 14 + 0x00260032 * 2 ^ 46)); [left|]; lia.
    - apply (Z.div_unique R (2 ^ 47) _ (r0 + 0x4FFF * 2 ^ 32)); [left|unfold R]; lia. }
  assert (Hbl : (R / 2 ^ 80) mod 2 ^ 4 = 10).
  { replace (R / 2 ^ 80) with (0x5F5A + 0x00260032 * 2 ^ 16).
    - symmetry. apply (Z.mod_unique _ _ (0x5F5 + 0x00260032 * 2 ^ 12)); [left|]; lia.
    - apply (Z.div_unique R (2 ^ 80) _ (r0 + (0x3EF84FFF + l * 2 ^ 30 + x * 2 ^ 15) * 2 ^ 32 + (h + 0x8000) * 2 ^ 64)); [left|unfold R]; lia. }
  rewrite Hmant, Hexp, Hbl, Z.shiftl_mul_pow2 by lia. rewrite Hm. change (2 ^ 10) with 1024. f_equal. f_equal. lia.
Qed.

(** ** Commands on a card *)

Section Card.
Context {D M W : Type} (pic : list (qemu_irq W)) `{P : PicLines W pic} `{GM : GuestMemory M}.
Context (drv : BlockDriver D) `{BI : !BlockImage drv}.
Implicit Types s : goldfish_mmc_state D.

(** The controller with a card in it. *)
Definition mmc_ready (wr : bool) s : Prop :=
  opened drv wr (bs s) /\ length (buf_bytes (buf s)) = 512%nat /\ owns_line (dev s) 0.

(** What the end of a command does. *)
Lemma do_command_ok s cmd a w m s1 m1 data :
  mmc_opcode (set_resp s 0 0 0 0) (Z.land cmd 63) a m = Ok (s1, m1, data) -> owns_line (dev s1) 0 -> pic_ok w ->
  let st := Z.lor (int_status s1) (if data then 3 else 1) in
  exists w', goldfish_mmc_do_command pic s cmd a w m = Ok (set_int s1 st (int_enable s1), w', m1) /\ pic_ok w' /\
    (Z.land st (int_enable s1) <> 0 -> line_level w' (irq (dev s1)) = true).
Proof.
  intros Hop Hl Hw st. unfold goldfish_mmc_do_command. rewrite Hop. cbn [rbind].
  replace (if data then Z.lor MMC_STAT_END_OF_CMD MMC_STAT_END_OF_DATA else MMC_STAT_END_OF_CMD) with (if data then 3 else 1) by (by destruct data).
  cbn [set_int int_status int_enable dev]. fold st. destruct (ctrue (Z.land st (int_enable s1))) eqn:E.
  - destruct (device_set_irq_ok pic (dev s1) 0 (Z.land st (int_enable s1)) w Hl Hw) as (w' & -> & Hw' & Hlv & _).
    exists w'. split_and!; try done. intros _. by rewrite Z.add_0_r, E in Hlv.
  - exists w. split_and!; try done. unfold ctrue in E. lia.
Qed.

Lemma send_csd_ok wr s :
  opened drv wr (bs s) -> let total := Z.of_nat (length (disk drv (bs s))) / 512 * 512 in 8194 * 1024 <= total <= 2 ^ 41 ->
  exists s', send_csd s = Ok s' /\ dev s' = dev s /\ opened drv wr (bs s') /\ is_SDHC s' = (if 2147483648 <? total then 1 else 0) /\
    csd_capacity (response s') <= total /\ (total - csd_capacity (response s')) * 2048 < total /\
    (total mod 524288 = 0 -> csd_capacity (response s') = total).
Proof.
  intros Ho total Ht. unfold send_csd, bdrv_get_geometry. destruct (getlength_opened drv wr (bs s) Ho) as (b & -> & Hob & Hdb).
  rewrite (proj2 (Z.ltb_ge _ 0)) by lia. rewrite Z.shiftr_div_pow2 by (unfold SECTOR_BITS; lia). change (2 ^ SECTOR_BITS) with 512.
  rewrite swrap_small by (simpl; lia). fold total. rewrite (uwrap_small 64) by lia. clearbody total.
  destruct (Z.ltb_spec 2147483648 total) as [Hbig|Hsmall].
  - pose proof (Z.div_mod total 524288 ltac:(lia)) as Hd. pose proof (Z.mod_pos_bound total 524288 ltac:(lia)) as Hm.
    change (512 * 1024) with 524288. set (n := total / 524288) in *. clearbody n. rewrite (uwrap_small 32 n) by lia.
    destruct (sdhc_capacity n 0x0A4040DF 0x400E0032) as (-> & Hcap); [lia..|]. change (ctrue 0) with false. cbn iota.
    eexists. split; [done|]. unfold response. cbn [set_resp set_is_SDHC set_bs dev bs resp0 resp1 resp2 resp3 is_SDHC]. rewrite Hcap.
    split_and!; try done; lia.
  - rewrite Z.shiftr_div_pow2 by lia. change (2 ^ 10) with 1024. pose proof (Z.div_mod total 1024 ltac:(lia)) as Hd. pose proof (Z.mod_pos_bound total 1024 ltac:(lia)) as Hm.
    set (kb := total / 1024) in *. assert (Hkb : 8194 <= kb <= 2 ^ 21) by lia.
    destruct (scale_capacity_spec 64 0 kb) as (k & Hk & -> & Hle & Hlow); [lia|lia|simpl; lia|].
    pose proof (Z.div_mod kb (2 ^ k) ltac:(lia)) as Hd2. pose proof (Z.mod_pos_bound kb (2 ^ k) ltac:(lia)) as Hm2.
    set (c := kb / 2 ^ k) in *. clearbody c kb.
    assert (Hk9 : 2 <= k <= 9).
    { split.
      - destruct (decide (k = 0)) as [->|]; [change (2 ^ 0) with 1 in *; lia|]. destruct (decide (k = 1)) as [->|]; [change (2 ^ 1) with 2 in *; lia|]. lia.
      - destruct (decide (10 <= k)) as [Hk10|]; [|lia]. pose proof (Z.pow_le_mono_r 2 10 k ltac:(lia) Hk10). change (2 ^ 10) with 1024 in *. specialize (Hlow ltac:(lia)). lia. }
    assert (Hp : 4 <= 2 ^ k <= 512) by (split; [apply (Z.pow_le_mono_r 2 2)|apply (Z.pow_le_mono_r 2 k 9)]; lia).
    assert (Hc1 : 1 <= c). { specialize (Hlow ltac:(lia)). destruct (decide (c <= 0)); [nia|lia]. }
    rewrite (uwrap_small 64 (c - 1)) by lia. rewrite Z.add_0_l, (proj2 (Z.ltb_ge k 2)), (proj2 (Z.ltb_ge 7 (k - 2))) by lia.
    eexists. split; [done|]. unfold response. cbn [set_resp set_is_SDHC set_bs dev bs resp0 resp1 resp2 resp3 is_SDHC].
    change (47 - 32) with 15. rewrite (standard_capacity c (k - 2)) by lia. replace (k - 2 + 2) with k by lia.
    specialize (Hlow ltac:(lia)). split_and!; try done; [lia|lia|].
    intros H512. assert (Hdiv : total = total / 524288 * 524288) by (pose proof (Z.div_mod total 524288 ltac:(lia)); lia).
    assert (E : 2 ^ (9 - k) * 2 ^ k = 512) by (rewrite <- Z.pow_add_r by lia; by replace (9 - k + k) with 9 by lia).
    assert (Hz : kb mod 2 ^ k = 0).
    { replace kb with (total / 524288 * 2 ^ (9 - k) * 2 ^ k) by (rewrite <- Z.mul_assoc, E; lia). apply Z.mod_mul. lia. }
    lia.
Qed.

Lemma send_csd_small wr s :
  opened drv wr (bs s) -> Z.of_nat (length (disk drv (bs s))) / 512 * 512 < 8194 * 1024 -> send_csd s = Abort.
Proof.
  intros Ho Ht. unfold send_csd, bdrv_get_geometry. destruct (getlength_opened drv wr (bs s) Ho) as (b & -> & Hob & Hdb).
  rewrite (proj2 (Z.ltb_ge _ 0)) by lia. rewrite Z.shiftr_div_pow2 by (unfold SECTOR_BITS; lia). change (2 ^ SECTOR_BITS) with 512.
  set (n := Z.of_nat (length (disk drv (bs s))) / 512) in *. assert (Hn : 0 <= n) by (apply Z.div_pos; lia).
  rewrite swrap_small by (simpl; lia). rewrite (uwrap_small 64) by lia. rewrite (proj2 (Z.ltb_ge _ _)) by lia.
  rewrite Z.shiftr_div_pow2 by lia. change (2 ^ 10) with 1024. pose proof (Z.div_mod (n * 512) 1024 ltac:(lia)).
  pose proof (Z.mod_pos_bound (n * 512) 1024 ltac:(lia)). set (kb := n * 512 / 1024) in *.
  destruct (scale_capacity_spec 64 0 kb) as (k & Hk & -> & _ & Hlow); [lia|lia|simpl; lia|]. rewrite Z.add_0_l, (proj2 (Z.ltb_lt k 2)); [done|].
  destruct (decide (2 <= k)) as [Hk2|]; [|lia]. pose proof (Z.pow_le_mono_r 2 2 k ltac:(lia) Hk2). change (2 ^ 2) with 4 in *.
  specialize (Hlow ltac:(lia)). lia.
Qed.

(** *** Transfers *)

(** What a transfer changes of the controller: the device and its buffer. *)
Definition moved s s' : Prop := exists b l, s' = set_buf (set_bs s b) l /\ length l = 512%nat.

Lemma moved_buf s s' : moved s s' -> length (buf_bytes (buf s')) = 512%nat.
Proof. intros (b & l & -> & Hl). done. Qed.

Lemma bdrv_read_loop_ok wr n : forall sector dst s (m : M),
  opened drv wr (bs s) -> length (buf_bytes (buf s)) = 512%nat -> 0 <= sector ->
  (sector + Z.of_nat n) * 512 <= Z.of_nat (length (disk drv (bs s))) -> gm_ok m dst (Z.of_nat n * 512) ->
  exists s' m', bdrv_read_loop n sector dst s m = Ok (0, s', m') /\ moved s s' /\ opened drv wr (bs s') /\
    disk drv (bs s') = disk drv (bs s) /\
    guest_bytes m' dst (n * 512) = seg (disk drv (bs s)) (sector * 512) (Z.of_nat n * 512) /\
    (forall a k, gm_ok m' a k <-> gm_ok m a k) /\
    (forall a k x, gm_ok m a k -> a <= dst -> dst + Z.of_nat n * 512 <= a + k -> a <= x < a + k ->
      ~ (dst <= x < dst + Z.of_nat n * 512) -> gm_byte m' x = gm_byte m x).
Proof.
  induction n as [|n IH]; intros sector dst s m Ho Hl Hs Hle Hok; cbn [bdrv_read_loop].
  { exists s, m. split_and!; try done. exists (bs s), (buf_bytes (buf s)). split; [|done]. by destruct s as [? ? ? ? ? ? ? ? ? ? ? ? ? ? ? []]. }
  destruct (bdrv_read_opened drv wr (bs s) sector (buf s) 1) as (b1 & -> & Ho1 & Hd1); [done|lia..|]. cbn [rbind Z.ltb Z.compare].
  change (1 * 512) with 512. rewrite drop_ge, app_nil_r by lia. pose proof (length_seg (disk drv (bs s)) (sector * 512) 512) as Hls.
  set (sec := seg _ _ 512) in *. assert (Hsec : length sec = 512%nat) by lia. rewrite take_ge by lia.
  set (s1 := set_buf (set_bs s b1) sec). assert (Hmv : moved s s1) by (by exists b1, sec). pose proof (gm_ok_range _ _ _ Hok) as Hr.
  assert (Hok1 : gm_ok m dst (Z.of_nat (length sec))) by (eapply gm_ok_sub; [exact Hok|lia..]).
  destruct (gm_write_ok m dst sec Hok1) as (m1 & Hw & Hb & Hk). rewrite Hw. cbn [rbind].
  assert (Hg1 : guest_bytes m1 dst 512 = sec) by (rewrite <- Hsec; by apply guest_bytes_written).
  assert (Hf1 : forall a k x, gm_ok m a k -> a <= dst -> dst + 512 <= a + k -> a <= x < a + k -> ~ (dst <= x < dst + 512) -> gm_byte m1 x = gm_byte m x).
  { intros a k x Ha Hlo Hhi Hx Hout. eapply gm_write_frame; [exact Hw|exact Ha|lia|lia|lia|lia]. }
  destruct (decide (n = 0%nat)) as [->|Hn].
  { by exists s1, m1. }
  rewrite (uwrap_small 32) by lia.
  destruct (IH (sector + 1) (dst + 512) s1 m1) as (s2 & m2 & -> & Hmv2 & Ho2 & Hd2 & Hg2 & Hk2 & Hf2); [done|done|lia|unfold s1; cbn; rewrite Hd1; lia|apply Hk; eapply gm_ok_sub; [exact Hok|lia..]|].
  exists s2, m2. change (disk drv (bs s1)) with (disk drv b1) in *. rewrite Hd1 in *.
  split_and!; try done; [|intros; by rewrite Hk2|].
  - change (S n * 512)%nat with (512 + n * 512)%nat. rewrite guest_bytes_app. change (Z.of_nat 512) with 512. rewrite Hg2.
    rewrite (guest_bytes_ext m1 m2), Hg1.
    + replace ((sector + 1) * 512) with (sector * 512 + 512) by lia. unfold sec. rewrite seg_app by lia. f_equal. lia.
    + intros x Hx. apply (Hf2 dst (Z.of_nat (S n) * 512)); try lia. by apply Hk.
  - intros a k x Ha Hlo Hhi Hx Hout. rewrite (Hf2 a k x), (Hf1 a k x); try done; try lia. by apply Hk.
Qed.

Lemma bdrv_write_loop_ok n : forall sector dst s (m : M),
  opened drv true (bs s) -> length (buf_bytes (buf s)) = 512%nat -> 0 <= sector ->
  (sector + Z.of_nat n) * 512 <= Z.of_nat (length (disk drv (bs s))) -> gm_ok m dst (Z.of_nat n * 512) ->
  exists s' m', bdrv_write_loop n sector dst s m = Ok (0, s', m') /\ moved s s' /\ opened drv true (bs s') /\
    disk drv (bs s') = put_at (disk drv (bs s)) (Z.to_nat (sector * 512)) (guest_bytes m dst (n * 512)) /\
    (forall x, gm_byte m' x = gm_byte m x) /\ (forall a k, gm_ok m' a k <-> gm_ok m a k).
Proof.
  induction n as [|n IH]; intros sector dst s m Ho Hl Hs Hle Hok; cbn [bdrv_write_loop].
  { exists s, m. split_and!; try done; [|rewrite put_at_nil; [done|lia]]. exists (bs s), (buf_bytes (buf s)). split; [|done]. by destruct s as [? ? ? ? ? ? ? ? ? ? ? ? ? ? ? []]. }
  pose proof (gm_ok_range _ _ _ Hok) as Hr. destruct (gm_read_ok m dst 512) as (m1 & -> & Hb1 & Hk1); [eapply gm_ok_sub; [exact Hok|lia..]|]. cbn [rbind].
  change (map _ _) with (guest_bytes m dst 512). set (g := guest_bytes m dst 512). assert (Hg : length g = 512%nat) by apply length_guest_bytes.
  assert (Hsp : splice (buf_bytes (buf s)) 0 g = g) by (rewrite splice_put_at, put_at_front, drop_ge, app_nil_r by lia; done).
  rewrite Hsp. destruct (bdrv_write_opened drv (bs s) sector (buf (set_buf s g)) 1) as (b1 & Hw & Ho1 & Hd1); [done|cbn; lia..|].
  change (bs (set_buf s g)) with (bs s). rewrite Hw. cbn [rbind Z.ltb Z.compare]. change (1 * 512) with 512 in Hd1.
  cbn [set_buf buf buf_bytes] in Hd1. rewrite take_ge in Hd1 by lia.
  set (s1 := set_bs (set_buf s g) b1). assert (Hmv : moved s s1) by (by exists b1, g).
  assert (Hld : length (disk drv b1) = length (disk drv (bs s))) by (rewrite Hd1, length_put_at; lia).
  destruct (decide (n = 0%nat)) as [->|Hn]; [by exists s1, m1|]. rewrite (uwrap_small 32) by lia.
  destruct (IH (sector + 1) (dst + 512) s1 m1) as (s2 & m2 & -> & Hmv2 & Ho2 & Hd2 & Hb2 & Hk2);
    [done|done|lia|unfold s1; cbn; rewrite Hld; lia|apply Hk1; eapply gm_ok_sub; [exact Hok|lia..]|].
  exists s2, m2. split_and!; try done; [|intros; by rewrite Hb2|intros; by rewrite Hk2].
  rewrite Hd2. change (disk drv (bs s1)) with (disk drv b1). rewrite Hd1. rewrite (guest_bytes_ext m m1) by (intros; apply Hb1).
  replace (Z.to_nat ((sector + 1) * 512)) with (Z.to_nat (sector * 512) + length g)%nat by lia. rewrite put_at_app.
  change (S n * 512)%nat with (512 + n * 512)%nat. by rewrite guest_bytes_app.
Qed.

(** *** Through the registers *)

Fixpoint reg_writes (l : list (Z * Z)) s (w : W) (m : M) : res (goldfish_mmc_state D * W * M) :=
  match l with
  | [] => Ok (s, w, m)
  | (offset, val) :: l => let! (s, w, m) := goldfish_mmc_write pic offset val s w m in reg_writes l s w m
  end.

(** How a driver addresses a sector: by its number on a high capacity card,
    by the offset of its first byte on others. *)
Definition card_arg s (sector : Z) : Z := if ctrue (is_SDHC s) then sector else sector * 512.

(** A transfer of [n] sectors from [sector] on, from or to the guest's buffer
    at [a]. *)
Definition transfer (cmd a n sector : Z) s : list (Z * Z) :=
  [(MMC_SET_BUFFER, a); (MMC_BLOCK_LENGTH, 511); (MMC_BLOCK_COUNT, n - 1); (MMC_ARG, card_arg s sector); (MMC_CMD, cmd)].

(** A transfer the guest can ask for, on a card of [size] bytes. *)
Definition transfer_ok s (m : M) (a n sector : Z) : Prop :=
  0 <= sector /\ 0 < n < 2 ^ 31 /\ (sector + n) * 512 <= Z.of_nat (length (disk drv (bs s))) /\
  card_arg s sector < 2 ^ 32 /\ gm_ok m a (n * 512).

(** What the controller reports of a transfer. *)
Definition reported s s' (w' : W) : Prop :=
  resp0 s' = 2304 /\ int_status s' = Z.lor (int_status s) 3 /\ int_enable s' = int_enable s /\ is_SDHC s' = is_SDHC s /\
  (Z.land (int_status s') (int_enable s') <> 0 -> line_level w' (irq (dev s')) = true).

Definition loaded s a n sector : goldfish_mmc_state D :=
  set_arg (set_block_count (set_block_length (set_buffer_address s a) 512) n) (card_arg s sector).

Lemma transfer_regs cmd a n sector s w m : 0 < n < 2 ^ 31 ->
  reg_writes (transfer cmd a n sector s) s w m =
    (let! (s, w, m) := goldfish_mmc_do_command pic (loaded s a n sector) cmd (card_arg s sector) w m in Ok (s, w, m)).
Proof.
  intros Hn. unfold transfer. cbn -[goldfish_mmc_do_command uwrap]. rewrite (uwrap_small 32 (n - 1 + 1)) by lia.
  replace (n - 1 + 1) with n by lia. change (uwrap 32 512) with 512.
  change (set_arg _ _) with (loaded s a n sector). done.
Qed.

Lemma transfer_sector_ok s a n sector : 0 <= sector ->
  transfer_sector (set_resp (loaded s a n sector) 0 0 0 0) (card_arg s sector) = Ok sector.
Proof.
  intros Hs. unfold transfer_sector, card_arg. cbn. destruct (ctrue (is_SDHC s)); [done|]. by rewrite Z.div_mul.
Qed.

Lemma mmc_read_ok wr s w m a n sector :
  mmc_ready wr s -> pic_ok w -> transfer_ok s m a n sector ->
  exists s' w' m', reg_writes (transfer MMC_READ_MULTIPLE_BLOCK a n sector s) s w m = Ok (s', w', m') /\
    mmc_ready wr s' /\ pic_ok w' /\ reported s s' w' /\ disk drv (bs s') = disk drv (bs s) /\
    guest_bytes m' a (Z.to_nat n * 512) = seg (disk drv (bs s)) (sector * 512) (n * 512) /\
    (forall b k, gm_ok m' b k <-> gm_ok m b k).
Proof.
  intros (Ho & Hl & Hline) Hw (Hs & Hn & Hle & _ & Hok). rewrite transfer_regs by lia. set (s0 := loaded s a n sector).
  destruct (bdrv_read_loop_ok wr (Z.to_nat n) sector a (set_resp s0 0 0 0 0) m) as (s1 & m1 & Hrd & (b & l & -> & Hll) & Ho1 & Hd1 & Hg & Hk & _);
    [done|done|lia|cbn; lia|by rewrite Z2Nat.id by lia|].
  destruct (do_command_ok s0 MMC_READ_MULTIPLE_BLOCK (card_arg s sector) w m
    (set_resp0 (set_buf (set_bs (set_resp s0 0 0 0 0) b) l) 2304) m1 true) as (w' & -> & Hw' & Hlv); [|done|done|].
  - unfold mmc_opcode. change (Z.land MMC_READ_MULTIPLE_BLOCK 63) with 18. cbn -[read_blocks set_resp0 set_resp]. unfold read_blocks, s0.
    rewrite transfer_sector_ok by done. cbn [rbind]. unfold goldfish_mmc_bdrv_read. fold s0.
    change (block_count (set_resp s0 0 0 0 0)) with n. rewrite swrap_small by (simpl; lia). change (buffer_address (set_resp s0 0 0 0 0)) with a.
    rewrite Hrd. done.
  - cbn [rbind]. eexists _, w', m1. split; [done|]. rewrite Z2Nat.id in Hg by lia. split_and!; done.
Qed.

Lemma mmc_write_ok s w m a n sector :
  mmc_ready true s -> pic_ok w -> transfer_ok s m a n sector ->
  exists s' w' m', reg_writes (transfer MMC_WRITE_MULTIPLE_BLOCK a n sector s) s w m = Ok (s', w', m') /\
    mmc_ready true s' /\ pic_ok w' /\ reported s s' w' /\
    disk drv (bs s') = put_at (disk drv (bs s)) (Z.to_nat (sector * 512)) (guest_bytes m a (Z.to_nat n * 512)) /\
    (forall x, gm_byte m' x = gm_byte m x) /\ (forall b k, gm_ok m' b k <-> gm_ok m b k).
Proof.
  intros (Ho & Hl & Hline) Hw (Hs & Hn & Hle & _ & Hok). rewrite transfer_regs by lia. set (s0 := loaded s a n sector).
  destruct (bdrv_write_loop_ok (Z.to_nat n) sector a (set_resp s0 0 0 0 0) m) as (s1 & m1 & Hrd & (b & l & -> & Hll) & Ho1 & Hd1 & Hb & Hk);
    [done|done|lia|cbn; lia|by rewrite Z2Nat.id by lia|].
  destruct (do_command_ok s0 MMC_WRITE_MULTIPLE_BLOCK (card_arg s sector) w m
    (set_resp0 (set_buf (set_bs (set_resp s0 0 0 0 0) b) l) 2304) m1 true) as (w' & -> & Hw' & Hlv); [|done|done|].
  - unfold mmc_opcode. change (Z.land MMC_WRITE_MULTIPLE_BLOCK 63) with 25. cbn -[write_blocks set_resp0 set_resp]. unfold write_blocks, s0.
    rewrite transfer_sector_ok by done. cbn [rbind]. unfold goldfish_mmc_bdrv_write. fold s0.
    change (block_count (set_resp s0 0 0 0 0)) with n. rewrite swrap_small by (simpl; lia). change (buffer_address (set_resp s0 0 0 0 0)) with a.
    rewrite Hrd. done.
  - cbn [rbind]. eexists _, w', m1. split; [done|]. split_and!; done.
Qed.
End Card.

Section Claims.
Context {D M W : Type} (pic : list (qemu_irq W)) `{P : PicLines W pic} `{GM : GuestMemory M}.
Context (drv : BlockDriver D) `{BI : !BlockImage drv}.
Implicit Types s : goldfish_mmc_state D.

(** C17: What the guest stores on the card it reads back: a write of [n]
    sectors from one buffer of the guest's memory and a read of the same
    sectors into another, both through the registers, on a standard or on a
    high capacity card, change exactly these sectors of the card to the
    bytes of the first buffer and put these bytes into the second, and each
    ends with the response 2304, both status bits and the interrupt line
    raised when one of them is enabled. *)
Theorem mmc_write_read s (w : W) (m : M) (a b n sector : Z) :
  mmc_ready drv true s -> pic_ok w -> transfer_ok drv s m a n sector -> gm_ok m b (n * 512) ->
  exists s1 w1 m1 s2 w2 m2,
    reg_writes pic (transfer MMC_WRITE_MULTIPLE_BLOCK a n sector s) s w m = Ok (s1, w1, m1) /\ reported pic s s1 w1 /\
    reg_writes pic (transfer MMC_READ_MULTIPLE_BLOCK b n sector s1) s1 w1 m1 = Ok (s2, w2, m2) /\ reported pic s1 s2 w2 /\
    disk drv (bs s2) = put_at (disk drv (bs s)) (Z.to_nat (sector * 512)) (guest_bytes m a (Z.to_nat n * 512)) /\
    guest_bytes m2 b (Z.to_nat n * 512) = guest_bytes m a (Z.to_nat n * 512).
Proof.
  intros Hr Hw Ht Hb. pose proof Ht as (Hs & Hn & Hle & Harg & _).
  destruct (mmc_write_ok pic drv s w m a n sector Hr Hw Ht) as (s1 & w1 & m1 & H1 & Hr1 & Hw1 & Hrep1 & Hd1 & Hb1 & Hk1).
  pose proof (length_guest_bytes m a (Z.to_nat n * 512)) as Hlg.
  assert (Hld : length (disk drv (bs s1)) = length (disk drv (bs s))) by (rewrite Hd1, length_put_at; lia).
  destruct (mmc_read_ok pic drv true s1 w1 m1 b n sector Hr1 Hw1) as (s2 & w2 & m2 & H2 & _ & _ & Hrep2 & Hd2 & Hg2 & _).
  { split_and!; [done|lia|lia|rewrite Hld; lia| |by apply Hk1]. unfold card_arg in *. destruct Hrep1 as (_ & _ & _ & -> & _). done. }
  exists s1, w1, m1, s2, w2, m2. split_and!; try done; [by rewrite Hd2|]. rewrite Hg2, Hd1.
  replace (n * 512) with (Z.of_nat (length (guest_bytes m a (Z.to_nat n * 512)))) by lia. apply seg_put_at; lia.
Qed.

(** C39: The guest learns the size of the card: from the card-specific data
    that [MMC_SEND_CSD] answers for a card of 8194 KiB up to 2 TiB, it
    computes a capacity that is at most the size of the image in whole
    sectors, smaller by less than a 2048th of it, and equal to it for a
    multiple of 512 KiB; the card becomes a high capacity card exactly above
    2 GiB. A smaller card stops the emulator. The limit is that of the code:
    its message and [android/main.c] speak of 9 MB. *)
Theorem mmc_csd_capacity (wr : bool) s (w : W) (m : M) (a : Z) :
  mmc_ready drv wr s -> pic_ok w ->
  let total := Z.of_nat (length (disk drv (bs s))) / 512 * 512 in
  total <= 2 ^ 41 ->
  if total <? 8194 * 1024 then goldfish_mmc_do_command pic s MMC_SEND_CSD a w m = Abort
  else exists s' w', goldfish_mmc_do_command pic s MMC_SEND_CSD a w m = Ok (s', w', m) /\
    is_SDHC s' = (if 2147483648 <? total then 1 else 0) /\
    csd_capacity (response s') <= total /\ (total - csd_capacity (response s')) * 2048 < total /\
    (total mod 524288 = 0 -> csd_capacity (response s') = total).
Proof.
  intros (Ho & Hl & Hline) Hw total Hmax.
  assert (Hop : mmc_opcode (set_resp s 0 0 0 0) 9 a m = let! s := send_csd (set_resp s 0 0 0 0) in Ok (s, m, false)) by done.
  destruct (Z.ltb_spec total (8194 * 1024)) as [Hs|Ht].
  - unfold goldfish_mmc_do_command. change (Z.land MMC_SEND_CSD 63) with 9. rewrite Hop, (send_csd_small drv wr); done.
  - destruct (send_csd_ok drv wr (set_resp s 0 0 0 0) Ho (conj Ht Hmax)) as (s1 & H1 & Hdev & _ & Hcap).
    destruct (do_command_ok pic s MMC_SEND_CSD a w m s1 m false) as (w' & H2 & _); [|by rewrite Hdev|done|].
    + change (Z.land MMC_SEND_CSD 63) with 9. by rewrite Hop, H1.
    + eexists _, w'. split; [exact H2|]. exact Hcap.
Qed.

(** A transfer that the block device refuses is reported as a transfer
    that was done: reading a sector past the end of the card leaves the
    guest's memory as it was, writing it leaves the card as it was, and both
    answer the response and the status bits of success. *)
Theorem mmc_transfer_error_lost s (w : W) (m : M) (a sector : Z) :
  mmc_ready drv true s -> pic_ok w -> 0 <= sector -> card_arg s sector < 2 ^ 32 -> gm_ok m a 512 ->
  Z.of_nat (length (disk drv (bs s))) < (sector + 1) * 512 ->
  (exists s' w', reg_writes pic (transfer MMC_READ_MULTIPLE_BLOCK a 1 sector s) s w m = Ok (s', w', m) /\ reported pic s s' w') /\
  (exists s' w' m', reg_writes pic (transfer MMC_WRITE_MULTIPLE_BLOCK a 1 sector s) s w m = Ok (s', w', m') /\ reported pic s s' w' /\
    disk drv (bs s') = disk drv (bs s)).
Proof.
  intros (Ho & Hl & Hline) Hw Hs Harg Hok Hlt. rewrite !transfer_regs by lia. set (s0 := loaded s a 1 sector).
  assert (H54 : sector < 2 ^ 54) by (unfold card_arg in Harg; destruct (ctrue (is_SDHC s)); lia).
  pose proof Ho as (_ & _ & _ & Hro & _). split.
  - destruct (bdrv_past_end drv true (bs s) sector (buf s) 1) as (b1 & Hr & _ & _); [done|lia..|].
    destruct (do_command_ok pic s0 MMC_READ_MULTIPLE_BLOCK (card_arg s sector) w m
      (set_resp0 (set_buf (set_bs (set_resp s0 0 0 0 0) b1) (buf_bytes (buf s))) 2304) m true) as (w' & -> & _ & Hlv); [|done|done|].
    + unfold mmc_opcode. change (Z.land MMC_READ_MULTIPLE_BLOCK 63) with 18. cbn -[read_blocks set_resp0 set_resp set_buf set_bs]. unfold read_blocks, s0.
      rewrite transfer_sector_ok by done. cbn [rbind]. unfold goldfish_mmc_bdrv_read. fold s0.
      change (Z.to_nat (s32 (block_count (set_resp s0 0 0 0 0)))) with 1%nat. cbn [bdrv_read_loop].
      change (buf (set_resp s0 0 0 0 0)) with (buf s). change (bs (set_resp s0 0 0 0 0)) with (bs s). rewrite Hr. done.
    + cbn [rbind]. eexists _, w'. split; [done|]. split_and!; done.
  - destruct (gm_read_ok m a 512 Hok) as (m1 & Hrd & _). set (g := splice (buf_bytes (buf s)) 0 (map (fun i => gm_byte m (a + Z.of_nat i)) (seq 0 (Z.to_nat 512)))).
    destruct (bdrv_past_end drv true (bs s) sector (mkBuf (buf_addr (buf s)) g) 1) as (b1 & _ & Hwr & _ & Hd1); [done|lia..|].
    rewrite Hro in Hwr by done.
    destruct (do_command_ok pic s0 MMC_WRITE_MULTIPLE_BLOCK (card_arg s sector) w m
      (set_resp0 (set_bs (set_buf (set_resp s0 0 0 0 0) g) b1) 2304) m1 true) as (w' & -> & _ & Hlv); [|done|done|].
    + unfold mmc_opcode. change (Z.land MMC_WRITE_MULTIPLE_BLOCK 63) with 25. cbn -[write_blocks set_resp0 set_resp set_buf set_bs]. unfold write_blocks, s0.
      rewrite transfer_sector_ok by done. cbn [rbind]. unfold goldfish_mmc_bdrv_write. fold s0.
      change (Z.to_nat (s32 (block_count (set_resp s0 0 0 0 0)))) with 1%nat. cbn [bdrv_write_loop].
      change (buffer_address (set_resp s0 0 0 0 0)) with a. rewrite Hrd. cbn [rbind].
      change (buf (set_buf _ _)) with (mkBuf (buf_addr (buf s)) g). change (bs (set_buf _ _)) with (bs s). rewrite Hwr. done.
    + cbn [rbind]. eexists _, w', m1. split; [done|]. split_and!; done.
Qed.

(** A card that is not a high capacity one is read with a division by
    [block_length], which is 0 until the guest sets it. *)
Lemma mmc_division_by_zero s (w : W) (m : M) (a : Z) :
  is_SDHC s = 0 -> block_length s = 0 -> goldfish_mmc_do_command pic s MMC_READ_SINGLE_BLOCK a w m = Undef.
Proof.
  intros H1 H2. unfold goldfish_mmc_do_command, mmc_opcode. change (Z.land MMC_READ_SINGLE_BLOCK 63) with 17.
  cbn -[set_resp]. unfold read_blocks, transfer_sector. cbn. by rewrite H1, H2.
Qed.

(** A status bit that is not enabled keeps the line raised when the guest
    acknowledges another: the line follows [status], not what of it is
    enabled, which is what the guest reads. *)
Lemma mmc_masked_line s (w : W) (m : M) :
  owns_line (dev s) 0 -> pic_ok w -> int_status s = 3 -> int_enable s = MMC_STAT_END_OF_CMD ->
  exists s' w', goldfish_mmc_write pic MMC_INT_STATUS MMC_STAT_END_OF_CMD s w m = Ok (s', w', m) /\
    goldfish_mmc_read MMC_INT_STATUS s' = Ok 0 /\ line_level w' (irq (dev s')) = true.
Proof.
  intros Hl Hw Hst Hen. unfold goldfish_mmc_write. cbn [Z.eqb MMC_INT_STATUS]. rewrite Hst.
  change (Z.ldiff 3 MMC_STAT_END_OF_CMD) with 2. cbn [negb Z.eqb Pos.eqb]. cbn [set_int dev].
  destruct (device_set_irq_ok pic (dev s) 0 2 w Hl Hw) as (w' & -> & _ & Hlv & _). cbn [rbind].
  eexists _, w'. split; [done|]. split; [unfold goldfish_mmc_read; cbn; by rewrite Hen|]. by rewrite Z.add_0_r in Hlv.
Qed.
End Claims.

(** *** The controller of the board *)

(** A card of five sectors in a file opened without the host's cache, in the
    controller of the board, and two pages of RAM. *)
Definition mmc_dev : goldfish_device :=
  default (mkDev 0 [] 0 0 0 0 0) (find (fun d => base d =? 0xff005000) (devices (android_arm_init_devices full_config))).
Definition demo_mmc : goldfish_mmc_state BDRVRawState := goldfish_mmc_init mmc_dev demo_bs 0x40000 (replicate 512 3).
Definition demo_phys : PhysMem * DirtyState * unit :=
  (mkMem (phys_map demo_mem) (ram_blocks demo_mem) (ram_store (ram demo_mem) 0x100 (map Z.of_nat (seq 0 200))), mkDirty ∅ [], tt).
#[local] Instance demo_phys_memory : GuestMemory (PhysMem * DirtyState * unit) :=
  phys_guest_memory (fun _ _ _ _ => Abort) (fun _ _ _ _ _ => Abort).

Lemma mmc_owns : owns_line mmc_dev 0.
Proof. vm_compute. split; [split; [discriminate|reflexivity]|]. split; [reflexivity|]. split; [discriminate|reflexivity]. Qed.

Lemma pic0_ok : pic_ok (PicLines := arm_pic_lines) pic0.
Proof. exact int_wf_init. Qed.

Lemma demo_raw_sound : raw_sound true demo_raw.
Proof.
  split; [reflexivity|]. split; [reflexivity|]. split; [vm_compute; reflexivity|].
  split; [intros _; split; [reflexivity|vm_compute; discriminate]|]. intros a [= <-]. split; vm_compute; reflexivity.
Qed.

Lemma demo_mmc_ready : mmc_ready bdrv_raw true demo_mmc.
Proof. split; [|split; [reflexivity|exact mmc_owns]]. split_and!; try done. exact demo_raw_sound. Qed.

Lemma demo_transfer : transfer_ok bdrv_raw demo_mmc demo_phys 0x100 1 3 /\ gm_ok demo_phys 0x380 (1 * 512).
Proof.
  split; [|apply (buffer_check_ok id_tr _ 0x380 512); vm_compute; reflexivity].
  split; [lia|]. split; [lia|]. split; [vm_compute; discriminate|]. split; [vm_compute; reflexivity|].
  apply (buffer_check_ok id_tr _ 0x100 512). vm_compute. reflexivity.
Qed.

Lemma mmc_write_read_witness :
  exists s1 w1 m1 s2 w2 m2,
    reg_writes arm_pic (transfer MMC_WRITE_MULTIPLE_BLOCK 0x100 1 3 demo_mmc) demo_mmc pic0 demo_phys = Ok (s1, w1, m1) /\
    reported arm_pic demo_mmc s1 w1 /\
    reg_writes arm_pic (transfer MMC_READ_MULTIPLE_BLOCK 0x380 1 3 s1) s1 w1 m1 = Ok (s2, w2, m2) /\ reported arm_pic s1 s2 w2 /\
    disk bdrv_raw (bs s2) = put_at (disk bdrv_raw demo_bs) (Z.to_nat (3 * 512)) (guest_bytes demo_phys 0x100 (Z.to_nat 1 * 512)) /\
    guest_bytes m2 0x380 (Z.to_nat 1 * 512) = guest_bytes demo_phys 0x100 (Z.to_nat 1 * 512).
Proof.
  exact (mmc_write_read arm_pic bdrv_raw demo_mmc pic0 demo_phys 0x100 0x380 1 3 demo_mmc_ready pic0_ok
    (proj1 demo_transfer) (proj2 demo_transfer)).
Defined.

(** A card of 16 MiB, whatever its bytes are. *)
Definition card16 (l : list Z) : goldfish_mmc_state BDRVRawState :=
  goldfish_mmc_init mmc_dev (mkBs 32768 0 0 (Some bdrv_raw) (mkRaw (mkFile l 0 0 false true 16777216) BDRV_TYPE_HD None)) 0x40000 (replicate 512 3).

Lemma card16_ready l : Z.of_nat (length l) = 16777216 -> mmc_ready bdrv_raw true (card16 l).
Proof.
  intros Hl. split; [|split; [reflexivity|exact mmc_owns]]. split; [done|]. split; [done|]. split; [|split; [done|discriminate]].
  split; [done|]. split; [done|]. cbn. rewrite Hl. split; [lia|]. split; [intros _; split; [done|lia]|discriminate].
Qed.

Lemma card16_total l : Z.of_nat (length l) = 16777216 -> Z.of_nat (length (disk bdrv_raw (bs (card16 l)))) / 512 * 512 = 16777216.
Proof. intros Hl. cbn. by rewrite Hl. Qed.

Lemma mmc_csd_capacity_witness :
  exists s' w', goldfish_mmc_do_command arm_pic (card16 (replicate (Z.to_nat 16777216) 0)) MMC_SEND_CSD 0 pic0 demo_phys = Ok (s', w', demo_phys) /\
    is_SDHC s' = 0 /\ csd_capacity (response s') = 16777216.
Proof.
  assert (Hl : Z.of_nat (length (replicate (Z.to_nat 16777216) 0)) = 16777216) by (rewrite length_replicate; lia).
  generalize dependent (replicate (Z.to_nat 16777216) 0). intros l Hl. pose proof (card16_total l Hl) as Ht.
  pose proof (mmc_csd_capacity arm_pic bdrv_raw true (card16 l) pic0 demo_phys 0 (card16_ready l Hl) pic0_ok) as H.
  cbv zeta in H. rewrite Ht in H. specialize (H ltac:(lia)). rewrite (proj2 (Z.ltb_ge _ _)) in H by lia.
  destruct H as (s' & w' & H & Hh & _ & _ & Hc). exists s', w'. split; [exact H|]. split; [exact Hh|]. apply Hc. reflexivity.
Defined.

Lemma mmc_transfer_error_lost_witness :
  (exists s' w', reg_writes arm_pic (transfer MMC_READ_MULTIPLE_BLOCK 0x100 1 5 demo_mmc) demo_mmc pic0 demo_phys = Ok (s', w', demo_phys) /\
    reported arm_pic demo_mmc s' w') /\
  (exists s' w' m', reg_writes arm_pic (transfer MMC_WRITE_MULTIPLE_BLOCK 0x100 1 5 demo_mmc) demo_mmc pic0 demo_phys = Ok (s', w', m') /\
    reported arm_pic demo_mmc s' w' /\ disk bdrv_raw (bs s') = disk bdrv_raw demo_bs).
Proof.
  apply (mmc_transfer_error_lost arm_pic bdrv_raw demo_mmc pic0 demo_phys 0x100 5 demo_mmc_ready pic0_ok).
  - lia.
  - vm_compute. reflexivity.
  - apply (buffer_check_ok id_tr _ 0x100 512). vm_compute. reflexivity.
  - vm_compute. reflexivity.
Defined.
