(* ===== verification/GoldfishNand.v ===== *)
(** * The flash memory

    [hw/goldfish_nand.c]: the flash devices of the board, each kept in a file
    of the host, their registers, and the command line argument that makes
    one. *)
From stdpp Require Import strings.
From S2P Require Import Prelude GuestMem Savevm HostFile.
From stdpp Require Import list sets.
#[local] Open Scope Z_scope.

(** ** Interrupted calls are made again *)

Fixpoint do_read_loop (fuel : nat) (f : hfile) (size : Z) : res (Z * list Z * hfile) :=
  let '(r, bytes, f) := sys_read f size in
  match r with
  | Ret n => Ok (n, bytes, f)
  | Err e =>
      if e =? EINTR then match fuel with O => Undef | S fuel => do_read_loop fuel f size end
      else Ok (-1, [], f)
  end.
Definition do_read (f : hfile) (size : Z) := do_read_loop (interrupted f) f size.

Fixpoint do_write_loop (fuel : nat) (f : hfile) (buf : list Z) : res (Z * hfile) :=
  let '(r, f) := sys_write f buf in
  match r with
  | Ret n => Ok (n, f)
  | Err e =>
      if e =? EINTR then match fuel with O => Undef | S fuel => do_write_loop fuel f buf end
      else Ok (-1, f)
  end.
Definition do_write (f : hfile) (buf : list Z) := do_write_loop (interrupted f) f buf.

(** ** The devices *)

Record nand_dev := mkNand {
  devname : list Z;
  data : list Z;              (* a buffer of one erase unit *)
  fd : option hfile;          (* [None] when the file could not be opened *)
  flags : Z;
  page_size : Z;
  extra_size : Z;
  erase_size : Z;
  size : Z
}.

Definition set_data d b := mkNand (devname d) b (fd d) (flags d) (page_size d) (extra_size d) (erase_size d) (size d).
Definition set_fd d f := mkNand (devname d) (data d) (Some f) (flags d) (page_size d) (extra_size d) (erase_size d) (size d).

Record nand_dev_state := mkNandState {
  dev : Z; addr_low : Z; addr_high : Z; transfer_size : Z; data_ptr : Z; result : Z
}.

Definition NAND_CMD_GET_DEV_NAME : Z := 0.
Definition NAND_CMD_READ : Z := 1.
Definition NAND_CMD_WRITE : Z := 2.
Definition NAND_CMD_ERASE : Z := 3.
Definition NAND_CMD_BLOCK_BAD_GET : Z := 4.
Definition NAND_CMD_BLOCK_BAD_SET : Z := 5.
Definition NAND_DEV_FLAG_READ_ONLY : Z := 1.
Definition NAND_VERSION_CURRENT : Z := 1.

Definition NAND_VERSION : Z := 0x000.
Definition NAND_NUM_DEV : Z := 0x004.
Definition NAND_DEV : Z := 0x008.
Definition NAND_DEV_FLAGS : Z := 0x010.
Definition NAND_DEV_NAME_LEN : Z := 0x014.
Definition NAND_DEV_PAGE_SIZE : Z := 0x018.
Definition NAND_DEV_EXTRA_SIZE : Z := 0x01c.
Definition NAND_DEV_ERASE_SIZE : Z := 0x020.
Definition NAND_DEV_SIZE_LOW : Z := 0x028.
Definition NAND_DEV_SIZE_HIGH : Z := 0x02c.
Definition NAND_RESULT : Z := 0x040.
Definition NAND_COMMAND : Z := 0x044.
Definition NAND_DATA : Z := 0x048.
Definition NAND_TRANSFER_SIZE : Z := 0x04c.
Definition NAND_ADDR_LOW : Z := 0x050.
Definition NAND_ADDR_HIGH : Z := 0x054.

(** *** Snapshots of the registers *)

Definition NAND_DEV_STATE_SAVE_VERSION : Z := 1.

(** The field list; offsets are counted from [dev]. *)
Definition nand_dev_state_fields : list QField :=
  map (mkQField Q_FIELD_INT32) [0; 4; 8; 12; 16; 20] ++ [mkQField Q_FIELD_END 0].

Definition nand_field (s : nand_dev_state) (offset : Z) (n : nat) : Z :=
  default 0 ([dev s; addr_low s; addr_high s; transfer_size s; data_ptr s; result s] !! Z.to_nat (offset / 4)).

Definition set_nand_field (offset : Z) (n : nat) (v : Z) (s : nand_dev_state) : nand_dev_state :=
  let '(mkNandState a b c d e f) := s in
  match Z.to_nat (offset / 4) with
  | 0 => mkNandState v b c d e f | 1 => mkNandState a v c d e f | 2 => mkNandState a b v d e f
  | 3 => mkNandState a b c v e f | 4 => mkNandState a b c d v f | _ => mkNandState a b c d e v
  end%nat.

Definition nand_dev_state_save (f : QEMUFile) (s : nand_dev_state) : res QEMUFile :=
  qemu_put_struct (nand_field s) (fun _ _ => []) nand_dev_state_fields f.

Definition nand_dev_state_load (f : QEMUFile) (s : nand_dev_state) (version_id : Z)
  : res (Z * nand_dev_state * QEMUFile) :=
  if negb (version_id =? NAND_DEV_STATE_SAVE_VERSION) then Ok (-1, s, f)
  else qemu_get_struct nand_dev_state_fields set_nand_field (fun _ _ s => s) s f.

Section Nand.
Context {M : Type} `{GM : GuestMemory M}.

(** The first [n] bytes of a buffer, [n] converted to [int]: none when it is
    negative, undefined when it is more than the buffer has. *)
Definition front (buf : list Z) (n : Z) : res (list Z) :=
  let n := s32 n in
  if Z.of_nat (length buf) <? n then Undef else Ok (take (Z.to_nat n) buf).

(** The loop of [nand_dev_read_file]. [size_t] has 64 bits. *)
Fixpoint read_loop (fuel : nat) (d : nand_dev) (f : hfile) (read_len : Z) (eof : bool) (ptr len : Z) (m : M)
  : res (nand_dev * hfile * M) :=
  if len =? 0 then Ok (d, f, m) else
  match fuel with
  | O => Undef
  | S fuel =>
      let short := read_len <? erase_size d in
      let d := if short then set_data d (replicate (Z.to_nat (erase_size d)) 0xff) else d in
      let read_len := if short then erase_size d else read_len in
      let eof := eof || short in
      let read_len := if len <? read_len then len else read_len in
      let! (read_len, d, f) :=
        if eof then Ok (read_len, d, f)
        else let! (ret, bytes, f) := do_read f read_len in
             if Z.of_nat (length (data d)) <? Z.of_nat (length bytes) then Undef
             else Ok (u64 ret, set_data d (splice (data d) 0 bytes), f) in
      let! b := front (data d) read_len in
      let! (_, m) := gm_write ptr b m in
      read_loop fuel d f read_len eof (u32 (ptr + read_len)) (u32 (len - read_len)) m
  end.

(** Enough rounds for the file's bytes, the end of the file and what is past
    it. *)
Definition nand_dev_read_file (d : nand_dev) (f : hfile) (ptr addr total_len : Z) (m : M) : res (Z * nand_dev * M) :=
  let f := lseek_set f addr in
  let! (d, f, m) := read_loop (Z.to_nat total_len + 2) d f (erase_size d) false ptr total_len m in
  Ok (total_len, set_fd d f, m).

(** The loop of [nand_dev_write_file]; what is left when it stops. A failed
    [write] gives -1, which the comparison with [write_len] takes as a large
    [size_t]. *)
Fixpoint write_loop (fuel : nat) (d : nand_dev) (f : hfile) (write_len ptr len : Z) (m : M)
  : res (Z * nand_dev * hfile * M) :=
  if len =? 0 then Ok (len, d, f, m) else
  match fuel with
  | O => Undef
  | S fuel =>
      let write_len := if len <? write_len then len else write_len in
      let! (_, b, m) := gm_read ptr (s32 write_len) m in
      if Z.of_nat (length (data d)) <? write_len then Undef else
      let d := set_data d (splice (data d) 0 b) in
      let! (ret, f) := do_write f (take (Z.to_nat write_len) (data d)) in
      if u64 ret <? write_len then Ok (len, d, f, m) else
      write_loop fuel d f write_len (u32 (ptr + write_len)) (u32 (len - write_len)) m
  end.

Definition nand_dev_write_file (d : nand_dev) (f : hfile) (ptr addr total_len : Z) (m : M) : res (Z * nand_dev * M) :=
  let f := lseek_set f addr in
  let! (len, d, f, m) := write_loop (Z.to_nat total_len) d f (erase_size d) ptr total_len m in
  Ok (u32 (total_len - len), set_fd d f, m).

Fixpoint erase_loop (fuel : nat) (d : nand_dev) (f : hfile) (write_len len : Z) : res (Z * hfile) :=
  if len =? 0 then Ok (len, f) else
  match fuel with
  | O => Undef
  | S fuel =>
      let write_len := if len <? write_len then len else write_len in
      let! (ret, f) := do_write f (take (Z.to_nat write_len) (data d)) in
      if u64 ret <? write_len then Ok (len, f) else
      erase_loop fuel d f write_len (u32 (len - write_len))
  end.

Definition nand_dev_erase_file (d : nand_dev) (f : hfile) (addr total_len : Z) : res (Z * nand_dev) :=
  let f := lseek_set f addr in
  let d := set_data d (replicate (Z.to_nat (erase_size d)) 0xff) in
  let! (len, f) := erase_loop (Z.to_nat total_len) d f (erase_size d) total_len in
  Ok (u32 (total_len - len), set_fd d f).

(** ** Commands *)

(** [size] cut at the end of the device. *)
Definition clip (d : nand_dev) (addr sz : Z) : Z :=
  if size d <? u64 (sz + addr) then u32 (size d - addr) else sz.

Definition nand_dev_do_cmd (s : nand_dev_state) (cmd : Z) (devs : list nand_dev) (m : M)
  : res (Z * list nand_dev * M) :=
  let addr := Z.lor (addr_low s) (Z.shiftl (addr_high s) 32) in
  let sz := transfer_size s in
  match devs !! Z.to_nat (dev s) with
  | None => Ok (0, devs, m)
  | Some d =>
      let keep d := <[Z.to_nat (dev s) := d]> devs in
      let read_only := ctrue (Z.land (flags d) NAND_DEV_FLAG_READ_ONLY) in
      let clipped := clip d addr sz in
      if cmd =? NAND_CMD_GET_DEV_NAME then
        let sz := if Z.of_nat (length (devname d)) <? sz then Z.of_nat (length (devname d)) else sz in
        let! b := front (devname d) sz in
        let! (_, m) := gm_write (data_ptr s) b m in
        Ok (sz, devs, m)
      else if cmd =? NAND_CMD_READ then
        if size d <=? addr then Ok (0, devs, m) else
        match fd d with
        | Some f =>
            let! (r, d, m) := nand_dev_read_file d f (data_ptr s) addr clipped m in
            Ok (r, keep d, m)
        | None =>
            let! b := front (drop (Z.to_nat addr) (data d)) clipped in
            let! (_, m) := gm_write (data_ptr s) b m in
            Ok (clipped, devs, m)
        end
      else if cmd =? NAND_CMD_WRITE then
        if read_only then Ok (0, devs, m) else
        if size d <=? addr then Ok (0, devs, m) else
        match fd d with
        | Some f =>
            let! (r, d, m) := nand_dev_write_file d f (data_ptr s) addr clipped m in
            Ok (r, keep d, m)
        | None =>
            let! (_, b, m) := gm_read (data_ptr s) (s32 clipped) m in
            if Z.of_nat (length (data d)) <? addr + Z.of_nat (length b) then Undef else
            Ok (clipped, keep (set_data d (splice (data d) (Z.to_nat addr) b)), m)
        end
      else if cmd =? NAND_CMD_ERASE then
        if read_only then Ok (0, devs, m) else
        if size d <=? addr then Ok (0, devs, m) else
        match fd d with
        | Some f =>
            let! (r, d) := nand_dev_erase_file d f addr clipped in
            Ok (r, keep d, m)
        | None =>
            if Z.of_nat (length (data d)) <? addr + clipped then Undef else
            Ok (clipped, keep (set_data d (splice (data d) (Z.to_nat addr) (replicate (Z.to_nat clipped) 0xff))), m)
        end
      else if (cmd =? NAND_CMD_BLOCK_BAD_GET) || (cmd =? NAND_CMD_BLOCK_BAD_SET) then Ok (0, devs, m)
      else Abort
  end.

(** ** Registers *)

Definition nand_dev_write (offset value : Z) (s : nand_dev_state) (devs : list nand_dev) (m : M)
  : res (nand_dev_state * list nand_dev * M) :=
  let '(mkNandState dv lo hi sz p r) := s in
  if offset =? NAND_DEV then
    if Z.of_nat (length devs) <=? value then Abort else Ok (mkNandState value lo hi sz p r, devs, m)
  else if offset =? NAND_ADDR_HIGH then Ok (mkNandState dv lo value sz p r, devs, m)
  else if offset =? NAND_ADDR_LOW then Ok (mkNandState dv value hi sz p r, devs, m)
  else if offset =? NAND_TRANSFER_SIZE then Ok (mkNandState dv lo hi value p r, devs, m)
  else if offset =? NAND_DATA then Ok (mkNandState dv lo hi sz value r, devs, m)
  else if offset =? NAND_COMMAND then
    let! (r, devs, m) := nand_dev_do_cmd s value devs m in
    Ok (mkNandState dv lo hi sz p r, devs, m)
  else Abort.

Definition nand_dev_read (offset : Z) (s : nand_dev_state) (devs : list nand_dev) : res Z :=
  if offset =? NAND_VERSION then Ok NAND_VERSION_CURRENT
  else if offset =? NAND_NUM_DEV then Ok (Z.of_nat (length devs))
  else if offset =? NAND_RESULT then Ok (result s)
  else match devs !! Z.to_nat (dev s) with
  | None => Ok 0
  | Some d =>
      if offset =? NAND_DEV_FLAGS then Ok (flags d)
      else if offset =? NAND_DEV_NAME_LEN then Ok (u32 (Z.of_nat (length (devname d))))
      else if offset =? NAND_DEV_PAGE_SIZE then Ok (page_size d)
      else if offset =? NAND_DEV_EXTRA_SIZE then Ok (extra_size d)
      else if offset =? NAND_DEV_ERASE_SIZE then Ok (erase_size d)
      else if offset =? NAND_DEV_SIZE_LOW then Ok (u32 (size d))
      else if offset =? NAND_DEV_SIZE_HIGH then Ok (u32 (Z.shiftr (size d) 32))
      else Abort
  end.
End Nand.

(** ** Adding a device *)

(** Characters of an argument; a string ends where the list does. *)
Fixpoint strchr (s : list Z) (c : Z) : option nat :=
  match s with
  | [] => None
  | x :: s => if x =? c then Some 0%nat else option_map S (strchr s c)
  end.

(** The loop of [arg_match] tests the character of [a], then [b_len], a
    [size_t] that it decrements in the test. *)
Fixpoint arg_match_loop (a b : list Z) (b_len : Z) : bool :=
  match a with
  | [] => b_len =? 0
  | x :: a =>
      if b_len =? 0 then u64 (b_len - 1) =? 0 else
      match b with
      | y :: b => if x =? y then arg_match_loop a b (b_len - 1) else false
      | [] => false
      end
  end.
Definition arg_match (a b : list Z) (b_len : Z) : bool := arg_match_loop a b b_len.

Definition isspace (c : Z) : bool := (c =? 32) || (9 <=? c) && (c <=? 13).
Definition digit_value (c : Z) : option Z :=
  if (48 <=? c) && (c <=? 57) then Some (c - 48)
  else if (97 <=? c) && (c <=? 122) then Some (c - 87)
  else if (65 <=? c) && (c <=? 90) then Some (c - 55)
  else None.
Definition digit_in (base c : Z) : option Z :=
  match digit_value c with Some v => if v <? base then Some v else None | None => None end.

(** The digits of a number: its value and how many there are. *)
Fixpoint digits (base acc : Z) (s : list Z) : Z * nat :=
  match s with
  | [] => (acc, 0%nat)
  | c :: s' =>
      match digit_in base c with
      | Some v => let '(r, n) := digits base (acc * base + v) s' in (r, S n)
      | None => (acc, 0%nat)
      end
  end.

Fixpoint spaces (s : list Z) : nat := match s with c :: s => if isspace c then S (spaces s) else 0%nat | [] => 0%nat end.

(** [strtoull] in base 0, and the characters it has used. *)
Definition strtoull (s : list Z) : Z * nat :=
  let k := spaces s in
  let s1 := drop k s in
  let sign := match s1 with c :: _ => (c =? 45) || (c =? 43) | [] => false end in
  let neg := match s1 with c :: _ => c =? 45 | [] => false end in
  let s2 := if sign then drop 1 s1 else s1 in
  let k := if sign then S k else k in
  let hex := match s2 with
             | z :: x :: c :: _ => (z =? 48) && ((x =? 120) || (x =? 88)) && bool_decide (is_Some (digit_in 16 c))
             | _ => false end in
  let oct := match s2 with z :: _ => z =? 48 | [] => false end in
  let '(v, n) := if hex then digits 16 0 (drop 2 s2) else if oct then digits 8 0 s2 else digits 10 0 s2 in
  let used := if hex then (2 + n)%nat else n in
  if (used =? 0)%nat then (0, 0%nat)
  else (if 2 ^ 64 <=? v then 2 ^ 64 - 1 else if neg then u64 (- v) else v, (k + used)%nat).

(** What the argument asks for. *)
Record nand_config := mkConfig {
  c_devname : option (list Z); c_size : Z; c_page : Z; c_extra : Z; c_pages : Z;
  c_init : option (list Z); c_file : option (list Z); c_ro : bool
}.
Definition default_config : nand_config := mkConfig None 0 2048 64 64 None None false.

(** The option names. *)
Definition chars (s : String.string) : list Z := map (fun c => Z.of_N (Ascii.N_of_ascii c)) (String.list_ascii_of_string s).

(** A number that must take the whole value. *)
Definition number (value : list Z) (value_len : nat) : res Z :=
  let '(v, used) := strtoull value in if (used =? value_len)%nat then Ok v else Abort.

Definition config_option (arg value : list Z) (arg_len value_len : nat) (c : nand_config) : res nand_config :=
  let '(mkConfig nm sz pg ex ps ini fl ro) := c in
  let named s := arg_match (chars s) arg (Z.of_nat arg_len) in
  if named "size"%string then let! v := number value value_len in Ok (mkConfig nm v pg ex ps ini fl ro)
  else if named "pagesize"%string then let! v := number value value_len in Ok (mkConfig nm sz (u32 v) ex ps ini fl ro)
  else if named "extrasize"%string then let! v := number value value_len in Ok (mkConfig nm sz pg (u32 v) ps ini fl ro)
  else if named "erasepages"%string then let! v := number value value_len in Ok (mkConfig nm sz pg ex (u32 v) ini fl ro)
  else if named "initfile"%string then Ok (mkConfig nm sz pg ex ps (Some (take value_len value)) fl ro)
  else if named "file"%string then Ok (mkConfig nm sz pg ex ps ini (Some (take value_len value)) ro)
  else Abort.

(** One item of the argument: up to the next comma. *)
Definition config_item (arg : list Z) (c : nand_config) : res (nand_config * option (list Z)) :=
  let comma := strchr arg 44 in
  let value := strchr arg 61 in
  let arg_len := match comma with Some i => i | None => length arg end in
  let next_arg := option_map (fun i => drop (S i) arg) comma in
  let value := match comma, value with
               | Some i, Some v => if (S i <=? v)%nat then None else Some v
               | _, v => v end in
  let! c :=
    match c_devname c, value with
    | None, Some _ => Abort
    | None, None => Ok (mkConfig (Some (take arg_len arg)) (c_size c) (c_page c) (c_extra c) (c_pages c) (c_init c) (c_file c) (c_ro c))
    | Some _, None =>
        if arg_match (chars "readonly") arg (Z.of_nat arg_len)
        then Ok (mkConfig (c_devname c) (c_size c) (c_page c) (c_extra c) (c_pages c) (c_init c) (c_file c) true)
        else Abort
    | Some _, Some v => config_option arg (drop (S v) arg) v (arg_len - v - 1) c
    end in
  Ok (c, next_arg).

Fixpoint config_loop (fuel : nat) (arg : option (list Z)) (c : nand_config) : res nand_config :=
  match arg with
  | None => Ok c
  | Some a =>
      match fuel with
      | O => Undef
      | S fuel => let! (c, next) := config_item a c in config_loop fuel next c
      end
  end.

(** The image is copied one erase unit at a time. *)
Fixpoint copy_image (fuel : nat) (initfd rwfd : hfile) (unit_ : Z) (buf : list Z) : res (hfile * list Z) :=
  match fuel with
  | O => Undef
  | S fuel =>
      let! (read_size, bytes, initfd) := do_read initfd unit_ in
      if read_size <? 0 then Abort else
      if Z.of_nat (length buf) <? Z.of_nat (length bytes) then Undef else
      let buf := splice buf 0 bytes in
      let! (ret, rwfd) := do_write rwfd (take (Z.to_nat read_size) buf) in
      if negb (ret =? read_size) then Abort
      else if read_size =? unit_ then copy_image fuel initfd rwfd unit_ buf
      else Ok (rwfd, buf)
  end.

Section AddDevice.
(** The files of the host by name, opened for writing or not; the name of a
    fresh temporary file; the bytes of fresh memory. *)
Context (open_file : list Z -> bool -> option hfile) (tempfile : option (list Z)) (malloc : Z -> list Z).

Definition round_size (dev_size unit_ : Z) : Z :=
  let pad := s32 (dev_size mod unit_) in
  if negb (pad =? 0) then u64 (dev_size + u32 (unit_ - pad)) else dev_size.

Definition make_dev (c : nand_config) (rwfd : option hfile) (initfd : option hfile) (dev_size : Z) : res nand_dev :=
  let erase := u32 (c_pages c * u32 (c_page c + c_extra c)) in
  if erase =? 0 then Undef else
  let dev_size := round_size dev_size erase in
  let! (rwfd, buf) :=
    match initfd with
    | None => Ok (rwfd, malloc erase)
    | Some i =>
        match rwfd with
        | None => Abort
        | Some f => let! (f, buf) := copy_image (length (contents i) + 2) i f erase (malloc erase) in Ok (Some f, buf)
        end
    end in
  Ok (mkNand (default [] (c_devname c)) buf rwfd (if c_ro c then NAND_DEV_FLAG_READ_ONLY else 0)
        (c_page c) (c_extra c) erase dev_size).

Definition nand_add_dev (arg : list Z) (devs : list nand_dev) : res (list nand_dev) :=
  let! c := config_loop (S (length arg)) (Some arg) default_config in
  match match c_file c with Some n => Some n | None => tempfile end with
  | None => Abort
  | Some rwfilename =>
      let rwfd := open_file rwfilename (negb (c_ro c)) in
      if match rwfd with None => c_ro c | Some _ => false end then Abort else
      let! (initfd, dev_size) :=
        match c_init c with
        | None => Ok (None, c_size c)
        | Some n =>
            match open_file n false with
            | None => Abort
            | Some i => Ok (Some i, if c_size c =? 0 then Z.of_nat (length (contents i)) else c_size c)
            end
        end in
      let! d := make_dev c rwfd initfd dev_size in
      Ok (devs ++ [d])
  end.
End AddDevice.

(** ** Host calls that succeed *)

Lemma do_read_ok f n :
  bad_media f = false ->
  let bytes := take (Z.to_nat n) (drop (Z.to_nat (position f)) (contents f)) in
  let k := Z.of_nat (length bytes) in
  do_read f n = Ok (k, bytes, set_position (set_interrupted f 0) (position f + k)).
Proof.
  intros Hb. unfold do_read. destruct f as [c p i b w cap]. cbn in Hb. subst b. cbn [interrupted].
  induction i as [|i IH]; [done|]. simpl in *. exact IH.
Qed.

Lemma do_write_ok f buf :
  writable f = true -> position f + Z.of_nat (length buf) <= capacity f ->
  do_write f buf = Ok (Z.of_nat (length buf),
    mkFile (put_at (contents f) (Z.to_nat (position f)) buf) (position f + Z.of_nat (length buf)) 0
      (bad_media f) true (capacity f)).
Proof.
  intros Hw Hc. unfold do_write. destruct f as [c p i b w cap]. cbn in *. subst w.
  induction i as [|i IH]; [|simpl in *; exact IH].
  cbn [do_write_loop sys_write interrupted writable capacity position negb].
  rewrite Z.min_l by lia. destruct (Z.leb_spec (Z.of_nat (length buf)) 0) as [Hl|Hl]; cbn [andb].
  - destruct buf; simpl in *; [done|lia].
  - by rewrite Nat2Z.id, firstn_all.
Qed.

(** A write for which the disk has no room fails. *)
Lemma do_write_full f buf :
  writable f = true -> buf <> [] -> capacity f <= position f ->
  do_write f buf = Ok (-1, set_interrupted f 0).
Proof.
  intros Hw Hb Hc. unfold do_write. destruct f as [c p i b w cap]. cbn in *. subst w.
  induction i as [|i IH]; [|simpl in *; exact IH].
  cbn [do_write_loop sys_write interrupted writable capacity position negb].
  rewrite (proj2 (Z.leb_le _ 0)) by lia. destruct buf; [done|]. done.
Qed.

Lemma take_splice (l b : list Z) : (length b <= length l)%nat -> take (length b) (splice l 0 b) = b.
Proof.
  intros Hb. rewrite <- (take_drop (length b) l) at 1.
  pose proof (splice_app [] (take (length b) l) (drop (length b) l) b 0 eq_refl) as E. cbn [app] in E.
  rewrite E by (rewrite length_take; lia). by rewrite take_app_length.
Qed.

(** The byte of the flash at an address: past the end of the file it is
    erased. *)
Definition flash (f : hfile) (a : Z) : Z := default 0xff (contents f !! Z.to_nat a).

(** ** Reading *)

Definition dev_wf (d : nand_dev) : Prop :=
  0 < erase_size d < 2 ^ 31 /\ Z.of_nat (length (data d)) = erase_size d /\ 0 <= size d < 2 ^ 63.

(** The devices that differ in their buffer and file only. *)
Definition same_dev (d d' : nand_dev) : Prop :=
  devname d' = devname d /\ flags d' = flags d /\ page_size d' = page_size d /\
  extra_size d' = extra_size d /\ erase_size d' = erase_size d /\ size d' = size d.

Definition same_file (f f' : hfile) : Prop :=
  contents f' = contents f /\ bad_media f' = bad_media f /\ writable f' = writable f /\ capacity f' = capacity f.

Section Transfers.
Context {M : Type} `{GM : GuestMemory M}.

(** A transfer to the part [a, a+n) of the guest buffer [b, b+k). *)
Definition written (m m' : M) (b k a n : Z) (v : Z -> Z) : Prop :=
  (forall x, a <= x < a + n -> gm_byte m' x = v (x - a)) /\
  (forall x, b <= x < b + k -> ~ (a <= x < a + n) -> gm_byte m' x = gm_byte m x) /\
  (forall b' k', gm_ok m' b' k' <-> gm_ok m b' k').

Lemma written_nil m b k a v : written m m b k a 0 v.
Proof. split; [intros; lia|]. by split. Qed.

Lemma written_front m b k a buf r m' v :
  gm_ok m b k -> b <= a -> a + Z.of_nat (length buf) <= b + k ->
  gm_write a buf m = Ok (r, m') ->
  (forall i, (i < length buf)%nat -> buf !! i = Some (v (Z.of_nat i))) ->
  written m m' b k a (Z.of_nat (length buf)) v.
Proof.
  intros Hok Hba Hak Hw Hv.
  destruct (gm_write_ok m a buf) as (m1 & E & Hb & Hg).
  { apply (gm_ok_sub m b k); (done || lia). }
  assert (m1 = m') as -> by congruence. split; [|split; [|done]].
  - intros x Hx. specialize (Hb (Z.to_nat (x - a)) (v (x - a))).
    rewrite Z2Nat.id in Hb by lia. replace (a + (x - a)) with x in Hb by lia. apply Hb.
    rewrite Hv by lia. by rewrite Z2Nat.id by lia.
  - intros x Hx Hout. exact (gm_write_frame m a buf r m' b k x Hw Hok Hba Hak Hx Hout).
Qed.

Lemma written_trans m m1 m2 b k a n1 n2 v :
  0 <= n1 -> 0 <= n2 -> b <= a -> a + n1 + n2 <= b + k ->
  written m m1 b k a n1 v -> written m1 m2 b k (a + n1) n2 (fun x => v (x + n1)) ->
  written m m2 b k a (n1 + n2) v.
Proof.
  intros H1 H2 Hba Hak (V1 & F1 & G1) (V2 & F2 & G2). split; [|split].
  - intros x Hx. destruct (decide (x < a + n1)).
    + rewrite F2 by lia. apply V1. lia.
    + rewrite V2 by lia. f_equal. lia.
  - intros x Hx Hout. rewrite F2 by lia. apply F1; lia.
  - intros b' k'. by rewrite G2, G1.
Qed.

Lemma gm_write_front m b k a buf :
  gm_ok m b k -> b <= a -> a + Z.of_nat (length buf) <= b + k -> exists m', gm_write a buf m = Ok (0, m').
Proof.
  intros Hok Hba Hak. destruct (gm_write_ok m a buf) as (m1 & E & _); [|by exists m1].
  apply (gm_ok_sub m b k); (done || lia).
Qed.

(** What a transfer to the guest leaves. *)
Definition reads (d : nand_dev) (f : hfile) (o ptr len b k : Z) (m : M) (r : res (nand_dev * hfile * M)) : Prop :=
  exists d' f' m', r = Ok (d', f', m') /\ same_dev d d' /\ dev_wf d' /\ same_file f f' /\
    written m m' b k ptr len (fun i => flash f (o + i)).

Lemma read_loop_zero fuel d f read_len eof ptr m : read_loop fuel d f read_len eof ptr 0 m = Ok (d, f, m).
Proof. by destruct fuel. Qed.

Lemma reads_nil d f o ptr b k m : dev_wf d -> reads d f o ptr 0 b k m (Ok (d, f, m)).
Proof. intros Hd. exists d, f, m. split; [done|]. split; [done|]. split; [done|]. split; [done|]. apply written_nil. Qed.

(** The rounds after a transfer of the first [n] bytes. *)
Lemma reads_step d d1 f f1 fuel read_len eof n o ptr len b k m m1 :
  same_dev d d1 -> dev_wf d1 -> same_file f f1 -> 0 <= n <= len -> len < 2 ^ 32 -> 0 <= ptr -> b <= ptr -> ptr + len <= b + k ->
  gm_ok m b k -> written m m1 b k ptr n (fun i => flash f (o + i)) ->
  (n < len -> reads d1 f1 (o + n) (ptr + n) (len - n) b k m1
                (read_loop fuel d1 f1 read_len eof (ptr + n) (len - n) m1)) ->
  reads d f o ptr len b k m (read_loop fuel d1 f1 read_len eof (u32 (ptr + n)) (u32 (len - n)) m1).
Proof.
  intros Hs Hd Hf Hn H32 Hp Hbp Hpk Hok Hw Hnext. destruct (gm_ok_range m b k Hok) as (_ & _ & Hr).
  rewrite (uwrap_small 32 (len - n)) by lia.
  destruct (decide (n = len)) as [->|Hne].
  - rewrite Z.sub_diag, read_loop_zero. exists d1, f1, m1. split; [done|]. done.
  - rewrite uwrap_small by lia. destruct Hnext as (d2 & f2 & m2 & E & Hs2 & Hd2 & Hf2 & Hw2); [lia|].
    exists d2, f2, m2. split; [done|]. destruct Hf as (F1 & F2 & F3 & F4), Hf2 as (G1 & G2 & G3 & G4).
    split; [unfold same_dev in *; destruct_and!; split_and!; congruence|]. split; [done|].
    split; [unfold same_file; split_and!; congruence|].
    replace len with (n + (len - n)) at 1 by lia.
    apply (written_trans m m1); [lia..|done|]. destruct Hw2 as (V & Fr & Gk). split; [|split; [done|done]].
    intros x Hx. rewrite V by done. unfold flash. rewrite F1. do 2 f_equal. lia.
Qed.

Lemma front_ok l n : 0 <= n <= Z.of_nat (length l) -> n < 2 ^ 31 -> front l n = Ok (take (Z.to_nat n) l).
Proof.
  intros Hn H31. unfold front. rewrite swrap_small by (simpl; lia).
  by rewrite (proj2 (Z.ltb_ge _ _)) by lia.
Qed.

(** One transfer of bytes that are the flash's. *)
Lemma transfer_front d f o ptr len n b k m :
  dev_wf d -> 0 <= n <= len -> n <= erase_size d -> b <= ptr -> ptr + len <= b + k -> gm_ok m b k ->
  (forall i, (i < Z.to_nat n)%nat -> data d !! i = Some (flash f (o + Z.of_nat i))) ->
  exists m1, (let! bs := front (data d) n in gm_write ptr bs m) = Ok (0, m1) /\
    written m m1 b k ptr n (fun i => flash f (o + i)).
Proof.
  intros (He & Hl & _) Hn Hne Hbp Hpk Hok Hv. rewrite front_ok by lia. cbn [rbind].
  assert (Hlen : Z.of_nat (length (take (Z.to_nat n) (data d))) = n) by (rewrite length_take; lia).
  destruct (gm_write_front m b k ptr (take (Z.to_nat n) (data d)) Hok) as (m1 & E); [lia..|].
  exists m1. split; [done|]. rewrite <- Hlen at 1.
  apply (written_front m b k ptr (take (Z.to_nat n) (data d)) 0 m1); [done|lia|lia|done|].
  intros i Hi. rewrite length_take in Hi. rewrite lookup_take_lt by lia. apply Hv. lia.
Qed.

Lemma rbind_front {A} (x : res (list Z)) (g : list Z -> res (Z * M)) (h : M -> res A) :
  (let! bs := x in let! (_, m) := g bs in h m) = (let! (_, m) := let! bs := x in g bs in h m).
Proof. by destruct x. Qed.

(** Past the end of the file the guest gets the erased value. *)
Lemma read_past fuel d f read_len eof o ptr len b k m :
  dev_wf d -> 0 <= len < 2 ^ 32 -> (Z.to_nat len <= fuel)%nat -> 0 <= ptr -> b <= ptr -> ptr + len <= b + k -> gm_ok m b k ->
  0 <= o -> Z.of_nat (length (contents f)) <= o ->
  read_len < erase_size d \/
    eof = true /\ read_len = erase_size d /\ data d = replicate (Z.to_nat (erase_size d)) 0xff ->
  reads d f o ptr len b k m (read_loop fuel d f read_len eof ptr len m).
Proof.
  revert d read_len eof o ptr len m. induction fuel as [|fuel IH];
    intros d read_len eof o ptr len m Hd Hlen Hfuel Hp Hbp Hpk Hok Ho Hend Hmode;
    (destruct (decide (len = 0)) as [->|Hz]; [rewrite read_loop_zero; by apply reads_nil|]); [lia|].
  cbn [read_loop]. rewrite (proj2 (Z.eqb_neq len 0)) by done.
  set (ff := replicate (Z.to_nat (erase_size d)) 0xff) in *.
  pose proof Hd as (He & Hl & Hsz).
  assert (exists d1, (if read_len <? erase_size d then set_data d ff else d) = d1 /\
            (if read_len <? erase_size d then erase_size d1 else read_len) = erase_size d /\
            eof || (read_len <? erase_size d) = true /\ same_dev d d1 /\ dev_wf d1 /\ data d1 = ff)
    as (d1 & -> & -> & -> & Hs1 & Hd1 & Hff).
  { destruct Hmode as [Hlt|(-> & -> & Hff)].
    - rewrite (proj2 (Z.ltb_lt _ _)) by done. exists (set_data d ff). rewrite orb_true_r.
      split; [done|]. split; [done|]. split; [done|]. split; [done|]. split; [|done]. split; [done|].
      split; [|done]. cbn. unfold ff. rewrite length_replicate. lia.
    - rewrite Z.ltb_irrefl. exists d. split_and!; try done. }
  assert (He1 : erase_size d1 = erase_size d) by (by destruct Hs1 as (_ & _ & _ & _ & -> & _)).
  set (n := if len <? erase_size d then len else erase_size d).
  assert (Hn : 0 < n <= len /\ n <= erase_size d) by (unfold n; destruct (Z.ltb_spec len (erase_size d)); lia).
  cbn [rbind]. rewrite rbind_front.
  destruct (transfer_front d1 f o ptr len n b k m) as (m1 & -> & Hw); [done|lia|lia|done|done|done| |].
  { intros i Hi. rewrite Hff. unfold ff. rewrite lookup_replicate_2 by lia. unfold flash.
    by rewrite lookup_ge_None_2 by lia. }
  cbn [rbind]. assert (Hok1 : gm_ok m1 b k) by (by destruct Hw as (_ & _ & ->)).
  apply (reads_step d d1 f f fuel n true n o ptr len b k m m1); try done; [lia|lia|].
  intros Hlt. apply IH; try done; try lia.
  unfold n in *. destruct (Z.ltb_spec len (erase_size d)); [lia|]. right. by rewrite He1.
Qed.

(** The rounds that read the file: its bytes, then what is past its end. *)
Lemma read_file fuel d f ptr len b k m :
  dev_wf d -> bad_media f = false -> 0 <= len < 2 ^ 32 -> (Z.to_nat len + 1 <= fuel)%nat ->
  0 <= ptr -> b <= ptr -> ptr + len <= b + k -> gm_ok m b k -> 0 <= position f ->
  reads d f (position f) ptr len b k m (read_loop fuel d f (erase_size d) false ptr len m).
Proof.
  revert d f ptr len m. induction fuel as [|fuel IH]; intros d f ptr len m Hd Hbad Hlen Hfuel Hp Hbp Hpk Hok Ho; [lia|].
  destruct (decide (len = 0)) as [->|Hz]; [rewrite read_loop_zero; by apply reads_nil|].
  cbn [read_loop]. rewrite (proj2 (Z.eqb_neq len 0)) by done. rewrite Z.ltb_irrefl. cbn [orb].
  pose proof Hd as (He & Hl & Hsz).
  set (n := if len <? erase_size d then len else erase_size d).
  assert (Hn : 0 < n <= len /\ n <= erase_size d) by (unfold n; destruct (Z.ltb_spec len (erase_size d)); lia).
  rewrite do_read_ok by done. cbn [rbind].
  set (bytes := take (Z.to_nat n) (drop (Z.to_nat (position f)) (contents f))).
  assert (Hbl : (length bytes <= Z.to_nat n)%nat) by (unfold bytes; rewrite length_take; lia).
  assert (Hbl' : Z.of_nat (length bytes) < n ->
                 Z.of_nat (length (contents f)) <= position f + Z.of_nat (length bytes)).
  { unfold bytes. rewrite length_take, length_drop. lia. }
  set (r := Z.of_nat (length bytes)) in *.
  rewrite (proj2 (Z.ltb_ge _ _)) by lia. cbn [rbind]. rewrite (uwrap_small 64 r) by lia.
  set (d1 := set_data d (splice (data d) 0 bytes)).
  set (f1 := set_position (set_interrupted f 0) (position f + r)).
  assert (Hd1 : dev_wf d1) by (split; [done|]; split; [|done]; cbn; by rewrite length_splice).
  rewrite rbind_front.
  destruct (transfer_front d1 f (position f) ptr len r b k m) as (m1 & -> & Hw); [done|lia|cbn; lia|done|done|done| |].
  { intros i Hi. assert (Hib : (i < length bytes)%nat) by lia.
    assert (E : take (length bytes) (data d1) = bytes) by (apply take_splice; lia).
    assert (data d1 !! i = bytes !! i) as -> by (rewrite <- E; by rewrite lookup_take_lt).
    destruct (bytes !! i) as [x|] eqn:Hx; [|apply lookup_ge_None_1 in Hx; lia].
    unfold bytes in Hx. rewrite lookup_take_lt, lookup_drop in Hx by lia. unfold flash.
    replace (Z.to_nat (position f + Z.of_nat i)) with (Z.to_nat (position f) + i)%nat by lia. by rewrite Hx. }
  cbn [rbind]. assert (Hok1 : gm_ok m1 b k) by (by destruct Hw as (_ & _ & ->)).
  apply (reads_step d d1 f f1 fuel r false r (position f) ptr len b k m m1); try done; [lia|lia|].
  intros Hlt. destruct (decide (r < n)) as [Hshort|Hfull].
  - apply read_past; try done; cbn; lia.
  - assert (r = erase_size d) as -> by (unfold n in *; destruct (Z.ltb_spec len (erase_size d)); lia).
    change (erase_size d) with (erase_size d1) at 3. apply (IH d1 f1); try done; cbn; lia.
Qed.

(** ** Writing *)

Definition file_ok (d : nand_dev) (f : hfile) : Prop :=
  bad_media f = false /\ writable f = true /\ size d <= capacity f.

Lemma u32_next ptr len n : 0 <= ptr -> 0 <= n <= len -> ptr + len <= 2 ^ 32 -> n < len -> u32 (ptr + n) = ptr + n.
Proof. intros. apply uwrap_small. lia. Qed.

(** What writing [buf] at the file's position leaves. *)
Definition stored_at (f f' : hfile) (buf : list Z) : Prop :=
  contents f' = put_at (contents f) (Z.to_nat (position f)) buf /\
  position f' = position f + Z.of_nat (length buf) /\
  bad_media f' = bad_media f /\ writable f' = writable f /\ capacity f' = capacity f.

Lemma stored_at_nil f : 0 <= position f <= Z.of_nat (length (contents f)) -> stored_at f f [].
Proof. intros Hp. split; [by rewrite put_at_nil by lia|]. cbn. split; [lia|done]. Qed.

Lemma stored_at_app f f1 f2 b1 b2 :
  0 <= position f -> stored_at f f1 b1 -> stored_at f1 f2 b2 -> stored_at f f2 (b1 ++ b2).
Proof.
  intros Hp (C1 & P1 & R1) (C2 & P2 & R2). split; [|split].
  - rewrite C2, C1, P1, <- put_at_app. f_equal. lia.
  - rewrite P2, P1, length_app. lia.
  - destruct_and!; split_and!; congruence.
Qed.

Lemma do_write_stored f buf :
  writable f = true -> position f + Z.of_nat (length buf) <= capacity f ->
  exists f', do_write f buf = Ok (Z.of_nat (length buf), f') /\ stored_at f f' buf.
Proof. intros Hw Hc. eexists. split; [by apply do_write_ok|]. by split_and!. Qed.

Lemma after_store f f' buf :
  0 <= position f -> stored_at f f' buf -> 0 <= position f' <= Z.of_nat (length (contents f')).
Proof. intros Hp (-> & -> & _). rewrite length_put_at. lia. Qed.

(** Memory that has only been read. *)
Definition same_mem (m m' : M) : Prop :=
  (forall x, gm_byte m' x = gm_byte m x) /\ (forall b k, gm_ok m' b k <-> gm_ok m b k).

(** The bytes of the guest's buffer reach the file, one erase unit at a time. *)
Lemma write_loop_ok fuel d f write_len ptr len m :
  dev_wf d -> writable f = true -> 0 <= position f -> position f + len <= capacity f ->
  0 < write_len <= erase_size d -> 0 <= len < 2 ^ 32 -> (Z.to_nat len <= fuel)%nat ->
  0 < len \/ position f <= Z.of_nat (length (contents f)) -> 0 <= ptr -> gm_ok m ptr len ->
  exists d' f' m', write_loop fuel d f write_len ptr len m = Ok (0, d', f', m') /\
    same_dev d d' /\ dev_wf d' /\ stored_at f f' (guest_bytes m ptr (Z.to_nat len)) /\ same_mem m m'.
Proof.
  revert d f write_len ptr len m. induction fuel as [|fuel IH];
    intros d f write_len ptr len m Hd Hw Hpos Hcap Hwl Hlen Hfuel Hgap Hp Hok;
    (destruct (decide (len = 0)) as [->|Hz];
     [exists d, f, m; split; [done|]; split; [done|]; split; [done|]; split; [apply stored_at_nil; lia|done]|]); [lia|].
  cbn [write_loop]. rewrite (proj2 (Z.eqb_neq len 0)) by done. pose proof Hd as (He & Hl & Hsz).
  set (n := if len <? write_len then len else write_len).
  assert (Hn : 0 < n <= len /\ n <= write_len) by (unfold n; destruct (Z.ltb_spec len write_len); lia).
  destruct (gm_ok_range m ptr len Hok) as (_ & _ & Hr).
  destruct (gm_read_ok m ptr n) as (m1 & E & Hb1 & Hg1); [by apply (gm_ok_sub m ptr len); try lia|].
  fold (guest_bytes m ptr (Z.to_nat n)) in E. rewrite swrap_small by (simpl; lia). rewrite E. cbn [rbind].
  rewrite (proj2 (Z.ltb_ge _ _)) by lia. set (d1 := set_data d _).
  assert (Htk : take (Z.to_nat n) (data d1) = guest_bytes m ptr (Z.to_nat n)).
  { pose proof (length_guest_bytes m ptr (Z.to_nat n)) as Hlg. rewrite <- Hlg at 1. apply take_splice. lia. }
  rewrite Htk. destruct (do_write_stored f (guest_bytes m ptr (Z.to_nat n))) as (f1 & -> & Hf1);
    [done|rewrite length_guest_bytes; lia|].
  rewrite length_guest_bytes, Z2Nat.id by lia. cbn [rbind].
  rewrite (uwrap_small 64), Z.ltb_irrefl, (uwrap_small 32 (len - n)) by lia.
  assert (Hd1 : dev_wf d1) by (split; [done|]; split; [|done]; cbn; by rewrite length_splice).
  pose proof (after_store _ _ _ Hpos Hf1) as Hpos1. pose proof Hf1 as (_ & P1 & _ & W1 & C1).
  rewrite length_guest_bytes in P1.
  assert (Hsplit : guest_bytes m ptr (Z.to_nat len) =
    guest_bytes m ptr (Z.to_nat n) ++ guest_bytes m1 (ptr + n) (Z.to_nat (len - n))).
  { rewrite (guest_bytes_ext m m1) by (intros; apply Hb1).
    replace (Z.to_nat len) with (Z.to_nat n + Z.to_nat (len - n))%nat by lia.
    rewrite guest_bytes_app, Z2Nat.id by lia. done. }
  rewrite Hsplit. destruct (decide (n < len)) as [Hlt|Hge].
  - rewrite (u32_next ptr len n) by lia.
    destruct (IH d1 f1 n (ptr + n) (len - n) m1) as (d2 & f2 & m2 & E2 & Hs2 & Hd2 & Hf2 & Hb2 & Hg2); try done; try lia.
    { congruence. } { cbn. lia. }
    { apply Hg1, (gm_ok_sub m ptr len); (done || lia). }
    exists d2, f2, m2. split; [done|]. split; [done|]. split; [done|]. split; [by apply (stored_at_app f f1)|].
    split; [intros x; by rewrite Hb2, Hb1|intros b' k'; by rewrite Hg2, Hg1].
  - replace (len - n) with 0 by lia. rewrite app_nil_r. exists d1, f1, m1.
    split; [by destruct fuel|]. done.
Qed.

(** The erased value reaches the file. *)
Lemma erase_loop_ok fuel d f write_len len :
  0 < write_len <= erase_size d -> erase_size d < 2 ^ 31 ->
  data d = replicate (Z.to_nat (erase_size d)) 0xff -> writable f = true ->
  0 <= position f -> position f + len <= capacity f -> 0 <= len < 2 ^ 32 -> (Z.to_nat len <= fuel)%nat ->
  0 < len \/ position f <= Z.of_nat (length (contents f)) ->
  exists f', erase_loop fuel d f write_len len = Ok (0, f') /\ stored_at f f' (replicate (Z.to_nat len) 0xff).
Proof.
  revert f write_len len. induction fuel as [|fuel IH];
    intros f write_len len Hwl He Hff Hw Hpos Hcap Hlen Hfuel Hgap;
    (destruct (decide (len = 0)) as [->|Hz]; [exists f; split; [done|]; apply stored_at_nil; lia|]); [lia|].
  cbn [erase_loop]. rewrite (proj2 (Z.eqb_neq len 0)) by done.
  set (n := if len <? write_len then len else write_len).
  assert (Hn : 0 < n <= len /\ n <= write_len) by (unfold n; destruct (Z.ltb_spec len write_len); lia).
  assert (Htk : take (Z.to_nat n) (data d) = replicate (Z.to_nat n) 0xff).
  { rewrite Hff, take_replicate. f_equal. lia. }
  rewrite Htk. destruct (do_write_stored f (replicate (Z.to_nat n) 0xff)) as (f1 & -> & Hf1);
    [done|rewrite length_replicate; lia|].
  rewrite length_replicate, Z2Nat.id by lia. cbn [rbind].
  rewrite (uwrap_small 64), Z.ltb_irrefl, (uwrap_small 32 (len - n)) by lia.
  pose proof (after_store _ _ _ Hpos Hf1) as Hpos1. pose proof Hf1 as (_ & P1 & _ & W1 & C1).
  rewrite length_replicate in P1.
  replace (Z.to_nat len) with (Z.to_nat n + Z.to_nat (len - n))%nat by lia. rewrite replicate_add.
  destruct (IH f1 n (len - n)) as (f2 & E2 & Hf2); try done; try lia; [congruence|].
  exists f2. split; [done|]. by apply (stored_at_app f f1).
Qed.

(** ** The flash as an array

    A device whose file holds the whole flash, in a world where the guest
    works on the buffer [b, b+k): its abstract state is the array of its
    bytes and the bytes of the buffer. *)

Inductive flash_op :=
| FRead (ptr addr n : Z)
| FWrite (ptr addr n : Z)
| FErase (addr n : Z).

(** What the driver does for an operation: the registers, the command, and
    the result register. *)
Definition op_regs (o : flash_op) : Z * Z * Z * Z :=
  match o with
  | FRead ptr addr n => (NAND_CMD_READ, ptr, addr, n)
  | FWrite ptr addr n => (NAND_CMD_WRITE, ptr, addr, n)
  | FErase addr n => (NAND_CMD_ERASE, 0, addr, n)
  end.

Definition run_op (o : flash_op) (s : nand_dev_state) (devs : list nand_dev) (m : M)
  : res (Z * nand_dev_state * list nand_dev * M) :=
  let '(cmd, ptr, addr, n) := op_regs o in
  let! (s, devs, m) := nand_dev_write NAND_ADDR_LOW (u32 addr) s devs m in
  let! (s, devs, m) := nand_dev_write NAND_ADDR_HIGH (Z.shiftr addr 32) s devs m in
  let! (s, devs, m) := nand_dev_write NAND_TRANSFER_SIZE n s devs m in
  let! (s, devs, m) := nand_dev_write NAND_DATA ptr s devs m in
  let! (s, devs, m) := nand_dev_write NAND_COMMAND cmd s devs m in
  let! r := nand_dev_read NAND_RESULT s devs in
  Ok (r, s, devs, m).

Fixpoint run_ops (l : list flash_op) (s : nand_dev_state) (devs : list nand_dev) (m : M)
  : res (list Z * nand_dev_state * list nand_dev * M) :=
  match l with
  | [] => Ok ([], s, devs, m)
  | o :: l =>
      let! (r, s, devs, m) := run_op o s devs m in
      let! (rs, s, devs, m) := run_ops l s devs m in
      Ok (r :: rs, s, devs, m)
  end.

(** The array: what an operation returns and does to the flash [phi] and the
    guest's bytes [mu]. *)
Record array := mkArray { a_size : Z; a_ro : bool; phi : Z -> Z; mu : Z -> Z }.

Definition a_count (A : array) (addr n : Z) : Z := if a_size A <=? addr then 0 else Z.min n (a_size A - addr).
Definition inside (a n x : Z) : bool := (a <=? x) && (x <? a + n).

Definition spec_op (o : flash_op) (A : array) : Z * array :=
  match o with
  | FRead ptr addr n =>
      let c := a_count A addr n in
      (c, mkArray (a_size A) (a_ro A) (phi A) (fun x => if inside ptr c x then phi A (addr + (x - ptr)) else mu A x))
  | FWrite ptr addr n =>
      if a_ro A then (0, A) else
      let c := a_count A addr n in
      (c, mkArray (a_size A) (a_ro A) (fun x => if inside addr c x then mu A (ptr + (x - addr)) else phi A x) (mu A))
  | FErase addr n =>
      if a_ro A then (0, A) else
      let c := a_count A addr n in
      (c, mkArray (a_size A) (a_ro A) (fun x => if inside addr c x then 0xff else phi A x) (mu A))
  end.

Fixpoint spec_ops (l : list flash_op) (A : array) : list Z * array :=
  match l with
  | [] => ([], A)
  | o :: l => let '(r, A) := spec_op o A in let '(rs, A) := spec_ops l A in (r :: rs, A)
  end.

Definition op_ok (b k : Z) (o : flash_op) : Prop :=
  match o with
  | FRead ptr addr n | FWrite ptr addr n => b <= ptr /\ 0 <= n < 2 ^ 32 /\ ptr + n <= b + k /\ in_u64 addr
  | FErase addr n => in_u32 n /\ in_u64 addr
  end.

(** The selected device agrees with the array. *)
Definition agrees (b k : Z) (s : nand_dev_state) (devs : list nand_dev) (m : M) (A : array) : Prop :=
  0 <= dev s /\ gm_ok m b k /\
  exists d f, devs !! Z.to_nat (dev s) = Some d /\ fd d = Some f /\ dev_wf d /\ file_ok d f /\
    a_size A = size d /\ a_ro A = ctrue (Z.land (flags d) NAND_DEV_FLAG_READ_ONLY) /\
    size d <= Z.of_nat (length (contents f)) /\
    (forall x, 0 <= x < size d -> flash f x = phi A x) /\
    (forall x, b <= x < b + k -> gm_byte m x = mu A x).

Lemma addr_regs a : in_u64 a -> Z.lor (u32 a) (Z.shiftl (Z.shiftr a 32) 32) = a.
Proof.
  intros Ha. unfold uwrap. rewrite Z.lor_comm, Z.shiftl_mul_pow2, Z.shiftr_div_pow2 by lia.
  rewrite (lor_low 32); [|lia|by apply Z.mod_mul|by apply Z.mod_pos_bound].
  pose proof (Z.div_mod a (2 ^ 32)). lia.
Qed.

(** The registers are written, then the command runs. *)
Lemma run_op_cmd o s devs m :
  run_op o s devs m =
  let '(cmd, ptr, addr, n) := op_regs o in
  let s := mkNandState (dev s) (u32 addr) (Z.shiftr addr 32) n ptr (result s) in
  let! (r, devs, m) := nand_dev_do_cmd s cmd devs m in
  Ok (r, mkNandState (dev s) (u32 addr) (Z.shiftr addr 32) n ptr r, devs, m).
Proof.
  destruct s as [dv lo hi sz p r]. unfold run_op. destruct (op_regs o) as [[[cmd ptr] addr] n].
  cbn [nand_dev_write Z.eqb rbind dev result]. unfold nand_dev_write.
  cbn. destruct (nand_dev_do_cmd _ cmd devs m) as [[[r' devs'] m']| |]; done.
Qed.

Lemma clip_count d A addr n :
  dev_wf d -> a_size A = size d -> 0 <= n < 2 ^ 32 -> 0 <= addr < size d ->
  clip d addr n = a_count A addr n /\ 0 <= a_count A addr n <= n /\ addr + a_count A addr n <= size d.
Proof.
  intros (_ & _ & Hs) HA Hn Ha. unfold clip, a_count. rewrite HA.
  rewrite (proj2 (Z.leb_gt _ _)), (uwrap_small 64) by lia.
  destruct (Z.ltb_spec (size d) (n + addr)); [rewrite uwrap_small by lia|]; lia.
Qed.

Lemma inside_spec a n x : inside a n x = true <-> a <= x < a + n.
Proof. unfold inside. rewrite andb_true_iff, Z.leb_le, Z.ltb_lt. lia. Qed.

Lemma same_dev_set_fd d d' f : same_dev d d' -> same_dev d (set_fd d' f).
Proof. done. Qed.

Lemma read_cmd d f ptr addr n b k m :
  dev_wf d -> bad_media f = false -> 0 <= addr < 2 ^ 63 -> 0 <= n < 2 ^ 32 -> 0 <= b -> b <= ptr -> ptr + n <= b + k ->
  gm_ok m b k ->
  exists d' f' m', nand_dev_read_file d f ptr addr n m = Ok (n, set_fd d' f', m') /\
    same_dev d d' /\ dev_wf d' /\ same_file f f' /\ written m m' b k ptr n (fun i => flash f (addr + i)).
Proof.
  intros Hd Hb Ha Hn Hb0 Hbp Hpk Hok. unfold nand_dev_read_file. rewrite lseek_ok by done.
  destruct (read_file (Z.to_nat n + 2) d (set_position f addr) ptr n b k m)
    as (d' & f' & m' & -> & Hs & Hd' & Hf & Hw); try done; try lia; [cbn; lia|].
  cbn [rbind]. by exists d', f', m'.
Qed.

Lemma write_cmd d f ptr addr n m :
  dev_wf d -> file_ok d f -> 0 <= addr -> addr + n <= size d -> addr <= Z.of_nat (length (contents f)) ->
  0 <= n < 2 ^ 32 -> 0 <= ptr -> gm_ok m ptr n ->
  exists d' f' m', nand_dev_write_file d f ptr addr n m = Ok (n, set_fd d' f', m') /\
    same_dev d d' /\ dev_wf d' /\ stored_at (set_position f addr) f' (guest_bytes m ptr (Z.to_nat n)) /\
    same_mem m m'.
Proof.
  intros Hd (Hb & Hw & Hc) Ha Han Hgap Hn Hp Hok. pose proof Hd as (He & _ & Hs). unfold nand_dev_write_file.
  rewrite lseek_ok by lia.
  destruct (write_loop_ok (Z.to_nat n) d (set_position f addr) (erase_size d) ptr n m)
    as (d' & f' & m' & -> & Hs' & Hd' & Hf & Hm); try done; try (cbn; lia).
  cbn [rbind]. rewrite Z.sub_0_r, uwrap_small by lia. by exists d', f', m'.
Qed.

Lemma erase_cmd d f addr n :
  dev_wf d -> file_ok d f -> 0 <= addr -> addr + n <= size d -> addr <= Z.of_nat (length (contents f)) ->
  0 <= n < 2 ^ 32 ->
  exists d' f', nand_dev_erase_file d f addr n = Ok (n, set_fd d' f') /\
    same_dev d d' /\ dev_wf d' /\ stored_at (set_position f addr) f' (replicate (Z.to_nat n) 0xff).
Proof.
  intros Hd (Hb & Hw & Hc) Ha Han Hgap Hn. pose proof Hd as (He & Hl & Hs). unfold nand_dev_erase_file.
  rewrite lseek_ok by lia. set (d1 := set_data d _).
  destruct (erase_loop_ok (Z.to_nat n) d1 (set_position f addr) (erase_size d1) n) as (f' & -> & Hf);
    try done; try (cbn; lia).
  cbn [rbind]. rewrite Z.sub_0_r, uwrap_small by lia. exists d1, f'.
  split; [done|]. split; [done|]. split; [|done]. split; [done|]. split; [|done]. cbn. rewrite length_replicate. lia.
Qed.

(** The flash after bytes have been stored inside it. *)
Lemma flash_stored f f' addr buf x :
  0 <= addr -> addr + Z.of_nat (length buf) <= Z.of_nat (length (contents f)) -> 0 <= x ->
  stored_at (set_position f addr) f' buf ->
  flash f' x = (if inside addr (Z.of_nat (length buf)) x then default 0 (buf !! Z.to_nat (x - addr)) else flash f x).
Proof.
  intros Ha Hend Hx (Hc & _). unfold flash. rewrite Hc. cbn [position set_position contents]. rewrite lookup_put_at.
  destruct (inside addr (Z.of_nat (length buf)) x) eqn:Hin.
  - apply inside_spec in Hin. rewrite decide_False, decide_True by lia.
    replace (Z.to_nat x - Z.to_nat addr)%nat with (Z.to_nat (x - addr)) by lia.
    destruct (buf !! Z.to_nat (x - addr)) eqn:E; [done|]. apply lookup_ge_None_1 in E. lia.
  - assert (Hout : ~ (addr <= x < addr + Z.of_nat (length buf))) by (rewrite <- inside_spec, Hin; done).
    case_decide; [by rewrite decide_True by lia|]. by rewrite decide_False by lia.
Qed.

Lemma guest_bytes_at m a n i : (i < n)%nat -> guest_bytes m a n !! i = Some (gm_byte m (a + Z.of_nat i)).
Proof.
  intros Hi. unfold guest_bytes. change (map ?g ?l) with (g <$> l).
  by rewrite list_lookup_fmap, lookup_seq_lt by done.
Qed.

Lemma agrees_after b k s s' devs m' A' d d' f' :
  0 <= dev s -> dev s' = dev s -> devs !! Z.to_nat (dev s) = Some d -> gm_ok m' b k ->
  same_dev d d' -> dev_wf d' -> file_ok d f' -> a_size A' = size d ->
  a_ro A' = ctrue (Z.land (flags d) NAND_DEV_FLAG_READ_ONLY) -> size d <= Z.of_nat (length (contents f')) ->
  (forall x, 0 <= x < size d -> flash f' x = phi A' x) ->
  (forall x, b <= x < b + k -> gm_byte m' x = mu A' x) ->
  agrees b k s' (<[Z.to_nat (dev s) := set_fd d' f']> devs) m' A'.
Proof.
  intros H0 Hs Hd Hok (S1 & S2 & S3 & S4 & S5 & S6) Hd' Hf HA Hro Hlen Hphi Hmu.
  split; [lia|]. split; [done|]. exists (set_fd d' f'), f'.
  rewrite Hs, list_lookup_insert_eq by (by eapply lookup_lt_Some).
  split; [done|]. split; [done|]. split; [exact Hd'|]. cbn [flags size set_fd]. unfold file_ok in *.
  cbn [size set_fd]. rewrite S6, S2. done.
Qed.

(** An address past the end of the device. *)
Lemma count_past A addr n : a_size A <= addr -> a_count A addr n = 0.
Proof. intros H. unfold a_count. by rewrite (proj2 (Z.leb_le _ _)). Qed.

Lemma inside_none a x : inside a 0 x = false.
Proof. apply not_true_iff_false. rewrite inside_spec. lia. Qed.

Lemma agrees_ext b k s s' devs m A A' :
  dev s' = dev s -> a_size A' = a_size A -> a_ro A' = a_ro A ->
  (forall x, phi A' x = phi A x) -> (forall x, mu A' x = mu A x) ->
  agrees b k s devs m A -> agrees b k s' devs m A'.
Proof.
  intros Hs H1 H2 H3 H4 (H0 & Hok & d & f & Hd & Hf & Hwf & Hfo & Hsz & Hro & Hl & Hp & Hm).
  split; [lia|]. split; [done|]. exists d, f. rewrite Hs, H1, H2.
  split_and!; try done; try (apply Hwf); try (apply Hfo); intros x Hx; rewrite ?H3, ?H4; auto.
Qed.

(** One operation of the driver is one operation of the array. *)
Definition op_refines (b k : Z) (o : flash_op) (s : nand_dev_state) (devs : list nand_dev) (m : M) (A : array) : Prop :=
  exists s' devs' m', run_op o s devs m = Ok (fst (spec_op o A), s', devs', m') /\
    agrees b k s' devs' m' (snd (spec_op o A)).

(** An operation is its command's branch on the selected device. *)
Section Branch.
Context (s : nand_dev_state) (devs : list nand_dev) (m : M) (d : nand_dev) (f : hfile).
Context (Hd : devs !! Z.to_nat (dev s) = Some d) (Hf : fd d = Some f).
Let regs addr n ptr r := mkNandState (dev s) (u32 addr) (Z.shiftr addr 32) n ptr r.
Let keep d := <[Z.to_nat (dev s) := d]> devs.

Lemma run_read ptr addr n : in_u64 addr ->
  run_op (FRead ptr addr n) s devs m =
    if size d <=? addr then Ok (0, regs addr n ptr 0, devs, m)
    else let! (r, d, m) := nand_dev_read_file d f ptr addr (clip d addr n) m in Ok (r, regs addr n ptr r, keep d, m).
Proof.
  intros Ha. rewrite run_op_cmd. cbn [op_regs]. unfold nand_dev_do_cmd. cbn [dev addr_low addr_high transfer_size data_ptr].
  rewrite addr_regs, Hd, Hf by done. cbn. destruct (size d <=? addr); [done|].
  by destruct (nand_dev_read_file d f ptr addr (clip d addr n) m) as [[[]]| |].
Qed.

Lemma run_write ptr addr n : in_u64 addr ->
  run_op (FWrite ptr addr n) s devs m =
    if ctrue (Z.land (flags d) NAND_DEV_FLAG_READ_ONLY) || (size d <=? addr) then Ok (0, regs addr n ptr 0, devs, m)
    else let! (r, d, m) := nand_dev_write_file d f ptr addr (clip d addr n) m in Ok (r, regs addr n ptr r, keep d, m).
Proof.
  intros Ha. rewrite run_op_cmd. cbn [op_regs]. unfold nand_dev_do_cmd. cbn [dev addr_low addr_high transfer_size data_ptr].
  rewrite addr_regs, Hd, Hf by done. cbn. destruct (ctrue _); [done|]. destruct (size d <=? addr); [done|].
  by destruct (nand_dev_write_file d f ptr addr (clip d addr n) m) as [[[]]| |].
Qed.

Lemma run_erase addr n : in_u64 addr ->
  run_op (FErase addr n) s devs m =
    if ctrue (Z.land (flags d) NAND_DEV_FLAG_READ_ONLY) || (size d <=? addr) then Ok (0, regs addr n 0 0, devs, m)
    else let! (r, d) := nand_dev_erase_file d f addr (clip d addr n) in Ok (r, regs addr n 0 r, keep d, m).
Proof.
  intros Ha. rewrite run_op_cmd. cbn [op_regs]. unfold nand_dev_do_cmd. cbn [dev addr_low addr_high transfer_size data_ptr].
  rewrite addr_regs, Hd, Hf by done. cbn. destruct (ctrue _); [done|]. destruct (size d <=? addr); [done|].
  by destruct (nand_dev_erase_file d f addr (clip d addr n)) as [[]| |].
Qed.
End Branch.

(** An operation that changes nothing. *)
Ltac no_effect HA :=
  cbn [rbind fst snd]; do 3 eexists; split; [reflexivity|];
  refine (agrees_ext _ _ _ _ _ _ _ _ eq_refl _ _ _ _ HA); try reflexivity; try (by symmetry); intros x;
  cbn [phi mu]; by rewrite ?inside_none.

Lemma read_refines b k ptr addr n s devs m A :
  agrees b k s devs m A -> op_ok b k (FRead ptr addr n) -> op_refines b k (FRead ptr addr n) s devs m A.
Proof.
  intros HA (Hbp & Hn & Hpk & Ha). pose proof HA as (H0 & Hok & d & f & Hd & Hf & Hwf & Hfo & Hsz & Hro & Hl & Hp & Hm).
  pose proof (gm_ok_range m b k Hok) as (Hb0 & Hk0 & Hbk). pose proof Hfo as (Hbad & Hwr & Hcap).
  pose proof Hwf as (_ & _ & Hs63). unfold op_refines. rewrite (run_read s devs m d f Hd Hf) by done. cbn [spec_op].
  destruct (Z.leb_spec (size d) addr) as [Hpast|Hin]; [rewrite count_past by lia; no_effect HA|].
  destruct (clip_count d A addr n Hwf Hsz Hn ltac:(lia)) as (-> & Hc & Hce). set (c := a_count A addr n) in *.
  destruct (read_cmd d f ptr addr c b k m) as (d' & f' & m' & -> & Hs & Hd' & (F1 & F2 & F3 & F4) & V & Fr & G);
    try done; try lia.
  cbn [rbind fst snd]. do 3 eexists. split; [reflexivity|].
  apply (agrees_after b k s _ devs m' _ d d' f'); try done; cbn [a_size a_ro phi mu].
  - by apply G.
  - split; [congruence|]. split; [congruence|]. lia.
  - by rewrite F1.
  - intros x Hx. unfold flash. rewrite F1. by apply Hp.
  - intros x Hx. destruct (inside ptr c x) eqn:Hi.
    + apply inside_spec in Hi. rewrite V by done. apply Hp. lia.
    + rewrite Fr; [by apply Hm|done|]. rewrite <- inside_spec, Hi. done.
Qed.

Lemma stored_file_ok d f f' addr buf :
  file_ok d f -> stored_at (set_position f addr) f' buf -> file_ok d f' /\ (length (contents f) <= length (contents f'))%nat.
Proof.
  intros (H1 & H2 & H3) (C & _ & R1 & R2 & R3). cbn in *. split; [split; [congruence|]; split; [congruence|lia]|].
  rewrite C, length_put_at. lia.
Qed.

(** A write or an erasure whose bytes are [v] inside the flash. *)
Lemma store_refines b k s s' devs m m' A d d' f f' addr c buf v :
  agrees b k s devs m A -> dev s' = dev s -> devs !! Z.to_nat (dev s) = Some d -> fd d = Some f ->
  same_dev d d' -> dev_wf d' -> 0 <= addr -> 0 <= c -> addr + c <= size d ->
  stored_at (set_position f addr) f' buf -> Z.of_nat (length buf) = c ->
  (forall i, (i < length buf)%nat -> default 0 (buf !! i) = v (addr + Z.of_nat i)) ->
  gm_ok m' b k -> (forall x, b <= x < b + k -> gm_byte m' x = gm_byte m x) ->
  agrees b k s' (<[Z.to_nat (dev s) := set_fd d' f']> devs) m'
    (mkArray (a_size A) (a_ro A) (fun x => if inside addr c x then v x else phi A x) (mu A)).
Proof.
  intros (H0 & Hok & d2 & f2 & Hd2 & Hf2 & Hwf & Hfo & Hsz & Hro & Hl & Hp & Hm) Hs Hd Hf Hsd Hd' Ha Hc Hac Hst Hlen Hv Hok' Hm'.
  assert (d2 = d) as -> by congruence. assert (f2 = f) as -> by congruence.
  destruct (stored_file_ok _ _ _ _ _ Hfo Hst) as [Hfo' Hll].
  apply (agrees_after b k s _ devs m' _ d d' f'); try done; cbn [a_size a_ro phi mu].
  - lia.
  - intros x Hx. rewrite (flash_stored f f' addr buf x) by (done || lia). rewrite Hlen.
    destruct (inside addr c x) eqn:Hi; [|by apply Hp]. apply inside_spec in Hi.
    rewrite Hv by lia. f_equal. lia.
  - intros x Hx. rewrite Hm' by done. by apply Hm.
Qed.

Lemma write_refines b k ptr addr n s devs m A :
  agrees b k s devs m A -> op_ok b k (FWrite ptr addr n) -> op_refines b k (FWrite ptr addr n) s devs m A.
Proof.
  intros HA (Hbp & Hn & Hpk & Ha). pose proof HA as (H0 & Hok & d & f & Hd & Hf & Hwf & Hfo & Hsz & Hro & Hl & Hp & Hm).
  pose proof (gm_ok_range m b k Hok) as (Hb0 & Hk0 & Hbk). unfold op_refines.
  rewrite (run_write s devs m d f Hd Hf), <- Hro by done. cbn [spec_op].
  destruct (a_ro A) eqn:Hr; cbn [orb]; [no_effect HA|].
  destruct (Z.leb_spec (size d) addr) as [Hpast|Hin]; [rewrite count_past by lia; no_effect HA|].
  destruct (clip_count d A addr n Hwf Hsz Hn ltac:(lia)) as (-> & Hc & Hce). set (c := a_count A addr n) in *.
  assert (Hgc : gm_ok m ptr c) by (apply (gm_ok_sub m b k); (done || lia)).
  destruct (write_cmd d f ptr addr c m) as (d' & f' & m' & -> & Hs & Hd' & Hst & Hb & Hg); try done; try lia.
  cbn [rbind fst snd]. do 3 eexists. split; [reflexivity|]. rewrite <- Hr.
  apply (store_refines b k s _ devs m m' A d d' f f' addr c (guest_bytes m ptr (Z.to_nat c)) (fun x => mu A (ptr + (x - addr))) HA eq_refl Hd Hf Hs Hd');
    try done; try lia.
  - rewrite length_guest_bytes. lia.
  - intros i Hi. rewrite length_guest_bytes in Hi. rewrite guest_bytes_at by done. cbn [default].
    replace (ptr + (addr + Z.of_nat i - addr)) with (ptr + Z.of_nat i) by lia. apply Hm. lia.
  - by apply Hg.
Qed.

Lemma erase_refines b k addr n s devs m A :
  agrees b k s devs m A -> op_ok b k (FErase addr n) -> op_refines b k (FErase addr n) s devs m A.
Proof.
  intros HA (Hn & Ha). pose proof HA as (H0 & Hok & d & f & Hd & Hf & Hwf & Hfo & Hsz & Hro & Hl & Hp & Hm).
  unfold op_refines. rewrite (run_erase s devs m d f Hd Hf), <- Hro by done. cbn [spec_op].
  destruct (a_ro A) eqn:Hr; cbn [orb]; [no_effect HA|].
  destruct (Z.leb_spec (size d) addr) as [Hpast|Hin]; [rewrite count_past by lia; no_effect HA|].
  destruct (clip_count d A addr n Hwf Hsz Hn ltac:(lia)) as (-> & Hc & Hce). set (c := a_count A addr n) in *.
  destruct (erase_cmd d f addr c) as (d' & f' & -> & Hs & Hd' & Hst); try done; try lia.
  cbn [rbind fst snd]. do 3 eexists. split; [reflexivity|]. rewrite <- Hr.
  apply (store_refines b k s _ devs m m A d d' f f' addr c (replicate (Z.to_nat c) 0xff) (fun _ => 0xff) HA eq_refl Hd Hf Hs Hd'); try done; try lia.
  - rewrite length_replicate. lia.
  - intros i Hi. rewrite length_replicate in Hi. by rewrite lookup_replicate_2.
Qed.

Lemma ops_refine b k l s devs m A :
  agrees b k s devs m A -> Forall (op_ok b k) l ->
  exists s' devs' m', run_ops l s devs m = Ok (fst (spec_ops l A), s', devs', m') /\
    agrees b k s' devs' m' (snd (spec_ops l A)).
Proof.
  revert s devs m A. induction l as [|o l IH]; intros s devs m A HA Hl; [by exists s, devs, m|].
  apply Forall_cons_1 in Hl as [Ho Hl].
  assert (op_refines b k o s devs m A) as (s1 & devs1 & m1 & E1 & HA1).
  { destruct o; [by apply read_refines|by apply write_refines|by apply erase_refines]. }
  cbn [run_ops spec_ops]. rewrite E1. cbn [rbind]. destruct (spec_op o A) as [r A1]. cbn [fst snd] in *.
  destruct (IH s1 devs1 m1 A1 HA1 Hl) as (s2 & devs2 & m2 & E2 & HA2). rewrite E2. cbn [rbind].
  destruct (spec_ops l A1) as [rs A2]. by exists s2, devs2, m2.
Qed.

(** ** A disk with no room *)

(** The rounds of a write all of which the host refuses. *)
Lemma write_loop_full fuel d f write_len ptr len m :
  dev_wf d -> writable f = true -> capacity f <= position f ->
  0 < write_len <= erase_size d -> 0 <= len < 2 ^ 32 -> (Z.to_nat len <= fuel)%nat -> 0 <= ptr -> gm_ok m ptr len ->
  exists d' f' m', write_loop fuel d f write_len ptr len m = Ok (0, d', f', m') /\ contents f' = contents f.
Proof.
  revert d f write_len ptr len m. induction fuel as [|fuel IH];
    intros d f write_len ptr len m Hd Hw Hcap Hwl Hlen Hfuel Hp Hok;
    (destruct (decide (len = 0)) as [->|Hz]; [exists d, f, m; done|]); [lia|].
  cbn [write_loop]. rewrite (proj2 (Z.eqb_neq len 0)) by done. pose proof Hd as (He & Hl & Hsz).
  set (n := if len <? write_len then len else write_len).
  assert (Hn : 0 < n <= len /\ n <= write_len) by (unfold n; destruct (Z.ltb_spec len write_len); lia).
  destruct (gm_ok_range m ptr len Hok) as (_ & _ & Hr).
  destruct (gm_read_ok m ptr n) as (m1 & E & Hb1 & Hg1); [by apply (gm_ok_sub m ptr len); try lia|].
  fold (guest_bytes m ptr (Z.to_nat n)) in E. rewrite swrap_small by (simpl; lia). rewrite E. cbn [rbind].
  rewrite (proj2 (Z.ltb_ge _ _)) by lia. set (d1 := set_data d _).
  assert (Hd1 : dev_wf d1) by (split; [done|]; split; [|done]; cbn; by rewrite length_splice).
  assert (Htk : length (take (Z.to_nat n) (data d1)) <> 0%nat).
  { destruct Hd1 as (_ & Hl1 & _). rewrite length_take. cbn [erase_size d1 set_data] in Hl1. lia. }
  rewrite do_write_full; [|done|by intros E0; rewrite E0 in Htk|done]. cbn [rbind].
  change (u64 (-1)) with (2 ^ 64 - 1). rewrite (proj2 (Z.ltb_ge (2 ^ 64 - 1) n)) by lia.
  rewrite (uwrap_small 32 (len - n)) by lia. destruct (decide (n < len)) as [Hlt|Hge].
  - rewrite (u32_next ptr len n) by lia.
    destruct (IH d1 (set_interrupted f 0) n (ptr + n) (len - n) m1) as (d2 & f2 & m2 & E2 & Hc2);
      try done; try (cbn; lia).
    { apply Hg1, (gm_ok_sub m ptr len); (done || lia). }
    exists d2, f2, m2. by rewrite E2.
  - replace (len - n) with 0 by lia. eexists _, _, _. by destruct fuel.
Qed.

(** A write past the end of the file leaves zeros in the gap, not erased
    bytes. *)
Lemma nand_gap_zero d f ptr addr n m x :
  dev_wf d -> file_ok d f -> 0 <= addr -> addr + n <= size d -> 0 < n < 2 ^ 32 -> 0 <= ptr -> gm_ok m ptr n ->
  Z.of_nat (length (contents f)) <= x < addr ->
  flash f x = 0xff /\
  exists d' f' m', nand_dev_write_file d f ptr addr n m = Ok (n, set_fd d' f', m') /\ flash f' x = 0.
Proof.
  intros Hd (Hb & Hw & Hc) Ha Han Hn Hp Hok Hx. pose proof Hd as (He & _ & Hs). split.
  { unfold flash. by rewrite lookup_ge_None_2 by lia. }
  unfold nand_dev_write_file. rewrite lseek_ok by lia.
  destruct (write_loop_ok (Z.to_nat n) d (set_position f addr) (erase_size d) ptr n m)
    as (d' & f' & m' & -> & _ & _ & (Hst & _) & _); try done; try (cbn; lia).
  cbn [rbind]. rewrite Z.sub_0_r, uwrap_small by lia. exists d', f', m'. split; [done|].
  unfold flash. rewrite Hst, lookup_put_at. cbn [position contents set_position].
  by rewrite decide_True, decide_False by lia.
Qed.

(** ** Images *)

Lemma arg_match_spec a b n :
  (n <= length b)%nat -> arg_match a b (Z.of_nat n) = true <-> take n b = a.
Proof.
  unfold arg_match. revert b n. induction a as [|x a IH]; intros b n Hn; cbn [arg_match_loop].
  - rewrite Z.eqb_eq. split; [intros; by replace n with 0%nat by lia|].
    intros E. apply (f_equal length) in E. rewrite length_take in E. simpl in E. lia.
  - destruct n as [|n]; [done|]. rewrite (proj2 (Z.eqb_neq _ 0)) by lia.
    destruct b as [|y b]; [simpl in Hn; lia|]. cbn [take]. replace (Z.of_nat (S n) - 1) with (Z.of_nat n) by lia.
    destruct (Z.eqb_spec x y) as [->|Hne].
    + rewrite IH by (simpl in Hn; lia). split; [by intros ->|by intros [= E]].
    + split; [done|]. intros [= E _]. congruence.
Qed.

(** The copy of an image ends and is complete. *)
Lemma copy_image_ok fuel i f unit_ buf :
  bad_media i = false -> writable f = true -> 0 < unit_ -> Z.of_nat (length buf) = unit_ ->
  0 <= position i <= Z.of_nat (length (contents i)) -> 0 <= position f <= Z.of_nat (length (contents f)) ->
  position f + (Z.of_nat (length (contents i)) - position i) <= capacity f ->
  (Z.to_nat (Z.of_nat (length (contents i)) - position i) + 1 <= fuel)%nat ->
  exists f' buf', copy_image fuel i f unit_ buf = Ok (f', buf') /\ Z.of_nat (length buf') = unit_ /\
    stored_at f f' (drop (Z.to_nat (position i)) (contents i)).
Proof.
  revert i f buf. induction fuel as [|fuel IH]; intros i f buf Hb Hw Hu Hl Hpi Hpf Hc Hfuel; [lia|].
  cbn [copy_image]. rewrite do_read_ok by done. cbn [rbind].
  set (rest := drop (Z.to_nat (position i)) (contents i)). set (bytes := take (Z.to_nat unit_) rest).
  assert (Hr : Z.of_nat (length rest) = Z.of_nat (length (contents i)) - position i)
    by (unfold rest; rewrite length_drop; lia).
  assert (Hbl : Z.of_nat (length bytes) = Z.min unit_ (Z.of_nat (length rest)))
    by (unfold bytes; rewrite length_take; lia).
  rewrite !(proj2 (Z.ltb_ge _ _)) by lia. rewrite Nat2Z.id, take_splice by lia.
  destruct (do_write_stored f bytes) as (f1 & -> & Hf1); [done|lia|]. cbn [rbind].
  rewrite Z.eqb_refl. cbn [negb].
  pose proof (after_store _ _ _ (proj1 Hpf) Hf1) as Hpos1. pose proof Hf1 as (_ & P1 & _ & W1 & C1).
  destruct (Z.eqb_spec (Z.of_nat (length bytes)) unit_) as [Heq|Hne].
  - set (i1 := set_position _ _).
    destruct (IH i1 f1 (splice buf 0 bytes)) as (f2 & buf2 & E2 & Hl2 & Hf2); try done; try (cbn; lia).
    { congruence. } { by rewrite length_splice. }
    exists f2, buf2. split; [done|]. split; [done|].
    rewrite <- (take_drop (Z.to_nat unit_) rest). apply (stored_at_app f f1); [lia|exact Hf1|].
    replace (drop (Z.to_nat unit_) rest) with (drop (Z.to_nat (position i1)) (contents i1)); [done|].
    unfold rest. rewrite drop_drop. cbn. f_equal. lia.
  - exists f1, (splice buf 0 bytes). split; [done|]. split; [by rewrite length_splice|].
    replace rest with bytes; [done|]. unfold bytes. apply take_ge. lia.
Qed.

Lemma round_size_ok n u :
  0 <= n < 2 ^ 62 -> 0 < u < 2 ^ 31 ->
  round_size n u mod u = 0 /\ n <= round_size n u < n + u.
Proof.
  intros Hn Hu. pose proof (Z.mod_pos_bound n u ltac:(lia)) as Hm. unfold round_size.
  rewrite swrap_small by (simpl; lia). destruct (Z.eqb_spec (n mod u) 0) as [E|E]; cbn [negb]; [lia|].
  rewrite (uwrap_small 32), (uwrap_small 64) by lia. split; [|lia].
  replace (n + (u - n mod u)) with (u * (n / u + 1)) by (pose proof (Z.div_mod n u); lia).
  rewrite Z.mul_comm. by apply Z.mod_mul; lia.
Qed.

Lemma round_size_whole n u : 0 <= n < 2 ^ 62 -> 0 < u < 2 ^ 31 -> n mod u = 0 -> round_size n u = n.
Proof.
  intros Hn Hu Hm. destruct (round_size_ok n u Hn Hu) as [Hr Hb]. apply Z.mod_divide in Hm as [a Ha], Hr as [c Hc]; [|lia..].
  assert (c = a) as ->; [|lia]. rewrite Hc in Hb. destruct Hb as [H1 H2]. rewrite Ha in H1, H2.
  apply Z.mul_le_mono_pos_r in H1; [|lia]. assert (c < a + 1); [|lia]. apply (Z.mul_lt_mono_pos_r u); lia.
Qed.

(** C15: the flash behaves as an array. For a device whose file is open,
    writable, readable without media errors, as long as the device and on a
    disk with room ([nand_image_loaded] makes one from an image of whole erase
    units; elsewhere the claim fails), any sequence of reads, writes and erasures that
    the driver makes through the registers succeeds; each returns the number
    of bytes that are inside the device (0 for a write to a read-only one),
    and the flash and the guest's buffer end up as in the array, however the
    transfers fall across erase units and however often the host's calls are
    interrupted. *)
Theorem nand_flash_refinement (b k : Z) (l : list flash_op) (s : nand_dev_state) (devs : list nand_dev) (m : M) (A : array) :
  agrees b k s devs m A -> Forall (op_ok b k) l ->
  exists s' devs' m', run_ops l s devs m = Ok (fst (spec_ops l A), s', devs', m') /\
    agrees b k s' devs' m' (snd (spec_ops l A)).
Proof. apply ops_refine. Qed.

(** A write that the host refuses is reported as done. When the disk is
    full at the address, every [write] fails with -1, which the comparison
    [ret < write_len] turns into a huge unsigned number: the command returns
    the whole size although the file has not changed. *)
Theorem nand_write_error_lost (d : nand_dev) (f : hfile) (ptr addr n : Z) (m : M) :
  dev_wf d -> writable f = true -> 0 <= addr < 2 ^ 63 -> capacity f <= addr ->
  0 < n < 2 ^ 32 -> 0 <= ptr -> gm_ok m ptr n ->
  exists d' f' m', nand_dev_write_file d f ptr addr n m = Ok (n, set_fd d' f', m') /\ contents f' = contents f.
Proof.
  intros Hd Hw Ha Hc Hn Hp Hok. unfold nand_dev_write_file. rewrite lseek_ok by done.
  destruct (write_loop_full (Z.to_nat n) d (set_position f addr) (erase_size d) ptr n m) as (d' & f' & m' & -> & Hc');
    try done; try (destruct Hd; lia).
  cbn [rbind]. rewrite Z.sub_0_r, uwrap_small by lia. by exists d', f', m'.
Qed.
End Transfers.

(** A device made from an image holds it. For an argument that names an
    image (and a readable one, no larger than the disk's room) the device that
    [nand_add_dev] appends has a size that is a whole number of erase units
    and at least the image, and its flash is the image followed by erased
    bytes. Its file covers the whole device, as [agrees] asks, when the image
    is a whole number of erase units; otherwise the device is longer than its
    file. *)
Theorem nand_image_loaded (open_file : list Z -> bool -> option hfile) (tempfile : option (list Z)) (malloc : Z -> list Z)
  (arg rw img : list Z) (c : nand_config) (i f : hfile) (devs : list nand_dev) :
  (forall n, length (malloc n) = Z.to_nat n) ->
  config_loop (S (length arg)) (Some arg) default_config = Ok c ->
  c_init c = Some img -> c_file c = Some rw -> c_ro c = false -> c_size c = 0 ->
  let unit_ := u32 (c_pages c * u32 (c_page c + c_extra c)) in
  0 < unit_ < 2 ^ 31 ->
  open_file img false = Some i -> position i = 0 -> bad_media i = false -> Z.of_nat (length (contents i)) < 2 ^ 62 ->
  open_file rw true = Some f -> contents f = [] -> position f = 0 -> writable f = true -> bad_media f = false ->
  Z.of_nat (length (contents i)) <= capacity f ->
  exists d f', nand_add_dev open_file tempfile malloc arg devs = Ok (devs ++ [d]) /\ dev_wf d /\ fd d = Some f' /\
    erase_size d = unit_ /\ size d mod unit_ = 0 /\ Z.of_nat (length (contents i)) <= size d /\
    (forall x, 0 <= x -> flash f' x = default 0xff (contents i !! Z.to_nat x)) /\
    (Z.of_nat (length (contents i)) mod unit_ = 0 -> file_ok d f' /\ size d = Z.of_nat (length (contents f'))).
Proof.
  intros Hm Hcfg Hi Hf Hro Hsz unit_ Hu Hoi Hpi Hbi Hli Hof Hcf Hpf Hwf Hbf Hcap.
  unfold nand_add_dev. rewrite Hcfg. cbn [rbind]. rewrite Hf, Hro, Hi. cbn [negb]. rewrite Hof, Hoi. cbn [rbind].
  rewrite Hsz. cbn [Z.eqb]. unfold make_dev. fold unit_. rewrite (proj2 (Z.eqb_neq unit_ 0)) by lia.
  destruct (copy_image_ok (length (contents i) + 2) i f unit_ (malloc unit_)) as (f' & buf' & -> & Hl' & Hst);
    rewrite ?Hpi, ?Hpf, ?Hm, ?Hcf; try done; try (cbn; lia).
  cbn [rbind]. destruct (round_size_ok (Z.of_nat (length (contents i))) unit_) as [Hmod Hr]; [lia|done|].
  eexists _, f'. split; [reflexivity|]. split; [|split; [done|]; split; [done|]; split; [done|]; split; [cbn; lia|split]].
  - split; [done|]. split; [done|]. cbn. lia.
  - intros x Hx. unfold flash. destruct Hst as (-> & _). rewrite Hpi, Hpf, Hcf. unfold put_at. cbn. by rewrite drop_nil, app_nil_r.
  - intros Hwhole. destruct Hst as (Ec & _ & Eb & Ew & Ek). rewrite Hpi, Hpf, Hcf in Ec. unfold put_at in Ec.
    cbn in Ec. rewrite drop_nil, app_nil_r in Ec. unfold file_ok. rewrite Ec, Eb, Ew, Ek. cbn [size].
    rewrite round_size_whole by (done || lia). by repeat split.
Qed.

(** ** A small device *)

Definition demo_file (cap : Z) : hfile := mkFile [1; 2; 3; 4; 5; 6; 7; 8; 9; 10] 0 3 false true cap.
Definition demo_nand (cap : Z) : nand_dev :=
  mkNand [115; 121; 115] (replicate 4 0) (Some (demo_file cap)) 0 2 0 4 8.
Definition demo_regs : nand_dev_state := mkNandState 0 0 0 0 0 0.

#[local] Instance nand_memory : GuestMemory (PhysMem * unit) :=
  exec_guest_memory (fun _ _ _ _ => Abort) demo_tr.

Lemma demo_guest_buffer : guest_buffer demo_tr demo_mem 0x23f8 16.
Proof. apply (buffer_check_ok demo_tr demo_mem 0x23f8 16). vm_compute. reflexivity. Qed.

Definition demo_array : array := mkArray 8 false (fun x => x + 1) (fun x => flat_byte demo_tr (demo_mem, tt) x).

Lemma demo_agrees : agrees 0x23f8 16 demo_regs [demo_nand 100] (demo_mem, tt) demo_array.
Proof.
  split; [done|]. split; [exact demo_guest_buffer|]. exists (demo_nand 100), (demo_file 100).
  split; [done|]. split; [done|]. split; [done|]. split; [done|]. split; [done|]. split; [done|].
  split; [done|]. split; [|done]. intros x Hx. cbn in Hx.
  assert (x = 0 \/ x = 1 \/ x = 2 \/ x = 3 \/ x = 4 \/ x = 5 \/ x = 6 \/ x = 7) as Hc by lia.
  repeat destruct Hc as [->|Hc]; try reflexivity. by subst x.
Qed.

Lemma nand_flash_refinement_witness :
  exists s' devs' m',
    run_ops [FRead 0x23f9 5 9; FErase 2 3; FWrite 0x23f9 1 2] demo_regs [demo_nand 100] (demo_mem, tt)
      = Ok ([3; 3; 2], s', devs', m') /\
    agrees 0x23f8 16 s' devs' m'
      (snd (spec_ops [FRead 0x23f9 5 9; FErase 2 3; FWrite 0x23f9 1 2] demo_array)).
Proof.
  refine (nand_flash_refinement 0x23f8 16 [FRead 0x23f9 5 9; FErase 2 3; FWrite 0x23f9 1 2] demo_regs [demo_nand 100]
           (demo_mem, tt) demo_array demo_agrees _).
  repeat constructor; simpl; lia.
Defined.

Lemma nand_write_error_lost_witness :
  exists d' f' m', nand_dev_write_file (demo_nand 1) (demo_file 1) 0x23f8 2 6 (demo_mem, tt) = Ok (6, set_fd d' f', m') /\
    contents f' = [1; 2; 3; 4; 5; 6; 7; 8; 9; 10].
Proof.
  apply (nand_write_error_lost (demo_nand 1) (demo_file 1) 0x23f8 2 6 (demo_mem, tt)); try done; try (cbn; lia).
  apply (gm_ok_sub (demo_mem, tt) 0x23f8 16); [exact demo_guest_buffer|lia..].
Defined.

Definition demo_arg : list Z := chars "system,pagesize=2,extrasize=0,erasepages=0x2,initfile=i,file=f".
Definition demo_open (name : list Z) (rw : bool) : option hfile :=
  if rw then Some (mkFile [] 0 0 false true 100) else Some (mkFile [7; 8; 9; 10; 11] 0 2 false false 0).

Lemma nand_image_loaded_witness :
  exists d f', nand_add_dev demo_open None (fun n => replicate (Z.to_nat n) 0) demo_arg [] = Ok [d] /\
    dev_wf d /\ fd d = Some f' /\ erase_size d = 4 /\ size d mod 4 = 0 /\ 5 <= size d /\
    (forall x, 0 <= x -> flash f' x = default 0xff ([7; 8; 9; 10; 11] !! Z.to_nat x)) /\
    (5 mod 4 = 0 -> file_ok d f' /\ size d = Z.of_nat (length (contents f'))).
Proof.
  refine (nand_image_loaded demo_open None (fun n => replicate (Z.to_nat n) 0) demo_arg [102] [105]
    (mkConfig (Some (chars "system")) 0 2 0 2 (Some [105]) (Some [102]) false)
    (mkFile [7; 8; 9; 10; 11] 0 2 false false 0) (mkFile [] 0 0 false true 100) []
    _ _ eq_refl eq_refl eq_refl eq_refl _ eq_refl eq_refl eq_refl _ eq_refl eq_refl eq_refl eq_refl eq_refl _).
  - intros n. apply length_replicate.
  - vm_compute. reflexivity.
  - vm_compute. done.
  - cbn. lia.
  - cbn. lia.
Defined.
