(* ===== verification/GoldfishEvents.v ===== *)
(** * The input device

    [hw/goldfish_events_device.c]: the ring of input events between the user
    interface and the guest's driver, the interrupt that says whether it has
    any, and the pages that describe what the device can send. *)
From S2P Require Import Prelude Irq GoldfishInterrupt Savevm.
From stdpp Require Import list sets.
#[local] Open Scope Z_scope.

Definition MAX_EVENTS : Z := 256 * 4.

Definition REG_READ : Z := 0x00.
Definition REG_SET_PAGE : Z := 0x00.
Definition REG_LEN : Z := 0x04.
Definition REG_DATA : Z := 0x08.

Definition EV_SYN : Z := 0x00.
Definition EV_KEY : Z := 0x01.
Definition EV_REL : Z := 0x02.
Definition EV_ABS : Z := 0x03.
Definition EV_SW : Z := 0x05.
Definition EV_MAX : Z := 0x1f.

Definition PAGE_NAME : Z := 0x00000.
Definition PAGE_EVBITS : Z := 0x10000.
Definition PAGE_ABSDATA : Z := Z.lor 0x20000 EV_ABS.

(** [irq] is the line's number at the controller. The length and the bytes of
    an entry of [ev_bits] are a list, and so are those of [abs_info]. *)
Record events_state := mkEvents {
  irq : Z;
  pending : Z;
  page : Z;
  events : list Z;
  first : Z;
  last : Z;
  name : list Z;
  ev_bits : list (list Z);
  abs_info : list Z
}.

Definition set_ring s evs l := mkEvents (irq s) (pending s) (page s) evs (first s) l (name s) (ev_bits s) (abs_info s).
Definition set_first s f := mkEvents (irq s) (pending s) (page s) (events s) f (last s) (name s) (ev_bits s) (abs_info s).
Definition set_page s p := mkEvents (irq s) (pending s) p (events s) (first s) (last s) (name s) (ev_bits s) (abs_info s).
Definition set_ev_bits s b := mkEvents (irq s) (pending s) (page s) (events s) (first s) (last s) (name s) b (abs_info s).

Section Events.
Context {W : Type} (pic : list (qemu_irq W)).

Definition events_raise (s : events_state) (w : W) : res W :=
  let! q := arr_get pic (irq s) in qemu_irq_raise q w.
Definition events_lower (s : events_state) (w : W) : res W :=
  let! q := arr_get pic (irq s) in qemu_irq_lower q w.

(** [s->events[s->last] = v] and the step of [last]. *)
Definition put_event (v : Z) (s : events_state) : res events_state :=
  let! evs := arr_set (events s) (last s) v in
  Ok (set_ring s evs (Z.land (u32 (last s + 1)) (MAX_EVENTS - 1))).

Definition enqueue_event (type code value : Z) (s : events_state) (w : W) : res (events_state * W) :=
  let enqueued := s32 (u32 (last s - first s)) in
  let enqueued := if enqueued <? 0 then enqueued + MAX_EVENTS else enqueued in
  if MAX_EVENTS - 1 <=? enqueued + 3 then Ok (s, w) else
  let! w := if first s =? last s then events_raise s w else Ok w in
  let! s := put_event (u32 type) s in
  let! s := put_event (u32 code) s in
  let! s := put_event (u32 value) s in
  Ok (s, w).

Definition dequeue_event (s : events_state) (w : W) : res (Z * events_state * W) :=
  if first s =? last s then Ok (0, s, w) else
  let! n := arr_get (events s) (first s) in
  let s := set_first s (Z.land (u32 (first s + 1)) (MAX_EVENTS - 1)) in
  let! w := if first s =? last s then events_lower s w else Ok w in
  Ok (n, s, w).

Definition get_page_len (s : events_state) : Z :=
  if page s =? PAGE_NAME then Z.of_nat (length (name s))
  else if (PAGE_EVBITS <=? page s) && (page s <=? PAGE_EVBITS + EV_MAX) then
    Z.of_nat (length (default [] (ev_bits s !! Z.to_nat (page s - PAGE_EVBITS))))
  else if page s =? PAGE_ABSDATA then Z.of_nat (length (abs_info s)) * 4
  else 0.

(** The name ends with a null character, a [char] is signed. *)
Definition get_page_data (s : events_state) (offset : Z) : res Z :=
  if get_page_len s <? offset then Ok 0
  else if page s =? PAGE_NAME then let! c := arr_get (name s ++ [0]) offset in Ok (swrap 8 c)
  else if (PAGE_EVBITS <=? page s) && (page s <=? PAGE_EVBITS + EV_MAX) then
    arr_get (default [] (ev_bits s !! Z.to_nat (page s - PAGE_EVBITS))) offset
  else if page s =? PAGE_ABSDATA then arr_get (abs_info s) (offset / 4)
  else Ok 0.

Definition events_read (off : Z) (s : events_state) (w : W) : res (Z * events_state * W) :=
  let offset := s32 off in
  if offset =? REG_READ then dequeue_event s w
  else if offset =? REG_LEN then Ok (get_page_len s, s, w)
  else if REG_DATA <=? offset then
    let! v := get_page_data s (offset - REG_DATA) in Ok (u32 v, s, w)
  else Ok (0, s, w).

Definition events_write (off val : Z) (s : events_state) : events_state :=
  let offset := s32 off in
  if offset =? REG_SET_PAGE then set_page s (s32 val) else s.

(** ** Events from the user interface *)

Definition ABS_X : Z := 0.
Definition ABS_Y : Z := 1.
Definition ABS_Z : Z := 2.
Definition REL_X : Z := 0.
Definition REL_Y : Z := 1.
Definition BTN_TOUCH : Z := 0x14a.
Definition BTN_MOUSE : Z := 0x110.

Definition events_put_keycode (keycode : Z) (s : events_state) (w : W) : res (events_state * W) :=
  enqueue_event EV_KEY (Z.land keycode 0x1ff) (cbool (ctrue (Z.land keycode 0x200))) s w.

Definition events_put_mouse (dx dy dz buttons_state : Z) (s : events_state) (w : W) : res (events_state * W) :=
  let! (s, w) :=
    if dz =? 0 then
      let! (s, w) := enqueue_event EV_ABS ABS_X dx s w in
      let! (s, w) := enqueue_event EV_ABS ABS_Y dy s w in
      let! (s, w) := enqueue_event EV_ABS ABS_Z dz s w in
      enqueue_event EV_KEY BTN_TOUCH (Z.land buttons_state 1) s w
    else
      let! (s, w) := enqueue_event EV_REL REL_X dx s w in
      enqueue_event EV_REL REL_Y dy s w in
  enqueue_event EV_SYN 0 0 s w.

Definition events_put_generic (type code value : Z) (s : events_state) (w : W) : res (events_state * W) :=
  enqueue_event type code value s w.
End Events.

(** ** Capabilities *)

Fixpoint fill_ff (fuel : nat) (il ih : Z) (bits : list Z) : res (list Z) :=
  if il + 1 <? ih then
    match fuel with
    | O => Undef
    | S fuel => let! bits := arr_set bits (il + 1) 0xff in fill_ff fuel (il + 1) ih bits
    end
  else Ok bits.

(** The bytes of the array with room for byte [ih]. *)
Definition grow_bits (bits : list Z) (ih : Z) : list Z :=
  if Z.of_nat (length bits) <=? ih then bits ++ replicate (Z.to_nat (ih + 1) - length bits) 0 else bits.

Definition set_bits (bits : list Z) (bitl bith : Z) : res (list Z) :=
  let il := bitl / 8 in
  let ih := bith / 8 in
  let bits := grow_bits bits ih in
  let maskl := u8 (Z.shiftl 0xff (Z.land bitl 7)) in
  let maskh := u8 (Z.shiftr 0xff (7 - Z.land bith 7)) in
  if ih <=? il then
    let! b := arr_get bits ih in
    arr_set bits ih (Z.lor b (Z.land maskh maskl))
  else
    let! b := arr_get bits il in
    let! bits := arr_set bits il (Z.lor b maskl) in
    let! bits := fill_ff (Z.to_nat ih) il ih bits in
    let! b := arr_get bits ih in
    arr_set bits ih (Z.lor b maskh).

Definition events_set_bits (type bitl bith : Z) (s : events_state) : res events_state :=
  let! bits := arr_get (ev_bits s) type in
  let! bits := set_bits bits bitl bith in
  Ok (set_ev_bits s (<[Z.to_nat type := bits]> (ev_bits s))).
Definition events_set_bit (type bit : Z) (s : events_state) : res events_state := events_set_bits type bit bit s.

Definition KEY_HOME : Z := 102.
Definition KEY_UP : Z := 103.
Definition KEY_LEFT : Z := 105.
Definition KEY_RIGHT : Z := 106.
Definition KEY_END : Z := 107.
Definition KEY_DOWN : Z := 108.
Definition KEY_VOLUMEDOWN : Z := 114.
Definition KEY_VOLUMEUP : Z := 115.
Definition KEY_POWER : Z := 116.
Definition KEY_BACK : Z := 158.
Definition KEY_CAMERA : Z := 212.
Definition KEY_SEARCH : Z := 217.
Definition KEY_SOFT1 : Z := 229.
Definition KEY_SOFT2 : Z := 230.
Definition KEY_SEND : Z := 231.
Definition KEY_CENTER : Z := 232.

(** The members of [AndroidHwConfig] that the device looks at. *)
Record hw_config := mkHw { hw_dPad : bool; hw_trackBall : bool; hw_touchScreen : bool; hw_camera : bool; hw_keyboard : bool }.

Fixpoint each_bit (type : Z) (bits : list Z) (s : events_state) : res events_state :=
  match bits with
  | [] => Ok s
  | b :: bits => let! s := events_set_bit type b s in each_bit type bits s
  end.

Definition events_dev_init (line : Z) (keycharmap : list Z) (c : hw_config) : res events_state :=
  let when (b : bool) (f : events_state -> res events_state) s := if b then f s else Ok s in
  let s := mkEvents line 0 0 (replicate (Z.to_nat MAX_EVENTS) 0) 0 0 keycharmap
             (replicate (Z.to_nat (EV_MAX + 1)) []) [] in
  let! s := events_set_bit EV_SYN EV_KEY s in
  let! s := each_bit EV_KEY [KEY_HOME; KEY_BACK; KEY_SEND; KEY_END; KEY_SOFT1; KEY_VOLUMEUP; KEY_VOLUMEDOWN;
                             KEY_SOFT2; KEY_POWER; KEY_SEARCH] s in
  let! s := when (hw_dPad c) (each_bit EV_KEY [KEY_DOWN; KEY_UP; KEY_LEFT; KEY_RIGHT; KEY_CENTER]) s in
  let! s := when (hw_trackBall c) (events_set_bit EV_KEY BTN_MOUSE) s in
  let! s := when (hw_touchScreen c) (events_set_bit EV_KEY BTN_TOUCH) s in
  let! s := when (hw_camera c) (events_set_bit EV_KEY KEY_CAMERA) s in
  let! s := when (hw_keyboard c) (fun s => let! s := events_set_bits EV_KEY 1 0xff s in events_set_bits EV_KEY 0x160 0x1ff s) s in
  let! s := when (hw_trackBall c) (fun s => let! s := events_set_bit EV_SYN EV_REL s in events_set_bits EV_REL REL_X REL_Y s) s in
  let! s := when (hw_touchScreen c) (fun s => let! s := events_set_bit EV_SYN EV_ABS s in events_set_bits EV_ABS ABS_X ABS_Z s) s in
  when (hw_keyboard c) (fun s => let! s := events_set_bit EV_SYN EV_SW s in events_set_bit EV_SW 0 s) s.

(** ** Snapshots *)

Definition EVENTS_STATE_SAVE_VERSION : Z := 1.

(** The field list; offsets are counted from [pending], [events] has 4096
    bytes. *)
Definition events_state_fields : list QField :=
  [mkQField Q_FIELD_INT32 0; mkQField Q_FIELD_INT32 4; mkQField Q_FIELD_BUFFER 8;
   mkQField Q_FIELD_BUFFER_SIZE 0; mkQField Q_FIELD_BUFFER_SIZE 4096;
   mkQField Q_FIELD_INT32 4104; mkQField Q_FIELD_INT32 4108; mkQField Q_FIELD_END 0].

(** The words as the little-endian host keeps them. *)
Definition word_le (v : Z) : list Z := [u8 v; u8 (Z.shiftr v 8); u8 (Z.shiftr v 16); u8 (Z.shiftr v 24)].

Definition events_field (s : events_state) (offset : Z) (n : nat) : Z :=
  u32 (if offset =? 0 then pending s else if offset =? 4 then page s else if offset =? 4104 then first s else last s).

Definition events_state_save (f : QEMUFile) (s : events_state) : res QEMUFile :=
  qemu_put_struct (events_field s) (fun _ size => take (Z.to_nat size) (concat (map word_le (events s)))) events_state_fields f.

Definition set_events_field (offset : Z) (n : nat) (v : Z) (s : events_state) : events_state :=
  if offset =? 0 then mkEvents (irq s) (s32 v) (page s) (events s) (first s) (last s) (name s) (ev_bits s) (abs_info s)
  else if offset =? 4 then set_page s (s32 v)
  else if offset =? 4104 then set_first s v
  else set_ring s (events s) v.

Fixpoint words_le (l : list Z) : list Z :=
  match l with
  | a :: b :: c :: d :: l => (a + b * 2 ^ 8 + c * 2 ^ 16 + d * 2 ^ 24) :: words_le l
  | _ => []
  end.

Definition events_state_load (f : QEMUFile) (s : events_state) (version_id : Z) : res (Z * events_state * QEMUFile) :=
  if negb (version_id =? EVENTS_STATE_SAVE_VERSION) then Ok (-1, s, f)
  else qemu_get_struct events_state_fields set_events_field (fun _ b s => set_ring s (words_le b) (last s)) s f.

(** ** The ring as a queue *)

Definition ring_wf (s : events_state) : Prop :=
  length (events s) = 1024%nat /\ 0 <= first s < 1024 /\ 0 <= last s < 1024 /\ 0 <= irq s < 32.

Definition count (s : events_state) : Z := (last s - first s) mod 1024.
Definition ring_at (s : events_state) (i : Z) : Z := default 0 (events s !! Z.to_nat ((first s + i) mod 1024)).
Definition queue (s : events_state) : list Z := map (fun i => ring_at s (Z.of_nat i)) (seq 0 (Z.to_nat (count s))).

Lemma next_index x : 0 <= x < 1024 -> Z.land (u32 (x + 1)) (MAX_EVENTS - 1) = (x + 1) mod 1024.
Proof.
  intros Hx. rewrite uwrap_small by lia. change (MAX_EVENTS - 1) with (Z.ones 10). by rewrite Z.land_ones by lia.
Qed.

Lemma length_event_queue s : Z.of_nat (length (queue s)) = count s.
Proof. unfold queue. rewrite length_map, length_seq. unfold count. pose proof (Z.mod_pos_bound (last s - first s) 1024). lia. Qed.

Lemma queue_nil s : ring_wf s -> (first s =? last s) = (length (queue s) =? 0)%nat.
Proof.
  intros (_ & Hf & Hl & _). pose proof (length_event_queue s) as Hq. unfold count in Hq.
  destruct (Z.eqb_spec (first s) (last s)) as [E|E]; symmetry.
  - apply Nat.eqb_eq. rewrite E, Z.sub_diag in Hq. change (0 mod 1024) with 0 in Hq. lia.
  - apply Nat.eqb_neq. intros H0. rewrite H0 in Hq. symmetry in Hq. apply Z.mod_divide in Hq as [c Hc]; lia.
Qed.

Lemma put_event_ok v s :
  ring_wf s -> count s < 1023 ->
  exists s', put_event v s = Ok s' /\ ring_wf s' /\ queue s' = queue s ++ [v] /\ count s' = count s + 1 /\
    irq s' = irq s /\ page s' = page s.
Proof.
  intros (Hl & Hf & Hla & Hi) Hc. unfold put_event, arr_set.
  rewrite (proj2 (Z.ltb_ge _ _)), (proj2 (Z.leb_gt _ _)) by lia. cbn [orb rbind]. rewrite next_index by done.
  set (s' := set_ring s _ _). exists s'.
  assert (Hcs : count s' = count s + 1).
  { unfold count. cbn [s' set_ring first last]. rewrite Zminus_mod_idemp_l.
    replace (last s + 1 - first s) with (last s - first s + 1) by lia.
    rewrite <- Z.add_mod_idemp_l by lia. apply Z.mod_small. unfold count in Hc.
    pose proof (Z.mod_pos_bound (last s - first s) 1024). lia. }
  assert (0 <= count s) by (unfold count; pose proof (Z.mod_pos_bound (last s - first s) 1024); lia).
  split; [done|]. split; [|split; [|done]].
  - split; [cbn; by rewrite length_insert|]. split; [done|]. split; [|done]. cbn. apply Z.mod_pos_bound. lia.
  - unfold queue. rewrite Hcs. replace (Z.to_nat (count s + 1)) with (Z.to_nat (count s) + 1)%nat by lia.
    rewrite seq_app, map_app. f_equal.
    + apply map_ext_in. intros i Hi'%in_seq. unfold ring_at. cbn [s' set_ring first events].
      rewrite list_lookup_insert_ne; [done|]. intros E.
      assert (Hm : (first s + Z.of_nat i) mod 1024 = last s).
      { pose proof (Z.mod_pos_bound (first s + Z.of_nat i) 1024). lia. }
      assert (Z.of_nat i = count s); [|lia]. unfold count. rewrite <- Hm.
      rewrite Zminus_mod_idemp_l. replace (first s + Z.of_nat i - first s) with (Z.of_nat i) by lia.
      symmetry. apply Z.mod_small. lia.
    + cbn [map seq]. f_equal. unfold ring_at. cbn [s' set_ring first events]. rewrite Nat.add_0_l, Z2Nat.id by lia.
      unfold count. rewrite Z.add_mod_idemp_r by lia. replace (first s + (last s - first s)) with (last s) by lia.
      rewrite Z.mod_small, list_lookup_insert_eq by lia. done.
Qed.

Lemma enqueued_count s : ring_wf s ->
  (let e := s32 (u32 (last s - first s)) in if e <? 0 then e + MAX_EVENTS else e) = count s.
Proof.
  intros (_ & Hf & Hl & _). cbn zeta. rewrite swrap_uwrap, swrap_small by (simpl; lia). unfold count, MAX_EVENTS.
  destruct (Z.ltb_spec (last s - first s) 0).
  - apply Z.mod_unique with (-1); lia.
  - symmetry. apply Z.mod_small. lia.
Qed.

(** The queue of words that the device is: an event is three words, lost as
    a whole when there is no room for it. *)
Definition push (type code value : Z) (q : list Z) : list Z :=
  if 1020 <=? Z.of_nat (length q) then q else q ++ [u32 type; u32 code; u32 value].

Definition push_mouse (dx dy dz b : Z) (q : list Z) : list Z :=
  push EV_SYN 0 0
    (if dz =? 0 then push EV_KEY BTN_TOUCH (Z.land b 1) (push EV_ABS ABS_Z dz (push EV_ABS ABS_Y dy (push EV_ABS ABS_X dx q)))
     else push EV_REL REL_Y dy (push EV_REL REL_X dx q)).

Section Queue.
Context {W : Type} {pic : list (qemu_irq W)} `{P : PicLines W pic}.

(** The line is high exactly when the queue has something. *)
Definition events_line (s : events_state) (w : W) : Prop :=
  pic_ok w /\ line_level w (irq s) = negb (length (queue s) =? 0)%nat.

Lemma enqueue_spec type code value s w :
  ring_wf s -> events_line s w ->
  exists s' w', enqueue_event pic type code value s w = Ok (s', w') /\ ring_wf s' /\ events_line s' w' /\
    queue s' = push type code value (queue s) /\ irq s' = irq s /\ page s' = page s.
Proof.
  intros Hwf [Hp Hl]. unfold enqueue_event. cbn zeta. pose proof (enqueued_count s Hwf) as E. cbn zeta in E. rewrite E.
  unfold push. rewrite length_event_queue. destruct (Z.leb_spec (MAX_EVENTS - 1) (count s + 3)) as [Hfull|Hroom]; unfold MAX_EVENTS in *.
  { rewrite (proj2 (Z.leb_le _ _)) by lia. by exists s, w. }
  rewrite (proj2 (Z.leb_gt _ _)) by lia.
  assert (exists w1, (if first s =? last s then events_raise pic s w else Ok w) = Ok w1 /\ pic_ok w1 /\
                     line_level w1 (irq s) = true) as (w1 & -> & Hp1 & Hl1).
  { rewrite (queue_nil s Hwf). destruct (length (queue s) =? 0)%nat; [|by exists w].
    destruct Hwf as (_ & _ & _ & Hi). unfold events_raise.
    destruct (drive_line w (irq s) 1 Hp Hi) as (w1 & E1 & H1 & H2 & _). by exists w1. }
  cbn [rbind].
  destruct (put_event_ok (u32 type) s Hwf) as (s1 & -> & W1 & Q1 & C1 & I1 & P1); [lia|]. cbn [rbind].
  destruct (put_event_ok (u32 code) s1 W1) as (s2 & -> & W2 & Q2 & C2 & I2 & P2); [lia|]. cbn [rbind].
  destruct (put_event_ok (u32 value) s2 W2) as (s3 & -> & W3 & Q3 & C3 & I3 & P3); [lia|]. cbn [rbind].
  exists s3, w1. split; [done|]. split; [done|].
  assert (EQ : queue s3 = queue s ++ [u32 type; u32 code; u32 value]) by (rewrite Q3, Q2, Q1, <- !app_assoc; done).
  split; [|split; [done|split; congruence]]. split; [done|]. rewrite I3, I2, I1, Hl1, EQ, length_app. cbn.
  by rewrite Nat.add_comm.
Qed.

Lemma dequeue_spec s w :
  ring_wf s -> events_line s w ->
  exists s' w', dequeue_event pic s w = Ok (hd 0 (queue s), s', w') /\ ring_wf s' /\ events_line s' w' /\
    queue s' = tl (queue s) /\ irq s' = irq s /\ page s' = page s.
Proof.
  intros Hwf [Hp Hl]. unfold dequeue_event. pose proof (queue_nil s Hwf) as Hq.
  destruct (Z.eqb_spec (first s) (last s)) as [E|E].
  { symmetry in Hq. apply Nat.eqb_eq, nil_length_inv in Hq. rewrite Hq in *. exists s, w.
    split; [done|]. split; [done|]. split; [|done]. split; [done|]. by rewrite Hq. }
  pose proof Hwf as (Hlen & Hf & Hla & Hi). unfold arr_get. rewrite (proj2 (Z.ltb_ge _ _)) by lia.
  destruct (events s !! Z.to_nat (first s)) as [v|] eqn:Hv; [|apply lookup_ge_None_1 in Hv; lia]. cbn [rbind].
  rewrite next_index by done. set (s' := set_first s _).
  assert (Hc : 0 < count s < 1024).
  { pose proof (length_event_queue s). symmetry in Hq. apply Nat.eqb_neq in Hq.
    unfold count in *. pose proof (Z.mod_pos_bound (last s - first s) 1024). lia. }
  assert (Hcs : count s' = count s - 1).
  { unfold count. cbn [s' set_first first last]. rewrite Zminus_mod_idemp_r.
    replace (last s - (first s + 1)) with (last s - first s - 1) by lia.
    rewrite <- Zminus_mod_idemp_l. fold (count s). apply Z.mod_small. lia. }
  assert (Hwf' : ring_wf s').
  { split; [done|]. split; [cbn; apply Z.mod_pos_bound; lia|]. done. }
  assert (Hqs : queue s = v :: queue s').
  { unfold queue. rewrite Hcs. replace (Z.to_nat (count s)) with (S (Z.to_nat (count s - 1))) by lia.
    cbn [seq map]. f_equal.
    - unfold ring_at. rewrite Z.add_0_r, Z.mod_small, Hv by lia. done.
    - rewrite <- seq_shift, map_map. apply map_ext. intros i. unfold ring_at. cbn [s' set_first first events].
      rewrite Z.add_mod_idemp_l by lia.
      replace (first s + 1 + Z.of_nat i) with (first s + Z.of_nat (S i)) by lia. done. }
  rewrite (queue_nil s' Hwf'), Hqs. cbn [hd tl].
  assert (exists w1, (if (length (queue s') =? 0)%nat then events_lower pic s' w else Ok w) = Ok w1 /\ pic_ok w1 /\
            line_level w1 (irq s) = negb (length (queue s') =? 0)%nat) as (w1 & -> & Hp1 & Hl1).
  { destruct (length (queue s') =? 0)%nat.
    - destruct (drive_line w (irq s) 0 Hp Hi) as (w1 & E1 & H1 & H2 & _). by exists w1.
    - exists w. split; [done|]. split; [done|]. rewrite Hl, Hqs. done. }
  cbn [rbind]. by exists s', w1.
Qed.

(** ** Sequences of operations *)

Inductive events_op :=
| OpKey (keycode : Z)
| OpMouse (dx dy dz buttons : Z)
| OpGeneric (type code value : Z)
| OpRead                        (* the guest reads [REG_READ] *)
| OpPage (p : Z).               (* the guest writes [REG_SET_PAGE] *)

(** The words that the guest reads, the device and the controller. *)
Fixpoint events_run (ops : list events_op) (s : events_state) (w : W) : res (list Z * events_state * W) :=
  match ops with
  | [] => Ok ([], s, w)
  | o :: ops =>
      let! (r, s, w) :=
        match o with
        | OpKey k => let! (s, w) := events_put_keycode pic k s w in Ok ([], s, w)
        | OpMouse dx dy dz b => let! (s, w) := events_put_mouse pic dx dy dz b s w in Ok ([], s, w)
        | OpGeneric t c v => let! (s, w) := events_put_generic pic t c v s w in Ok ([], s, w)
        | OpRead => let! (v, s, w) := events_read pic REG_READ s w in Ok ([v], s, w)
        | OpPage p => Ok ([], events_write REG_SET_PAGE p s, w)
        end in
      let! (rs, s, w) := events_run ops s w in
      Ok (r ++ rs, s, w)
  end.

Definition spec_event (o : events_op) (q : list Z) : list Z * list Z :=
  match o with
  | OpKey k => ([], push EV_KEY (Z.land k 0x1ff) (cbool (ctrue (Z.land k 0x200))) q)
  | OpMouse dx dy dz b => ([], push_mouse dx dy dz b q)
  | OpGeneric t c v => ([], push t c v q)
  | OpRead => ([hd 0 q], tl q)
  | OpPage _ => ([], q)
  end.

Fixpoint spec_events (ops : list events_op) (q : list Z) : list Z * list Z :=
  match ops with
  | [] => ([], q)
  | o :: ops => let '(r, q) := spec_event o q in let '(rs, q) := spec_events ops q in (r ++ rs, q)
  end.

Ltac enqueue_step :=
  match goal with Hw : ring_wf ?s, Hl : events_line ?s ?w |- context [enqueue_event pic ?t ?c ?v ?s ?w] =>
    let s' := fresh "s" in let w' := fresh "w" in let Hw' := fresh "Hw" in let Hl' := fresh "Hl" in
    let Hq := fresh "Hq" in let Hi := fresh "Hi" in let Hp := fresh "Hp" in
    destruct (enqueue_spec t c v s w Hw Hl) as (s' & w' & -> & Hw' & Hl' & Hq & Hi & Hp); cbn [rbind] in *;
    clear Hw Hl
  end.

Lemma put_mouse_spec dx dy dz b s w :
  ring_wf s -> events_line s w ->
  exists s' w', events_put_mouse pic dx dy dz b s w = Ok (s', w') /\ ring_wf s' /\ events_line s' w' /\
    queue s' = push_mouse dx dy dz b (queue s).
Proof.
  intros Hw Hl. unfold events_put_mouse, push_mouse. destruct (dz =? 0); repeat enqueue_step;
    eexists _, _; (split; [done|]; split; [done|]; split; [done|congruence]).
Qed.

Lemma event_step_spec o s w :
  ring_wf s -> events_line s w ->
  exists s' w', events_run [o] s w = Ok (fst (spec_event o (queue s)), s', w') /\ ring_wf s' /\ events_line s' w' /\
    queue s' = snd (spec_event o (queue s)).
Proof.
  intros Hw Hl. destruct o as [k|dx dy dz b|t c v| |p]; cbn [events_run spec_event fst snd].
  - unfold events_put_keycode. enqueue_step. eexists _, _. split; [done|]. split; [done|]. by split.
  - destruct (put_mouse_spec dx dy dz b s w Hw Hl) as (s' & w' & -> & Hw' & Hl' & Hq). cbn [rbind].
    eexists _, _. split; [done|]. split; [done|]. by split.
  - unfold events_put_generic. enqueue_step. eexists _, _. split; [done|]. split; [done|]. by split.
  - change (events_read pic REG_READ s w) with (dequeue_event pic s w).
    destruct (dequeue_spec s w Hw Hl) as (s' & w' & -> & Hw' & Hl' & Hq & _). cbn [rbind].
    eexists _, _. split; [done|]. split; [done|]. by split.
  - eexists _, _. split; [done|]. split; [exact Hw|]. split; [exact Hl|done].
Qed.

Lemma events_run_spec ops s w :
  ring_wf s -> events_line s w ->
  exists s' w', events_run ops s w = Ok (fst (spec_events ops (queue s)), s', w') /\ ring_wf s' /\ events_line s' w' /\
    queue s' = snd (spec_events ops (queue s)).
Proof.
  revert s w. induction ops as [|o ops IH]; intros s w Hw Hl; [by exists s, w|].
  destruct (event_step_spec o s w Hw Hl) as (s1 & w1 & E & Hw1 & Hl1 & Hq1).
  cbn [events_run spec_events] in *. apply rbind_Ok in E as ([[r s2] w2] & -> & E). cbn [rbind] in E.
  injection E as E1 E2 E3. subst s2 w2. rewrite app_nil_r in E1. subst r. cbn [rbind].
  destruct (IH s1 w1 Hw1 Hl1) as (s' & w' & -> & Hw' & Hl' & Hq'). cbn [rbind]. rewrite Hq1 in *.
  destruct (spec_event o (queue s)) as [r q]. cbn [fst snd] in *. destruct (spec_events ops q) as [rs q']. by exists s', w'.
Qed.
End Queue.

(** ** The capability bits *)

Definition bit_at (bits : list Z) (i : Z) : bool := Z.testbit (default 0 (bits !! Z.to_nat (i / 8))) (i mod 8).

Lemma fill_ff_ok fuel il ih bits :
  (Z.to_nat (ih - il) <= fuel)%nat -> 0 <= il -> ih <= Z.of_nat (length bits) ->
  exists bits', fill_ff fuel il ih bits = Ok bits' /\ length bits' = length bits /\
    forall j, 0 <= j -> bits' !! Z.to_nat j = if (il <? j) && (j <? ih) then Some 0xff else bits !! Z.to_nat j.
Proof.
  revert il bits. induction fuel as [|fuel IH]; intros il bits Hf Hil Hih; cbn [fill_ff];
    (destruct (Z.ltb_spec (il + 1) ih) as [Hlt|Hge];
     [|exists bits; split; [done|]; split; [done|]; intros j Hj;
       destruct (Z.ltb_spec il j), (Z.ltb_spec j ih); cbn; (done || lia)]); [lia|].
  unfold arr_set. rewrite (proj2 (Z.ltb_ge _ _)), (proj2 (Z.leb_gt _ _)) by lia. cbn [orb rbind].
  destruct (IH (il + 1) (<[Z.to_nat (il + 1) := 0xff]> bits)) as (bits' & -> & Hl & Hj); [lia|lia|by rewrite length_insert|].
  exists bits'. split; [done|]. rewrite length_insert in Hl. split; [done|]. intros j Hj0. rewrite Hj by done.
  destruct (decide (j = il + 1)) as [->|Hne].
  - rewrite list_lookup_insert_eq by lia.
    destruct (Z.ltb_spec (il + 1) (il + 1)), (Z.ltb_spec il (il + 1)), (Z.ltb_spec (il + 1) ih); try lia; done.
  - rewrite list_lookup_insert_ne by lia.
    destruct (Z.ltb_spec (il + 1) j), (Z.ltb_spec il j); try lia; done.
Qed.

Lemma low3 x : Z.land x 7 = x mod 8.
Proof. change 7 with (Z.ones 3). by rewrite Z.land_ones. Qed.

Lemma below8 (P : Z -> Prop) : P 0 -> P 1 -> P 2 -> P 3 -> P 4 -> P 5 -> P 6 -> P 7 -> forall k, 0 <= k < 8 -> P k.
Proof. intros. assert (k = 0 \/ k = 1 \/ k = 2 \/ k = 3 \/ k = 4 \/ k = 5 \/ k = 6 \/ k = 7) by lia. naive_solver. Qed.

Lemma maskl_bit a k : 0 <= a < 8 -> 0 <= k < 8 -> Z.testbit (u8 (Z.shiftl 0xff a)) k = (a <=? k).
Proof. intros Ha. revert k. revert a Ha. refine (below8 _ _ _ _ _ _ _ _ _); refine (below8 _ _ _ _ _ _ _ _ _); reflexivity. Qed.
Lemma maskh_bit a k : 0 <= a < 8 -> 0 <= k < 8 -> Z.testbit (u8 (Z.shiftr 0xff (7 - a))) k = (k <=? a).
Proof. intros Ha. revert k. revert a Ha. refine (below8 _ _ _ _ _ _ _ _ _); refine (below8 _ _ _ _ _ _ _ _ _); reflexivity. Qed.
Lemma ff_bit k : 0 <= k < 8 -> Z.testbit 0xff k = true.
Proof. revert k. refine (below8 _ _ _ _ _ _ _ _ _); reflexivity. Qed.

Lemma grow_bits_ok bits ih :
  0 <= ih -> ih < Z.of_nat (length (grow_bits bits ih)) /\
  forall j, default 0 (grow_bits bits ih !! j) = default 0 (bits !! j).
Proof.
  intros Hih. unfold grow_bits. destruct (Z.leb_spec (Z.of_nat (length bits)) ih) as [Hl|Hl]; [|done].
  split; [rewrite length_app, length_replicate; lia|]. intros j. destruct (decide (j < length bits)%nat).
  - by rewrite lookup_app_l.
  - rewrite lookup_app_r, (lookup_ge_None_2 bits) by lia.
    destruct (replicate _ 0 !! (j - length bits)%nat) as [x|] eqn:E; [|done]. by apply lookup_replicate in E as [-> _].
Qed.

Lemma arr_get_in {A} (d : A) (l : list A) i : 0 <= i < Z.of_nat (length l) -> arr_get l i = Ok (default d (l !! Z.to_nat i)).
Proof.
  intros Hi. unfold arr_get. rewrite (proj2 (Z.ltb_ge _ _)) by lia.
  destruct (l !! Z.to_nat i) eqn:E; [done|]. apply lookup_ge_None_1 in E. lia.
Qed.

Lemma arr_set_in {A} (l : list A) i x : 0 <= i < Z.of_nat (length l) -> arr_set l i x = Ok (<[Z.to_nat i := x]> l).
Proof. intros Hi. unfold arr_set. by rewrite (proj2 (Z.ltb_ge _ _)), (proj2 (Z.leb_gt _ _)) by lia. Qed.

(** The bytes that a range of bits touches. *)
Definition byte_mask (bitl bith j : Z) : Z :=
  let il := bitl / 8 in let ih := bith / 8 in
  let maskl := u8 (Z.shiftl 0xff (Z.land bitl 7)) in let maskh := u8 (Z.shiftr 0xff (7 - Z.land bith 7)) in
  if (j =? il) && (j =? ih) then Z.land maskh maskl else if j =? il then maskl else if j =? ih then maskh
  else if (il <? j) && (j <? ih) then 0xff else 0.

Lemma set_bits_bytes bits bitl bith :
  0 <= bitl <= bith ->
  exists bits', set_bits bits bitl bith = Ok bits' /\ bith / 8 < Z.of_nat (length bits') /\
    forall j, 0 <= j ->
      default 0 (bits' !! Z.to_nat j) =
        if (bitl / 8 <? j) && (j <? bith / 8) then 0xff
        else Z.lor (default 0 (bits !! Z.to_nat j)) (byte_mask bitl bith j).
Proof.
  intros Hb. assert (Hl0 : 0 <= bitl / 8) by (apply Z.div_pos; lia).
  assert (Hlh : bitl / 8 <= bith / 8) by (apply Z.div_le_mono; lia). unfold set_bits, byte_mask. cbn zeta.
  set (il := bitl / 8) in *. set (ih := bith / 8) in *.
  destruct (grow_bits_ok bits ih ltac:(lia)) as [Hg Hd]. set (b0 := grow_bits bits ih) in *.
  set (ml := u8 (Z.shiftl 0xff (Z.land bitl 7))). set (mh := u8 (Z.shiftr 0xff (7 - Z.land bith 7))).
  assert (Hins : forall (b : list Z) i x j, 0 <= i < Z.of_nat (length b) -> 0 <= j ->
    default 0 (<[Z.to_nat i := x]> b !! Z.to_nat j) = if j =? i then x else default 0 (b !! Z.to_nat j)).
  { intros b i x j Hi Hj. destruct (Z.eqb_spec j i) as [->|Hne]; [by rewrite list_lookup_insert_eq by lia|].
    by rewrite list_lookup_insert_ne by lia. }
  destruct (Z.leb_spec ih il) as [Hle|Hlt].
  - assert (E : il = ih) by lia. rewrite (arr_get_in 0) by lia; cbn [rbind]; rewrite arr_set_in by lia. eexists. split; [reflexivity|].
    split; [by rewrite length_insert|]. intros j Hj. rewrite Hins, !Hd by lia. rewrite E.
    destruct (Z.eqb_spec j ih) as [->|Hne]; cbn [andb].
    + by rewrite Z.ltb_irrefl.
    + destruct ((ih <? j) && (j <? ih)) eqn:Hc; [|by rewrite Z.lor_0_r].
      apply andb_true_iff in Hc as [?%Z.ltb_lt ?%Z.ltb_lt]. lia.
  - rewrite (arr_get_in 0) by lia; cbn [rbind]; rewrite arr_set_in by lia. cbn [rbind].
    destruct (fill_ff_ok (Z.to_nat ih) il ih (<[Z.to_nat il := Z.lor (default 0 (b0 !! Z.to_nat il)) ml]> b0))
      as (b2 & -> & Hl2 & H2); [lia|lia|rewrite length_insert; lia|].
    rewrite length_insert in Hl2. cbn [rbind]. rewrite (arr_get_in 0) by lia; cbn [rbind]; rewrite arr_set_in by lia. eexists. split; [reflexivity|].
    split; [rewrite length_insert; lia|]. intros j Hj. rewrite Hins, !H2 by lia.
    destruct (Z.ltb_spec il ih) as [_|]; [|lia]. rewrite Z.ltb_irrefl. cbn [andb].
    rewrite Hins by lia. rewrite (proj2 (Z.eqb_neq ih il)), !Hd by lia.
    destruct (Z.eqb_spec j ih) as [->|Hjh]; cbn [andb].
    + rewrite (proj2 (Z.eqb_neq ih il)), Z.ltb_irrefl, andb_false_r by lia. done.
    + rewrite andb_false_r. destruct ((il <? j) && (j <? ih)) eqn:Hc; [done|]. rewrite Hins, !Hd by lia.
      destruct (Z.eqb_spec j il) as [->|]; [done|]. by rewrite Z.lor_0_r.
Qed.

(** In a byte the mask has exactly the bits of the range. *)
Lemma byte_mask_bit bitl bith i :
  0 <= bitl <= bith -> 0 <= i ->
  Z.testbit (if (bitl / 8 <? i / 8) && (i / 8 <? bith / 8) then 0xff else byte_mask bitl bith (i / 8)) (i mod 8)
  = (bitl <=? i) && (i <=? bith).
Proof.
  intros Hb Hi. unfold byte_mask. cbn zeta. rewrite !low3.
  pose proof (Z.mod_pos_bound i 8 ltac:(lia)) as Mi. pose proof (Z.mod_pos_bound bitl 8 ltac:(lia)) as Ml.
  pose proof (Z.mod_pos_bound bith 8 ltac:(lia)) as Mh.
  pose proof (Z.div_mod i 8 ltac:(lia)) as Di. pose proof (Z.div_mod bitl 8 ltac:(lia)) as Dl.
  pose proof (Z.div_mod bith 8 ltac:(lia)) as Dh.
  destruct (Z.ltb_spec (bitl / 8) (i / 8)), (Z.ltb_spec (i / 8) (bith / 8)), (Z.eqb_spec (i / 8) (bitl / 8)),
    (Z.eqb_spec (i / 8) (bith / 8)); try lia; cbn [andb];
    rewrite ?Z.land_spec, ?maskl_bit, ?maskh_bit, ?ff_bit, ?Z.bits_0 by lia;
    destruct (Z.leb_spec bitl i), (Z.leb_spec i bith), (Z.leb_spec (bitl mod 8) (i mod 8)),
      (Z.leb_spec (i mod 8) (bith mod 8)); cbn [andb]; (done || lia).
Qed.

(** Setting a range changes exactly the bits of the range. *)
Lemma set_bits_exact bits bitl bith :
  0 <= bitl <= bith ->
  exists bits', set_bits bits bitl bith = Ok bits' /\
    forall i, 0 <= i -> bit_at bits' i = bit_at bits i || ((bitl <=? i) && (i <=? bith)).
Proof.
  intros Hb. destruct (set_bits_bytes bits bitl bith Hb) as (bits' & E & _ & Hj). exists bits'. split; [done|].
  intros i Hi. rewrite <- byte_mask_bit by done. unfold bit_at. rewrite Hj by (apply Z.div_pos; lia).
  destruct (_ && _) eqn:Hc; [|by rewrite Z.lor_spec].
  rewrite ff_bit by (apply Z.mod_pos_bound; lia). by rewrite orb_true_r.
Qed.

Definition capability (s : events_state) (type code : Z) : bool :=
  bit_at (default [] (ev_bits s !! Z.to_nat type)) code.

(** Announcing codes. [events_set_bits] makes the device announce the
    codes from [bitl] to [bith] of one class and leaves every other code of
    every class as it was, across the bytes of the map and its growth. *)
Theorem events_set_bits_exact (type bitl bith : Z) (s : events_state) :
  length (ev_bits s) = 32%nat -> 0 <= type < 32 -> 0 <= bitl <= bith ->
  exists s', events_set_bits type bitl bith s = Ok s' /\ length (ev_bits s') = 32%nat /\
    (events s' = events s /\ first s' = first s /\ last s' = last s /\ page s' = page s) /\
    forall t i, 0 <= t < 32 -> 0 <= i ->
      capability s' t i = capability s t i || ((t =? type) && (bitl <=? i) && (i <=? bith)).
Proof.
  intros Hl Ht Hb. unfold events_set_bits. rewrite (arr_get_in []) by lia. cbn [rbind].
  destruct (set_bits_exact (default [] (ev_bits s !! Z.to_nat type)) bitl bith Hb) as (bits' & -> & Hbit).
  cbn [rbind]. eexists. split; [reflexivity|]. split; [cbn; by rewrite length_insert|]. split; [done|].
  intros t i Ht' Hi. unfold capability. cbn [set_ev_bits ev_bits]. destruct (Z.eqb_spec t type) as [->|Hne].
  - rewrite list_lookup_insert_eq by lia. exact (Hbit i Hi).
  - rewrite list_lookup_insert_ne by lia. by rewrite orb_false_r.
Qed.

Definition all_hw : hw_config := mkHw true true true true true.
Definition dev_of (r : res events_state) : events_state :=
  match r with Ok s => s | _ => mkEvents 0 0 0 [] 0 0 [] [] [] end.

Lemma events_set_bits_exact_witness :
  exists s', events_set_bits EV_KEY 3 21 (dev_of (events_dev_init 17 [] all_hw)) = Ok s' /\
    capability s' EV_KEY 5 = true.
Proof.
  destruct (events_set_bits_exact EV_KEY 3 21 (dev_of (events_dev_init 17 [] all_hw))) as (s' & E & _ & _ & H);
    [vm_compute; reflexivity|vm_compute; split; congruence..|].
  exists s'. split; [exact E|]. rewrite H by (unfold EV_KEY; lia). apply orb_true_r.
Defined.

(** ** The device that the board starts with *)

(** What each configuration announces. *)
Definition announced (c : hw_config) (type code : Z) : bool :=
  let any l := existsb (Z.eqb code) l in
  if type =? EV_SYN then
    any [EV_KEY] || hw_trackBall c && any [EV_REL] || hw_touchScreen c && any [EV_ABS] || hw_keyboard c && any [EV_SW]
  else if type =? EV_KEY then
    any [KEY_HOME; KEY_BACK; KEY_SEND; KEY_END; KEY_SOFT1; KEY_SOFT2; KEY_VOLUMEUP; KEY_VOLUMEDOWN; KEY_POWER; KEY_SEARCH]
    || hw_dPad c && any [KEY_DOWN; KEY_UP; KEY_LEFT; KEY_RIGHT; KEY_CENTER]
    || hw_trackBall c && any [BTN_MOUSE] || hw_touchScreen c && any [BTN_TOUCH] || hw_camera c && any [KEY_CAMERA]
    || hw_keyboard c && ((1 <=? code) && (code <=? 0xff) || (0x160 <=? code) && (code <=? 0x1ff))
  else if type =? EV_REL then hw_trackBall c && any [REL_X; REL_Y]
  else if type =? EV_ABS then hw_touchScreen c && any [ABS_X; ABS_Y; ABS_Z]
  else if type =? EV_SW then hw_keyboard c && any [0]
  else false.

Definition zseq (n : nat) : list Z := map Z.of_nat (seq 0 n).

Lemma zseq_in n i : 0 <= i < Z.of_nat n -> In i (zseq n).
Proof. intros H. unfold zseq. apply in_map_iff. exists (Z.to_nat i). split; [lia|]. apply in_seq. lia. Qed.

Definition caps_agree (c : hw_config) (bits : list (list Z)) : bool :=
  (length bits =? 32)%nat && forallb (fun b : list Z => Nat.leb (length b) 64) bits &&
  forallb (fun t => forallb (fun i =>
    Bool.eqb (bit_at (default [] (bits !! Z.to_nat t)) i) (announced c t i)) (zseq 512)) (zseq 6) &&
  forallb (fun b : list Z => (length b =? 0)%nat) (drop 6 bits).

Lemma events_init_computes line kc c :
  exists bits, events_dev_init line kc c
    = Ok (mkEvents line 0 0 (replicate (Z.to_nat MAX_EVENTS) 0) 0 0 kc bits []) /\ caps_agree c bits = true.
Proof.
  destruct c as [[] [] [] [] []]; (eexists; split; [vm_compute; reflexivity|vm_compute; reflexivity]).
Qed.

Lemma caps_agree_spec c bits t i :
  caps_agree c bits = true -> 0 <= t < 32 -> 0 <= i ->
  bit_at (default [] (bits !! Z.to_nat t)) i = announced c t i.
Proof.
  unfold caps_agree. rewrite !andb_true_iff, !forallb_forall. intros [[[Hl Hlen] H] Hnil] Ht Hi.
  destruct (decide (t < 6)) as [Ht6|Ht6].
  2:{ assert (announced c t i = false) as ->.
      { unfold announced, EV_SYN, EV_KEY, EV_REL, EV_ABS, EV_SW. by rewrite !(proj2 (Z.eqb_neq t _)) by lia. }
      destruct (bits !! Z.to_nat t) as [b|] eqn:Eb; cbn [from_option id]; unfold bit_at; [|rewrite lookup_nil; apply Z.bits_0].
      assert (Hd : drop 6 bits !! (Z.to_nat t - 6)%nat = Some b) by (rewrite lookup_drop, <- Eb; f_equal; lia).
      apply list_elem_of_lookup_2, list_elem_of_In, Hnil, Nat.eqb_eq, nil_length_inv in Hd as ->.
      rewrite lookup_nil. apply Z.bits_0. }
  destruct (decide (i < 512)) as [Hlt|Hge].
  - specialize (H t (zseq_in 6 t ltac:(lia))). rewrite forallb_forall in H.
    exact (eqb_prop _ _ (H i (zseq_in 512 i ltac:(lia)))).
  - assert (announced c t i = false) as ->.
    { unfold announced. cbn zeta. assert (Hn : forall l, Forall (fun x => x < 512) l -> existsb (Z.eqb i) l = false).
      { induction 1 as [|x l Hx Hf IH]; [done|]. cbn. by rewrite (proj2 (Z.eqb_neq i x)) by lia. }
      rewrite !Hn by (repeat constructor).
      rewrite (proj2 (Z.leb_gt i 0xff)), (proj2 (Z.leb_gt i 0x1ff)), !andb_false_r by lia. cbn [orb].
      by repeat case_match. }
    unfold bit_at. destruct (bits !! Z.to_nat t) as [b|] eqn:Eb; cbn [from_option id]; [|rewrite lookup_nil; apply Z.bits_0].
    assert (Hb : In b bits) by (apply list_elem_of_In; by eapply list_elem_of_lookup_2).
    specialize (Hlen b Hb). apply Nat.leb_le in Hlen.
    assert (64 <= i / 8) by (apply Z.div_le_lower_bound; lia).
    rewrite lookup_ge_None_2 by lia. apply Z.bits_0.
Qed.

(** What the device announces. For every hardware configuration the
    device starts, and the codes that it announces to the guest are exactly
    those of the hardware that the configuration has, for each of the 32
    classes and every code; a class that sends events is announced in
    [EV_SYN] as well. *)
Theorem events_capabilities (line : Z) (keycharmap : list Z) (c : hw_config) :
  exists s, events_dev_init line keycharmap c = Ok s /\
    (forall type code, 0 <= type < 32 -> 0 <= code -> capability s type code = announced c type code) /\
    (forall type code, 0 < type < 32 -> 0 <= code -> capability s type code = true -> capability s EV_SYN type = true).
Proof.
  destruct (events_init_computes line keycharmap c) as (bits & -> & Hc). eexists. split; [reflexivity|].
  assert (H : forall t i, 0 <= t < 32 -> 0 <= i -> capability
    (mkEvents line 0 0 (replicate (Z.to_nat MAX_EVENTS) 0) 0 0 keycharmap bits []) t i = announced c t i).
  { intros t i. exact (caps_agree_spec c bits t i Hc). }
  split; [exact H|]. intros t i Ht Hi. rewrite !H by (unfold EV_SYN; lia). unfold announced. cbn zeta.
  change (EV_SYN =? EV_SYN) with true. cbn iota.
  destruct (Z.eqb_spec t EV_SYN) as [->|_]; [unfold EV_SYN in Ht; lia|].
  destruct (Z.eqb_spec t EV_KEY) as [->|_]; [done|].
  destruct (Z.eqb_spec t EV_REL) as [->|_]; [destruct c as [? [] ? ? ?]; done|].
  destruct (Z.eqb_spec t EV_ABS) as [->|_]; [destruct c as [? [] [] ? ?]; done|].
  destruct (Z.eqb_spec t EV_SW) as [->|_]; [destruct c as [? [] [] ? []]; done|done].
Qed.

(** C18: The input queue. From start-up, for every sequence of key presses,
    mouse and touch events, host events, and reads and page selections of the
    guest, the device never leaves its ring and the guest reads exactly the
    words of a bounded first-in first-out queue: an event of three words is
    queued as a whole or, with 1020 words waiting, lost as a whole, an empty
    queue reads as 0; and after the sequence the line of the device is high
    exactly when words are waiting. *)
Theorem events_fifo {W : Type} {pic : list (qemu_irq W)} `{P : PicLines W pic}
  (line : Z) (keycharmap : list Z) (c : hw_config) (ops : list events_op) (w : W) :
  0 <= line < 32 -> pic_ok w -> line_level w line = false ->
  exists s s' w', events_dev_init line keycharmap c = Ok s /\
    events_run (pic := pic) ops s w = Ok (fst (spec_events ops []), s', w') /\
    queue s' = snd (spec_events ops []) /\
    line_level w' (irq s') = negb (length (queue s') =? 0)%nat /\ ring_wf s'.
Proof.
  intros Hline Hp Hl. destruct (events_init_computes line keycharmap c) as (bits & -> & _). eexists.
  set (s0 := mkEvents _ _ _ _ _ _ _ _ _).
  assert (Hq : queue s0 = []) by reflexivity.
  assert (Hw : ring_wf s0) by (split; [reflexivity|split; [done|split; done]]).
  destruct (events_run_spec ops s0 w Hw) as (s' & w' & E & Hw' & [_ Hl'] & Hq').
  { split; [done|]. by rewrite Hq. }
  rewrite Hq in *. by exists s', w'.
Qed.

Lemma events_fifo_witness :
  exists s s' w', events_dev_init 17 [] all_hw = Ok s /\
    events_run (pic := arm_pic) [OpKey 0x21e; OpMouse 10 20 0 1; OpRead; OpRead; OpRead] s pic0
      = Ok ([1; 30; 1], s', w') /\ length (queue s') = 15%nat /\ line_level w' (irq s') = true.
Proof.
  destruct (events_fifo (pic := arm_pic) 17 [] all_hw [OpKey 0x21e; OpMouse 10 20 0 1; OpRead; OpRead; OpRead] pic0)
    as (s & s' & w' & E & R & Q & L & _); [lia|exact int_wf_init|vm_compute; reflexivity|].
  exists s, s', w'. split; [exact E|]. split; [exact R|].
  assert (length (queue s') = 15%nat) as Hn by (rewrite Q; vm_compute; reflexivity).
  split; [exact Hn|]. rewrite L, Hn. reflexivity.
Defined.

(** Saving the input device stops the emulator. [qemu_put_struct] looks
    for the size of a buffer at the head of the field list and not behind the
    buffer; the list of this device has no size there, so that every snapshot
    of the board exits at this section. *)
Theorem events_save_stops (f : QEMUFile) (data : list Z) (s : events_state) :
  writing f data -> events_state_save f s = Abort.
Proof.
  intros Hw. unfold events_state_save, qemu_put_struct, events_state_fields. cbn [put_struct_loop qf_type qf_offset].
  destruct (put_be32_writing f data (events_field s 0 4) Hw) as (f1 & -> & Hw1). cbn [rbind].
  by destruct (put_be32_writing f1 _ (events_field s 4 4) Hw1) as (f2 & -> & _).
Qed.

Lemma events_save_stops_witness : events_state_save qemu_fopen_wb (dev_of (events_dev_init 17 [] all_hw)) = Abort.
Proof. exact (events_save_stops qemu_fopen_wb [] _ writing_open). Defined.

(** Loading gives up in the same way. *)
Lemma events_load_fails f f1 f2 a b s version_id :
  qemu_get_be32 f = Ok (a, f1) -> qemu_get_be32 f1 = Ok (b, f2) ->
  exists s', events_state_load f s version_id = Ok (-1, s', if version_id =? EVENTS_STATE_SAVE_VERSION then f2 else f) /\
    events s' = events s /\ first s' = first s /\ last s' = last s.
Proof.
  intros Ha Hb. unfold events_state_load. destruct (version_id =? EVENTS_STATE_SAVE_VERSION); cbn [negb]; [|by exists s].
  unfold qemu_get_struct, events_state_fields. cbn [get_struct_loop qf_type qf_offset]. rewrite Ha. cbn [rbind].
  rewrite Hb. cbn [rbind]. by eexists.
Qed.

(** Reading a page at its length: the test of [get_page_data] is [offset >
    page_len], so that the byte behind the capability bits of a class is
    read, and the absolute ranges although there are none. *)
Lemma page_over_read s :
  (forall t, 0 <= t <= EV_MAX -> page s = PAGE_EVBITS + t -> get_page_data s (get_page_len s) = Undef) /\
  (page s = PAGE_ABSDATA -> abs_info s = [] -> get_page_data s (get_page_len s) = Undef).
Proof.
  split.
  - intros t Ht Hp. unfold get_page_data. rewrite Z.ltb_irrefl. unfold get_page_len. rewrite Hp.
    unfold PAGE_EVBITS, PAGE_NAME, EV_MAX in *. rewrite (proj2 (Z.eqb_neq _ _)) by lia.
    rewrite !(proj2 (Z.leb_le _ _)) by lia. cbn [andb]. unfold arr_get.
    rewrite (proj2 (Z.ltb_ge _ _)), Nat2Z.id, lookup_ge_None_2 by lia. done.
  - intros Hp Ha. unfold get_page_data. rewrite Z.ltb_irrefl. unfold get_page_len. rewrite Hp, Ha. reflexivity.
Qed.
