(* ===== verification/ArmCpu.v ===== *)
(** * The ARM CPU: registers, status register, modes and exceptions

    [CPUARMState] of [target-arm/cpu.h] and the functions of
    [target-arm/helper.c] that the translated code calls to change the
    processor's mode. The scalar members of the structure are a map from
    their names, its arrays a map from theirs. *)
From S2P Require Import Prelude.
From stdpp Require Import list sets.
#[local] Open Scope Z_scope.

(** ** The state *)

Inductive cpu_field :=
| uncached_cpsr | spsr | CF | VF | NF | ZF | QF | GE | thumb | condexec_bits
| c0_cpuid | c0_cachetype | c0_clid | c0_cssel | c1_sys | c1_coproc | c1_xscaleauxcr
| c2_base0 | c2_base1 | c2_control | c2_mask | c2_base_mask | c2_data | c2_insn | c3
| c5_insn | c5_data | c6_insn | c6_data | c9_insn | c9_data
| c13_fcse | c13_context | c13_tls1 | c13_tls2 | c13_tls3
| c15_cpar | c15_ticonfig | c15_i_max | c15_i_min | c15_threadid
| v7m_other_sp | v7m_vecbase | v7m_basepri | v7m_control | v7m_current_sp | v7m_exception
| features | vec_len | vec_stride | mmon_addr
| exception_index | interrupt_request | cpu_index.

#[global] Instance cpu_field_eq_dec : EqDecision cpu_field.
Proof. solve_decision. Defined.

Inductive cpu_array :=
| regs | banked_spsr | banked_r13 | banked_r14 | usr_regs | fiq_regs
| c0_ccsid | c0_c1 | c0_c2 | c6_region
| vfp_regs                      (* the bits of the doubles *)
| vfp_xregs | iwmmxt_regs | iwmmxt_cregs.

#[global] Instance cpu_array_eq_dec : EqDecision cpu_array.
Proof. solve_decision. Defined.

Definition array_size (a : cpu_array) : nat :=
  match a with
  | regs => 16 | banked_spsr => 6 | banked_r13 => 6 | banked_r14 => 6
  | usr_regs => 5 | fiq_regs => 5 | c0_ccsid => 16 | c0_c1 => 8 | c0_c2 => 8 | c6_region => 8
  | vfp_regs => 32 | vfp_xregs => 16 | iwmmxt_regs => 16 | iwmmxt_cregs => 16
  end.

Record CPUARMState := mkCPU { fld : cpu_field -> Z; arrs : cpu_array -> list Z }.

Definition setf (f : cpu_field) (v : Z) (e : CPUARMState) : CPUARMState :=
  mkCPU (fun g => if decide (g = f) then v else fld e g) (arrs e).
Definition seta (a : cpu_array) (l : list Z) (e : CPUARMState) : CPUARMState :=
  mkCPU (fld e) (fun b => if decide (b = a) then l else arrs e b).

(** [e->a[i]] and [e->a[i] = v], for an index that is in range. *)
Definition elt (e : CPUARMState) (a : cpu_array) (i : nat) : Z := default 0 (arrs e a !! i).
Definition sete (a : cpu_array) (i : nat) (v : Z) (e : CPUARMState) : CPUARMState :=
  seta a (<[i := v]> (arrs e a)) e.

(** ** Status register bits *)

Definition CPSR_M : Z := 0x1f.
Definition CPSR_T : Z := 0x20.
Definition CPSR_F : Z := 0x40.
Definition CPSR_I : Z := 0x80.
Definition CPSR_A : Z := 0x100.
Definition CPSR_IT_2_7 : Z := 0xfc00.
Definition CPSR_GE : Z := 0xf0000.
Definition CPSR_IT_0_1 : Z := 0x6000000.
Definition CPSR_Q : Z := 0x8000000.
Definition CPSR_Z : Z := 0x40000000.
Definition CPSR_NZCV : Z := 0xf0000000.
Definition CACHED_CPSR_BITS : Z :=
  Z.lor CPSR_T (Z.lor CPSR_GE (Z.lor (Z.lor CPSR_IT_0_1 CPSR_IT_2_7) (Z.lor CPSR_Q CPSR_NZCV))).

Definition ARM_CPU_MODE_USR : Z := 0x10.
Definition ARM_CPU_MODE_FIQ : Z := 0x11.
Definition ARM_CPU_MODE_IRQ : Z := 0x12.
Definition ARM_CPU_MODE_SVC : Z := 0x13.
Definition ARM_CPU_MODE_ABT : Z := 0x17.
Definition ARM_CPU_MODE_UND : Z := 0x1b.
Definition ARM_CPU_MODE_SYS : Z := 0x1f.

Definition ARM_FEATURE_VFP : Z := 0.
Definition ARM_FEATURE_AUXCR : Z := 1.
Definition ARM_FEATURE_XSCALE : Z := 2.
Definition ARM_FEATURE_IWMMXT : Z := 3.
Definition ARM_FEATURE_V6 : Z := 4.
Definition ARM_FEATURE_V6K : Z := 5.
Definition ARM_FEATURE_V7 : Z := 6.
Definition ARM_FEATURE_THUMB2 : Z := 7.
Definition ARM_FEATURE_MPU : Z := 8.
Definition ARM_FEATURE_VFP3 : Z := 9.
Definition ARM_FEATURE_NEON : Z := 10.
Definition ARM_FEATURE_DIV : Z := 11.
Definition ARM_FEATURE_M : Z := 12.
Definition ARM_FEATURE_OMAPCP : Z := 13.
Definition ARM_FEATURE_THUMB2EE : Z := 14.

Definition arm_feature (e : CPUARMState) (feature : Z) : bool :=
  ctrue (Z.land (fld e features) (bit32 feature)).
Definition set_feature (feature : Z) (e : CPUARMState) : CPUARMState :=
  setf features (Z.lor (fld e features) (bit32 feature)) e.

(** [x & ~y] in 32 bits. *)
Abbreviation andn x y := (Z.ldiff x y).

Definition cpsr_read (e : CPUARMState) : Z :=
  let zf := cbool (fld e ZF =? 0) in
  Z.lor (Z.lor (Z.lor (Z.lor (Z.lor (Z.lor (Z.lor (Z.lor (Z.lor
    (fld e uncached_cpsr)
    (Z.land (fld e NF) 0x80000000))
    (Z.shiftl zf 30))
    (u32 (Z.shiftl (fld e CF) 29)))
    (Z.shiftr (Z.land (fld e VF) 0x80000000) 3))
    (u32 (Z.shiftl (fld e QF) 27)))
    (u32 (Z.shiftl (fld e thumb) 5)))
    (Z.shiftl (Z.land (fld e condexec_bits) 3) 25))
    (Z.shiftl (Z.land (fld e condexec_bits) 0xfc) 8))
    (u32 (Z.shiftl (fld e GE) 16)).

(** ** Modes *)

Definition bank_number (mode : Z) : res nat :=
  if (mode =? ARM_CPU_MODE_USR) || (mode =? ARM_CPU_MODE_SYS) then Ok 0%nat
  else if mode =? ARM_CPU_MODE_SVC then Ok 1%nat
  else if mode =? ARM_CPU_MODE_ABT then Ok 2%nat
  else if mode =? ARM_CPU_MODE_UND then Ok 3%nat
  else if mode =? ARM_CPU_MODE_IRQ then Ok 4%nat
  else if mode =? ARM_CPU_MODE_FIQ then Ok 5%nat
  else Abort.

Definition cur_mode (e : CPUARMState) : Z := Z.land (fld e uncached_cpsr) CPSR_M.

(** [memcpy] of [env->regs + 8] to a bank of five registers, and back. *)
Definition save_r8 (a : cpu_array) (e : CPUARMState) : CPUARMState :=
  seta a (take 5 (drop 8 (arrs e regs))) e.
Definition load_r8 (a : cpu_array) (e : CPUARMState) : CPUARMState :=
  seta regs (splice (arrs e regs) 8 (arrs e a)) e.

Definition switch_mode (mode : Z) (e : CPUARMState) : res CPUARMState :=
  let old_mode := cur_mode e in
  if mode =? old_mode then Ok e else
  let e :=
    if old_mode =? ARM_CPU_MODE_FIQ then load_r8 usr_regs (save_r8 fiq_regs e)
    else if mode =? ARM_CPU_MODE_FIQ then load_r8 fiq_regs (save_r8 usr_regs e)
    else e in
  let! i := bank_number old_mode in
  let e := sete banked_r13 i (elt e regs 13) e in
  let e := sete banked_r14 i (elt e regs 14) e in
  let e := sete banked_spsr i (fld e spsr) e in
  let! i := bank_number mode in
  let e := sete regs 13 (elt e banked_r13 i) e in
  let e := sete regs 14 (elt e banked_r14 i) e in
  Ok (setf spsr (elt e banked_spsr i) e).

Definition cpsr_write (val mask : Z) (e : CPUARMState) : res CPUARMState :=
  let e :=
    if ctrue (Z.land mask CPSR_NZCV) then
      setf VF (Z.land (u32 (Z.shiftl val 3)) 0x80000000)
        (setf CF (Z.land (Z.shiftr val 29) 1)
           (setf NF val (setf ZF (Z.land (not32 val) CPSR_Z) e)))
    else e in
  let e := if ctrue (Z.land mask CPSR_Q)
           then setf QF (cbool (ctrue (Z.land val CPSR_Q))) e else e in
  let e := if ctrue (Z.land mask CPSR_T)
           then setf thumb (cbool (ctrue (Z.land val CPSR_T))) e else e in
  let e := if ctrue (Z.land mask CPSR_IT_0_1)
           then setf condexec_bits (Z.lor (andn (fld e condexec_bits) 3) (Z.land (Z.shiftr val 25) 3)) e
           else e in
  let e := if ctrue (Z.land mask CPSR_IT_2_7)
           then setf condexec_bits (Z.lor (Z.land (fld e condexec_bits) 3) (Z.land (Z.shiftr val 8) 0xfc)) e
           else e in
  let e := if ctrue (Z.land mask CPSR_GE)
           then setf GE (Z.land (Z.shiftr val 16) 0xf) e else e in
  let! e := if ctrue (Z.land (Z.land (Z.lxor (fld e uncached_cpsr) val) mask) CPSR_M)
            then switch_mode (Z.land val CPSR_M) e else Ok e in
  let mask := andn mask CACHED_CPSR_BITS in
  Ok (setf uncached_cpsr (Z.lor (andn (fld e uncached_cpsr) mask) (Z.land val mask)) e).

Definition set_r13_banked (mode val : Z) (e : CPUARMState) : res CPUARMState :=
  let! i := bank_number mode in Ok (sete banked_r13 i val e).
Definition get_r13_banked (mode : Z) (e : CPUARMState) : res Z :=
  let! i := bank_number mode in Ok (elt e banked_r13 i).

(** ** Exceptions *)

Definition EXCP_UDEF : Z := 1.
Definition EXCP_SWI : Z := 2.
Definition EXCP_PREFETCH_ABORT : Z := 3.
Definition EXCP_DATA_ABORT : Z := 4.
Definition EXCP_IRQ : Z := 5.
Definition EXCP_FIQ : Z := 6.
Definition EXCP_BKPT : Z := 7.
Definition CPU_INTERRUPT_EXITTB : Z := 4.

(** What an exception does: the mode entered, the vector, the bits it masks
    and how far the return address is from the program counter. *)
Record exception_kind := mkExc { new_mode : Z; vector : Z; exc_mask : Z; exc_offset : Z }.

Definition exception_entry (e : CPUARMState) : option exception_kind :=
  let n := fld e exception_index in
  if n =? EXCP_UDEF then
    Some (mkExc ARM_CPU_MODE_UND 0x04 CPSR_I (if ctrue (fld e thumb) then 2 else 4))
  else if n =? EXCP_SWI then Some (mkExc ARM_CPU_MODE_SVC 0x08 CPSR_I 0)
  else if (n =? EXCP_BKPT) || (n =? EXCP_PREFETCH_ABORT) then
    Some (mkExc ARM_CPU_MODE_ABT 0x0c (Z.lor CPSR_A CPSR_I) 4)
  else if n =? EXCP_DATA_ABORT then Some (mkExc ARM_CPU_MODE_ABT 0x10 (Z.lor CPSR_A CPSR_I) 8)
  else if n =? EXCP_IRQ then Some (mkExc ARM_CPU_MODE_IRQ 0x18 (Z.lor CPSR_A CPSR_I) 4)
  else if n =? EXCP_FIQ then
    Some (mkExc ARM_CPU_MODE_FIQ 0x1c (Z.lor (Z.lor CPSR_A CPSR_I) CPSR_F) 4)
  else None.

Section Exceptions.
(** The microcontroller profile's exception entry, the semihosting call and
    the reads of the guest's code. *)
Context (do_interrupt_v7m : CPUARMState -> res CPUARMState).
Context (semihosting_enabled : bool) (do_arm_semihosting : CPUARMState -> res (Z * CPUARMState)).
Context (lduw_code ldl_code : Z -> Z).

(** A call that semihosting takes instead of the guest. *)
Definition semihosting_call (e : CPUARMState) : option CPUARMState :=
  if fld e exception_index =? EXCP_SWI then
    if semihosting_enabled then
      let mask := if ctrue (fld e thumb)
                  then Z.land (lduw_code (u32 (elt e regs 15 - 2))) 0xff
                  else Z.land (ldl_code (u32 (elt e regs 15 - 4))) 0xffffff in
      if (((mask =? 0x123456) && negb (ctrue (fld e thumb))) || ((mask =? 0xab) && ctrue (fld e thumb)))
         && negb (cur_mode e =? ARM_CPU_MODE_USR)
      then Some e else None
    else None
  else if fld e exception_index =? EXCP_BKPT then
    if ctrue (fld e thumb) && semihosting_enabled then
      let mask := Z.land (lduw_code (elt e regs 15)) 0xff in
      if (mask =? 0xab) && negb (cur_mode e =? ARM_CPU_MODE_USR)
      then Some (sete regs 15 (u32 (elt e regs 15 + 2)) e) else None
    else None
  else None.

Definition do_interrupt (e : CPUARMState) : res CPUARMState :=
  if arm_feature e ARM_FEATURE_M then do_interrupt_v7m e else
  match semihosting_call e with
  | Some e => let! (r, e) := do_arm_semihosting e in Ok (sete regs 0 r e)
  | None =>
      match exception_entry e with
      | None => Abort
      | Some k =>
          let addr := if ctrue (Z.land (fld e c1_sys) (bit32 13))
                      then u32 (vector k + 0xffff0000) else vector k in
          let! e := switch_mode (new_mode k) e in
          let e := setf spsr (cpsr_read e) e in
          let e := setf condexec_bits 0 e in
          let e := setf uncached_cpsr (Z.lor (andn (fld e uncached_cpsr) CPSR_M) (new_mode k)) e in
          let e := setf uncached_cpsr (Z.lor (fld e uncached_cpsr) (exc_mask k)) e in
          let e := setf thumb 0 e in
          let e := sete regs 14 (u32 (elt e regs 15 + exc_offset k)) e in
          let e := sete regs 15 addr e in
          Ok (setf interrupt_request (Z.lor (fld e interrupt_request) CPU_INTERRUPT_EXITTB) e)
      end
  end.
End Exceptions.

(** ** Members *)

Lemma fld_seta a l e f : fld (seta a l e) f = fld e f.
Proof. done. Qed.
Lemma arrs_setf f v e a : arrs (setf f v e) a = arrs e a.
Proof. done. Qed.
Lemma fld_sete a i v e f : fld (sete a i v e) f = fld e f.
Proof. done. Qed.

(** Membership in a list, when both are known. *)
Ltac in_list := refine (bool_decide_eq_true_1 _ _); vm_compute; reflexivity.

(** Reading members of an updated state, when the names are known. *)
Ltac cpu_simpl :=
  repeat match goal with
  | |- context [fld (seta ?a ?l ?e) ?f] => change (fld (seta a l e) f) with (fld e f)
  | |- context [fld (sete ?a ?i ?v ?e) ?f] => change (fld (sete a i v e) f) with (fld e f)
  | |- context [arrs (setf ?f ?v ?e) ?a] => change (arrs (setf f v e) a) with (arrs e a)
  | |- context [fld (setf ?f ?v ?e) ?g] =>
      first [constr_eq f g; change (fld (setf f v e) g) with v
            |change (fld (setf f v e) g) with (fld e g)]
  | |- context [arrs (seta ?a ?l ?e) ?b] =>
      first [constr_eq a b; change (arrs (seta a l e) b) with l
            |change (arrs (seta a l e) b) with (arrs e b)]
  end.

Definition sizes_ok (e : CPUARMState) : Prop := forall a, length (arrs e a) = array_size a.

Lemma sizes_setf f v e : sizes_ok e -> sizes_ok (setf f v e).
Proof. done. Qed.
Lemma sizes_seta a l e : sizes_ok e -> length l = array_size a -> sizes_ok (seta a l e).
Proof. intros H Hl b. cbn. by case_decide; subst. Qed.
Lemma sizes_sete a i v e : sizes_ok e -> sizes_ok (sete a i v e).
Proof. intros H. apply sizes_seta; [done|]. by rewrite length_insert. Qed.

Lemma elt_sete_eq a i v e : (i < length (arrs e a))%nat -> elt (sete a i v e) a i = v.
Proof.
  intros H. unfold elt, sete. cbn. rewrite decide_True by done. by rewrite list_lookup_insert_eq.
Qed.
Lemma elt_sete_ne a b i j v e : (a, i) <> (b, j) -> elt (sete a i v e) b j = elt e b j.
Proof.
  intros H. unfold elt, sete. cbn. case_decide as Hd; [subst|done].
  rewrite list_lookup_insert_ne; [done|]. congruence.
Qed.
Lemma elt_setf f v e a i : elt (setf f v e) a i = elt e a i.
Proof. done. Qed.

Lemma elt_sete_same a i v e : sizes_ok e -> (i < array_size a)%nat -> elt (sete a i v e) a i = v.
Proof. intros Hs Hi. apply elt_sete_eq. by rewrite Hs. Qed.
Lemma arrs_sete_ne a b i v e : b <> a -> arrs (sete a i v e) b = arrs e b.
Proof. intros H. cbn. by rewrite decide_False. Qed.

Create HintDb cpu.
#[export] Hint Resolve sizes_setf sizes_sete : cpu.

(** ** The architectural registers

    [arch_reg e m r] is the register [r] that mode [m] sees, wherever the
    state keeps it, and [arch_spsr e m] the saved status of that mode. *)

Definition modes : list Z :=
  [ARM_CPU_MODE_USR; ARM_CPU_MODE_FIQ; ARM_CPU_MODE_IRQ; ARM_CPU_MODE_SVC; ARM_CPU_MODE_ABT;
   ARM_CPU_MODE_UND; ARM_CPU_MODE_SYS].

Definition bank (mode : Z) : nat := match bank_number mode with Ok i => i | _ => 0%nat end.

Definition arch_reg (e : CPUARMState) (m : Z) (r : nat) : Z :=
  let cur := cur_mode e in
  if (8 <=? r)%nat && (r <=? 12)%nat then
    if m =? ARM_CPU_MODE_FIQ
    then if cur =? ARM_CPU_MODE_FIQ then elt e regs r else elt e fiq_regs (r - 8)
    else if cur =? ARM_CPU_MODE_FIQ then elt e usr_regs (r - 8) else elt e regs r
  else if (r =? 13)%nat then
    if (bank m =? bank cur)%nat then elt e regs 13 else elt e banked_r13 (bank m)
  else if (r =? 14)%nat then
    if (bank m =? bank cur)%nat then elt e regs 14 else elt e banked_r14 (bank m)
  else elt e regs r.

Definition arch_spsr (e : CPUARMState) (m : Z) : Z :=
  if (bank m =? bank (cur_mode e))%nat then fld e spsr else elt e banked_spsr (bank m).

Lemma bank_number_mode m : m ∈ modes -> bank_number m = Ok (bank m) /\ (bank m < 6)%nat.
Proof. unfold modes. intros H. repeat (apply elem_of_cons in H as [->|H]; [split; [done|cbn; lia]|]). set_solver. Qed.

Lemma bank_fiq m m' : m ∈ modes -> m' ∈ modes -> bank m = bank m' ->
  (m =? ARM_CPU_MODE_FIQ) = (m' =? ARM_CPU_MODE_FIQ).
Proof.
  unfold modes. intros H H'.
  repeat (apply elem_of_cons in H as [->|H];
    [repeat (apply elem_of_cons in H' as [->|H']; [done|]); set_solver|]). set_solver.
Qed.

Lemma elt_save_r8 a e b k :
  a <> regs -> sizes_ok e ->
  elt (save_r8 a e) b k = if decide (b = a) then if decide (k < 5)%nat then elt e regs (8 + k) else 0
                          else elt e b k.
Proof.
  intros Ha Hs. unfold elt, save_r8. cbn [arrs seta]. case_decide; [|done].
  case_decide as Hk; [|rewrite lookup_take_ge by lia; done].
  by rewrite lookup_take_lt, lookup_drop by lia.
Qed.

Lemma splice_lookup {A} (src l : list A) o i :
  splice l o src !! i =
  if decide (o <= i < o + length src)%nat then
    if decide (i < length l)%nat then src !! (i - o)%nat else None
  else l !! i.
Proof.
  revert l o. induction src as [|x src IH]; intros l o; cbn [splice length].
  { by rewrite decide_False by lia. }
  rewrite IH, length_insert. destruct (decide (i = o)) as [->|Hne].
  - rewrite decide_False, decide_True, Nat.sub_diag by lia. cbn.
    case_decide; [by rewrite list_lookup_insert_eq|]. apply lookup_ge_None_2. rewrite length_insert. lia.
  - destruct (decide (S o <= i < S o + length src)%nat).
    + replace (i - o)%nat with (S (i - S o)) by lia. repeat case_decide; done || lia.
    + rewrite list_lookup_insert_ne by done. case_decide; done || lia.
Qed.

Lemma elt_load_r8 a e b k :
  a <> regs -> sizes_ok e -> array_size a = 5%nat ->
  elt (load_r8 a e) b k =
    if decide (b = regs) then if decide (8 <= k < 13)%nat then elt e a (k - 8) else elt e regs k
    else elt e b k.
Proof.
  intros Ha Hs H5. unfold elt, load_r8. cbn [arrs seta]. case_decide; [|done].
  rewrite splice_lookup, (Hs a), (Hs regs), H5. change (8 + 5)%nat with 13%nat.
  case_decide; [|done]. by rewrite decide_True by (cbn; lia).
Qed.

Lemma sizes_save_r8 a e : array_size a = 5%nat -> sizes_ok e -> sizes_ok (save_r8 a e).
Proof.
  intros H5 Hs. apply sizes_seta; [done|]. rewrite length_take, length_drop, (Hs regs), H5. done.
Qed.

Lemma sizes_load_r8 a e : sizes_ok e -> sizes_ok (load_r8 a e).
Proof. intros Hs. apply sizes_seta; [done|]. by rewrite length_splice. Qed.

(** The exchange of r8-r12 between two modes. *)
Definition exchange_r8 (old_mode mode : Z) (e : CPUARMState) : CPUARMState :=
  if old_mode =? ARM_CPU_MODE_FIQ then load_r8 usr_regs (save_r8 fiq_regs e)
  else if mode =? ARM_CPU_MODE_FIQ then load_r8 fiq_regs (save_r8 usr_regs e)
  else e.

Lemma exchange_r8_ok old_mode mode e :
  sizes_ok e ->
  let e' := exchange_r8 old_mode mode e in
  sizes_ok e' /\ fld e' = fld e /\
  (forall a k, a <> regs -> a <> usr_regs -> a <> fiq_regs -> elt e' a k = elt e a k) /\
  (forall k, ~ (8 <= k < 13)%nat -> elt e' regs k = elt e regs k) /\
  (forall k, (8 <= k < 13)%nat ->
     if old_mode =? ARM_CPU_MODE_FIQ
     then elt e' regs k = elt e usr_regs (k - 8) /\ elt e' fiq_regs (k - 8) = elt e regs k
     else if mode =? ARM_CPU_MODE_FIQ
     then elt e' regs k = elt e fiq_regs (k - 8) /\ elt e' usr_regs (k - 8) = elt e regs k
     else elt e' regs k = elt e regs k /\ elt e' usr_regs (k - 8) = elt e usr_regs (k - 8) /\
          elt e' fiq_regs (k - 8) = elt e fiq_regs (k - 8)).
Proof.
  intros Hs. unfold exchange_r8. cbn zeta.
  pose proof (sizes_save_r8 fiq_regs e eq_refl Hs). pose proof (sizes_save_r8 usr_regs e eq_refl Hs).
  destruct (old_mode =? ARM_CPU_MODE_FIQ); [|destruct (mode =? ARM_CPU_MODE_FIQ); [|by split_and!]].
  all: split_and!; [by apply sizes_load_r8|done|intros a k H1 H2 H3|intros k Hk|intros k Hk].
  all: repeat first [rewrite elt_load_r8 by done | rewrite elt_save_r8 by done
                    | rewrite decide_True by (done || lia) | rewrite decide_False by (done || lia)].
  all: try (split; [done|]); done || (f_equal; lia).
Qed.

(** Nothing but [cur_mode] and the register arrays matters. *)
Lemma cur_mode_setf c e : cur_mode (setf uncached_cpsr c e) = Z.land c CPSR_M.
Proof. done. Qed.

Definition same_arch (e e' : CPUARMState) : Prop :=
  forall m, m ∈ modes ->
    (forall r, (r < 16)%nat -> arch_reg e' m r = arch_reg e m r) /\ arch_spsr e' m = arch_spsr e m.

(** The arrays that a change of mode may touch. *)
Definition banked_arrays : list cpu_array :=
  [regs; banked_spsr; banked_r13; banked_r14; usr_regs; fiq_regs].

(** The second half of [switch_mode]: r13, r14 and the saved status. *)
Definition exchange_banks (i j : nat) (e : CPUARMState) : CPUARMState :=
  let e := sete banked_r13 i (elt e regs 13) e in
  let e := sete banked_r14 i (elt e regs 14) e in
  let e := sete banked_spsr i (fld e spsr) e in
  let e := sete regs 13 (elt e banked_r13 j) e in
  let e := sete regs 14 (elt e banked_r14 j) e in
  setf spsr (elt e banked_spsr j) e.

Lemma exchange_banks_ok i j e :
  sizes_ok e -> (i < 6)%nat -> (j < 6)%nat -> i <> j ->
  let e' := exchange_banks i j e in
  sizes_ok e' /\ (forall f, f <> spsr -> fld e' f = fld e f) /\
  fld e' spsr = elt e banked_spsr j /\ elt e' regs 13 = elt e banked_r13 j /\
  elt e' regs 14 = elt e banked_r14 j /\
  (forall r, r <> 13%nat -> r <> 14%nat -> elt e' regs r = elt e regs r) /\
  elt e' banked_r13 i = elt e regs 13 /\ elt e' banked_r14 i = elt e regs 14 /\
  elt e' banked_spsr i = fld e spsr /\
  (forall k, k <> i -> elt e' banked_r13 k = elt e banked_r13 k /\
     elt e' banked_r14 k = elt e banked_r14 k /\ elt e' banked_spsr k = elt e banked_spsr k) /\
  (forall a, a ∉ [regs; banked_r13; banked_r14; banked_spsr] -> arrs e' a = arrs e a).
Proof.
  intros Hs Hi Hj Hij. unfold exchange_banks. cbn zeta.
  split; [auto 8 with cpu|]. split.
  { intros f Hf. cbn. by rewrite decide_False. }
  split.
  { cbn [fld setf]. rewrite decide_True by done. by rewrite !elt_sete_ne by congruence. }
  split; [|split; [|split; [|split; [|split; [|split; [|split]]]]]].
  all: try intros r H1; try intros H2; try split_and!; rewrite ?elt_setf.
  all: repeat first [rewrite elt_sete_ne by congruence
                    | rewrite elt_sete_same by (auto 8 with cpu || (cbn; lia))]; try done.
  rewrite arrs_setf, !arrs_sete_ne by set_solver. done.
Qed.

Lemma switch_mode_split mode e :
  cur_mode e ∈ modes -> mode ∈ modes -> mode <> cur_mode e ->
  switch_mode mode e =
    Ok (exchange_banks (bank (cur_mode e)) (bank mode) (exchange_r8 (cur_mode e) mode e)).
Proof.
  intros Hc Hm Hne. unfold switch_mode. destruct (Z.eqb_spec mode (cur_mode e)); [done|].
  fold (exchange_r8 (cur_mode e) mode e).
  destruct (bank_number_mode _ Hc) as [-> _]. destruct (bank_number_mode _ Hm) as [-> _]. done.
Qed.

(** User and system mode share a bank: everything is exchanged with itself. *)
Lemma exchange_banks_self i e :
  sizes_ok e -> (i < 6)%nat ->
  let e' := exchange_banks i i e in
  sizes_ok e' /\ (forall f, fld e' f = fld e f) /\ (forall r, elt e' regs r = elt e regs r) /\
  (forall k, k <> i -> elt e' banked_r13 k = elt e banked_r13 k /\
     elt e' banked_r14 k = elt e banked_r14 k /\ elt e' banked_spsr k = elt e banked_spsr k) /\
  (forall a, a ∉ [regs; banked_r13; banked_r14; banked_spsr] -> arrs e' a = arrs e a).
Proof.
  intros Hs Hi. unfold exchange_banks. cbn zeta. split; [auto 8 with cpu|]. split.
  { intros f. destruct (decide (f = spsr)) as [->|Hf]; [|cbn; by rewrite decide_False].
    cbn [fld setf]. rewrite decide_True by done.
    repeat first [rewrite elt_sete_ne by congruence | rewrite elt_sete_same by (auto 8 with cpu || (cbn; lia))].
    done. }
  split; [|split].
  - intros r. rewrite elt_setf.
    destruct (decide (r = 13%nat)) as [->|H13]; [|destruct (decide (r = 14%nat)) as [->|H14]];
      repeat first [rewrite elt_sete_ne by congruence
                   | rewrite elt_sete_same by (auto 8 with cpu || (cbn; lia))]; done.
  - intros k Hk. rewrite !elt_setf.
    split_and!; repeat first [rewrite elt_sete_ne by congruence]; done.
  - intros a Ha. rewrite arrs_setf, !arrs_sete_ne by set_solver. done.
Qed.

Lemma usr_sys m m' :
  m ∈ modes -> m' ∈ modes -> bank m = bank m' ->
  m = m' \/ (bank m = 0%nat /\ (m =? ARM_CPU_MODE_FIQ) = false /\ (m' =? ARM_CPU_MODE_FIQ) = false).
Proof.
  unfold modes. intros H H'.
  repeat (apply elem_of_cons in H as [->|H];
    [repeat (apply elem_of_cons in H' as [->|H']; [cbn; tauto || lia|]); set_solver|]). set_solver.
Qed.

Lemma exchange_r8_arrs old_mode mode e a :
  a <> regs -> a <> usr_regs -> a <> fiq_regs -> arrs (exchange_r8 old_mode mode e) a = arrs e a.
Proof.
  intros H1 H2 H3. unfold exchange_r8, load_r8, save_r8.
  repeat case_match; try done; cbn; by rewrite !decide_False.
Qed.

(** One register across the exchange of two different banks. *)
Lemma switch_reg m r mode c e e1 e2 :
  cur_mode e ∈ modes -> mode ∈ modes -> m ∈ modes -> mode <> cur_mode e -> (r < 16)%nat ->
  bank mode <> bank (cur_mode e) -> Z.land c CPSR_M = mode ->
  (forall a k, a <> regs -> a <> usr_regs -> a <> fiq_regs -> elt e1 a k = elt e a k) ->
  (forall k, ~ (8 <= k < 13)%nat -> elt e1 regs k = elt e regs k) ->
  (forall k, (8 <= k < 13)%nat ->
     if cur_mode e =? ARM_CPU_MODE_FIQ
     then elt e1 regs k = elt e usr_regs (k - 8) /\ elt e1 fiq_regs (k - 8) = elt e regs k
     else if mode =? ARM_CPU_MODE_FIQ
     then elt e1 regs k = elt e fiq_regs (k - 8) /\ elt e1 usr_regs (k - 8) = elt e regs k
     else elt e1 regs k = elt e regs k /\ elt e1 usr_regs (k - 8) = elt e usr_regs (k - 8) /\
          elt e1 fiq_regs (k - 8) = elt e fiq_regs (k - 8)) ->
  elt e2 regs 13 = elt e1 banked_r13 (bank mode) -> elt e2 regs 14 = elt e1 banked_r14 (bank mode) ->
  (forall r, r <> 13%nat -> r <> 14%nat -> elt e2 regs r = elt e1 regs r) ->
  elt e2 banked_r13 (bank (cur_mode e)) = elt e1 regs 13 ->
  elt e2 banked_r14 (bank (cur_mode e)) = elt e1 regs 14 ->
  (forall k, k <> bank (cur_mode e) -> elt e2 banked_r13 k = elt e1 banked_r13 k /\
     elt e2 banked_r14 k = elt e1 banked_r14 k /\ elt e2 banked_spsr k = elt e1 banked_spsr k) ->
  (forall a, a ∉ [regs; banked_r13; banked_r14; banked_spsr] -> arrs e2 a = arrs e1 a) ->
  arch_reg (setf uncached_cpsr c e2) m r = arch_reg e m r.
Proof.
  intros Hc Hm Hm' Hne Hr Hb Hcm Ha1 Hr1 Hx1 H13 H14 Hr2 Hb13 Hb14 Hk2 Ha2.
  unfold arch_reg. rewrite cur_mode_setf, Hcm, !elt_setf.
  assert (Hu : elt e2 usr_regs = elt e1 usr_regs) by (unfold elt; rewrite Ha2; set_solver).
  assert (Hf : elt e2 fiq_regs = elt e1 fiq_regs) by (unfold elt; rewrite Ha2; set_solver).
  destruct ((8 <=? r)%nat && (r <=? 12)%nat) eqn:Hr8.
  { apply andb_true_iff in Hr8 as [H1%Nat.leb_le H2%Nat.leb_le].
    specialize (Hx1 r ltac:(lia)). rewrite Hu, Hf, Hr2 by lia.
    assert (bank m = bank m) by done.
    destruct (Z.eqb_spec (cur_mode e) ARM_CPU_MODE_FIQ), (Z.eqb_spec mode ARM_CPU_MODE_FIQ),
      (Z.eqb_spec m ARM_CPU_MODE_FIQ); try congruence; naive_solver. }
  assert (Hbank : forall a rr, a <> regs -> a <> usr_regs -> a <> fiq_regs -> (rr = 13 \/ rr = 14)%nat ->
    elt e2 regs rr = elt e1 a (bank mode) -> elt e2 a (bank (cur_mode e)) = elt e1 regs rr ->
    (forall k, k <> bank (cur_mode e) -> elt e2 a k = elt e1 a k) ->
    (if (bank m =? bank mode)%nat then elt e2 regs rr else elt e2 a (bank m)) =
    (if (bank m =? bank (cur_mode e))%nat then elt e regs rr else elt e a (bank m))).
  { intros a rr A1 A2 A3 Hrr E1 E2 E3. rewrite E1, Ha1 by done.
    destruct (Nat.eqb_spec (bank m) (bank mode)) as [->|Hm1].
    - by destruct (Nat.eqb_spec (bank mode) (bank (cur_mode e))).
    - destruct (Nat.eqb_spec (bank m) (bank (cur_mode e))) as [->|Hm2];
        [rewrite E2; apply Hr1; lia|]. rewrite E3, Ha1; done. }
  destruct (Nat.eqb_spec r 13) as [->|]; [|destruct (Nat.eqb_spec r 14) as [->|]].
  - apply Hbank; try done; [by left|]. intros k Hk. by apply Hk2.
  - apply Hbank; try done; [by right|]. intros k Hk. by apply Hk2.
  - rewrite Hr2 by done. apply Hr1. intros [H1 H2]. apply andb_false_iff in Hr8.
    rewrite !Nat.leb_gt in Hr8. lia.
Qed.

Lemma not_banked a :
  a ∉ banked_arrays ->
  a ∉ [regs; banked_r13; banked_r14; banked_spsr] /\ a <> regs /\ a <> usr_regs /\ a <> fiq_regs.
Proof. unfold banked_arrays. rewrite !not_elem_of_cons. intuition. Qed.

(** Two different modes exchange their registers without losing any. *)
Lemma switch_mode_arch mode e c :
  sizes_ok e -> cur_mode e ∈ modes -> mode ∈ modes -> Z.land c CPSR_M = mode ->
  exists e', switch_mode mode e = Ok e' /\ sizes_ok e' /\
    (forall f, f <> spsr -> fld e' f = fld e f) /\
    (forall a, a ∉ banked_arrays -> arrs e' a = arrs e a) /\
    same_arch e (setf uncached_cpsr c e') /\
    (mode = cur_mode e -> e' = e).
Proof.
  intros Hs Hc Hm Hcm. destruct (decide (mode = cur_mode e)) as [Heq|Hne].
  { exists e. unfold switch_mode. rewrite (proj2 (Z.eqb_eq _ _) Heq). split_and!; try done.
    intros m Hm'. unfold arch_reg, arch_spsr. rewrite cur_mode_setf, Hcm, Heq. done. }
  rewrite (switch_mode_split mode e Hc Hm Hne). eexists. split; [reflexivity|].
  destruct (bank_number_mode _ Hc) as [_ Hb1]. destruct (bank_number_mode _ Hm) as [_ Hb2].
  destruct (exchange_r8_ok (cur_mode e) mode e Hs) as (Hs1 & Hf1 & Ha1 & Hr1 & Hx1).
  set (e1 := exchange_r8 (cur_mode e) mode e) in *.
  destruct (decide (bank mode = bank (cur_mode e))) as [Hb|Hb].
  - destruct (usr_sys _ _ Hm Hc Hb) as [?|(_ & Hf & Hf')]; [done|].
    rewrite Hb. destruct (exchange_banks_self (bank (cur_mode e)) e1 Hs1 Hb1) as (Hs2 & Hf2 & Hr2 & Hk2 & Ha2).
    set (e2 := exchange_banks _ _ e1) in *.
    assert (He1 : e1 = e) by (unfold e1, exchange_r8; by rewrite Hf, Hf').
    split_and!; try done; [intros f _; by rewrite Hf2, He1| |].
    { intros a Ha. destruct (not_banked a Ha) as (H1 & _). by rewrite Ha2, He1. }
    intros m Hm'. rewrite He1 in *. unfold arch_reg, arch_spsr. rewrite cur_mode_setf, Hcm, Hb, Hf, Hf'.
    change (fld (setf uncached_cpsr c e2) spsr) with (fld e2 spsr). rewrite Hf2. split.
    + intros r Hr. rewrite !elt_setf, !Hr2.
      assert (Hfiq : elt e2 fiq_regs = elt e fiq_regs) by (unfold elt; rewrite Ha2; set_solver).
      rewrite Hfiq. repeat case_match; try done;
        destruct (Nat.eqb_spec (bank m) (bank (cur_mode e))); try done; by apply Hk2.
    + destruct (Nat.eqb_spec (bank m) (bank (cur_mode e))); [done|]. by apply Hk2.
  - destruct (exchange_banks_ok (bank (cur_mode e)) (bank mode) e1 Hs1 Hb1 Hb2 ltac:(congruence))
      as (Hs2 & Hf2 & Hsp & H13 & H14 & Hr2 & Hb13 & Hb14 & Hbs & Hk2 & Ha2).
    set (e2 := exchange_banks _ _ e1) in *.
    split_and!; try done; [intros f Hf; by rewrite Hf2, Hf1| |].
    { intros a Ha. destruct (not_banked a Ha) as (N1 & N2 & N3 & N4). rewrite Ha2 by done.
      by apply exchange_r8_arrs. }
    intros m Hm'. split.
    + intros r Hr. apply (switch_reg m r mode c e e1 e2); done.
    + unfold arch_spsr. rewrite cur_mode_setf, Hcm.
      change (fld (setf uncached_cpsr c e2) spsr) with (fld e2 spsr). rewrite elt_setf, Hsp.
      destruct (Nat.eqb_spec (bank m) (bank mode)) as [->|Hm1].
      * destruct (Nat.eqb_spec (bank mode) (bank (cur_mode e))); [done|]. by rewrite Ha1.
      * destruct (Nat.eqb_spec (bank m) (bank (cur_mode e))) as [->|Hm2]; [by rewrite Hbs, Hf1|].
        destruct (Hk2 _ Hm2) as (_ & _ & ->). by rewrite Ha1.
Qed.

(** ** The status register, bit by bit *)

Definition flags_wf (e : CPUARMState) : Prop :=
  in_u32 (fld e uncached_cpsr) /\ Z.land (fld e uncached_cpsr) CACHED_CPSR_BITS = 0 /\
  0 <= fld e CF < 2 /\ 0 <= fld e QF < 2 /\ 0 <= fld e thumb < 2 /\ 0 <= fld e GE < 16 /\
  0 <= fld e condexec_bits < 256 /\ in_u32 (fld e NF) /\ in_u32 (fld e VF).

Definition cpsr_bit (e : CPUARMState) (i : Z) : bool :=
  if i =? 31 then Z.testbit (fld e NF) 31
  else if i =? 30 then fld e ZF =? 0
  else if i =? 29 then Z.testbit (fld e CF) 0
  else if i =? 28 then Z.testbit (fld e VF) 31
  else if i =? 27 then Z.testbit (fld e QF) 0
  else if 25 <=? i then Z.testbit (fld e condexec_bits) (i - 25)
  else if 20 <=? i then Z.testbit (fld e uncached_cpsr) i
  else if 16 <=? i then Z.testbit (fld e GE) (i - 16)
  else if 10 <=? i then Z.testbit (fld e condexec_bits) (i - 8)
  else if i =? 5 then Z.testbit (fld e thumb) 0
  else Z.testbit (fld e uncached_cpsr) i.

Lemma tb_field v k n i :
  0 <= v < 2 ^ k -> 0 <= i ->
  Z.testbit (Z.shiftl v n) i = (n <=? i) && (i <? n + k) && Z.testbit v (i - n).
Proof.
  intros Hv Hi. rewrite Z.shiftl_spec by done.
  destruct (Z.leb_spec n i); cbn [andb]; [|by rewrite Z.testbit_neg_r by lia].
  destruct (Z.ltb_spec i (n + k)); [done|]. by rewrite (testbit_bound k v) by lia.
Qed.

(** Evaluating the tests and bits of literals in the goal. *)
Ltac is_num z := first [is_const z | lazymatch z with Z0 => idtac | Zpos _ => idtac | Zneg _ => idtac end].
Ltac ground_fold t := let v := eval vm_compute in t in change t with v.
Ltac ground_step :=
  match goal with
  | |- context [Z.testbit ?a ?b] => is_num a; is_num b; ground_fold (Z.testbit a b)
  | |- context [?a <=? ?b] => is_num a; is_num b; ground_fold (a <=? b)
  | |- context [?a <? ?b] => is_num a; is_num b; ground_fold (a <? b)
  | |- context [?a =? ?b] => is_num a; is_num b; ground_fold (a =? b)
  | |- context [?a - ?b] => is_num a; is_num b; ground_fold (a - b)
  | |- context [?a + ?b] => is_num a; is_num b; ground_fold (a + b)
  end.
Ltac ground_bits := repeat ground_step; cbn [andb orb negb xorb].

(** A property of the 32 bits, one at a time. *)
Lemma bits32 (P : Z -> Prop) :
  P 0 -> P 1 -> P 2 -> P 3 -> P 4 -> P 5 -> P 6 -> P 7 -> P 8 -> P 9 -> P 10 -> P 11 -> P 12 ->
  P 13 -> P 14 -> P 15 -> P 16 -> P 17 -> P 18 -> P 19 -> P 20 -> P 21 -> P 22 -> P 23 -> P 24 ->
  P 25 -> P 26 -> P 27 -> P 28 -> P 29 -> P 30 -> P 31 -> forall i, 0 <= i < 32 -> P i.
Proof.
  intros. assert (i = 0 \/ i = 1 \/ i = 2 \/ i = 3 \/ i = 4 \/ i = 5 \/ i = 6 \/ i = 7 \/ i = 8 \/
    i = 9 \/ i = 10 \/ i = 11 \/ i = 12 \/ i = 13 \/ i = 14 \/ i = 15 \/ i = 16 \/ i = 17 \/ i = 18 \/
    i = 19 \/ i = 20 \/ i = 21 \/ i = 22 \/ i = 23 \/ i = 24 \/ i = 25 \/ i = 26 \/ i = 27 \/ i = 28 \/
    i = 29 \/ i = 30 \/ i = 31) as Hi by lia.
  repeat (destruct Hi as [->|Hi]; [done|]). by subst.
Qed.

Lemma uncached_bit e i :
  flags_wf e -> Z.testbit CACHED_CPSR_BITS i = true -> Z.testbit (fld e uncached_cpsr) i = false.
Proof.
  intros (_ & H & _) Hi. apply (f_equal (fun z => Z.testbit z i)) in H.
  rewrite Z.land_spec, Hi, andb_true_r, Z.bits_0 in H. done.
Qed.

Lemma cpsr_read_bit e i : flags_wf e -> 0 <= i < 32 -> Z.testbit (cpsr_read e) i = cpsr_bit e i.
Proof.
  intros Hwf Hi. pose proof Hwf as (Hu & _ & HC & HQ & HT & HG & HI & _).
  assert (Hz : 0 <= cbool (fld e ZF =? 0) < 2 ^ 1) by (destruct (fld e ZF =? 0); cbn; lia).
  assert (H3 : 0 <= Z.land (fld e condexec_bits) 3 < 2 ^ 2)
    by (rewrite Z.land_comm; apply land_bound; lia).
  assert (Hfc : 0 <= Z.land (fld e condexec_bits) 252 < 2 ^ 8) by (apply land_bound; lia).
  unfold cpsr_read. rewrite !Z.lor_spec, !testbit_uwrap, Z.shiftr_spec by lia.
  rewrite (tb_field _ 1 30 _ Hz), (tb_field _ 2 25 _ H3), (tb_field _ 8 8 _ Hfc),
    (tb_field (fld e CF) 1 29), (tb_field (fld e QF) 1 27),
    (tb_field (fld e thumb) 1 5), (tb_field (fld e GE) 4 16) by lia.
  rewrite !Z.land_spec. clear Hz H3 Hfc. unfold cpsr_bit.
  pose proof (uncached_bit e i Hwf) as Hub. revert i Hi Hub. 
  apply (bits32 (fun i => (Z.testbit CACHED_CPSR_BITS i = true -> Z.testbit (fld e uncached_cpsr) i = false) -> _)).
  all: intros Hub; ground_bits; rewrite ?Hub by reflexivity.
  all: try (destruct (fld e ZF =? 0); cbn [cbool]; ground_bits).
  all: rewrite ?andb_true_r, ?andb_false_r, ?orb_false_r; reflexivity.
Qed.

(** ** Writing the status register *)

(** The mask takes all of the group of bits [g] or none of it. *)
Definition whole (g mask : Z) : Prop := Z.land mask g = g \/ Z.land mask g = 0.

Definition mask_ok (mask : Z) : Prop :=
  in_u32 mask /\ whole CPSR_NZCV mask /\ whole CPSR_IT_0_1 mask /\ whole CPSR_IT_2_7 mask /\
  whole CPSR_GE mask /\ whole CPSR_M mask.

Lemma whole_bit g mask i :
  g <> 0 -> whole g mask -> Z.testbit g i = true -> ctrue (Z.land mask g) = Z.testbit mask i.
Proof.
  intros Hg Hw Hi. assert (Z.testbit (Z.land mask g) i = Z.testbit mask i) as E
    by (by rewrite Z.land_spec, Hi, andb_true_r).
  unfold ctrue. destruct Hw as [H|H]; rewrite H in E |- *.
  - rewrite <- E, Hi. by apply negb_true_iff, Z.eqb_neq.
  - by rewrite <- E, Z.bits_0.
Qed.

Lemma single_bit v n m : 0 <= n -> m = bit32 n -> ctrue (Z.land v m) = Z.testbit v n.
Proof. intros Hn ->. by apply land_bit32_ctrue. Qed.

Lemma testbit_cbool b i : Z.testbit (cbool b) i = b && (i =? 0).
Proof. destruct b; cbn [cbool andb]; [apply testbit_one|apply Z.bits_0]. Qed.

(** The flags written by [cpsr_write], before it changes the mode. *)
Definition write_flags (val mask : Z) (e : CPUARMState) : CPUARMState :=
  let e :=
    if ctrue (Z.land mask CPSR_NZCV) then
      setf VF (Z.land (u32 (Z.shiftl val 3)) 0x80000000)
        (setf CF (Z.land (Z.shiftr val 29) 1)
           (setf NF val (setf ZF (Z.land (not32 val) CPSR_Z) e)))
    else e in
  let e := if ctrue (Z.land mask CPSR_Q)
           then setf QF (cbool (ctrue (Z.land val CPSR_Q))) e else e in
  let e := if ctrue (Z.land mask CPSR_T)
           then setf thumb (cbool (ctrue (Z.land val CPSR_T))) e else e in
  let e := if ctrue (Z.land mask CPSR_IT_0_1)
           then setf condexec_bits (Z.lor (andn (fld e condexec_bits) 3) (Z.land (Z.shiftr val 25) 3)) e
           else e in
  let e := if ctrue (Z.land mask CPSR_IT_2_7)
           then setf condexec_bits (Z.lor (Z.land (fld e condexec_bits) 3) (Z.land (Z.shiftr val 8) 0xfc)) e
           else e in
  if ctrue (Z.land mask CPSR_GE) then setf GE (Z.land (Z.shiftr val 16) 0xf) e else e.

Lemma write_flags_arrs val mask e : arrs (write_flags val mask e) = arrs e.
Proof. unfold write_flags. by repeat case_match. Qed.

Lemma write_flags_other val mask e f :
  f ∉ [VF; CF; NF; ZF; QF; thumb; condexec_bits; GE] -> fld (write_flags val mask e) f = fld e f.
Proof.
  intros Hf. unfold write_flags. rewrite !not_elem_of_cons in Hf. destruct_and!.
  repeat match goal with |- context [if ?b then _ else _] => destruct b end;
    cbn [fld setf]; by rewrite ?decide_False by done.
Qed.

Definition write_it (val mask x : Z) : Z :=
  let x := if ctrue (Z.land mask CPSR_IT_0_1) then Z.lor (andn x 3) (Z.land (Z.shiftr val 25) 3) else x in
  if ctrue (Z.land mask CPSR_IT_2_7) then Z.lor (Z.land x 3) (Z.land (Z.shiftr val 8) 0xfc) else x.

Lemma write_flags_fields val mask e :
  let e' := write_flags val mask e in
  let nzcv := ctrue (Z.land mask CPSR_NZCV) in
  fld e' VF = (if nzcv then Z.land (u32 (Z.shiftl val 3)) 0x80000000 else fld e VF) /\
  fld e' CF = (if nzcv then Z.land (Z.shiftr val 29) 1 else fld e CF) /\
  fld e' NF = (if nzcv then val else fld e NF) /\
  fld e' ZF = (if nzcv then Z.land (not32 val) CPSR_Z else fld e ZF) /\
  fld e' QF = (if ctrue (Z.land mask CPSR_Q) then cbool (ctrue (Z.land val CPSR_Q)) else fld e QF) /\
  fld e' thumb = (if ctrue (Z.land mask CPSR_T) then cbool (ctrue (Z.land val CPSR_T)) else fld e thumb) /\
  fld e' condexec_bits = write_it val mask (fld e condexec_bits) /\
  fld e' GE = (if ctrue (Z.land mask CPSR_GE) then Z.land (Z.shiftr val 16) 0xf else fld e GE).
Proof.
  unfold write_flags, write_it. cbn zeta.
  destruct (ctrue (Z.land mask CPSR_NZCV)), (ctrue (Z.land mask CPSR_Q)), (ctrue (Z.land mask CPSR_T)),
    (ctrue (Z.land mask CPSR_IT_0_1)), (ctrue (Z.land mask CPSR_IT_2_7)), (ctrue (Z.land mask CPSR_GE));
    split_and!; reflexivity.
Qed.

Lemma land_below k x m : 0 <= k -> 0 <= m < 2 ^ k -> 0 <= Z.land x m < 2 ^ k.
Proof. intros. rewrite Z.land_comm. by apply land_bound. Qed.

Lemma write_it_bound val mask x : 0 <= x < 256 -> 0 <= write_it val mask x < 256.
Proof.
  intros Hx. unfold write_it. change 256 with (2 ^ 8) in *.
  assert (Hd : 0 <= andn x 3 < 2 ^ 8).
  { apply bits_bound; [done|]. intros i Hi. by rewrite Z.ldiff_spec, (testbit_bound 8 x) by done. }
  repeat match goal with |- context [if ?b then _ else _] => destruct b end; try done;
    apply lor_bound; try done; apply land_below; lia.
Qed.

Lemma write_flags_wf val mask e :
  in_u32 val -> flags_wf e -> flags_wf (write_flags val mask e).
Proof.
  intros Hv (Hu & Hc & HC & HQ & HT & HG & HI & HN & HV). unfold flags_wf.
  destruct (write_flags_fields val mask e) as (-> & -> & -> & _ & -> & -> & -> & ->).
  rewrite (write_flags_other val mask e uncached_cpsr) by set_solver.
  assert (H1 : forall b, 0 <= cbool b < 2) by (intros []; cbn; lia).
  refine (conj Hu (conj Hc (conj _ (conj _ (conj _ (conj _ (conj (write_it_bound _ _ _ HI) (conj _ _))))))));
    case_match; try done; try apply H1.
  - apply (land_below 1); lia.
  - apply (land_below 4); lia.
  - apply (land_below 32); lia.
Qed.

Lemma testbit_write_it val mask x i :
  whole CPSR_IT_0_1 mask -> whole CPSR_IT_2_7 mask -> 0 <= x < 256 -> 0 <= i < 8 ->
  Z.testbit (write_it val mask x) i =
    let j := if i <? 2 then i + 25 else i + 8 in
    if Z.testbit mask j then Z.testbit val j else Z.testbit x i.
Proof.
  intros H01 H27 Hx Hi. cbn zeta. unfold write_it.
  assert (i = 0 \/ i = 1 \/ i = 2 \/ i = 3 \/ i = 4 \/ i = 5 \/ i = 6 \/ i = 7) as Hc by lia.
  repeat (destruct Hc as [->|Hc]); try subst i; ground_bits;
    first [rewrite <- (whole_bit CPSR_IT_0_1 mask _ ltac:(done) H01) by reflexivity
          |rewrite <- (whole_bit CPSR_IT_2_7 mask _ ltac:(done) H27) by reflexivity];
    destruct (ctrue (Z.land mask CPSR_IT_0_1)), (ctrue (Z.land mask CPSR_IT_2_7));
    rewrite ?Z.lor_spec, ?Z.land_spec, ?Z.ldiff_spec, ?Z.lor_spec, ?Z.land_spec, ?Z.ldiff_spec,
      ?Z.shiftr_spec by lia; ground_bits;
    rewrite ?andb_true_r, ?andb_false_r, ?orb_false_r; reflexivity.
Qed.

(** Every flag kept outside [uncached_cpsr] takes its bit of the value. *)
Lemma write_flags_bit val mask e i :
  flags_wf e -> mask_ok mask -> 0 <= i < 32 ->
  cpsr_bit (write_flags val mask e) i =
    if Z.testbit CACHED_CPSR_BITS i && Z.testbit mask i then Z.testbit val i else cpsr_bit e i.
Proof.
  intros Hwf (Hm & Hnzcv & H01 & H27 & Hge & _) Hi. unfold cpsr_bit.
  pose proof Hwf as (_ & _ & _ & _ & _ & _ & HI & _).
  destruct (write_flags_fields val mask e) as (-> & -> & -> & -> & -> & -> & -> & ->).
  rewrite (write_flags_other val mask e uncached_cpsr) by set_solver.
  pose proof (whole_bit CPSR_NZCV mask i ltac:(done) Hnzcv) as Wn.
  pose proof (whole_bit CPSR_GE mask i ltac:(done) Hge) as Wg.
  assert (HZ : (Z.land (not32 val) CPSR_Z =? 0) = Z.testbit val 30).
  { pose proof (single_bit (not32 val) 30 CPSR_Z ltac:(lia) eq_refl) as E.
    rewrite testbit_not32 in E. revert E. ground_bits. unfold ctrue.
    destruct (_ =? 0), (Z.testbit val 30); done. }
  revert i Hi Wn Wg.
  apply (bits32 (fun i => (Z.testbit CPSR_NZCV i = true -> ctrue (Z.land mask CPSR_NZCV) = Z.testbit mask i) ->
    (Z.testbit CPSR_GE i = true -> ctrue (Z.land mask CPSR_GE) = Z.testbit mask i) -> _)).
  all: intros Wn Wg; ground_bits; try reflexivity.
  all: try rewrite testbit_write_it by (done || lia); ground_bits; try reflexivity.
  all: try rewrite Wn by reflexivity; try rewrite Wg by reflexivity.
  all: try rewrite (single_bit mask 27 CPSR_Q ltac:(lia) eq_refl), (single_bit val 27 CPSR_Q ltac:(lia) eq_refl).
  all: try rewrite (single_bit mask 5 CPSR_T ltac:(lia) eq_refl), (single_bit val 5 CPSR_T ltac:(lia) eq_refl).
  all: case_match; try done.
  all: rewrite ?testbit_cbool, ?Z.land_spec, ?testbit_uwrap, ?Z.shiftl_spec, ?Z.shiftr_spec by lia;
    ground_bits; rewrite ?andb_true_r; done.
Qed.

Lemma same_arch_ext e e1 e' :
  arrs e1 = arrs e -> fld e1 uncached_cpsr = fld e uncached_cpsr -> fld e1 spsr = fld e spsr ->
  same_arch e1 e' -> same_arch e e'.
Proof.
  intros Ha Hu Hs H m Hm. destruct (H m Hm) as [Hr Hp]. unfold arch_reg, arch_spsr, cur_mode, elt in *.
  rewrite Ha, Hu in *. rewrite Hs in Hp. done.
Qed.

Lemma same_arch_refl e c :
  Z.land c CPSR_M = cur_mode e -> same_arch e (setf uncached_cpsr c e).
Proof. intros Hc m Hm. unfold arch_reg, arch_spsr. rewrite cur_mode_setf, Hc. done. Qed.

Definition new_uncached (val mask u : Z) : Z :=
  let mask := andn mask CACHED_CPSR_BITS in Z.lor (andn u mask) (Z.land val mask).

Lemma land_land_whole a mask g :
  whole g mask -> Z.land (Z.land a mask) g = if ctrue (Z.land mask g) then Z.land a g else 0.
Proof.
  intros [H|H]; rewrite <- Z.land_assoc, H; unfold ctrue.
  - destruct (Z.eqb_spec g 0) as [->|]; cbn; by rewrite ?Z.land_0_r.
  - by rewrite Z.land_0_r.
Qed.

Lemma lxor_land_zero a b g : (Z.land (Z.lxor a b) g =? 0) = (Z.land a g =? Z.land b g).
Proof.
  assert (E : Z.land (Z.lxor a b) g = Z.lxor (Z.land a g) (Z.land b g)).
  { apply Z.bits_inj'. intros i Hi. autorewrite with zbits. btauto. }
  rewrite E. destruct (Z.eqb_spec (Z.land a g) (Z.land b g)) as [->|Hne].
  - by rewrite Z.lxor_nilpotent.
  - apply Z.eqb_neq. intros H. by apply Hne, Z.lxor_eq.
Qed.

Lemma new_uncached_mode val mask u :
  whole CPSR_M mask ->
  Z.land (new_uncached val mask u) CPSR_M =
    if ctrue (Z.land mask CPSR_M) then Z.land val CPSR_M else Z.land u CPSR_M.
Proof.
  intros Hw. apply Z.bits_inj'. intros i Hi. unfold new_uncached. cbn zeta. autorewrite with zbits.
  destruct (Z.testbit CPSR_M i) eqn:Hm.
  - assert (Z.testbit CACHED_CPSR_BITS i = false) as Hc.
    { assert (i < 5). { destruct (Z.lt_ge_cases i 5); [done|]. by rewrite (testbit_bound 5) in Hm. }
      assert (i = 0 \/ i = 1 \/ i = 2 \/ i = 3 \/ i = 4) as [->|[->|[->|[->| ->]]]] by lia; done. }
    rewrite (whole_bit CPSR_M mask i ltac:(done) Hw Hm), Hc.
    destruct (Z.testbit mask i); rewrite Z.land_spec, Hm; btauto.
  - rewrite andb_false_r. case_match; by rewrite Z.land_spec, Hm, andb_false_r.
Qed.

Lemma cpsr_bit_ext e e' i :
  (forall f, f ∉ [spsr; uncached_cpsr] -> fld e' f = fld e f) ->
  cpsr_bit e' i = if (0 <=? i) && (i <? 32) && Z.testbit CACHED_CPSR_BITS i then cpsr_bit e i
                  else cpsr_bit e' i.
Proof.
  intros Hf. case_match eqn:Hi; [|done]. rewrite !andb_true_iff, Z.leb_le, Z.ltb_lt in Hi.
  destruct Hi as [Hi Hc]. unfold cpsr_bit.
  rewrite (Hf NF), (Hf ZF), (Hf CF), (Hf VF), (Hf QF), (Hf condexec_bits), (Hf GE), (Hf thumb) by set_solver.
  revert i Hi Hc.
  apply (bits32 (fun i => Z.testbit CACHED_CPSR_BITS i = true -> _)); (done || (intros _; reflexivity)).
Qed.

Lemma cpsr_bit_uncached e i :
  0 <= i < 32 -> Z.testbit CACHED_CPSR_BITS i = false ->
  cpsr_bit e i = Z.testbit (fld e uncached_cpsr) i.
Proof.
  intros Hi. unfold cpsr_bit. revert i Hi.
  apply (bits32 (fun i => Z.testbit CACHED_CPSR_BITS i = false -> _)); (done || (intros _; reflexivity)).
Qed.

(** The state after a write, whose mode change has given [e2]. *)
Lemma written_bits val mask e e2 i :
  in_u32 val -> flags_wf e -> mask_ok mask -> 0 <= i < 32 ->
  (forall f, f <> spsr -> fld e2 f = fld (write_flags val mask e) f) ->
  cpsr_bit (setf uncached_cpsr (new_uncached val mask (fld e uncached_cpsr)) e2) i =
    if Z.testbit mask i then Z.testbit val i else cpsr_bit e i.
Proof.
  intros Hv Hwf Hm Hi Hf. rewrite (cpsr_bit_ext (write_flags val mask e)).
  2:{ intros f Hn. rewrite !not_elem_of_cons in Hn. destruct Hn as (H1 & H2 & _). cbn.
      rewrite decide_False by done. by apply Hf. }
  rewrite (proj2 (Z.leb_le _ _)), (proj2 (Z.ltb_lt _ _)) by lia. cbn [andb].
  rewrite write_flags_bit by done. destruct (Z.testbit CACHED_CPSR_BITS i) eqn:Hc; [done|].
  rewrite !cpsr_bit_uncached by done.
  cbn [fld setf]. rewrite decide_True by done. unfold new_uncached. cbn zeta. autorewrite with zbits.
  rewrite Hc.
  destruct (Z.testbit mask i); btauto.
Qed.

Lemma cpsr_read_range e : flags_wf e -> in_u32 (cpsr_read e).
Proof.
  intros (Hu & _). unfold cpsr_read. change 4294967296 with (2 ^ 32) in *.
  assert (Hz : 0 <= cbool (fld e ZF =? 0) < 2 ^ 1) by (destruct (fld e ZF =? 0); cbn; lia).
  assert (Hc : forall m k n, 0 <= k -> 0 <= m < 2 ^ k -> 0 <= n -> n + k <= 32 ->
    0 <= Z.shiftl (Z.land (fld e condexec_bits) m) n < 2 ^ 32).
  { intros m k n Hk Hm Hn Hnk. pose proof (land_below k (fld e condexec_bits) m Hk Hm).
    rewrite Z.shiftl_mul_pow2 by done. assert (2 ^ (n + k) <= 2 ^ 32) by (apply Z.pow_le_mono_r; lia).
    rewrite Z.pow_add_r in * by lia. assert (0 < 2 ^ n) by lia. nia. }
  repeat apply (lor_bound 32); try lia; try (apply (uwrap_range 32); lia).
  - apply (land_below 32); lia.
  - rewrite Z.shiftl_mul_pow2 by lia. lia.
  - pose proof (land_below 32 (fld e VF) 2147483648 ltac:(lia) ltac:(lia)).
    rewrite Z.shiftr_div_pow2 by lia. Z.to_euclidean_division_equations; lia.
  - apply (Hc _ 2); lia.
  - apply (Hc _ 8); lia.
Qed.

Lemma masked_bits old val mask i :
  Z.testbit (Z.lor (andn old mask) (Z.land val mask)) i =
    if Z.testbit mask i then Z.testbit val i else Z.testbit old i.
Proof. autorewrite with zbits. destruct (Z.testbit mask i); btauto. Qed.

Lemma new_uncached_wf val mask u :
  in_u32 val -> in_u32 mask -> in_u32 u -> Z.land u CACHED_CPSR_BITS = 0 ->
  in_u32 (new_uncached val mask u) /\ Z.land (new_uncached val mask u) CACHED_CPSR_BITS = 0.
Proof.
  intros Hv Hm Hu Hc. unfold new_uncached. cbn zeta. split.
  - apply (bits_bound 32); [done|]. intros i Hi. autorewrite with zbits.
    rewrite (testbit_bound 32 u), (testbit_bound 32 val) by done. done.
  - apply Z.bits_inj'. intros i Hi. apply (f_equal (fun z => Z.testbit z i)) in Hc. revert Hc.
    autorewrite with zbits. destruct (Z.testbit CACHED_CPSR_BITS i); rewrite ?andb_true_r; intros Hc; [rewrite Hc|]; btauto.
Qed.

(** What a write of the status register does, for the theorems below. *)
Lemma cpsr_write_ok val mask e :
  sizes_ok e -> flags_wf e -> cur_mode e ∈ modes -> in_u32 val -> mask_ok mask ->
  (ctrue (Z.land mask CPSR_M) = true -> Z.land val CPSR_M ∈ modes) ->
  exists e', cpsr_write val mask e = Ok e' /\ sizes_ok e' /\ flags_wf e' /\ same_arch e e' /\
    cpsr_read e' = Z.lor (andn (cpsr_read e) mask) (Z.land val mask) /\
    cur_mode e' = (if ctrue (Z.land mask CPSR_M) then Z.land val CPSR_M else cur_mode e) /\
    (forall a, a ∉ banked_arrays -> arrs e' a = arrs e a).
Proof.
  intros Hs Hwf Hc Hv Hm Hval. pose proof Hm as (Hm32 & _ & _ & _ & _ & HwM).
  set (e1 := write_flags val mask e). set (c := new_uncached val mask (fld e uncached_cpsr)).
  assert (Hu1 : fld e1 uncached_cpsr = fld e uncached_cpsr) by (apply write_flags_other; set_solver).
  assert (Hs1 : sizes_ok e1) by (intros a; unfold e1; rewrite write_flags_arrs; apply Hs).
  assert (Hm1 : cur_mode e1 = cur_mode e) by (unfold cur_mode; by rewrite Hu1).
  assert (Hcm := new_uncached_mode val mask (fld e uncached_cpsr) HwM). fold c (cur_mode e) in Hcm.
  assert (exists e2, (if ctrue (Z.land (Z.land (Z.lxor (fld e1 uncached_cpsr) val) mask) CPSR_M)
                      then switch_mode (Z.land val CPSR_M) e1 else Ok e1) = Ok e2 /\
            sizes_ok e2 /\ (forall f, f <> spsr -> fld e2 f = fld e1 f) /\
            same_arch e1 (setf uncached_cpsr c e2) /\
            (forall a, a ∉ banked_arrays -> arrs e2 a = arrs e1 a))
    as (e2 & Hsw & Hs2 & Hf2 & Ha2 & Har2).
  { rewrite land_land_whole by done. destruct (ctrue (Z.land mask CPSR_M)) eqn:HM.
    - destruct (switch_mode_arch (Z.land val CPSR_M) e1 c) as (e2 & E & S2 & F2 & A2 & Sa & Same);
        [done|by rewrite Hm1|by apply Hval|done|].
      exists e2. split; [|done]. unfold ctrue. rewrite lxor_land_zero. fold (cur_mode e1).
      destruct (Z.eqb_spec (cur_mode e1) (Z.land val CPSR_M)) as [Heq|Hne]; cbn [negb]; [|done].
      by rewrite Same.
    - exists e1. split; [done|]. split; [done|]. split; [done|]. split; [|done].
      apply same_arch_refl. by rewrite Hm1. }
  exists (setf uncached_cpsr c e2).
  assert (Hw : flags_wf (setf uncached_cpsr c e2)).
  { pose proof (write_flags_wf val mask e Hv Hwf) as (_ & _ & W). destruct Hwf as (Hu & Hcz & _).
    destruct (new_uncached_wf val mask _ Hv Hm32 Hu Hcz) as [B1 B2]. fold e1 in W.
    unfold flags_wf. cbn [fld setf]. rewrite decide_True by done. rewrite !decide_False by done.
    rewrite !Hf2 by done. tauto. }
  split.
  { change (cpsr_write val mask e) with
      (let! e := if ctrue (Z.land (Z.land (Z.lxor (fld e1 uncached_cpsr) val) mask) CPSR_M)
                 then switch_mode (Z.land val CPSR_M) e1 else Ok e1 in
       Ok (setf uncached_cpsr (new_uncached val mask (fld e uncached_cpsr)) e)).
    rewrite Hsw. cbn [rbind]. by rewrite Hf2, Hu1. }
  split; [by apply sizes_setf|]. split; [done|]. split.
  { apply (same_arch_ext e e1); [apply write_flags_arrs|done| |done]. apply write_flags_other. set_solver. }
  split; [|split; [by rewrite cur_mode_setf, Hcm|]].
  - apply Z.bits_inj'. intros i Hi. rewrite masked_bits. destruct (Z.lt_ge_cases i 32).
    + rewrite !cpsr_read_bit by (done || lia). by apply written_bits.
    + rewrite (testbit_bound 32 mask), !(testbit_bound 32 (cpsr_read _)); try done; by apply cpsr_read_range.
  - intros a Ha. rewrite arrs_setf, Har2 by done. unfold e1. by rewrite write_flags_arrs.
Qed.

Lemma cpsr_mode e : flags_wf e -> Z.land (cpsr_read e) CPSR_M = cur_mode e.
Proof.
  intros Hwf. apply Z.bits_inj'. intros i Hi. unfold cur_mode. rewrite !Z.land_spec.
  destruct (Z.lt_ge_cases i 5) as [Hlt|Hge].
  - rewrite cpsr_read_bit, cpsr_bit_uncached by (done || lia ||
      (assert (i = 0 \/ i = 1 \/ i = 2 \/ i = 3 \/ i = 4) as [->|[->|[->|[->| ->]]]] by lia; done)).
    done.
  - rewrite (testbit_bound 5 CPSR_M) by done. btauto.
Qed.

(** ** Taking an exception *)

Lemma exception_entry_mode e k :
  exception_entry e = Some k ->
  new_mode k ∈ modes /\ Z.land (new_mode k) CPSR_M = new_mode k /\ in_u32 (new_mode k) /\
  Z.land (exc_mask k) (Z.lor CPSR_M CACHED_CPSR_BITS) = 0 /\ in_u32 (exc_mask k) /\
  Z.testbit (exc_mask k) 7 = true /\ Z.land (new_mode k) CACHED_CPSR_BITS = 0.
Proof.
  unfold exception_entry. intros H. repeat case_match; simplify_eq; cbn [new_mode exc_mask];
    (split; [unfold modes; set_solver|]); split_and!; (reflexivity || discriminate || lia).
Qed.

Definition exc_cpsr (k : exception_kind) (u : Z) : Z :=
  Z.lor (Z.lor (andn u CPSR_M) (new_mode k)) (exc_mask k).

Lemma exc_cpsr_ok e k :
  flags_wf e -> exception_entry e = Some k ->
  let c := exc_cpsr k (fld e uncached_cpsr) in
  Z.land c CPSR_M = new_mode k /\ in_u32 c /\ Z.land c CACHED_CPSR_BITS = 0 /\ Z.testbit c 7 = true.
Proof.
  intros (Hu & Hc & _) Hk. destruct (exception_entry_mode e k Hk) as (_ & HM & Hn & Hx & Hxb & H7 & Hnc).
  unfold exc_cpsr. split; [|split; [|split]].
  - apply Z.bits_inj'. intros i Hi. apply (f_equal (fun z => Z.testbit z i)) in HM, Hx. revert HM Hx.
    autorewrite with zbits. destruct (Z.testbit CPSR_M i); rewrite ?andb_true_r, ?andb_false_r, ?orb_true_l.
    + intros _ H. rewrite ?orb_true_l, ?andb_true_r in H. rewrite H. btauto.
    + intros <- _. done.
  - apply (lor_bound 32); [done| |done]. apply (lor_bound 32); [done| |done].
    apply (bits_bound 32); [done|]. intros i Hi. by rewrite Z.ldiff_spec, (testbit_bound 32) by done.
  - apply Z.bits_inj'. intros i Hi. apply (f_equal (fun z => Z.testbit z i)) in Hc, Hx, Hnc. revert Hc Hx Hnc.
    autorewrite with zbits. destruct (Z.testbit CACHED_CPSR_BITS i); [|intros; btauto].
    rewrite !andb_true_r, orb_true_r, !andb_true_r. intros -> -> ->. done.
  - rewrite Z.lor_spec, H7. apply orb_true_r.
Qed.

Lemma arch_reg_set14 e v m r :
  sizes_ok e -> arch_reg (sete regs 14 v e) m r =
    if (bank m =? bank (cur_mode e))%nat && (r =? 14)%nat then v else arch_reg e m r.
Proof.
  intros Hs. unfold arch_reg. change (cur_mode (sete regs 14 v e)) with (cur_mode e).
  assert (Ho : forall a i, a <> regs -> elt (sete regs 14 v e) a i = elt e a i)
    by (intros; apply elt_sete_ne; congruence).
  assert (Hr : forall i, i <> 14%nat -> elt (sete regs 14 v e) regs i = elt e regs i)
    by (intros; apply elt_sete_ne; congruence).
  destruct (Nat.eqb_spec r 14) as [->|H14].
  - cbn [Nat.leb Nat.eqb andb]. rewrite elt_sete_same, Ho by (done || (cbn; lia)).
    rewrite andb_true_r. by case_match.
  - rewrite andb_false_r. rewrite !(Ho fiq_regs), !(Ho usr_regs), (Ho banked_r13) by done.
    rewrite (Hr r), (Hr 13%nat) by done. done.
Qed.

Lemma arch_reg_set15 e v m r :
  (r < 15)%nat -> arch_reg (sete regs 15 v e) m r = arch_reg e m r.
Proof.
  intros Hr. unfold arch_reg. change (cur_mode (sete regs 15 v e)) with (cur_mode e).
  assert (Ho : forall a i, (a, i) <> (regs, 15%nat) -> elt (sete regs 15 v e) a i = elt e a i)
    by (intros; apply elt_sete_ne; congruence).
  rewrite !(Ho fiq_regs), !(Ho usr_regs), !(Ho banked_r13), !(Ho banked_r14), (Ho regs r), (Ho regs 13%nat),
    (Ho regs 14%nat) by (done || (intros [=]; lia)). done.
Qed.

(** What an exception leaves as it was: every register of every mode but
    the link register of the new one and the program counter, and every saved
    status but the new mode's. *)
Definition kept (k : exception_kind) (e e' : CPUARMState) : Prop :=
  forall m, m ∈ modes ->
    (forall r, (r < 15)%nat -> ~ (bank m = bank (new_mode k) /\ r = 14%nat) ->
       arch_reg e' m r = arch_reg e m r) /\
    (bank m <> bank (new_mode k) -> arch_spsr e' m = arch_spsr e m).

Lemma cpsr_read_ext e e' : (forall f, f <> spsr -> fld e' f = fld e f) -> cpsr_read e' = cpsr_read e.
Proof. intros H. unfold cpsr_read. by rewrite !H. Qed.

(** The state an exception leaves, after the banks have been exchanged. *)
Definition enter (k : exception_kind) (addr : Z) (e : CPUARMState) : CPUARMState :=
  let e := setf spsr (cpsr_read e) e in
  let e := setf condexec_bits 0 e in
  let e := setf uncached_cpsr (Z.lor (andn (fld e uncached_cpsr) CPSR_M) (new_mode k)) e in
  let e := setf uncached_cpsr (Z.lor (fld e uncached_cpsr) (exc_mask k)) e in
  let e := setf thumb 0 e in
  let e := sete regs 14 (u32 (elt e regs 15 + exc_offset k)) e in
  let e := sete regs 15 addr e in
  setf interrupt_request (Z.lor (fld e interrupt_request) CPU_INTERRUPT_EXITTB) e.

(** The mode's registers do not depend on the other members. *)
Lemma arch_reg_ext e e' m r :
  arrs e' = arrs e -> fld e' uncached_cpsr = fld e uncached_cpsr -> arch_reg e' m r = arch_reg e m r.
Proof. intros Ha Hu. unfold arch_reg, cur_mode, elt. by rewrite Ha, Hu. Qed.

Lemma enter_arch k addr e m r :
  sizes_ok e -> (r < 15)%nat ->
  let c := exc_cpsr k (fld e uncached_cpsr) in
  arch_reg (enter k addr e) m r =
    if (bank m =? bank (Z.land c CPSR_M))%nat && (r =? 14)%nat then u32 (elt e regs 15 + exc_offset k)
    else arch_reg (setf uncached_cpsr c e) m r.
Proof.
  intros Hs Hr c. set (e0 := setf thumb 0 (setf uncached_cpsr c (setf condexec_bits 0 (setf spsr (cpsr_read e) e)))).
  rewrite (arch_reg_ext (sete regs 15 addr (sete regs 14 (u32 (elt e regs 15 + exc_offset k)) e0))) by done.
  rewrite arch_reg_set15, arch_reg_set14 by done. done.
Qed.

Lemma do_interrupt_ok iv7m semi dsemi lduw ldl e k :
  sizes_ok e -> flags_wf e -> cur_mode e ∈ modes ->
  arm_feature e ARM_FEATURE_M = false -> semihosting_call semi lduw ldl e = None ->
  exception_entry e = Some k ->
  exists e', do_interrupt iv7m semi dsemi lduw ldl e = Ok e' /\
    sizes_ok e' /\ flags_wf e' /\ cur_mode e' = new_mode k /\
    elt e' regs 15 = (if Z.testbit (fld e c1_sys) 13 then vector k + 0xffff0000 else vector k) /\
    arch_reg e' (new_mode k) 14 = u32 (elt e regs 15 + exc_offset k) /\
    fld e' spsr = cpsr_read e /\ Z.testbit (cpsr_read e') 7 = true /\ fld e' thumb = 0 /\
    kept k e e'.
Proof.
  intros Hs Hwf Hc HM Hsemi Hk. unfold do_interrupt. rewrite HM, Hsemi, Hk.
  destruct (exception_entry_mode e k Hk) as (Hnm & _).
  destruct (exc_cpsr_ok e k Hwf Hk) as (HcM & Hc32 & Hcc & Hc7).
  set (c := exc_cpsr k (fld e uncached_cpsr)) in *.
  destruct (switch_mode_arch (new_mode k) e c Hs Hc Hnm HcM) as (e1 & -> & Hs1 & Hf1 & Ha1 & Hsame & _).
  rewrite (land_bit32_ctrue (fld e c1_sys) 13) by lia. cbn [rbind].
  set (addr := if Z.testbit _ _ then _ else _). exists (enter k addr e1). split; [done|].
  assert (Hu1 : exc_cpsr k (fld e1 uncached_cpsr) = c) by (unfold c; by rewrite Hf1).
  assert (Hcu : fld (enter k addr e1) uncached_cpsr = c) by (rewrite <- Hu1; done).
  assert (H15 : elt e1 regs 15 = elt e regs 15) 
    by (destruct (Hsame _ Hnm) as [Hr _]; apply (Hr 15%nat); lia).
  assert (Hwf' : flags_wf (enter k addr e1)).
  { destruct Hwf as (_ & _ & W). unfold flags_wf. rewrite Hcu.
    change (fld (enter k addr e1) thumb) with 0. change (fld (enter k addr e1) condexec_bits) with 0.
    change (fld (enter k addr e1) CF) with (fld e1 CF). change (fld (enter k addr e1) QF) with (fld e1 QF).
    change (fld (enter k addr e1) GE) with (fld e1 GE). change (fld (enter k addr e1) NF) with (fld e1 NF).
    change (fld (enter k addr e1) VF) with (fld e1 VF). rewrite !Hf1 by done. intuition lia. }
  assert (Hm : cur_mode (enter k addr e1) = new_mode k) by (unfold cur_mode; by rewrite Hcu).
  split; [unfold enter; auto 10 with cpu|]. split; [done|]. split; [done|]. split.
  { unfold enter. cbn zeta. rewrite elt_setf, elt_sete_same by (auto 10 with cpu || (cbn; lia)).
    unfold addr. destruct (Z.testbit (fld e c1_sys) 13); [|done]. apply uwrap_small.
    unfold exception_entry in Hk. repeat case_match; simplify_eq; cbn; lia. }
  split; [|split; [|split; [|split; [done|]]]].
  - rewrite enter_arch, Hu1, HcM, Nat.eqb_refl, H15 by (done || lia). done.
  - change (fld (enter k addr e1) spsr) with (cpsr_read e1). by apply cpsr_read_ext.
  - rewrite cpsr_read_bit, cpsr_bit_uncached, Hcu by (done || lia). done.
  - intros m Hm'. destruct (Hsame m Hm') as [Hr Hsp]. split.
    + intros r Hlt Hne. rewrite enter_arch, Hu1, HcM by done.
      destruct (Nat.eqb_spec (bank m) (bank (new_mode k))), (Nat.eqb_spec r 14); try tauto; apply Hr; lia.
    + intros Hne. rewrite <- Hsp. unfold arch_spsr. rewrite Hm, cur_mode_setf, HcM.
      rewrite (proj2 (Nat.eqb_neq _ _) Hne). unfold enter. cbn zeta. rewrite elt_setf.
      rewrite !elt_sete_ne by congruence. done.
Qed.

(** ** The properties *)

Lemma kept_trans k e e1 e2 : kept k e e1 -> same_arch e1 e2 -> kept k e e2.
Proof.
  intros H1 H2 m Hm. destruct (H1 m Hm) as [R1 S1]. destruct (H2 m Hm) as [R2 S2]. split.
  - intros r Hr Hne. rewrite R2 by lia. by apply R1.
  - intros Hne. rewrite S2. by apply S1.
Qed.

Definition all_ones : Z := 0xffffffff.

Lemma all_ones_ok : mask_ok all_ones.
Proof. repeat split; try (left; reflexivity); done. Qed.

(** C21: writing the status register writes exactly the bits of the mask, as
    [cpsr_read] then reports, whichever of its eight places a bit is kept in;
    the write never aborts for a mode that exists, and although it may move
    r8-r14 and the saved status between the banks, the registers every mode
    sees are those it saw before. *)
Theorem cpsr_write_read val mask e :
  sizes_ok e -> flags_wf e -> cur_mode e ∈ modes -> in_u32 val -> mask_ok mask ->
  (ctrue (Z.land mask CPSR_M) = true -> Z.land val CPSR_M ∈ modes) ->
  exists e', cpsr_write val mask e = Ok e' /\
    cpsr_read e' = Z.lor (Z.ldiff (cpsr_read e) mask) (Z.land val mask) /\
    same_arch e e' /\ sizes_ok e' /\ flags_wf e' /\ cur_mode e' ∈ modes.
Proof.
  intros Hs Hwf Hc Hv Hm Hval.
  destruct (cpsr_write_ok val mask e Hs Hwf Hc Hv Hm Hval) as (e' & E & Hs' & Hwf' & Ha & Hr & Hcm & _).
  exists e'. split_and!; try done. rewrite Hcm. case_match; [by apply Hval|done].
Qed.


(** A processor in user mode, with an instruction that was undefined. *)
Definition sample_cpu : CPUARMState :=
  mkCPU (fun f => match f with
                  | uncached_cpsr => ARM_CPU_MODE_USR | NF => 0x80000000 | ZF => 1 | CF => 1
                  | thumb => 1 | exception_index => EXCP_UDEF | c1_sys => 0x2000 | _ => 0 end)
        (fun a => match a with
                  | regs => map Z.of_nat (seq 100 16)
                  | _ => repeat 7 (array_size a) end).

Lemma sample_cpu_ok : sizes_ok sample_cpu /\ flags_wf sample_cpu /\ cur_mode sample_cpu ∈ modes.
Proof. split; [intros []; done|]. split; [by repeat split|]. unfold modes. set_solver. Qed.

Lemma cpsr_write_read_witness :
  exists e', cpsr_write 0x600001d1 0xffffffff sample_cpu = Ok e' /\
    cpsr_read e' = 0x600001d1 /\ same_arch sample_cpu e'.
Proof.
  destruct sample_cpu_ok as (H1 & H2 & H3).
  destruct (cpsr_write_read 0x600001d1 0xffffffff sample_cpu H1 H2 H3 ltac:(lia) all_ones_ok) as (e' & E & R & A & _).
  { intros _. unfold modes. set_solver. }
  exists e'. split; [exact E|]. split; [rewrite R; reflexivity|exact A].
Defined.

