(* ===== verification/ArmArith.v ===== *)
(** * The integer helpers of the ARM translator

    The functions of [target-arm/op_helper.c] and [target-arm/helper.c] that
    translated code calls for arithmetic with flags, shifts by a register,
    saturation, parallel arithmetic and bit counting, with the operations of
    the architecture manual that they stand for. A helper that changes the
    processor returns its result and the new state. *)
From S2P Require Import Prelude ArmCpu.
From stdpp Require Import list sets.
#[local] Open Scope Z_scope.

Definition SIGNBIT : Z := 0x80000000.
Definition SIGNBIT64 : Z := 0x8000000000000000.
Definition not64 (z : Z) : Z := Z.lxor z 0xffffffffffffffff.

(** ** Arithmetic with flags *)

Definition helper_add_cc (a b : Z) (e : CPUARMState) : Z * CPUARMState :=
  let result := u32 (a + b) in
  let e := setf NF result (setf ZF result e) in
  let e := setf CF (cbool (result <? a)) e in
  (result, setf VF (Z.land (Z.lxor (Z.lxor a b) 0xffffffff) (Z.lxor a result)) e).

Definition helper_adc_cc (a b : Z) (e : CPUARMState) : Z * CPUARMState :=
  let '(result, e) :=
    if negb (ctrue (fld e CF)) then
      let result := u32 (a + b) in (result, setf CF (cbool (result <? a)) e)
    else
      let result := u32 (a + b + 1) in (result, setf CF (cbool (result <=? a)) e) in
  let e := setf VF (Z.land (Z.lxor (Z.lxor a b) 0xffffffff) (Z.lxor a result)) e in
  (result, setf NF result (setf ZF result e)).

Definition helper_sub_cc (a b : Z) (e : CPUARMState) : Z * CPUARMState :=
  let result := u32 (a - b) in
  let e := setf NF result (setf ZF result e) in
  let e := setf CF (cbool (b <=? a)) e in
  (result, setf VF (Z.land (Z.lxor a b) (Z.lxor a result)) e).

Definition helper_sbc_cc (a b : Z) (e : CPUARMState) : Z * CPUARMState :=
  let '(result, e) :=
    if negb (ctrue (fld e CF)) then
      let result := u32 (a - b - 1) in (result, setf CF (cbool (b <? a)) e)
    else
      let result := u32 (a - b) in (result, setf CF (cbool (b <=? a)) e) in
  let e := setf VF (Z.land (Z.lxor a b) (Z.lxor a result)) e in
  (result, setf NF result (setf ZF result e)).

(** ** Shifts by a register *)

Definition helper_shl (x i : Z) : Z :=
  let shift := Z.land i 0xff in if 32 <=? shift then 0 else u32 (Z.shiftl x shift).
Definition helper_shr (x i : Z) : Z :=
  let shift := Z.land i 0xff in if 32 <=? shift then 0 else Z.shiftr x shift.
Definition helper_sar (x i : Z) : Z :=
  let shift := Z.land i 0xff in
  let shift := if 32 <=? shift then 31 else shift in u32 (Z.shiftr (s32 x) shift).

(** A shift by 32 or more, or by a negative number, is undefined in C. *)
Definition helper_ror (x i : Z) : res Z :=
  let shift := Z.land i 0xff in
  if shift =? 0 then Ok x
  else if 32 <=? shift then Undef
  else Ok (Z.lor (Z.shiftr x shift) (u32 (Z.shiftl x (32 - shift)))).

Definition helper_shl_cc (x i : Z) (e : CPUARMState) : Z * CPUARMState :=
  let shift := Z.land i 0xff in
  if 32 <=? shift then
    (0, if shift =? 32 then setf CF (Z.land x 1) e else setf CF 0 e)
  else if negb (shift =? 0) then
    (u32 (Z.shiftl x shift), setf CF (Z.land (Z.shiftr x (32 - shift)) 1) e)
  else (x, e).

Definition helper_shr_cc (x i : Z) (e : CPUARMState) : Z * CPUARMState :=
  let shift := Z.land i 0xff in
  if 32 <=? shift then
    (0, if shift =? 32 then setf CF (Z.land (Z.shiftr x 31) 1) e else setf CF 0 e)
  else if negb (shift =? 0) then
    (Z.shiftr x shift, setf CF (Z.land (Z.shiftr x (shift - 1)) 1) e)
  else (x, e).

Definition helper_sar_cc (x i : Z) (e : CPUARMState) : Z * CPUARMState :=
  let shift := Z.land i 0xff in
  if 32 <=? shift then
    (u32 (Z.shiftr (s32 x) 31), setf CF (Z.land (Z.shiftr x 31) 1) e)
  else if negb (shift =? 0) then
    (u32 (Z.shiftr (s32 x) shift), setf CF (Z.land (Z.shiftr x (shift - 1)) 1) e)
  else (x, e).

Definition helper_ror_cc (x i : Z) (e : CPUARMState) : Z * CPUARMState :=
  let shift1 := Z.land i 0xff in
  let shift := Z.land shift1 0x1f in
  if shift =? 0 then (x, if negb (shift1 =? 0) then setf CF (Z.land (Z.shiftr x 31) 1) e else e)
  else (Z.lor (Z.shiftr x shift) (u32 (Z.shiftl x (32 - shift))),
        setf CF (Z.land (Z.shiftr x (shift - 1)) 1) e).

(** ** Saturation *)

Definition helper_add_setq (a b : Z) (e : CPUARMState) : Z * CPUARMState :=
  let res := u32 (a + b) in
  (res, if ctrue (Z.land (Z.lxor res a) SIGNBIT) && negb (ctrue (Z.land (Z.lxor a b) SIGNBIT))
        then setf QF 1 e else e).

Definition helper_add_saturate (a b : Z) (e : CPUARMState) : Z * CPUARMState :=
  let res := u32 (a + b) in
  if ctrue (Z.land (Z.lxor res a) SIGNBIT) && negb (ctrue (Z.land (Z.lxor a b) SIGNBIT))
  then (not32 (Z.lxor (u32 (Z.shiftr (s32 a) 31)) SIGNBIT), setf QF 1 e)
  else (res, e).

Definition helper_sub_saturate (a b : Z) (e : CPUARMState) : Z * CPUARMState :=
  let res := u32 (a - b) in
  if ctrue (Z.land (Z.lxor res a) SIGNBIT) && ctrue (Z.land (Z.lxor a b) SIGNBIT)
  then (not32 (Z.lxor (u32 (Z.shiftr (s32 a) 31)) SIGNBIT), setf QF 1 e)
  else (res, e).

Definition helper_double_saturate (x : Z) (e : CPUARMState) : Z * CPUARMState :=
  let val := s32 x in
  if 0x40000000 <=? val then (not32 SIGNBIT, setf QF 1 e)
  else if val <=? s32 0xc0000000 then (SIGNBIT, setf QF 1 e)
  else (u32 (Z.shiftl val 1), e).

Definition helper_add_usaturate (a b : Z) (e : CPUARMState) : Z * CPUARMState :=
  let res := u32 (a + b) in if res <? a then (0xffffffff, setf QF 1 e) else (res, e).
Definition helper_sub_usaturate (a b : Z) (e : CPUARMState) : Z * CPUARMState :=
  let res := u32 (a - b) in if a <? res then (0, setf QF 1 e) else (res, e).

(** [val] is an [int32_t], [shift] below 32. *)
Definition do_ssat (val shift : Z) (e : CPUARMState) : Z * CPUARMState :=
  let top := Z.shiftr val shift in
  let mask := u32 (Z.shiftl 1 shift - 1) in
  if 0 <? top then (mask, setf QF 1 e)
  else if top <? -1 then (not32 mask, setf QF 1 e)
  else (u32 val, e).

Definition do_usat (val shift : Z) (e : CPUARMState) : Z * CPUARMState :=
  let max := u32 (Z.shiftl 1 shift - 1) in
  if val <? 0 then (0, setf QF 1 e)
  else if max <? u32 val then (max, setf QF 1 e)
  else (u32 val, e).

Definition helper_ssat (x shift : Z) (e : CPUARMState) : Z * CPUARMState := do_ssat (s32 x) shift e.
Definition helper_usat (x shift : Z) (e : CPUARMState) : Z * CPUARMState := do_usat (s32 x) shift e.

Definition helper_ssat16 (x shift : Z) (e : CPUARMState) : Z * CPUARMState :=
  let '(lo, e) := do_ssat (swrap 16 x) shift e in
  let '(hi, e) := do_ssat (Z.shiftr (s32 x) 16) shift e in
  (Z.lor (u16 lo) (u32 (Z.shiftl hi 16)), e).
Definition helper_usat16 (x shift : Z) (e : CPUARMState) : Z * CPUARMState :=
  let '(lo, e) := do_usat (swrap 16 x) shift e in
  let '(hi, e) := do_usat (Z.shiftr (s32 x) 16) shift e in
  (Z.lor (u16 lo) (u32 (Z.shiftl hi 16)), e).

Definition helper_neon_add_saturate_s64 (src1 src2 : Z) (e : CPUARMState) : Z * CPUARMState :=
  let res := u64 (src1 + src2) in
  if ctrue (Z.land (Z.lxor res src1) SIGNBIT64) && negb (ctrue (Z.land (Z.lxor src1 src2) SIGNBIT64))
  then (Z.lxor (u64 (Z.shiftr (s64 src1) 63)) (not64 SIGNBIT64), setf QF 1 e)
  else (res, e).
Definition helper_neon_add_saturate_u64 (src1 src2 : Z) (e : CPUARMState) : Z * CPUARMState :=
  let res := u64 (src1 + src2) in if res <? src1 then (0xffffffffffffffff, setf QF 1 e) else (res, e).
Definition helper_neon_sub_saturate_s64 (src1 src2 : Z) (e : CPUARMState) : Z * CPUARMState :=
  let res := u64 (src1 - src2) in
  if ctrue (Z.land (Z.lxor res src1) SIGNBIT64) && ctrue (Z.land (Z.lxor src1 src2) SIGNBIT64)
  then (Z.lxor (u64 (Z.shiftr (s64 src1) 63)) (not64 SIGNBIT64), setf QF 1 e)
  else (res, e).
Definition helper_neon_sub_saturate_u64 (src1 src2 : Z) (e : CPUARMState) : Z * CPUARMState :=
  if src1 <? src2 then (0, setf QF 1 e) else (u64 (src1 - src2), e).

(** ** Bits and bytes *)

Definition helper_sxtb16 (x : Z) : Z :=
  Z.lor (u16 (s8 x)) (u32 (Z.shiftl (u32 (s8 (Z.shiftr x 16))) 16)).
Definition helper_uxtb16 (x : Z) : Z := Z.lor (u8 x) (Z.shiftl (u8 (Z.shiftr x 16)) 16).

Fixpoint clz_loop (fuel : nat) (count x : Z) : res Z :=
  if ctrue x then
    match fuel with O => Undef | S fuel => clz_loop fuel (count - 1) (Z.shiftr x 1) end
  else Ok count.
Definition helper_clz (x : Z) : res Z := clz_loop 32 32 x.

Definition helper_sdiv (num den : Z) : res Z :=
  if den =? 0 then Ok 0
  else if (num =? -2147483648) && (den =? -1) then Undef
  else Ok (Z.quot num den).
Definition helper_udiv (num den : Z) : Z := if den =? 0 then 0 else num / den.

Definition helper_rbit (x : Z) : Z :=
  let x := Z.lor (Z.lor (Z.lor (Z.shiftr (Z.land x 0xff000000) 24) (Z.shiftr (Z.land x 0x00ff0000) 8))
                        (u32 (Z.shiftl (Z.land x 0x0000ff00) 8))) (u32 (Z.shiftl (Z.land x 0x000000ff) 24)) in
  let x := Z.lor (Z.shiftr (Z.land x 0xf0f0f0f0) 4) (u32 (Z.shiftl (Z.land x 0x0f0f0f0f) 4)) in
  Z.lor (Z.lor (Z.lor (Z.shiftr (Z.land x 0x88888888) 3) (Z.shiftr (Z.land x 0x44444444) 1))
               (u32 (Z.shiftl (Z.land x 0x22222222) 1))) (u32 (Z.shiftl (Z.land x 0x11111111) 3)).

Definition helper_abs (x : Z) : Z := if s32 x <? 0 then u32 (- x) else x.

Definition do_usad (a b : Z) : Z := let a := u8 a in let b := u8 b in if b <? a then u8 (a - b) else u8 (b - a).
Definition helper_usad8 (a b : Z) : Z :=
  let sum := do_usad a b in
  let sum := u32 (sum + do_usad (Z.shiftr a 8) (Z.shiftr b 8)) in
  let sum := u32 (sum + do_usad (Z.shiftr a 16) (Z.shiftr b 16)) in
  u32 (sum + do_usad (Z.shiftr a 24) (Z.shiftr b 24)).

Definition helper_sel_flags (flags a b : Z) : Z :=
  let mask := 0 in
  let mask := if ctrue (Z.land flags 1) then Z.lor mask 0xff else mask in
  let mask := if ctrue (Z.land flags 2) then Z.lor mask 0xff00 else mask in
  let mask := if ctrue (Z.land flags 4) then Z.lor mask 0xff0000 else mask in
  let mask := if ctrue (Z.land flags 8) then Z.lor mask 0xff000000 else mask in
  Z.lor (Z.land a mask) (Z.land b (not32 mask)).

Definition helper_logicq_cc (val : Z) : Z := Z.lor (Z.shiftr val 32) (cbool (negb (val =? 0))).

(** ** The registers of user mode *)

Definition helper_get_user_reg (regno : nat) (e : CPUARMState) : Z :=
  if (regno =? 13)%nat then elt e banked_r13 0
  else if (regno =? 14)%nat then elt e banked_r14 0
  else if (8 <=? regno)%nat && (cur_mode e =? ARM_CPU_MODE_FIQ) then elt e usr_regs (regno - 8)
  else elt e regs regno.

Definition helper_set_user_reg (regno : nat) (val : Z) (e : CPUARMState) : CPUARMState :=
  if (regno =? 13)%nat then sete banked_r13 0 val e
  else if (regno =? 14)%nat then sete banked_r14 0 val e
  else if (8 <=? regno)%nat && (cur_mode e =? ARM_CPU_MODE_FIQ) then sete usr_regs (regno - 8) val e
  else sete regs regno val e.

(** ** Parallel addition and subtraction

    [op_addsub.h] is included six times; each inclusion defines the six
    operations of one prefix from the lane operations [ADD16], [SUB16],
    [ADD8] and [SUB8]. A lane operation returns the lane's result and its
    contribution to the flags [GE] (the halving and saturating prefixes have
    no flags: they contribute none and the state keeps its own). *)

Record lanes := mkLanes {
  ADD16 : Z -> Z -> Z -> Z * Z;
  SUB16 : Z -> Z -> Z -> Z * Z;
  ADD8 : Z -> Z -> Z -> Z * Z;
  SUB8 : Z -> Z -> Z -> Z * Z;
  ARITH_GE : bool
}.

(** [RESULT(val, n, width)]. *)
Definition RESULT (val n width : Z) : Z := u32 (Z.shiftl (uwrap width val) (n * width)).

Definition both (r1 r2 : Z * Z) : Z * Z := (Z.lor (fst r1) (fst r2), Z.lor (snd r1) (snd r2)).
Definition set_ge (L : lanes) (r : Z * Z) (e : CPUARMState) : Z * CPUARMState :=
  (fst r, if ARITH_GE L then setf GE (snd r) e else e).

Definition helper_add16 (L : lanes) (a b : Z) (e : CPUARMState) : Z * CPUARMState :=
  set_ge L (both (ADD16 L a b 0) (ADD16 L (Z.shiftr a 16) (Z.shiftr b 16) 1)) e.
Definition helper_add8 (L : lanes) (a b : Z) (e : CPUARMState) : Z * CPUARMState :=
  set_ge L (both (both (both (ADD8 L a b 0) (ADD8 L (Z.shiftr a 8) (Z.shiftr b 8) 1))
                       (ADD8 L (Z.shiftr a 16) (Z.shiftr b 16) 2)) (ADD8 L (Z.shiftr a 24) (Z.shiftr b 24) 3)) e.
Definition helper_sub16 (L : lanes) (a b : Z) (e : CPUARMState) : Z * CPUARMState :=
  set_ge L (both (SUB16 L a b 0) (SUB16 L (Z.shiftr a 16) (Z.shiftr b 16) 1)) e.
Definition helper_sub8 (L : lanes) (a b : Z) (e : CPUARMState) : Z * CPUARMState :=
  set_ge L (both (both (both (SUB8 L a b 0) (SUB8 L (Z.shiftr a 8) (Z.shiftr b 8) 1))
                       (SUB8 L (Z.shiftr a 16) (Z.shiftr b 16) 2)) (SUB8 L (Z.shiftr a 24) (Z.shiftr b 24) 3)) e.
Definition helper_subaddx (L : lanes) (a b : Z) (e : CPUARMState) : Z * CPUARMState :=
  set_ge L (both (ADD16 L a b 0) (SUB16 L (Z.shiftr a 16) (Z.shiftr b 16) 1)) e.
Definition helper_addsubx (L : lanes) (a b : Z) (e : CPUARMState) : Z * CPUARMState :=
  set_ge L (both (SUB16 L a b 0) (ADD16 L (Z.shiftr a 16) (Z.shiftr b 16) 1)) e.

(** The lane operations. *)

Definition add16_sat (a b : Z) : Z :=
  let a := u16 a in let b := u16 b in
  let res := u16 (a + b) in
  if ctrue (Z.land (Z.lxor res a) 0x8000) && negb (ctrue (Z.land (Z.lxor a b) 0x8000))
  then if ctrue (Z.land a 0x8000) then 0x8000 else 0x7fff
  else res.
Definition add8_sat (a b : Z) : Z :=
  let a := u8 a in let b := u8 b in
  let res := u8 (a + b) in
  if ctrue (Z.land (Z.lxor res a) 0x80) && negb (ctrue (Z.land (Z.lxor a b) 0x80))
  then if ctrue (Z.land a 0x80) then 0x80 else 0x7f
  else res.
Definition sub16_sat (a b : Z) : Z :=
  let a := u16 a in let b := u16 b in
  let res := u16 (a - b) in
  if ctrue (Z.land (Z.lxor res a) 0x8000) && ctrue (Z.land (Z.lxor a b) 0x8000)
  then if ctrue (Z.land a 0x8000) then 0x8000 else 0x7fff
  else res.
Definition sub8_sat (a b : Z) : Z :=
  let a := u8 a in let b := u8 b in
  let res := u8 (a - b) in
  if ctrue (Z.land (Z.lxor res a) 0x80) && ctrue (Z.land (Z.lxor a b) 0x80)
  then if ctrue (Z.land a 0x80) then 0x80 else 0x7f
  else res.

Definition add16_usat (a b : Z) : Z :=
  let a := u16 a in let b := u16 b in let res := u16 (a + b) in if res <? a then 0xffff else res.
Definition sub16_usat (a b : Z) : Z :=
  let a := u16 a in let b := u16 b in if a <? b then u16 (a - b) else 0.
Definition add8_usat (a b : Z) : Z :=
  let a := u8 a in let b := u8 b in let res := u8 (a + b) in if res <? a then 0xff else res.
Definition sub8_usat (a b : Z) : Z :=
  let a := u8 a in let b := u8 b in if a <? b then u8 (a - b) else 0.

Definition plain (width : Z) (f : Z -> Z -> Z) (a b n : Z) : Z * Z := (RESULT (f a b) n width, 0).

Definition lanes_q : lanes := mkLanes (plain 16 add16_sat) (plain 16 sub16_sat) (plain 8 add8_sat) (plain 8 sub8_sat) false.
Definition lanes_uq : lanes :=
  mkLanes (plain 16 add16_usat) (plain 16 sub16_usat) (plain 8 add8_usat) (plain 8 sub8_usat) false.

Definition SARITH16 (op : Z -> Z -> Z) (a b n : Z) : Z * Z :=
  let sum := swrap 16 (op (u16 a) (u16 b)) in
  (RESULT sum n 16, if 0 <=? sum then Z.shiftl 3 (n * 2) else 0).
Definition SARITH8 (op : Z -> Z -> Z) (a b n : Z) : Z * Z :=
  let sum := s8 (op (u8 a) (u8 b)) in
  (RESULT sum n 8, if 0 <=? sum then Z.shiftl 1 n else 0).
Definition lanes_s : lanes := mkLanes (SARITH16 Z.add) (SARITH16 Z.sub) (SARITH8 Z.add) (SARITH8 Z.sub) true.

Definition UADD16 (a b n : Z) : Z * Z :=
  let sum := u32 (u16 a + u16 b) in
  (RESULT sum n 16, if Z.shiftr sum 16 =? 1 then Z.shiftl 3 (n * 2) else 0).
Definition UADD8 (a b n : Z) : Z * Z :=
  let sum := u32 (u8 a + u8 b) in
  (RESULT sum n 8, if Z.shiftr sum 8 =? 1 then Z.shiftl 1 n else 0).
Definition USUB16 (a b n : Z) : Z * Z :=
  let sum := u32 (u16 a - u16 b) in
  (RESULT sum n 16, if Z.shiftr sum 16 =? 0 then Z.shiftl 3 (n * 2) else 0).
Definition USUB8 (a b n : Z) : Z * Z :=
  let sum := u32 (u8 a - u8 b) in
  (RESULT sum n 8, if Z.shiftr sum 8 =? 0 then Z.shiftl 1 n else 0).
Definition lanes_u : lanes := mkLanes UADD16 USUB16 UADD8 USUB8 true.

Definition lanes_sh : lanes :=
  mkLanes (plain 16 (fun a b => Z.shiftr (swrap 16 a + swrap 16 b) 1)) (plain 16 (fun a b => Z.shiftr (swrap 16 a - swrap 16 b) 1))
          (plain 8 (fun a b => Z.shiftr (s8 a + s8 b) 1)) (plain 8 (fun a b => Z.shiftr (s8 a - s8 b) 1)) false.
Definition lanes_uh : lanes :=
  mkLanes (plain 16 (fun a b => Z.shiftr (u32 (u16 a + u16 b)) 1)) (plain 16 (fun a b => Z.shiftr (u32 (u16 a - u16 b)) 1))
          (plain 8 (fun a b => Z.shiftr (u32 (u8 a + u8 b)) 1)) (plain 8 (fun a b => Z.shiftr (u32 (u8 a - u8 b)) 1)) false.

(** ** The architecture's operations

    Numbers are unbounded here: a carry or an overflow is the difference
    between the exact sum and what the register holds. *)

Definition AddWithCarry (x y : Z) (carry_in : bool) : Z * bool * bool :=
  let unsigned_sum := x + y + Z.b2z carry_in in
  let signed_sum := s32 x + s32 y + Z.b2z carry_in in
  let result := u32 unsigned_sum in
  (result, negb (result =? unsigned_sum), negb (s32 result =? signed_sum)).

(** The shifts with carry out, for every amount. *)
Definition LSL_C (x n : Z) (carry_in : bool) : Z * bool :=
  if n =? 0 then (x, carry_in) else (u32 (x * 2 ^ n), Z.testbit (x * 2 ^ n) 32).
Definition LSR_C (x n : Z) (carry_in : bool) : Z * bool :=
  if n =? 0 then (x, carry_in) else (x / 2 ^ n, Z.testbit x (n - 1)).
Definition ASR_C (x n : Z) (carry_in : bool) : Z * bool :=
  if n =? 0 then (x, carry_in) else (u32 (s32 x / 2 ^ n), Z.testbit (s32 x) (n - 1)).
Definition ROR (x n : Z) : Z := let m := n mod 32 in u32 (x / 2 ^ m + x * 2 ^ (32 - m)).
Definition ROR_C (x n : Z) (carry_in : bool) : Z * bool :=
  if n =? 0 then (x, carry_in) else (ROR x n, Z.testbit (ROR x n) 31).

(** The condition flags as software sees them. *)
Definition nzcv (e : CPUARMState) : bool * bool * bool * bool :=
  (Z.testbit (cpsr_read e) 31, Z.testbit (cpsr_read e) 30, Z.testbit (cpsr_read e) 29, Z.testbit (cpsr_read e) 28).

Definition carry (e : CPUARMState) : bool := snd (fst (nzcv e)).

Lemma nzcv_fields e :
  flags_wf e ->
  nzcv e = (Z.testbit (fld e NF) 31, fld e ZF =? 0, ctrue (fld e CF), Z.testbit (fld e VF) 31).
Proof.
  intros Hwf. unfold nzcv. rewrite !cpsr_read_bit by (done || lia). unfold cpsr_bit. ground_bits.
  assert (Z.testbit (fld e CF) 0 = ctrue (fld e CF)) as ->; [|done].
  destruct Hwf as (_ & _ & HC & _). assert (fld e CF = 0 \/ fld e CF = 1) as [->| ->] by lia; done.
Qed.

Lemma carry_field e : flags_wf e -> carry e = ctrue (fld e CF).
Proof. intros H. unfold carry. by rewrite nzcv_fields. Qed.

(** ** Signs *)

Lemma testbit_top w x : 0 < w -> 0 <= x < 2 ^ w -> Z.testbit x (w - 1) = (2 ^ (w - 1) <=? x).
Proof.
  intros Hw Hx. assert (Hp : 2 ^ w = 2 * 2 ^ (w - 1)) by (rewrite <- Z.pow_succ_r by lia; f_equal; lia).
  rewrite Z.testbit_odd, Z.shiftr_div_pow2 by lia.
  destruct (Z.leb_spec (2 ^ (w - 1)) x).
  - replace (x / 2 ^ (w - 1)) with 1; [done|]. apply Z.div_unique with (x - 2 ^ (w - 1)); lia.
  - by rewrite Z.div_small by lia.
Qed.

Lemma sign32 x : in_u32 x -> Z.testbit x 31 = (2147483648 <=? x).
Proof. intros H. exact (testbit_top 32 x ltac:(lia) H). Qed.

Lemma s32_u32 x : in_u32 x -> s32 x = if x <? 2147483648 then x else x - 4294967296.
Proof. intros H. unfold swrap. rewrite Z.mod_small by (simpl; lia). reflexivity. Qed.

Lemma u32_cases x : -4294967296 <= x < 8589934592 ->
  u32 x = if x <? 0 then x + 4294967296 else if x <? 4294967296 then x else x - 4294967296.
Proof.
  intros H. unfold uwrap. change (2 ^ 32) with 4294967296.
  destruct (Z.ltb_spec x 0); [|destruct (Z.ltb_spec x 4294967296)].
  - symmetry. apply Z.mod_unique with (-1); lia.
  - apply Z.mod_small. lia.
  - symmetry. apply Z.mod_unique with 1; lia.
Qed.

Lemma in_u32_u32 x : in_u32 (u32 x).
Proof. apply (uwrap_range 32). lia. Qed.

Lemma lxor_ones w x : 0 <= w -> 0 <= x < 2 ^ w -> Z.lxor x (Z.ones w) = Z.ones w - x.
Proof.
  intros Hw Hx.
  assert (Hd : Z.ldiff x (Z.ones w) = 0).
  { apply Z.bits_inj'. intros i Hi. rewrite Z.ldiff_spec, testbit_ones, Z.bits_0 by done.
    destruct (Z.ltb_spec i w); [rewrite (proj2 (Z.leb_le 0 i)) by lia; by rewrite andb_false_r|].
    by rewrite (testbit_bound w x). }
  rewrite Z.sub_nocarry_ldiff by done. apply Z.bits_inj'. intros i Hi.
  rewrite Z.lxor_spec, Z.ldiff_spec, testbit_ones by done.
  destruct (Z.ltb_spec i w); [rewrite (proj2 (Z.leb_le 0 i)) by lia; by destruct (Z.testbit x i)|].
  by rewrite (testbit_bound w x), andb_false_r.
Qed.

Lemma not32_sub x : in_u32 x -> not32 x = 4294967295 - x.
Proof. intros H. exact (lxor_ones 32 x ltac:(lia) H). Qed.

Lemma in_u32_not32 x : in_u32 x -> in_u32 (not32 x).
Proof. intros H. rewrite not32_sub by done. lia. Qed.

(** Deciding the comparisons of a goal by cases; a case that arithmetic rules
    out is dropped as soon as it appears. *)
Ltac compare_cases :=
  repeat (match goal with
          | |- context [?a <=? ?b] => destruct (Z.leb_spec a b)
          | |- context [?a <? ?b] => destruct (Z.ltb_spec a b)
          | |- context [?a =? ?b] => destruct (Z.eqb_spec a b)
          end; try (exfalso; lia)); cbn [andb orb negb xorb Z.b2z]; reflexivity.

Lemma b2z_range b : 0 <= Z.b2z b <= 1.
Proof. by destruct b. Qed.

(** A word is its signed value up to a multiple of the modulus. *)
Lemma s32_spec x : in_u32 x ->
  (x < 2147483648 /\ s32 x = x) \/ (2147483648 <= x /\ s32 x = x - 4294967296).
Proof. intros H. rewrite s32_u32 by done. destruct (Z.ltb_spec x 2147483648); auto. Qed.
Lemma u32_spec x : -4294967296 <= x < 8589934592 ->
  (x < 0 /\ u32 x = x + 4294967296) \/ (0 <= x < 4294967296 /\ u32 x = x) \/
  (4294967296 <= x /\ u32 x = x - 4294967296).
Proof.
  intros H. rewrite u32_cases by done.
  destruct (Z.ltb_spec x 0); [|destruct (Z.ltb_spec x 4294967296)]; auto with lia.
Qed.

(** The overflow bits that the helpers compute. *)
Lemma overflow_add a b r c :
  in_u32 a -> in_u32 b -> r = u32 (a + b + Z.b2z c) ->
  Z.testbit (Z.land (Z.lxor (Z.lxor a b) 0xffffffff) (Z.lxor a r)) 31
  = negb (s32 r =? s32 a + s32 b + Z.b2z c).
Proof.
  intros Ha Hb Hr. assert (Hr0 : in_u32 r) by (subst r; apply in_u32_u32).
  pose proof (b2z_range c). rewrite Z.land_spec, !Z.lxor_spec, !sign32 by done.
  change (Z.testbit 4294967295 31) with true.
  destruct (s32_spec a Ha) as [[? ->]|[? ->]], (s32_spec b Hb) as [[? ->]|[? ->]],
    (s32_spec r Hr0) as [[? ->]|[? ->]], (u32_spec (a + b + Z.b2z c)) as [[? E]|[[? E]|[? E]]]; try lia;
    rewrite E in Hr; clear E; compare_cases.
Qed.
Lemma overflow_sub a b r c :
  in_u32 a -> in_u32 b -> r = u32 (a - b - 1 + Z.b2z c) ->
  Z.testbit (Z.land (Z.lxor a b) (Z.lxor a r)) 31 = negb (s32 r =? s32 a + s32 (not32 b) + Z.b2z c).
Proof.
  intros Ha Hb Hr. assert (Hr0 : in_u32 r) by (subst r; apply in_u32_u32).
  pose proof (b2z_range c). rewrite Z.land_spec, !Z.lxor_spec, !sign32, not32_sub by done.
  destruct (s32_spec a Ha) as [[? ->]|[? ->]], (s32_spec (4294967295 - b)) as [[? ->]|[? ->]]; try lia;
    destruct (s32_spec r Hr0) as [[? ->]|[? ->]], (u32_spec (a - b - 1 + Z.b2z c)) as [[? E]|[[? E]|[? E]]]; try lia;
    rewrite E in Hr; clear E; compare_cases.
Qed.

(** The flags of a state after [NF], [ZF], [CF] and [VF] were set. *)
Definition set_nzcv (r : Z) (c : bool) (v : Z) (e : CPUARMState) : CPUARMState :=
  setf VF v (setf CF (cbool c) (setf NF r (setf ZF r e))).

Definition flag_fields : list cpu_field := [NF; ZF; CF; VF].

(** Two states that differ at most in the four flags. *)
Definition same_but_flags (e e' : CPUARMState) : Prop :=
  (forall f, f ∉ flag_fields -> fld e' f = fld e f) /\ (forall a, arrs e' a = arrs e a).

Lemma same_but_flags_set f v e : f ∈ flag_fields -> same_but_flags e (setf f v e).
Proof.
  intros Hf. split; [|done]. intros g Hg. cbn. rewrite decide_False; [done|]. by intros ->.
Qed.
Lemma same_but_flags_trans e1 e2 e3 : same_but_flags e1 e2 -> same_but_flags e2 e3 -> same_but_flags e1 e3.
Proof. intros [F1 A1] [F2 A2]. split; intros; [rewrite F2, F1|rewrite A2, A1]; done. Qed.
Lemma same_but_flags_refl e : same_but_flags e e.
Proof. by split. Qed.

(** The flags stay well-formed when the new values are words and the carry
    is a bit. *)
Lemma flags_wf_same e e' :
  flags_wf e -> same_but_flags e e' -> 0 <= fld e' CF < 2 -> in_u32 (fld e' NF) -> in_u32 (fld e' VF) -> flags_wf e'.
Proof.
  intros (H1 & H2 & H3 & H4 & H5 & H6 & H7 & H8 & H9) [F _] HC HN HV. unfold flags_wf.
  rewrite !(F uncached_cpsr), (F QF), (F thumb), (F GE), (F condexec_bits) by (unfold flag_fields; set_solver).
  split_and!; try done; lia.
Qed.

(** What a helper that sets the flags returns, against the reference. *)
Definition adds_with_carry (out : Z * CPUARMState) (x y : Z) (carry_in : bool) (e : CPUARMState) : Prop :=
  let '(result, carry_out, overflow) := AddWithCarry x y carry_in in
  fst out = result /\ nzcv (snd out) = (Z.testbit result 31, result =? 0, carry_out, overflow) /\
  flags_wf (snd out) /\ same_but_flags e (snd out).

Lemma adds_intro out x y c r (cf : bool) vf e :
  flags_wf e -> fst out = r -> same_but_flags e (snd out) -> in_u32 vf -> in_u32 r ->
  fld (snd out) NF = r -> fld (snd out) ZF = r -> fld (snd out) CF = cbool cf -> fld (snd out) VF = vf ->
  AddWithCarry x y c = (r, cf, Z.testbit vf 31) ->
  adds_with_carry out x y c e.
Proof.
  intros Hwf E Hs Hv Hr EN EZ EC EV Hadd. unfold adds_with_carry. rewrite Hadd.
  assert (Hwf' : flags_wf (snd out)).
  { apply (flags_wf_same e); [done..|rewrite EC; destruct cf; cbn; lia|congruence|congruence]. }
  split; [done|]. split; [|done]. rewrite nzcv_fields by done. rewrite EN, EZ, EC, EV, ctrue_cbool. done.
Qed.

Ltac flag_frame :=
  cbn [fst snd]; repeat first [apply same_but_flags_refl
    | eapply same_but_flags_trans; [|apply same_but_flags_set; unfold flag_fields; set_solver]].

Lemma in_u32_lxor a b : in_u32 a -> in_u32 b -> in_u32 (Z.lxor a b).
Proof. intros H H'. apply (lxor_bound 32); [lia|exact H|exact H']. Qed.
#[export] Hint Resolve in_u32_land in_u32_lxor in_u32_u32 in_u32_not32 : bounds.

Lemma u32_not_add a b k : in_u32 b -> u32 (a + not32 b + k) = u32 (a - b - 1 + k).
Proof.
  intros Hb. rewrite not32_sub by done. unfold uwrap.
  replace (a + (4294967295 - b) + k) with (a - b - 1 + k + 1 * 2 ^ 32) by lia. by rewrite Z.mod_add.
Qed.

(** The reference in the terms of the helpers. *)
Lemma AddWithCarry_add a b :
  in_u32 a -> in_u32 b ->
  AddWithCarry a b false =
  (u32 (a + b), u32 (a + b) <? a, Z.testbit (Z.land (Z.lxor (Z.lxor a b) 0xffffffff) (Z.lxor a (u32 (a + b)))) 31).
Proof.
  intros Ha Hb. unfold AddWithCarry. rewrite (overflow_add a b _ false) by (done || by rewrite Z.add_0_r).
  cbn [Z.b2z]. rewrite !Z.add_0_r. do 2 f_equal.
  destruct (u32_spec (a + b)) as [[? E]|[[? E]|[? E]]]; try lia; rewrite E; compare_cases.
Qed.
Lemma AddWithCarry_adc a b :
  in_u32 a -> in_u32 b ->
  AddWithCarry a b true =
  (u32 (a + b + 1), u32 (a + b + 1) <=? a,
   Z.testbit (Z.land (Z.lxor (Z.lxor a b) 0xffffffff) (Z.lxor a (u32 (a + b + 1)))) 31).
Proof.
  intros Ha Hb. unfold AddWithCarry. rewrite (overflow_add a b _ true) by done. cbn [Z.b2z]. do 2 f_equal.
  destruct (u32_spec (a + b + 1)) as [[? E]|[[? E]|[? E]]]; try lia; rewrite E; compare_cases.
Qed.
Lemma AddWithCarry_sub a b :
  in_u32 a -> in_u32 b ->
  AddWithCarry a (not32 b) true =
  (u32 (a - b), b <=? a, Z.testbit (Z.land (Z.lxor a b) (Z.lxor a (u32 (a - b)))) 31).
Proof.
  intros Ha Hb. unfold AddWithCarry. rewrite (overflow_sub a b _ true) by (done || (f_equal; cbn; lia)).
  rewrite u32_not_add, not32_sub by done. cbn [Z.b2z]. rewrite Z.sub_add. do 2 f_equal.
  destruct (u32_spec (a - b)) as [[? E]|[[? E]|[? E]]]; try lia; rewrite E; compare_cases.
Qed.
Lemma AddWithCarry_sbc a b :
  in_u32 a -> in_u32 b ->
  AddWithCarry a (not32 b) false =
  (u32 (a - b - 1), b <? a, Z.testbit (Z.land (Z.lxor a b) (Z.lxor a (u32 (a - b - 1)))) 31).
Proof.
  intros Ha Hb. unfold AddWithCarry. rewrite (overflow_sub a b _ false) by (done || (f_equal; cbn; lia)).
  rewrite u32_not_add, not32_sub by done. cbn [Z.b2z]. rewrite !Z.add_0_r. do 2 f_equal.
  destruct (u32_spec (a - b - 1)) as [[? E]|[[? E]|[? E]]]; try lia; rewrite E; compare_cases.
Qed.

Lemma in_u32_overflow a b r : in_u32 a -> in_u32 b -> in_u32 r ->
  in_u32 (Z.land (Z.lxor (Z.lxor a b) 0xffffffff) (Z.lxor a r)) /\ in_u32 (Z.land (Z.lxor a b) (Z.lxor a r)).
Proof. intros Ha Hb Hr. split; apply in_u32_land; auto with bounds. apply in_u32_lxor; [auto with bounds|lia]. Qed.

Ltac adds_with :=
  match goal with |- adds_with_carry ?out _ _ _ _ =>
    eapply (adds_intro _ _ _ _ _ _ (fld (snd out) VF));
      [eassumption|reflexivity|flag_frame|apply in_u32_overflow; auto with bounds|apply in_u32_u32|reflexivity..|]
  end.

Lemma add_cc_spec a b e :
  in_u32 a -> in_u32 b -> flags_wf e -> adds_with_carry (helper_add_cc a b e) a b false e.
Proof. intros Ha Hb Hwf. unfold helper_add_cc. adds_with. exact (AddWithCarry_add a b Ha Hb). Qed.

Lemma sub_cc_spec a b e :
  in_u32 a -> in_u32 b -> flags_wf e -> adds_with_carry (helper_sub_cc a b e) a (not32 b) true e.
Proof. intros Ha Hb Hwf. unfold helper_sub_cc. adds_with. exact (AddWithCarry_sub a b Ha Hb). Qed.

Lemma adc_cc_spec a b e :
  in_u32 a -> in_u32 b -> flags_wf e -> adds_with_carry (helper_adc_cc a b e) a b (carry e) e.
Proof.
  intros Ha Hb Hwf. rewrite carry_field by done. unfold helper_adc_cc. destruct (ctrue (fld e CF)); cbn [negb]; adds_with.
  - exact (AddWithCarry_adc a b Ha Hb).
  - exact (AddWithCarry_add a b Ha Hb).
Qed.

Lemma sbc_cc_spec a b e :
  in_u32 a -> in_u32 b -> flags_wf e -> adds_with_carry (helper_sbc_cc a b e) a (not32 b) (carry e) e.
Proof.
  intros Ha Hb Hwf. rewrite carry_field by done. unfold helper_sbc_cc. destruct (ctrue (fld e CF)); cbn [negb]; adds_with.
  - exact (AddWithCarry_sub a b Ha Hb).
  - exact (AddWithCarry_sbc a b Ha Hb).
Qed.

(** C19: Arithmetic with flags. For all operands and flags, the four helpers
    return the sum of the architecture manual's [AddWithCarry] (subtraction
    adds the complement) and leave the status register's N, Z, C and V bits
    as it says: carry when the unsigned sum does not fit, overflow when the
    signed one does not; nothing else of the processor changes. *)
Theorem arm_add_with_carry (a b : Z) (e : CPUARMState) :
  in_u32 a -> in_u32 b -> flags_wf e ->
  adds_with_carry (helper_add_cc a b e) a b false e /\
  adds_with_carry (helper_adc_cc a b e) a b (carry e) e /\
  adds_with_carry (helper_sub_cc a b e) a (not32 b) true e /\
  adds_with_carry (helper_sbc_cc a b e) a (not32 b) (carry e) e.
Proof. intros Ha Hb Hwf. auto using add_cc_spec, adc_cc_spec, sub_cc_spec, sbc_cc_spec. Qed.

Lemma arm_add_with_carry_witness :
  let e := mkCPU (fun f => if decide (f = CF) then 1 else 0) (fun _ => []) in
  adds_with_carry (helper_adc_cc 0x7fffffff 0 e) 0x7fffffff 0 true e /\
  nzcv (snd (helper_adc_cc 0x7fffffff 0 e)) = (true, false, false, true).
Proof.
  cbn zeta. split; [|vm_compute; reflexivity].
  refine (proj1 (proj2 (arm_add_with_carry 0x7fffffff 0 _ _ _ _))); [lia|lia|].
  vm_compute. repeat split; congruence.
Defined.

(** ** Shifts *)

Definition only_carry (e e' : CPUARMState) : Prop :=
  (forall f, f <> CF -> fld e' f = fld e f) /\ (forall a, arrs e' a = arrs e a).

(** What a shift that sets the carry returns, against the reference. *)
Definition shifts_as (out : Z * CPUARMState) (ref : Z * bool) (e : CPUARMState) : Prop :=
  fst out = fst ref /\ carry (snd out) = snd ref /\ flags_wf (snd out) /\ only_carry e (snd out).

Lemma flags_wf_carry e c : flags_wf e -> flags_wf (setf CF (cbool c) e).
Proof.
  intros (H1 & H2 & H3 & H4 & H5 & H6 & H7 & H8 & H9). unfold flags_wf.
  split; [exact H1|]. split; [exact H2|]. split; [cpu_simpl; destruct c; cbn [cbool]; lia|]. split; [exact H4|]. split; [exact H5|].
  split; [exact H6|]. split; [exact H7|]. split; [exact H8|exact H9].
Qed.

Lemma shifts_intro x c r cref e :
  flags_wf e -> x = r -> c = cref -> shifts_as (x, setf CF (cbool c) e) (r, cref) e.
Proof.
  intros Hwf -> ->. split; [done|]. pose proof (flags_wf_carry e cref Hwf).
  split; [cbn [snd]; rewrite carry_field by done; cpu_simpl; apply ctrue_cbool|]. split; [done|].
  split; [|done]. intros f Hf. cbn. by rewrite decide_False.
Qed.
Lemma shifts_none x e : flags_wf e -> shifts_as (x, e) (x, carry e) e.
Proof. intros Hwf. split; [done|]. split; [done|]. by split. Qed.

Lemma land_1 z : Z.land z 1 = cbool (Z.testbit z 0).
Proof. change 1 with (Z.ones 1) at 1. rewrite Z.land_ones by lia. rewrite <- Z.bit0_mod. by destruct (Z.testbit z 0). Qed.
Lemma land_1_bit x n : 0 <= n -> Z.land (Z.shiftr x n) 1 = cbool (Z.testbit x n).
Proof. intros Hn. rewrite land_1, Z.shiftr_spec by lia. done. Qed.

Lemma land_ff n : Z.land n 0xff = n mod 256.
Proof. change 255 with (Z.ones 8). by rewrite Z.land_ones. Qed.

Lemma testbit_s32 x n : in_u32 x -> 0 <= n -> Z.testbit (s32 x) n = Z.testbit x (Z.min n 31).
Proof.
  intros Hx Hn. destruct (Z.le_gt_cases n 31).
  - rewrite Z.min_l by lia. rewrite <- (uwrap_small 32 x Hx) at 2. rewrite <- uwrap_swrap, testbit_uwrap by lia.
    destruct (Z.ltb_spec n 32); [done|lia].
  - rewrite Z.min_r, sign32 by lia. destruct (s32_spec x Hx) as [[? ->]|[? ->]].
    + rewrite (testbit_bound 32 x) by lia. destruct (Z.leb_spec 2147483648 x); [lia|done].
    + rewrite (proj2 (Z.leb_le _ _)) by lia. rewrite <- (Z.lnot_involutive (x - 4294967296)), Z.lnot_spec by lia.
      unfold Z.lnot. rewrite (testbit_bound 32) by (change (2 ^ 32) with 4294967296; lia). done.
Qed.

Lemma u32_shl_high x n : 32 <= n -> u32 (x * 2 ^ n) = 0.
Proof.
  intros Hn. unfold uwrap. replace n with (n - 32 + 32) by lia. rewrite Z.pow_add_r, Z.mul_assoc by lia. apply Z.mod_mul. lia.
Qed.
Lemma s32_div_high x n : in_u32 x -> 31 <= n -> s32 x / 2 ^ n = s32 x / 2 ^ 31.
Proof.
  intros Hx Hn. assert (2 ^ 31 <= 2 ^ n) by (apply Z.pow_le_mono_r; lia). change (2 ^ 31) with 2147483648 in *.
  destruct (s32_spec x Hx) as [[? ->]|[? ->]].
  - rewrite !Z.div_small; lia.
  - assert (Hd : forall k, 2147483648 <= k -> (x - 4294967296) / k = -1).
    { intros k Hk. symmetry. apply Z.div_unique with (x - 4294967296 + k); lia. }
    rewrite !Hd by lia. done.
Qed.

Lemma ror_bits x m : in_u32 x -> 0 < m < 32 ->
  Z.lor (Z.shiftr x m) (u32 (Z.shiftl x (32 - m))) = u32 (x / 2 ^ m + x * 2 ^ (32 - m)).
Proof.
  intros Hx Hm. rewrite Z.shiftr_div_pow2, Z.shiftl_mul_pow2 by lia.
  assert (Hq : 0 <= x / 2 ^ m < 2 ^ (32 - m)).
  { split; [apply Z.div_pos; lia|]. apply Z.div_lt_upper_bound; [lia|]. rewrite <- Z.pow_add_r by lia.
    replace (m + (32 - m)) with 32 by lia. simpl. lia. }
  assert (Hp : 2 ^ 32 = 2 ^ m * 2 ^ (32 - m)) by (rewrite <- Z.pow_add_r by lia; f_equal; lia).
  assert (Hu : u32 (x * 2 ^ (32 - m)) = (x mod 2 ^ m) * 2 ^ (32 - m)).
  { unfold uwrap. rewrite Hp, Z.mul_mod_distr_r by lia. done. }
  rewrite Hu, Z.lor_comm, (lor_low (32 - m)); [| lia|apply Z.mod_mul; lia|done].
  pose proof (Z.mod_pos_bound x (2 ^ m) ltac:(lia)). rewrite <- uwrap_add_r, Hu by lia.
  rewrite uwrap_small by nia. lia.
Qed.

Lemma shl_cc_spec x i e : in_u32 x -> flags_wf e -> shifts_as (helper_shl_cc x i e) (LSL_C x (i mod 256) (carry e)) e.
Proof.
  intros Hx Hwf. unfold helper_shl_cc, LSL_C. rewrite land_ff. pose proof (Z.mod_pos_bound i 256 ltac:(lia)).
  set (n := i mod 256) in *. destruct (Z.leb_spec 32 n); [|destruct (Z.eqb_spec n 0) as [E|E]; cbn [negb]].
  - rewrite (proj2 (Z.eqb_neq n 0)) by lia. rewrite u32_shl_high, Z.mul_pow2_bits by lia.
    destruct (Z.eqb_spec n 32) as [->|Hne].
    + rewrite land_1. by apply shifts_intro.
    + change 0 with (cbool false) at 2. apply shifts_intro; [done..|]. rewrite Z.testbit_neg_r by lia. done.
  - by apply shifts_none.
  - rewrite Z.shiftl_mul_pow2, land_1_bit, Z.mul_pow2_bits by lia. by apply shifts_intro.
Qed.

Lemma shr_cc_spec x i e : in_u32 x -> flags_wf e -> shifts_as (helper_shr_cc x i e) (LSR_C x (i mod 256) (carry e)) e.
Proof.
  intros Hx Hwf. unfold helper_shr_cc, LSR_C. rewrite land_ff. pose proof (Z.mod_pos_bound i 256 ltac:(lia)).
  set (n := i mod 256) in *. destruct (Z.leb_spec 32 n); [|destruct (Z.eqb_spec n 0) as [E|E]; cbn [negb]].
  - rewrite (proj2 (Z.eqb_neq n 0)) by lia.
    assert (2 ^ 32 <= 2 ^ n) by (apply Z.pow_le_mono_r; lia). rewrite Z.div_small by lia.
    destruct (Z.eqb_spec n 32) as [->|Hne].
    + rewrite land_1_bit by lia. by apply shifts_intro.
    + change 0 with (cbool false) at 2. apply shifts_intro; [done..|]. by rewrite (testbit_bound 32) by lia.
  - by apply shifts_none.
  - rewrite Z.shiftr_div_pow2, land_1_bit by lia. by apply shifts_intro.
Qed.

Lemma sar_cc_spec x i e : in_u32 x -> flags_wf e -> shifts_as (helper_sar_cc x i e) (ASR_C x (i mod 256) (carry e)) e.
Proof.
  intros Hx Hwf. unfold helper_sar_cc, ASR_C. rewrite land_ff. pose proof (Z.mod_pos_bound i 256 ltac:(lia)).
  set (n := i mod 256) in *. destruct (Z.leb_spec 32 n); [|destruct (Z.eqb_spec n 0) as [E|E]; cbn [negb]].
  - rewrite (proj2 (Z.eqb_neq n 0)) by lia. rewrite (s32_div_high x n), testbit_s32, Z.min_r, Z.shiftr_div_pow2, land_1_bit by lia.
    by apply shifts_intro.
  - by apply shifts_none.
  - rewrite testbit_s32, Z.min_l, Z.shiftr_div_pow2, land_1_bit by lia. by apply shifts_intro.
Qed.

Lemma ror_cc_spec x i e : in_u32 x -> flags_wf e -> shifts_as (helper_ror_cc x i e) (ROR_C x (i mod 256) (carry e)) e.
Proof.
  intros Hx Hwf. unfold helper_ror_cc, ROR_C. rewrite land_ff. pose proof (Z.mod_pos_bound i 256 ltac:(lia)).
  set (n := i mod 256) in *. assert (Z.land n 0x1f = n mod 32) as -> by exact (Z.land_ones n 5 ltac:(lia)).
  pose proof (Z.mod_pos_bound n 32 ltac:(lia)). unfold ROR. set (m := n mod 32) in *. cbn zeta.
  destruct (Z.eqb_spec m 0) as [E|E].
  - destruct (Z.eqb_spec n 0) as [E'|E']; cbn [negb]; [by apply shifts_none|].
    assert (u32 (x / 2 ^ m + x * 2 ^ (32 - m)) = x) as ->.
    { rewrite E. unfold uwrap. rewrite Z.div_1_r, Z.mod_add by lia. apply Z.mod_small. done. }
    rewrite land_1_bit by lia. by apply shifts_intro.
  - assert (n <> 0) by (intros E'; apply E; unfold m; by rewrite E'). rewrite (proj2 (Z.eqb_neq n 0)) by done.
    rewrite land_1_bit, ror_bits by lia. apply shifts_intro; [done..|]. rewrite <- ror_bits by lia.
    rewrite Z.lor_spec, Z.shiftr_spec, testbit_uwrap, testbit_shiftl by lia.
    rewrite (testbit_bound 32 x (31 + m)) by lia. change (31 <? 32) with true. cbn [orb andb]. f_equal. lia.
Qed.

(** The shifts that leave the flags alone have the same results. *)
Lemma helper_shl_spec x i : in_u32 x -> helper_shl x i = fst (LSL_C x (i mod 256) false).
Proof.
  intros Hx. unfold helper_shl, LSL_C. rewrite land_ff. pose proof (Z.mod_pos_bound i 256 ltac:(lia)).
  set (n := i mod 256) in *. destruct (Z.leb_spec 32 n).
  - rewrite (proj2 (Z.eqb_neq n 0)), u32_shl_high by lia. done.
  - rewrite Z.shiftl_mul_pow2 by lia. destruct (Z.eqb_spec n 0) as [->|]; [|done].
    rewrite Z.mul_1_r, uwrap_small by done. done.
Qed.
Lemma helper_shr_spec x i : in_u32 x -> helper_shr x i = fst (LSR_C x (i mod 256) false).
Proof.
  intros Hx. unfold helper_shr, LSR_C. rewrite land_ff. pose proof (Z.mod_pos_bound i 256 ltac:(lia)).
  set (n := i mod 256) in *. destruct (Z.leb_spec 32 n).
  - rewrite (proj2 (Z.eqb_neq n 0)) by lia. assert (2 ^ 32 <= 2 ^ n) by (apply Z.pow_le_mono_r; lia).
    cbn [fst]. rewrite Z.div_small by lia. done.
  - rewrite Z.shiftr_div_pow2 by lia. destruct (Z.eqb_spec n 0) as [->|]; [|done]. by rewrite Z.div_1_r.
Qed.
Lemma helper_sar_spec x i : in_u32 x -> helper_sar x i = fst (ASR_C x (i mod 256) false).
Proof.
  intros Hx. unfold helper_sar, ASR_C. rewrite land_ff. pose proof (Z.mod_pos_bound i 256 ltac:(lia)).
  set (n := i mod 256) in *. destruct (Z.leb_spec 32 n).
  - rewrite (proj2 (Z.eqb_neq n 0)), Z.shiftr_div_pow2 by lia. cbn [fst]. by rewrite (s32_div_high x n) by lia.
  - rewrite Z.shiftr_div_pow2 by lia. destruct (Z.eqb_spec n 0) as [->|]; [|done]. cbn [fst].
    rewrite Z.div_1_r, uwrap_swrap by lia. by apply uwrap_small.
Qed.
Lemma helper_ror_spec x i : in_u32 x ->
  helper_ror x i = if i mod 256 <? 32 then Ok (fst (ROR_C x (i mod 256) false)) else Undef.
Proof.
  intros Hx. unfold helper_ror, ROR_C. rewrite land_ff. pose proof (Z.mod_pos_bound i 256 ltac:(lia)).
  set (n := i mod 256) in *. destruct (Z.eqb_spec n 0) as [->|Hn]; [done|].
  destruct (Z.leb_spec 32 n), (Z.ltb_spec n 32); try lia; [done|]. rewrite ror_bits by lia. unfold ROR.
  rewrite (Z.mod_small n 32) by lia. done.
Qed.

(** C22: Shifts by a register. For every word and every value of the shift
    register, of which the low byte counts, the eight helpers compute the
    architecture's logical, arithmetic and rotating shifts with their carry
    out, including amounts of 32 and more, and change no other flag; except
    that the rotation without flags is undefined in C from 32 on. *)
Theorem arm_shifts (x i : Z) (e : CPUARMState) :
  in_u32 x -> flags_wf e ->
  let n := i mod 256 in
  shifts_as (helper_shl_cc x i e) (LSL_C x n (carry e)) e /\
  shifts_as (helper_shr_cc x i e) (LSR_C x n (carry e)) e /\
  shifts_as (helper_sar_cc x i e) (ASR_C x n (carry e)) e /\
  shifts_as (helper_ror_cc x i e) (ROR_C x n (carry e)) e /\
  helper_shl x i = fst (LSL_C x n false) /\ helper_shr x i = fst (LSR_C x n false) /\
  helper_sar x i = fst (ASR_C x n false) /\
  helper_ror x i = (if n <? 32 then Ok (fst (ROR_C x n false)) else Undef).
Proof.
  intros Hx Hwf n. auto 10 using shl_cc_spec, shr_cc_spec, sar_cc_spec, ror_cc_spec, helper_shl_spec,
    helper_shr_spec, helper_sar_spec, helper_ror_spec.
Qed.

Lemma arm_shifts_witness :
  let e := mkCPU (fun _ => 0) (fun _ => []) in
  shifts_as (helper_ror_cc 0x80000001 33 e) (0xc0000000, true) e /\ helper_ror 0x80000001 33 = Undef.
Proof.
  cbn zeta. pose proof (arm_shifts 0x80000001 33 (mkCPU (fun _ => 0) (fun _ => []))) as H.
  destruct H as (_ & _ & _ & H1 & _ & _ & _ & H2); [lia|vm_compute; repeat split; congruence|].
  split; [exact H1|exact H2].
Defined.

(** ** Saturation *)

Definition clamp (lo hi i : Z) : Z := Z.max lo (Z.min hi i).

(** A saturating helper returns the nearest number of the range and sets the
    sticky flag [Q] when that is not the number itself. *)
Definition saturates (w : Z) (out : Z * CPUARMState) (lo hi i : Z) (e : CPUARMState) : Prop :=
  out = (uwrap w (clamp lo hi i), if (lo <=? i) && (i <=? hi) then e else setf QF 1 e).

Lemma saturates_intro w lo hi i x (q : bool) e :
  x = uwrap w (clamp lo hi i) -> q = (lo <=? i) && (i <=? hi) -> saturates w (x, if q then e else setf QF 1 e) lo hi i e.
Proof. by intros -> ->. Qed.

Lemma clamp_in lo hi i : lo <= i <= hi -> clamp lo hi i = i.
Proof. unfold clamp. lia. Qed.
Lemma clamp_below lo hi i : i < lo <= hi -> clamp lo hi i = lo.
Proof. unfold clamp. lia. Qed.
Lemma clamp_above lo hi i : lo <= hi < i -> clamp lo hi i = hi.
Proof. unfold clamp. lia. Qed.

(** The tests of the sign bits, and the saturated value. *)
Lemma sign_test32 a b : in_u32 a -> in_u32 b ->
  ctrue (Z.land (Z.lxor a b) SIGNBIT) = xorb (2147483648 <=? a) (2147483648 <=? b).
Proof. intros Ha Hb. rewrite (land_bit32_ctrue _ 31) by lia. rewrite Z.lxor_spec, !sign32 by done. done. Qed.

Lemma sat_value32 a : in_u32 a ->
  not32 (Z.lxor (u32 (Z.shiftr (s32 a) 31)) SIGNBIT) = if 2147483648 <=? a then 0x80000000 else 0x7fffffff.
Proof.
  intros Ha. rewrite Z.shiftr_div_pow2 by lia. change (2 ^ 31) with 2147483648.
  destruct (s32_spec a Ha) as [[? ->]|[? ->]].
  - rewrite Z.div_small, (proj2 (Z.leb_gt _ _)) by lia. reflexivity.
  - assert ((a - 4294967296) / 2147483648 = -1) as ->.
    { symmetry. apply Z.div_unique with (a - 4294967296 + 2147483648); lia. }
    rewrite (proj2 (Z.leb_le _ _)) by lia. reflexivity.
Qed.

Lemma sum_s32 a b : u32 (a + b) = u32 (s32 a + s32 b).
Proof. unfold uwrap. rewrite Z.add_mod, (Z.add_mod (s32 a)) by lia. do 2 f_equal; symmetry; by apply (uwrap_swrap 32). Qed.
Lemma diff_s32 a b : u32 (a - b) = u32 (s32 a - s32 b).
Proof. unfold uwrap. rewrite Zminus_mod, (Zminus_mod (s32 a)). do 2 f_equal; symmetry; by apply (uwrap_swrap 32). Qed.

(** The tests of the helpers say whether the exact result fits. *)
Lemma sat_test_add a b : in_u32 a -> in_u32 b ->
  ctrue (Z.land (Z.lxor (u32 (a + b)) a) SIGNBIT) && negb (ctrue (Z.land (Z.lxor a b) SIGNBIT))
  = negb ((-2147483648 <=? s32 a + s32 b) && (s32 a + s32 b <=? 2147483647)).
Proof.
  intros Ha Hb. rewrite !sign_test32 by auto with bounds.
  destruct (s32_spec a Ha) as [[? ->]|[? ->]], (s32_spec b Hb) as [[? ->]|[? ->]];
    destruct (u32_spec (a + b)) as [[? E]|[[? E]|[? E]]]; try lia; rewrite E; clear E; compare_cases.
Qed.
Lemma sat_test_sub a b : in_u32 a -> in_u32 b ->
  ctrue (Z.land (Z.lxor (u32 (a - b)) a) SIGNBIT) && ctrue (Z.land (Z.lxor a b) SIGNBIT)
  = negb ((-2147483648 <=? s32 a - s32 b) && (s32 a - s32 b <=? 2147483647)).
Proof.
  intros Ha Hb. rewrite !sign_test32 by auto with bounds.
  destruct (s32_spec a Ha) as [[? ->]|[? ->]], (s32_spec b Hb) as [[? ->]|[? ->]];
    destruct (u32_spec (a - b)) as [[? E]|[[? E]|[? E]]]; try lia; rewrite E; clear E; compare_cases.
Qed.

(** A result out of range has the sign of the first operand. *)
Lemma saturates_signed res a i (q : bool) e :
  in_u32 a -> res = u32 i -> q = negb ((-2147483648 <=? i) && (i <=? 2147483647)) ->
  (2147483648 <= a -> i <= 2147483647) -> (a < 2147483648 -> -2147483648 <= i) ->
  saturates 32 (if q then (not32 (Z.lxor (u32 (Z.shiftr (s32 a) 31)) SIGNBIT), setf QF 1 e) else (res, e))
    (-2147483648) 2147483647 i e.
Proof.
  intros Ha -> -> Hn Hp. unfold saturates. rewrite sat_value32 by done.
  destruct (Z.leb_spec (-2147483648) i), (Z.leb_spec i 2147483647); cbn [andb negb]; [by rewrite clamp_in|..|lia].
  - destruct (Z.leb_spec 2147483648 a); [lia|]. by rewrite clamp_above by lia.
  - destruct (Z.leb_spec 2147483648 a); [|lia]. by rewrite clamp_below by lia.
Qed.

Lemma add_saturate_spec a b e :
  in_u32 a -> in_u32 b ->
  saturates 32 (helper_add_saturate a b e) (-2147483648) 2147483647 (s32 a + s32 b) e.
Proof.
  intros Ha Hb. apply saturates_signed; [done|apply sum_s32|by apply sat_test_add|..];
    destruct (s32_spec a Ha) as [[? ->]|[? ->]], (s32_spec b Hb) as [[? ->]|[? ->]]; lia.
Qed.
Lemma sub_saturate_spec a b e :
  in_u32 a -> in_u32 b ->
  saturates 32 (helper_sub_saturate a b e) (-2147483648) 2147483647 (s32 a - s32 b) e.
Proof.
  intros Ha Hb. apply saturates_signed; [done|apply diff_s32|by apply sat_test_sub|..];
    destruct (s32_spec a Ha) as [[? ->]|[? ->]], (s32_spec b Hb) as [[? ->]|[? ->]]; lia.
Qed.
Lemma add_usaturate_spec a b e :
  in_u32 a -> in_u32 b -> saturates 32 (helper_add_usaturate a b e) 0 4294967295 (a + b) e.
Proof.
  intros Ha Hb. unfold helper_add_usaturate, saturates. cbn zeta. rewrite (proj2 (Z.leb_le 0 (a + b))) by lia. cbn [andb].
  destruct (Z.leb_spec (a + b) 4294967295).
  - rewrite clamp_in, uwrap_small, (proj2 (Z.ltb_ge _ _)) by (simpl; lia). done.
  - rewrite clamp_above by lia. destruct (u32_spec (a + b)) as [[? E]|[[? E]|[? E]]]; try lia. rewrite E.
    rewrite (proj2 (Z.ltb_lt _ _)) by lia. done.
Qed.
Lemma sub_usaturate_spec a b e :
  in_u32 a -> in_u32 b -> saturates 32 (helper_sub_usaturate a b e) 0 4294967295 (a - b) e.
Proof.
  intros Ha Hb. unfold helper_sub_usaturate, saturates. cbn zeta. rewrite (proj2 (Z.leb_le (a - b) _)) by lia.
  destruct (Z.leb_spec 0 (a - b)); cbn [andb].
  - rewrite clamp_in, uwrap_small, (proj2 (Z.ltb_ge _ _)) by (simpl; lia). done.
  - rewrite clamp_below by lia. destruct (u32_spec (a - b)) as [[? E]|[[? E]|[? E]]]; try lia. rewrite E.
    rewrite (proj2 (Z.ltb_lt _ _)) by lia. done.
Qed.

Lemma shiftl_1 n : 0 <= n -> Z.shiftl 1 n = 2 ^ n.
Proof. intros Hn. rewrite Z.shiftl_mul_pow2 by done. lia. Qed.
Lemma pow2_31 n : 0 <= n < 32 -> 1 <= 2 ^ n <= 2147483648.
Proof. intros Hn. split; [apply (Z.pow_le_mono_r 2 0 n)|apply (Z.pow_le_mono_r 2 n 31)]; lia. Qed.

Lemma do_ssat_spec val n e :
  in_s32 val -> 0 <= n < 32 -> saturates 32 (do_ssat val n e) (- 2 ^ n) (2 ^ n - 1) val e.
Proof.
  intros Hv Hn. pose proof (pow2_31 n Hn). unfold do_ssat, saturates. cbn zeta.
  rewrite Z.shiftr_div_pow2, shiftl_1, (uwrap_small 32 (2 ^ n - 1)) by (simpl; lia).
  pose proof (Z.div_mod val (2 ^ n) ltac:(lia)) as Hd. pose proof (Z.mod_pos_bound val (2 ^ n) ltac:(lia)).
  set (q := val / 2 ^ n) in *.
  destruct (Z.leb_spec (- 2 ^ n) val), (Z.leb_spec val (2 ^ n - 1)); cbn [andb]; [|..|lia].
  - rewrite clamp_in by lia. destruct (Z.ltb_spec 0 q); [nia|]. destruct (Z.ltb_spec q (-1)); [nia|done].
  - rewrite clamp_above by lia. destruct (Z.ltb_spec 0 q); [|nia]. by rewrite uwrap_small by (simpl; lia).
  - rewrite clamp_below by lia. destruct (Z.ltb_spec 0 q); [nia|]. destruct (Z.ltb_spec q (-1)); [|nia].
    rewrite not32_sub by lia. f_equal. unfold uwrap. apply Z.mod_unique with (-1); simpl; lia.
Qed.
Lemma do_usat_spec val n e :
  in_s32 val -> 0 <= n < 32 -> saturates 32 (do_usat val n e) 0 (2 ^ n - 1) val e.
Proof.
  intros Hv Hn. pose proof (pow2_31 n Hn). unfold do_usat, saturates. cbn zeta.
  rewrite shiftl_1, (uwrap_small 32 (2 ^ n - 1)) by (simpl; lia).
  destruct (Z.ltb_spec val 0).
  - rewrite clamp_below, (proj2 (Z.leb_gt 0 val)) by lia. done.
  - rewrite (proj2 (Z.leb_le 0 val)), (uwrap_small 32 val) by (simpl; lia). cbn [andb].
    destruct (Z.ltb_spec (2 ^ n - 1) val).
    + rewrite clamp_above, (proj2 (Z.leb_gt val _)), uwrap_small by (simpl; lia). done.
    + rewrite clamp_in, (proj2 (Z.leb_le val _)), uwrap_small by (simpl; lia). done.
Qed.

Lemma in_s32_s32 x : in_s32 (s32 x).
Proof. exact (swrap_range 32 x ltac:(lia)). Qed.

Lemma double_saturate_spec x e :
  in_u32 x -> s32 x <> -0x40000000 ->
  saturates 32 (helper_double_saturate x e) (-2147483648) 2147483647 (2 * s32 x) e.
Proof.
  intros Hx Hne. unfold helper_double_saturate, saturates. cbn zeta. pose proof (in_s32_s32 x).
  change (s32 0xc0000000) with (-0x40000000).
  destruct (Z.leb_spec 0x40000000 (s32 x)).
  - rewrite clamp_above, (proj2 (Z.leb_gt (2 * s32 x) _)), andb_false_r by lia. done.
  - destruct (Z.leb_spec (s32 x) (-0x40000000)).
    + rewrite clamp_below, (proj2 (Z.leb_gt _ (2 * s32 x))) by lia. done.
    + rewrite clamp_in, !(proj2 (Z.leb_le _ _)) by lia. rewrite Z.shiftl_mul_pow2 by lia.
      change (2 ^ 1) with 2. by rewrite Z.mul_comm.
Qed.

(** C35: Saturating arithmetic. For all words, the saturating additions and
    subtractions, signed and unsigned, and the saturation to [n] bits return
    the number of the range that is nearest to the exact result, and set the
    sticky flag exactly when the two differ; the doubling does too, but for
    the operand -2^30, where the flag is set although -2^31 is exact. *)
Theorem arm_saturation (a b n : Z) (e : CPUARMState) :
  in_u32 a -> in_u32 b -> 0 <= n < 32 ->
  saturates 32 (helper_add_saturate a b e) (-2147483648) 2147483647 (s32 a + s32 b) e /\
  saturates 32 (helper_sub_saturate a b e) (-2147483648) 2147483647 (s32 a - s32 b) e /\
  saturates 32 (helper_add_usaturate a b e) 0 4294967295 (a + b) e /\
  saturates 32 (helper_sub_usaturate a b e) 0 4294967295 (a - b) e /\
  saturates 32 (helper_ssat a n e) (- 2 ^ n) (2 ^ n - 1) (s32 a) e /\
  saturates 32 (helper_usat a n e) 0 (2 ^ n - 1) (s32 a) e /\
  (s32 a <> -0x40000000 -> saturates 32 (helper_double_saturate a e) (-2147483648) 2147483647 (2 * s32 a) e) /\
  (s32 a = -0x40000000 -> helper_double_saturate a e = (0x80000000, setf QF 1 e)).
Proof.
  intros Ha Hb Hn. split; [by apply add_saturate_spec|]. split; [by apply sub_saturate_spec|].
  split; [by apply add_usaturate_spec|]. split; [by apply sub_usaturate_spec|].
  split; [apply do_ssat_spec, Hn; apply in_s32_s32|]. split; [apply do_usat_spec, Hn; apply in_s32_s32|].
  split; [by apply double_saturate_spec|]. intros E. unfold helper_double_saturate. by rewrite E.
Qed.

Lemma arm_saturation_witness :
  let e := mkCPU (fun _ => 0) (fun _ => []) in
  saturates 32 (helper_add_saturate 0x7fffffff 1 e) (-2147483648) 2147483647 2147483648 e /\
  helper_double_saturate 0xc0000000 e = (0x80000000, setf QF 1 e).
Proof.
  cbn zeta. split.
  - exact (proj1 (arm_saturation 0x7fffffff 1 0 _ ltac:(lia) ltac:(lia) ltac:(lia))).
  - refine (proj2 (proj2 (proj2 (proj2 (proj2 (proj2 (proj2 (arm_saturation 0xc0000000 0 0 _ _ _ _))))))) _); lia || reflexivity.
Defined.

(** ** Counting and reversing bits *)

Lemma clz_loop_spec fuel count x :
  0 <= x < 2 ^ Z.of_nat fuel ->
  clz_loop fuel count x = Ok (count - (if x =? 0 then 0 else Z.log2 x + 1)).
Proof.
  revert count x. induction fuel as [|fuel IH]; intros count x Hx; cbn [clz_loop]; unfold ctrue.
  - assert (x = 0) as -> by (simpl in Hx; lia). cbn. f_equal. lia.
  - destruct (Z.eqb_spec x 0) as [->|Hne]; cbn [negb]; [f_equal; lia|].
    rewrite IH.
    + f_equal. rewrite Z.shiftr_div_pow2 by lia. change (2 ^ 1) with 2. rewrite <- Z.div2_div. 
      destruct (Z.eqb_spec (Z.div2 x) 0) as [E|E].
      * assert (x = 1) as -> by (rewrite Z.div2_div in E; apply Z.div_small_iff in E; lia). simpl. lia.
      * assert (2 <= x) by (rewrite Z.div2_div in E; destruct (Z.le_gt_cases 2 x); [done|]; rewrite Z.div_small in E; lia).
        assert (Z.log2 x = Z.log2 (Z.div2 x) + 1) as ->; [|lia].
        rewrite Z.div2_spec, Z.log2_shiftr by lia. pose proof (Z.log2_le_mono 2 x ltac:(done)). simpl in *. lia.
    + rewrite Z.shiftr_div_pow2 by lia. change (2 ^ 1) with 2. split; [apply Z.div_pos; lia|].
      apply Z.div_lt_upper_bound; [lia|]. rewrite Nat2Z.inj_succ, Z.pow_succ_r in Hx by lia. lia.
Qed.

(** Counting leading zeros ends, with the number of zeros above the highest
    set bit. *)
Lemma clz_spec x : in_u32 x -> helper_clz x = Ok (if x =? 0 then 32 else 31 - Z.log2 x).
Proof. intros Hx. unfold helper_clz. rewrite clz_loop_spec by exact Hx. f_equal. destruct (x =? 0); lia. Qed.

Ltac permutes_bits :=
  apply (bits32 (fun i => Z.testbit _ i = _)); rewrite !Z.lor_spec, ?testbit_uwrap, ?Z.shiftr_spec, ?testbit_shiftl, !Z.land_spec by lia;
  ground_bits; rewrite ?andb_true_r, ?andb_false_r, ?orb_false_r; reflexivity.

Lemma rbit_bytes x i : 0 <= i < 32 ->
  Z.testbit (Z.lor (Z.lor (Z.lor (Z.shiftr (Z.land x 0xff000000) 24) (Z.shiftr (Z.land x 0x00ff0000) 8))
                          (u32 (Z.shiftl (Z.land x 0x0000ff00) 8))) (u32 (Z.shiftl (Z.land x 0x000000ff) 24))) i
  = Z.testbit x (8 * (3 - i / 8) + i mod 8).
Proof. revert i. permutes_bits. Qed.
Lemma rbit_nibbles x i : 0 <= i < 32 ->
  Z.testbit (Z.lor (Z.shiftr (Z.land x 0xf0f0f0f0) 4) (u32 (Z.shiftl (Z.land x 0x0f0f0f0f) 4))) i
  = Z.testbit x (8 * (i / 8) + (i mod 8 + 4) mod 8).
Proof. revert i. permutes_bits. Qed.
Lemma rbit_bits x i : 0 <= i < 32 ->
  Z.testbit (Z.lor (Z.lor (Z.lor (Z.shiftr (Z.land x 0x88888888) 3) (Z.shiftr (Z.land x 0x44444444) 1))
                          (u32 (Z.shiftl (Z.land x 0x22222222) 1))) (u32 (Z.shiftl (Z.land x 0x11111111) 3))) i
  = Z.testbit x (4 * (i / 4) + (3 - i mod 4)).
Proof. revert i. permutes_bits. Qed.

Lemma rbit_spec x i : 0 <= i < 32 -> Z.testbit (helper_rbit x) i = Z.testbit x (31 - i).
Proof.
  intros Hi. unfold helper_rbit. cbn zeta.
  rewrite rbit_bits, rbit_nibbles, rbit_bytes by (Z.to_euclidean_division_equations; lia).
  f_equal. revert i Hi. apply (bits32 (fun i => _ = 31 - i)); reflexivity.
Qed.

(** ** Where the parallel operations depart from the architecture *)

(** Unsigned saturating subtraction compares the wrong way round: a lane is
    right only when the operands are equal. *)
Lemma sub16_usat_wrong a b :
  sub16_usat a b = clamp 0 65535 (u16 a - u16 b) <-> u16 a = u16 b.
Proof.
  pose proof (uwrap_range 16 a ltac:(lia)). pose proof (uwrap_range 16 b ltac:(lia)). change (2 ^ 16) with 65536 in *.
  unfold sub16_usat. cbn zeta. set (x := u16 a) in *. set (y := u16 b) in *. destruct (Z.ltb_spec x y).
  - rewrite clamp_below by lia. assert (u16 (x - y) = x - y + 65536) as ->; [|lia].
    unfold uwrap. symmetry. apply Z.mod_unique with (-1); simpl; lia.
  - rewrite clamp_in by lia. lia.
Qed.

(** The signed operations derive [GE] from the wrapped sum: a positive sum
    that does not fit clears the flag. *)
Lemma sadd16_ge_wrong :
  snd (SARITH16 Z.add 0x7fff 1 0) = 0 /\ (0 <= swrap 16 0x7fff + swrap 16 1).
Proof. split; [reflexivity|vm_compute; congruence]. Qed.

(** The operations with exchange do not exchange the halves of the second
    operand. *)
Lemma addsubx_no_exchange L a b e :
  helper_addsubx L a b e = set_ge L (both (SUB16 L a b 0) (ADD16 L (Z.shiftr a 16) (Z.shiftr b 16) 1)) e.
Proof. done. Qed.

(** ** User registers *)

(** From a privileged mode with banks of its own the helper finds the
    registers of user mode. *)
Lemma get_user_reg_spec e r :
  cur_mode e ∈ modes -> bank (cur_mode e) <> 0%nat -> (r < 15)%nat ->
  helper_get_user_reg r e = arch_reg e ARM_CPU_MODE_USR r.
Proof.
  intros Hm Hb Hr. unfold helper_get_user_reg, arch_reg.
  change (bank ARM_CPU_MODE_USR) with 0%nat. change (ARM_CPU_MODE_USR =? ARM_CPU_MODE_FIQ) with false.
  rewrite (proj2 (Nat.eqb_neq 0 (bank (cur_mode e)))) by congruence.
  destruct (Nat.eqb_spec r 13) as [->|]; [done|]. destruct (Nat.eqb_spec r 14) as [->|]; [done|].
  destruct (Nat.leb_spec 8 r); cbn [andb]; [|done]. destruct (Nat.leb_spec r 12); [done|lia].
Qed.
