(* ===== verification/Tcg.v ===== *)
(** * Intermediate code and its generator

    The operations of [tcg/tcg-op.h] that the ARM front end emits, a machine
    that runs them as [tcg/README] describes, and the temporaries of
    [target-arm/translate.c] ([new_tmp], [dead_tmp]). A constant that the
    generator keeps in a temporary of its own ([tcg_const_i32] to
    [tcg_temp_free_i32]) is an immediate operand here. *)
From S2P Require Import Prelude ArmCpu ArmArith.
From stdpp Require Import list sets.
#[local] Open Scope Z_scope.

(** ** Intermediate code *)

(** A temporary, by its number; 0 is none. *)
Abbreviation TCGv := nat.

Inductive tcg_arg := T (t : TCGv) | I (v : Z).

(** A member of [CPUState], for loads and stores relative to [cpu_env]. *)
Inductive cpu_loc := Lfield (f : cpu_field) | Lreg (r : nat).

Inductive tcg_binop := op_add | op_sub | op_and | op_or | op_xor | op_shl | op_shr | op_sar | op_mul.

Inductive tcg_cond := TCG_COND_EQ | TCG_COND_NE | TCG_COND_LT | TCG_COND_GE.

Inductive tcg_helper :=
| HELPER_add_cc | HELPER_adc_cc | HELPER_sub_cc | HELPER_sbc_cc
| HELPER_shl | HELPER_shr | HELPER_sar | HELPER_ror
| HELPER_shl_cc | HELPER_shr_cc | HELPER_sar_cc | HELPER_ror_cc
| HELPER_cpsr_write | HELPER_exception.

Inductive tcg_op :=
| op_movi (ret : TCGv) (v : Z)
| op_mov (ret arg : TCGv)
| op_bin (o : tcg_binop) (ret arg1 : TCGv) (arg2 : tcg_arg)
| op_ld (ret : TCGv) (l : cpu_loc)
| op_st (arg : TCGv) (l : cpu_loc)
| op_brcond (c : tcg_cond) (arg1 : TCGv) (arg2 : tcg_arg) (label : nat)
| op_set_label (label : nat)
| op_call (h : tcg_helper) (ret : option TCGv) (args : list tcg_arg)
| op_goto_tb (n : Z)
| op_exit_tb (n : option Z).

(** ** Running it *)

Record machine := mkM { tmp : TCGv -> option Z; env : CPUARMState }.

Definition set_tmp (t : TCGv) (v : Z) (m : machine) : machine :=
  mkM (fun u => if decide (u = t) then Some v else tmp m u) (env m).
Definition set_env (e : CPUARMState) (m : machine) : machine := mkM (tmp m) e.

(** The temporaries do not outlive a basic block. *)
Definition end_block (m : machine) : machine := mkM (fun _ => None) (env m).

Definition read_tmp (m : machine) (t : TCGv) : res Z :=
  match tmp m t with Some v => Ok v | None => Undef end.
Definition read_arg (m : machine) (a : tcg_arg) : res Z :=
  match a with T t => read_tmp m t | I v => Ok (u32 v) end.
Fixpoint read_args (m : machine) (l : list tcg_arg) : res (list Z) :=
  match l with
  | [] => Ok []
  | a :: l => let! v := read_arg m a in let! vs := read_args m l in Ok (v :: vs)
  end.

Definition read_loc (e : CPUARMState) (l : cpu_loc) : Z :=
  match l with Lfield f => fld e f | Lreg r => elt e regs r end.
Definition write_loc (l : cpu_loc) (v : Z) (e : CPUARMState) : CPUARMState :=
  match l with Lfield f => setf f v e | Lreg r => sete regs r v e end.

(** A shift by 32 or more is undefined. *)
Definition eval_bin (o : tcg_binop) (x y : Z) : res Z :=
  match o with
  | op_add => Ok (u32 (x + y))
  | op_sub => Ok (u32 (x - y))
  | op_mul => Ok (u32 (x * y))
  | op_and => Ok (Z.land x y)
  | op_or => Ok (Z.lor x y)
  | op_xor => Ok (Z.lxor x y)
  | op_shl => if y <? 32 then Ok (u32 (Z.shiftl x y)) else Undef
  | op_shr => if y <? 32 then Ok (Z.shiftr x y) else Undef
  | op_sar => if y <? 32 then Ok (u32 (Z.shiftr (s32 x) y)) else Undef
  end.

Definition eval_cond (c : tcg_cond) (x y : Z) : bool :=
  match c with
  | TCG_COND_EQ => x =? y
  | TCG_COND_NE => negb (x =? y)
  | TCG_COND_LT => s32 x <? s32 y
  | TCG_COND_GE => s32 y <=? s32 x
  end.

(** A helper returns a value and the state, or leaves the block with an
    exception ([cpu_loop_exit]). *)
Inductive helper_result := Returns (v : Z) (e : CPUARMState) | Raises (excp : Z) (e : CPUARMState).

Definition call_helper (h : tcg_helper) (args : list Z) (e : CPUARMState) : res helper_result :=
  let with_state (r : Z * CPUARMState) := Ok (Returns (fst r) (snd r)) in
  match h, args with
  | HELPER_add_cc, [a; b] => with_state (helper_add_cc a b e)
  | HELPER_adc_cc, [a; b] => with_state (helper_adc_cc a b e)
  | HELPER_sub_cc, [a; b] => with_state (helper_sub_cc a b e)
  | HELPER_sbc_cc, [a; b] => with_state (helper_sbc_cc a b e)
  | HELPER_shl, [a; b] => Ok (Returns (helper_shl a b) e)
  | HELPER_shr, [a; b] => Ok (Returns (helper_shr a b) e)
  | HELPER_sar, [a; b] => Ok (Returns (helper_sar a b) e)
  | HELPER_ror, [a; b] => let! v := helper_ror a b in Ok (Returns v e)
  | HELPER_shl_cc, [a; b] => with_state (helper_shl_cc a b e)
  | HELPER_shr_cc, [a; b] => with_state (helper_shr_cc a b e)
  | HELPER_sar_cc, [a; b] => with_state (helper_sar_cc a b e)
  | HELPER_ror_cc, [a; b] => with_state (helper_ror_cc a b e)
  | HELPER_cpsr_write, [v; mask] => let! e := cpsr_write v mask e in Ok (Returns 0 e)
  | HELPER_exception, [x] => Ok (Raises x (setf exception_index x e))
  | _, _ => Undef
  end.

Definition opt_set (ret : option TCGv) (v : Z) (m : machine) : machine :=
  match ret with Some t => set_tmp t v m | None => m end.

(** One operation that neither branches nor ends the block. *)
Definition step (o : tcg_op) (m : machine) : res (machine + Z * CPUARMState) :=
  match o with
  | op_movi d v => Ok (inl (set_tmp d (u32 v) m))
  | op_mov d s => let! x := read_tmp m s in Ok (inl (set_tmp d x m))
  | op_bin o d a b =>
      let! x := read_tmp m a in let! y := read_arg m b in let! v := eval_bin o x y in Ok (inl (set_tmp d v m))
  | op_ld d l => Ok (inl (set_tmp d (read_loc (env m) l) m))
  | op_st s l => let! x := read_tmp m s in Ok (inl (set_env (write_loc l x (env m)) m))
  | op_call h ret args =>
      let! vs := read_args m args in
      let! r := call_helper h vs (env m) in
      match r with
      | Returns v e => Ok (inl (opt_set ret v (set_env e m)))
      | Raises x e => Ok (inr (x, e))
      end
  | _ => Undef
  end.

(** How a block ends: it runs out of code, leaves for the main loop (with the
    number of the jump it would have taken, when that jump can be patched),
    takes a patched jump to another block, or raises an exception. *)
Inductive outcome :=
| Next (m : machine)
| Leave (n : option Z) (e : CPUARMState)
| Goto (n : Z) (e : CPUARMState)
| Raise (excp : Z) (e : CPUARMState).

Section Exec.
(** The jumps of the block that were patched ([tb_add_jump]). *)
Context (linked : Z -> bool).

(** [skip] is the label that a taken branch is looking for; branches go
    forward only. *)
Fixpoint exec (skip : option nat) (ops : list tcg_op) (m : machine) : res outcome :=
  match ops with
  | [] => match skip with None => Ok (Next m) | Some _ => Undef end
  | o :: ops =>
      match skip with
      | Some l =>
          match o with
          | op_set_label l' => if (l =? l')%nat then exec None ops (end_block m) else exec skip ops m
          | _ => exec skip ops m
          end
      | None =>
          match o with
          | op_brcond c a b l =>
              let! x := read_tmp m a in
              let! y := read_arg m b in
              if eval_cond c x y then exec (Some l) ops (end_block m) else exec None ops (end_block m)
          | op_set_label _ => exec None ops (end_block m)
          | op_goto_tb n => if linked n then Ok (Goto n (env m)) else exec None ops m
          | op_exit_tb n => Ok (Leave n (env m))
          | _ =>
              let! r := step o m in
              match r with inl m => exec None ops m | inr (x, e) => Ok (Raise x e) end
          end
      end
  end.
End Exec.

(** ** The generator *)

Definition MAX_TEMPS : nat := 8.

Definition DISAS_NEXT : Z := 0.
Definition DISAS_JUMP : Z := 1.
Definition DISAS_UPDATE : Z := 2.
Definition DISAS_TB_JUMP : Z := 3.
Definition DISAS_WFI : Z := 4.
Definition DISAS_SWI : Z := 5.

(** [DisasContext]: the part that the translation of an instruction changes,
    then what is fixed for the block. *)
Record DisasContext := mkDC {
  pc : Z;
  is_jmp : Z;
  condjmp : bool;
  condlabel : nat;
  condexec_mask : Z;
  condexec_cond : Z;
  condexec_mask_prev : Z;
  tb_pc : Z;
  singlestep_enabled : bool;
  dc_thumb : bool;
  dc_user : bool
}.

Definition set_pc v d := mkDC v (is_jmp d) (condjmp d) (condlabel d) (condexec_mask d) (condexec_cond d) (condexec_mask_prev d) (tb_pc d) (singlestep_enabled d) (dc_thumb d) (dc_user d).
Definition set_is_jmp v d := mkDC (pc d) v (condjmp d) (condlabel d) (condexec_mask d) (condexec_cond d) (condexec_mask_prev d) (tb_pc d) (singlestep_enabled d) (dc_thumb d) (dc_user d).
Definition set_cond j l d := mkDC (pc d) (is_jmp d) j l (condexec_mask d) (condexec_cond d) (condexec_mask_prev d) (tb_pc d) (singlestep_enabled d) (dc_thumb d) (dc_user d).
Definition set_condexec mask cond prev d := mkDC (pc d) (is_jmp d) (condjmp d) (condlabel d) mask cond prev (tb_pc d) (singlestep_enabled d) (dc_thumb d) (dc_user d).

(** The generator's state: the array of temporaries with the number in use,
    the numbers of the next temporary and label, the context and the code so
    far. *)
Record gen := mkGen {
  temps : list TCGv;
  num_temps : nat;
  next_tmp : nat;
  next_label : nat;
  dc : DisasContext;
  code : list tcg_op
}.

Definition G (A : Type) : Type := gen -> res (A * gen).
Definition gret {A} (a : A) : G A := fun s => Ok (a, s).
Definition gbind {A B} (g : G A) (k : A -> G B) : G B := fun s => let! (a, s) := g s in k a s.

Declare Scope gen_scope.
Delimit Scope gen_scope with gen.
Notation "x <- g ;; k" := (gbind g (fun x => k)) (at level 100, g at next level, right associativity) : gen_scope.
Notation "g ;; k" := (gbind g (fun _ => k)) (at level 100, right associativity) : gen_scope.
Open Scope gen_scope.

Definition when (b : bool) (g : G unit) : G unit := if b then g else gret tt.
Definition emit (o : tcg_op) : G unit :=
  fun s => Ok (tt, mkGen (temps s) (num_temps s) (next_tmp s) (next_label s) (dc s) (code s ++ [o])).
Definition get_dc : G DisasContext := fun s => Ok (dc s, s).
Definition upd_dc (f : DisasContext -> DisasContext) : G unit :=
  fun s => Ok (tt, mkGen (temps s) (num_temps s) (next_tmp s) (next_label s) (f (dc s)) (code s)).
Definition gabort {A} : G A := fun _ => Abort.

Definition gen_new_label : G nat :=
  fun s => Ok (next_label s, mkGen (temps s) (num_temps s) (next_tmp s) (S (next_label s)) (dc s) (code s)).

Definition tcg_temp_new_i32 : G TCGv :=
  fun s => Ok (next_tmp s, mkGen (temps s) (num_temps s) (S (next_tmp s)) (next_label s) (dc s) (code s)).

Definition set_temps (l : list TCGv) (n : nat) : G unit :=
  fun s => Ok (tt, mkGen l n (next_tmp s) (next_label s) (dc s) (code s)).

Definition new_tmp : G TCGv := fun s =>
  if (num_temps s =? MAX_TEMPS)%nat then Abort else
  match temps s !! num_temps s with
  | None => Undef
  | Some O =>
      (t <- tcg_temp_new_i32 ;;
       set_temps (<[num_temps s := t]> (temps s)) (S (num_temps s)) ;; gret t) s
  | Some t => (set_temps (temps s) (S (num_temps s)) ;; gret t) s
  end.

(** The search for [tmp] downwards from slot [i], and the shift that moves it
    to slot [n]. *)
Fixpoint find_tmp (l : list TCGv) (i : nat) (t : TCGv) : option nat :=
  match l !! i with
  | Some u => if (u =? t)%nat then Some i else match i with O => None | S i => find_tmp l i t end
  | None => None
  end.
Fixpoint shuffle (fuel : nat) (l : list TCGv) (i n : nat) : list TCGv :=
  match fuel with
  | O => l
  | S fuel => if (i <? n)%nat then shuffle fuel (<[i := default O (l !! S i)]> l) (S i) n else l
  end.

Definition dead_tmp (t : TCGv) : G unit := fun s =>
  match num_temps s with
  | O => Undef
  | S n =>
      match find_tmp (temps s) n t with
      | None => Undef
      | Some i => set_temps (<[n := t]> (shuffle (n - i) (temps s) i n)) n s
      end
  end.

(** ** Emitting operations *)

Definition tcg_gen_movi_i32 (ret : TCGv) (arg : Z) : G unit := emit (op_movi ret arg).
Definition tcg_gen_mov_i32 (ret arg : TCGv) : G unit := if (ret =? arg)%nat then gret tt else emit (op_mov ret arg).
Definition tcg_gen_ld_i32 (ret : TCGv) (l : cpu_loc) : G unit := emit (op_ld ret l).
Definition tcg_gen_st_i32 (arg : TCGv) (l : cpu_loc) : G unit := emit (op_st arg l).

Definition tcg_gen_add_i32 (ret arg1 arg2 : TCGv) : G unit := emit (op_bin op_add ret arg1 (T arg2)).
Definition tcg_gen_sub_i32 (ret arg1 arg2 : TCGv) : G unit := emit (op_bin op_sub ret arg1 (T arg2)).
Definition tcg_gen_mul_i32 (ret arg1 arg2 : TCGv) : G unit := emit (op_bin op_mul ret arg1 (T arg2)).
Definition tcg_gen_and_i32 (ret arg1 arg2 : TCGv) : G unit :=
  if (arg1 =? arg2)%nat then tcg_gen_mov_i32 ret arg1 else emit (op_bin op_and ret arg1 (T arg2)).
Definition tcg_gen_or_i32 (ret arg1 arg2 : TCGv) : G unit :=
  if (arg1 =? arg2)%nat then tcg_gen_mov_i32 ret arg1 else emit (op_bin op_or ret arg1 (T arg2)).
Definition tcg_gen_xor_i32 (ret arg1 arg2 : TCGv) : G unit :=
  if (arg1 =? arg2)%nat then tcg_gen_movi_i32 ret 0 else emit (op_bin op_xor ret arg1 (T arg2)).

Definition tcg_gen_subi_i32 (ret arg1 : TCGv) (arg2 : Z) : G unit :=
  if arg2 =? 0 then tcg_gen_mov_i32 ret arg1 else emit (op_bin op_sub ret arg1 (I arg2)).
Definition tcg_gen_andi_i32 (ret arg1 : TCGv) (arg2 : Z) : G unit :=
  if arg2 =? 0 then tcg_gen_movi_i32 ret 0
  else if u32 arg2 =? 0xffffffff then tcg_gen_mov_i32 ret arg1
  else emit (op_bin op_and ret arg1 (I arg2)).
Definition tcg_gen_xori_i32 (ret arg1 : TCGv) (arg2 : Z) : G unit :=
  if arg2 =? 0 then tcg_gen_mov_i32 ret arg1 else emit (op_bin op_xor ret arg1 (I arg2)).
Definition tcg_gen_shli_i32 (ret arg1 : TCGv) (arg2 : Z) : G unit :=
  if arg2 =? 0 then tcg_gen_mov_i32 ret arg1 else emit (op_bin op_shl ret arg1 (I arg2)).
Definition tcg_gen_shri_i32 (ret arg1 : TCGv) (arg2 : Z) : G unit :=
  if arg2 =? 0 then tcg_gen_mov_i32 ret arg1 else emit (op_bin op_shr ret arg1 (I arg2)).
Definition tcg_gen_sari_i32 (ret arg1 : TCGv) (arg2 : Z) : G unit :=
  if arg2 =? 0 then tcg_gen_mov_i32 ret arg1 else emit (op_bin op_sar ret arg1 (I arg2)).
Definition tcg_gen_not_i32 (ret arg : TCGv) : G unit := tcg_gen_xori_i32 ret arg (-1).

Definition tcg_gen_brcondi_i32 (c : tcg_cond) (arg1 : TCGv) (arg2 : Z) (label : nat) : G unit :=
  emit (op_brcond c arg1 (I arg2) label).
Definition gen_set_label (label : nat) : G unit := emit (op_set_label label).
Definition tcg_gen_goto_tb (n : Z) : G unit := emit (op_goto_tb n).
Definition tcg_gen_exit_tb (n : option Z) : G unit := emit (op_exit_tb n).
Definition gen_helper (h : tcg_helper) (ret : option TCGv) (args : list tcg_arg) : G unit := emit (op_call h ret args).

(** ** Straight-line code *)

Fixpoint run_ops (ops : list tcg_op) (m : machine) : res machine :=
  match ops with
  | [] => Ok m
  | o :: ops => let! r := step o m in match r with inl m => run_ops ops m | inr _ => Undef end
  end.

Lemma run_ops_app a b m : run_ops (a ++ b) m = let! m := run_ops a m in run_ops b m.
Proof.
  revert m. induction a as [|o a IH]; intros m; [done|]. cbn. destruct (step o m) as [[m'|]| |]; cbn; auto.
Qed.

(** Code that runs straight through leaves the rest of the block to run. *)
Lemma exec_straight linked ops rest m m' :
  run_ops ops m = Ok m' -> exec linked None (ops ++ rest) m = exec linked None rest m'.
Proof.
  revert m. induction ops as [|o ops IH]; intros m; cbn; [by intros [= ->]|].
  destruct (step o m) as [[m1|x]| |] eqn:E; cbn; try done. intros H.
  destruct o; cbn in E; try discriminate; rewrite ?E; cbn; by apply IH.
Qed.

(** The labels that a piece of code sets; a branch to another label skips it. *)
Definition labels (ops : list tcg_op) : list nat :=
  omap (fun o => match o with op_set_label l => Some l | _ => None end) ops.

Lemma exec_skip linked l ops rest m :
  l ∉ labels ops -> exec linked (Some l) (ops ++ rest) m = exec linked (Some l) rest m.
Proof.
  induction ops as [|o ops IH]; [done|]. intros Hl.
  assert (Hl' : l ∉ labels ops) by (intros H; apply Hl; destruct o; cbn; set_solver).
  destruct o; cbn; try by apply IH.
  destruct (Nat.eqb_spec l label) as [->|]; [|by apply IH]. destruct Hl. cbn. set_solver.
Qed.

(** ** Allocation *)

(** The slots in use come first, numbers are distinct and below the next. *)
Definition alloc_ok (s : gen) : Prop :=
  exists al, temps s = al ++ replicate (MAX_TEMPS - length al) O /\ (length al <= MAX_TEMPS)%nat /\
    NoDup al /\ Forall (fun t => 0 < t < next_tmp s)%nat al /\ (num_temps s <= length al)%nat /\ (0 < next_tmp s)%nat.
Definition live (s : gen) : list TCGv := take (num_temps s) (temps s).

(** What the rules below say of a state of the generator: the temporaries in
    use, the context and the next label. *)
Record view := mkView { v_live : list TCGv; v_dc : DisasContext; v_label : nat }.
Definition sees (s : gen) (v : view) : Prop :=
  alloc_ok s /\ live s ≡ₚ v_live v /\ dc s = v_dc v /\ next_label s = v_label v.

(** [g], run in a state that looks like [v], succeeds and appends code that
    takes the machine from [m] to one that [Q] describes. *)
Definition sim {A} (g : G A) (v : view) (m : machine) (Q : A -> view -> machine -> Prop) : Prop :=
  forall s, sees s v -> exists a s' c m' v',
    g s = Ok (a, s') /\ code s' = code s ++ c /\ run_ops c m = Ok m' /\ labels c = [] /\ sees s' v' /\ Q a v' m'.

Lemma sim_ret {A} (a : A) v m Q : Q a v m -> sim (gret a) v m Q.
Proof. intros H s Hs. exists a, s, [], m, v. by rewrite app_nil_r. Qed.

Lemma labels_app a b : labels (a ++ b) = labels a ++ labels b.
Proof. apply omap_app. Qed.

Lemma sim_bind {A B} (g : G A) (k : A -> G B) v m Q :
  sim g v m (fun a v' m' => sim (k a) v' m' Q) -> sim (gbind g k) v m Q.
Proof.
  intros H s Hs. destruct (H s Hs) as (a & s1 & c1 & m1 & v1 & E1 & C1 & R1 & L1 & S1 & K).
  destruct (K s1 S1) as (b & s2 & c2 & m2 & v2 & E2 & C2 & R2 & L2 & S2 & HQ).
  exists b, s2, (c1 ++ c2), m2, v2. unfold gbind. rewrite E1. cbn [rbind].
  split; [done|]. split; [by rewrite C2, C1, app_assoc|].
  split; [by rewrite run_ops_app, R1|]. split; [by rewrite labels_app, L1, L2|]. done.
Qed.

Lemma sim_conseq {A} (g : G A) v m (Q Q' : A -> view -> machine -> Prop) :
  sim g v m Q -> (forall a v' m', Q a v' m' -> Q' a v' m') -> sim g v m Q'.
Proof.
  intros H Hi s Hs. destruct (H s Hs) as (a & s' & c & m' & v' & ? & ? & ? & ? & ? & ?).
  exists a, s', c, m', v'. auto 10.
Qed.

Lemma sim_emit o v m m' Q :
  step o m = Ok (inl m') -> labels [o] = [] -> Q tt v m' -> sim (emit o) v m Q.
Proof.
  intros Ho Hl HQ s Hs. eexists tt, _, [o], m', v. split; [reflexivity|]. split; [done|].
  split; [cbn; by rewrite Ho|]. split; [done|]. split; [exact Hs|done].
Qed.

Lemma sim_get_dc v m Q : Q (v_dc v) v m -> sim get_dc v m Q.
Proof.
  intros HQ s Hs. exists (dc s), s, [], m, v. rewrite app_nil_r. destruct Hs as (? & ? & Hd & ?). rewrite Hd.
  split; [unfold get_dc; by rewrite Hd|]. by rewrite <- Hd in HQ |- *.
Qed.

Lemma sim_upd_dc f v m Q : Q tt (mkView (v_live v) (f (v_dc v)) (v_label v)) m -> sim (upd_dc f) v m Q.
Proof.
  intros HQ s (Ha & Hl & Hd & Hn). eexists tt, _, [], m, _. split; [reflexivity|]. rewrite app_nil_r.
  split; [done|]. split; [done|]. split; [done|]. split; [|exact HQ].
  split; [exact Ha|]. split; [exact Hl|]. split; [cbn; by rewrite Hd|done].
Qed.

Lemma sim_new_label v m Q :
  Q (v_label v) (mkView (v_live v) (v_dc v) (S (v_label v))) m -> sim gen_new_label v m Q.
Proof.
  intros HQ s (Ha & Hl & Hd & Hn). eexists (next_label s), _, [], m, _. split; [reflexivity|]. rewrite app_nil_r.
  split; [done|]. split; [done|]. split; [done|]. split; [|rewrite Hn; exact HQ].
  split; [exact Ha|]. split; [exact Hl|]. split; [done|cbn; by rewrite Hn].
Qed.

Lemma live_al s al z : temps s = al ++ z -> (num_temps s <= length al)%nat ->
  live s = take (num_temps s) al.
Proof. intros E Hn. unfold live. rewrite E, take_app_le by done. done. Qed.

(** A new temporary is none of those in use. *)
Lemma sim_new_tmp v m Q :
  (length (v_live v) < MAX_TEMPS)%nat ->
  (forall t, t ∉ v_live v -> Q t (mkView (v_live v ++ [t]) (v_dc v) (v_label v)) m) -> sim new_tmp v m Q.
Proof.
  intros Hlen HQ s (Ha & Hl & Hd & Hn). pose proof Ha as (al & Et & Hal & Hnd & Hf & Hnum & Hpos).
  assert (Hll : length (live s) = num_temps s).
  { rewrite (live_al s al _ Et Hnum), length_take. lia. }
  assert (Hnt : (num_temps s < MAX_TEMPS)%nat) by (apply Permutation_length in Hl; lia).
  unfold new_tmp. rewrite (proj2 (Nat.eqb_neq _ _)) by lia.
  destruct (decide (num_temps s < length al)%nat) as [Hin|Hout].
  - destruct (lookup_lt_is_Some_2 al _ Hin) as [t Ht]. rewrite Et, lookup_app_l, Ht by done.
    assert (Ht0 : (0 < t < next_tmp s)%nat) by (eapply (proj1 (Forall_lookup _ _) Hf); exact Ht).
    destruct t as [|t0]; [lia|]. set (t := S t0) in *. eexists t, _, [], m, _. split; [reflexivity|].
    rewrite app_nil_r. split; [done|]. split; [done|]. split; [done|].
    assert (Hnew : t ∉ live s).
    { rewrite (live_al s al _ Et Hnum). intros Hm. apply list_elem_of_lookup in Hm as [j Hj].
      apply lookup_take_Some in Hj as [Hj Hlt]. pose proof (NoDup_lookup al j (num_temps s) t Hnd Hj Ht). lia. }
    split; [|apply HQ; by rewrite <- Hl]. split.
    { exists al. split; [reflexivity|]. split; [exact Hal|]. split; [exact Hnd|]. split; [exact Hf|]. split; [exact Hin|exact Hpos]. }
    split; [|done]. cbn [v_live]. rewrite <- Hl, (live_al s al _ Et Hnum). unfold live. cbn [num_temps temps].
    rewrite take_app_le, (take_S_r _ _ t Ht) by lia. done.
  - assert (Hal' : num_temps s = length al) by lia.
    rewrite Et, lookup_app_r, Hal', Nat.sub_diag by lia.
    destruct (MAX_TEMPS - length al)%nat as [|k] eqn:Ek; [lia|]. cbn [replicate lookup list_lookup].
    eexists (next_tmp s), _, [], m, _. split; [reflexivity|].
    rewrite app_nil_r. split; [done|]. split; [done|]. split; [done|].
    assert (Hnew : next_tmp s ∉ live s).
    { rewrite (live_al s al _ Et Hnum). intros Hm. apply elem_of_take in Hm as (j & Hj & _).
      pose proof (proj1 (Forall_lookup _ _) Hf _ _ Hj) as Hb. cbn in Hb. lia. }
    assert (Hins : <[length al:=next_tmp s]> (al ++ O :: replicate k O) = (al ++ [next_tmp s]) ++ replicate k O).
    { rewrite insert_app_r_alt, Nat.sub_diag by lia. cbn. by rewrite <- app_assoc. }
    split; [|apply HQ; by rewrite <- Hl]. split.
    { exists (al ++ [next_tmp s]). cbn [temps num_temps next_tmp replicate]. rewrite Hins, length_app. cbn [length].
      replace (MAX_TEMPS - (length al + 1))%nat with k by lia. split; [done|]. split; [lia|].
      split; [|split; [|lia]].
      - apply NoDup_app. split; [done|]. split; [|apply NoDup_singleton]. intros x Hx ->%list_elem_of_singleton.
        rewrite Forall_forall in Hf. specialize (Hf _ Hx). lia.
      - apply Forall_app. split; [|constructor; [lia|constructor]].
        eapply Forall_impl; [exact Hf|]. cbn. lia. }
    split; [|done]. cbn [v_live]. rewrite <- Hl, (live_al s al _ Et Hnum), Hal', firstn_all. unfold live.
    cbn [num_temps temps replicate]. rewrite Hins, take_app_length' by (rewrite length_app; cbn; lia). done.
Qed.

(** ** Releasing a temporary *)

Lemma find_tmp_spec l n t i : find_tmp l n t = Some i -> (i <= n)%nat /\ l !! i = Some t.
Proof.
  revert i. induction n as [|n IH]; intros i; cbn.
  - destruct (l !! 0%nat) as [u|] eqn:E; [|done]. destruct (Nat.eqb_spec u t) as [->|]; [|done]. intros [= <-]. by split.
  - destruct (l !! S n) as [u|] eqn:E; [|done]. destruct (Nat.eqb_spec u t) as [->|].
    + intros [= <-]. by split.
    + intros H. destruct (IH i H). split; [lia|done].
Qed.

Lemma find_tmp_total l n t : (n < length l)%nat -> t ∈ take (S n) l -> exists i, find_tmp l n t = Some i.
Proof.
  revert t. induction n as [|n IH]; intros t Hn Ht; cbn;
    (destruct (lookup_lt_is_Some_2 l _ Hn) as [u Hu]; rewrite Hu); destruct (Nat.eqb_spec u t) as [|Hne];
    [by eexists| |by eexists|].
  - rewrite (take_S_r _ _ u Hu) in Ht. set_solver.
  - apply IH; [lia|]. rewrite (take_S_r _ _ u Hu) in Ht. apply elem_of_app in Ht as [|Ht]; [done|]. set_solver.
Qed.

(** Moving a slot to the end of a range shifts those in between. *)
Lemma shuffle_spec k (l1 : list TCGv) t l2 l3 n :
  k = length l2 -> n = (length l1 + length l2)%nat ->
  exists x, shuffle k (l1 ++ t :: l2 ++ l3) (length l1) n = l1 ++ l2 ++ x :: l3.
Proof.
  revert l1 t l2. induction k as [|k IH]; intros l1 t l2 Hk Hn.
  - destruct l2; [|done]. by exists t.
  - destruct l2 as [|u l2]; [done|]. cbn [shuffle]. rewrite (proj2 (Nat.ltb_lt _ _)) by (cbn in *; lia).
    assert ((l1 ++ t :: (u :: l2) ++ l3) !! S (length l1) = Some u) as ->.
    { rewrite lookup_app_r by lia. replace (S (length l1) - length l1)%nat with 1%nat by lia. done. }
    cbn [default from_option id]. rewrite insert_app_r_alt, Nat.sub_diag by lia. cbn.
    destruct (IH (l1 ++ [u]) u l2) as [x Hx]; [by injection Hk|rewrite length_app; cbn in *; lia|].
    rewrite length_app in Hx. cbn in Hx. rewrite Nat.add_1_r, <- !app_assoc in Hx. cbn in Hx. by exists x.
Qed.

Lemma sim_dead_tmp t L v m Q :
  v_live v ≡ₚ t :: L -> Q tt (mkView L (v_dc v) (v_label v)) m -> sim (dead_tmp t) v m Q.
Proof.
  intros HL HQ s (Ha & Hl & Hd & Hn). pose proof Ha as (al & Et & Hal & Hnd & Hf & Hnum & Hpos).
  pose proof (live_al s al _ Et Hnum) as Hlive.
  assert (Hlen : length (live s) = num_temps s) by (rewrite Hlive, length_take; lia).
  assert (Hin : t ∈ live s) by (rewrite Hl, HL; set_solver).
  destruct (num_temps s) as [|n] eqn:En; [apply Permutation_length in Hl; apply Permutation_length in HL; cbn in *; lia|].
  unfold dead_tmp. rewrite En.
  assert (Hn' : (n < length (temps s))%nat) by (rewrite Et, length_app; lia).
  destruct (find_tmp_total (temps s) n t Hn') as [i Hi]; [unfold live in Hin; by rewrite En in Hin|].
  rewrite Hi. destruct (find_tmp_spec _ _ _ _ Hi) as [Hin' Hti].
  assert (Hti' : al !! i = Some t) by (rewrite Et, lookup_app_l in Hti by lia; done).
  (* the slots: before [i], [t], up to [n], the rest *)
  set (l1 := take i al). set (l2 := take (n - i) (drop (S i) al)). set (l3 := drop (S n) al).
  assert (Hsplit : al = l1 ++ t :: l2 ++ l3).
  { rewrite <- (take_drop i al) at 1. f_equal. rewrite (drop_S al t i Hti'). f_equal.
    rewrite <- (take_drop (n - i) (drop (S i) al)) at 1. f_equal. unfold l3. rewrite drop_drop. f_equal. lia. }
  assert (H1 : length l1 = i) by (unfold l1; rewrite length_take; lia).
  assert (H2 : length l2 = (n - i)%nat) by (unfold l2; rewrite length_take, length_drop; lia).
  set (z := replicate (MAX_TEMPS - length al) O) in *.
  destruct (shuffle_spec (n - i) l1 t l2 (l3 ++ z) n) as [x Hx]; [done|lia|].
  assert (Etm : temps s = l1 ++ t :: l2 ++ l3 ++ z) by (rewrite Et, Hsplit at 1; by rewrite <- !app_assoc; cbn; rewrite <- app_assoc).
  set (al' := l1 ++ l2 ++ t :: l3).
  assert (Hfin : <[n := t]> (shuffle (n - i) (temps s) i n) = al' ++ z).
  { rewrite H1 in Hx. rewrite Etm, Hx. unfold al'.
    rewrite (app_assoc l1 l2), insert_app_r_alt by (rewrite length_app; lia). rewrite length_app.
    replace (n - (length l1 + length l2))%nat with 0%nat by lia. cbn. by rewrite <- !app_assoc. }
  assert (Hperm : al' ≡ₚ al) by (rewrite Hsplit; unfold al'; rewrite <- (Permutation_middle l2 l3 t); done).
  eexists tt, _, [], m, _. split; [unfold set_temps; rewrite Hfin; reflexivity|].
  rewrite app_nil_r. split; [done|]. split; [done|]. split; [done|]. split; [|exact HQ].
  split.
  { exists al'. cbn [temps num_temps next_tmp]. unfold z. rewrite (Permutation_length Hperm). split; [done|]. split; [done|].
    split; [by rewrite Hperm|]. split; [by rewrite Hperm|]. split; [lia|done]. }
  split; [|done]. unfold live. cbn [v_live num_temps temps].
  assert (Htk : take n (al' ++ z) = l1 ++ l2).
  { unfold al'. rewrite (app_assoc l1 l2), <- app_assoc, take_app_length' by (rewrite length_app; lia). done. }
  rewrite Htk. apply (Permutation_cons_inv (a := t)). rewrite <- HL, <- Hl, Hlive, Hsplit.
  replace (take (S n) (l1 ++ t :: l2 ++ l3)) with (l1 ++ t :: l2).
  - by rewrite Permutation_middle.
  - symmetry. change (t :: l2 ++ l3) with ((t :: l2) ++ l3). rewrite app_assoc, take_app_length'; [done|].
    rewrite length_app. cbn. lia.
Qed.

(** ** Rules for the operations *)

Lemma tmp_set_eq t x m : tmp (set_tmp t x m) t = Some x.
Proof. cbn. by rewrite decide_True. Qed.
Lemma tmp_set_ne t u x m : u <> t -> tmp (set_tmp t x m) u = tmp m u.
Proof. intros H. cbn. by rewrite decide_False. Qed.
Lemma tmp_set_env e m t : tmp (set_env e m) t = tmp m t.
Proof. done. Qed.
Lemma env_set_tmp t x m : env (set_tmp t x m) = env m.
Proof. done. Qed.
Lemma env_set_env e m : env (set_env e m) = e.
Proof. done. Qed.

Lemma sim_movi ret x v m Q : Q tt v (set_tmp ret (u32 x) m) -> sim (tcg_gen_movi_i32 ret x) v m Q.
Proof. intros H. by eapply sim_emit. Qed.
Lemma sim_ld ret l v m Q : Q tt v (set_tmp ret (read_loc (env m) l) m) -> sim (tcg_gen_ld_i32 ret l) v m Q.
Proof. intros H. by eapply sim_emit. Qed.
Lemma sim_st arg l x v m Q :
  tmp m arg = Some x -> Q tt v (set_env (write_loc l x (env m)) m) -> sim (tcg_gen_st_i32 arg l) v m Q.
Proof. intros E H. eapply sim_emit; [|done|exact H]. cbn. unfold read_tmp. by rewrite E. Qed.

Lemma sim_bin o ret a b x y z v m Q :
  tmp m a = Some x -> read_arg m b = Ok y -> eval_bin o x y = Ok z -> Q tt v (set_tmp ret z m) ->
  sim (emit (op_bin o ret a b)) v m Q.
Proof. intros Ea Eb Eo H. eapply sim_emit; [|done|exact H]. cbn. unfold read_tmp. rewrite Ea. cbn. rewrite Eb. cbn. by rewrite Eo. Qed.

Section Ops.
Context (v : view) (m : machine) (Q : unit -> view -> machine -> Prop) (ret a b : TCGv) (x y : Z).
Context (Ha : tmp m a = Some x) (Hb : tmp m b = Some y).

Lemma sim_add : Q tt v (set_tmp ret (u32 (x + y)) m) -> sim (tcg_gen_add_i32 ret a b) v m Q.
Proof. intros H. eapply sim_bin; [exact Ha|cbn; unfold read_tmp; by rewrite Hb|reflexivity|exact H]. Qed.
Lemma sim_sub : Q tt v (set_tmp ret (u32 (x - y)) m) -> sim (tcg_gen_sub_i32 ret a b) v m Q.
Proof. intros H. eapply sim_bin; [exact Ha|cbn; unfold read_tmp; by rewrite Hb|reflexivity|exact H]. Qed.
Lemma sim_and : a <> b -> Q tt v (set_tmp ret (Z.land x y) m) -> sim (tcg_gen_and_i32 ret a b) v m Q.
Proof.
  intros Hne H. unfold tcg_gen_and_i32. rewrite (proj2 (Nat.eqb_neq a b)) by done.
  eapply sim_bin; [exact Ha|cbn; unfold read_tmp; by rewrite Hb|reflexivity|exact H].
Qed.
Lemma sim_or : a <> b -> Q tt v (set_tmp ret (Z.lor x y) m) -> sim (tcg_gen_or_i32 ret a b) v m Q.
Proof.
  intros Hne H. unfold tcg_gen_or_i32. rewrite (proj2 (Nat.eqb_neq a b)) by done.
  eapply sim_bin; [exact Ha|cbn; unfold read_tmp; by rewrite Hb|reflexivity|exact H].
Qed.
Lemma sim_xor : a <> b -> Q tt v (set_tmp ret (Z.lxor x y) m) -> sim (tcg_gen_xor_i32 ret a b) v m Q.
Proof.
  intros Hne H. unfold tcg_gen_xor_i32. rewrite (proj2 (Nat.eqb_neq a b)) by done.
  eapply sim_bin; [exact Ha|cbn; unfold read_tmp; by rewrite Hb|reflexivity|exact H].
Qed.

Lemma sim_andi i : i <> 0 -> u32 i <> 0xffffffff -> Q tt v (set_tmp ret (Z.land x (u32 i)) m) -> sim (tcg_gen_andi_i32 ret a i) v m Q.
Proof.
  intros H0 H1 H. unfold tcg_gen_andi_i32. rewrite (proj2 (Z.eqb_neq _ _)), (proj2 (Z.eqb_neq _ _)) by done.
  eapply sim_bin; [exact Ha|reflexivity|reflexivity|exact H].
Qed.
Lemma sim_subi i : i <> 0 -> Q tt v (set_tmp ret (u32 (x - u32 i)) m) -> sim (tcg_gen_subi_i32 ret a i) v m Q.
Proof.
  intros H0 H. unfold tcg_gen_subi_i32. rewrite (proj2 (Z.eqb_neq _ _)) by done.
  eapply sim_bin; [exact Ha|reflexivity|reflexivity|exact H].
Qed.
Lemma sim_not : Q tt v (set_tmp ret (not32 x) m) -> sim (tcg_gen_not_i32 ret a) v m Q.
Proof. intros H. eapply (sim_bin op_xor); [exact Ha|reflexivity|reflexivity|exact H]. Qed.

Lemma shift_arg i : 0 < i < 32 -> read_arg m (I i) = Ok i /\ (i <? 32) = true.
Proof. intros Hi. cbn. rewrite uwrap_small by (simpl; lia). split; [done|]. apply Z.ltb_lt. lia. Qed.
Lemma sim_shli i : 0 < i < 32 -> Q tt v (set_tmp ret (u32 (Z.shiftl x i)) m) -> sim (tcg_gen_shli_i32 ret a i) v m Q.
Proof.
  intros Hi H. unfold tcg_gen_shli_i32. rewrite (proj2 (Z.eqb_neq _ _)) by lia. destruct (shift_arg i Hi) as [E1 E2].
  eapply sim_bin; [exact Ha|exact E1|cbn; rewrite E2; reflexivity|exact H].
Qed.
Lemma sim_shri i : 0 < i < 32 -> Q tt v (set_tmp ret (Z.shiftr x i) m) -> sim (tcg_gen_shri_i32 ret a i) v m Q.
Proof.
  intros Hi H. unfold tcg_gen_shri_i32. rewrite (proj2 (Z.eqb_neq _ _)) by lia. destruct (shift_arg i Hi) as [E1 E2].
  eapply sim_bin; [exact Ha|exact E1|cbn; rewrite E2; reflexivity|exact H].
Qed.
Lemma sim_sari i : 0 < i < 32 -> Q tt v (set_tmp ret (u32 (Z.shiftr (s32 x) i)) m) -> sim (tcg_gen_sari_i32 ret a i) v m Q.
Proof.
  intros Hi H. unfold tcg_gen_sari_i32. rewrite (proj2 (Z.eqb_neq _ _)) by lia. destruct (shift_arg i Hi) as [E1 E2].
  eapply sim_bin; [exact Ha|exact E1|cbn; rewrite E2; reflexivity|exact H].
Qed.
End Ops.

Lemma sim_helper h ret args vs x e v m Q :
  read_args m args = Ok vs -> call_helper h vs (env m) = Ok (Returns x e) ->
  Q tt v (opt_set ret x (set_env e m)) -> sim (gen_helper h ret args) v m Q.
Proof. intros E1 E2 H. eapply sim_emit; [|done|exact H]. cbn. rewrite E1. cbn. by rewrite E2. Qed.

Lemma read_tmp_some m t x : tmp m t = Some x -> read_tmp m t = Ok x.
Proof. unfold read_tmp. by intros ->. Qed.

Lemma sim_when (b : bool) g v m Q :
  (b = true -> sim g v m Q) -> (b = false -> Q tt v m) -> sim (when b g) v m Q.
Proof. destruct b; cbn; intros H1 H2; [by apply H1|]. by apply sim_ret, H2. Qed.
