(* ===== verification/ArmTranslate.v ===== *)
(** * Translating ARM instructions

    The front end of [target-arm/translate.c] for the instructions of the
    ARM state that work on registers only: conditions, data processing with
    its shifter operand, branches and supervisor calls; and the loop of
    [gen_intermediate_code_internal] around it. *)
From S2P Require Import Prelude GuestMem ArmCpu ArmArith Tcg.
From stdpp Require Import list sets.
#[local] Open Scope Z_scope.
#[local] Open Scope gen_scope.

(** ** Registers and fields *)

Definition load_cpu_field (f : cpu_field) : G TCGv :=
  tmp <- new_tmp ;; tcg_gen_ld_i32 tmp (Lfield f) ;; gret tmp.
Definition store_cpu_offset (var : TCGv) (l : cpu_loc) : G unit := tcg_gen_st_i32 var l ;; dead_tmp var.

Definition load_reg_var (var : TCGv) (reg : nat) : G unit :=
  s <- get_dc ;;
  if (reg =? 15)%nat then tcg_gen_movi_i32 var (u32 (pc s + (if dc_thumb s then 2 else 4)))
  else tcg_gen_ld_i32 var (Lreg reg).
Definition load_reg (reg : nat) : G TCGv := tmp <- new_tmp ;; load_reg_var tmp reg ;; gret tmp.

Definition store_reg (reg : nat) (var : TCGv) : G unit :=
  when (reg =? 15)%nat (tcg_gen_andi_i32 var var (-2) ;; upd_dc (set_is_jmp DISAS_JUMP)) ;;
  tcg_gen_st_i32 var (Lreg reg) ;; dead_tmp var.

Definition gen_bx (var : TCGv) : G unit :=
  upd_dc (set_is_jmp DISAS_UPDATE) ;;
  tmp <- new_tmp ;;
  tcg_gen_andi_i32 tmp var 1 ;;
  store_cpu_offset tmp (Lfield thumb) ;;
  tcg_gen_andi_i32 var var (-2) ;;
  store_cpu_offset var (Lreg 15).

Definition gen_bx_im (addr : Z) : G unit :=
  upd_dc (set_is_jmp DISAS_UPDATE) ;;
  s <- get_dc ;;
  tmp <- new_tmp ;;
  when (negb (cbool (dc_thumb s) =? Z.land addr 1))
    (tcg_gen_movi_i32 tmp (Z.land addr 1) ;; tcg_gen_st_i32 tmp (Lfield thumb)) ;;
  tcg_gen_movi_i32 tmp (Z.land addr 0xfffffffe) ;;
  tcg_gen_st_i32 tmp (Lreg 15) ;;
  dead_tmp tmp.

Definition gen_set_pc_im (val : Z) : G unit :=
  tmp <- new_tmp ;; tcg_gen_movi_i32 tmp val ;; store_cpu_offset tmp (Lreg 15).

Definition gen_exception (excp : Z) : G unit :=
  tmp <- new_tmp ;; tcg_gen_movi_i32 tmp excp ;; gen_helper HELPER_exception None [T tmp] ;; dead_tmp tmp.

Definition gen_set_condexec : G unit :=
  s <- get_dc ;;
  if ctrue (condexec_mask s) then
    tmp <- new_tmp ;;
    tcg_gen_movi_i32 tmp (Z.lor (u32 (Z.shiftl (condexec_cond s) 4)) (Z.shiftr (condexec_mask s) 1)) ;;
    store_cpu_offset tmp (Lfield condexec_bits)
  else when (negb (condexec_mask_prev s =? 0))
    (tmp <- new_tmp ;; tcg_gen_movi_i32 tmp 0 ;; store_cpu_offset tmp (Lfield condexec_bits)).

(** ** Flags *)

Definition gen_set_CF (var : TCGv) : G unit := tcg_gen_st_i32 var (Lfield CF).
Definition gen_set_CF_bit31 (var : TCGv) : G unit :=
  tmp <- new_tmp ;; tcg_gen_shri_i32 tmp var 31 ;; gen_set_CF tmp ;; dead_tmp tmp.
Definition gen_logic_CC (var : TCGv) : G unit := tcg_gen_st_i32 var (Lfield NF) ;; tcg_gen_st_i32 var (Lfield ZF).

Definition gen_add_carry (dest t0 t1 : TCGv) : G unit :=
  tcg_gen_add_i32 dest t0 t1 ;;
  tmp <- load_cpu_field CF ;; tcg_gen_add_i32 dest dest tmp ;; dead_tmp tmp.
Definition gen_sub_carry (dest t0 t1 : TCGv) : G unit :=
  tcg_gen_sub_i32 dest t0 t1 ;;
  tmp <- load_cpu_field CF ;; tcg_gen_add_i32 dest dest tmp ;; tcg_gen_subi_i32 dest dest 1 ;; dead_tmp tmp.

Definition tcg_gen_bic_i32 (dest t0 t1 : TCGv) : G unit :=
  tmp <- new_tmp ;; tcg_gen_not_i32 tmp t1 ;; tcg_gen_and_i32 dest t0 tmp ;; dead_tmp tmp.

(** ** The shifter *)

Definition tcg_gen_rori_i32 (t0 t1 : TCGv) (i : Z) : G unit :=
  if i =? 0 then gret tt else
  tmp <- new_tmp ;;
  tcg_gen_shri_i32 tmp t1 i ;;
  tcg_gen_shli_i32 t1 t1 (32 - i) ;;
  tcg_gen_or_i32 t0 t1 tmp ;;
  dead_tmp tmp.

Definition shifter_out_im (var : TCGv) (shift : Z) : G unit :=
  tmp <- new_tmp ;;
  (if shift =? 0 then tcg_gen_andi_i32 tmp var 1
   else tcg_gen_shri_i32 tmp var shift ;; when (negb (shift =? 31)) (tcg_gen_andi_i32 tmp tmp 1)) ;;
  gen_set_CF tmp ;;
  dead_tmp tmp.

Definition gen_arm_shift_im (var : TCGv) (shiftop shift : Z) (flags : bool) : G unit :=
  if shiftop =? 0 then
    when (negb (shift =? 0)) (when flags (shifter_out_im var (32 - shift)) ;; tcg_gen_shli_i32 var var shift)
  else if shiftop =? 1 then
    if shift =? 0 then
      when flags (tcg_gen_shri_i32 var var 31 ;; gen_set_CF var) ;; tcg_gen_movi_i32 var 0
    else when flags (shifter_out_im var (shift - 1)) ;; tcg_gen_shri_i32 var var shift
  else if shiftop =? 2 then
    let shift := if shift =? 0 then 32 else shift in
    when flags (shifter_out_im var (shift - 1)) ;;
    let shift := if shift =? 32 then 31 else shift in
    tcg_gen_sari_i32 var var shift
  else
    if negb (shift =? 0) then
      when flags (shifter_out_im var (shift - 1)) ;; tcg_gen_rori_i32 var var shift
    else
      tmp <- load_cpu_field CF ;;
      when flags (shifter_out_im var 0) ;;
      tcg_gen_shri_i32 var var 1 ;;
      tcg_gen_shli_i32 tmp tmp 31 ;;
      tcg_gen_or_i32 var var tmp ;;
      dead_tmp tmp.

Definition gen_arm_shift_reg (var : TCGv) (shiftop : Z) (shift : TCGv) (flags : bool) : G unit :=
  gen_helper
    (if flags then
       if shiftop =? 0 then HELPER_shl_cc else if shiftop =? 1 then HELPER_shr_cc
       else if shiftop =? 2 then HELPER_sar_cc else HELPER_ror_cc
     else
       if shiftop =? 0 then HELPER_shl else if shiftop =? 1 then HELPER_shr
       else if shiftop =? 2 then HELPER_sar else HELPER_ror) (Some var) [T var; T shift] ;;
  dead_tmp shift.

(** ** Conditions *)

Definition gen_test_cc (cc : Z) (label : nat) : G unit :=
  let flag f c := tmp <- load_cpu_field f ;; tcg_gen_brcondi_i32 c tmp 0 label ;; gret tmp in
  let n_xor_v c :=
    tmp <- load_cpu_field VF ;;
    tmp2 <- load_cpu_field NF ;;
    tcg_gen_xor_i32 tmp tmp tmp2 ;;
    dead_tmp tmp2 ;;
    tcg_gen_brcondi_i32 c tmp 0 label ;; gret tmp in
  tmp <- (if cc =? 0 then flag ZF TCG_COND_EQ
   else if cc =? 1 then flag ZF TCG_COND_NE
   else if cc =? 2 then flag CF TCG_COND_NE
   else if cc =? 3 then flag CF TCG_COND_EQ
   else if cc =? 4 then flag NF TCG_COND_LT
   else if cc =? 5 then flag NF TCG_COND_GE
   else if cc =? 6 then flag VF TCG_COND_LT
   else if cc =? 7 then flag VF TCG_COND_GE
   else if cc =? 8 then
     inv <- gen_new_label ;;
     tmp <- load_cpu_field CF ;;
     tcg_gen_brcondi_i32 TCG_COND_EQ tmp 0 inv ;;
     dead_tmp tmp ;;
     tmp <- flag ZF TCG_COND_NE ;;
     gen_set_label inv ;; gret tmp
   else if cc =? 9 then
     tmp <- flag CF TCG_COND_EQ ;; dead_tmp tmp ;; flag ZF TCG_COND_EQ
   else if cc =? 10 then n_xor_v TCG_COND_GE
   else if cc =? 11 then n_xor_v TCG_COND_LT
   else if cc =? 12 then
     inv <- gen_new_label ;;
     tmp <- load_cpu_field ZF ;;
     tcg_gen_brcondi_i32 TCG_COND_EQ tmp 0 inv ;;
     dead_tmp tmp ;;
     tmp <- n_xor_v TCG_COND_GE ;;
     gen_set_label inv ;; gret tmp
   else if cc =? 13 then
     tmp <- flag ZF TCG_COND_EQ ;; dead_tmp tmp ;; n_xor_v TCG_COND_LT
   else gabort) ;;
  dead_tmp tmp.

Definition table_logic_cc : list Z := [1; 1; 0; 0; 0; 0; 0; 0; 1; 1; 0; 0; 1; 1; 1; 1].

(** The unsigned field of [n] bits of [insn] from bit [lo] on. *)
Definition bits (insn lo n : Z) : Z := Z.land (Z.shiftr insn lo) (Z.ones n).
Definition reg_at (insn lo : Z) : nat := Z.to_nat (bits insn lo 4).

Lemma bits_range insn lo n : 0 <= n -> 0 <= bits insn lo n < 2 ^ n.
Proof. intros Hn. unfold bits. rewrite Z.land_ones by done. apply Z.mod_pos_bound. lia. Qed.

(** Code of the front end that is not modelled: unconditional instructions,
    moves of 16-bit immediates and to the status register, the miscellaneous
    space, multiplications, loads, stores, media and coprocessor instructions;
    the Thumb state; and the code that waits for an interrupt. *)
Record unmodelled := mkOthers {
  other_uncond : Z -> G bool;
  other_mov16 : Z -> G bool;
  other_misc : Z -> G bool;
  other_insn : Z -> G bool;
  disas_thumb_insn : G unit;
  gen_helper_wfi : G unit
}.

Definition EXCP_DEBUG : Z := 0x10002.
Definition EXCP_EXCEPTION_EXIT : Z := 8.

Section Translate.
(** The processor when the block is translated. *)
Context (env0 : CPUARMState).

Definition store_reg_bx (reg : nat) (var : TCGv) : G unit :=
  if (reg =? 15)%nat && arm_feature env0 ARM_FEATURE_V7 then gen_bx var else store_reg reg var.

Definition gen_exception_return (pc : TCGv) : G unit :=
  store_reg 15 pc ;;
  tmp <- load_cpu_field spsr ;;
  gen_helper HELPER_cpsr_write None [T tmp; I 0xffffffff] ;;
  dead_tmp tmp ;;
  upd_dc (set_is_jmp DISAS_UPDATE).

(** The second operand of a data processing instruction. *)
Definition gen_operand2 (insn : Z) (logic_cc : bool) : G TCGv :=
  if ctrue (Z.land insn (bit32 25)) then
    let val := Z.land insn 0xff in
    let shift := Z.land (Z.shiftr insn 8) 0xf * 2 in
    let val := if ctrue shift then Z.lor (Z.shiftr val shift) (u32 (Z.shiftl val (32 - shift))) else val in
    tmp2 <- new_tmp ;;
    tcg_gen_movi_i32 tmp2 val ;;
    when (logic_cc && ctrue shift) (gen_set_CF_bit31 tmp2) ;;
    gret tmp2
  else
    tmp2 <- load_reg (reg_at insn 0) ;;
    let shiftop := bits insn 5 2 in
    (if negb (ctrue (Z.land insn (bit32 4))) then
       gen_arm_shift_im tmp2 shiftop (Z.land (Z.shiftr insn 7) 0x1f) logic_cc
     else
       tmp <- load_reg (reg_at insn 8) ;; gen_arm_shift_reg tmp2 shiftop tmp logic_cc) ;;
    gret tmp2.

(** The operation; false is [goto illegal_op], which leaves the temporaries
    as they are. *)
Definition gen_data_op (op1 : Z) (set_cc logic_cc : bool) (rd : nat) (tmp tmp2 : TCGv) : G bool :=
  s <- get_dc ;;
  let logic (g : G unit) :=
    g ;; when logic_cc (gen_logic_CC tmp) ;; store_reg_bx rd tmp ;; gret true in
  let arith (h : tcg_helper) (a b : TCGv) (g : G unit) :=
    (if set_cc then gen_helper h (Some tmp) [T a; T b] else g) ;; store_reg_bx rd tmp ;; gret true in
  let test (g : G unit) := when set_cc g ;; dead_tmp tmp ;; gret true in
  if op1 =? 0 then logic (tcg_gen_and_i32 tmp tmp tmp2)
  else if op1 =? 1 then logic (tcg_gen_xor_i32 tmp tmp tmp2)
  else if op1 =? 2 then
    if set_cc && (rd =? 15)%nat then
      if dc_user s then gret false
      else gen_helper HELPER_sub_cc (Some tmp) [T tmp; T tmp2] ;; gen_exception_return tmp ;; gret true
    else arith HELPER_sub_cc tmp tmp2 (tcg_gen_sub_i32 tmp tmp tmp2)
  else if op1 =? 3 then arith HELPER_sub_cc tmp2 tmp (tcg_gen_sub_i32 tmp tmp2 tmp)
  else if op1 =? 4 then arith HELPER_add_cc tmp tmp2 (tcg_gen_add_i32 tmp tmp tmp2)
  else if op1 =? 5 then arith HELPER_adc_cc tmp tmp2 (gen_add_carry tmp tmp tmp2)
  else if op1 =? 6 then arith HELPER_sbc_cc tmp tmp2 (gen_sub_carry tmp tmp tmp2)
  else if op1 =? 7 then arith HELPER_sbc_cc tmp2 tmp (gen_sub_carry tmp tmp2 tmp)
  else if op1 =? 8 then test (tcg_gen_and_i32 tmp tmp tmp2 ;; gen_logic_CC tmp)
  else if op1 =? 9 then test (tcg_gen_xor_i32 tmp tmp tmp2 ;; gen_logic_CC tmp)
  else if op1 =? 10 then test (gen_helper HELPER_sub_cc (Some tmp) [T tmp; T tmp2])
  else if op1 =? 11 then test (gen_helper HELPER_add_cc (Some tmp) [T tmp; T tmp2])
  else if op1 =? 12 then logic (tcg_gen_or_i32 tmp tmp tmp2)
  else if op1 =? 13 then
    if logic_cc && (rd =? 15)%nat then
      if dc_user s then gret false else gen_exception_return tmp2 ;; gret true
    else when logic_cc (gen_logic_CC tmp2) ;; store_reg_bx rd tmp2 ;; gret true
  else if op1 =? 14 then logic (tcg_gen_bic_i32 tmp tmp tmp2)
  else tcg_gen_not_i32 tmp2 tmp2 ;; when logic_cc (gen_logic_CC tmp2) ;; store_reg_bx rd tmp2 ;; gret true.

Definition disas_data_processing (insn : Z) : G bool :=
  let op1 := Z.land (Z.shiftr insn 21) 0xf in
  let set_cc := Z.land (Z.shiftr insn 20) 1 in
  let logic_cc := ctrue (Z.land (arr table_logic_cc op1) set_cc) in
  tmp2 <- gen_operand2 insn logic_cc ;;
  let two := negb (op1 =? 0xf) && negb (op1 =? 0xd) in
  tmp <- (if two then load_reg (reg_at insn 16) else gret 0%nat) ;;
  ok <- gen_data_op op1 (ctrue set_cc) logic_cc (reg_at insn 12) tmp tmp2 ;;
  when (ok && two) (dead_tmp tmp2) ;;
  gret ok.

(** ** Jumps *)

Definition gen_goto_tb (n dest : Z) : G unit :=
  s <- get_dc ;;
  if page_of (tb_pc s) =? page_of dest then
    tcg_gen_goto_tb n ;; gen_set_pc_im dest ;; tcg_gen_exit_tb (Some n)
  else gen_set_pc_im dest ;; tcg_gen_exit_tb None.

Definition gen_jmp (dest : Z) : G unit :=
  s <- get_dc ;;
  if singlestep_enabled s then gen_bx_im (if dc_thumb s then Z.lor dest 1 else dest)
  else gen_goto_tb 0 dest ;; upd_dc (set_is_jmp DISAS_TB_JUMP).

Definition disas_branch (insn : Z) : G unit :=
  s <- get_dc ;;
  let val := pc s in
  when (ctrue (Z.land insn (bit32 24))) (tmp <- new_tmp ;; tcg_gen_movi_i32 tmp val ;; store_reg 14 tmp) ;;
  let offset := Z.shiftr (s32 (Z.shiftl insn 8)) 8 in
  gen_jmp (u32 (val + (Z.shiftl offset 2 + 4))).

Definition disas_swi : G unit :=
  s <- get_dc ;; gen_set_pc_im (pc s) ;; upd_dc (set_is_jmp DISAS_SWI).

Definition disas_illegal : G unit :=
  s <- get_dc ;;
  gen_set_condexec ;; gen_set_pc_im (u32 (pc s - 4)) ;; gen_exception EXCP_UDEF ;; upd_dc (set_is_jmp DISAS_JUMP).

Definition is_data_processing (insn : Z) : bool :=
  ((Z.land insn 0x0e000000 =? 0) && negb (Z.land insn 0x90 =? 0x90)) || (Z.land insn 0x0e000000 =? bit32 25).

Context (others : unmodelled).

Definition disas_class (insn : Z) : G bool :=
  if Z.land insn 0x0f900000 =? 0x03000000 then other_mov16 others insn
  else if (Z.land insn 0x0f900000 =? 0x01000000) && negb (Z.land insn 0x90 =? 0x90) then other_misc others insn
  else if is_data_processing insn then disas_data_processing insn
  else
    let op1 := Z.land (Z.shiftr insn 24) 0xf in
    if (op1 =? 0xa) || (op1 =? 0xb) then disas_branch insn ;; gret true
    else if op1 =? 0xf then disas_swi ;; gret true
    else other_insn others insn.

Definition disas_arm_insn (insn : Z) : G unit :=
  upd_dc (fun s => set_pc (u32 (pc s + 4)) s) ;;
  let cond := Z.shiftr insn 28 in
  ok <- (if arm_feature env0 ARM_FEATURE_M then gret false
         else if cond =? 0xf then other_uncond others insn
         else
           when (negb (cond =? 0xe))
             (l <- gen_new_label ;;
              upd_dc (fun s => set_cond (condjmp s) l s) ;;
              gen_test_cc (Z.lxor cond 1) l ;;
              upd_dc (fun s => set_cond true (condlabel s) s)) ;;
           disas_class insn) ;;
  when (negb ok) disas_illegal.

(** ** Blocks *)

(** [env->singlestep_enabled] is set by the debugger, [singlestep] by an
    option. *)
Context (ldl_code : Z -> Z) (buffer_full : list tcg_op -> bool) (env_singlestep singlestep : bool) (max_insns : nat).

(** Moving on in an IT block. *)
Definition advance_it (s : DisasContext) : DisasContext :=
  let prev := condexec_mask s in
  let mask := Z.land (Z.shiftl prev 1) 0x1f in
  if prev =? 0 then set_condexec prev (condexec_cond s) prev s
  else set_condexec mask (if mask =? 0 then 0 else Z.lor (Z.land (condexec_cond s) 0xe) (Z.land (Z.shiftr prev 4) 1)) prev s.

(** The loop of [gen_intermediate_code_internal] without breakpoints, traces
    and instruction counting. [n] counts the instructions that may still
    follow. *)
Fixpoint gen_insns (n : nat) (next_page_start : Z) : G unit :=
  match n with
  | O => gret tt
  | S n =>
      s <- get_dc ;;
      if (0xfffffff0 <=? pc s) && arm_feature env0 ARM_FEATURE_M
      then gen_exception EXCP_EXCEPTION_EXIT ;; upd_dc (set_is_jmp DISAS_UPDATE)
      else
      (if ctrue (fld env0 thumb) then disas_thumb_insn others ;; upd_dc advance_it else disas_arm_insn (ldl_code (pc s))) ;;
      (fun g => Ok (tt, mkGen (temps g) 0 (next_tmp g) (next_label g) (dc g) (code g))) ;;
      s <- get_dc ;;
      when (condjmp s && (is_jmp s =? DISAS_NEXT))
        (gen_set_label (condlabel s) ;; upd_dc (fun s => set_cond false (condlabel s) s)) ;;
      s <- get_dc ;;
      full <- (fun g => Ok (buffer_full (code g), g)) ;;
      if (is_jmp s =? DISAS_NEXT) && negb full && negb env_singlestep && negb singlestep && (pc s <? next_page_start)
      then gen_insns n next_page_start else gret tt
  end.

(** The end of a block that is stepped through. *)
Definition gen_end_step : G unit :=
  s <- get_dc ;;
  when (condjmp s)
    (gen_set_condexec ;;
     gen_exception (if is_jmp s =? DISAS_SWI then EXCP_SWI else EXCP_DEBUG) ;;
     gen_set_label (condlabel s)) ;;
  when (condjmp s || (is_jmp s =? DISAS_NEXT))
    (gen_set_pc_im (pc s) ;; upd_dc (fun s => set_cond false (condlabel s) s)) ;;
  gen_set_condexec ;;
  s <- get_dc ;;
  gen_exception (if (is_jmp s =? DISAS_SWI) && negb (condjmp s) then EXCP_SWI else EXCP_DEBUG).

Definition gen_end_block : G unit :=
  gen_set_condexec ;;
  s <- get_dc ;;
  (if is_jmp s =? DISAS_NEXT then gen_goto_tb 1 (pc s)
   else if is_jmp s =? DISAS_TB_JUMP then gret tt
   else if is_jmp s =? DISAS_WFI then gen_helper_wfi others
   else if is_jmp s =? DISAS_SWI then gen_exception EXCP_SWI
   else tcg_gen_exit_tb None) ;;
  when (condjmp s)
    (gen_set_label (condlabel s) ;; gen_set_condexec ;; gen_goto_tb 1 (pc s) ;;
     upd_dc (fun s => set_cond false (condlabel s) s)).

Definition dc_start (pc_start : Z) : DisasContext :=
  let mask := u32 (Z.shiftl (Z.land (fld env0 condexec_bits) 0xf) 1) in
  mkDC pc_start DISAS_NEXT false 0 mask (Z.shiftr (fld env0 condexec_bits) 4) mask pc_start env_singlestep
    (ctrue (fld env0 thumb))
    (if arm_feature env0 ARM_FEATURE_M
     then (fld env0 v7m_exception =? 0) && ctrue (Z.land (fld env0 v7m_control) 1)
     else Z.land (fld env0 uncached_cpsr) 0x1f =? ARM_CPU_MODE_USR).

(** The code and the size of the block. *)
Definition gen_intermediate_code (pc_start : Z) : res (list tcg_op * Z) :=
  let next_page_start := u32 (page_of pc_start + TARGET_PAGE_SIZE) in
  let! (_, g) := (gen_insns max_insns next_page_start ;; if env_singlestep then gen_end_step else gen_end_block)
                   (mkGen (replicate MAX_TEMPS O) 0 1 0 (dc_start pc_start) []) in
  Ok (code g, Z.land (u32 (pc (dc g) - pc_start)) 0xffff).
End Translate.

(** ** The reference processor

    What the modelled instructions do, on unbounded numbers, without code or
    temporaries. It is the pseudocode of the architecture manual but for what
    this front end makes different on purpose or by mistake: which of the
    operations that set the flags and write the program counter return from
    an exception, when they are refused, the alignment of an address written
    to the program counter, and a rotation by a register. The manual's own
    semantics, without these, are in [ArmManual.v]. *)

(** The flags as the state keeps them. *)
Definition flag_view (e : CPUARMState) : bool * bool * bool * bool :=
  (Z.testbit (fld e NF) 31, fld e ZF =? 0, ctrue (fld e CF), Z.testbit (fld e VF) 31).
Definition set_flags (n z c v : bool) (e : CPUARMState) : CPUARMState :=
  setf NF (if n then 0x80000000 else 0) (setf ZF (cbool (negb z)) (setf CF (cbool c) (setf VF (if v then 0x80000000 else 0) e))).

Definition ConditionPassed (cond : Z) (e : CPUARMState) : bool :=
  let '(n, z, c, v) := flag_view e in
  let base := Z.shiftr cond 1 in
  let result :=
    if base =? 0 then z else if base =? 1 then c else if base =? 2 then n else if base =? 3 then v
    else if base =? 4 then c && negb z
    else if base =? 5 then Bool.eqb n v
    else if base =? 6 then Bool.eqb n v && negb z
    else true in
  if Z.testbit cond 0 && negb (cond =? 15) then negb result else result.

Definition RRX_C (x : Z) (carry_in : bool) : Z * bool := (Z.b2z carry_in * 2 ^ 31 + x / 2, Z.testbit x 0).

(** The shift of an immediate amount; 0 encodes 32, or the extended rotate. *)
Definition ref_shift_imm (type imm : Z) (x : Z) (c : bool) : Z * bool :=
  if type =? 0 then LSL_C x imm c
  else if type =? 1 then LSR_C x (if imm =? 0 then 32 else imm) c
  else if type =? 2 then ASR_C x (if imm =? 0 then 32 else imm) c
  else if imm =? 0 then RRX_C x c else ROR_C x imm c.

(** The shift of an amount in a register. A rotation by 32 or more without
    flags has a value in the manual, but [helper_ror] shifts by 32 or more
    places to compute it, which C leaves undefined. *)
Definition ref_shift_reg (type n x : Z) (c flags : bool) : res (Z * bool) :=
  if type =? 0 then Ok (LSL_C x n c)
  else if type =? 1 then Ok (LSR_C x n c)
  else if type =? 2 then Ok (ASR_C x n c)
  else if flags || (n <? 32) then Ok (ROR_C x n c) else Undef.

Definition ARMExpandImm_C (insn : Z) (c : bool) : Z * bool := ROR_C (bits insn 0 8) (2 * bits insn 8 4) c.

(** A register; the program counter is two instructions ahead. *)
Definition ref_reg (r : nat) (pc : Z) (e : CPUARMState) : Z := if (r =? 15)%nat then u32 (pc + 8) else elt e regs r.

Definition ref_carry (e : CPUARMState) : bool := snd (fst (flag_view e)).

Definition ref_operand2 (insn pc : Z) (flags : bool) (e : CPUARMState) : res (Z * bool) :=
  let c := ref_carry e in
  if Z.testbit insn 25 then Ok (ARMExpandImm_C insn c)
  else
    let x := ref_reg (reg_at insn 0) pc e in
    if Z.testbit insn 4 then ref_shift_reg (bits insn 5 2) (ref_reg (reg_at insn 8) pc e mod 256) x c flags
    else Ok (ref_shift_imm (bits insn 5 2) (bits insn 7 5) x c).

(** The result, the carry and the overflow of an operation; [shc] is the
    carry of the shifter. *)
Definition ref_alu (op x y : Z) (shc : bool) (e : CPUARMState) : Z * bool * bool :=
  let '(_, _, c, v) := flag_view e in
  let logic r := (r, shc, v) in
  if (op =? 0) || (op =? 8) then logic (Z.land x y)
  else if (op =? 1) || (op =? 9) then logic (Z.lxor x y)
  else if (op =? 2) || (op =? 10) then AddWithCarry x (not32 y) true
  else if op =? 3 then AddWithCarry y (not32 x) true
  else if (op =? 4) || (op =? 11) then AddWithCarry x y false
  else if op =? 5 then AddWithCarry x y c
  else if op =? 6 then AddWithCarry x (not32 y) c
  else if op =? 7 then AddWithCarry y (not32 x) c
  else if op =? 12 then logic (Z.lor x y)
  else if op =? 13 then logic y
  else if op =? 14 then logic (Z.land x (not32 y))
  else logic (not32 y).

(** What an instruction does: the next one follows, the program counter was
    written, or an exception is taken. *)
Inductive effect := Follows (e : CPUARMState) | Jumps (e : CPUARMState) | Traps (excp : Z) (e : CPUARMState).

(** Writing a result to the program counter; from version 7 on bit 0 selects
    the instruction set. Like the code, and unlike the manual, this leaves bit
    1 of the address in the ARM state. *)
Definition ref_write_pc (v7 : bool) (r : Z) (e : CPUARMState) : CPUARMState :=
  sete regs 15 (Z.land r 0xfffffffe) (if v7 then setf thumb (Z.land r 1) e else e).

(** Writing back the result, the carry and the overflow of an operation. Of
    the operations that set the flags and write the program counter, this
    front end takes SUB and MOV alone for returns from an exception, where the
    manual takes all of them; it refuses them in user mode, after a MOV has
    changed the carry. *)
Definition ref_result (v7 user : bool) (op : Z) (s : bool) (rd : nat) (pc : Z) (shc : bool) (rcv : Z * bool * bool)
    (e : CPUARMState) : res effect :=
  let '(r, c, v) := rcv in
  let e' := if s then set_flags (Z.testbit r 31) (r =? 0) c v e else e in
  if (8 <=? op) && (op <? 12) then Ok (Follows e')
  else if (rd =? 15)%nat then
    if s && ((op =? 2) || (op =? 13)) then
      if user then Ok (Traps EXCP_UDEF (sete regs 15 pc (if op =? 13 then setf CF (cbool shc) e else e)))
      else
        let e := sete regs 15 (Z.land r 0xfffffffe) e in
        let! e := cpsr_write (fld e spsr) 0xffffffff e in Ok (Jumps e)
    else Ok (Jumps (ref_write_pc v7 r e'))
  else Ok (Follows (sete regs rd r e')).

Definition logic_op (op : Z) : bool := ctrue (arr table_logic_cc op).

Definition ref_data (v7 user : bool) (insn pc : Z) (e : CPUARMState) : res effect :=
  let op := bits insn 21 4 in
  let s := Z.testbit insn 20 in
  let! (y, shc) := ref_operand2 insn pc (s && logic_op op) e in
  ref_result v7 user op s (reg_at insn 12) pc shc (ref_alu op (ref_reg (reg_at insn 16) pc e) y shc e) e.

Definition branch_target (insn pc : Z) : Z :=
  let offset := bits insn 0 24 - (if Z.testbit insn 23 then 2 ^ 24 else 0) in u32 (pc + 8 + 4 * offset).

Definition ref_branch (insn pc : Z) (e : CPUARMState) : effect :=
  Jumps (sete regs 15 (branch_target insn pc) (if Z.testbit insn 24 then sete regs 14 (u32 (pc + 4)) e else e)).

Definition ref_exec (v7 user : bool) (insn pc : Z) (e : CPUARMState) : res effect :=
  if is_data_processing insn then ref_data v7 user insn pc e
  else if bits insn 24 4 =? 15 then Ok (Traps EXCP_SWI (sete regs 15 (u32 (pc + 4)) e))
  else Ok (ref_branch insn pc e).

Definition ref_insn (v7 user : bool) (insn pc : Z) (e : CPUARMState) : res effect :=
  if ConditionPassed (Z.shiftr insn 28) e then ref_exec v7 user insn pc e else Ok (Follows e).

(** The instructions of the theorems: those that the front end takes to be
    data processing (not with the program counter as the amount of a shift,
    which is unpredictable), branches or supervisor calls. *)
Definition pc_shift (insn : Z) : bool :=
  negb (Z.testbit insn 25) && Z.testbit insn 4 && (reg_at insn 8 =? 15)%nat.
Definition modelled_insn (insn : Z) : bool :=
  (Z.shiftr insn 28 <? 15) && negb (Z.land insn 0x0f900000 =? 0x03000000)
  && negb ((Z.land insn 0x0f900000 =? 0x01000000) && negb (Z.land insn 0x90 =? 0x90))
  && (is_data_processing insn && negb (pc_shift insn)
      || negb (is_data_processing insn) && ((bits insn 24 4 =? 10) || (bits insn 24 4 =? 11) || (bits insn 24 4 =? 15))).

(** Up to [n] instructions from [pc] on, until one of them jumps or traps. *)
Fixpoint ref_run (v7 user : bool) (ldl_code : Z -> Z) (n : nat) (pc : Z) (e : CPUARMState) : res effect :=
  match n with
  | O => Ok (Jumps (sete regs 15 pc e))
  | S n =>
      let! ef := ref_insn v7 user (ldl_code pc) pc e in
      match ef with Follows e => ref_run v7 user ldl_code n (u32 (pc + 4)) e | _ => Ok ef end
  end.

(** The instructions from [pc] on, as far as they are reached before
    [page_end], are defined. *)
Fixpoint ref_defined (v7 user : bool) (ldl_code : Z -> Z) (page_end : Z) (n : nat) (pc : Z) (e : CPUARMState) : bool :=
  match n with
  | O => true
  | S n =>
      match ref_insn v7 user (ldl_code pc) pc e with
      | Ok (Follows e) => if u32 (pc + 4) <? page_end then ref_defined v7 user ldl_code page_end n (u32 (pc + 4)) e else true
      | Ok _ => true
      | _ => false
      end
  end.

(** ** States that differ in the representation of the flags only *)

Definition cpu_equiv (e1 e2 : CPUARMState) : Prop :=
  (forall f, f ∉ flag_fields -> fld e1 f = fld e2 f) /\ flag_view e1 = flag_view e2 /\
  (forall a, arrs e1 a = arrs e2 a).
#[global] Instance cpu_equiv_equiv : Equivalence cpu_equiv.
Proof.
  split.
  - by intros e.
  - intros e1 e2 (F & V & A). by split; [intros; symmetry; auto|split; [|intros; symmetry; auto]].
  - intros e1 e2 e3 (F1 & V1 & A1) (F2 & V2 & A2). split; [intros f Hf; rewrite F1, F2; done|].
    split; [congruence|intros a; rewrite A1, A2; done].
Qed.
Infix "≈" := cpu_equiv (at level 70, no associativity).

(** The registers, in every bank, and the saved status are words. *)
Definition words_ok (e : CPUARMState) : Prop :=
  in_u32 (fld e spsr) /\ forall a i, a ∈ banked_arrays -> in_u32 (elt e a i).

Definition cpu_ok (e : CPUARMState) : Prop := sizes_ok e /\ flags_wf e /\ words_ok e.

Lemma cpu_ok_regs e : cpu_ok e -> forall r, in_u32 (elt e regs r).
Proof. intros (_ & _ & _ & R) r. apply R. left. Qed.
