(* ===== verification/ArmManual.v ===== *)
(** * The architecture manual's data processing instructions

    The instructions of [ArmTranslate.modelled_insn] as the ARM architecture
    reference manual defines them, written without looking at the code:
    what the manual calls UNPREDICTABLE is [Undef]. [departs] names the
    instructions whose translation does something else, and [man_insn_ref]
    shows that there is no other. *)
From S2P Require Import Prelude GuestMem ArmCpu ArmArith Tcg ArmTranslate.
From stdpp Require Import list.
#[local] Open Scope Z_scope.

Section Manual.
(** The version of the architecture: at least 6, at least 7. *)
Context (v6 v7 : bool).

(** ** Modes *)

Definition user_mode (e : CPUARMState) : bool := cur_mode e =? ARM_CPU_MODE_USR.
(** [CurrentModeHasSPSR]. *)
Definition CurrentModeHasSPSR (e : CPUARMState) : bool := negb (user_mode e || (cur_mode e =? ARM_CPU_MODE_SYS)).

(** ** Operands *)

(** [Shift_C] with the amount of a register, 0 to 255. *)
Definition Shift_C (type n x : Z) (c : bool) : Z * bool :=
  if type =? 0 then LSL_C x n c else if type =? 1 then LSR_C x n c else if type =? 2 then ASR_C x n c else ROR_C x n c.

(** The program counter is no operand and no target of an instruction that
    shifts by a register. *)
Definition shift_by_register (insn : Z) : bool := negb (Z.testbit insn 25) && Z.testbit insn 4.
Definition names_pc (insn : Z) : bool :=
  (reg_at insn 0 =? 15)%nat || (reg_at insn 8 =? 15)%nat || (reg_at insn 12 =? 15)%nat || (reg_at insn 16 =? 15)%nat.

Definition shift_amount (insn pc : Z) (e : CPUARMState) : Z := ref_reg (reg_at insn 8) pc e mod 256.

Definition man_operand2 (insn pc : Z) (e : CPUARMState) : res (Z * bool) :=
  let c := ref_carry e in
  if Z.testbit insn 25 then Ok (ARMExpandImm_C insn c)
  else
    let x := ref_reg (reg_at insn 0) pc e in
    if Z.testbit insn 4 then if names_pc insn then Undef else Ok (Shift_C (bits insn 5 2) (shift_amount insn pc e) x c)
    else Ok (ref_shift_imm (bits insn 5 2) (bits insn 7 5) x c).

(** ** Writing the program counter *)

(** [BranchWritePC], in the ARM or the Thumb state: the address is aligned,
    and before version 6 it must have been. *)
Definition BranchWritePC (t : bool) (address : Z) : res Z :=
  if t then Ok (Z.land address 0xfffffffe)
  else if negb v6 && negb (Z.land address 3 =? 0) then Undef else Ok (Z.land address 0xfffffffc).

(** [ALUWritePC] in the ARM state: from version 7 on as [BXWritePC]. *)
Definition ALUWritePC (address : Z) (e : CPUARMState) : res CPUARMState :=
  if v7 then
    if Z.testbit address 0 then Ok (sete regs 15 (Z.land address 0xfffffffe) (setf thumb 1 e))
    else if Z.testbit address 1 then Undef else Ok (sete regs 15 (Z.land address 0xfffffffc) (setf thumb 0 e))
  else let! a := BranchWritePC false address in Ok (sete regs 15 a e).

(** The exception return of SUBS PC, LR and all its relatives: the status is
    that of the SPSR and decides the state that is branched to. *)
Definition exception_return_write (address : Z) (e : CPUARMState) : res CPUARMState :=
  if CurrentModeHasSPSR e then
    let! a := BranchWritePC (Z.testbit (fld e spsr) 5) address in
    cpsr_write (fld e spsr) 0xffffffff (sete regs 15 a e)
  else Undef.

(** ** Instructions *)

Definition is_test (op : Z) : bool := (8 <=? op) && (op <? 12).

Definition man_result (op : Z) (s : bool) (rd : nat) (rcv : Z * bool * bool) (e : CPUARMState) : res effect :=
  let '(r, c, v) := rcv in
  let flags e := if s then set_flags (Z.testbit r 31) (r =? 0) c v e else e in
  if is_test op then Ok (Follows (flags e))
  else if (rd =? 15)%nat then
    let! e := if s then exception_return_write r e else ALUWritePC r e in Ok (Jumps e)
  else Ok (Follows (sete regs rd r (flags e))).

Definition man_alu (insn pc : Z) (e : CPUARMState) : res (Z * bool * bool) :=
  let! (y, shc) := man_operand2 insn pc e in
  Ok (ref_alu (bits insn 21 4) (ref_reg (reg_at insn 16) pc e) y shc e).

Definition man_data (insn pc : Z) (e : CPUARMState) : res effect :=
  let! rcv := man_alu insn pc e in
  man_result (bits insn 21 4) (Z.testbit insn 20) (reg_at insn 12) rcv e.

(** Data processing, the supervisor call, or a branch. *)
Definition man_insn (insn pc : Z) (e : CPUARMState) : res effect :=
  if ConditionPassed (Z.shiftr insn 28) e then
    if is_data_processing insn then man_data insn pc e
    else if bits insn 24 4 =? 15 then Ok (Traps EXCP_SWI (sete regs 15 (u32 (pc + 4)) e))
    else Ok (ref_branch insn pc e)
  else Ok (Follows e).

Fixpoint man_run (ldl_code : Z -> Z) (n : nat) (pc : Z) (e : CPUARMState) : res effect :=
  match n with
  | O => Ok (Jumps (sete regs 15 pc e))
  | S n =>
      let! ef := man_insn (ldl_code pc) pc e in
      match ef with Follows e => man_run ldl_code n (u32 (pc + 4)) e | _ => Ok ef end
  end.

(** ** Where the front end departs from the manual *)

(** A rotation by a register of 32 or more, without flags
    ([helper_ror] of [op_helper.c]). *)
Definition departs_shift (insn pc : Z) (e : CPUARMState) : bool :=
  shift_by_register insn && (bits insn 5 2 =? 3) && (32 <=? shift_amount insn pc e)
  && negb (Z.testbit insn 20 && logic_op (bits insn 21 4)).

(** A return from an exception that is neither SUBS nor MOVS, and an address
    with bit 1 set, of which the code clears bit 0 only. *)
Definition departs_pc (insn r : Z) (e : CPUARMState) : bool :=
  let op := bits insn 21 4 in
  let s := Z.testbit insn 20 in
  negb (is_test op) && (reg_at insn 12 =? 15)%nat
  && (s && negb ((op =? 2) || (op =? 13)) || (if s then negb (Z.testbit (fld e spsr) 5) else negb v7) && Z.testbit r 1).

Definition departs (insn pc : Z) (e : CPUARMState) : bool :=
  ConditionPassed (Z.shiftr insn 28) e && is_data_processing insn
  && (departs_shift insn pc e || match man_alu insn pc e with Ok (r, _, _) => departs_pc insn r e | _ => false end).

(** The instructions from [pc] on, as far as they are reached before
    [page_end], have a meaning in the manual and do not depart from it. *)
Fixpoint man_defined (ldl_code : Z -> Z) (page_end : Z) (n : nat) (pc : Z) (e : CPUARMState) : bool :=
  match n with
  | O => true
  | S n =>
      negb (departs (ldl_code pc) pc e) &&
      match man_insn (ldl_code pc) pc e with
      | Ok (Follows e) => if u32 (pc + 4) <? page_end then man_defined ldl_code page_end n (u32 (pc + 4)) e else true
      | Ok _ => true
      | _ => false
      end
  end.

(** ** Agreement *)

Lemma land_bits r : Z.land r 0xfffffffe = Z.lor (Z.land r 0xfffffffc) (Z.land r 2).
Proof. by rewrite <- Z.land_lor_distr_r. Qed.

Lemma land_bit1 r : Z.testbit r 1 = false -> Z.land r 0xfffffffe = Z.land r 0xfffffffc.
Proof.
  intros H. rewrite land_bits. assert (Z.land r 2 = 0) as ->; [|apply Z.lor_0_r].
  apply Z.bits_inj'. intros n Hn. rewrite Z.land_spec, Z.bits_0. change 2 with (2 ^ 1). rewrite Z.pow2_bits_eqb by done.
  destruct (Z.eqb_spec 1 n) as [<-|]; [by rewrite H|apply andb_false_r].
Qed.

Lemma BranchWritePC_code t r a :
  BranchWritePC t r = Ok a -> negb t && Z.testbit r 1 = false -> a = Z.land r 0xfffffffe.
Proof.
  unfold BranchWritePC. destruct t; [by intros [= <-]|]. cbn. destruct (_ && _); [done|]. intros [= <-] H. by rewrite land_bit1.
Qed.

Lemma Shift_C_code type n x c (flags : bool) :
  0 <= type < 4 -> (type =? 3) && (32 <=? n) && negb flags = false -> ref_shift_reg type n x c flags = Ok (Shift_C type n x c).
Proof.
  intros Ht H. unfold Shift_C, ref_shift_reg. destruct (Z.eqb_spec type 0); [done|]. destruct (Z.eqb_spec type 1); [done|].
  destruct (Z.eqb_spec type 2); [done|]. rewrite (proj2 (Z.eqb_eq type 3)) in H by lia. cbn [andb] in H. rewrite Z.ltb_antisym.
  by destruct flags, (32 <=? n).
Qed.

Lemma operand2_code insn pc e y :
  man_operand2 insn pc e = Ok y -> departs_shift insn pc e = false ->
  ref_operand2 insn pc (Z.testbit insn 20 && logic_op (bits insn 21 4)) e = Ok y.
Proof.
  unfold man_operand2, ref_operand2, departs_shift, shift_by_register. destruct (Z.testbit insn 25); [done|].
  destruct (Z.testbit insn 4); [|done]. destruct (names_pc insn); [done|]. cbn [negb andb]. intros [= <-] H.
  rewrite Shift_C_code; [done|apply (bits_range _ _ 2); lia|exact H].
Qed.

Lemma exception_return_code r e e' :
  exception_return_write r e = Ok e' -> negb (Z.testbit (fld e spsr) 5) && Z.testbit r 1 = false ->
  user_mode e = false /\ cpsr_write (fld e spsr) 0xffffffff (sete regs 15 (Z.land r 0xfffffffe) e) = Ok e'.
Proof.
  unfold exception_return_write, CurrentModeHasSPSR. destruct (user_mode e); [done|]. destruct (negb _); [|done].
  intros H Hd. split; [done|]. apply rbind_Ok in H as (a & Ha & H). by rewrite (BranchWritePC_code _ _ _ Ha Hd) in H.
Qed.

Lemma ALUWritePC_code r e e' : ALUWritePC r e = Ok e' -> negb v7 && Z.testbit r 1 = false -> ref_write_pc v7 r e = e'.
Proof.
  unfold ALUWritePC, ref_write_pc. destruct v7.
  - intros H _. assert (Hb : Z.land r 1 = Z.b2z (Z.testbit r 0)) by (change 1 with (Z.ones 1) at 1; rewrite Z.land_ones, Z.bit0_mod by lia; done).
    rewrite Hb. destruct (Z.testbit r 0); [by injection H as <-|]. destruct (Z.testbit r 1) eqn:E; [done|].
    injection H as <-. by rewrite land_bit1.
  - intros H Hd. apply rbind_Ok in H as (a & Ha & [= <-]). by rewrite (BranchWritePC_code _ _ _ Ha Hd).
Qed.

Lemma man_result_code insn pc rcv shc e ef :
  let op := bits insn 21 4 in
  let s := Z.testbit insn 20 in
  man_result op s (reg_at insn 12) rcv e = Ok ef -> departs_pc insn (fst (fst rcv)) e = false ->
  ref_result v7 (user_mode e) op s (reg_at insn 12) pc shc rcv e = Ok ef.
Proof.
  intros op s. destruct rcv as [[r c] v]. unfold man_result, departs_pc, ref_result, is_test. cbn [fst]. fold op s.
  destruct ((8 <=? op) && (op <? 12)); [done|]. destruct (reg_at insn 12 =? 15)%nat; [|done]. cbn [negb andb].
  intros H Hd. apply orb_false_iff in Hd as [H1 H2]. apply rbind_Ok in H as (e' & He & [= <-]). destruct s; cbn [andb] in *.
  - apply negb_false_iff in H1. rewrite H1. destruct (exception_return_code _ _ _ He H2) as [-> E]. cbn zeta.
    change (fld (sete _ _ _ e) spsr) with (fld e spsr). by rewrite E.
  - by rewrite (ALUWritePC_code _ _ _ He H2).
Qed.

(** Where the manual defines an instruction and it does not depart, the
    reference processor does what the manual says. *)
Lemma man_insn_ref insn pc e ef :
  man_insn insn pc e = Ok ef -> departs insn pc e = false -> ref_insn v7 (user_mode e) insn pc e = Ok ef.
Proof.
  unfold man_insn, departs, ref_insn, ref_exec. destruct (ConditionPassed _ _); [|done]. cbn [andb].
  destruct (is_data_processing insn); [|done]. cbn [andb]. intros H Hd. unfold man_data in H. apply rbind_Ok in H as (rcv & Hr & H).
  rewrite Hr in Hd. apply orb_false_iff in Hd as [Hs Hd]. destruct rcv as [[r c] v]. unfold man_alu in Hr.
  apply rbind_Ok in Hr as ([y shc] & Hy & [= Hr]). unfold ref_data. rewrite (operand2_code _ _ _ _ Hy Hs). cbn [rbind]. rewrite Hr.
  by apply man_result_code.
Qed.
End Manual.
