(* ===== verification/ArmData.v ===== *)
(** * Data processing instructions, translated

    The code that [target-arm/translate.c] emits for a data processing
    instruction, with every form of its second operand, does to the processor
    what [ref_data] says, up to the representation of the
    condition flags. *)
From S2P Require Import Prelude GuestMem ArmCpu ArmArith Tcg ArmTranslate.
From stdpp Require Import list sets.
#[local] Open Scope Z_scope.
#[local] Open Scope gen_scope.

(** ** The shifter *)

(** The temporaries in use keep their values. *)
Definition keeps (L : list TCGv) (m m' : machine) : Prop := forall t, t ∈ L -> tmp m' t = tmp m t.

Lemma view_eta v : mkView (v_live v) (v_dc v) (v_label v) = v.
Proof. by destruct v. Qed.

Lemma snoc_perm (L : list TCGv) t : L ++ [t] ≡ₚ t :: L.
Proof. by rewrite Permutation_app_comm. Qed.

Lemma only_carry_set c e : only_carry e (setf CF c e).
Proof. split; [|done]. intros f Hf. cbn. by rewrite decide_False. Qed.

(** Reading temporaries after updates, when they are known to differ. *)
Ltac tmp_eq := repeat first [rewrite tmp_set_env | rewrite tmp_set_eq | rewrite tmp_set_ne by congruence]; eassumption || reflexivity.

Lemma not_in_snoc (L : list TCGv) t u : t ∉ L -> u ∈ L -> u <> t.
Proof. intros H1 H2 ->. done. Qed.

Lemma land_1_top x : in_u32 x -> Z.shiftr x 31 = cbool (Z.testbit x 31).
Proof.
  intros Hx. rewrite sign32, Z.shiftr_div_pow2 by (done || lia). change (2 ^ 31) with 2147483648.
  destruct (Z.leb_spec 2147483648 x).
  - cbn [cbool]. symmetry. apply Z.div_unique with (x - 2147483648); lia.
  - rewrite Z.div_small by lia. done.
Qed.

Lemma sim_shifter_out var n x v m (Q : unit -> view -> machine -> Prop) :
  tmp m var = Some x -> in_u32 x -> var ∈ v_live v -> (length (v_live v) < MAX_TEMPS)%nat -> 0 <= n < 32 ->
  (forall m', keeps (v_live v) m m' -> env m' = setf CF (cbool (Z.testbit x n)) (env m) -> Q tt v m') ->
  sim (shifter_out_im var n) v m Q.
Proof.
  intros Ex Hx Hv Hl Hn HQ. unfold shifter_out_im. apply sim_bind, sim_new_tmp; [done|]. intros t Ht.
  pose proof (not_in_snoc _ _ _ Ht Hv) as Hne.
  assert (Hend : forall m', keeps (v_live v) m m' -> env m' = env m -> tmp m' t = Some (cbool (Z.testbit x n)) ->
    sim (gbind (gen_set_CF t) (fun _ => dead_tmp t)) (mkView (v_live v ++ [t]) (v_dc v) (v_label v)) m' Q).
  { intros m' Hk He Et. apply sim_bind. eapply sim_st; [exact Et|]. eapply sim_dead_tmp; [cbn; apply snoc_perm|].
    cbn [v_dc v_label]. rewrite view_eta. apply HQ; [exact Hk|]. cbn. by rewrite He. }
  assert (Hkeep : forall y, keeps (v_live v) m (set_tmp t y m)).
  { intros y u Hu. apply tmp_set_ne. intros ->. done. }
  apply sim_bind. destruct (Z.eqb_spec n 0) as [->|Hn0].
  - eapply sim_andi; [exact Ex|done|done|]. apply Hend; [apply Hkeep|done|]. rewrite tmp_set_eq.
    change (u32 1) with 1. by rewrite land_1.
  - apply sim_bind. eapply sim_shri; [exact Ex|lia|]. apply sim_when.
    + intros Hn31. eapply sim_andi; [apply tmp_set_eq|done|done|]. apply Hend; [|done|].
      * intros u Hu. rewrite !tmp_set_ne by (intros ->; done). done.
      * rewrite tmp_set_eq. change (u32 1) with 1. by rewrite land_1_bit by lia.
    + intros Hn31. apply negb_false_iff, Z.eqb_eq in Hn31 as ->. apply Hend; [apply Hkeep|done|].
      rewrite tmp_set_eq. by rewrite land_1_top.
Qed.

(** The carry that the shifter leaves, when flags are wanted. *)
Definition shifter_carry (flags c : bool) (e e' : CPUARMState) : Prop :=
  if flags then only_carry e e' /\ fld e' CF = cbool c else e' = e.

Lemma shifter_carry_same flags e : flags_wf e -> shifter_carry flags (ref_carry e) e e.
Proof.
  intros (_ & _ & HC & _). destruct flags; cbn; [|done]. split; [by split|]. unfold ref_carry. cbn.
  assert (fld e CF = 0 \/ fld e CF = 1) as [->| ->] by lia; done.
Qed.

Section Shift.
Context (t : TCGv) (d : DisasContext) (lab : nat) (x : Z) (m : machine) (Q : unit -> view -> machine -> Prop).
Context (Ex : tmp m t = Some x) (Hx : in_u32 x) (Hwf : flags_wf (env m)).

(** What is left to show after the shift: the temporary has the result. *)
Definition shifted (flags : bool) (rc : Z * bool) : Prop :=
  forall m', tmp m' t = Some (fst rc) -> shifter_carry flags (snd rc) (env m) (env m') -> Q tt (mkView [t] d lab) m'.

Lemma sim_shifter_when flags n (g : G unit) r :
  0 <= n < 32 ->
  (forall m', tmp m' t = Some x -> shifter_carry flags (Z.testbit x n) (env m) (env m') -> sim g (mkView [t] d lab) m' r) ->
  sim (gbind (when flags (shifter_out_im t n)) (fun _ => g)) (mkView [t] d lab) m r.
Proof.
  intros Hn HQ. apply sim_bind, sim_when; intros ->.
  - eapply sim_shifter_out; [exact Ex|exact Hx|cbn; set_solver|cbn; unfold MAX_TEMPS; lia|exact Hn|].
    intros m' Hk He. apply HQ; [rewrite Hk; [exact Ex|cbn; set_solver]|]. rewrite He.
    split; [apply only_carry_set|]. cbn. by rewrite decide_True.
  - by apply HQ.
Qed.

Lemma sim_shift_im op n flags :
  0 <= op < 4 -> 0 <= n < 32 -> shifted flags (ref_shift_imm op n x (ref_carry (env m))) ->
  sim (gen_arm_shift_im t op n flags) (mkView [t] d lab) m Q.
Proof.
  intros Hop Hn HQ. unfold gen_arm_shift_im, ref_shift_imm in *.
  destruct (Z.eqb_spec op 0); [|destruct (Z.eqb_spec op 1); [|destruct (Z.eqb_spec op 2)]].
  - unfold LSL_C in HQ. destruct (Z.eqb_spec n 0); cbn [negb].
    + apply sim_ret, HQ; [exact Ex|]. by apply shifter_carry_same.
    + apply sim_shifter_when; [lia|]. intros m' E' Hc. eapply sim_shli; [exact E'|lia|]. apply HQ.
      * cbn [fst]. rewrite tmp_set_eq, Z.shiftl_mul_pow2 by lia. done.
      * cbn [snd]. rewrite Z.mul_pow2_bits by lia. done.
  - unfold LSR_C in HQ. destruct (Z.eqb_spec n 0) as [->|Hn0]; cbn [Z.eqb] in HQ.
    + apply sim_bind, sim_when; intros ->.
      * apply sim_bind. eapply sim_shri; [exact Ex|lia|]. eapply sim_st; [apply tmp_set_eq|].
        apply sim_movi, HQ; [rewrite tmp_set_eq; cbn [fst]; rewrite Z.div_small by (simpl; lia); done|].
        cbn [snd]. rewrite land_1_top by done. split; [apply only_carry_set|]. cbn. by rewrite decide_True.
      * apply sim_movi, HQ; [rewrite tmp_set_eq; cbn [fst]; rewrite Z.div_small by (simpl; lia); done|done].
    + rewrite (proj2 (Z.eqb_neq n 0)) in HQ by done.
      apply sim_shifter_when; [lia|]. intros m' E' Hc. eapply sim_shri; [exact E'|lia|]. apply HQ; [|done].
      cbn [fst]. rewrite tmp_set_eq, Z.shiftr_div_pow2 by lia. done.
  - unfold ASR_C in HQ. cbn zeta. set (k := if n =? 0 then 32 else n) in *.
    assert (Hk : 0 < k <= 32) by (unfold k; destruct (Z.eqb_spec n 0); lia).
    rewrite (proj2 (Z.eqb_neq k 0)) in HQ by lia.
    apply sim_shifter_when; [lia|]. intros m' E' Hc. eapply sim_sari; [exact E'|destruct (Z.eqb_spec k 32); lia|].
    apply HQ; cbn [fst snd].
    + rewrite tmp_set_eq, Z.shiftr_div_pow2 by (destruct (Z.eqb_spec k 32); lia).
      destruct (Z.eqb_spec k 32) as [->|]; [|done]. by rewrite (s32_div_high x 32) by lia.
    + rewrite testbit_s32, Z.min_l by lia. exact Hc.
  - destruct (Z.eqb_spec n 0) as [->|Hn0]; cbn [negb].
    + unfold RRX_C in HQ. unfold load_cpu_field. apply sim_bind, sim_bind, sim_new_tmp; [cbn; unfold MAX_TEMPS; lia|].
      intros u Hu. cbn [v_live v_dc v_label app]. assert (Hut : t <> u) by (cbn in Hu; set_solver).
      apply sim_bind, sim_ld, sim_ret. cbn [read_loc].
      assert (Hend : forall m', tmp m' t = Some x -> tmp m' u = Some (fld (env m) CF) ->
        shifter_carry flags (Z.testbit x 0) (env m) (env m') ->
        sim (tcg_gen_shri_i32 t t 1 ;; tcg_gen_shli_i32 u u 31 ;; tcg_gen_or_i32 t t u ;; dead_tmp u)
          (mkView [t; u] d lab) m' Q).
      { intros m' Et Eu Hc. apply sim_bind. eapply sim_shri; [exact Et|lia|].
        apply sim_bind. eapply sim_shli; [rewrite tmp_set_ne by congruence; exact Eu|lia|].
        apply sim_bind. eapply sim_or; [rewrite tmp_set_ne by congruence; apply tmp_set_eq|apply tmp_set_eq|done|].
        eapply (sim_dead_tmp u [t]); [apply Permutation_swap|]. apply HQ; [|exact Hc].
        rewrite tmp_set_eq. cbn [fst]. f_equal. destruct Hwf as (_ & _ & HC & _).
        assert (Hh : Z.shiftr x 1 = x / 2) by (rewrite Z.shiftr_div_pow2 by lia; done). rewrite Hh.
        assert (Hq : 0 <= x / 2 < 2 ^ 31) by (split; [apply Z.div_pos; lia|apply Z.div_lt_upper_bound; simpl; lia]).
        unfold ref_carry. cbn [flag_view fst snd].
        assert (fld (env m) CF = 0 \/ fld (env m) CF = 1) as [->| ->] by lia.
        - change (u32 (Z.shiftl 0 31)) with 0. rewrite Z.lor_0_r. done.
        - change (u32 (Z.shiftl 1 31)) with (2 ^ 31). rewrite Z.lor_comm, (lor_low 31) by (done || lia). done. }
      assert (Ex' : tmp (set_tmp u (fld (env m) CF) m) t = Some x) by (by rewrite tmp_set_ne).
      apply sim_bind, sim_when; intros ->.
      * eapply sim_shifter_out; [exact Ex'|exact Hx|cbn; set_solver|cbn; unfold MAX_TEMPS; lia|lia|].
        intros m' Hk He. apply Hend; [rewrite Hk by (cbn; set_solver); exact Ex'
          |rewrite Hk by (cbn; set_solver); apply tmp_set_eq|]. rewrite He.
        split; [apply only_carry_set|]. cbn. by rewrite decide_True.
      * apply Hend; [exact Ex'|apply tmp_set_eq|done].
    + unfold ROR_C in HQ. rewrite (proj2 (Z.eqb_neq n 0)) in HQ by done.
      apply sim_shifter_when; [lia|]. intros m' E' Hc. unfold tcg_gen_rori_i32. rewrite (proj2 (Z.eqb_neq n 0)) by done.
      apply sim_bind, sim_new_tmp; [cbn; unfold MAX_TEMPS; lia|]. intros u Hu. cbn [v_live v_dc v_label app].
      assert (Hut : t <> u) by (cbn in Hu; set_solver).
      apply sim_bind. eapply sim_shri; [exact E'|lia|].
      apply sim_bind. eapply sim_shli; [rewrite tmp_set_ne by congruence; exact E'|lia|].
      apply sim_bind. eapply sim_or; [apply tmp_set_eq|rewrite tmp_set_ne by congruence; apply tmp_set_eq|done|].
      eapply (sim_dead_tmp u [t]); [apply Permutation_swap|]. apply HQ; cbn [fst snd].
      * rewrite tmp_set_eq, Z.lor_comm, ror_bits by lia. unfold ROR. rewrite (Z.mod_small n 32) by lia. done.
      * unfold ROR. rewrite (Z.mod_small n 32), <- ror_bits by lia.
        rewrite Z.lor_spec, Z.shiftr_spec, testbit_uwrap, testbit_shiftl by lia.
        rewrite (testbit_bound 32 x (31 + n)) by lia. change (31 <? 32) with true. cbn [orb andb].
        replace (31 - (32 - n)) with (n - 1) by lia. exact Hc.
Qed.
End Shift.

(** ** The second operand *)

Lemma sim_load_reg r p v m (Q : TCGv -> view -> machine -> Prop) :
  pc (v_dc v) = u32 (p + 4) -> dc_thumb (v_dc v) = false -> (length (v_live v) < MAX_TEMPS)%nat ->
  (forall t, t ∉ v_live v ->
     Q t (mkView (v_live v ++ [t]) (v_dc v) (v_label v)) (set_tmp t (ref_reg r p (env m)) m)) ->
  sim (load_reg r) v m Q.
Proof.
  intros Hp Ht Hl HQ. unfold load_reg, load_reg_var. apply sim_bind, sim_new_tmp; [done|]. intros t Hn.
  apply sim_bind, sim_bind, sim_get_dc. cbn [v_dc]. rewrite Hp, Ht. specialize (HQ t Hn). unfold ref_reg in HQ.
  destruct (r =? 15)%nat.
  - apply sim_movi, sim_ret. rewrite uwrap_idem, uwrap_add_l by lia. replace (p + 4 + 4) with (p + 8) by lia. exact HQ.
  - apply sim_ld, sim_ret. exact HQ.
Qed.


Lemma in_u32_ref_reg r p e : (forall r, in_u32 (elt e regs r)) -> in_u32 (ref_reg r p e).
Proof. intros H. unfold ref_reg. destruct (r =? 15)%nat; [apply in_u32_u32|apply H]. Qed.

Lemma only_carry_regs e e' r : only_carry e e' -> elt e' regs r = elt e regs r.
Proof. intros [_ A]. unfold elt. by rewrite A. Qed.

Lemma read_args2 m a b x y : tmp m a = Some x -> tmp m b = Some y -> read_args m [T a; T b] = Ok [x; y].
Proof. intros Ea Eb. cbn. unfold read_tmp. by rewrite Ea, Eb. Qed.

Lemma shifts_as_carry out rc e : shifts_as out rc e -> flags_wf e ->
  fst out = fst rc /\ shifter_carry true (snd rc) e (snd out).
Proof.
  intros (E & C & W & O) Hwf. split; [done|]. split; [done|]. rewrite carry_field in C by done.
  destruct W as (_ & _ & HC & _). rewrite <- C. assert (fld (snd out) CF = 0 \/ fld (snd out) CF = 1) as [->| ->] by lia; done.
Qed.

Section Operand.
Context (p : Z) (d : DisasContext) (lab : nat) (m : machine) (Q : TCGv -> view -> machine -> Prop).
Context (Hp : pc d = u32 (p + 4)) (Ht : dc_thumb d = false) (Hok : cpu_ok (env m)).

Definition operand_ready (flags : bool) (rc : Z * bool) : Prop :=
  forall t m', tmp m' t = Some (fst rc) -> shifter_carry flags (snd rc) (env m) (env m') -> Q t (mkView [t] d lab) m'.

Lemma ref_carry_carry e : flags_wf e -> carry e = ref_carry e.
Proof. intros H. rewrite carry_field by done. done. Qed.

(** The helper that [gen_arm_shift_reg] calls. *)
Lemma shift_helper (op x y : Z) (flags : bool) (e : CPUARMState) rc :
  0 <= op < 4 -> in_u32 x -> flags_wf e -> ref_shift_reg op (y mod 256) x (ref_carry e) flags = Ok rc ->
  exists e', call_helper
    (if flags then
       if op =? 0 then HELPER_shl_cc else if op =? 1 then HELPER_shr_cc else if op =? 2 then HELPER_sar_cc else HELPER_ror_cc
     else if op =? 0 then HELPER_shl else if op =? 1 then HELPER_shr else if op =? 2 then HELPER_sar else HELPER_ror)
    [x; y] e = Ok (Returns (fst rc) e') /\ shifter_carry flags (snd rc) e e'.
Proof.
  intros Hop Hx Hwf. unfold ref_shift_reg. rewrite <- ref_carry_carry by done.
  assert (Hwith : forall out r, shifts_as out r e -> r = rc -> true = flags ->
    exists e', Ok (Returns (fst out) (snd out)) = Ok (Returns (fst rc) e') /\ shifter_carry flags (snd rc) e e').
  { intros out r Hs <- <-. destruct (shifts_as_carry out r e Hs Hwf) as [<- Hc]. by exists (snd out). }
  assert (Hwithout : forall z, z = fst rc -> false = flags ->
    exists e', Ok (Returns z e) = Ok (Returns (fst rc) e') /\ shifter_carry flags (snd rc) e e').
  { intros z -> <-. by exists e. }
  assert (Hfst : forall f : Z -> Z -> bool -> Z * bool, (f = LSL_C \/ f = LSR_C \/ f = ASR_C \/ f = ROR_C) ->
    forall n c c', fst (f x n c) = fst (f x n c')).
  { intros f [->|[->|[->| ->]]] n c c'; unfold LSL_C, LSR_C, ASR_C, ROR_C; by destruct (n =? 0). }
  destruct (Z.eqb_spec op 0); [|destruct (Z.eqb_spec op 1); [|destruct (Z.eqb_spec op 2)]]; destruct flags; cbn [call_helper orb].
  - intros [= <-]. eapply Hwith; [by apply shl_cc_spec|done|done].
  - intros [= <-]. apply Hwithout; [|done]. rewrite helper_shl_spec by done. apply Hfst. auto.
  - intros [= <-]. eapply Hwith; [by apply shr_cc_spec|done|done].
  - intros [= <-]. apply Hwithout; [|done]. rewrite helper_shr_spec by done. apply Hfst. auto.
  - intros [= <-]. eapply Hwith; [by apply sar_cc_spec|done|done].
  - intros [= <-]. apply Hwithout; [|done]. rewrite helper_sar_spec by done. apply Hfst. auto.
  - intros [= <-]. eapply Hwith; [by apply ror_cc_spec|done|done].
  - rewrite helper_ror_spec by done. destruct (y mod 256 <? 32); [|done]. intros [= <-]. cbn [rbind].
    apply Hwithout; [|done]. apply Hfst. auto.
Qed.

Lemma sim_operand2 insn flags rc :
  ref_operand2 insn p flags (env m) = Ok rc -> operand_ready flags rc ->
  sim (gen_operand2 insn flags) (mkView [] d lab) m Q.
Proof.
  intros Href HQ. pose proof (cpu_ok_regs _ Hok) as Hr. destruct Hok as (Hs & Hwf & _). unfold gen_operand2, ref_operand2 in *.
  rewrite (land_bit32_ctrue insn 25), (land_bit32_ctrue insn 4) by lia. destruct (Z.testbit insn 25).
  - injection Href as <-. unfold ARMExpandImm_C in HQ.
    change (Z.land insn 255) with (bits insn 0 8). change (Z.land (Z.shiftr insn 8) 15) with (bits insn 8 4).
    set (b := bits insn 0 8) in *. set (r := bits insn 8 4) in *.
    assert (Hb : 0 <= b < 256) by exact (bits_range insn 0 8 ltac:(lia)).
    assert (Hrr : 0 <= r < 16) by exact (bits_range insn 8 4 ltac:(lia)).
    rewrite (Z.mul_comm r 2). unfold ROR_C in HQ. unfold ctrue. set (k := 2 * r) in *.
    apply sim_bind, sim_new_tmp; [cbn; unfold MAX_TEMPS; lia|]. intros t Hn. cbn [v_live v_dc v_label app].
    destruct (Z.eqb_spec k 0) as [E|E]; cbn [negb].
    + apply sim_bind, sim_movi, sim_bind. rewrite andb_false_r. apply sim_ret, sim_ret.
      apply HQ; [by rewrite tmp_set_eq, uwrap_small by (simpl; lia)|]. by apply shifter_carry_same.
    + assert (Hval : Z.lor (Z.shiftr b k) (u32 (Z.shiftl b (32 - k))) = ROR b k).
      { rewrite ror_bits by lia. unfold ROR. rewrite (Z.mod_small k 32) by lia. done. }
      rewrite Hval. assert (Hu : in_u32 (ROR b k)) by apply in_u32_u32.
      apply sim_bind, sim_movi. rewrite (uwrap_small 32 _ Hu), andb_true_r.
      apply sim_bind, sim_when; intros ->.
      * unfold gen_set_CF_bit31. apply sim_bind, sim_new_tmp; [cbn; unfold MAX_TEMPS; lia|]. intros u Hu'.
        cbn [v_live v_dc v_label app] in *. assert (t <> u) by set_solver.
        apply sim_bind. eapply sim_shri; [apply tmp_set_eq|lia|]. apply sim_bind. eapply sim_st; [apply tmp_set_eq|].
        eapply (sim_dead_tmp u [t]); [apply Permutation_swap|]. apply sim_ret. apply HQ; cbn [fst snd].
        -- rewrite tmp_set_env, tmp_set_ne by congruence. apply tmp_set_eq.
        -- rewrite land_1_top by done. split; [apply only_carry_set|]. cbn. by rewrite decide_True.
      * apply sim_ret, HQ; [apply tmp_set_eq|done].
  - pose proof (in_u32_ref_reg (reg_at insn 0) p (env m) Hr) as Hx. set (x := ref_reg (reg_at insn 0) p (env m)) in *.
    assert (Hop : 0 <= bits insn 5 2 < 4) by exact (bits_range insn 5 2 ltac:(lia)).
    apply sim_bind, (sim_load_reg _ p); [done..|cbn; unfold MAX_TEMPS; lia|]. intros t Hn. cbn [v_live v_dc v_label app].
    fold x. apply sim_bind. destruct (Z.testbit insn 4); cbn [negb].
    + apply sim_bind, (sim_load_reg _ p); [done..|cbn; unfold MAX_TEMPS; lia|]. intros u Hu. cbn [v_live v_dc v_label app] in *.
      assert (t <> u) by set_solver. change (env (set_tmp t x m)) with (env m). unfold gen_arm_shift_reg.
      destruct (shift_helper _ x (ref_reg (reg_at insn 8) p (env m)) flags (env m) rc Hop Hx Hwf Href) as (e' & Ee & Hc).
      apply sim_bind. eapply sim_helper; [|exact Ee|].
      { apply read_args2; [rewrite tmp_set_ne by congruence|]; apply tmp_set_eq. }
      eapply (sim_dead_tmp u [t]); [apply Permutation_swap|]. apply sim_ret, HQ; [apply tmp_set_eq|exact Hc].
    + injection Href as <-. eapply sim_shift_im; [apply tmp_set_eq|exact Hx|exact Hwf|exact Hop| |].
      { exact (bits_range insn 7 5 ltac:(lia)). }
      intros m' Et Hc. apply sim_ret. by apply HQ.
Qed.
End Operand.

(** ** Equivalent states *)

Lemma equiv_sete a r x e1 e2 : e1 ≈ e2 -> sete a r x e1 ≈ sete a r x e2.
Proof.
  intros (F & V & A). split; [exact F|]. split; [exact V|]. intros b. cbn. by rewrite !A.
Qed.
Lemma equiv_setf f x e1 e2 : f ∉ flag_fields -> e1 ≈ e2 -> setf f x e1 ≈ setf f x e2.
Proof.
  intros Hf (F & V & A). split; [|split; [|exact A]].
  - intros g Hg. cbn. case_decide; [done|]. by apply F.
  - unfold flag_view in *. cbn. unfold flag_fields in Hf.
    rewrite !decide_False by (intros <-; apply Hf; set_solver). exact V.
Qed.
Lemma equiv_elt e1 e2 a r : e1 ≈ e2 -> elt e1 a r = elt e2 a r.
Proof. intros (_ & _ & A). unfold elt. by rewrite A. Qed.

Lemma set_flags_view n z c v e : flag_view (set_flags n z c v e) = (n, z, c, v).
Proof. unfold flag_view, set_flags. cpu_simpl. by destruct n, z, c, v. Qed.

Lemma set_flags_equiv n z c v e e' : same_but_flags e e' -> flag_view e' = (n, z, c, v) -> e' ≈ set_flags n z c v e.
Proof.
  intros [F A] V. split; [|split].
  - intros f Hf. rewrite F by done. unfold set_flags. cbn. unfold flag_fields in Hf.
    rewrite !decide_False by (intros ->; apply Hf; set_solver). done.
  - by rewrite set_flags_view.
  - intros a. by rewrite A.
Qed.

Lemma adds_equiv out x y c e :
  adds_with_carry out x y c e ->
  let '(r, co, v) := AddWithCarry x y c in
  fst out = r /\ snd out ≈ set_flags (Z.testbit r 31) (r =? 0) co v e /\ flags_wf (snd out).
Proof.
  unfold adds_with_carry. destruct (AddWithCarry x y c) as [[r co] v]. intros (E & N & W & S).
  split; [done|]. split; [|done]. apply set_flags_equiv; [done|]. rewrite nzcv_fields in N by done. exact N.
Qed.

Lemma only_carry_same e e' : only_carry e e' -> same_but_flags e e'.
Proof. intros [F A]. split; [|exact A]. intros f Hf. apply F. intros ->. apply Hf. unfold flag_fields. set_solver. Qed.

Lemma logic_equiv r shc e e1 :
  shifter_carry true shc e e1 ->
  setf ZF r (setf NF r e1) ≈ set_flags (Z.testbit r 31) (r =? 0) shc (snd (flag_view e)) e.
Proof.
  intros [O C]. apply set_flags_equiv.
  - eapply same_but_flags_trans; [by apply only_carry_same|].
    eapply same_but_flags_trans; apply same_but_flags_set; unfold flag_fields; set_solver.
  - unfold flag_view. cpu_simpl. cbn [snd]. destruct O as [F _]. rewrite C, (F VF) by done. by rewrite ctrue_cbool.
Qed.

(** Equal members; the state is a function, so that equality is pointwise. *)
Definition cpu_same (e1 e2 : CPUARMState) : Prop := (forall f, fld e1 f = fld e2 f) /\ (forall a, arrs e1 a = arrs e2 a).

Lemma same_setf f x y e1 e2 : x = y -> cpu_same e1 e2 -> cpu_same (setf f x e1) (setf f y e2).
Proof. intros -> [F A]. split; [|exact A]. intros g. cbn. case_decide; [done|apply F]. Qed.
Lemma same_seta a l l' e1 e2 : l = l' -> cpu_same e1 e2 -> cpu_same (seta a l e1) (seta a l' e2).
Proof. intros -> [F A]. split; [exact F|]. intros b. cbn. case_decide; [done|apply A]. Qed.
Lemma same_sete a i x y e1 e2 : x = y -> cpu_same e1 e2 -> cpu_same (sete a i x e1) (sete a i y e2).
Proof. intros -> H. pose proof H as [F A]. unfold sete. apply same_seta; [by rewrite A|done]. Qed.
Lemma same_elt e1 e2 a i : cpu_same e1 e2 -> elt e1 a i = elt e2 a i.
Proof. intros [_ A]. unfold elt. by rewrite A. Qed.
Lemma same_fld e1 e2 f : cpu_same e1 e2 -> fld e1 f = fld e2 f.
Proof. intros [F _]. apply F. Qed.
Lemma same_arrs e1 e2 a : cpu_same e1 e2 -> arrs e1 a = arrs e2 a.
Proof. intros [_ A]. apply A. Qed.
Lemma same_equiv e1 e2 : cpu_same e1 e2 -> e1 ≈ e2.
Proof. intros [F A]. split; [auto|]. split; [|auto]. unfold flag_view. by rewrite !F. Qed.
Ltac same_states := repeat (first [assumption |
  match goal with
  | |- cpu_same (sete ?a ?i ?x ?e) (sete ?a ?i ?y ?f) => apply (same_sete a i x y e f)
  | |- cpu_same (setf ?f ?x ?e) (setf ?f ?y ?e') => apply (same_setf f x y e e')
  | |- Z.lor _ _ = Z.lor _ _ => f_equal
  | |- Z.land _ _ = Z.land _ _ => f_equal
  | |- andn _ _ = andn _ _ => f_equal
  | |- ?x = ?x => reflexivity
  | |- elt ?a _ _ = elt ?b _ _ => apply (same_elt a b)
  | |- fld ?a ?f = fld (sete _ _ _ ?b) ?f => change (fld a f = fld b f)
  | |- fld ?a _ = fld ?b _ => apply (same_fld a b)
  end]).

Lemma same_load_r8 a e1 e2 : cpu_same e1 e2 -> cpu_same (load_r8 a e1) (load_r8 a e2).
Proof. intros H. unfold load_r8. apply same_seta; [|done]. by rewrite !(same_arrs e1 e2). Qed.
Lemma same_save_r8 a e1 e2 : cpu_same e1 e2 -> cpu_same (save_r8 a e1) (save_r8 a e2).
Proof. intros H. unfold save_r8. apply same_seta; [|done]. by rewrite (same_arrs e1 e2). Qed.

Lemma switch_mode_same mode e1 e2 e1' :
  cpu_same e1 e2 -> switch_mode mode e1 = Ok e1' -> exists e2', switch_mode mode e2 = Ok e2' /\ cpu_same e1' e2'.
Proof.
  intros H. unfold switch_mode, cur_mode. rewrite (same_fld e1 e2 uncached_cpsr) by done.
  destruct (mode =? Z.land (fld e2 uncached_cpsr) CPSR_M); [intros [= <-]; by exists e2|].
  destruct (bank_number (Z.land (fld e2 uncached_cpsr) CPSR_M)) as [i| |]; cbn [rbind]; [|done..].
  destruct (bank_number mode) as [j| |]; cbn [rbind]; [|done..]. intros [= <-]. eexists. split; [reflexivity|].
  set (x1 := if Z.land (fld e2 uncached_cpsr) CPSR_M =? ARM_CPU_MODE_FIQ then load_r8 usr_regs (save_r8 fiq_regs e1)
             else if mode =? ARM_CPU_MODE_FIQ then load_r8 fiq_regs (save_r8 usr_regs e1) else e1).
  set (x2 := if Z.land (fld e2 uncached_cpsr) CPSR_M =? ARM_CPU_MODE_FIQ then load_r8 usr_regs (save_r8 fiq_regs e2)
             else if mode =? ARM_CPU_MODE_FIQ then load_r8 fiq_regs (save_r8 usr_regs e2) else e2).
  assert (Hx : cpu_same x1 x2) by (unfold x1, x2; repeat case_match; auto using same_load_r8, same_save_r8).
  clearbody x1 x2. same_states.
Qed.

Lemma cpsr_write_equiv val e1 e2 e1' :
  same_but_flags e2 e1 -> cpsr_write val 0xffffffff e1 = Ok e1' -> exists e2', cpsr_write val 0xffffffff e2 = Ok e2' /\ e1' ≈ e2'.
Proof.
  intros [F A]. unfold cpsr_write.
  change (ctrue (Z.land 4294967295 CPSR_NZCV)) with true. change (ctrue (Z.land 4294967295 CPSR_Q)) with true.
  change (ctrue (Z.land 4294967295 CPSR_T)) with true. change (ctrue (Z.land 4294967295 CPSR_IT_0_1)) with true.
  change (ctrue (Z.land 4294967295 CPSR_IT_2_7)) with true. change (ctrue (Z.land 4294967295 CPSR_GE)) with true.
  cbn iota zeta.
  set (x1 := setf VF _ (setf CF _ (setf NF _ (setf ZF _ e1)))). set (x2 := setf VF _ (setf CF _ (setf NF _ (setf ZF _ e2)))).
  assert (H0 : cpu_same x1 x2).
  { split; [|exact A]. intros f. unfold x1, x2. cbn. repeat (case_decide; [done|]). apply F. unfold flag_fields. set_solver. }
  clearbody x1 x2. intros H. apply rbind_Ok in H as (y1 & E1 & [= <-]).
  match type of E1 with (if ctrue (Z.land (Z.land (Z.lxor (fld ?a _) _) _) _) then _ else _) = _ => set (w1 := a) in * end.
  match goal with |- context [if ctrue (Z.land (Z.land (Z.lxor (fld ?a _) _) _) _) then _ else _] => set (w2 := a) in * end.
  assert (Hw : cpu_same w1 w2).
  { unfold w1, w2. same_states. }
  clearbody w1 w2. rewrite (same_fld w1 w2 uncached_cpsr Hw) in E1.
  assert (exists y2, (if ctrue (Z.land (Z.land (Z.lxor (fld w2 uncached_cpsr) val) 4294967295) CPSR_M)
            then switch_mode (Z.land val CPSR_M) w2 else Ok w2) = Ok y2 /\ cpu_same y1 y2) as (y2 & -> & Hy).
  { destruct (ctrue _); [by eapply switch_mode_same|]. injection E1 as <-. by exists w2. }
  cbn [rbind]. eexists. split; [reflexivity|]. apply same_equiv, same_setf; [|done]. by rewrite (same_fld y1 y2 uncached_cpsr Hy).
Qed.

(** ** Writing results *)

Lemma elt_sete_cases a i x e b j : elt (sete a i x e) b j = x \/ elt (sete a i x e) b j = elt e b j.
Proof.
  unfold elt, sete. cbn [arrs seta]. case_decide as Hd; [subst b|by right]. destruct (decide (i = j)) as [->|Hij].
  - destruct (decide (j < length (arrs e a))%nat); [left; by rewrite list_lookup_insert_eq|right; by rewrite list_insert_ge by lia].
  - right. by rewrite list_lookup_insert_ne.
Qed.

Lemma words_sete a i x e : words_ok e -> in_u32 x -> words_ok (sete a i x e).
Proof. intros [S R] Hx. split; [exact S|]. intros b j Hb. destruct (elt_sete_cases a i x e b j) as [-> | ->]; auto. Qed.
Lemma words_setf f x e : words_ok e -> (f = spsr -> in_u32 x) -> words_ok (setf f x e).
Proof. intros [S R] Hx. split; [|exact R]. cbn. case_decide; auto. Qed.
Lemma words_ext e e' : words_ok e -> fld e' spsr = fld e spsr -> (forall a, arrs e' a = arrs e a) -> words_ok e'.
Proof. intros [S R] Es A. split; [by rewrite Es|]. intros a i Ha. unfold elt. rewrite A. by apply R. Qed.

Lemma cpu_ok_sete r x e : cpu_ok e -> in_u32 x -> cpu_ok (sete regs r x e).
Proof. intros (S & W & R) Hx. split; [by apply sizes_sete|]. split; [exact W|by apply words_sete]. Qed.

(** A change of mode exchanges words. *)
Lemma words_exchange_r8 old_mode mode e : sizes_ok e -> words_ok e -> words_ok (exchange_r8 old_mode mode e).
Proof.
  intros Hs [S R].
  assert (H : forall a, a ∈ [usr_regs; fiq_regs] -> forall b, b ∈ [usr_regs; fiq_regs] -> words_ok (load_r8 a (save_r8 b e))).
  { intros a Ha b Hb. assert (a <> regs /\ b <> regs /\ array_size a = 5%nat /\ array_size b = 5%nat /\ a ∈ banked_arrays) as (Ha1 & Hb1 & Ha5 & Hb5 & Ha').
    { set_unfold in Ha. set_unfold in Hb. destruct Ha as [->|[->|[]]], Hb as [->|[->|[]]]; (split_and!; [done|done|done|done|in_list]). }
    split; [exact S|]. intros c k Hc. pose proof (sizes_save_r8 b e Hb5 Hs) as Hs'.
    rewrite elt_load_r8, !elt_save_r8 by done. assert (Hreg : regs ∈ banked_arrays) by left.
    repeat case_decide; first [by apply R | lia]. }
  unfold exchange_r8. repeat case_match; [apply H; in_list|apply H; in_list|by split].
Qed.

Lemma words_move a i b j e : words_ok e -> b ∈ banked_arrays -> words_ok (sete a i (elt e b j) e).
Proof. intros W Hb. apply words_sete; [done|]. by apply W. Qed.

Lemma words_exchange_banks i j e : words_ok e -> words_ok (exchange_banks i j e).
Proof.
  intros W. unfold exchange_banks. cbn zeta.
  assert (W1 : words_ok (sete banked_r14 i (elt (sete banked_r13 i (elt e regs 13) e) regs 14) (sete banked_r13 i (elt e regs 13) e))).
  { apply words_move; [apply words_move; [done|]|]; in_list. }
  set (e1 := sete banked_r14 i _ _) in *. clearbody e1.
  assert (W2 : words_ok (sete banked_spsr i (fld e1 spsr) e1)) by (apply words_sete; [done|apply W1]).
  set (e2 := sete banked_spsr i _ _) in *. clearbody e2.
  assert (W3 : words_ok (sete regs 14 (elt (sete regs 13 (elt e2 banked_r13 j) e2) banked_r14 j) (sete regs 13 (elt e2 banked_r13 j) e2))).
  { apply words_move; [apply words_move; [done|]|]; in_list. }
  apply words_setf; [done|]. intros _. apply W3. in_list.
Qed.

Lemma switch_mode_keeps mode e e' :
  sizes_ok e -> words_ok e -> switch_mode mode e = Ok e' ->
  sizes_ok e' /\ words_ok e' /\ forall f, f <> spsr -> fld e' f = fld e f.
Proof.
  intros Hs Hw. unfold switch_mode. destruct (mode =? cur_mode e); [intros [= <-]; auto|]. fold (exchange_r8 (cur_mode e) mode e).
  pose proof (words_exchange_r8 (cur_mode e) mode e Hs Hw) as Hx. destruct (exchange_r8_ok (cur_mode e) mode e Hs) as (Hs1 & F1 & _).
  set (e1 := exchange_r8 (cur_mode e) mode e) in *. clearbody e1.
  destruct (bank_number (cur_mode e)) as [i| |]; cbn [rbind]; [|done..]. destruct (bank_number mode) as [j| |]; cbn [rbind]; [|done..].
  intros [= <-]. split; [auto 8 with cpu|]. split.
  - by apply words_exchange_banks.
  - intros f Hf. cbn. rewrite decide_False by done. by rewrite F1.
Qed.

Lemma cpsr_write_keeps val mask e e' :
  cpu_ok e -> in_u32 val -> in_u32 mask -> cpsr_write val mask e = Ok e' -> cpu_ok e'.
Proof.
  intros (Hs & Hwf & Hw) Hv Hm. set (e1 := write_flags val mask e).
  change (cpsr_write val mask e) with
      (let! e := if ctrue (Z.land (Z.land (Z.lxor (fld e1 uncached_cpsr) val) mask) CPSR_M)
                 then switch_mode (Z.land val CPSR_M) e1 else Ok e1 in
       Ok (setf uncached_cpsr (new_uncached val mask (fld e uncached_cpsr)) e)).
  assert (Hs1 : sizes_ok e1) by (intros a; unfold e1; rewrite write_flags_arrs; apply Hs).
  assert (Hw1 : words_ok e1).
  { apply (words_ext e); [done|unfold e1; rewrite write_flags_other; [done|set_solver]|]. intros a. unfold e1. by rewrite write_flags_arrs. }
  pose proof (write_flags_wf val mask e Hv Hwf) as Hwf1. fold e1 in Hwf1. clearbody e1.
  intros H. apply rbind_Ok in H as (e2 & E & [= <-]).
  assert (Hk : sizes_ok e2 /\ words_ok e2 /\ forall f, f <> spsr -> fld e2 f = fld e1 f).
  { destruct (ctrue _); [by eapply switch_mode_keeps|]. injection E as <-. auto. }
  destruct Hk as (Hs2 & Hw2 & F2). split; [exact Hs2|]. split; [|by apply words_setf].
  destruct Hwf1 as (Hu & Hc & W). rewrite <- (F2 uncached_cpsr) in Hu, Hc by done.
  destruct (new_uncached_wf val mask _ Hv Hm Hu Hc) as [B1 B2].
  unfold flags_wf. cbn [fld setf]. rewrite decide_True by done. rewrite !decide_False by done. rewrite !(F2 CF), !(F2 QF), !(F2 thumb), !(F2 GE), !(F2 condexec_bits), !(F2 NF), !(F2 VF) by done. tauto.
Qed.

Lemma cpu_ok_write_pc v7 r e : cpu_ok e -> in_u32 r -> cpu_ok (ref_write_pc v7 r e).
Proof.
  intros Hok Hr. unfold ref_write_pc. apply cpu_ok_sete; [|by apply in_u32_land]. destruct v7; [|done].
  destruct Hok as (S & (H1 & H2 & H3 & H4 & H5 & H6 & H7 & H8 & H9) & W). split; [exact S|]. split; [|by apply words_setf].
  unfold flags_wf. cpu_simpl. pose proof (land_below 1 r 1 ltac:(lia) ltac:(lia)). tauto.
Qed.

Lemma in_u32_and_not_1 r : in_u32 r -> in_u32 (Z.land r 0xfffffffe).
Proof. apply in_u32_land. Qed.

Lemma equiv_write_pc v7 r e1 e2 : e1 ≈ e2 -> ref_write_pc v7 r e1 ≈ ref_write_pc v7 r e2.
Proof.
  intros H. unfold ref_write_pc. apply equiv_sete. destruct v7; [|done]. apply equiv_setf; [|done].
  unfold flag_fields. set_solver.
Qed.

(** The context after a register was written: writing the program counter
    ends the block. *)
Definition wrote (rd : nat) (d d' : DisasContext) : Prop :=
  if (rd =? 15)%nat then exists j, (j = DISAS_JUMP \/ j = DISAS_UPDATE) /\ d' = set_is_jmp j d else d' = d.

Section Write.
Context (env0 : CPUARMState) (t : TCGv) (L L0 : list TCGv) (d : DisasContext) (lab : nat) (m : machine) (r : Z).
Context (Et : tmp m t = Some r) (HL : L0 ≡ₚ t :: L) (Hlen : (length L0 < MAX_TEMPS)%nat).

Lemma sim_store_reg rd (Q : unit -> view -> machine -> Prop) :
  (forall d' m', wrote rd d d' ->
     env m' = (if (rd =? 15)%nat then ref_write_pc false r (env m) else sete regs rd r (env m)) ->
     Q tt (mkView L d' lab) m') ->
  sim (store_reg rd t) (mkView L0 d lab) m Q.
Proof.
  intros HQ. unfold store_reg, wrote in *. destruct (Nat.eqb_spec rd 15) as [->|Hrd]; cbn [when].
  - apply sim_bind, sim_bind. eapply sim_andi; [exact Et|done|done|]. apply sim_upd_dc, sim_bind.
    eapply sim_st; [apply tmp_set_eq|]. eapply sim_dead_tmp; [exact HL|]. apply HQ; [eauto|done].
  - apply sim_bind, sim_ret, sim_bind. eapply sim_st; [exact Et|]. eapply sim_dead_tmp; [exact HL|]. by apply HQ.
Qed.

Lemma sim_store_bx rd (Q : unit -> view -> machine -> Prop) :
  (forall d' m', wrote rd d d' ->
     env m' = (if (rd =? 15)%nat then ref_write_pc (arm_feature env0 ARM_FEATURE_V7) r (env m) else sete regs rd r (env m)) ->
     Q tt (mkView L d' lab) m') ->
  sim (store_reg_bx env0 rd t) (mkView L0 d lab) m Q.
Proof.
  intros HQ. unfold store_reg_bx, wrote in *. destruct (Nat.eqb_spec rd 15) as [->|Hrd]; cbn [andb].
  - destruct (arm_feature env0 ARM_FEATURE_V7).
    + unfold gen_bx, store_cpu_offset. apply sim_bind, sim_upd_dc, sim_bind, sim_new_tmp; [exact Hlen|]. intros u Hu.
      cbn [v_live v_dc v_label] in *. assert (Hut : t <> u) by (intros ->; apply Hu; rewrite HL; set_solver).
      apply sim_bind. eapply sim_andi; [exact Et|done|done|].
      apply sim_bind, sim_bind. eapply sim_st; [apply tmp_set_eq|].
      eapply (sim_dead_tmp u L0); [apply snoc_perm|]. apply sim_bind.
      eapply sim_andi; [rewrite tmp_set_env, tmp_set_ne by done; exact Et|done|done|].
      apply sim_bind. eapply sim_st; [apply tmp_set_eq|]. eapply sim_dead_tmp; [exact HL|]. apply HQ; [eauto|done].
    + apply sim_store_reg. cbn [Nat.eqb]. intros d' m' Hd E. apply HQ; [exact Hd|exact E].
  - apply sim_store_reg. unfold wrote. rewrite (proj2 (Nat.eqb_neq rd 15)) by done. exact HQ.
Qed.
End Write.

(** What the translation of an instruction leaves: the temporaries in use,
    the context, and a state that agrees with the reference. *)
Definition insn_post (p : Z) (L : list TCGv) (d : DisasContext) (lab : nat) (ef : effect) (ok : bool) (v : view) (m : machine) : Prop :=
  match ef with
  | Follows e => ok = true /\ v = mkView L d lab /\ env m ≈ e /\ cpu_ok (env m)
  | Jumps e => ok = true /\ (exists j, (j = DISAS_JUMP \/ j = DISAS_UPDATE) /\ v = mkView L (set_is_jmp j d) lab) /\ env m ≈ e /\ cpu_ok (env m)
  | Traps x e => ok = false /\ x = EXCP_UDEF /\ (exists L', (length L' <= 2)%nat /\ v = mkView L' d lab) /\ sete regs 15 p (env m) ≈ e /\ cpu_ok (env m)
  end.

(** The result [r] written with the flags set as in [e]. *)
Definition result_effect (v7 : bool) (rd : nat) (r : Z) (e : CPUARMState) : effect :=
  if (rd =? 15)%nat then Jumps (ref_write_pc v7 r e) else Follows (sete regs rd r e).

Lemma sim_result env0 p t L L0 d lab rd r m e :
  tmp m t = Some r -> L0 ≡ₚ t :: L -> (length L0 < MAX_TEMPS)%nat -> in_u32 r -> env m ≈ e -> cpu_ok (env m) ->
  sim (store_reg_bx env0 rd t ;; gret true) (mkView L0 d lab) m
    (insn_post p L d lab (result_effect (arm_feature env0 ARM_FEATURE_V7) rd r e)).
Proof.
  intros Et HL Hlen Hr He Hok. apply sim_bind. eapply sim_store_bx; [exact Et|exact HL|exact Hlen|].
  intros d' m' Hd Em. apply sim_ret. unfold insn_post, result_effect, wrote in *. destruct (rd =? 15)%nat.
  - split; [done|]. destruct Hd as (j & Hj & ->). split; [eauto|]. rewrite Em. split; [by apply equiv_write_pc|by apply cpu_ok_write_pc].
  - subst d'. split; [done|]. split; [done|]. rewrite Em. split; [by apply equiv_sete|by apply cpu_ok_sete].
Qed.

(** ** Data processing *)

Lemma sim_exception_return p t L L0 d lab r m e e' :
  tmp m t = Some r -> L0 ≡ₚ t :: L -> (length L0 < MAX_TEMPS)%nat -> same_but_flags e (env m) -> cpu_ok (env m) -> in_u32 r ->
  cpsr_write (fld e spsr) 0xffffffff (sete regs 15 (Z.land r 0xfffffffe) e) = Ok e' ->
  sim (gen_exception_return t ;; gret true) (mkView L0 d lab) m (insn_post p L d lab (Jumps e')).
Proof.
  intros Et HL Hlen He Hok Hr Hw. unfold gen_exception_return, load_cpu_field.
  assert (Hl : (length L < MAX_TEMPS)%nat) by (apply Permutation_length in HL; cbn in HL; lia).
  apply sim_bind, sim_bind. eapply sim_store_reg; [exact Et|exact HL|]. intros d' m' Hd Em.
  cbn [Nat.eqb wrote] in Hd, Em. destruct Hd as (j & Hj & ->).
  apply sim_bind, sim_bind, sim_new_tmp; [exact Hl|]. intros u Hu. cbn [v_live v_dc v_label] in *.
  apply sim_bind, sim_ld, sim_ret, sim_bind. cbn [read_loc].
  assert (Hsp : fld (env m') spsr = fld e spsr).
  { rewrite Em. unfold ref_write_pc. cpu_simpl. destruct He as [F _]. apply F. unfold flag_fields. set_solver. }
  assert (Hsame : same_but_flags (env m') (sete regs 15 (Z.land r 0xfffffffe) e)).
  { rewrite Em. destruct He as [F A]. split; [intros f Hf; cbn; symmetry; by apply F|].
    intros a. cbn. by rewrite !A. }
  destruct (cpsr_write_equiv _ _ (env m') _ Hsame Hw) as (e2 & E2 & Heq).
  eapply sim_helper.
  - cbn [read_args read_arg]. erewrite read_tmp_some by apply tmp_set_eq. reflexivity.
  - cbn [call_helper]. rewrite Hsp. change (u32 4294967295) with 4294967295.
    change (env (set_tmp u (fld e spsr) m')) with (env m'). rewrite E2. reflexivity.
  - apply sim_bind. eapply (sim_dead_tmp u L); [apply snoc_perm|]. apply sim_upd_dc, sim_ret.
    split; [done|]. split; [exists DISAS_UPDATE; split; [by right|done]|]. split; [symmetry; exact Heq|].
    refine (cpsr_write_keeps _ _ (env m') e2 _ _ _ E2); [rewrite Em; by apply cpu_ok_write_pc| |done].
    destruct Hok as (_ & _ & Hsp' & _), He as [F _]. rewrite <- F; [exact Hsp'|unfold flag_fields; set_solver].
Qed.

Lemma cpu_ok_flags e e' : cpu_ok e -> same_but_flags e e' -> flags_wf e' -> cpu_ok e'.
Proof.
  intros (S & _ & R) [F A] W. split; [intros a; by rewrite A|]. split; [done|]. apply (words_ext e); [exact R| |exact A]. apply F. unfold flag_fields. set_solver.
Qed.

Lemma cpu_ok_carry c e e' : cpu_ok e -> only_carry e e' -> fld e' CF = cbool c -> cpu_ok e'.
Proof.
  intros Hok O C. pose proof (only_carry_same _ _ O) as Hs. eapply cpu_ok_flags; [exact Hok|exact Hs|].
  pose proof Hok as (_ & (_ & _ & _ & _ & _ & _ & _ & HN & HV) & _). destruct O as [F _].
  apply (flags_wf_same e); [apply Hok|exact Hs|..]; rewrite ?C, ?F by done; [destruct c; cbn; lia|done|done].
Qed.

Lemma cpu_ok_logic r shc e e1 :
  cpu_ok e -> in_u32 r -> shifter_carry true shc e e1 -> cpu_ok (setf ZF r (setf NF r e1)).
Proof.
  intros Hok Hr [O C]. assert (Hs : same_but_flags e (setf ZF r (setf NF r e1))).
  { eapply same_but_flags_trans; [by apply only_carry_same|].
    eapply same_but_flags_trans; apply same_but_flags_set; unfold flag_fields; set_solver. }
  eapply cpu_ok_flags; [exact Hok|exact Hs|]. apply (flags_wf_same e); [apply Hok|exact Hs|..]; cpu_simpl.
  - rewrite C. destruct shc; cbn; lia.
  - exact Hr.
  - destruct O as [F _]. rewrite F by done. destruct Hok as (_ & (_ & _ & _ & _ & _ & _ & _ & _ & HV) & _). exact HV.
Qed.

Section DataOp.
Context (env0 : CPUARMState) (p : Z) (d : DisasContext) (lab : nat) (rd : nat) (m : machine) (e : CPUARMState).
Context (Hok : cpu_ok e).
Abbreviation v7 := (arm_feature env0 ARM_FEATURE_V7).

(** The state and the flags after a logical operation. *)
Lemma sim_logic_result (s shc : bool) t L L0 r m1 :
  tmp m1 t = Some r -> L0 ≡ₚ t :: L -> (length L0 < MAX_TEMPS)%nat -> in_u32 r -> shifter_carry s shc e (env m1) ->
  sim (when s (gen_logic_CC t) ;; store_reg_bx env0 rd t ;; gret true) (mkView L0 d lab) m1
    (insn_post p L d lab (result_effect v7 rd r
      (if s then set_flags (Z.testbit r 31) (r =? 0) shc (snd (flag_view e)) e else e))).
Proof.
  intros Et HL Hlen Hr Hc. apply sim_bind, sim_when; intros ->; cbn [shifter_carry] in Hc.
  - apply sim_bind. eapply sim_st; [exact Et|]. eapply sim_st; [exact Et|].
    pose proof (logic_equiv r shc e (env m1) Hc) as Heq.
    eapply sim_result; [exact Et|exact HL|exact Hlen|exact Hr|exact Heq|].
    cbn [env set_env write_loc]. by apply (cpu_ok_logic r shc e).
  - eapply sim_result; [exact Et|exact HL|exact Hlen|exact Hr|by rewrite Hc|by rewrite Hc].
Qed.

(** A helper that adds with carry, and its value without flags. *)
Lemma sim_arith (s : bool) h g a b x y k c t L L0 x1 y1 :
  tmp m a = Some x1 -> tmp m b = Some y1 -> env m = e -> L0 ≡ₚ t :: L -> (length L0 < MAX_TEMPS)%nat ->
  call_helper h [x1; y1] e = Ok (Returns (fst k) (snd k)) -> adds_with_carry k x y c e ->
  (forall Q, (forall m', env m' = e -> tmp m' t = Some (u32 (x + y + Z.b2z c)) -> Q tt (mkView L0 d lab) m') ->
    sim g (mkView L0 d lab) m Q) ->
  sim ((if s then gen_helper h (Some t) [T a; T b] else g) ;; store_reg_bx env0 rd t ;; gret true) (mkView L0 d lab) m
    (insn_post p L d lab (let '(r, co, v) := AddWithCarry x y c in result_effect v7 rd r
      (if s then set_flags (Z.testbit r 31) (r =? 0) co v e else e))).
Proof.
  intros Ea Eb Em HL Hlen Hh Hadd Hg. pose proof (adds_equiv k x y c e Hadd) as Heq.
  assert (Hsame : same_but_flags e (snd k)).
  { unfold adds_with_carry in Hadd. destruct (AddWithCarry x y c) as [[? ?] ?]. apply Hadd. }
  destruct (AddWithCarry x y c) as [[r co] v] eqn:E. assert (Er : r = u32 (x + y + Z.b2z c)) by (injection E; intros; by subst).
  assert (Hr : in_u32 r) by (rewrite Er; apply in_u32_u32). destruct Heq as (Hf & He & Hwf).
  apply sim_bind. destruct s.
  - eapply sim_helper; [by apply read_args2|rewrite Em; exact Hh|].
    rewrite Hf. eapply sim_result; [apply tmp_set_eq|exact HL|exact Hlen|exact Hr|exact He|].
    cbn [env opt_set set_tmp set_env]. eapply cpu_ok_flags; [exact Hok|exact Hsame|exact Hwf].
  - apply Hg. intros m' Em' Et. rewrite <- Er in Et. by eapply sim_result; rewrite ?Em'.
Qed.
End DataOp.

Lemma ref_result_plain v7 user op s rd pc shc r c v e :
  (8 <=? op) && (op <? 12) = false -> (rd =? 15)%nat && (s && ((op =? 2) || (op =? 13))) = false ->
  ref_result v7 user op s rd pc shc (r, c, v) e =
  Ok (result_effect v7 rd r (if s then set_flags (Z.testbit r 31) (r =? 0) c v e else e)).
Proof.
  intros H1 H2. unfold ref_result, result_effect. rewrite H1. destruct (rd =? 15)%nat; cbn in H2; [by rewrite H2|done].
Qed.

Lemma ref_result_test v7 user op s rd pc shc r c v e :
  (8 <=? op) && (op <? 12) = true ->
  ref_result v7 user op s rd pc shc (r, c, v) e =
  Ok (Follows (if s then set_flags (Z.testbit r 31) (r =? 0) c v e else e)).
Proof. intros H1. unfold ref_result. by rewrite H1. Qed.

Lemma in_u32_lor a b : in_u32 a -> in_u32 b -> in_u32 (Z.lor a b).
Proof.
  intros Ha Hb. assert (H : Z.land (Z.lor a b) (Z.ones 32) = Z.lor a b).
  { rewrite Z.land_lor_distr_l, !Z.land_ones, !Z.mod_small by (simpl; lia). done. }
  rewrite Z.land_ones in H by lia. rewrite <- H. apply Z.mod_pos_bound. simpl. lia.
Qed.

(** The operations that have no first operand. *)
Definition two_operands (op : Z) : bool := negb (op =? 0xf) && negb (op =? 0xd).

Section DataOps.
Context (env0 : CPUARMState) (p : Z) (d : DisasContext) (lab : nat) (rd : nat) (m : machine) (e : CPUARMState).
Context (t t2 : TCGv) (x y : Z) (shc s : bool).
Context (Hok : cpu_ok e) (E2 : tmp m t2 = Some y) (Hx : in_u32 x) (Hy : in_u32 y).
Abbreviation v7 := (arm_feature env0 ARM_FEATURE_V7).
Abbreviation both := (mkView [t2; t] d lab).

Lemma both_perm : [t2; t] ≡ₚ t :: [t2].
Proof. apply Permutation_swap. Qed.
Lemma both_small : (length [t2; t] < MAX_TEMPS)%nat.
Proof. cbn. unfold MAX_TEMPS. lia. Qed.

Section TwoOperands.
Context (E1 : tmp m t = Some x) (Hne : t <> t2).

(** AND, EOR, ORR and BIC. *)
Lemma sim_logic2 op g f user ef :
  op ∈ [0; 1; 12; 14] -> in_u32 (f x y) -> shifter_carry s shc e (env m) ->
  (forall Q, Q tt both (set_tmp t (f x y) m) -> sim g both m Q) \/
  (forall Q, (forall m', env m' = env m -> tmp m' t = Some (f x y) -> Q tt both m') -> sim g both m Q) ->
  ref_result v7 user op s rd p shc (f x y, shc, snd (flag_view e)) e = Ok ef ->
  sim (g ;; when s (gen_logic_CC t) ;; store_reg_bx env0 rd t ;; gret true) both m (insn_post p [t2] d lab ef).
Proof.
  intros Hop Hr Hc Hg Href. rewrite ref_result_plain in Href.
  - injection Href as <-.
    assert (Hend : forall m', env m' = env m -> tmp m' t = Some (f x y) ->
      sim (when s (gen_logic_CC t) ;; store_reg_bx env0 rd t ;; gret true) both m' (insn_post p [t2] d lab
        (result_effect v7 rd (f x y) (if s then set_flags (Z.testbit (f x y) 31) (f x y =? 0) shc (snd (flag_view e)) e else e)))).
    { intros m' Em Et. eapply sim_logic_result; [exact Hok|exact Et|apply both_perm|apply both_small|exact Hr|by rewrite Em]. }
    apply sim_bind. destruct Hg as [Hg|Hg]; apply Hg; [apply Hend; [done|apply tmp_set_eq]|exact Hend].
  - set_unfold in Hop. destruct Hop as [->|[->|[->|[->|[]]]]]; done.
  - set_unfold in Hop. destruct Hop as [->|[->|[->|[->|[]]]]]; cbn; by rewrite !andb_false_r.
Qed.

(** ADD, SUB, RSB, ADC, SBC and RSC. *)
Lemma sim_arith2 op h g a b x1 y1 k u v c user ef :
  op ∈ [2; 3; 4; 5; 6; 7] -> (rd =? 15)%nat && (s && (op =? 2)) = false -> env m = e ->
  tmp m a = Some x1 -> tmp m b = Some y1 ->
  call_helper h [x1; y1] e = Ok (Returns (fst k) (snd k)) -> adds_with_carry k u v c e ->
  (forall Q, (forall m', env m' = e -> tmp m' t = Some (u32 (u + v + Z.b2z c)) -> Q tt both m') -> sim g both m Q) ->
  ref_result v7 user op s rd p shc (AddWithCarry u v c) e = Ok ef ->
  sim ((if s then gen_helper h (Some t) [T a; T b] else g) ;; store_reg_bx env0 rd t ;; gret true) both m (insn_post p [t2] d lab ef).
Proof.
  intros Hop Hrd Em Ea Eb Hh Hadd Hg Href.
  pose proof (sim_arith env0 p d lab rd m e Hok s h g a b u v k c t [t2] [t2; t] x1 y1 Ea Eb Em both_perm both_small Hh Hadd Hg) as H.
  destruct (AddWithCarry u v c) as [[r co] ov]. rewrite ref_result_plain in Href; [by injection Href as <-|..].
  - set_unfold in Hop. destruct Hop as [->|[->|[->|[->|[->|[->|[]]]]]]]; done.
  - set_unfold in Hop. destruct Hop as [->|[->|[->|[->|[->|[->|[]]]]]]]; cbn [Z.eqb orb] in *; rewrite ?andb_false_r; done.
Qed.

(** TST and TEQ, CMP and CMN. *)
Lemma sim_test_logic op g f user ef :
  op ∈ [8; 9] -> in_u32 (f x y) -> shifter_carry s shc e (env m) ->
  (forall Q, Q tt both (set_tmp t (f x y) m) -> sim g both m Q) ->
  ref_result v7 user op s rd p shc (f x y, shc, snd (flag_view e)) e = Ok ef ->
  sim (when s (g ;; gen_logic_CC t) ;; dead_tmp t ;; gret true) both m (insn_post p [t2] d lab ef).
Proof.
  intros Hop Hr Hc Hg Href. rewrite ref_result_test in Href by (set_unfold in Hop; destruct Hop as [->|[->|[]]]; done).
  injection Href as <-. apply sim_bind, sim_when; intros ->; cbn [shifter_carry] in Hc.
  - apply sim_bind, Hg, sim_bind. eapply sim_st; [apply tmp_set_eq|]. eapply sim_st; [apply tmp_set_eq|].
    apply sim_bind. eapply sim_dead_tmp; [apply both_perm|]. apply sim_ret. split; [done|]. split; [done|].
    pose proof (logic_equiv (f x y) shc e (env m) Hc) as Heq. split; [exact Heq|].
    cbn [env set_env set_tmp write_loc]. by apply (cpu_ok_logic _ shc e).
  - apply sim_bind. eapply sim_dead_tmp; [apply both_perm|]. apply sim_ret. split; [done|]. split; [done|]. by rewrite Hc.
Qed.

Lemma sim_test_arith op h k u v c user ef :
  op ∈ [10; 11] -> env m = e -> call_helper h [x; y] e = Ok (Returns (fst k) (snd k)) -> adds_with_carry k u v c e ->
  ref_result v7 user op s rd p shc (AddWithCarry u v c) e = Ok ef ->
  sim (when s (gen_helper h (Some t) [T t; T t2]) ;; dead_tmp t ;; gret true) both m (insn_post p [t2] d lab ef).
Proof.
  intros Hop Em Hh Hadd Href. pose proof (adds_equiv k u v c e Hadd) as Heq. pose proof Hadd as Hsame. unfold adds_with_carry in Hsame.
  destruct (AddWithCarry u v c) as [[r co] ov]. destruct Heq as (Hf & He & Hwf). destruct Hsame as (_ & _ & _ & Hsame).
  rewrite ref_result_test in Href by (set_unfold in Hop; destruct Hop as [->|[->|[]]]; done).
  injection Href as <-. apply sim_bind, sim_when; intros ->.
  - eapply sim_helper; [by apply read_args2|rewrite Em; exact Hh|].
    apply sim_bind. eapply sim_dead_tmp; [apply both_perm|]. apply sim_ret. split; [done|]. split; [done|].
    split; [exact He|]. eapply cpu_ok_flags; [exact Hok|exact Hsame|exact Hwf].
  - apply sim_bind. eapply sim_dead_tmp; [apply both_perm|]. apply sim_ret. split; [done|]. split; [done|]. by rewrite Em.
Qed.
End TwoOperands.

Lemma adc_value a b c : u32 (u32 (a + b) + cbool c) = u32 (a + b + Z.b2z c).
Proof. rewrite uwrap_add_l by lia. by destruct c. Qed.
Lemma sbc_value a b c : in_u32 b -> u32 (u32 (u32 (a - b) + cbool c) - u32 1) = u32 (a + not32 b + Z.b2z c).
Proof.
  intros Hb. rewrite u32_not_add by done. change (u32 1) with 1. unfold uwrap. rewrite Zminus_mod_idemp_l.
  rewrite <- Zminus_mod_idemp_l, Zplus_mod_idemp_l, Zminus_mod_idemp_l. f_equal. destruct c; cbn; lia.
Qed.

Lemma carry_value : fld e CF = cbool (ref_carry e).
Proof.
  destruct Hok as (_ & (_ & _ & HC & _) & _). unfold ref_carry. cbn.
  assert (fld e CF = 0 \/ fld e CF = 1) as [->| ->] by lia; done.
Qed.

(** The values that [gen_add_carry] and [gen_sub_carry] leave. *)
Lemma sim_load_carry (g : TCGv -> G unit) m1 (Q : unit -> view -> machine -> Prop) :
  env m1 = e ->
  (forall u, u ∉ [t2; t] ->
     sim (g u) (mkView ([t2; t] ++ [u]) d lab) (set_tmp u (cbool (ref_carry e)) m1) Q) ->
  sim (u <- load_cpu_field CF ;; g u) both m1 Q.
Proof.
  intros Em H. unfold load_cpu_field. apply sim_bind, sim_bind, sim_new_tmp; [apply both_small|]. intros u Hu.
  apply sim_bind, sim_ld, sim_ret. cbn [read_loc]. rewrite Em, carry_value. by apply H.
Qed.

Lemma sim_add_carry x1 y1 a b (Q : unit -> view -> machine -> Prop) :
  env m = e -> tmp m a = Some x1 -> tmp m b = Some y1 -> b ∈ [t2; t] ->
  (forall m', env m' = e -> tmp m' t = Some (u32 (x1 + y1 + Z.b2z (ref_carry e))) -> Q tt both m') ->
  sim (gen_add_carry t a b) both m Q.
Proof.
  intros Em Ea Eb Hb HQ. unfold gen_add_carry. apply sim_bind. eapply sim_add; [exact Ea|exact Eb|].
  apply sim_load_carry; [exact Em|]. intros u Hu. assert (t <> u) by set_solver. apply sim_bind.
  eapply sim_add; [rewrite tmp_set_ne by done; apply tmp_set_eq|apply tmp_set_eq|].
  eapply (sim_dead_tmp u [t2; t]); [apply snoc_perm|]. apply HQ; [done|]. rewrite tmp_set_eq. by rewrite adc_value.
Qed.

Lemma sim_sub_carry x1 y1 a b (Q : unit -> view -> machine -> Prop) :
  env m = e -> tmp m a = Some x1 -> tmp m b = Some y1 -> in_u32 y1 ->
  (forall m', env m' = e -> tmp m' t = Some (u32 (x1 + not32 y1 + Z.b2z (ref_carry e))) -> Q tt both m') ->
  sim (gen_sub_carry t a b) both m Q.
Proof.
  intros Em Ea Eb Hy1 HQ. unfold gen_sub_carry. apply sim_bind. eapply sim_sub; [exact Ea|exact Eb|].
  apply sim_load_carry; [exact Em|]. intros u Hu. assert (t <> u) by set_solver. apply sim_bind.
  eapply sim_add; [rewrite tmp_set_ne by done; apply tmp_set_eq|apply tmp_set_eq|].
  apply sim_bind. eapply sim_subi; [apply tmp_set_eq|done|].
  eapply (sim_dead_tmp u [t2; t]); [apply snoc_perm|]. apply HQ; [done|]. rewrite tmp_set_eq. by rewrite sbc_value.
Qed.

Lemma sim_bic (E1 : tmp m t = Some x) (Hne : t <> t2) (Q : unit -> view -> machine -> Prop) :
  (forall m', env m' = env m -> tmp m' t = Some (Z.land x (not32 y)) -> Q tt both m') ->
  sim (tcg_gen_bic_i32 t t t2) both m Q.
Proof.
  intros HQ. unfold tcg_gen_bic_i32. apply sim_bind, sim_new_tmp; [apply both_small|]. intros u Hu. cbn [v_live v_dc v_label] in *.
  assert (t <> u) by set_solver. apply sim_bind. eapply sim_not; [exact E2|].
  apply sim_bind. eapply sim_and; [rewrite tmp_set_ne by done; exact E1|apply tmp_set_eq|done|].
  eapply (sim_dead_tmp u [t2; t]); [apply snoc_perm|]. apply HQ; [done|]. by rewrite tmp_set_eq.
Qed.

(** SUBS and MOVS to the program counter. *)
Lemma sim_subs_pc (E1 : tmp m t = Some x) user ef :
  (rd =? 15)%nat && s = true -> user = dc_user d -> env m = e ->
  ref_result v7 user 2 s rd p shc (AddWithCarry x (not32 y) true) e = Ok ef ->
  sim (if dc_user d then gret false
       else gen_helper HELPER_sub_cc (Some t) [T t; T t2] ;; gen_exception_return t ;; gret true) both m
    (insn_post p [t2] d lab ef).
Proof.
  intros (Hrd & ->)%andb_true_iff -> Em Href. unfold ref_result in Href.
  pose proof (sub_cc_spec x y e Hx Hy (proj1 (proj2 Hok))) as Hadd. unfold adds_with_carry in Hadd.
  assert (Hr : in_u32 (fst (fst (AddWithCarry x (not32 y) true)))) by apply in_u32_u32.
  destruct (AddWithCarry x (not32 y) true) as [[r co] ov]. destruct Hadd as (Hf & _ & Hwf & Hsame).
  cbn in Href. rewrite Hrd in Href. destruct (dc_user d).
  - injection Href as <-. apply sim_ret. split; [done|]. split; [done|].
    split; [exists [t2; t]; split; [cbn; lia|done]|by rewrite Em].
  - destruct (cpsr_write _ _ _) as [e'| |] eqn:Hw; [|done..]. injection Href as <-.
    apply sim_bind. eapply sim_helper; [by apply read_args2|rewrite Em; reflexivity|].
    eapply sim_exception_return; [rewrite Hf; apply tmp_set_eq|apply both_perm|apply both_small|exact Hsame| |exact Hr|exact Hw].
    cbn [env opt_set set_tmp set_env]. eapply cpu_ok_flags; [exact Hok|exact Hsame|exact Hwf].
Qed.

Lemma sim_movs_pc user ef :
  (rd =? 15)%nat && s = true -> user = dc_user d -> shifter_carry s shc e (env m) ->
  ref_result v7 user 13 s rd p shc (y, shc, snd (flag_view e)) e = Ok ef ->
  sim (if dc_user d then gret false else gen_exception_return t2 ;; gret true) (mkView [t2] d lab) m (insn_post p [] d lab ef).
Proof.
  intros (Hrd & ->)%andb_true_iff -> [O C] Href. unfold ref_result in Href. cbn in Href. rewrite Hrd in Href. destruct (dc_user d).
  - injection Href as <-. apply sim_ret. split; [done|]. split; [done|]. split; [exists [t2]; split; [cbn; lia|done]|].
    split; [|by eapply cpu_ok_carry].
    apply equiv_sete. destruct O as [F A]. split; [|split; [|by intros a; rewrite A]].
    + intros f Hf. rewrite F by (intros ->; apply Hf; unfold flag_fields; set_solver). cbn.
      rewrite decide_False; [done|]. intros ->. apply Hf. unfold flag_fields. set_solver.
    + unfold flag_view. rewrite C, (F NF), (F ZF), (F VF) by done. cpu_simpl. done.
  - destruct (cpsr_write _ _ _) as [e'| |] eqn:Hw; [|done..]. injection Href as <-.
    eapply sim_exception_return; [exact E2|done|cbn; unfold MAX_TEMPS; lia|by apply only_carry_same|by eapply cpu_ok_carry|exact Hy|exact Hw].
Qed.

Lemma sim_one_operand op user ef r m1 :
  op ∈ [13; 15] -> (rd =? 15)%nat && (s && (op =? 13)) = false -> tmp m1 t2 = Some r -> in_u32 r -> shifter_carry s shc e (env m1) ->
  ref_result v7 user op s rd p shc (r, shc, snd (flag_view e)) e = Ok ef ->
  sim (when s (gen_logic_CC t2) ;; store_reg_bx env0 rd t2 ;; gret true) (mkView [t2] d lab) m1 (insn_post p [] d lab ef).
Proof.
  intros Hop Hrd Et Hr Hc Href. rewrite ref_result_plain in Href.
  - injection Href as <-. eapply sim_logic_result; [exact Hok|exact Et|done|cbn; unfold MAX_TEMPS; lia|exact Hr|exact Hc].
  - set_unfold in Hop. destruct Hop as [->|[->|[]]]; done.
  - set_unfold in Hop. destruct Hop as [->|[->|[]]]; cbn in *; rewrite ?andb_false_r in *; done.
Qed.

Lemma sim_data_op op user ef :
  0 <= op < 16 -> user = dc_user d -> (two_operands op = true -> tmp m t = Some x /\ t <> t2) ->
  shifter_carry (s && logic_op op) shc e (env m) ->
  ref_result v7 user op s rd p shc (ref_alu op x y shc e) e = Ok ef ->
  sim (gen_data_op env0 op s (s && logic_op op) rd t t2) (mkView (if two_operands op then [t2; t] else [t2]) d lab) m
    (insn_post p (if two_operands op then [t2] else []) d lab ef).
Proof.
  intros Hop Hu Htwo Hc Href. pose proof (proj1 (proj2 Hok)) as Hwf.
  assert (Hcarry : carry e = ref_carry e) by (rewrite carry_field; done).
  unfold gen_data_op. apply sim_bind, sim_get_dc. cbn [v_dc].
  assert (H16 : op ∈ [0; 1; 2; 3; 4; 5; 6; 7; 8; 9; 10; 11; 12; 13; 14; 15]) by (set_unfold; lia).
  set_unfold in H16.
  repeat (destruct H16 as [->|H16]); [..|done];
    match type of Hc with context [logic_op ?o] => change (logic_op o) with (ctrue (arr table_logic_cc o)) in * end;
    cbn [Z.eqb Pos.eqb negb andb two_operands ctrue arr table_logic_cc Z.to_nat Pos.to_nat Pos.iter_op Nat.add nth] in *;
    rewrite ?andb_true_r, ?andb_false_r in *.
  all: try (destruct Htwo as [E1 Hne]; [done|]).
  - eapply (sim_logic2 0 _ Z.land); [by in_list|auto with bounds|exact Hc|left; intros Q; by apply sim_and|exact Href].
  - eapply (sim_logic2 1 _ Z.lxor); [by in_list|auto with bounds|exact Hc|left; intros Q; by apply sim_xor|exact Href].
  - rewrite (andb_comm s). destruct ((rd =? 15)%nat && s) eqn:Hrd.
    + by eapply sim_subs_pc.
    + eapply (sim_arith2 2 _ _ t t2 x y (helper_sub_cc x y e) x (not32 y) true); [by in_list|by rewrite andb_true_r|done..|by apply sub_cc_spec| |exact Href].
      intros Q HQ. eapply sim_sub; [exact E1|exact E2|]. apply HQ; [done|]. rewrite tmp_set_eq, u32_not_add by done. do 2 f_equal. cbn. lia.
  - eapply (sim_arith2 3 _ _ t2 t y x (helper_sub_cc y x e) y (not32 x) true); [by in_list|by rewrite !andb_false_r|done..|by apply sub_cc_spec| |exact Href].
    intros Q HQ. eapply sim_sub; [exact E2|exact E1|]. apply HQ; [done|]. rewrite tmp_set_eq, u32_not_add by done. do 2 f_equal. cbn. lia.
  - eapply (sim_arith2 4 _ _ t t2 x y (helper_add_cc x y e) x y false); [by in_list|by rewrite !andb_false_r|done..|by apply add_cc_spec| |exact Href].
    intros Q HQ. eapply sim_add; [exact E1|exact E2|]. apply HQ; [done|]. by rewrite tmp_set_eq, Z.add_0_r.
  - eapply (sim_arith2 5 _ _ t t2 x y (helper_adc_cc x y e) x y (ref_carry e)); [by in_list|by rewrite !andb_false_r|done..| | |exact Href].
    + rewrite <- Hcarry. by apply adc_cc_spec.
    + intros Q. eapply sim_add_carry; [done..|left].
  - eapply (sim_arith2 6 _ _ t t2 x y (helper_sbc_cc x y e) x (not32 y) (ref_carry e)); [by in_list|by rewrite !andb_false_r|done..| | |exact Href].
    + rewrite <- Hcarry. by apply sbc_cc_spec.
    + intros Q. by eapply sim_sub_carry.
  - eapply (sim_arith2 7 _ _ t2 t y x (helper_sbc_cc y x e) y (not32 x) (ref_carry e)); [by in_list|by rewrite !andb_false_r|done..| | |exact Href].
    + rewrite <- Hcarry. by apply sbc_cc_spec.
    + intros Q. by eapply sim_sub_carry.
  - eapply (sim_test_logic 8 _ Z.land); [by in_list|auto with bounds|exact Hc|intros Q; by apply sim_and|exact Href].
  - eapply (sim_test_logic 9 _ Z.lxor); [by in_list|auto with bounds|exact Hc|intros Q; by apply sim_xor|exact Href].
  - eapply (sim_test_arith E1 10 _ (helper_sub_cc x y e)); [by in_list|done..|by apply sub_cc_spec|exact Href].
  - eapply (sim_test_arith E1 11 _ (helper_add_cc x y e)); [by in_list|done..|by apply add_cc_spec|exact Href].
  - eapply (sim_logic2 12 _ Z.lor); [by in_list|by apply in_u32_lor|exact Hc|left; intros Q; by apply sim_or|exact Href].
  - rewrite (andb_comm s). destruct ((rd =? 15)%nat && s) eqn:Hrd.
    + by eapply sim_movs_pc.
    + eapply (sim_one_operand 13); [by in_list|by rewrite andb_true_r|exact E2|done|exact Hc|exact Href].
  - eapply (sim_logic2 14 _ (fun x y => Z.land x (not32 y))); [by in_list|auto with bounds|exact Hc|right; intros Q; by apply sim_bic|exact Href].
  - apply sim_bind. eapply sim_not; [exact E2|].
    eapply (sim_one_operand 15); [by in_list|by rewrite !andb_false_r|apply tmp_set_eq|by apply in_u32_not32|exact Hc|exact Href].
Qed.
End DataOps.

(** The code of a data processing instruction does what the reference does. *)
Section DataInsn.
Context (env0 : CPUARMState) (p : Z) (d : DisasContext) (lab : nat) (m : machine).
Context (Hp : pc d = u32 (p + 4)) (Ht : dc_thumb d = false) (Hok : cpu_ok (env m)).

Lemma set_cc_bit insn : Z.land (Z.shiftr insn 20) 1 = cbool (Z.testbit insn 20).
Proof. by rewrite land_1_bit by lia. Qed.

Lemma logic_cc_eq op s : 0 <= op < 16 -> ctrue (Z.land (arr table_logic_cc op) (cbool s)) = s && logic_op op.
Proof.
  intros Hop. assert (H16 : op ∈ [0; 1; 2; 3; 4; 5; 6; 7; 8; 9; 10; 11; 12; 13; 14; 15]) by (set_unfold; lia).
  set_unfold in H16. repeat (destruct H16 as [->|H16]); [..|done]; by destruct s.
Qed.

Lemma shifter_carry_only flags c e e' : shifter_carry flags c e e' -> only_carry e e'.
Proof. destruct flags; cbn; [by intros [O _]|]. intros ->. by split. Qed.

Lemma in_u32_shifts x n c : in_u32 x -> 0 <= n ->
  in_u32 (fst (LSL_C x n c)) /\ in_u32 (fst (LSR_C x n c)) /\ in_u32 (fst (ASR_C x n c)) /\
  in_u32 (fst (ROR_C x n c)) /\ in_u32 (fst (RRX_C x c)).
Proof.
  intros Hx Hn. assert (Hd : in_u32 (x / 2 ^ n)).
  { split; [apply Z.div_pos; lia|]. apply Z.le_lt_trans with x; [|lia]. apply Z.div_le_upper_bound; [lia|]. nia. }
  unfold LSL_C, LSR_C, ASR_C, ROR_C, RRX_C, ROR.
  repeat case_match; cbn [fst]; (repeat split); try apply in_u32_u32; try apply Hd; try apply Hx.
  all: assert (x / 2 < 2 ^ 31) by (apply Z.div_lt_upper_bound; simpl; lia); pose proof (Z.div_pos x 2).
  all: destruct c; simpl in *; lia.
Qed.

Lemma in_u32_operand2 insn flags e rc :
  (forall r, in_u32 (elt e regs r)) -> ref_operand2 insn p flags e = Ok rc -> in_u32 (fst rc).
Proof.
  intros Hr. unfold ref_operand2, ref_shift_reg, ref_shift_imm, ARMExpandImm_C.
  pose proof (bits_range insn 0 8 ltac:(lia)) as H8. pose proof (bits_range insn 8 4 ltac:(lia)). pose proof (bits_range insn 7 5 ltac:(lia)).
  pose proof (in_u32_ref_reg (reg_at insn 0) p e Hr) as Hx. set (x := ref_reg (reg_at insn 0) p e) in *.
  assert (0 <= ref_reg (reg_at insn 8) p e mod 256) by (apply Z.mod_pos_bound; lia).
  assert (in_u32 (bits insn 0 8)) by (simpl in H8; lia).
  repeat case_match; intros [= <-]; first [apply in_u32_shifts; [done|lia] | by apply (in_u32_shifts _ 0)].
Qed.

Lemma ref_reg_carry r e e' : only_carry e e' -> ref_reg r p e' = ref_reg r p e.
Proof. intros H. unfold ref_reg. destruct (r =? 15)%nat; [done|]. by apply only_carry_regs. Qed.

Lemma sim_data_processing insn ef :
  ref_data (arm_feature env0 ARM_FEATURE_V7) (dc_user d) insn p (env m) = Ok ef ->
  sim (disas_data_processing env0 insn) (mkView [] d lab) m (insn_post p [] d lab ef).
Proof.
  intros Href. unfold ref_data in Href. apply rbind_Ok in Href as ([y shc] & Hop & Href).
  pose proof (bits_range insn 21 4 ltac:(lia)) as Ho. unfold disas_data_processing.
  change (Z.land (Z.shiftr insn 21) 15) with (bits insn 21 4). set (op := bits insn 21 4) in *.
  rewrite set_cc_bit, logic_cc_eq by done. set (s := Z.testbit insn 20) in *.
  pose proof (cpu_ok_regs _ Hok) as Hr. pose proof (in_u32_operand2 insn _ _ _ Hr Hop) as Hy. cbn [fst] in Hy.
  apply sim_bind. eapply sim_operand2; [exact Hp|exact Ht|exact Hok|exact Hop|].
  intros t2 m2 E2 Hc. cbn [fst snd] in *. fold (two_operands op).
  pose proof (shifter_carry_only _ _ _ _ Hc) as Hoc.
  pose proof (in_u32_ref_reg (reg_at insn 16) p (env m) Hr) as Hx.
  assert (Hend : forall t m1 L, tmp m1 t2 = Some y -> env m1 = env m2 -> L = (if two_operands op then [t2; t] else [t2]) ->
    (two_operands op = true -> tmp m1 t = Some (ref_reg (reg_at insn 16) p (env m)) /\ t <> t2) ->
    sim (ok <- gen_data_op env0 op (ctrue (cbool s)) (s && logic_op op) (reg_at insn 12) t t2 ;;
         when (ok && two_operands op) (dead_tmp t2) ;; gret ok) (mkView L d lab) m1 (insn_post p [] d lab ef)).
  { intros t m1 L Et2 Em -> Htwo. rewrite ctrue_cbool. apply sim_bind.
    eapply sim_conseq; [eapply sim_data_op with (e := env m); [exact Hok|exact Et2|exact Hx|exact Hy|exact Ho|reflexivity|exact Htwo|by rewrite Em|exact Href]|].
    intros ok v' m' Hpost. apply sim_bind, sim_when; intros Hb; destruct ef as [e'|e'|k e']; cbn [insn_post] in Hpost.
    - destruct Hpost as (-> & -> & Hpost). cbn in Hb. rewrite Hb. eapply (sim_dead_tmp t2 []); [done|]. by apply sim_ret.
    - destruct Hpost as (-> & (j & Hj & ->) & Hpost). cbn in Hb. rewrite Hb. eapply (sim_dead_tmp t2 []); [done|].
      apply sim_ret. split; [done|]. split; [by exists j|done].
    - destruct Hpost as [-> _]. done.
    - destruct Hpost as (-> & -> & Hpost). cbn in Hb. rewrite Hb. by apply sim_ret.
    - destruct Hpost as (-> & (j & Hj & ->) & Hpost). cbn in Hb. rewrite Hb. apply sim_ret. split; [done|]. split; [by exists j|done].
    - by apply sim_ret. }
  apply sim_bind. destruct (two_operands op) eqn:Htwo.
  - apply (sim_load_reg _ p); [done..|cbn; unfold MAX_TEMPS; lia|]. intros t Hn. cbn [v_live v_dc v_label app] in *.
    assert (t <> t2) by (intros ->; apply Hn; left). apply Hend; [rewrite tmp_set_ne by congruence; exact E2|done|done|]. intros _.
    split; [|done]. rewrite tmp_set_eq. by rewrite (ref_reg_carry _ _ _ Hoc).
  - apply sim_ret. apply Hend; [exact E2|done|done|done].
Qed.
End DataInsn.
