(* ===== verification/ArmBlock.v ===== *)
(** * Translated blocks

    The code of [gen_intermediate_code]: the branch around a conditional
    instruction, instruction after instruction until the block ends, and how
    it ends. Running the code is running the instructions. *)
From S2P Require Import Prelude GuestMem ArmCpu ArmArith Tcg ArmTranslate ArmManual ArmData.
From stdpp Require Import list sets.
#[local] Open Scope Z_scope.
#[local] Open Scope gen_scope.

(** ** States that differ in the program counter too

    A patched jump leaves the program counter behind; the code of the next
    block does not read it. *)

Definition pc_equiv (e1 e2 : CPUARMState) : Prop :=
  (forall f, f ∉ flag_fields -> fld e1 f = fld e2 f) /\ flag_view e1 = flag_view e2 /\
  (forall a, a <> regs -> arrs e1 a = arrs e2 a) /\ <[15%nat := 0]> (arrs e1 regs) = <[15%nat := 0]> (arrs e2 regs).
Infix "≃" := pc_equiv (at level 70, no associativity).

#[global] Instance pc_equiv_equiv : Equivalence pc_equiv.
Proof.
  split.
  - by intros e.
  - intros e1 e2 (F & V & A & R). split; [intros; symmetry; auto|]. split; [done|]. split; [intros; symmetry; auto|done].
  - intros e1 e2 e3 (F1 & V1 & A1 & R1) (F2 & V2 & A2 & R2). split; [intros f Hf; rewrite F1, F2; done|].
    split; [congruence|]. split; [intros a Ha; rewrite A1, A2; done|congruence].
Qed.

Lemma equiv_pc_equiv e1 e2 : e1 ≈ e2 -> e1 ≃ e2.
Proof. intros (F & V & A). split; [done|]. split; [done|]. split; [auto|]. by rewrite A. Qed.

Lemma pc_equiv_set_pc x e1 e2 : e1 ≃ e2 -> sete regs 15 x e1 ≈ sete regs 15 x e2.
Proof.
  intros (F & V & A & R). split; [exact F|]. split; [exact V|]. intros a. cbn. case_decide as Ha; [|auto]. subst.
  rewrite <- (list_insert_insert_eq (arrs e1 regs) 15 x 0), <- (list_insert_insert_eq (arrs e2 regs) 15 x 0). by rewrite R.
Qed.

Lemma pc_equiv_sete r x e1 e2 : e1 ≃ e2 -> sete regs r x e1 ≃ sete regs r x e2.
Proof.
  intros (F & V & A & R). split; [exact F|]. split; [exact V|]. split.
  - intros a Ha. cbn. rewrite !decide_False by done. by apply A.
  - cbn. rewrite !decide_True by done. destruct (decide (r = 15%nat)) as [->|Hr].
    + by rewrite !list_insert_insert_eq, R.
    + by rewrite !(list_insert_insert_ne _ 15 r), R by done.
Qed.

Lemma pc_equiv_elt r e1 e2 : e1 ≃ e2 -> r <> 15%nat -> elt e1 regs r = elt e2 regs r.
Proof.
  intros (_ & _ & _ & R) Hr. unfold elt. rewrite <- (list_lookup_insert_ne (arrs e1 regs) 15 r 0), R by done.
  by rewrite list_lookup_insert_ne.
Qed.

Lemma pc_equiv_setf f x e1 e2 : e1 ≃ e2 -> f ∉ flag_fields -> setf f x e1 ≃ setf f x e2.
Proof.
  intros (F & V & A & R) Hf. split; [intros g Hg; cbn; case_decide; auto|]. split; [|done].
  unfold flag_view, flag_fields in *. cbn. by rewrite !decide_False by (intros <-; apply Hf; set_solver).
Qed.
Lemma pc_equiv_carry c e1 e2 : e1 ≃ e2 -> setf CF c e1 ≃ setf CF c e2.
Proof.
  intros (F & V & A & R). split; [intros f Hf; cbn; case_decide; auto|]. split; [|done].
  unfold flag_view in *. cpu_simpl. congruence.
Qed.
Lemma pc_equiv_flags n z c v e1 e2 : e1 ≃ e2 -> set_flags n z c v e1 ≃ set_flags n z c v e2.
Proof.
  intros (F & V & A & R). split; [|split; [by rewrite !set_flags_view|done]].
  intros f Hf. unfold set_flags. cbn. repeat (case_decide; [done|]). by apply F.
Qed.

(** ** The reference on such states *)

Definition effect_equiv (ef1 ef2 : effect) : Prop :=
  match ef1, ef2 with
  | Follows e1, Follows e2 => e1 ≃ e2
  | Jumps e1, Jumps e2 => e1 ≈ e2
  | Traps x1 e1, Traps x2 e2 => x1 = x2 /\ e1 ≈ e2
  | _, _ => False
  end.

Lemma effect_equiv_sym ef1 ef2 : effect_equiv ef1 ef2 -> effect_equiv ef2 ef1.
Proof. destruct ef1, ef2; cbn; try done; intros H; [by symmetry..|]. destruct H as [-> H]. split; [done|by symmetry]. Qed.

Section Equiv.
Context (v7 user : bool) (insn p : Z) (e1 e2 : CPUARMState) (He : e1 ≃ e2).

Lemma equiv_view : flag_view e1 = flag_view e2.
Proof. apply He. Qed.
Lemma equiv_reg r : ref_reg r p e1 = ref_reg r p e2.
Proof. unfold ref_reg. destruct (Nat.eqb_spec r 15); [done|]. by apply pc_equiv_elt. Qed.
Lemma equiv_operand2 flags : ref_operand2 insn p flags e1 = ref_operand2 insn p flags e2.
Proof. unfold ref_operand2, ref_carry. by rewrite equiv_view, !equiv_reg. Qed.
Lemma equiv_alu op x y shc : ref_alu op x y shc e1 = ref_alu op x y shc e2.
Proof. unfold ref_alu. by rewrite equiv_view. Qed.

Lemma equiv_result op s rd shc rcv ef1 :
  ref_result v7 user op s rd p shc rcv e1 = Ok ef1 ->
  exists ef2, ref_result v7 user op s rd p shc rcv e2 = Ok ef2 /\ effect_equiv ef1 ef2.
Proof.
  unfold ref_result. destruct rcv as [[r c] v].
  set (x1 := if s then set_flags (Z.testbit r 31) (r =? 0) c v e1 else e1).
  set (x2 := if s then set_flags (Z.testbit r 31) (r =? 0) c v e2 else e2).
  assert (Hx : x1 ≃ x2) by (unfold x1, x2; destruct s; [by apply pc_equiv_flags|done]). clearbody x1 x2.
  destruct (_ && _); [intros [= <-]; by eexists|]. destruct (rd =? 15)%nat; [|intros [= <-]; eexists; split; [done|by apply pc_equiv_sete]].
  destruct (s && _).
  2: { intros [= <-]. eexists. split; [done|]. apply pc_equiv_set_pc. destruct v7; [|done]. apply pc_equiv_setf; [done|unfold flag_fields; set_solver]. }
  destruct user.
  - intros [= <-]. eexists. split; [done|]. split; [done|]. apply pc_equiv_set_pc. destruct (op =? 13); [by apply pc_equiv_carry|done].
  - assert (Hsp : fld e1 spsr = fld e2 spsr) by (apply He; unfold flag_fields; set_solver).
    cpu_simpl. rewrite <- Hsp. cbn zeta. intros H. apply rbind_Ok in H as (y1 & E & [= <-]).
    assert (Hs : same_but_flags (sete regs 15 (Z.land r 4294967294) e2) (sete regs 15 (Z.land r 4294967294) e1)).
    { destruct (pc_equiv_set_pc (Z.land r 4294967294) _ _ He) as (F & _ & A). by split. }
    destruct (cpsr_write_equiv _ _ _ _ Hs E) as (y2 & -> & Hy). by eexists.
Qed.

Lemma equiv_insn ef1 :
  ref_insn v7 user insn p e1 = Ok ef1 -> exists ef2, ref_insn v7 user insn p e2 = Ok ef2 /\ effect_equiv ef1 ef2.
Proof.
  unfold ref_insn, ref_exec, ref_data. unfold ConditionPassed. rewrite <- equiv_view. fold (ConditionPassed (Z.shiftr insn 28) e1).
  destruct (ConditionPassed _ _); [|intros [= <-]; by eexists].
  destruct (is_data_processing insn).
  - rewrite <- equiv_operand2. destruct (ref_operand2 _ _ _ _) as [[y shc]| |]; cbn [rbind]; [|done..].
    rewrite <- equiv_reg, <- equiv_alu. apply equiv_result.
  - destruct (_ =? 15); intros [= <-]; (eexists; split; [reflexivity|]).
    + split; [done|]. by apply pc_equiv_set_pc.
    + unfold ref_branch, effect_equiv. apply pc_equiv_set_pc. destruct (Z.testbit insn 24); [by apply pc_equiv_sete|done].
Qed.
End Equiv.

(** ** What instructions leave alone

    An instruction that does not end its block changes registers and flags
    only. *)

Definition same_ctx (e e' : CPUARMState) : Prop :=
  (forall f, f ∉ flag_fields -> fld e' f = fld e f) /\ (forall a, a <> regs -> arrs e' a = arrs e a).

#[global] Instance same_ctx_preorder : PreOrder same_ctx.
Proof. split; [by intros e|]. intros e1 e2 e3 [F1 A1] [F2 A2]. split; intros; [rewrite F2, F1|rewrite A2, A1]; done. Qed.

Lemma same_ctx_sete r x e : same_ctx e (sete regs r x e).
Proof. split; [done|]. intros a Ha. cbn. by rewrite decide_False. Qed.
Lemma same_ctx_flags n z c v e : same_ctx e (set_flags n z c v e).
Proof.
  split; [|done]. intros f Hf. unfold set_flags, flag_fields in *. cbn. by rewrite !decide_False by (intros ->; apply Hf; set_solver).
Qed.
Lemma same_ctx_pc_equiv e e1 e2 : same_ctx e e1 -> e1 ≃ e2 -> same_ctx e e2.
Proof. intros [F A] (F2 & _ & A2 & _). split; intros; [rewrite <- F2, F|rewrite <- A2, A]; done. Qed.

Lemma follows_ctx v7 user insn p e e' : ref_insn v7 user insn p e = Ok (Follows e') -> same_ctx e e'.
Proof.
  unfold ref_insn. destruct (ConditionPassed _ _); [|by intros [= <-]]. unfold ref_exec, ref_data.
  destruct (is_data_processing insn); [|by destruct (_ =? 15)].
  destruct (ref_operand2 _ _ _ _) as [[y shc]| |]; cbn [rbind]; [|done..]. unfold ref_result.
  destruct (ref_alu _ _ _ _ _) as [[r c] v].
  assert (Hs : forall s : bool, same_ctx e (if s then set_flags (Z.testbit r 31) (r =? 0) c v e else e))
    by (intros []; [apply same_ctx_flags|done]).
  destruct (_ && _); [by intros [= <-]|]. destruct (_ =? 15)%nat; [|intros [= <-]; etransitivity; [apply Hs|apply same_ctx_sete]].
  destruct (_ && _); [|done]. destruct user; [done|]. cbn zeta. intros H. by apply rbind_Ok in H as (? & ? & ?).
Qed.

(** ** Code with branches *)

(** Where the execution of a prefix of the code stands: at the end of the
    prefix, on its way to a label, or finished. *)
Inductive xstate := Running (m : machine) | Skipping (l : nat) (m : machine) | Ended (o : outcome).

Section Linked.
(** The jumps that were patched. *)
Context (linked : Z -> bool).

Definition exec_from (st : xstate) (ops : list tcg_op) : res outcome :=
  match st with
  | Running m => exec linked None ops m
  | Skipping l m => exec linked (Some l) ops m
  | Ended o => Ok o
  end.

Definition idle (st : xstate) : Prop := match st with Running _ => False | _ => True end.

(** As [sim], for code that may branch or end. *)
Definition xsim {A} (g : G A) (v : view) (st : xstate) (Q : A -> view -> xstate -> Prop) : Prop :=
  forall s, sees s v -> exists a s' c st' v',
    g s = Ok (a, s') /\ code s' = code s ++ c /\ (forall rest, exec_from st (c ++ rest) = exec_from st' rest) /\
    sees s' v' /\ Q a v' st'.

Lemma xsim_ret {A} (a : A) v st Q : Q a v st -> xsim (gret a) v st Q.
Proof. intros H s Hs. exists a, s, [], st, v. by rewrite app_nil_r. Qed.

Lemma xsim_bind {A B} (g : G A) (k : A -> G B) v st Q :
  xsim g v st (fun a v' st' => xsim (k a) v' st' Q) -> xsim (gbind g k) v st Q.
Proof.
  intros H s Hs. destruct (H s Hs) as (a & s1 & c1 & st1 & v1 & E1 & C1 & R1 & S1 & K).
  destruct (K s1 S1) as (b & s2 & c2 & st2 & v2 & E2 & C2 & R2 & S2 & HQ).
  exists b, s2, (c1 ++ c2), st2, v2. unfold gbind. rewrite E1. cbn [rbind].
  split; [done|]. split; [by rewrite C2, C1, app_assoc|]. split; [|done].
  intros rest. by rewrite <- app_assoc, R1, R2.
Qed.

Lemma xsim_conseq {A} (g : G A) v st (Q Q' : A -> view -> xstate -> Prop) :
  xsim g v st Q -> (forall a v' st', Q a v' st' -> Q' a v' st') -> xsim g v st Q'.
Proof.
  intros H Hi s Hs. destruct (H s Hs) as (a & s' & c & st' & v' & ? & ? & ? & ? & ?).
  exists a, s', c, st', v'. auto 10.
Qed.

(** Straight-line code, run or skipped. *)
Lemma xsim_running {A} (g : G A) v m Q :
  sim g v m (fun a v' m' => Q a v' (Running m')) -> xsim g v (Running m) Q.
Proof.
  intros H s Hs. destruct (H s Hs) as (a & s' & c & m' & v' & E & C & R & _ & S & HQ).
  exists a, s', c, (Running m'), v'. split; [done|]. split; [done|]. split; [|done].
  intros rest. by apply exec_straight.
Qed.

Lemma exec_idle st c rest : idle st -> labels c = [] -> exec_from st (c ++ rest) = exec_from st rest.
Proof. destruct st; [done|..]; intros _ Hl; cbn; [|done]. apply exec_skip. rewrite Hl. apply not_elem_of_nil. Qed.

Lemma xsim_idle {A} (g : G A) v m st Q0 Q :
  sim g v m Q0 -> idle st -> (forall a v' m', Q0 a v' m' -> Q a v' st) -> xsim g v st Q.
Proof.
  intros H Hi HQ s Hs. destruct (H s Hs) as (a & s' & c & m' & v' & E & C & _ & L & S & H0).
  exists a, s', c, st, v'. split; [done|]. split; [done|]. split; [intros rest; by apply exec_idle|]. eauto.
Qed.

(** The machine without temporaries. *)
Definition fresh (e : CPUARMState) : machine := mkM (fun _ => None) e.

(** Code that changes the state only. [moved f] relates the states before and
    after code that applies [f], which idle states skip. *)
Definition moved (f : CPUARMState -> CPUARMState) (st st' : xstate) : Prop :=
  match st with Running m => exists m', st' = Running m' /\ env m' = f (env m) | _ => st' = st end.
Definition leaves (f : CPUARMState -> outcome) (st : xstate) : xstate :=
  match st with Running m => Ended (f (env m)) | _ => st end.

Lemma xsim_moved {A} (g : G A) v st f (P : A -> view -> Prop) Q :
  (forall m, sim g v m (fun a v' m' => env m' = f (env m) /\ P a v')) ->
  (forall a v' st', moved f st st' -> P a v' -> Q a v' st') -> xsim g v st Q.
Proof.
  intros Hg HQ. destruct st as [m|l m|o].
  - apply xsim_running. eapply sim_conseq; [apply Hg|]. intros a v' m' [Em HP]. apply HQ; [|done]. cbn. eauto.
  - eapply (xsim_idle _ _ m); [apply Hg|done|]. intros a v' m' [_ HP]. by apply HQ.
  - eapply (xsim_idle _ _ (fresh (mkCPU (fun _ => 0) (fun _ => [])))); [apply Hg|done|]. intros a v' m' [_ HP]. by apply HQ.
Qed.

Lemma xsim_emit o v st st' (Q : unit -> view -> xstate -> Prop) :
  (forall rest, exec_from st (o :: rest) = exec_from st' rest) -> Q tt v st' -> xsim (emit o) v st Q.
Proof.
  intros Ho HQ s Hs. eexists tt, _, [o], st', v. split; [reflexivity|]. split; [done|]. split; [exact Ho|]. by split.
Qed.

(** Actions that emit nothing. *)
Lemma xsim_pure {A} (g : G A) v st (P : A -> view -> Prop) (Q : A -> view -> xstate -> Prop) :
  (forall m, sim g v m (fun a v' m' => m' = m /\ P a v')) -> (forall a v', P a v' -> Q a v' st) -> xsim g v st Q.
Proof.
  intros Hg HQ. destruct st as [m|l m|o].
  - apply xsim_running. eapply sim_conseq; [apply Hg|]. intros a v' m' [-> HP]. by apply HQ.
  - eapply (xsim_idle _ _ m); [apply Hg|done|]. intros a v' m' [_ HP]. by apply HQ.
  - eapply (xsim_idle _ _ (fresh (mkCPU (fun _ => 0) (fun _ => [])))); [apply Hg|done|]. intros a v' m' [_ HP]. by apply HQ.
Qed.

Lemma xsim_dead_tmp t L v st (Q : unit -> view -> xstate -> Prop) :
  v_live v ≡ₚ t :: L -> Q tt (mkView L (v_dc v) (v_label v)) st -> xsim (dead_tmp t) v st Q.
Proof.
  intros HL HQ. apply (xsim_pure _ _ _ (fun _ v' => v' = mkView L (v_dc v) (v_label v))); [|by intros [] ? ->].
  intros m. by eapply sim_dead_tmp.
Qed.
Lemma xsim_get_dc v st (Q : DisasContext -> view -> xstate -> Prop) : Q (v_dc v) v st -> xsim get_dc v st Q.
Proof.
  intros HQ. apply (xsim_pure _ _ _ (fun a v' => a = v_dc v /\ v' = v)); [|by intros ? ? [-> ->]].
  intros m. by apply sim_get_dc.
Qed.
Lemma xsim_upd_dc f v st (Q : unit -> view -> xstate -> Prop) :
  Q tt (mkView (v_live v) (f (v_dc v)) (v_label v)) st -> xsim (upd_dc f) v st Q.
Proof.
  intros HQ. apply (xsim_pure _ _ _ (fun _ v' => v' = mkView (v_live v) (f (v_dc v)) (v_label v))); [|by intros [] ? ->].
  intros m. by apply sim_upd_dc.
Qed.
Lemma xsim_new_label v st (Q : nat -> view -> xstate -> Prop) :
  Q (v_label v) (mkView (v_live v) (v_dc v) (S (v_label v))) st -> xsim gen_new_label v st Q.
Proof.
  intros HQ. apply (xsim_pure _ _ _ (fun l v' => l = v_label v /\ v' = mkView (v_live v) (v_dc v) (S (v_label v))));
    [|by intros ? ? [-> ->]].
  intros m. by apply sim_new_label.
Qed.
Lemma xsim_when (b : bool) g v st (Q : unit -> view -> xstate -> Prop) :
  (b = true -> xsim g v st Q) -> (b = false -> Q tt v st) -> xsim (when b g) v st Q.
Proof. destruct b; cbn; intros H1 H2; [by apply H1|]. by apply xsim_ret, H2. Qed.

(** ** Conditions *)

Lemma sim_load_field f v m (Q : TCGv -> view -> machine -> Prop) :
  (length (v_live v) < MAX_TEMPS)%nat ->
  (forall t, t ∉ v_live v -> Q t (mkView (v_live v ++ [t]) (v_dc v) (v_label v)) (set_tmp t (fld (env m) f) m)) ->
  sim (load_cpu_field f) v m Q.
Proof.
  intros Hl HQ. unfold load_cpu_field. apply sim_bind, sim_new_tmp; [done|]. intros t Ht. apply sim_bind, sim_ld, sim_ret. by apply HQ.
Qed.

Definition branch_to (b : bool) (l : nat) (e : CPUARMState) : xstate := if b then Skipping l (fresh e) else Running (fresh e).

Lemma xsim_brcondi c t l x v m (Q : unit -> view -> xstate -> Prop) :
  tmp m t = Some x -> Q tt v (branch_to (eval_cond c x 0) l (env m)) -> xsim (tcg_gen_brcondi_i32 c t 0 l) v (Running m) Q.
Proof.
  intros Et HQ. refine (xsim_emit _ _ _ _ _ _ HQ). intros rest. cbn [exec_from exec tcg_gen_brcondi_i32 app]. unfold read_tmp.
  rewrite Et. cbn [rbind read_arg]. change (u32 0) with 0.
  unfold branch_to. destruct (eval_cond c x 0); reflexivity.
Qed.

Lemma xsim_skip_emit o l v m (Q : unit -> view -> xstate -> Prop) :
  o <> op_set_label l -> Q tt v (Skipping l m) -> xsim (emit o) v (Skipping l m) Q.
Proof.
  intros Ho HQ. refine (xsim_emit _ _ _ _ _ _ HQ). intros rest. destruct o; try done. cbn.
  destruct (Nat.eqb_spec l label) as [->|]; done.
Qed.

Lemma xsim_set_label l v st e (Q : unit -> view -> xstate -> Prop) :
  (exists m, (st = Running m \/ st = Skipping l m) /\ env m = e) -> Q tt v (Running (fresh e)) -> xsim (gen_set_label l) v st Q.
Proof.
  intros (m & [->| ->] & <-) HQ; (refine (xsim_emit _ _ _ _ _ _ HQ)); intros rest; cbn; [done|]. by rewrite Nat.eqb_refl.
Qed.

Section Conditions.
Context (l : nat) (d : DisasContext) (lab : nat) (Hl : (l < lab)%nat) (e : CPUARMState) (Hwf : flags_wf e).

(** A branch on one flag, and on N being V. *)
Lemma xsim_flag f c m (k : nat) (Q : TCGv -> view -> xstate -> Prop) :
  env m = e ->
  (forall t, Q t (mkView [t] d k) (branch_to (eval_cond c (fld e f) 0) l e)) ->
  xsim (tmp <- load_cpu_field f ;; tcg_gen_brcondi_i32 c tmp 0 l ;; gret tmp) (mkView [] d k) (Running m) Q.
Proof.
  intros Em HQ. apply xsim_bind, xsim_running, sim_load_field; [cbn; unfold MAX_TEMPS; lia|]. intros t _. apply xsim_bind.
  eapply xsim_brcondi; [apply tmp_set_eq|]. cbn [env set_tmp]. rewrite Em. apply xsim_ret, HQ.
Qed.

Lemma xsim_n_xor_v c m (k : nat) (Q : TCGv -> view -> xstate -> Prop) :
  env m = e ->
  (forall t, Q t (mkView [t] d k) (branch_to (eval_cond c (Z.lxor (fld e VF) (fld e NF)) 0) l e)) ->
  xsim (tmp <- load_cpu_field VF ;; tmp2 <- load_cpu_field NF ;; tcg_gen_xor_i32 tmp tmp tmp2 ;; dead_tmp tmp2 ;;
        tcg_gen_brcondi_i32 c tmp 0 l ;; gret tmp) (mkView [] d k) (Running m) Q.
Proof.
  intros Em HQ. apply xsim_bind, xsim_running, sim_load_field; [cbn; unfold MAX_TEMPS; lia|]. intros t _.
  apply xsim_bind, xsim_running, sim_load_field; [cbn; unfold MAX_TEMPS; lia|]. intros u Hu. cbn [v_live v_dc v_label app] in *.
  assert (Htu : t <> u) by (intros ->; apply Hu; left).
  apply xsim_bind, xsim_running. eapply sim_xor; [rewrite tmp_set_ne by done; apply tmp_set_eq|apply tmp_set_eq|done|].
  apply xsim_bind. eapply (xsim_dead_tmp u [t]); [apply Permutation_swap|]. apply xsim_bind.
  eapply xsim_brcondi; [apply tmp_set_eq|]. cbn [env set_tmp]. rewrite Em. apply xsim_ret, HQ.
Qed.

(** The same code skipped on the way to another label. *)
Lemma xsim_flag_skip f c m (k j : nat) (Q : TCGv -> view -> xstate -> Prop) :
  (forall t, Q t (mkView [t] d k) (Skipping j m)) ->
  xsim (tmp <- load_cpu_field f ;; tcg_gen_brcondi_i32 c tmp 0 l ;; gret tmp) (mkView [] d k) (Skipping j m) Q.
Proof.
  intros HQ. apply xsim_bind. eapply (xsim_idle _ _ m _ (fun t v' _ => v' = mkView [t] d k)); [|done|].
  { apply sim_load_field; [cbn; unfold MAX_TEMPS; lia|done]. }
  intros t v' _ ->. apply xsim_bind, xsim_skip_emit; [done|]. apply xsim_ret, HQ.
Qed.

Lemma xsim_n_xor_v_skip c m (k j : nat) (Q : TCGv -> view -> xstate -> Prop) :
  (forall t, Q t (mkView [t] d k) (Skipping j m)) ->
  xsim (tmp <- load_cpu_field VF ;; tmp2 <- load_cpu_field NF ;; tcg_gen_xor_i32 tmp tmp tmp2 ;; dead_tmp tmp2 ;;
        tcg_gen_brcondi_i32 c tmp 0 l ;; gret tmp) (mkView [] d k) (Skipping j m) Q.
Proof.
  intros HQ. apply xsim_bind. eapply (xsim_idle _ _ m _ (fun t v' _ => v' = mkView [t] d k)); [|done|].
  { apply sim_load_field; [cbn; unfold MAX_TEMPS; lia|done]. }
  intros t v' _ ->. apply xsim_bind.
  eapply (xsim_idle _ _ m _ (fun u v' _ => v' = mkView [t; u] d k /\ t <> u)); [|done|].
  { apply sim_load_field; [cbn; unfold MAX_TEMPS; lia|]. intros u Hu. split; [done|]. intros ->. apply Hu. left. }
  intros u v' _ [-> Htu]. apply xsim_bind. unfold tcg_gen_xor_i32. rewrite (proj2 (Nat.eqb_neq t u)) by done.
  apply xsim_skip_emit; [done|]. apply xsim_bind. eapply (xsim_dead_tmp u [t]); [apply Permutation_swap|].
  apply xsim_bind, xsim_skip_emit; [done|]. apply xsim_ret, HQ.
Qed.

Lemma cond_sign x : in_u32 x -> eval_cond TCG_COND_LT x 0 = Z.testbit x 31 /\ eval_cond TCG_COND_GE x 0 = negb (Z.testbit x 31).
Proof.
  intros Hx. cbn [eval_cond]. change (s32 0) with 0. rewrite sign32, s32_u32 by done.
  destruct (Z.ltb_spec x 2147483648); split; compare_cases.
Qed.

Lemma flag_signs :
  (forall c, c = TCG_COND_LT -> eval_cond c (fld e NF) 0 = Z.testbit (fld e NF) 31 /\ eval_cond c (fld e VF) 0 = Z.testbit (fld e VF) 31 /\
     eval_cond c (Z.lxor (fld e VF) (fld e NF)) 0 = negb (Bool.eqb (Z.testbit (fld e NF) 31) (Z.testbit (fld e VF) 31))) /\
  (forall c, c = TCG_COND_GE -> eval_cond c (fld e NF) 0 = negb (Z.testbit (fld e NF) 31) /\ eval_cond c (fld e VF) 0 = negb (Z.testbit (fld e VF) 31) /\
     eval_cond c (Z.lxor (fld e VF) (fld e NF)) 0 = Bool.eqb (Z.testbit (fld e NF) 31) (Z.testbit (fld e VF) 31)).
Proof.
  destruct Hwf as (_ & _ & _ & _ & _ & _ & _ & HN & HV). pose proof (in_u32_lxor _ _ HV HN) as HX.
  split; intros c ->; (split; [by apply cond_sign|]); (split; [by apply cond_sign|]);
    destruct (cond_sign _ HX) as [E1 E2]; rewrite ?E1, ?E2, Z.lxor_spec;
    by destruct (Z.testbit (fld e NF) 31), (Z.testbit (fld e VF) 31).
Qed.

(** The label inside a condition. *)
Lemma xsim_load_brcond f c j m v (k : TCGv -> G TCGv) (Q : TCGv -> view -> xstate -> Prop) :
  env m = e ->
  (forall t, xsim (k t) (mkView [t] d v) (branch_to (eval_cond c (fld e f) 0) j e) Q) ->
  xsim (t <- load_cpu_field f ;; tcg_gen_brcondi_i32 c t 0 j ;; k t) (mkView [] d v) (Running m) Q.
Proof.
  intros Em HQ. apply xsim_bind, xsim_running, sim_load_field; [cbn; unfold MAX_TEMPS; lia|]. intros t _. apply xsim_bind.
  eapply xsim_brcondi; [apply tmp_set_eq|]. cbn [env set_tmp]. rewrite Em. apply HQ.
Qed.

Lemma xsim_inv_label b j v (Q : unit -> view -> xstate -> Prop) :
  (l < j)%nat -> Q tt v (branch_to b l e) -> xsim (gen_set_label j) v (branch_to b l e) Q.
Proof.
  intros Hj HQ. destruct b; cbn in *; [|eapply xsim_set_label; [eauto|done]].
  apply xsim_skip_emit; [|done]. intros [= ->]. lia.
Qed.

(** The code of [gen_test_cc] goes to [l] when the condition holds. *)
Lemma xsim_test_cc cc m (Q : unit -> view -> xstate -> Prop) :
  0 <= cc < 14 -> env m = e ->
  (forall lab', (lab <= lab')%nat -> Q tt (mkView [] d lab') (branch_to (ConditionPassed cc e) l e)) ->
  xsim (gen_test_cc cc l) (mkView [] d lab) (Running m) Q.
Proof.
  intros Hcc Em HQ. destruct flag_signs as [HLT HGE]. destruct (HLT _ eq_refl) as (LN & LV & LX). destruct (HGE _ eq_refl) as (GN & GV & GX).
  assert (Hend : forall t lab' b, (lab <= lab')%nat -> b = ConditionPassed cc e ->
    xsim (dead_tmp t) (mkView [t] d lab') (branch_to b l e) Q).
  { intros t lab' b Hlab ->. eapply (xsim_dead_tmp t []); [done|]. by apply HQ. }
  assert (H14 : cc ∈ [0; 1; 2; 3; 4; 5; 6; 7; 8; 9; 10; 11; 12; 13]) by (set_unfold; lia).
  unfold gen_test_cc. set_unfold in H14. repeat (destruct H14 as [->|H14]); [..|done];
    cbn [Z.eqb Pos.eqb]; apply xsim_bind.
  all: try (apply xsim_flag; [done|]; intros t; apply Hend; [lia|]; cbn [eval_cond] in *; rewrite ?LN, ?LV, ?GN, ?GV; reflexivity).
  all: try (apply xsim_n_xor_v; [done|]; intros t; apply Hend; [lia|]; rewrite ?LX, ?GX; reflexivity).
  - apply xsim_flag; [done|]. intros t. apply Hend; [lia|]. symmetry. apply negb_involutive.
  - apply xsim_bind, xsim_new_label. cbn [v_live v_dc v_label]. apply xsim_load_brcond; [done|]. intros t. apply xsim_bind.
    eapply (xsim_dead_tmp t []); [done|]. apply xsim_bind. unfold branch_to at 1. destruct (eval_cond TCG_COND_EQ (fld e CF) 0) eqn:E.
    + apply xsim_flag_skip. intros u. apply xsim_bind. eapply xsim_set_label; [eauto|]. apply xsim_ret.
      apply (Hend u (S lab) false); [lia|]. unfold ConditionPassed. cbn in E |- *. unfold ctrue. by rewrite E.
    + apply xsim_flag; [done|]. intros u. apply xsim_bind. apply xsim_inv_label; [lia|]. apply xsim_ret, (Hend u (S lab)); [lia|].
      unfold ConditionPassed. cbn in E |- *. unfold ctrue. by rewrite E.
  - apply xsim_bind, xsim_flag; [done|]. intros t. apply xsim_bind. eapply (xsim_dead_tmp t []); [done|].
    unfold branch_to at 1. destruct (eval_cond TCG_COND_EQ (fld e CF) 0) eqn:E.
    + apply xsim_flag_skip. intros u. apply (Hend u lab true); [lia|]. unfold ConditionPassed. cbn in E |- *. unfold ctrue. by rewrite E.
    + apply xsim_flag; [done|]. intros u. apply (Hend u lab); [lia|]. unfold ConditionPassed. cbn in E |- *. unfold ctrue. rewrite E.
      by destruct (fld e ZF =? 0).
  - apply xsim_bind, xsim_new_label. cbn [v_live v_dc v_label]. apply xsim_load_brcond; [done|]. intros t. apply xsim_bind.
    eapply (xsim_dead_tmp t []); [done|]. apply xsim_bind. unfold branch_to at 1. destruct (eval_cond TCG_COND_EQ (fld e ZF) 0) eqn:E.
    + apply xsim_n_xor_v_skip. intros u. apply xsim_bind. eapply xsim_set_label; [eauto|]. apply xsim_ret.
      apply (Hend u (S lab) false); [lia|]. unfold ConditionPassed. cbn in E |- *. rewrite E. by destruct (Bool.eqb _ _).
    + apply xsim_n_xor_v; [done|]. intros u. apply xsim_bind. apply xsim_inv_label; [lia|]. apply xsim_ret, (Hend u (S lab)); [lia|].
      rewrite GX. unfold ConditionPassed. cbn in E |- *. rewrite E. by destruct (Bool.eqb _ _).
  - apply xsim_bind, xsim_flag; [done|]. intros t. apply xsim_bind. eapply (xsim_dead_tmp t []); [done|].
    unfold branch_to at 1. destruct (eval_cond TCG_COND_EQ (fld e ZF) 0) eqn:E.
    + apply xsim_n_xor_v_skip. intros u. apply (Hend u lab true); [lia|]. unfold ConditionPassed. cbn in E |- *. rewrite E. by destruct (Bool.eqb _ _).
    + apply xsim_n_xor_v; [done|]. intros u. apply (Hend u lab); [lia|]. rewrite LX. unfold ConditionPassed. cbn in E |- *. rewrite E.
      by destruct (Bool.eqb _ _).
Qed.
End Conditions.

(** ** Jumps and exceptions *)

(** Code that ends the block with [f] applied to the state. *)
Definition traps (x : Z) (f : CPUARMState -> CPUARMState) (st : xstate) : xstate :=
  match st with Running m => Ended (Raise x (setf exception_index x (f (env m)))) | _ => st end.

Lemma exec_from_idle st o rest : idle st -> labels [o] = [] -> exec_from st (o :: rest) = exec_from st rest.
Proof. intros Hi Hl. exact (exec_idle st [o] rest Hi Hl). Qed.

Lemma xsim_exit_tb n v st (Q : unit -> view -> xstate -> Prop) :
  Q tt v (leaves (Leave n) st) -> xsim (tcg_gen_exit_tb n) v st Q.
Proof.
  intros HQ. refine (xsim_emit _ _ _ _ _ _ HQ). intros rest. destruct st; [done|..]; by apply exec_from_idle.
Qed.

Lemma moved_leaves f g st st' : moved f st st' -> leaves g st' = leaves (fun e => g (f e)) st.
Proof. destruct st; cbn; [|by intros ->..]. intros (m' & -> & Em). cbn. by rewrite Em. Qed.
Lemma moved_traps x f g st st' : moved f st st' -> traps x g st' = traps x (fun e => g (f e)) st.
Proof. destruct st; cbn; [|by intros ->..]. intros (m' & -> & Em). cbn. by rewrite Em. Qed.

Lemma xsim_set_pc_im a v st (Q : unit -> view -> xstate -> Prop) :
  (length (v_live v) < MAX_TEMPS)%nat -> (forall st', moved (sete regs 15 (u32 a)) st st' -> Q tt v st') ->
  xsim (gen_set_pc_im a) v st Q.
Proof.
  intros Hl HQ. apply (xsim_moved _ _ _ (sete regs 15 (u32 a)) (fun _ v' => v' = v)); [|by intros [] v' st' Hm ->; apply HQ].
  intros m. unfold gen_set_pc_im, store_cpu_offset. apply sim_bind, sim_new_tmp; [exact Hl|]. intros t _.
  apply sim_bind, sim_movi, sim_bind. eapply sim_st; [apply tmp_set_eq|].
  eapply (sim_dead_tmp t (v_live v)); [apply snoc_perm|]. cbn [v_dc v_label]. rewrite view_eta. done.
Qed.

(** A jump within the page can be patched; then the program counter is not
    written. *)
Definition jump_out (tb n dest : Z) (e : CPUARMState) : outcome :=
  if page_of tb =? page_of dest then
    if linked n then Goto n e else Leave (Some n) (sete regs 15 (u32 dest) e)
  else Leave None (sete regs 15 (u32 dest) e).

Lemma xsim_goto_tb n dest v st (Q : unit -> view -> xstate -> Prop) :
  (length (v_live v) < MAX_TEMPS)%nat -> Q tt v (leaves (jump_out (tb_pc (v_dc v)) n dest) st) -> xsim (gen_goto_tb n dest) v st Q.
Proof.
  intros Hl HQ. unfold gen_goto_tb. apply xsim_bind, xsim_get_dc. unfold jump_out in HQ.
  assert (Hend : forall k st1, (forall st', moved (sete regs 15 (u32 dest)) st1 st' -> Q tt v (leaves (Leave k) st')) ->
    xsim (gen_set_pc_im dest ;; tcg_gen_exit_tb k) v st1 Q).
  { intros k st1 H. apply xsim_bind, xsim_set_pc_im; [exact Hl|]. intros st' Hm. apply xsim_exit_tb. by apply H. }
  destruct (_ =? _).
  - apply xsim_bind. destruct (linked n) eqn:Hn.
    + refine (xsim_emit _ _ _ (leaves (Goto n) st) _ _ _).
      { intros rest. destruct st; [cbn; by rewrite Hn|..]; by apply exec_from_idle. }
      apply Hend. intros st' Hm. destruct st; cbn in *; by subst.
    + refine (xsim_emit _ _ _ st _ _ _); [intros rest; destruct st; [cbn; by rewrite Hn|..]; by apply exec_from_idle|].
      apply Hend. intros st' Hm. by rewrite (moved_leaves _ _ _ _ Hm).
  - apply Hend. intros st' Hm. by rewrite (moved_leaves _ _ _ _ Hm).
Qed.

Lemma xsim_exception x v st (Q : unit -> view -> xstate -> Prop) :
  in_u32 x -> (length (v_live v) < MAX_TEMPS)%nat -> Q tt v (traps x id st) -> xsim (gen_exception x) v st Q.
Proof.
  intros Hx Hl HQ. unfold gen_exception. apply xsim_bind.
  assert (Hend : forall t st' (Q' : unit -> view -> xstate -> Prop), Q' tt v st' -> xsim (dead_tmp t) (mkView (v_live v ++ [t]) (v_dc v) (v_label v)) st' Q').
  { intros t st' Q' H. eapply (xsim_dead_tmp t (v_live v)); [apply snoc_perm|]. cbn [v_dc v_label]. by rewrite view_eta. }
  destruct st as [m|l m|o].
  - apply xsim_running, sim_new_tmp; [exact Hl|]. intros t _. apply xsim_bind, xsim_running, sim_movi, xsim_bind.
    refine (xsim_emit _ _ _ (traps x id (Running m)) _ _ _); [|by apply Hend].
    intros rest. cbn [exec_from exec step read_args read_arg]. erewrite read_tmp_some by apply tmp_set_eq.
    cbn [rbind call_helper]. rewrite uwrap_small by (simpl; lia). done.
  - eapply (xsim_idle _ _ m _ (fun t v' _ => v' = mkView (v_live v ++ [t]) (v_dc v) (v_label v))); [apply sim_new_tmp; done|done|].
    intros t v' _ ->. apply xsim_bind, xsim_skip_emit; [done|]. apply xsim_bind, xsim_skip_emit; [done|]. by apply Hend.
  - apply (xsim_pure _ _ _ (fun t v' => v' = mkView (v_live v ++ [t]) (v_dc v) (v_label v))).
    { intros m. by apply sim_new_tmp. }
    intros t v' ->. apply xsim_bind. refine (xsim_emit _ _ _ (Ended o) _ _ _); [done|]. apply xsim_bind.
    refine (xsim_emit _ _ _ (Ended o) _ _ _); [done|]. by apply Hend.
Qed.

(** The context of a block whose translation started outside any IT block. *)
Definition plain (d : DisasContext) : Prop :=
  condexec_mask d = 0 /\ condexec_mask_prev d = 0 /\ singlestep_enabled d = false /\ dc_thumb d = false.

Lemma xsim_set_condexec v st (Q : unit -> view -> xstate -> Prop) :
  plain (v_dc v) -> Q tt v st -> xsim gen_set_condexec v st Q.
Proof.
  intros (H1 & H2 & _) HQ. unfold gen_set_condexec. apply xsim_bind, xsim_get_dc. rewrite H1, H2. cbn. by apply xsim_ret.
Qed.

Lemma xsim_illegal L d lab st (Q : unit -> view -> xstate -> Prop) :
  plain d -> (length L < MAX_TEMPS)%nat ->
  Q tt (mkView L (set_is_jmp DISAS_JUMP d) lab) (traps EXCP_UDEF (sete regs 15 (u32 (pc d - 4))) st) ->
  xsim disas_illegal (mkView L d lab) st Q.
Proof.
  intros Hd Hl HQ. unfold disas_illegal. apply xsim_bind, xsim_get_dc. apply xsim_bind, xsim_set_condexec; [exact Hd|].
  apply xsim_bind, xsim_set_pc_im; [exact Hl|]. intros st' Hm. apply xsim_bind, xsim_exception; [done|exact Hl|].
  apply xsim_upd_dc. rewrite (moved_traps _ _ _ _ _ Hm). cbn [v_dc]. rewrite uwrap_idem by lia. exact HQ.
Qed.

Lemma branch_offset insn : in_u32 insn ->
  Z.shiftr (s32 (Z.shiftl insn 8)) 8 = bits insn 0 24 - (if Z.testbit insn 23 then 2 ^ 24 else 0).
Proof.
  intros Hi. unfold bits. rewrite Z.shiftr_0_r, Z.land_ones by lia. rewrite Z.shiftl_mul_pow2, Z.shiftr_div_pow2 by lia.
  change (2 ^ 24) with 16777216. change (2 ^ 8) with 256.
  assert (Hb : Z.testbit insn 23 = (8388608 <=? insn mod 16777216)).
  { rewrite Z.testbit_eqb by lia. change (2 ^ 23) with 8388608.
    pose proof (Z.mod_pos_bound insn 16777216 ltac:(lia)). pose proof (Z.div_mod insn 16777216 ltac:(lia)).
    destruct (Z.leb_spec 8388608 (insn mod 16777216)).
    - assert (insn / 8388608 = 2 * (insn / 16777216) + 1) as ->
        by (symmetry; apply Z.div_unique with (insn mod 16777216 - 8388608); lia).
      rewrite Z.add_comm, Z.mul_comm, Z.mod_add by lia. done.
    - assert (insn / 8388608 = 2 * (insn / 16777216)) as -> by (symmetry; apply Z.div_unique with (insn mod 16777216); lia).
      rewrite Z.mul_comm, Z.mod_mul by lia. done. }
  rewrite Hb. unfold swrap. change (2 ^ 32) with (256 * 16777216). change (2 ^ (32 - 1)) with (256 * 8388608).
  rewrite (Z.mul_comm insn), Z.mul_mod_distr_l by lia.
  destruct (Z.ltb_spec (256 * (insn mod 16777216)) (256 * 8388608)); destruct (Z.leb_spec 8388608 (insn mod 16777216)); try lia.
  - rewrite Z.mul_comm, Z.div_mul by lia. lia.
  - rewrite <- Z.mul_sub_distr_l, Z.mul_comm, Z.div_mul by lia. done.
Qed.

Section Classes.
Context (env0 : CPUARMState) (p : Z) (d : DisasContext) (lab : nat).
Context (Hp : pc d = u32 (p + 4)) (Hd : plain d).

(** The link register, and the jump. *)
Definition link (insn : Z) (e : CPUARMState) : CPUARMState :=
  if Z.testbit insn 24 then sete regs 14 (u32 (p + 4)) e else e.
Definition branch_out (insn : Z) (e : CPUARMState) : outcome :=
  jump_out (tb_pc d) 0 (branch_target insn p) (link insn e).

Lemma xsim_branch insn st (Q : unit -> view -> xstate -> Prop) :
  in_u32 insn ->
  Q tt (mkView [] (set_is_jmp DISAS_TB_JUMP d) lab) (leaves (branch_out insn) st) ->
  xsim (disas_branch insn) (mkView [] d lab) st Q.
Proof.
  intros Hi HQ. unfold disas_branch. apply xsim_bind, xsim_get_dc. cbn [v_dc].
  apply xsim_bind, (xsim_moved _ _ _ (link insn) (fun _ v' => v' = mkView [] d lab)).
  - intros m. unfold link. rewrite (land_bit32_ctrue insn 24) by lia. apply sim_when; intros ->; [|done].
    apply sim_bind, sim_new_tmp; [cbn; unfold MAX_TEMPS; lia|]. intros t _. cbn [v_live v_dc v_label app].
    apply sim_bind, sim_movi. rewrite Hp, uwrap_idem by lia.
    eapply (sim_store_reg t []); [apply tmp_set_eq|done|]. intros d' m' Hw Em. cbn [wrote Nat.eqb] in Hw, Em. by subst d'.
  - intros [] v' st' Hm ->. unfold gen_jmp. apply xsim_bind, xsim_get_dc. destruct Hd as (_ & _ & Hs & _). cbn [v_dc]. rewrite Hs.
    apply xsim_bind, xsim_goto_tb; [cbn; unfold MAX_TEMPS; lia|]. apply xsim_upd_dc.
    rewrite (moved_leaves _ _ _ _ Hm). cbn [v_live v_dc v_label].
    replace (leaves (fun e => _) st) with (leaves (branch_out insn) st); [exact HQ|].
    assert (u32 (pc d + (Z.shiftl (Z.shiftr (s32 (Z.shiftl insn 8)) 8) 2 + 4)) = branch_target insn p) as ->.
    { unfold branch_target. rewrite Hp, branch_offset, uwrap_add_l by (done || lia). f_equal.
      rewrite Z.shiftl_mul_pow2 by lia. lia. }
    done.
Qed.

Lemma xsim_swi st (Q : unit -> view -> xstate -> Prop) :
  (forall st', moved (sete regs 15 (u32 (p + 4))) st st' -> Q tt (mkView [] (set_is_jmp DISAS_SWI d) lab) st') ->
  xsim disas_swi (mkView [] d lab) st Q.
Proof.
  intros HQ. unfold disas_swi. apply xsim_bind, xsim_get_dc, xsim_bind, xsim_set_pc_im; [cbn; unfold MAX_TEMPS; lia|].
  cbn [v_dc]. rewrite Hp, uwrap_idem by lia. intros st' Hm. apply xsim_upd_dc. by apply HQ.
Qed.
End Classes.

(** ** One instruction *)

(** A processor in which every data processing instruction is defined. *)
Definition calm_cpu : CPUARMState :=
  mkCPU (fun f => if decide (f = uncached_cpsr) then 0x13 else if decide (f = spsr) then 0x10 else 0)
        (fun a => replicate (array_size a) 0).

Lemma elt_calm r : elt calm_cpu regs r = 0.
Proof. unfold elt, calm_cpu, arr. cbn [arrs]. destruct (replicate _ 0 !! _) eqn:E; [|done]. by apply lookup_replicate in E as [-> _]. Qed.

Lemma calm_ok : cpu_ok calm_cpu.
Proof.
  split; [intros a; apply length_replicate|]. split; [by vm_compute|]. split; [by vm_compute|]. intros a i _. unfold elt, calm_cpu. cbn [arrs]. destruct (replicate _ 0 !! _) eqn:E; [|cbn; lia]. apply lookup_replicate in E as [-> _]. cbn. lia.
Qed.

Lemma calm_returns x : exists e', cpsr_write 0x10 0xffffffff (sete regs 15 x calm_cpu) = Ok e'.
Proof.
  destruct (cpsr_write_ok 0x10 0xffffffff (sete regs 15 x calm_cpu)) as (e' & E & _); [..|by exists e'].
  - apply sizes_sete, calm_ok.
  - apply calm_ok.
  - change (cur_mode calm_cpu ∈ modes). in_list.
  - lia.
  - unfold mask_ok, whole. split; [lia|]. repeat split; by left.
  - intros _. in_list.
Qed.

Lemma calm_defined v7 user insn p : pc_shift insn = false -> exists ef, ref_data v7 user insn p calm_cpu = Ok ef.
Proof.
  intros Hs. unfold ref_data.
  assert (exists rc, ref_operand2 insn p (Z.testbit insn 20 && logic_op (bits insn 21 4)) calm_cpu = Ok rc) as ([y shc] & ->).
  { unfold ref_operand2, pc_shift in *. destruct (Z.testbit insn 25); [eauto|]. destruct (Z.testbit insn 4); [|eauto]. cbn [negb andb] in Hs.
    unfold ref_reg at 1. rewrite Hs, elt_calm. unfold ref_shift_reg. repeat case_match; eauto.
    by rewrite orb_true_r in *. }
  cbn [rbind]. destruct (ref_alu _ _ _ _ _) as [[r c] v]. unfold ref_result. change (fld (sete _ _ _ calm_cpu) spsr) with 0x10.
  destruct (calm_returns (Z.land r 4294967294)) as [e' ->]. clear. repeat case_match; eauto.
Qed.

Lemma set_is_jmp_same d : is_jmp d = DISAS_NEXT -> set_is_jmp DISAS_NEXT d = d.
Proof. destruct d. cbn. by intros ->. Qed.
Lemma plain_set_jmp j d : plain d -> plain (set_is_jmp j d).
Proof. done. Qed.

(** How a jump ends a block that started in [e0], against the state [e] of
    the reference: through one of the [slots] the code may go on without
    writing the program counter, to the one address that the slot stands for. *)
Definition jumped (tb : Z) (e0 : CPUARMState) (slots : Z -> option Z) (e : CPUARMState) (n : Z) : Prop :=
  slots n = Some (elt e regs 15) /\ page_of tb = page_of (elt e regs 15) /\ same_ctx e0 e.
Definition left_ok (tb : Z) (e0 : CPUARMState) (slots : Z -> option Z) (e : CPUARMState) (o : outcome) : Prop :=
  match o with
  | Leave n e' =>
      e' ≈ e /\ cpu_ok e' /\ match n with Some n => linked n = false /\ jumped tb e0 slots e n | None => True end
  | Goto n e' => e' ≃ e /\ cpu_ok e' /\ linked n = true /\ jumped tb e0 slots e n
  | _ => False
  end.

Lemma left_ok_equiv tb e0 slots e1 e2 o : left_ok tb e0 slots e1 o -> e1 ≈ e2 -> left_ok tb e0 slots e2 o.
Proof.
  intros H He. assert (Hj : forall n, jumped tb e0 slots e1 n -> jumped tb e0 slots e2 n).
  { intros n (H1 & H2 & H3). unfold jumped. rewrite <- (equiv_elt e1 e2) by done. split; [done|]. split; [done|].
    eapply same_ctx_pc_equiv; [exact H3|by apply equiv_pc_equiv]. }
  destruct o as [m|[n|] e'|n e'|x e']; cbn in *; [done|..|done].
  - destruct H as (H1 & H2 & H3 & H4). split; [by rewrite H1|]. auto.
  - destruct H as (H1 & H2 & _). split; [by rewrite H1|done].
  - destruct H as (H1 & H2 & H3 & H4). split; [rewrite H1; by apply equiv_pc_equiv|]. auto.
Qed.

Lemma left_ok_weaken tb e0 e0' (s1 s2 : Z -> option Z) e o :
  left_ok tb e0 s1 e o -> (forall n t, s1 n = Some t -> s2 n = Some t) -> same_ctx e0' e0 -> left_ok tb e0' s2 e o.
Proof.
  intros H Hs Hc. assert (Hj : forall n, jumped tb e0 s1 e n -> jumped tb e0' s2 e n).
  { intros n (H1 & H2 & H3). split; [by apply Hs|]. split; [done|]. by etransitivity. }
  destruct o as [m|[n|] e'|n e'|x e']; cbn in *; [done|..|done]; intuition auto.
Qed.

Lemma jump_out_ok tb n dest e0 e er (slots : Z -> option Z) :
  in_u32 dest -> cpu_ok e -> e ≃ er -> same_ctx e0 er -> slots n = Some dest ->
  left_ok tb e0 slots (sete regs 15 dest er) (jump_out tb n dest e).
Proof.
  intros Hd Hok He Hc Hs. unfold jump_out. rewrite (uwrap_small 32 dest) by done.
  assert (E15 : elt (sete regs 15 dest er) regs 15 = dest).
  { apply elt_sete_eq. destruct He as (_ & _ & _ & R), Hok as (S & _). apply (f_equal length) in R. rewrite !length_insert in R.
    rewrite <- R, S. cbn. lia. }
  assert (Hc' : same_ctx e0 (sete regs 15 dest er)) by (etransitivity; [exact Hc|apply same_ctx_sete]).
  destruct (Z.eqb_spec (page_of tb) (page_of dest)) as [Hp|Hp].
  - assert (Hj : jumped tb e0 slots (sete regs 15 dest er) n) by (unfold jumped; by rewrite E15).
    destruct (linked n) eqn:Hn; cbn.
    + split; [|done]. rewrite He. split; [done|]. split; [done|]. split; [intros a Ha; cbn; by rewrite decide_False|].
      cbn. rewrite decide_True by done. by rewrite list_insert_insert_eq.
    + split; [by apply pc_equiv_set_pc|]. split; [by apply cpu_ok_sete|]. done.
  - cbn. split; [by apply pc_equiv_set_pc|]. split; [by apply cpu_ok_sete|]. done.
Qed.

(** The slot of a branch. *)
Definition branch_slot (dest n : Z) : option Z := if n =? 0 then Some dest else None.

(** How the code of an instruction leaves the state, against the reference:
    it runs on, it jumped or raised an exception already, or the end of the
    block is about to. *)
Definition insn_done (e0 : CPUARMState) (dest : Z) (d : DisasContext) (lab : nat) (ef : effect) (v : view) (st : xstate) : Prop :=
  exists L j, v = mkView L (set_is_jmp j d) lab /\
  match ef with
  | Follows e => j = DISAS_NEXT /\ exists m, st = Running m /\ env m ≈ e /\ cpu_ok (env m)
  | Jumps e =>
      (j = DISAS_JUMP \/ j = DISAS_UPDATE) /\ (exists m, st = Running m /\ env m ≈ e /\ cpu_ok (env m)) \/
      j = DISAS_TB_JUMP /\ (exists o, st = Ended o /\ left_ok (tb_pc d) e0 (branch_slot dest) e o)
  | Traps x e =>
      j = DISAS_JUMP /\ (exists e', st = Ended (Raise x (setf exception_index x e')) /\ e' ≈ e /\ cpu_ok e') \/
      j = DISAS_SWI /\ x = EXCP_SWI /\ (exists m, st = Running m /\ env m ≈ e /\ cpu_ok (env m))
  end.

Section Insn.
Context (env0 : CPUARMState) (others : unmodelled).
Context (p : Z) (d : DisasContext) (lab : nat) (insn : Z).
Context (Hp : pc d = u32 (p + 4)) (Hu : in_u32 p) (Hd : plain d) (Hn : is_jmp d = DISAS_NEXT).
Context (Hi : in_u32 insn) (Hm : modelled_insn insn = true).
Abbreviation v7 := (arm_feature env0 ARM_FEATURE_V7).
Abbreviation class := (disas_class env0 others insn).

Lemma modelled_cases :
  (is_data_processing insn = true /\ pc_shift insn = false /\ class = disas_data_processing env0 insn) \/
  (is_data_processing insn = false /\ bits insn 24 4 =? 15 = false /\ class = (disas_branch insn ;; gret true)) \/
  (is_data_processing insn = false /\ bits insn 24 4 =? 15 = true /\ class = (disas_swi ;; gret true)).
Proof.
  unfold modelled_insn in Hm. apply andb_true_iff in Hm as [[[H1 H2]%andb_true_iff H3]%andb_true_iff H4].
  apply negb_true_iff in H2, H3. unfold disas_class. rewrite H2, H3.
  change (Z.land (Z.shiftr insn 24) 15) with (bits insn 24 4).
  destruct (is_data_processing insn); cbn [andb negb orb] in H4.
  - left. rewrite orb_false_r in H4. by apply negb_true_iff in H4.
  - right. destruct (Z.eqb_spec (bits insn 24 4) 15) as [->|]; [by right|left].
    rewrite orb_false_r in H4. by rewrite H4.
Qed.

Lemma pc_back : u32 (pc d - 4) = p.
Proof.
  rewrite Hp. unfold uwrap. rewrite Zminus_mod_idemp_l. replace (p + 4 - 4) with p by lia. apply Z.mod_small. simpl. lia.
Qed.

(** Run from the start, the instruction has the effect of the reference. *)
Lemma xsim_class m ef :
  cpu_ok (env m) -> ref_exec v7 (dc_user d) insn p (env m) = Ok ef ->
  xsim class (mkView [] d lab) (Running m)
    (fun ok v st => xsim (when (negb ok) disas_illegal) v st (fun _ v st => insn_done (env m) (branch_target insn p) d lab ef v st)).
Proof.
  intros Hok Href. unfold ref_exec in Href. destruct modelled_cases as [(E & Hs & ->)|[(E & Hs & ->)|(E & Hs & ->)]]; rewrite E, ?Hs in Href.
  - apply xsim_running. eapply sim_conseq; [apply (sim_data_processing env0 p); [exact Hp|apply Hd|exact Hok|exact Href]|].
    intros ok v m' Hpost. destruct ef as [e|e|x e]; cbn [insn_post] in Hpost.
    + destruct Hpost as (-> & -> & He & Hok'). apply xsim_ret. exists [], DISAS_NEXT. rewrite set_is_jmp_same by done. eauto 10.
    + destruct Hpost as (-> & (j & Hj & ->) & He & Hok'). apply xsim_ret. exists [], j. split; [done|]. left. eauto.
    + destruct Hpost as (-> & -> & (L & HL & ->) & He & Hok'). cbn [negb when]. apply xsim_illegal; [done|unfold MAX_TEMPS; lia|].
      exists L, DISAS_JUMP. split; [done|]. left. split; [done|]. rewrite pc_back. cbn. eauto 6 using cpu_ok_sete.
  - injection Href as <-. apply xsim_bind, (xsim_branch p); [done..|]. cbn [leaves]. apply xsim_ret, xsim_ret.
    exists [], DISAS_TB_JUMP. split; [done|]. right. split; [done|]. eexists. split; [reflexivity|]. unfold branch_out, ref_branch.
    fold (link p insn (env m)). apply jump_out_ok; [apply in_u32_u32| |done| |done].
    + unfold link. destruct (Z.testbit insn 24); [apply cpu_ok_sete; [done|apply in_u32_u32]|done].
    + unfold link. destruct (Z.testbit insn 24); [apply same_ctx_sete|done].
  - injection Href as <-. apply xsim_bind, (xsim_swi p); [done..|]. intros st (m' & -> & Em). apply xsim_ret, xsim_ret.
    exists [], DISAS_SWI. split; [done|]. right. split; [done|]. split; [done|]. exists m'. rewrite Em.
    split; [done|]. split; [done|]. apply cpu_ok_sete; [done|apply in_u32_u32].
Qed.

(** Skipped, it leaves the state alone. *)
Lemma xsim_class_idle st :
  idle st ->
  xsim class (mkView [] d lab) st
    (fun ok v st' => xsim (when (negb ok) disas_illegal) v st'
      (fun _ v st' => st' = st /\ exists L j, j <> DISAS_WFI /\ v = mkView L (set_is_jmp j d) lab)).
Proof.
  intros Hidle. assert (Hnone : forall f g x, leaves g st = st /\ traps x f st = st /\ forall st', moved f st st' -> st' = st) by (by destruct st).
  destruct modelled_cases as [(E & Hs & ->)|[(E & Hs & ->)|(E & Hs & ->)]].
  - destruct (calm_defined v7 (dc_user d) insn p Hs) as [ef Hef].
    eapply (xsim_idle _ _ (fresh calm_cpu)); [apply (sim_data_processing env0 p); [exact Hp|apply Hd|apply calm_ok|exact Hef]|done|].
    intros ok v m' Hpost. destruct ef as [e|e|x e]; cbn [insn_post] in Hpost.
    + destruct Hpost as (-> & -> & _). apply xsim_ret. split; [done|]. exists [], DISAS_NEXT. split; [done|]. by rewrite set_is_jmp_same.
    + destruct Hpost as (-> & (j & Hj & ->) & _). apply xsim_ret. split; [done|]. exists [], j. by destruct Hj as [-> | ->].
    + destruct Hpost as (-> & _ & (L & HL & ->) & _). cbn [negb when]. apply xsim_illegal; [done|unfold MAX_TEMPS; lia|].
      split; [exact (proj1 (proj2 (Hnone _ (Leave None) _)))|]. by exists L, DISAS_JUMP.
  - apply xsim_bind, (xsim_branch p); [done..|]. apply xsim_ret, xsim_ret. split; [exact (proj1 (Hnone id _ 0))|]. by exists [], DISAS_TB_JUMP.
  - apply xsim_bind, (xsim_swi p); [done..|]. intros st' Hst'. apply xsim_ret, xsim_ret.
    split; [exact (proj2 (proj2 (Hnone _ (Leave None) 0)) _ Hst')|]. by exists [], DISAS_SWI.
Qed.
End Insn.

(** ** Conditional instructions *)

Lemma condition_inverse cc e : 0 <= cc < 14 -> ConditionPassed (Z.lxor cc 1) e = negb (ConditionPassed cc e).
Proof.
  intros Hcc. assert (H14 : cc ∈ [0; 1; 2; 3; 4; 5; 6; 7; 8; 9; 10; 11; 12; 13]) by (set_unfold; lia).
  unfold ConditionPassed. destruct (flag_view e) as [[[n z] c] v].
  set_unfold in H14. repeat (destruct H14 as [->|H14]); [..|done]; cbn; by destruct n, z, c, v.
Qed.

Lemma condition_always e : ConditionPassed 14 e = true.
Proof. unfold ConditionPassed. by destruct (flag_view e) as [[[n z] c] v]. Qed.

(** The context after an instruction at [p]. *)
Definition after (p : Z) (c : bool) (l : nat) (d : DisasContext) : DisasContext := set_cond c l (set_pc (u32 (p + 4)) d).

(** The instruction ran, or its condition failed and the code looks for the
    label behind it. *)
Definition arm_done (p dest : Z) (d : DisasContext) (e : CPUARMState) (ef : effect) (v : view) (st : xstate) : Prop :=
  exists c l lab', let d' := after p c l d in
    insn_done e dest d' lab' ef v st \/
    c = true /\ ef = Follows e /\ st = Skipping l (fresh e) /\ exists L j, j <> DISAS_WFI /\ v = mkView L (set_is_jmp j d') lab'.

Section Arm.
Context (env0 : CPUARMState) (others : unmodelled).
Abbreviation v7 := (arm_feature env0 ARM_FEATURE_V7).
Abbreviation disas := (disas_arm_insn env0 others).
Context (HM : arm_feature env0 ARM_FEATURE_M = false).

Lemma xsim_arm_insn p d lab insn m ef :
  pc d = p -> in_u32 p -> plain d -> is_jmp d = DISAS_NEXT -> condjmp d = false ->
  in_u32 insn -> modelled_insn insn = true -> cpu_ok (env m) ->
  ref_insn v7 (dc_user d) insn p (env m) = Ok ef ->
  xsim (disas insn) (mkView [] d lab) (Running m) (fun _ v st => arm_done p (branch_target insn p) d (env m) ef v st).
Proof.
  intros Hp Hu Hd Hn Hcj Hi Hm Hok Href. unfold disas_arm_insn. apply xsim_bind, xsim_upd_dc. cbn [v_live v_dc v_label].
  rewrite HM, Hp.
  assert (Hcond : 0 <= Z.shiftr insn 28 < 15).
  { rewrite Z.shiftr_div_pow2 by lia. split; [apply Z.div_pos; simpl; lia|].
    unfold modelled_insn in Hm. rewrite !andb_true_iff, Z.ltb_lt, Z.shiftr_div_pow2 in Hm by lia. lia. }
  set (cond := Z.shiftr insn 28) in *. rewrite (proj2 (Z.eqb_neq cond 15)) by lia. unfold ref_insn in Href. fold cond in Href.
  apply xsim_bind, xsim_bind. destruct (Z.eqb_spec cond 14) as [E|E]; cbn [negb when].
  - rewrite E, condition_always in Href. apply xsim_ret.
    eapply xsim_conseq; [apply (xsim_class env0 others p (set_pc (u32 (p + 4)) d) lab insn eq_refl Hu Hd Hn Hi Hm m ef Hok Href)|].
    intros ok v st H. eapply xsim_conseq; [exact H|]. intros [] v' st' Hdone. exists (condjmp d), (condlabel d), lab. left.
    destruct d; exact Hdone.
  - apply xsim_bind, xsim_new_label. cbn [v_live v_dc v_label]. apply xsim_bind, xsim_upd_dc. cbn [v_live v_dc v_label].
    apply xsim_bind. eapply (xsim_test_cc lab _ (S lab) (Nat.lt_succ_diag_r lab) (env m) (proj1 (proj2 Hok))); [|done|].
    { clearbody cond. assert (H14 : cond ∈ [0; 1; 2; 3; 4; 5; 6; 7; 8; 9; 10; 11; 12; 13]) by (set_unfold; lia).
      set_unfold in H14. repeat (destruct H14 as [->|H14]); [..|done]; split; vm_compute; congruence. }
    intros lab' Hlab. rewrite condition_inverse by lia. apply xsim_upd_dc. cbn [v_live v_dc v_label].
    change (set_cond true _ _) with (after p true lab d).
    destruct (ConditionPassed cond (env m)); cbn [negb branch_to].
    + eapply xsim_conseq; [apply (xsim_class env0 others p (after p true lab d) lab' insn eq_refl Hu Hd Hn Hi Hm (fresh (env m)) ef Hok Href)|].
      intros ok v st H. eapply xsim_conseq; [exact H|]. intros [] v' st' Hdone. exists true, lab, lab'. left. exact Hdone.
    + injection Href as <-. eapply xsim_conseq; [apply (xsim_class_idle env0 others p (after p true lab d) lab' insn eq_refl Hd Hn Hi Hm (Skipping lab (fresh (env m))) Logic.I)|].
      intros ok v st H. eapply xsim_conseq; [exact H|]. intros [] v' st' [-> (L & j & Hj & ->)].
      exists true, lab, lab'. right. split; [done|]. split; [done|]. split; [done|]. by exists L, j.
Qed.
End Arm.

(** ** Blocks *)

(** Where the patched jumps of a block that ends before [last] lead: the
    branch that ends it, and the next instruction. *)
Definition block_slots (ldl_code : Z -> Z) (last n : Z) : option Z :=
  if n =? 0 then Some (branch_target (ldl_code (u32 (last - 4))) (u32 (last - 4)))
  else if n =? 1 then Some last else None.

(** How running a block relates to its reference. *)
Definition outcome_ok (tb : Z) (e0 : CPUARMState) (slots : Z -> option Z) (ef : effect) (out : outcome) : Prop :=
  match ef with
  | Jumps e => left_ok tb e0 slots e out
  | Traps x e => exists e', out = Raise x (setf exception_index x e') /\ e' ≈ e /\ cpu_ok e'
  | Follows _ => False
  end.

(** The states in which [gen_end_block] finishes a block. *)
Inductive ready (e0 : CPUARMState) (slots : Z -> option Z) (d : DisasContext) : effect -> xstate -> Prop :=
| ready_next m e : is_jmp d = DISAS_NEXT -> condjmp d = false -> env m ≃ e -> cpu_ok (env m) -> same_ctx e0 e ->
    ready e0 slots d (Jumps (sete regs 15 (pc d) e)) (Running m)
| ready_jump m e : is_jmp d = DISAS_JUMP \/ is_jmp d = DISAS_UPDATE -> env m ≈ e -> cpu_ok (env m) -> ready e0 slots d (Jumps e) (Running m)
| ready_swi m e : is_jmp d = DISAS_SWI -> env m ≈ e -> cpu_ok (env m) -> ready e0 slots d (Traps EXCP_SWI e) (Running m)
| ready_ended ef out : is_jmp d <> DISAS_NEXT -> is_jmp d <> DISAS_WFI -> outcome_ok (tb_pc d) e0 slots ef out ->
    ready e0 slots d ef (Ended out)
| ready_skip m e : is_jmp d <> DISAS_NEXT -> is_jmp d <> DISAS_WFI -> condjmp d = true -> env m ≃ e -> cpu_ok (env m) ->
    same_ctx e0 e -> ready e0 slots d (Jumps (sete regs 15 (pc d) e)) (Skipping (condlabel d) m).

Lemma xsim_label_ended l o v (Q : unit -> view -> xstate -> Prop) : Q tt v (Ended o) -> xsim (gen_set_label l) v (Ended o) Q.
Proof. intros HQ. by refine (xsim_emit _ _ _ _ _ _ HQ). Qed.

(** The second half of [gen_end_block]. *)
Lemma xsim_end_label d lab st (P : outcome -> Prop) :
  plain d ->
  (exists o, st = Ended o /\ P o) \/
  condjmp d = true /\ (exists m, st = Skipping (condlabel d) m /\ P (jump_out (tb_pc d) 1 (pc d) (env m))) ->
  xsim (when (condjmp d) (gen_set_label (condlabel d) ;; gen_set_condexec ;; gen_goto_tb 1 (pc d) ;;
     upd_dc (fun s => set_cond false (condlabel s) s))) (mkView [] d lab) st
    (fun _ v st' => pc (v_dc v) = pc d /\ exists o, st' = Ended o /\ P o).
Proof.
  intros Hd Hst. apply xsim_when.
  - intros Hc. apply xsim_bind.
    assert (Hend : forall st', (exists o, leaves (jump_out (tb_pc d) 1 (pc d)) st' = Ended o /\ P o) ->
      xsim (gen_set_condexec ;; gen_goto_tb 1 (pc d) ;; upd_dc (fun s => set_cond false (condlabel s) s))
        (mkView [] d lab) st' (fun _ v st'' => pc (v_dc v) = pc d /\ exists o, st'' = Ended o /\ P o)).
    { intros st' Hst'. apply xsim_bind, xsim_set_condexec; [exact Hd|]. apply xsim_bind, xsim_goto_tb; [cbn; unfold MAX_TEMPS; lia|].
      by apply xsim_upd_dc. }
    destruct Hst as [(o & -> & Ho)|(_ & m & -> & Ho)].
    + apply xsim_label_ended, Hend. by exists o.
    + eapply xsim_set_label; [eauto|]. apply Hend. cbn. eauto.
  - intros Hc. destruct Hst as [Hst|[Hc' _]]; [by split|congruence].
Qed.

Lemma xsim_end_code_idle others d lab st :
  idle st -> is_jmp d <> DISAS_WFI ->
  xsim (if is_jmp d =? DISAS_NEXT then gen_goto_tb 1 (pc d) else if is_jmp d =? DISAS_TB_JUMP then gret tt
        else if is_jmp d =? DISAS_WFI then gen_helper_wfi others else if is_jmp d =? DISAS_SWI then gen_exception EXCP_SWI else tcg_gen_exit_tb None) (mkView [] d lab) st
    (fun _ v' st' => v' = mkView [] d lab /\ st' = st).
Proof.
  intros Hi Hw. assert (Hsmall : (length (@nil TCGv) < MAX_TEMPS)%nat) by (cbn; unfold MAX_TEMPS; lia).
  rewrite (proj2 (Z.eqb_neq (is_jmp d) DISAS_WFI)) by done.
  repeat case_match; [apply xsim_goto_tb|apply xsim_ret|apply xsim_exception|apply xsim_exit_tb]; by destruct st.
Qed.

Lemma xsim_end_block others e0 slots d lab ef st :
  plain d -> in_u32 (pc d) -> slots 1 = Some (pc d) -> ready e0 slots d ef st ->
  xsim (gen_end_block others) (mkView [] d lab) st
    (fun _ v st' => pc (v_dc v) = pc d /\ exists o, st' = Ended o /\ outcome_ok (tb_pc d) e0 slots ef o).
Proof.
  intros Hd Hpc Hs1 Hst. unfold gen_end_block. apply xsim_bind, xsim_set_condexec; [exact Hd|]. apply xsim_bind, xsim_get_dc. cbn [v_dc].
  assert (Hsmall : (length (@nil TCGv) < MAX_TEMPS)%nat) by (cbn; unfold MAX_TEMPS; lia).
  assert (Hend : forall st', (exists o, st' = Ended o /\ outcome_ok (tb_pc d) e0 slots ef o) \/
    condjmp d = true /\ (exists m, st' = Skipping (condlabel d) m /\ outcome_ok (tb_pc d) e0 slots ef (jump_out (tb_pc d) 1 (pc d) (env m))) ->
    xsim (when (condjmp d) (gen_set_label (condlabel d) ;; gen_set_condexec ;; gen_goto_tb 1 (pc d) ;;
       upd_dc (fun s => set_cond false (condlabel s) s))) (mkView [] d lab) st'
      (fun _ v st' => pc (v_dc v) = pc d /\ exists o, st' = Ended o /\ outcome_ok (tb_pc d) e0 slots ef o)).
  { intros st' Hst'. by apply xsim_end_label. }
  apply xsim_bind. destruct Hst as [m e Hj Hc He Hok Hcx|m e Hj He Hok|m e Hj He Hok|ef out Hj Hw Ho|m e Hj Hw Hc He Hok Hcx].
  - rewrite Hj. cbn [Z.eqb]. apply xsim_goto_tb; [exact Hsmall|]. apply Hend. left. cbn.
    eexists. split; [reflexivity|]. by apply jump_out_ok.
  - assert (Hexit : xsim (tcg_gen_exit_tb None) (mkView [] d lab) (Running m) (fun _ v' st' => v' = mkView [] d lab /\ st' = Ended (Leave None (env m)))).
    { by apply xsim_exit_tb. }
    eapply xsim_conseq; [destruct Hj as [-> | ->]; exact Hexit|]. intros [] v' st' [-> ->].
    apply Hend. left. eexists. by split.
  - rewrite Hj. cbn [Z.eqb Pos.eqb]. apply xsim_exception; [done|exact Hsmall|]. apply Hend. left. cbn.
    eexists. split; [reflexivity|]. by eexists.
  - eapply xsim_conseq; [by apply (xsim_end_code_idle others d lab (Ended out))|]. intros [] v' st' [-> ->].
    apply Hend. left. eauto.
  - eapply xsim_conseq; [by apply (xsim_end_code_idle others d lab (Skipping (condlabel d) m))|]. intros [] v' st' [-> ->].
    apply Hend. right. split; [exact Hc|]. eexists. split; [reflexivity|]. by apply jump_out_ok.
Qed.

Lemma xsim_reset_temps v st (Q : unit -> view -> xstate -> Prop) :
  Q tt (mkView [] (v_dc v) (v_label v)) st ->
  xsim (fun g => Ok (tt, mkGen (temps g) 0 (next_tmp g) (next_label g) (dc g) (code g))) v st Q.
Proof.
  intros HQ s (Ha & Hl & Hd & Hn). eexists tt, _, [], st, _. split; [reflexivity|]. rewrite app_nil_r. split; [done|].
  split; [done|]. split; [|exact HQ]. split; [|by split].
  destruct Ha as (al & E & H1 & H2 & H3 & _ & H5). exists al. cbn [temps num_temps next_tmp]. repeat (split; [done|]). split; [lia|done].
Qed.

Section Block.
Context (env0 : CPUARMState) (others : unmodelled).
Context (ldl_code : Z -> Z) (buffer_full : list tcg_op -> bool) (singlestep : bool).
Abbreviation v7 := (arm_feature env0 ARM_FEATURE_V7).
Abbreviation insns := (gen_insns env0 others ldl_code buffer_full false singlestep).
Context (HM : arm_feature env0 ARM_FEATURE_M = false) (Ht : fld env0 thumb = 0).

Lemma xsim_buffer v st (k : bool -> G unit) (Q : unit -> view -> xstate -> Prop) :
  (forall b, xsim (k b) v st Q) -> xsim (gbind (fun g => Ok (buffer_full (code g), g)) k) v st Q.
Proof.
  intros H s Hs. destruct (H (buffer_full (code s)) s Hs) as (a & s' & c & st' & v' & E & R). exists a, s', c, st', v'.
  unfold gbind. cbn [rbind]. by split.
Qed.

(** The instruction words of a block are modelled, up to the end of the page. *)
Definition modelled_words (nps : Z) (n : nat) (p : Z) : Prop :=
  forall i, (i < n)%nat -> (forall j, (0 < j <= i)%nat -> u32 (p + 4 * Z.of_nat j) < nps) ->
    in_u32 (ldl_code (u32 (p + 4 * Z.of_nat i))) /\ modelled_insn (ldl_code (u32 (p + 4 * Z.of_nat i))) = true.

Lemma next_word p i : u32 (u32 (p + 4) + 4 * Z.of_nat i) = u32 (p + 4 * Z.of_nat (S i)).
Proof. rewrite uwrap_add_l by lia. f_equal. lia. Qed.

Lemma modelled_words_next nps n p : modelled_words nps (S n) p -> u32 (p + 4) < nps -> modelled_words nps n (u32 (p + 4)).
Proof.
  intros H Hn i Hi Hj. rewrite next_word. apply H; [lia|]. intros [|j] Hj'; [lia|]. destruct j as [|j].
  - rewrite Z.mul_1_r. exact Hn.
  - rewrite <- next_word. apply Hj. lia.
Qed.

(** What is left after an instruction and the label behind it. *)
Definition between (e0 : CPUARMState) (d : DisasContext) (ef : effect) (st : xstate) : Prop :=
  let slots := block_slots ldl_code (pc d) in
  match ef with
  | Follows e =>
      is_jmp d = DISAS_NEXT /\ condjmp d = false /\ (exists m, st = Running m /\ env m ≃ e /\ cpu_ok (env m)) \/
      is_jmp d <> DISAS_NEXT /\ ready e0 slots d (Jumps (sete regs 15 (pc d) e)) st
  | _ => is_jmp d <> DISAS_NEXT /\ ready e0 slots d ef st
  end.

Definition same_block (p : Z) (d d' : DisasContext) : Prop :=
  plain d' /\ pc d' = u32 (p + 4) /\ dc_user d' = dc_user d /\ tb_pc d' = tb_pc d.

Lemma branch_block_slot p n t : in_u32 p ->
  branch_slot (branch_target (ldl_code p) p) n = Some t -> block_slots ldl_code (u32 (p + 4)) n = Some t.
Proof.
  intros Hp. unfold branch_slot, block_slots. destruct (n =? 0); [|done]. intros [= <-].
  assert (u32 (u32 (p + 4) - 4) = p) as ->; [|done].
  unfold uwrap. rewrite Zminus_mod_idemp_l. replace (p + 4 - 4) with p by lia. apply Z.mod_small. simpl. lia.
Qed.

Lemma xsim_after_insn e0 p d e1 e ef1 ef v st k (Q : unit -> view -> xstate -> Prop) :
  in_u32 p -> plain d -> cpu_ok e1 -> e1 ≃ e -> same_ctx e0 e -> (forall e', ef = Follows e' -> same_ctx e0 e') ->
  effect_equiv ef1 ef -> arm_done p (branch_target (ldl_code p) p) d e1 ef1 v st ->
  (forall d' lab' st', same_block p d d' -> between e0 d' ef st' -> xsim k (mkView [] d' lab') st' Q) ->
  xsim ((fun g => Ok (tt, mkGen (temps g) 0 (next_tmp g) (next_label g) (dc g) (code g))) ;;
        s <- get_dc ;;
        when (condjmp s && (is_jmp s =? DISAS_NEXT))
          (gen_set_label (condlabel s) ;; upd_dc (fun s => set_cond false (condlabel s) s)) ;; k) v st Q.
Proof.
  intros Hpu Hd Hok He1 Hcx Hcx' Heq (c & l & lab' & H) Hk. apply xsim_bind, xsim_reset_temps, xsim_bind, xsim_get_dc.
  assert (Hlast : forall j st' (Q' : unit -> view -> xstate -> Prop),
    (Q' = fun _ v' st'' => xsim k v' st'' Q) -> j <> DISAS_NEXT -> between e0 (set_is_jmp j (after p c l d)) ef st' ->
    xsim (when (c && (j =? DISAS_NEXT)) (gen_set_label l ;; upd_dc (fun s => set_cond false (condlabel s) s)))
      (mkView [] (set_is_jmp j (after p c l d)) lab') st' Q').
  { intros j st' Q' -> Hj Hb. rewrite (proj2 (Z.eqb_neq j _) Hj), andb_false_r. apply xsim_ret, Hk; [done|exact Hb]. }
  assert (Hnext : forall st' m e' (Q' : unit -> view -> xstate -> Prop),
    (Q' = fun _ v' st'' => xsim k v' st'' Q) -> ef = Follows e' -> env m ≃ e' -> cpu_ok (env m) ->
    st' = Running m \/ c = true /\ st' = Skipping l m ->
    xsim (when (c && (DISAS_NEXT =? DISAS_NEXT)) (gen_set_label l ;; upd_dc (fun s => set_cond false (condlabel s) s)))
      (mkView [] (set_is_jmp DISAS_NEXT (after p c l d)) lab') st' Q').
  { intros st' m e' Q' -> -> He Hok' Hst'. apply xsim_when; rewrite andb_true_r; intros ->.
    - apply xsim_bind. eapply xsim_set_label; [destruct Hst' as [->|[_ ->]]; eauto|]. apply xsim_upd_dc, Hk; [done|].
      left. split; [done|]. split; [done|]. by eexists.
    - destruct Hst' as [->|[? _]]; [|done]. apply Hk; [done|]. left. split; [done|]. split; [done|]. by eexists. }
  apply xsim_bind. destruct H as [(L & j & -> & H)|(-> & -> & -> & L & j & Hjw & ->)]; cbn [v_dc v_label].
  - destruct ef1 as [e'|e'|x e'], ef as [e''|e''|x' e'']; try done; cbn [effect_equiv] in Heq.
    + destruct H as (-> & m & -> & He & Hok'). eapply (Hnext _ m e''); [done|done|rewrite <- Heq; by apply equiv_pc_equiv|done|by left].
    + destruct H as [(Hj & m & -> & He & Hok')|(-> & o & -> & Ho)].
      * apply Hlast; [done|by destruct Hj as [-> | ->]|]. split; [by destruct Hj as [-> | ->]|]. apply ready_jump; [exact Hj|by rewrite He|done].
      * apply Hlast; [done..|]. split; [done|]. apply ready_ended; [done|done|].
        apply (left_ok_weaken _ e1 _ (branch_slot (branch_target (ldl_code p) p))); [by eapply left_ok_equiv|..].
        -- intros n t. by apply branch_block_slot.
        -- eapply same_ctx_pc_equiv; [exact Hcx|by symmetry].
    + destruct Heq as [-> Heq]. destruct H as [(-> & e3 & -> & He & Hok')|(-> & -> & m & -> & He & Hok')].
      * apply Hlast; [done..|]. split; [done|]. apply ready_ended; [done|done|]. exists e3. split; [done|]. split; [by rewrite He|done].
      * apply Hlast; [done..|]. split; [done|]. apply ready_swi; [done|by rewrite He|done].
  - destruct ef as [e''|e''|x' e'']; try done. cbn [effect_equiv] in Heq. destruct (decide (j = DISAS_NEXT)) as [->|Hj].
    + eapply (Hnext _ (fresh e1) e''); [done..|by right].
    + apply (Hlast j); [done..|]. right. split; [done|]. apply ready_skip; auto.
Qed.

(** The block that starts at [p] has [K] instructions. *)
Definition block_length (nps p : Z) (K : nat) (last : Z) : Prop :=
  last = u32 (p + 4 * Z.of_nat K) /\ forall j, (0 < j < K)%nat -> u32 (p + 4 * Z.of_nat j) < nps.

Lemma block_length_next nps p K last :
  block_length nps (u32 (p + 4)) K last -> u32 (p + 4) < nps -> block_length nps p (S K) last.
Proof.
  intros [-> H] Hn. split; [apply next_word|]. intros [|[|j]] Hj; [lia|by rewrite Z.mul_1_r|]. rewrite <- next_word. apply H. lia.
Qed.

Lemma xsim_insns n nps p d lab m e0 e :
  (0 < n)%nat -> pc d = p -> in_u32 p -> plain d -> is_jmp d = DISAS_NEXT -> condjmp d = false ->
  modelled_words nps n p -> cpu_ok (env m) -> env m ≃ e -> same_ctx e0 e ->
  ref_defined v7 (dc_user d) ldl_code nps n p e = true ->
  xsim (insns n nps) (mkView [] d lab) (Running m)
    (fun _ v st => exists d' lab' k K ef, v = mkView [] d' lab' /\ plain d' /\ tb_pc d' = tb_pc d /\ (1 <= k <= K)%nat /\
       (K <= n)%nat /\ block_length nps p K (pc d') /\
       ref_run v7 (dc_user d) ldl_code k p e = Ok ef /\ ready e0 (block_slots ldl_code (pc d')) d' ef st).
Proof.
  revert p d lab m e. induction n as [|n IH]; intros p d lab m e Hn Hp Hu Hd Hj Hc Hw Hok He Hcx Hrun; [lia|].
  cbn [ref_defined] in Hrun. destruct (ref_insn _ _ _ p e) as [ef1| |] eqn:Hins; [|done..].
  destruct (equiv_insn _ _ _ _ _ _ (symmetry He) _ Hins) as (ef2 & Hins2 & Heq).
  destruct (Hw 0%nat ltac:(lia) ltac:(lia)) as [Hi Hm]. cbn [Z.of_nat] in Hi, Hm. rewrite Z.mul_0_r, Z.add_0_r, uwrap_small in Hi, Hm by (simpl; lia).
  cbn [gen_insns]. apply xsim_bind, xsim_get_dc. cbn [v_dc]. rewrite HM, andb_false_r, Hp, Ht. apply xsim_bind.
  eapply xsim_conseq; [by apply xsim_arm_insn|]. intros [] v st Hdone.
  apply effect_equiv_sym in Heq.
  assert (Hcx' : forall e', ef1 = Follows e' -> same_ctx e0 e') by (intros e' ->; etransitivity; [exact Hcx|by eapply follows_ctx]).
  eapply xsim_after_insn; [exact Hu|exact Hd|exact Hok|exact He|exact Hcx|exact Hcx'|exact Heq|exact Hdone|].
  intros d' lab' st' (Hd' & Hp' & Hu' & Htb) Hb. apply xsim_bind, xsim_get_dc. cbn [v_dc]. apply xsim_buffer. intros full.
  assert (Hstop : forall ef3, ref_run v7 (dc_user d) ldl_code 1 p e = Ok ef3 -> ready e0 (block_slots ldl_code (pc d')) d' ef3 st' ->
    xsim (gret tt) (mkView [] d' lab') st' (fun _ v st => exists d' lab' k K ef, v = mkView [] d' lab' /\ plain d' /\ tb_pc d' = tb_pc d /\
       (1 <= k <= K)%nat /\ (K <= S n)%nat /\ block_length nps p K (pc d') /\
       ref_run v7 (dc_user d) ldl_code k p e = Ok ef /\ ready e0 (block_slots ldl_code (pc d')) d' ef st)).
  { intros ef3 Hr Hready. apply xsim_ret. exists d', lab', 1%nat, 1%nat, ef3. split; [done|]. split; [done|]. split; [done|]. split; [lia|]. split; [lia|].
    split; [|done]. split; [by rewrite Hp', Z.mul_1_r|lia]. }
  assert (H1 : ref_run v7 (dc_user d) ldl_code 1 p e =
    match ef1 with Follows e => Ok (Jumps (sete regs 15 (u32 (p + 4)) e)) | _ => Ok ef1 end).
  { cbn [ref_run]. rewrite Hins. done. }
  destruct ef1 as [e1|e1|x e1]; cbn [between] in Hb.
  - assert (Hend : (is_jmp d' = DISAS_NEXT /\ condjmp d' = false /\ exists m', st' = Running m' /\ env m' ≃ e1 /\ cpu_ok (env m')) ->
      ready e0 (block_slots ldl_code (pc d')) d' (Jumps (sete regs 15 (u32 (p + 4)) e1)) st').
    { intros (Hj' & Hc' & m' & -> & He' & Hok'). rewrite <- Hp'. apply ready_next; auto. }
    destruct Hb as [Hb|[Hj' Hready]].
    + destruct ((is_jmp d' =? DISAS_NEXT) && negb full && negb false && negb singlestep && (pc d' <? nps)) eqn:Hcont.
      * apply andb_true_iff in Hcont as [_ Hlt]. rewrite Hp' in Hlt. rewrite Hlt in Hrun. apply Z.ltb_lt in Hlt. destruct n as [|n'].
        -- eapply Hstop; [exact H1|by apply Hend].
        -- destruct Hb as (Hj' & Hc' & m' & -> & He' & Hok').
           eapply xsim_conseq; [apply (IH (u32 (p + 4)) d' lab' m' e1); try done; [lia|apply in_u32_u32|by apply modelled_words_next|by apply Hcx'|by rewrite Hu']|].
           intros [] v' st'' (d3 & lab3 & k & K & ef3 & -> & Hd3 & Htb3 & Hk & HK & Hlen & Hr & Hready). rewrite Hu' in Hr.
           exists d3, lab3, (S k), (S K), ef3. split; [done|]. split; [done|]. split; [congruence|]. split; [lia|]. split; [lia|].
           split; [by apply block_length_next|]. split; [|done]. cbn [ref_run]. by rewrite Hins.
      * eapply Hstop; [exact H1|by apply Hend].
    + rewrite (proj2 (Z.eqb_neq _ _) Hj'). eapply Hstop; [exact H1|]. rewrite <- Hp'. exact Hready.
  - destruct Hb as [Hj' Hready]. rewrite (proj2 (Z.eqb_neq _ _) Hj'). by eapply Hstop.
  - destruct Hb as [Hj' Hready]. rewrite (proj2 (Z.eqb_neq _ _) Hj'). by eapply Hstop.
Qed.
End Block.

(** ** Whole blocks *)

Section Whole.
Context (env0 : CPUARMState) (others : unmodelled).
Context (ldl_code : Z -> Z) (buffer_full : list tcg_op -> bool) (singlestep : bool) (max_insns : nat).
Abbreviation v7 := (arm_feature env0 ARM_FEATURE_V7).
Abbreviation user := (Z.land (fld env0 uncached_cpsr) 0x1f =? ARM_CPU_MODE_USR).
Abbreviation translate := (gen_intermediate_code env0 others ldl_code buffer_full false singlestep max_insns).

Lemma sees_initial d : sees (mkGen (replicate MAX_TEMPS O) 0 1 0 d []) (mkView [] d 0).
Proof.
  split; [|done]. exists []. split; [done|]. split; [cbn; lia|]. split; [apply NoDup_nil_2|]. split; [by apply Forall_nil|].
  cbn. lia.
Qed.

(** A block starts its instructions in one page. *)
Definition next_page_start (p : Z) : Z := u32 (page_of p + TARGET_PAGE_SIZE).

Lemma page_of_div p : page_of p = 1024 * (p / 1024).
Proof.
  unfold page_of, TARGET_PAGE_SIZE. change (1024 - 1) with (Z.ones 10). rewrite Z.ldiff_ones_r, Z.shiftl_mul_pow2, Z.shiftr_div_pow2 by lia.
  change (2 ^ 10) with 1024. lia.
Qed.

Lemma block_in_page p K last :
  in_u32 p -> (0 < K)%nat -> block_length (next_page_start p) p K last -> p + 4 * (Z.of_nat K - 1) < page_of p + TARGET_PAGE_SIZE.
Proof.
  intros Hp HK [_ H]. unfold next_page_start in H. rewrite page_of_div in *. change TARGET_PAGE_SIZE with 1024 in *.
  pose proof (Z.div_mod p 1024 ltac:(lia)). pose proof (Z.mod_pos_bound p 1024 ltac:(lia)).
  assert (Hq : 0 <= p / 1024 < 4194304) by (split; [apply Z.div_pos; lia|apply Z.div_lt_upper_bound; lia]).
  assert (Hj : forall j, (j < K)%nat -> p + 4 * Z.of_nat j < 1024 * (p / 1024) + 1024).
  { induction j as [|j IH]; intros Hj; [lia|]. specialize (IH ltac:(lia)). specialize (H (S j) ltac:(lia)).
    destruct (decide (p / 1024 = 4194303)) as [E|E].
    - rewrite E in H. change (u32 (1024 * 4194303 + 1024)) with 0 in H. pose proof (in_u32_u32 (p + 4 * Z.of_nat (S j))). lia.
    - rewrite !uwrap_small in H by (simpl; lia). lia. }
  specialize (Hj (K - 1)%nat ltac:(lia)). lia.
Qed.

Lemma block_size p K : in_u32 p -> 0 <= 4 * K < 65536 -> Z.land (u32 (u32 (p + 4 * K) - p)) 0xffff = 4 * K.
Proof.
  intros Hp HK. unfold uwrap. rewrite Zminus_mod_idemp_l. replace (p + 4 * K - p) with (4 * K) by lia.
  change 65535 with (Z.ones 16). rewrite Z.land_ones by lia. change (2 ^ 32) with 4294967296. change (2 ^ 16) with 65536.
  by rewrite (Z.mod_small (4 * K) 4294967296), Z.mod_small by lia.
Qed.

Lemma block_code pc_start m e :
  arm_feature env0 ARM_FEATURE_M = false -> fld env0 thumb = 0 -> fld env0 condexec_bits = 0 -> in_u32 pc_start ->
  (0 < max_insns)%nat -> modelled_words ldl_code (next_page_start pc_start) max_insns pc_start -> cpu_ok (env m) -> env m ≃ e ->
  ref_defined v7 user ldl_code (next_page_start pc_start) max_insns pc_start e = true ->
  exists c k K ef out,
    translate pc_start = Ok (c, 4 * Z.of_nat K) /\ (1 <= k <= K)%nat /\ (K <= max_insns)%nat /\
    block_length (next_page_start pc_start) pc_start K (u32 (pc_start + 4 * Z.of_nat K)) /\
    pc_start + 4 * (Z.of_nat K - 1) < page_of pc_start + TARGET_PAGE_SIZE /\
    ref_run v7 user ldl_code k pc_start e = Ok ef /\ exec linked None c m = Ok out /\
    outcome_ok pc_start e (block_slots ldl_code (u32 (pc_start + 4 * Z.of_nat K))) ef out.
Proof.
  intros HM Ht Hc Hp Hmax Hw Hok He Hrun. unfold gen_intermediate_code. fold (next_page_start pc_start).
  set (d := dc_start env0 false pc_start). set (nps := next_page_start pc_start) in *.
  assert (Hu : dc_user d = user) by (unfold d, dc_start; by rewrite HM).
  assert (Hd : plain d) by (unfold plain, d, dc_start; cbn; by rewrite Hc, Ht).
  assert (Hx : xsim (gen_insns env0 others ldl_code buffer_full false singlestep max_insns nps ;; gen_end_block others)
    (mkView [] d 0) (Running m) (fun _ v st => exists k K ef o, (1 <= k <= K)%nat /\ (K <= max_insns)%nat /\
      block_length nps pc_start K (pc (v_dc v)) /\ ref_run v7 user ldl_code k pc_start e = Ok ef /\ st = Ended o /\
      outcome_ok pc_start e (block_slots ldl_code (pc (v_dc v))) ef o)).
  { apply xsim_bind. eapply xsim_conseq.
    { apply (xsim_insns env0 others ldl_code buffer_full singlestep HM Ht max_insns nps pc_start d 0 m e e); rewrite ?Hu; done. }
    rewrite Hu.
    intros [] v st (d' & lab' & k & K & ef & -> & Hd' & Htb & Hk & HK & Hlen & Href & Hready).
    eapply xsim_conseq; [apply (xsim_end_block others e (block_slots ldl_code (pc d'))); [exact Hd'|destruct Hlen as [-> _]; apply in_u32_u32|reflexivity|exact Hready]|].
    intros [] v st' (Ev & o & -> & Ho). rewrite Ev. rewrite Htb in Ho. exists k, K, ef, o. auto 10. }
  destruct (Hx _ (sees_initial d)) as ([] & s' & c & st & v' & E & C & R & (_ & _ & Edc & _) & k & K & ef & o & Hk & HK & Hlen & Href & -> & Ho).
  pose proof (block_in_page pc_start K _ Hp ltac:(lia) Hlen) as Hpage. pose proof Hlen as [El Hbefore]. rewrite <- Edc in El, Ho.
  rewrite E. cbn [rbind]. exists (code s'), k, K, ef, o. rewrite El in Ho |- *. rewrite block_size; [|done|].
  2: { rewrite page_of_div in Hpage. change TARGET_PAGE_SIZE with 1024 in Hpage. pose proof (Z.div_mod pc_start 1024 ltac:(lia)).
       pose proof (Z.mod_pos_bound pc_start 1024 ltac:(lia)). lia. }
  do 3 (split; [done|]). split; [done|]. do 2 (split; [done|]). split; [|exact Ho].
  specialize (R []). rewrite app_nil_r in R. rewrite C. exact R.
Qed.

(** ** Blocks in the words of the manual *)

Abbreviation v6 := (arm_feature env0 ARM_FEATURE_V6).
Abbreviation defined := (man_defined v6 v7 ldl_code).

Lemma same_ctx_user e e' : same_ctx e e' -> user_mode e' = user_mode e.
Proof. intros [F _]. unfold user_mode, cur_mode. rewrite F; [done|]. unfold flag_fields. set_solver. Qed.

Lemma man_defined_step nps n p e :
  defined nps (S n) p e = true ->
  exists ef, man_insn v6 v7 (ldl_code p) p e = Ok ef /\ ref_insn v7 (user_mode e) (ldl_code p) p e = Ok ef /\
    forall e', ef = Follows e' -> user_mode e' = user_mode e /\ (u32 (p + 4) < nps -> defined nps n (u32 (p + 4)) e' = true).
Proof.
  cbn [man_defined]. intros (Hd%negb_true_iff & H)%andb_true_iff. destruct (man_insn _ _ _ _ _) as [ef| |] eqn:Em; [|done..].
  pose proof (man_insn_ref v6 v7 _ _ _ _ Em Hd) as Er. exists ef. split; [done|]. split; [done|]. intros e' ->.
  split; [by eapply same_ctx_user, follows_ctx|]. intros Hlt. by rewrite (proj2 (Z.ltb_lt _ _) Hlt) in H.
Qed.

Lemma man_defined_ref nps n p e :
  defined nps n p e = true -> ref_defined v7 (user_mode e) ldl_code nps n p e = true.
Proof.
  revert p e. induction n as [|n IH]; intros p e H; [done|]. apply man_defined_step in H as (ef & _ & Er & Hn).
  cbn [ref_defined]. rewrite Er. destruct ef as [e'| |]; [|done..]. destruct (Hn e' eq_refl) as [<- Hd].
  destruct (Z.ltb_spec (u32 (p + 4)) nps); [apply IH; auto|done].
Qed.

Lemma man_run_ref nps n p e k K :
  defined nps n p e = true -> (k <= K)%nat -> (K <= n)%nat -> (forall j, (0 < j < K)%nat -> u32 (p + 4 * Z.of_nat j) < nps) ->
  man_run v6 v7 ldl_code k p e = ref_run v7 (user_mode e) ldl_code k p e.
Proof.
  revert p e k K. induction n as [|n IH]; intros p e k K H Hk HK Hj; [by destruct k; [|lia]|]. destruct k as [|k]; [done|].
  apply man_defined_step in H as (ef & Em & Er & Hn). cbn [man_run ref_run]. rewrite Em, Er. cbn [rbind].
  destruct ef as [e'| |]; [|done..]. destruct (Hn e' eq_refl) as [<- Hd]. destruct (decide (K = 1%nat)) as [->|].
  { by assert (k = 0%nat) as -> by lia. }
  apply (IH _ _ _ (K - 1)%nat); [|lia..|].
  - apply Hd. by apply (Hj 1%nat ltac:(lia)).
  - intros j Hlt. rewrite next_word. apply Hj. lia.
Qed.
End Whole.

Lemma test_cc_code cc l s m :
  0 <= cc < 14 -> alloc_ok s -> num_temps s = 0%nat -> (l < next_label s)%nat -> flags_wf (env m) ->
  exists s' c, gen_test_cc cc l s = Ok (tt, s') /\ code s' = code s ++ c /\
    forall rest, exec linked None (c ++ rest) m = exec linked (if ConditionPassed cc (env m) then Some l else None) rest (fresh (env m)).
Proof.
  intros Hcc Ha Hn Hl Hwf.
  assert (Hs : sees s (mkView [] (dc s) (next_label s))) by (split; [done|]; unfold live; rewrite Hn; by rewrite take_0).
  destruct (xsim_test_cc l (dc s) (next_label s) Hl (env m) Hwf cc m
    (fun _ _ st => st = branch_to (ConditionPassed cc (env m)) l (env m)) Hcc eq_refl ltac:(done) s Hs)
    as ([] & s' & c & st & v' & E & C & R & _ & ->).
  exists s', c. split; [done|]. split; [done|]. intros rest. rewrite <- (app_nil_r (c ++ rest)), <- app_assoc. cbn [exec_from] in R.
  rewrite app_nil_r, R. by destruct (ConditionPassed cc (env m)).
Qed.

End Linked.

(** C20: The code that [gen_test_cc] emits for a condition goes to the label
    exactly when the condition of the architecture manual holds in the
    processor that runs it, and leaves that processor alone; for HI and GT it
    passes over a label of its own. *)
Theorem arm_condition_code cc l s :
  0 <= cc < 14 -> alloc_ok s -> num_temps s = 0%nat -> (l < next_label s)%nat ->
  exists s' c, gen_test_cc cc l s = Ok (tt, s') /\ code s' = code s ++ c /\
    forall linked rest m, flags_wf (env m) ->
      exec linked None (c ++ rest) m = exec linked (if ConditionPassed cc (env m) then Some l else None) rest (fresh (env m)).
Proof.
  intros Hcc Ha Hn Hl. destruct (test_cc_code (fun _ => false) cc l s (fresh calm_cpu) Hcc Ha Hn Hl (proj1 (proj2 calm_ok))) as (s' & c & E & C & _).
  exists s', c. split; [done|]. split; [done|]. intros linked rest m Hwf.
  destruct (test_cc_code linked cc l s m Hcc Ha Hn Hl Hwf) as (s2 & c2 & E2 & C2 & R).
  assert (s2 = s') as -> by congruence. assert (c2 = c) as -> by (rewrite C in C2; by apply app_inv_head in C2). apply R.
Qed.

(** C2: Running the code that [gen_intermediate_code] makes of a block of
    data processing instructions, branches and supervisor calls does to the
    processor what the architecture manual says that the instructions do, one
    after the other, up to the end of the block: the same registers, modes and
    condition flags, the address of the next instruction in the program
    counter, or the same exception. The instructions must have a meaning in
    the manual, and none of them may be one of those that [departs] names: a
    rotation by a register of 32 or more without flags, a return from an
    exception by another operation than SUBS or MOVS, and a write to the
    program counter of an address with bit 1 set. The result holds whichever
    of the block's jumps were patched: the code leaves through a patched jump
    only towards the address that this jump stands for, in the page and the
    mode of the block, and it does not rely on the program counter, which a
    patched jump into it leaves behind. The generator neither runs out of
    temporaries nor of labels. *)
Theorem translated_block_runs linked env0 others ldl_code buffer_full singlestep max_insns pc_start m e :
  arm_feature env0 ARM_FEATURE_M = false -> fld env0 thumb = 0 -> fld env0 condexec_bits = 0 -> in_u32 pc_start ->
  (0 < max_insns)%nat -> modelled_words ldl_code (next_page_start pc_start) max_insns pc_start -> cpu_ok (env m) -> env m ≃ e ->
  user_mode env0 = user_mode e ->
  let v6 := arm_feature env0 ARM_FEATURE_V6 in
  let v7 := arm_feature env0 ARM_FEATURE_V7 in
  man_defined v6 v7 ldl_code (next_page_start pc_start) max_insns pc_start e = true ->
  exists c k K ef out,
    gen_intermediate_code env0 others ldl_code buffer_full false singlestep max_insns pc_start = Ok (c, 4 * Z.of_nat K) /\
    (1 <= k <= K)%nat /\ (K <= max_insns)%nat /\ pc_start + 4 * (Z.of_nat K - 1) < page_of pc_start + TARGET_PAGE_SIZE /\
    man_run v6 v7 ldl_code k pc_start e = Ok ef /\ exec linked None c m = Ok out /\
    outcome_ok linked pc_start e (block_slots ldl_code (u32 (pc_start + 4 * Z.of_nat K))) ef out.
Proof.
  intros HM Ht Hc Hp Hmax Hw Hok He Hu v6 v7 Hrun. pose proof (man_defined_ref _ _ _ _ _ _ Hrun) as Href. rewrite <- Hu in Href.
  destruct (block_code linked env0 others ldl_code buffer_full singlestep max_insns pc_start m e)
    as (c & k & K & ef & out & E & Hk & HK & [_ Hj] & Hpage & Hr & Hx); [done..|].
  exists c, k, K, ef, out. subst v6 v7. rewrite (man_run_ref _ _ _ _ _ _ k K Hrun) by (done || lia). rewrite <- Hu. auto 10.
Qed.

(** ** Witnesses *)

Lemma arm_condition_code_witness :
  exists s' c, gen_test_cc 8 0 (mkGen (replicate MAX_TEMPS O) 0 1 1 (mkDC 0x8000 0 false 0 0 0 0 0x8000 false false false) []) = Ok (tt, s') /\
    code s' = [] ++ c /\
    forall linked rest m, flags_wf (env m) ->
      exec linked None (c ++ rest) m = exec linked (if ConditionPassed 8 (env m) then Some 0%nat else None) rest (fresh (env m)).
Proof.
  apply (arm_condition_code 8 0 (mkGen (replicate MAX_TEMPS O) 0 1 1 (mkDC 0x8000 0 false 0 0 0 0 0x8000 false false false) [])).
  - lia.
  - exists []. split; [reflexivity|]. split; [cbn; lia|]. split; [apply NoDup_nil_2|]. split; [apply Forall_nil_2|]. cbn. lia.
  - reflexivity.
  - cbn. lia.
Defined.

(** [ADDS r0, r1, r2, LSL #3; MOVNE r3, r0, ROR r4; RSCS r5, r5, #1; BLT]. *)
Definition demo_code (a : Z) : Z :=
  if a =? 0x8000 then 0xe0910182 else if a =? 0x8004 then 0x11a03470 else if a =? 0x8008 then 0xe2f55001 else 0xbafffffb.

Definition none_modelled : unmodelled :=
  mkOthers (fun _ => gabort) (fun _ => gabort) (fun _ => gabort) (fun _ => gabort) gabort gabort.

(** The program counter of the state is stale, and the jump to the next block
    is patched. *)
Definition stale_cpu : CPUARMState := sete regs 15 0x1234 calm_cpu.

Lemma stale_ok : cpu_ok stale_cpu /\ stale_cpu ≃ calm_cpu.
Proof.
  split; [apply cpu_ok_sete; [exact calm_ok|lia]|]. split; [done|]. split; [done|].
  split; [intros a Ha; cbn; by rewrite decide_False|]. reflexivity.
Qed.

Lemma translated_block_runs_witness :
  exists c k K ef out,
    gen_intermediate_code calm_cpu none_modelled demo_code (fun _ => false) false false 4 0x8000 = Ok (c, 4 * Z.of_nat K) /\
    (1 <= k <= K)%nat /\ (K <= 4)%nat /\ 0x8000 + 4 * (Z.of_nat K - 1) < page_of 0x8000 + TARGET_PAGE_SIZE /\
    man_run false false demo_code k 0x8000 calm_cpu = Ok ef /\ exec (fun n => n =? 1) None c (fresh stale_cpu) = Ok out /\
    outcome_ok (fun n => n =? 1) 0x8000 calm_cpu (block_slots demo_code (u32 (0x8000 + 4 * Z.of_nat K))) ef out.
Proof.
  apply (translated_block_runs (fun n => n =? 1) calm_cpu none_modelled demo_code _ false 4 0x8000 (fresh stale_cpu) calm_cpu);
    [reflexivity|reflexivity|reflexivity|lia|lia| |exact (proj1 stale_ok)|exact (proj2 stale_ok)|reflexivity|vm_compute; reflexivity].
  intros i Hi _. destruct i as [|[|[|[|i]]]]; [..|lia]; (split; [vm_compute; split; congruence|reflexivity]).
Defined.

(** ** The departures are departures *)

(** [ADDS pc, r0, r1] in the mode of an exception: the manual returns to the
    mode of the SPSR, this front end sets the flags. *)
Example adds_pc_departs :
  let e := setf spsr 0x10 (setf uncached_cpsr 0x13 calm_cpu) in
  let insn := 0xe090f001 in
  departs true insn 0x8000 e = true /\
  match man_insn true true insn 0x8000 e, ref_insn true (user_mode e) insn 0x8000 e with
  | Ok (Jumps e1), Ok (Jumps e2) => cur_mode e1 = ARM_CPU_MODE_USR /\ cur_mode e2 = 0x13
  | _, _ => False
  end.
Proof. vm_compute. by repeat split. Qed.

(** [ROR r0, r1, r2] by 33: a value in the manual, none here. *)
Example ror_departs :
  let e := sete regs 2 33 (sete regs 1 5 calm_cpu) in
  let insn := 0xe1a00271 in
  departs true insn 0x8000 e = true /\
  match man_insn true true insn 0x8000 e with Ok (Follows e1) => elt e1 regs 0 = 0x80000002 | _ => False end /\
  ref_insn true (user_mode e) insn 0x8000 e = Undef.
Proof. vm_compute. by repeat split. Qed.

(** [MOV pc, r0] to an address with bit 1 set, on a version 6 processor. *)
Example mov_pc_departs :
  let e := sete regs 0 0x8002 calm_cpu in
  let insn := 0xe1a0f000 in
  departs false insn 0x8000 e = true /\
  match man_insn true false insn 0x8000 e, ref_insn false (user_mode e) insn 0x8000 e with
  | Ok (Jumps e1), Ok (Jumps e2) => elt e1 regs 15 = 0x8000 /\ elt e2 regs 15 = 0x8002
  | _, _ => False
  end.
Proof. vm_compute. by repeat split. Qed.

(** ** Single stepping *)

(** A supervisor call whose condition fails is taken all the same when it is
    stepped through: the code behind its label tests [condjmp] after clearing
    it. *)
Example stepped_swi_taken :
  ref_insn false false 0x1f000000 0x8000 calm_cpu = Ok (Follows calm_cpu) /\
  match gen_intermediate_code calm_cpu none_modelled (fun _ => 0x1f000000) (fun _ => false) true false 4 0x8000 with
  | Ok (c, _) => match exec (fun _ => false) None c (fresh calm_cpu) with Ok (Raise x _) => x = EXCP_SWI | _ => False end
  | _ => False
  end.
Proof. split; vm_compute; reflexivity. Qed.
