(* ===== verification/ArmArch.v ===== *)
(** * The reference processor

    The reference that the main loop is held against: a processor that
    executes one instruction after the other ([ref_insn]), takes the exceptions that they
    raise and the interrupts that are not masked. Its state is [CPUARMState];
    the theorems here say that it stays well-formed, and that states that
    differ in the representation of the flags only behave alike. *)
From stdpp Require Import list sets relations.
From S2P Require Import Prelude GuestMem ArmCpu ArmArith Tcg ArmTranslate ArmData ArmBlock.
#[local] Open Scope Z_scope.

(** A member that is not in a list, when both are known. *)
Ltac not_in_list := refine (bool_decide_eq_false_1 _ _); vm_compute; reflexivity.

(** ** Instructions keep the state well-formed *)

Lemma in_u32_alu op x y shc e : in_u32 x -> in_u32 y -> in_u32 (fst (fst (ref_alu op x y shc e))).
Proof.
  intros Hx Hy. unfold ref_alu. destruct (flag_view e) as [[[? ?] ?] ?].
  pose proof (in_u32_not32 _ Hx). pose proof (in_u32_not32 _ Hy). pose proof (in_u32_lor _ _ Hx Hy). pose proof (in_u32_lxor _ _ Hx Hy).
  repeat case_match; first [apply in_u32_u32 | by apply in_u32_land | done].
Qed.

Lemma cpu_ok_set_flags n z c v e : cpu_ok e -> cpu_ok (set_flags n z c v e).
Proof.
  intros Hok. assert (Hs : same_but_flags e (set_flags n z c v e)).
  { split; [|done]. intros f Hf. unfold set_flags, flag_fields in *. cbn. by rewrite !decide_False by (intros ->; apply Hf; set_solver). }
  eapply cpu_ok_flags; [exact Hok|exact Hs|]. apply (flags_wf_same e); [apply Hok|exact Hs|..]; unfold set_flags; cpu_simpl.
  - destruct c; cbn; lia.
  - destruct n; lia.
  - destruct v; lia.
Qed.

(** The members that no instruction changes. *)
Definition fixed_fields : list cpu_field := [features; vec_len; vec_stride; c1_sys; exception_index; interrupt_request].
Definition same_fixed (e e' : CPUARMState) : Prop :=
  (forall f, f ∈ fixed_fields -> fld e' f = fld e f) /\ arrs e' vfp_xregs = arrs e vfp_xregs.

#[global] Instance same_fixed_preorder : PreOrder same_fixed.
Proof. split; [by intros e|]. intros e1 e2 e3 [F1 A1] [F2 A2]. split; [intros f Hf; by rewrite F2, F1|congruence]. Qed.

Lemma same_fixed_setf f x e : f ∉ fixed_fields -> same_fixed e (setf f x e).
Proof. intros Hf. split; [|done]. intros g Hg. cbn. rewrite decide_False; [done|]. by intros ->. Qed.
Lemma same_fixed_sete a i x e : a <> vfp_xregs -> same_fixed e (sete a i x e).
Proof. intros Ha. split; [done|]. cbn. by rewrite decide_False. Qed.
Lemma same_ctx_fixed e e' : same_ctx e e' -> same_fixed e e'.
Proof.
  intros [F A]. split; [|by apply A]. intros f Hf. apply F. intros Hf'. unfold flag_fields, fixed_fields in *. set_unfold. naive_solver.
Qed.
Lemma same_fixed_equiv e e1 e2 : same_fixed e e1 -> e1 ≈ e2 -> same_fixed e e2.
Proof.
  intros [F A] (F2 & _ & A2). split; [|by rewrite <- A2]. intros f Hf. rewrite <- F2; [by apply F|].
  intros Hf'. unfold flag_fields, fixed_fields in *. set_unfold. naive_solver.
Qed.

Definition mode_ok (e : CPUARMState) : Prop := cur_mode e ∈ modes.

Lemma bank_number_ok m i : bank_number m = Ok i -> m ∈ modes.
Proof. unfold bank_number, modes. intros H. repeat case_match; try done; set_unfold; lia. Qed.

Lemma switch_mode_modes mode e e' : switch_mode mode e = Ok e' -> mode_ok e -> mode ∈ modes.
Proof.
  unfold switch_mode, mode_ok. destruct (Z.eqb_spec mode (cur_mode e)) as [->|]; [done|]. intros H _.
  apply rbind_Ok in H as (i & _ & H). apply rbind_Ok in H as (j & Hj & _). by eapply bank_number_ok.
Qed.

Lemma switch_mode_fixed mode e e' : sizes_ok e -> words_ok e -> switch_mode mode e = Ok e' -> same_fixed e e'.
Proof.
  intros Hs Hw Hsw. destruct (switch_mode_keeps _ _ _ Hs Hw Hsw) as (_ & _ & F). split.
  - intros f Hf. apply F. intros ->. revert Hf. not_in_list.
  - unfold switch_mode in Hsw. destruct (_ =? _); [by injection Hsw as <-|]. apply rbind_Ok in Hsw as (i & _ & H).
    apply rbind_Ok in H as (j & _ & [= <-]). unfold load_r8, save_r8. by repeat case_match.
Qed.

Lemma cpsr_write_modes val e e' :
  cpu_ok e -> cpsr_write val 0xffffffff e = Ok e' -> mode_ok e -> mode_ok e' /\ same_fixed e e'.
Proof.
  intros (Hs & Hwf & Hw) H Hm. set (e1 := write_flags val 0xffffffff e).
  change (cpsr_write val 0xffffffff e) with
      (let! e := if ctrue (Z.land (Z.land (Z.lxor (fld e1 uncached_cpsr) val) 0xffffffff) CPSR_M)
                 then switch_mode (Z.land val CPSR_M) e1 else Ok e1 in
       Ok (setf uncached_cpsr (new_uncached val 0xffffffff (fld e uncached_cpsr)) e)) in H.
  assert (F1 : forall f, f ∉ [VF; CF; NF; ZF; QF; thumb; condexec_bits; GE] -> fld e1 f = fld e f) by (intros f; apply write_flags_other).
  assert (A1 : arrs e1 = arrs e) by apply write_flags_arrs. clearbody e1.
  assert (Hs1 : sizes_ok e1) by (intros a; rewrite A1; apply Hs).
  assert (Hw1 : words_ok e1) by (apply (words_ext e); [done|apply F1; set_solver|intros a; by rewrite A1]).
  assert (Hm1 : cur_mode e1 = cur_mode e) by (unfold cur_mode; rewrite F1; [done|set_solver]).
  assert (Hx1 : same_fixed e e1) by (split; [intros f Hf; apply F1; unfold fixed_fields in Hf; set_solver|by rewrite A1]).
  rewrite land_land_whole in H by (by left). change (ctrue (Z.land 4294967295 CPSR_M)) with true in H. cbn iota in H.
  apply rbind_Ok in H as (e2 & E & [= <-]).
  assert (Hv : Z.land val CPSR_M ∈ modes).
  { unfold ctrue in E. rewrite lxor_land_zero in E. fold (cur_mode e1) in E. destruct (Z.eqb_spec (cur_mode e1) (Z.land val CPSR_M)) as [Heq|Hne]; cbn [negb] in E.
    - rewrite <- Heq, Hm1. exact Hm.
    - eapply switch_mode_modes; [exact E|]. unfold mode_ok. by rewrite Hm1. }
  assert (Hx2 : same_fixed e1 e2) by (destruct (ctrue _); [by eapply switch_mode_fixed|by injection E as <-]).
  split.
  - unfold mode_ok. rewrite cur_mode_setf.
    assert (Hf2 : fld e2 uncached_cpsr = fld e1 uncached_cpsr).
    { destruct (ctrue _); [|by injection E as <-]. by apply (switch_mode_keeps _ _ _ Hs1 Hw1 E). }
    pose proof (new_uncached_mode val 0xffffffff (fld e2 uncached_cpsr) ltac:(by left)) as Hnm. change (ctrue (Z.land 4294967295 CPSR_M)) with true in Hnm.
    cbn iota in Hnm. by rewrite Hnm.
  - etransitivity; [exact Hx1|]. etransitivity; [exact Hx2|]. apply same_fixed_setf. unfold fixed_fields. set_solver.
Qed.

Definition effect_cpu (ef : effect) : CPUARMState := match ef with Follows e | Jumps e | Traps _ e => e end.
Definition good_excp (x : Z) : Prop := x = EXCP_UDEF \/ x = EXCP_SWI.

Definition kept_ok (e e' : CPUARMState) : Prop := cpu_ok e' /\ mode_ok e' /\ same_fixed e e'.

Lemma kept_sete r x e e1 : kept_ok e e1 -> in_u32 x -> kept_ok e (sete regs r x e1).
Proof.
  intros (H1 & H2 & H3) Hx. split; [by apply cpu_ok_sete|]. split; [exact H2|]. etransitivity; [exact H3|by apply same_fixed_sete].
Qed.
Lemma kept_flags n z c v e : cpu_ok e -> mode_ok e -> kept_ok e (set_flags n z c v e).
Proof. intros H1 H2. split; [by apply cpu_ok_set_flags|]. split; [exact H2|]. apply same_ctx_fixed, same_ctx_flags. Qed.

Lemma Ok_inj {A} (x y : A) : Ok x = Ok y -> x = y.
Proof. by intros [=]. Qed.

Lemma ref_insn_keeps v7 user insn p e ef :
  cpu_ok e -> mode_ok e -> in_u32 p -> ref_insn v7 user insn p e = Ok ef ->
  kept_ok e (effect_cpu ef) /\ match ef with Traps x _ => good_excp x | _ => True end.
Proof.
  intros Hok Hm Hp. unfold ref_insn. assert (He : kept_ok e e) by (split; [done|]; by split).
  destruct (ConditionPassed _ _); [|by intros [= <-]]. unfold ref_exec, ref_data.
  destruct (is_data_processing insn).
  2: { destruct (_ =? 15); intros [= <-]; cbn [effect_cpu ref_branch].
       - split; [apply kept_sete; [done|apply in_u32_u32]|by right].
       - split; [|done]. apply kept_sete; [|apply in_u32_u32]. destruct (Z.testbit insn 24); [apply kept_sete; [done|apply in_u32_u32]|done]. }
  pose proof (cpu_ok_regs _ Hok) as Hr.
  intros H. apply rbind_Ok in H as ([y shc] & Hop & H). pose proof (in_u32_operand2 p insn _ _ _ Hr Hop) as Hy. cbn [fst] in Hy.
  pose proof (in_u32_alu (bits insn 21 4) (ref_reg (reg_at insn 16) p e) y shc e (in_u32_ref_reg _ _ _ Hr) Hy) as Hres.
  unfold ref_result in H. destruct (ref_alu _ _ _ _ _) as [[r c] v]. cbn [fst] in Hres.
  set (e1 := if Z.testbit insn 20 then set_flags (Z.testbit r 31) (r =? 0) c v e else e) in H.
  assert (He1 : kept_ok e e1) by (unfold e1; destruct (Z.testbit insn 20); [by apply kept_flags|done]). clearbody e1.
  destruct (_ && _) in H; [by injection H as <-|].
  destruct (_ =? 15)%nat; [|injection H as <-; split; [by apply kept_sete|done]].
  destruct (_ && _) in H.
  - destruct user.
    + apply Ok_inj in H as <-. split; [|by left]. cbn [effect_cpu]. apply kept_sete; [|exact Hp]. destruct (_ =? 13); [|done].
      split; [eapply (cpu_ok_carry shc); [exact Hok|split; [|done]|done]; intros f Hf; cbn; by rewrite decide_False|].
      split; [exact Hm|]. apply same_fixed_setf. not_in_list.
    + cbn zeta in H. apply rbind_Ok in H as (e2 & Hw & [= <-]). cbn [effect_cpu]. split; [|done].
      destruct (kept_sete 15 (Z.land r 4294967294) e e He (in_u32_land _ _ Hres)) as (K1 & K2 & K3).
      destruct (cpsr_write_modes _ _ _ K1 Hw K2) as [M2 F2]. split; [|split; [exact M2|by etransitivity]].
      refine (cpsr_write_keeps _ _ _ _ K1 _ _ Hw); [apply K1|lia].
  - injection H as <-. cbn [effect_cpu]. split; [|done]. destruct He1 as (K1 & K2 & K3). split; [by apply cpu_ok_write_pc|].
    split; [unfold mode_ok, cur_mode, ref_write_pc; destruct v7; exact K2|]. etransitivity; [exact K3|].
    unfold ref_write_pc. etransitivity; [|by apply same_fixed_sete]. destruct v7; [|done]. apply same_fixed_setf. not_in_list.
Qed.

(** ** Exceptions on equivalent states *)

Lemma equiv_seta a l e1 e2 : e1 ≈ e2 -> seta a l e1 ≈ seta a l e2.
Proof. intros (F & V & A). split; [exact F|]. split; [exact V|]. intros b. cbn. case_decide; auto. Qed.
Lemma equiv_fld e1 e2 f : e1 ≈ e2 -> f ∉ flag_fields -> fld e1 f = fld e2 f.
Proof. intros (F & _). apply F. Qed.
Lemma equiv_arrs e1 e2 a : e1 ≈ e2 -> arrs e1 a = arrs e2 a.
Proof. by intros (_ & _ & A). Qed.
Lemma equiv_set e1 e2 a i x1 x2 : e1 ≈ e2 -> x1 = x2 -> sete a i x1 e1 ≈ sete a i x2 e2.
Proof. intros He ->. by apply equiv_sete. Qed.
Lemma equiv_setf_eq e1 e2 f x1 x2 : f ∉ flag_fields -> e1 ≈ e2 -> x1 = x2 -> setf f x1 e1 ≈ setf f x2 e2.
Proof. intros Hf He ->. by apply equiv_setf. Qed.

Lemma equiv_exchange_r8 old_mode mode e1 e2 : e1 ≈ e2 -> exchange_r8 old_mode mode e1 ≈ exchange_r8 old_mode mode e2.
Proof.
  intros He. assert (H : forall a b, load_r8 a (save_r8 b e1) ≈ load_r8 a (save_r8 b e2)).
  { intros a b. unfold load_r8, save_r8. rewrite !(equiv_arrs e1 e2) by done.
    assert (Hs : seta b (take 5 (drop 8 (arrs e2 regs))) e1 ≈ seta b (take 5 (drop 8 (arrs e2 regs))) e2) by (by apply equiv_seta).
    rewrite !(equiv_arrs _ _ _ Hs). by apply equiv_seta. }
  unfold exchange_r8. by repeat case_match.
Qed.

Lemma equiv_exchange_banks i j e1 e2 : e1 ≈ e2 -> exchange_banks i j e1 ≈ exchange_banks i j e2.
Proof.
  intros He. unfold exchange_banks. cbn zeta.
  assert (Hm : forall e1 e2, e1 ≈ e2 -> forall a i b j, sete a i (elt e1 b j) e1 ≈ sete a i (elt e2 b j) e2)
    by (intros; apply equiv_set; [done|by apply equiv_elt]).
  pose proof (Hm _ _ (Hm _ _ He banked_r13 i regs 13%nat) banked_r14 i regs 14%nat) as H1.
  set (x1 := sete banked_r14 i _ _) in *. set (x2 := sete banked_r14 i _ (sete banked_r13 i _ e2)) in *. clearbody x1 x2.
  assert (H2 : sete banked_spsr i (fld x1 spsr) x1 ≈ sete banked_spsr i (fld x2 spsr) x2) by (apply equiv_set; [done|apply equiv_fld; [done|not_in_list]]).
  set (y1 := sete banked_spsr i _ x1) in *. set (y2 := sete banked_spsr i _ x2) in *. clearbody y1 y2.
  pose proof (Hm _ _ (Hm _ _ H2 regs 13%nat banked_r13 j) regs 14%nat banked_r14 j) as H3.
  apply equiv_setf_eq; [not_in_list|exact H3|]. by apply equiv_elt.
Qed.

Lemma switch_mode_equiv mode e1 e2 e1' :
  e1 ≈ e2 -> switch_mode mode e1 = Ok e1' -> exists e2', switch_mode mode e2 = Ok e2' /\ e1' ≈ e2'.
Proof.
  intros He. unfold switch_mode, cur_mode. rewrite (equiv_fld e1 e2 uncached_cpsr He) by not_in_list.
  set (old := Z.land _ CPSR_M). destruct (mode =? old); [intros [= <-]; by exists e2|].
  fold (exchange_r8 old mode e1). fold (exchange_r8 old mode e2). pose proof (equiv_exchange_r8 old mode _ _ He) as Hx.
  destruct (bank_number old) as [i| |]; cbn [rbind]; [|done..]. destruct (bank_number mode) as [j| |]; cbn [rbind]; [|done..].
  intros [= <-]. eexists. split; [reflexivity|]. exact (equiv_exchange_banks i j _ _ Hx).
Qed.

Lemma cpsr_read_equiv e1 e2 : e1 ≈ e2 -> flags_wf e1 -> flags_wf e2 -> cpsr_read e1 = cpsr_read e2.
Proof.
  intros (F & V & _) W1 W2. unfold cpsr_read. unfold flag_view in V. injection V as VN VZ VC VV.
  rewrite (F uncached_cpsr), (F QF), (F thumb), (F condexec_bits), (F GE) by not_in_list.
  rewrite VZ. destruct W1 as (_ & _ & C1 & _ & _ & _ & _ & N1 & V1), W2 as (_ & _ & C2 & _ & _ & _ & _ & N2 & V2).
  assert (fld e1 CF = fld e2 CF) as ->.
  { assert (fld e1 CF = 0 \/ fld e1 CF = 1) as [E1|E1] by lia; assert (fld e2 CF = 0 \/ fld e2 CF = 1) as [E2|E2] by lia;
      rewrite E1, E2 in *; done. }
  assert (Hb : forall x y, Z.testbit x 31 = Z.testbit y 31 -> Z.land x 0x80000000 = Z.land y 0x80000000).
  { intros x y E. change 0x80000000 with (2 ^ 31). apply Z.bits_inj'. intros i Hi. rewrite !Z.land_spec, Z.pow2_bits_eqb by lia.
    destruct (Z.eqb_spec 31 i) as [<-|]; [by rewrite E|by rewrite !andb_false_r]. }
  by rewrite (Hb _ _ VN), (Hb _ _ VV).
Qed.

Section Interrupts.
Context (iv7m : CPUARMState -> res CPUARMState) (dsemi : CPUARMState -> res (Z * CPUARMState)) (lduw ldl : Z -> Z).
Abbreviation interrupt := (do_interrupt iv7m false dsemi lduw ldl).

Lemma semihosting_off e : semihosting_call false lduw ldl e = None.
Proof. unfold semihosting_call. rewrite andb_false_r. by repeat case_match. Qed.

Lemma interrupt_enter e e' :
  arm_feature e ARM_FEATURE_M = false -> interrupt e = Ok e' ->
  exists k e1, exception_entry e = Some k /\ switch_mode (new_mode k) e = Ok e1 /\
    e' = enter k (if ctrue (Z.land (fld e c1_sys) (bit32 13)) then u32 (vector k + 0xffff0000) else vector k) e1.
Proof.
  intros HM. unfold do_interrupt. rewrite HM, semihosting_off. destruct (exception_entry e) as [k|]; [|done].
  intros H. apply rbind_Ok in H as (e1 & E & [= <-]). by exists k, e1.
Qed.

Lemma interrupt_equiv e1 e2 e1' :
  e1 ≈ e2 -> cpu_ok e1 -> cpu_ok e2 -> arm_feature e1 ARM_FEATURE_M = false -> interrupt e1 = Ok e1' ->
  exists e2', interrupt e2 = Ok e2' /\ e1' ≈ e2'.
Proof.
  intros He Hok1 Hok2 HM H. destruct (interrupt_enter _ _ HM H) as (k & x1 & Hk & Hs & ->).
  destruct (switch_mode_equiv _ _ _ _ He Hs) as (x2 & Hs2 & Hx).
  assert (Hf : forall f, f ∉ flag_fields -> fld e1 f = fld e2 f) by (intros f Hf; by apply equiv_fld).
  unfold do_interrupt. rewrite semihosting_off. unfold arm_feature in *. rewrite <- (Hf features) by not_in_list. rewrite HM.
  assert (exception_entry e2 = Some k) as ->.
  { rewrite <- Hk. unfold exception_entry. by rewrite !(Hf exception_index), !(Hf thumb) by not_in_list. }
  rewrite Hs2. cbn [rbind]. rewrite <- (Hf c1_sys) by not_in_list.
  set (addr := if ctrue (Z.land (fld e1 c1_sys) (bit32 13)) then _ else _). eexists. split; [reflexivity|]. change (enter k addr x1 ≈ enter k addr x2). unfold enter. cbn zeta.
  destruct Hok1 as (S1 & W1 & R1), Hok2 as (S2 & W2 & R2).
  destruct (switch_mode_keeps _ _ _ S1 R1 Hs) as (_ & _ & F1). destruct (switch_mode_keeps _ _ _ S2 R2 Hs2) as (_ & _ & F2).
  assert (Hc : cpsr_read x1 = cpsr_read x2).
  { rewrite (cpsr_read_ext e1 x1), (cpsr_read_ext e2 x2) by done. by apply cpsr_read_equiv. }
  rewrite Hc. pose proof (equiv_setf spsr (cpsr_read x2) _ _ ltac:(not_in_list) Hx) as H1.
  pose proof (equiv_setf condexec_bits 0 _ _ ltac:(not_in_list) H1) as H2. set (y1 := setf condexec_bits 0 _) in *. set (y2 := setf condexec_bits 0 (setf spsr _ x2)) in *. clearbody y1 y2.
  rewrite (equiv_fld _ _ uncached_cpsr H2) by not_in_list.
  cpu_simpl.
  repeat first [apply equiv_setf_eq; [not_in_list| |] | apply equiv_set | reflexivity | assumption].
  - cbn [elt arrs setf]. f_equal. f_equal. by apply (equiv_elt y1 y2).
  - cpu_simpl. f_equal. apply equiv_fld; [done|not_in_list].
Qed.

Lemma interrupt_keeps e e' :
  cpu_ok e -> mode_ok e -> arm_feature e ARM_FEATURE_M = false -> interrupt e = Ok e' ->
  cpu_ok e' /\ mode_ok e' /\ (forall f, f ∈ fixed_fields -> f <> interrupt_request -> fld e' f = fld e f) /\
  arrs e' vfp_xregs = arrs e vfp_xregs /\ fld e' thumb = 0 /\ fld e' condexec_bits = 0 /\
  fld e' interrupt_request = Z.lor (fld e interrupt_request) CPU_INTERRUPT_EXITTB.
Proof.
  intros Hok Hm HM H. destruct (interrupt_enter _ _ HM H) as (k & e1 & Hk & Hs & ->).
  destruct Hok as (S1 & W1 & R1). destruct (switch_mode_keeps _ _ _ S1 R1 Hs) as (S2 & R2 & F2).
  destruct (switch_mode_fixed _ _ _ S1 R1 Hs) as [X A].
  destruct (do_interrupt_ok iv7m false dsemi lduw ldl e k S1 W1 Hm HM (semihosting_off e) Hk) as (e2 & E2 & S3 & W3 & M3 & _).
  rewrite H in E2. injection E2 as <-. split; [|split; [|split; [|split; [|split; [done|split; [done|]]]]]].
  - split; [done|]. split; [done|]. unfold enter. cbn zeta. set (addr := if ctrue _ then _ else _).
    assert (Ha : in_u32 addr).
    { unfold addr. destruct (ctrue _); [apply in_u32_u32|]. unfold exception_entry in Hk. repeat case_match; simplify_eq; cbn; lia. }
    apply words_setf; [|done]. apply words_sete; [|exact Ha]. apply words_sete; [|apply in_u32_u32].
    do 4 (apply words_setf; [|done]). apply words_setf; [done|]. intros _. rewrite (cpsr_read_ext e e1) by done. by apply cpsr_read_range.
  - unfold mode_ok. rewrite M3. by apply (exception_entry_mode e k).
  - intros f Hf Hi. rewrite <- (X f Hf). assert (f <> spsr /\ f <> condexec_bits /\ f <> uncached_cpsr /\ f <> thumb) as (? & ? & ? & ?).
    { split_and!; intros ->; revert Hf; not_in_list. }
    unfold enter. cbn. by rewrite !decide_False.
  - rewrite <- A. done.
  - unfold enter. cpu_simpl. by rewrite X by in_list.
Qed.

Lemma interrupt_defined e :
  cpu_ok e -> mode_ok e -> arm_feature e ARM_FEATURE_M = false -> fld e exception_index ∈ [EXCP_UDEF; EXCP_SWI; EXCP_IRQ; EXCP_FIQ] ->
  exists e', interrupt e = Ok e'.
Proof.
  intros (S1 & W1 & _) Hm HM Hx.
  assert (exists k, exception_entry e = Some k) as [k Hk].
  { unfold exception_entry. set_unfold in Hx. destruct Hx as [->|[->|[->|[->|[]]]]]; cbn; eauto. }
  destruct (do_interrupt_ok iv7m false dsemi lduw ldl e k S1 W1 Hm HM (semihosting_off e) Hk) as (e2 & E2 & _). eauto.
Qed.
End Interrupts.

(** ** Fetching *)

(** The address of the code at [a]; [phys] maps the pages. *)
Definition get_phys_addr_code (phys : Z -> Z) (a : Z) : Z :=
  Z.shiftl (phys (Z.shiftr a TARGET_PAGE_BITS)) TARGET_PAGE_BITS + page_offset a.
Definition map_page (a page : Z) (phys : Z -> Z) : Z -> Z :=
  fun k => if k =? Z.shiftr a TARGET_PAGE_BITS then page else phys k.

(** What the rest of the emulator does to the processor. *)
Inductive event :=
| CpuInterrupt (mask : Z)
| CpuResetInterrupt (mask : Z)
| CpuExit
| TlbFlush (phys : Z -> Z)
| TlbFlushPage (addr page : Z).

Section Arch.
Context (mem : Z -> Z).
Context (do_interrupt_v7m : CPUARMState -> res CPUARMState) (do_arm_semihosting : CPUARMState -> res (Z * CPUARMState)).

Definition ldub_code (phys : Z -> Z) (a : Z) : Z := mem (get_phys_addr_code phys a).
Definition ldl_code (phys : Z -> Z) (a : Z) : Z :=
  Z.lor (Z.lor (Z.lor (ldub_code phys a) (Z.shiftl (ldub_code phys (u32 (a + 1))) 8)) (Z.shiftl (ldub_code phys (u32 (a + 2))) 16))
    (Z.shiftl (ldub_code phys (u32 (a + 3))) 24).

Definition cpu_do_interrupt : CPUARMState -> res CPUARMState :=
  do_interrupt do_interrupt_v7m false do_arm_semihosting (fun _ => 0) (fun _ => 0).

(** ** Running *)

(** The registers, the pages that are mapped, and an exception that an
    instruction raised and that is not taken yet. *)
Record arch := mkArch { a_cpu : CPUARMState; a_phys : Z -> Z; a_pending : option Z }.

Definition a_pc (a : arch) : Z := elt (a_cpu a) regs 15.
Definition cpu_v7 (e : CPUARMState) : bool := arm_feature e ARM_FEATURE_V7.
Definition cpu_user (e : CPUARMState) : bool := Z.land (fld e uncached_cpsr) 0x1f =? ARM_CPU_MODE_USR.
Definition a_insn (a : arch) : res effect :=
  ref_insn (cpu_v7 (a_cpu a)) (cpu_user (a_cpu a)) (ldl_code (a_phys a) (a_pc a)) (a_pc a) (a_cpu a).
Definition set_a_cpu (e : CPUARMState) (a : arch) : arch := mkArch e (a_phys a) (a_pending a).

(** An interrupt that is requested and not masked. *)
Definition irq_enabled (e : CPUARMState) (x : Z) : bool :=
  (x =? EXCP_FIQ) && ctrue (Z.land (fld e interrupt_request) 0x10) && negb (ctrue (Z.land (fld e uncached_cpsr) CPSR_F))
  || (x =? EXCP_IRQ) && ctrue (Z.land (fld e interrupt_request) 0x02) && negb (ctrue (Z.land (fld e uncached_cpsr) CPSR_I)).

(** The request bits that are messages to the main loop. *)
Definition loop_notes : list Z := [CPU_INTERRUPT_EXITTB; 0x20; 0x80].

(** One step: an instruction, an exception that is taken, an interrupt. The
    last two rules are for members of the state that the architecture does not
    have: the number of the last exception and the messages to the main loop. *)
Inductive arch_step (a : arch) : arch -> Prop :=
| step_follows e : a_pending a = None -> a_insn a = Ok (Follows e) -> arch_step a (set_a_cpu (sete regs 15 (u32 (a_pc a + 4)) e) a)
| step_jumps e : a_pending a = None -> a_insn a = Ok (Jumps e) -> arch_step a (set_a_cpu e a)
| step_traps x e : a_pending a = None -> a_insn a = Ok (Traps x e) -> arch_step a (mkArch e (a_phys a) (Some x))
| step_taken x e : a_pending a = Some x -> cpu_do_interrupt (setf exception_index x (a_cpu a)) = Ok e ->
    arch_step a (mkArch e (a_phys a) None)
| step_irq x e : a_pending a = None -> irq_enabled (a_cpu a) x = true ->
    cpu_do_interrupt (setf exception_index x (a_cpu a)) = Ok e -> arch_step a (set_a_cpu e a)
| step_index x : arch_step a (set_a_cpu (setf exception_index x (a_cpu a)) a)
| step_note n : n ∈ loop_notes ->
    arch_step a (set_a_cpu (setf interrupt_request (andn (fld (a_cpu a) interrupt_request) n) (a_cpu a)) a).

Definition arch_event (ev : event) (a : arch) : arch :=
  let e := a_cpu a in
  match ev with
  | CpuInterrupt mask => set_a_cpu (setf interrupt_request (Z.lor (fld e interrupt_request) mask) e) a
  | CpuResetInterrupt mask => set_a_cpu (setf interrupt_request (andn (fld e interrupt_request) mask) e) a
  | CpuExit => a
  | TlbFlush phys => mkArch e phys (a_pending a)
  | TlbFlushPage addr page => mkArch e (map_page addr page (a_phys a)) (a_pending a)
  end.

Inductive arch_run (a0 : arch) : list event -> arch -> Prop :=
| arch_start : arch_run a0 [] a0
| arch_next tr a a' : arch_run a0 tr a -> arch_step a a' -> arch_run a0 tr a'
| arch_signal tr a ev : arch_run a0 tr a -> arch_run a0 (tr ++ [ev]) (arch_event ev a).

Record arch_ok (a : arch) : Prop := {
  ao_cpu : cpu_ok (a_cpu a);
  ao_mode : mode_ok (a_cpu a);
  ao_m : arm_feature (a_cpu a) ARM_FEATURE_M = false;
  ao_vec : 0 <= fld (a_cpu a) vec_len < 8 /\ 0 <= fld (a_cpu a) vec_stride < 4;
  ao_pending x : a_pending a = Some x -> good_excp x }.

(** The program is one that the model covers: instructions of the instruction
    set ARM at aligned addresses, all of them modelled up to the end of the
    page, and the next one defined. *)
Definition runs_arm (a : arch) : Prop :=
  a_pending a = None ->
  fld (a_cpu a) thumb = 0 /\ fld (a_cpu a) condexec_bits = 0 /\ a_pc a mod 4 = 0 /\
  (forall n, modelled_words (ldl_code (a_phys a)) (next_page_start (a_pc a)) n (a_pc a)) /\ exists ef, a_insn a = Ok ef.
Definition safe (tr : list event) (a0 : arch) : Prop :=
  forall tr1 tr2 a, tr = tr1 ++ tr2 -> arch_run a0 tr1 a -> runs_arm a.

(** ** The invariant *)

Lemma arch_ok_equiv a e' p :
  arch_ok a -> kept_ok (a_cpu a) e' -> (forall x, p = Some x -> good_excp x) -> arch_ok (mkArch e' (a_phys a) p).
Proof.
  intros [A1 A2 A3 A4 A5] (K1 & K2 & K3 & _) Hp. split; cbn; try done.
  - unfold arm_feature. rewrite K3 by in_list. exact A3.
  - by rewrite !K3 by in_list.
Qed.

Lemma kept_ok_index x e : cpu_ok e -> mode_ok e -> cpu_ok (setf exception_index x e) /\ mode_ok (setf exception_index x e).
Proof. intros (S & W & R) Hm. split; [|done]. split; [done|]. split; [exact W|]. by apply words_setf. Qed.
Lemma kept_ok_request x e : cpu_ok e -> mode_ok e -> cpu_ok (setf interrupt_request x e) /\ mode_ok (setf interrupt_request x e).
Proof. intros (S & W & R) Hm. split; [|done]. split; [done|]. split; [exact W|]. by apply words_setf. Qed.

Lemma arch_ok_interrupt a x e p phys :
  arch_ok a -> cpu_do_interrupt (setf exception_index x (a_cpu a)) = Ok e -> p = None -> arch_ok (mkArch e phys p).
Proof.
  intros [A1 A2 A3 A4 _] H ->. destruct (kept_ok_index x _ A1 A2) as [K1 K2].
  destruct (interrupt_keeps _ _ _ _ _ _ K1 K2 A3 H) as (I1 & I2 & I3 & _). split; cbn; try done.
  - unfold arm_feature. by rewrite I3 by (in_list || done).
  - by rewrite !I3 by (in_list || done).
Qed.

Lemma a_pc_u32 a : arch_ok a -> in_u32 (a_pc a).
Proof. intros H. apply cpu_ok_regs, H. Qed.

Lemma arch_step_ok a a' : arch_ok a -> arch_step a a' -> arch_ok a'.
Proof.
  intros Hok Hst. pose proof (a_pc_u32 _ Hok) as Hpc. pose proof Hok as [A1 A2 A3 A4 A5].
  assert (Hi : forall ef, a_insn a = Ok ef -> kept_ok (a_cpu a) (effect_cpu ef) /\ match ef with Traps x _ => good_excp x | _ => True end).
  { intros ef H. exact (ref_insn_keeps _ _ _ _ _ _ A1 A2 Hpc H). }
  destruct Hst as [e Hp H|e Hp H|x e Hp H|x e Hp H|x e Hp Hx H|x|n Hn].
  - apply arch_ok_equiv; [done| |done]. apply kept_sete; [by apply (Hi (Follows e))|apply in_u32_u32].
  - apply arch_ok_equiv; [done|by apply (Hi (Jumps e))|done].
  - apply arch_ok_equiv; [done|by apply (Hi (Traps x e))|]. intros y [= <-]. by apply (Hi (Traps x e)).
  - by eapply arch_ok_interrupt.
  - by eapply arch_ok_interrupt.
  - destruct (kept_ok_index x _ A1 A2). by split.
  - destruct (kept_ok_request (andn (fld (a_cpu a) interrupt_request) n) _ A1 A2). by split.
Qed.

Lemma arch_event_ok ev a : arch_ok a -> arch_ok (arch_event ev a).
Proof.
  intros [A1 A2 A3 A4 A5]. by destruct ev as [mask|mask| |phys|addr page].
Qed.

Lemma arch_run_ok a0 tr a : arch_ok a0 -> arch_run a0 tr a -> arch_ok a.
Proof. intros H0. induction 1; [done|by eapply arch_step_ok|by apply arch_event_ok]. Qed.

(** ** Several instructions *)

Lemma set_pc_same e : sizes_ok e -> sete regs 15 (elt e regs 15) e ≈ e.
Proof.
  intros Hs. split; [done|]. split; [done|]. intros a. cbn. case_decide; [subst|done]. apply list_insert_id. unfold elt.
  destruct (lookup_lt_is_Some_2 (arrs e regs) 15) as [x ->]; [|done]. rewrite Hs. cbn. lia.
Qed.

Lemma pc_equiv_equiv e1 e2 : e1 ≃ e2 -> sizes_ok e2 -> sete regs 15 (elt e2 regs 15) e1 ≈ e2.
Proof. intros He Hs. rewrite (pc_equiv_set_pc (elt e2 regs 15) _ _ He). by apply set_pc_same. Qed.

(** What the instructions of a block keep. *)
Definition same_code (e e' : CPUARMState) : Prop := cpu_v7 e' = cpu_v7 e /\ cpu_user e' = cpu_user e.
Lemma same_ctx_code e e' : same_ctx e e' -> same_code e e'.
Proof. intros [F _]. unfold same_code, cpu_v7, cpu_user, arm_feature. by rewrite (F features), (F uncached_cpsr) by not_in_list. Qed.

Section Steps.
Context (a0 : arch) (tr : list event) (Hok0 : arch_ok a0).

(** An instruction that is followed by the next one. *)
Lemma follows_step a e e' (v7 user : bool) :
  arch_run a0 tr a -> a_pending a = None -> e ≃ a_cpu a -> v7 = cpu_v7 (a_cpu a) -> user = cpu_user (a_cpu a) ->
  ref_insn v7 user (ldl_code (a_phys a) (a_pc a)) (a_pc a) e = Ok (Follows e') ->
  exists a', arch_run a0 tr a' /\ a_pending a' = None /\ a_phys a' = a_phys a /\ e' ≃ a_cpu a' /\ a_pc a' = u32 (a_pc a + 4) /\
    v7 = cpu_v7 (a_cpu a') /\ user = cpu_user (a_cpu a') /\ same_ctx (a_cpu a) (a_cpu a').
Proof.
  intros Hr Hp He Hv Hu H. destruct (equiv_insn _ _ _ _ _ _ He _ H) as (ef & H2 & Heq). destruct ef as [e2|e2|x e2]; try done.
  rewrite Hv, Hu in H2. pose proof (follows_ctx _ _ _ _ _ _ H2) as Hc. cbn [effect_equiv] in Heq.
  pose proof (arch_run_ok _ _ _ Hok0 Hr) as Hok. pose proof (ref_insn_keeps _ _ _ _ _ _ (ao_cpu _ Hok) (ao_mode _ Hok) (a_pc_u32 _ Hok) H2) as [(K1 & _) _].
  exists (set_a_cpu (sete regs 15 (u32 (a_pc a + 4)) e2) a). split; [eapply arch_next; [exact Hr|by constructor]|].
  assert (Hc2 : same_ctx (a_cpu a) (sete regs 15 (u32 (a_pc a + 4)) e2)) by (etransitivity; [exact Hc|apply same_ctx_sete]).
  destruct (same_ctx_code _ _ Hc2) as [C1 C2]. cbn [set_a_cpu a_cpu a_pending a_phys]. split; [done|]. split; [done|].
  split; [|split; [|by rewrite C1, C2]].
  - rewrite Heq. split; [done|]. split; [done|]. split; [intros b Hb; cbn; by rewrite decide_False|]. cbn. rewrite decide_True by done.
    by rewrite list_insert_insert_eq.
  - apply elt_sete_same; [apply K1|cbn; lia].
Qed.

Lemma run_steps k : forall a e (v7 user : bool) ef,
  arch_run a0 tr a -> a_pending a = None -> e ≃ a_cpu a -> v7 = cpu_v7 (a_cpu a) -> user = cpu_user (a_cpu a) ->
  ref_run v7 user (ldl_code (a_phys a)) k (a_pc a) e = Ok ef ->
  exists a', arch_run a0 tr a' /\ a_phys a' = a_phys a /\ effect_cpu ef ≈ a_cpu a' /\
    match ef with Jumps _ => a_pending a' = None | Traps x _ => a_pending a' = Some x | Follows _ => False end.
Proof.
  induction k as [|k IH]; intros a e v7 user ef Hr Hp He Hv Hu H; cbn [ref_run] in H.
  - injection H as <-. exists a. split; [done|]. split; [done|]. split; [|done]. apply pc_equiv_equiv; [done|]. apply (arch_run_ok _ _ _ Hok0 Hr).
  - apply rbind_Ok in H as (ef1 & Hins & H). destruct ef1 as [e1|e1|x e1].
    + destruct (follows_step a e e1 v7 user Hr Hp He Hv Hu Hins) as (a1 & Hr1 & Hp1 & Hph & He1 & Hpc & Hv1 & Hu1 & _).
      rewrite <- Hpc, <- Hph in H. destruct (IH a1 e1 v7 user ef Hr1 Hp1 He1 Hv1 Hu1 H) as (a2 & Hr2 & Hph2 & R2).
      exists a2. split; [done|]. split; [congruence|done].
    + injection H as <-. destruct (equiv_insn _ _ _ _ _ _ He _ Hins) as (ef & H2 & Heq). destruct ef as [e2|e2|x e2]; try done.
      rewrite Hv, Hu in H2. exists (set_a_cpu e2 a). split; [eapply arch_next; [exact Hr|by constructor]|]. done.
    + injection H as <-. destruct (equiv_insn _ _ _ _ _ _ He _ Hins) as (ef & H2 & Heq). destruct ef as [e2|e2|y e2]; try done.
      destruct Heq as [<- Heq]. rewrite Hv, Hu in H2. exists (mkArch e2 (a_phys a) (Some x)). split; [eapply arch_next; [exact Hr|by constructor]|]. done.
Qed.

Lemma defined_steps n (Hsafe : forall a, arch_run a0 tr a -> runs_arm a) page_end : forall a e (v7 user : bool),
  arch_run a0 tr a -> a_pending a = None -> e ≃ a_cpu a -> v7 = cpu_v7 (a_cpu a) -> user = cpu_user (a_cpu a) ->
  ref_defined v7 user (ldl_code (a_phys a)) page_end n (a_pc a) e = true.
Proof.
  induction n as [|n IH]; intros a e v7 user Hr Hp He Hv Hu; [done|]. cbn [ref_defined].
  destruct (Hsafe a Hr Hp) as (_ & _ & _ & _ & ef & Hins). unfold a_insn in Hins. rewrite <- Hv, <- Hu in Hins.
  destruct (equiv_insn _ _ _ _ _ _ (symmetry He) _ Hins) as (ef2 & Hins2 & _). rewrite Hins2. destruct ef2 as [e1| |]; [|done..].
  destruct (_ <? _); [|done].
  destruct (follows_step a e e1 v7 user Hr Hp He Hv Hu Hins2) as (a1 & Hr1 & Hp1 & Hph & He1 & Hpc & Hv1 & Hu1 & _).
  rewrite <- Hpc, <- Hph. by apply IH.
Qed.
End Steps.
End Arch.
