(* ===== verification/TbCache.v ===== *)
(** * The cache of translated blocks

    The array [tbs] of [exec.c] and what points into it: the hash table by
    physical address, the jump cache of the processor by virtual address, the
    lists of the blocks of a page, and the circular lists of the blocks that
    jump to a block directly. A pointer to a block is its index in [tbs]; the
    low bits that the code hides in a pointer are the second part of a pair.
    There is one processor. The bitmaps of pages ([build_page_bitmap]) and the
    write protection of pages with code are not modelled. *)
From S2P Require Import Prelude GuestMem Tcg.
From stdpp Require Import list gmap.
#[local] Open Scope Z_scope.

(** ** Hash functions *)

Definition TB_JMP_CACHE_BITS : Z := 12.
Definition TB_JMP_CACHE_SIZE : Z := Z.shiftl 1 TB_JMP_CACHE_BITS.
Definition TB_JMP_PAGE_BITS : Z := TB_JMP_CACHE_BITS / 2.
Definition TB_JMP_PAGE_SIZE : Z := Z.shiftl 1 TB_JMP_PAGE_BITS.
Definition TB_JMP_ADDR_MASK : Z := TB_JMP_PAGE_SIZE - 1.
Definition TB_JMP_PAGE_MASK : Z := TB_JMP_CACHE_SIZE - TB_JMP_PAGE_SIZE.
Definition CODE_GEN_PHYS_HASH_SIZE : Z := Z.shiftl 1 15.
Definition CODE_GEN_ALIGN : Z := 16.

Definition tb_jmp_cache_hash_page (pc : Z) : Z :=
  let tmp := Z.lxor pc (Z.shiftr pc (TARGET_PAGE_BITS - TB_JMP_PAGE_BITS)) in
  Z.land (Z.shiftr tmp (TARGET_PAGE_BITS - TB_JMP_PAGE_BITS)) TB_JMP_PAGE_MASK.
Definition tb_jmp_cache_hash_func (pc : Z) : Z :=
  let tmp := Z.lxor pc (Z.shiftr pc (TARGET_PAGE_BITS - TB_JMP_PAGE_BITS)) in
  Z.lor (Z.land (Z.shiftr tmp (TARGET_PAGE_BITS - TB_JMP_PAGE_BITS)) TB_JMP_PAGE_MASK) (Z.land tmp TB_JMP_ADDR_MASK).
Definition tb_phys_hash_func (pc : Z) : Z := Z.land pc (CODE_GEN_PHYS_HASH_SIZE - 1).

(** ** Blocks *)

(** Arrays of two members. *)
Definition pick {A} (n : Z) (x : A * A) : A := if n =? 0 then fst x else snd x.
Definition put {A} (n : Z) (v : A) (x : A * A) : A * A := if n =? 0 then (v, snd x) else (fst x, v).

(** A pointer to a block with two more bits; 2 stands for the [jmp_first] of
    the block, 0 and 1 for its [jmp_next] or [page_next]. *)
Abbreviation jptr := (nat * Z)%type.

(** [page_addr[1]] of a block that is in one page. *)
Definition NO_PAGE : Z := 0xffffffff.

(** [b_code] is the code that [tc_ptr] points to; [b_tb_next] says to which
    block each of its two jumps was patched. *)
Record TranslationBlock := mkTB {
  b_pc : Z; b_cs_base : Z; b_flags : Z; b_size : Z;
  b_tc_ptr : Z; b_code : list tcg_op;
  b_phys_hash_next : option nat;
  b_page_next : option jptr * option jptr;
  b_page_addr : Z * Z;
  b_tb_next : option nat * option nat;
  b_jmp_next : option jptr * option jptr;
  b_jmp_first : option jptr }.

Definition set_phys_hash_next (p : option nat) (b : TranslationBlock) : TranslationBlock :=
  mkTB (b_pc b) (b_cs_base b) (b_flags b) (b_size b) (b_tc_ptr b) (b_code b) p (b_page_next b) (b_page_addr b)
    (b_tb_next b) (b_jmp_next b) (b_jmp_first b).
Definition set_page_next (n : Z) (p : option jptr) (b : TranslationBlock) : TranslationBlock :=
  mkTB (b_pc b) (b_cs_base b) (b_flags b) (b_size b) (b_tc_ptr b) (b_code b) (b_phys_hash_next b)
    (put n p (b_page_next b)) (b_page_addr b) (b_tb_next b) (b_jmp_next b) (b_jmp_first b).
Definition set_page_addr (n addr : Z) (b : TranslationBlock) : TranslationBlock :=
  mkTB (b_pc b) (b_cs_base b) (b_flags b) (b_size b) (b_tc_ptr b) (b_code b) (b_phys_hash_next b)
    (b_page_next b) (put n addr (b_page_addr b)) (b_tb_next b) (b_jmp_next b) (b_jmp_first b).
Definition set_tb_next (n : Z) (p : option nat) (b : TranslationBlock) : TranslationBlock :=
  mkTB (b_pc b) (b_cs_base b) (b_flags b) (b_size b) (b_tc_ptr b) (b_code b) (b_phys_hash_next b)
    (b_page_next b) (b_page_addr b) (put n p (b_tb_next b)) (b_jmp_next b) (b_jmp_first b).
Definition set_jmp_next (n : Z) (p : option jptr) (b : TranslationBlock) : TranslationBlock :=
  mkTB (b_pc b) (b_cs_base b) (b_flags b) (b_size b) (b_tc_ptr b) (b_code b) (b_phys_hash_next b)
    (b_page_next b) (b_page_addr b) (b_tb_next b) (put n p (b_jmp_next b)) (b_jmp_first b).
Definition set_jmp_first (p : option jptr) (b : TranslationBlock) : TranslationBlock :=
  mkTB (b_pc b) (b_cs_base b) (b_flags b) (b_size b) (b_tc_ptr b) (b_code b) (b_phys_hash_next b)
    (b_page_next b) (b_page_addr b) (b_tb_next b) (b_jmp_next b) p.

(** The variables of [exec.c]. [tbs] holds the first [nb_tbs] blocks of the
    array, [code_gen_ptr] is relative to the buffer, [first_tb] is the member
    of the page descriptors; null pointers are absent from the maps. *)
Record tb_state := mkTbs {
  tbs : list TranslationBlock;
  tb_phys_hash : gmap Z nat;
  tb_jmp_cache : gmap Z nat;
  first_tb : gmap Z jptr;
  code_gen_ptr : Z;
  tb_invalidated_flag : bool;
  tb_flush_count : Z;
  tb_phys_invalidate_count : Z }.

Definition set_tbs (l : list TranslationBlock) (s : tb_state) : tb_state :=
  mkTbs l (tb_phys_hash s) (tb_jmp_cache s) (first_tb s) (code_gen_ptr s) (tb_invalidated_flag s) (tb_flush_count s) (tb_phys_invalidate_count s).
Definition set_phys_hash (h : gmap Z nat) (s : tb_state) : tb_state :=
  mkTbs (tbs s) h (tb_jmp_cache s) (first_tb s) (code_gen_ptr s) (tb_invalidated_flag s) (tb_flush_count s) (tb_phys_invalidate_count s).
Definition set_jmp_cache (c : gmap Z nat) (s : tb_state) : tb_state :=
  mkTbs (tbs s) (tb_phys_hash s) c (first_tb s) (code_gen_ptr s) (tb_invalidated_flag s) (tb_flush_count s) (tb_phys_invalidate_count s).
Definition set_first_tb (p : gmap Z jptr) (s : tb_state) : tb_state :=
  mkTbs (tbs s) (tb_phys_hash s) (tb_jmp_cache s) p (code_gen_ptr s) (tb_invalidated_flag s) (tb_flush_count s) (tb_phys_invalidate_count s).
Definition set_code_gen_ptr (p : Z) (s : tb_state) : tb_state :=
  mkTbs (tbs s) (tb_phys_hash s) (tb_jmp_cache s) (first_tb s) p (tb_invalidated_flag s) (tb_flush_count s) (tb_phys_invalidate_count s).
Definition set_invalidated_flag (b : bool) (s : tb_state) : tb_state :=
  mkTbs (tbs s) (tb_phys_hash s) (tb_jmp_cache s) (first_tb s) (code_gen_ptr s) b (tb_flush_count s) (tb_phys_invalidate_count s).

Definition nb_tbs (s : tb_state) : nat := length (tbs s).
(** Through a pointer; the memory of a block that is gone is undefined. *)
Definition tb_at (i : nat) (s : tb_state) : res TranslationBlock :=
  match tbs s !! i with Some b => Ok b | None => Undef end.
Definition tb_update (i : nat) (f : TranslationBlock -> TranslationBlock) (s : tb_state) : tb_state := set_tbs (alter f i (tbs s)) s.

(** A pointer variable of a list, or null. *)
Definition ptr_to {A} (p : option A) (m : gmap Z A) (h : Z) : gmap Z A :=
  match p with Some x => <[h := x]> m | None => delete h m end.

(** ** Allocation *)

Section Buffer.
(** The size of the buffer, the part of it after which no block is started,
    and the number of blocks. *)
Context (code_gen_buffer_size code_gen_buffer_max_size code_gen_max_blocks : Z).

Definition tb_flush (s : tb_state) : res tb_state :=
  if code_gen_buffer_size <? code_gen_ptr s then Abort
  else Ok (mkTbs [] ∅ ∅ ∅ 0 (tb_invalidated_flag s) (s32 (tb_flush_count s + 1)) (tb_phys_invalidate_count s)).

(** The members that are not set here are written before they are read. *)
Definition new_tb (pc : Z) : TranslationBlock :=
  mkTB pc 0 0 0 0 [] None (None, None) (0, 0) (None, None) (None, None) None.

Definition tb_alloc (pc : Z) (s : tb_state) : option (nat * tb_state) :=
  if (code_gen_max_blocks <=? Z.of_nat (nb_tbs s)) || (code_gen_buffer_max_size <=? code_gen_ptr s) then None
  else Some (nb_tbs s, set_tbs (tbs s ++ [new_tb pc]) s).

(** A block that was the last to be allocated is given back. *)
Definition tb_free (tb : nat) (s : tb_state) : res tb_state :=
  let! b := tb_at tb s in
  if (0 <? nb_tbs s)%nat && (tb =? nb_tbs s - 1)%nat
  then Ok (set_code_gen_ptr (b_tc_ptr b) (set_tbs (take (nb_tbs s - 1) (tbs s)) s))
  else Ok s.
End Buffer.

(** ** Direct jumps *)

(** The pointer at a place of the lists: [jmp_first] or one of the [jmp_next]. *)
Definition jmp_read (p : jptr) (s : tb_state) : res (option jptr) :=
  let '(i, n) := p in
  let! b := tb_at i s in
  Ok (if n =? 2 then b_jmp_first b else pick n (b_jmp_next b)).
Definition jmp_write (p : jptr) (v : option jptr) (s : tb_state) : tb_state :=
  let '(i, n) := p in tb_update i (fun b => if n =? 2 then set_jmp_first v b else set_jmp_next n v b) s.

Definition tb_set_jmp_target (tb : nat) (n : Z) (tb_next : nat) : tb_state -> tb_state :=
  tb_update tb (set_tb_next n (Some tb_next)).
Definition tb_reset_jump (tb : nat) (n : Z) : tb_state -> tb_state := tb_update tb (set_tb_next n None).

Definition tb_add_jump (tb : nat) (n : Z) (tb_next : nat) (s : tb_state) : res tb_state :=
  let! next := jmp_read (tb, n) s in
  match next with
  | Some _ => Ok s
  | None =>
      let s := tb_set_jmp_target tb n tb_next s in
      let! first := jmp_read (tb_next, 2) s in
      let s := jmp_write (tb, n) first s in
      Ok (jmp_write (tb_next, 2) (Some (tb, n)) s)
  end.

(** The place that points to [p], looked for from the place [at_] on. A list
    has at most two places for each block, and the one where it starts; the
    member behind [jmp_next] is [jmp_first]. *)
Fixpoint jmp_find (fuel : nat) (p at_ : jptr) (s : tb_state) : res jptr :=
  match fuel with
  | O => Undef
  | S fuel =>
      let! next := jmp_read at_ s in
      match next with
      | None => Undef
      | Some q => if decide (q = p) then Ok at_ else jmp_find fuel p q s
      end
  end.
Definition jmp_fuel (s : tb_state) : nat := S (S (2 * nb_tbs s)).

Definition tb_jmp_remove (tb : nat) (n : Z) (s : tb_state) : res tb_state :=
  let! next := jmp_read (tb, n) s in
  match next with
  | None => Ok s
  | Some _ =>
      let! ptb := jmp_find (jmp_fuel s) (tb, n) (tb, n) s in
      let s := jmp_write ptb next s in
      Ok (jmp_write (tb, n) None s)
  end.

(** The block whose list [p] is in. *)
Fixpoint jmp_head (fuel : nat) (p : option jptr) (s : tb_state) : res nat :=
  match fuel, p with
  | O, _ | _, None => Undef
  | S fuel, Some (i, n) => if n =? 2 then Ok i else let! next := jmp_read (i, n) s in jmp_head fuel next s
  end.

(** [tb_reset_jump_recursive2] up to the recursive call: the block that the
    jump led to. *)
Definition tb_unlink (tb : nat) (n : Z) (s : tb_state) : res (option nat * tb_state) :=
  let! next := jmp_read (tb, n) s in
  match next with
  | None => Ok (None, s)
  | Some _ =>
      let! tb_next := jmp_head (jmp_fuel s) next s in
      let! ptb := jmp_find (jmp_fuel s) (tb, n) (tb_next, 2) s in
      let s := jmp_write ptb next s in
      let s := jmp_write (tb, n) None s in
      Ok (Some tb_next, tb_reset_jump tb n s)
  end.

Fixpoint tb_reset_jump_recursive (fuel : nat) (tb : nat) (s : tb_state) : res tb_state :=
  match fuel with
  | O => Undef
  | S fuel =>
      let tb_reset_jump_recursive2 n s :=
        let! (tb_next, s) := tb_unlink tb n s in
        match tb_next with Some t => tb_reset_jump_recursive fuel t s | None => Ok s end in
      let! s := tb_reset_jump_recursive2 0 s in
      tb_reset_jump_recursive2 1 s
  end.

(** ** Invalidation *)

(** [tb_remove] on the hash table, from the place before [tb1] on. *)
Fixpoint hash_remove (fuel : nat) (tb : nat) (at_ : nat) (s : tb_state) : res tb_state :=
  match fuel with
  | O => Undef
  | S fuel =>
      let! b := tb_at at_ s in
      match b_phys_hash_next b with
      | None => Undef
      | Some tb1 =>
          if (tb1 =? tb)%nat then let! b1 := tb_at tb1 s in Ok (tb_update at_ (set_phys_hash_next (b_phys_hash_next b1)) s)
          else hash_remove fuel tb tb1 s
      end
  end.
Definition tb_remove (h : Z) (tb : nat) (s : tb_state) : res tb_state :=
  match tb_phys_hash s !! h with
  | None => Undef
  | Some tb1 =>
      if (tb1 =? tb)%nat then
        let! b := tb_at tb1 s in Ok (set_phys_hash (ptr_to (b_phys_hash_next b) (tb_phys_hash s) h) s)
      else hash_remove (nb_tbs s) tb tb1 s
  end.

(** [tb_page_remove], likewise. *)
Fixpoint page_remove (fuel : nat) (tb : nat) (at_ : jptr) (s : tb_state) : res tb_state :=
  match fuel with
  | O => Undef
  | S fuel =>
      let! b := tb_at (fst at_) s in
      match pick (snd at_) (b_page_next b) with
      | None => Undef
      | Some (tb1, n1) =>
          if (tb1 =? tb)%nat then
            let! b1 := tb_at tb1 s in Ok (tb_update (fst at_) (set_page_next (snd at_) (pick n1 (b_page_next b1))) s)
          else page_remove fuel tb (tb1, n1) s
      end
  end.
Definition tb_page_remove (page : Z) (tb : nat) (s : tb_state) : res tb_state :=
  match first_tb s !! page with
  | None => Undef
  | Some (tb1, n1) =>
      if (tb1 =? tb)%nat then
        let! b := tb_at tb1 s in Ok (set_first_tb (ptr_to (pick n1 (b_page_next b)) (first_tb s) page) s)
      else page_remove (2 * nb_tbs s) tb (tb1, n1) s
  end.

(** The jumps to a block, from its [jmp_first] on. *)
Fixpoint reset_jumps_to (fuel : nat) (tb1 : option jptr) (s : tb_state) : res tb_state :=
  match fuel, tb1 with
  | O, _ | _, None => Undef
  | S fuel, Some (i, n1) =>
      if n1 =? 2 then Ok s
      else
        let! tb2 := jmp_read (i, n1) s in
        reset_jumps_to fuel tb2 (jmp_write (i, n1) None (tb_reset_jump i n1 s))
  end.

(** [page_addr] is a page whose list the caller clears itself. *)
Definition tb_phys_invalidate (tb : nat) (page_addr : Z) (s : tb_state) : res tb_state :=
  let! b := tb_at tb s in
  let phys_pc := u32 (fst (b_page_addr b) + page_offset (b_pc b)) in
  let! s := tb_remove (tb_phys_hash_func phys_pc) tb s in
  let! s := if fst (b_page_addr b) =? page_addr then Ok s
            else tb_page_remove (Z.shiftr (fst (b_page_addr b)) TARGET_PAGE_BITS) tb s in
  let! s := if (snd (b_page_addr b) =? NO_PAGE) || (snd (b_page_addr b) =? page_addr) then Ok s
            else tb_page_remove (Z.shiftr (snd (b_page_addr b)) TARGET_PAGE_BITS) tb s in
  let s := set_invalidated_flag true s in
  let h := tb_jmp_cache_hash_func (b_pc b) in
  let s := if decide (tb_jmp_cache s !! h = Some tb) then set_jmp_cache (delete h (tb_jmp_cache s)) s else s in
  let! s := tb_jmp_remove tb 0 s in
  let! s := tb_jmp_remove tb 1 s in
  let! first := jmp_read (tb, 2) s in
  let! s := reset_jumps_to (jmp_fuel s) first s in
  let s := jmp_write (tb, 2) (Some (tb, 2)) s in
  Ok (mkTbs (tbs s) (tb_phys_hash s) (tb_jmp_cache s) (first_tb s) (code_gen_ptr s) (tb_invalidated_flag s) (tb_flush_count s)
        (s32 (tb_phys_invalidate_count s + 1))).

(** ** Linking *)

Definition tb_alloc_page (tb : nat) (n page_addr : Z) (s : tb_state) : tb_state :=
  let page := Z.shiftr page_addr TARGET_PAGE_BITS in
  let s := tb_update tb (fun b => set_page_next n (first_tb s !! page) (set_page_addr n page_addr b)) s in
  set_first_tb (<[page := (tb, n)]> (first_tb s)) s.

Definition tb_link_phys (tb : nat) (phys_pc phys_page2 : Z) (s : tb_state) : tb_state :=
  let h := tb_phys_hash_func phys_pc in
  let s := tb_update tb (set_phys_hash_next (tb_phys_hash s !! h)) s in
  let s := set_phys_hash (<[h := tb]> (tb_phys_hash s)) s in
  let s := tb_alloc_page tb 0 (page_of phys_pc) s in
  let s := if phys_page2 =? NO_PAGE then tb_update tb (set_page_addr 1 NO_PAGE) s else tb_alloc_page tb 1 phys_page2 s in
  let s := jmp_write (tb, 2) (Some (tb, 2)) s in
  let s := jmp_write (tb, 0) None s in
  let s := jmp_write (tb, 1) None s in
  tb_reset_jump tb 1 (tb_reset_jump tb 0 s).

(** The part of [tlb_flush_page] that concerns the jump cache: the entries of
    the blocks that may reach into the page. *)
Definition clear_range (i n : Z) (c : gmap Z nat) : gmap Z nat :=
  filter (fun '(k, _) => ~ (i <= k < i + n)) c.
Definition tlb_flush_jmp_cache (addr : Z) (s : tb_state) : tb_state :=
  let c := clear_range (tb_jmp_cache_hash_page (u32 (addr - TARGET_PAGE_SIZE))) TB_JMP_PAGE_SIZE (tb_jmp_cache s) in
  set_jmp_cache (clear_range (tb_jmp_cache_hash_page addr) TB_JMP_PAGE_SIZE c) s.

(** ** The lists of direct jumps *)

Definition slot (n : Z) : Prop := n = 0 \/ n = 1.
Definition place (p : jptr) : Prop := slot (snd p) \/ snd p = 2.

(** The block to which a jump was patched. *)
Definition link (s : tb_state) (i : nat) (n : Z) : option nat := tbs s !! i ≫= fun b => pick n (b_tb_next b).

Lemma lookup_update i f s j : tbs (tb_update i f s) !! j = (if decide (j = i) then f <$> tbs s !! i else tbs s !! j).
Proof. unfold tb_update. cbn. rewrite list_lookup_alter. by repeat case_decide; subst. Qed.
Lemma nb_update i f s : nb_tbs (tb_update i f s) = nb_tbs s.
Proof. apply length_alter. Qed.
Lemma nb_write p v s : nb_tbs (jmp_write p v s) = nb_tbs s.
Proof. destruct p. apply nb_update. Qed.

Lemma pick_put {A} n n' (v : A) x : slot n -> slot n' -> pick n' (put n v x) = if decide (n' = n) then v else pick n' x.
Proof. intros [-> | ->] [-> | ->]; done. Qed.

Lemma read_total p s : (fst p < nb_tbs s)%nat -> exists q, jmp_read p s = Ok q.
Proof.
  destruct p as [i n]. cbn. intros Hi. unfold tb_at. destruct (lookup_lt_is_Some_2 (tbs s) i Hi) as [b ->]. eauto.
Qed.
Lemma read_bound p s q : jmp_read p s = Ok q -> (fst p < nb_tbs s)%nat.
Proof. destruct p as [i n]. cbn. unfold tb_at. destruct (tbs s !! i) eqn:E; [|done]. intros _. by eapply lookup_lt_Some. Qed.

Lemma read_write p q v s : place p -> place q -> (fst p < nb_tbs s)%nat ->
  jmp_read q (jmp_write p v s) = if decide (q = p) then Ok v else jmp_read q s.
Proof.
  destruct p as [i n], q as [j n']. unfold place. cbn [fst snd jmp_read jmp_write]. intros Hp Hq Hi. unfold tb_at. rewrite lookup_update.
  destruct (decide (j = i)) as [->|Hij]; [|by rewrite decide_False by congruence].
  destruct (lookup_lt_is_Some_2 (tbs s) i Hi) as [b ->]. cbn.
  destruct (Z.eqb_spec n' 2) as [->|], (Z.eqb_spec n 2) as [->|]; cbn; try (by rewrite decide_False by congruence).
  - by rewrite decide_True.
  - rewrite pick_put by (destruct Hp, Hq; done). destruct (decide (n' = n)) as [->|]; [by rewrite decide_True|by rewrite decide_False by congruence].
Qed.

Lemma link_write p v s i n : link (jmp_write p v s) i n = link s i n.
Proof.
  destruct p as [j k]. unfold link. cbn [jmp_write]. rewrite lookup_update. destruct (decide (i = j)) as [->|]; [|done].
  destruct (tbs s !! j); [|done]. cbn. by destruct (k =? 2).
Qed.
Lemma link_set i n t s j k : slot n -> slot k -> (i < nb_tbs s)%nat ->
  link (tb_update i (set_tb_next n t) s) j k = if decide ((j, k) = (i, n)) then t else link s j k.
Proof.
  intros Hn Hk Hi. unfold link. rewrite lookup_update. destruct (decide (j = i)) as [->|]; [|by rewrite decide_False by congruence].
  destruct (lookup_lt_is_Some_2 (tbs s) i Hi) as [b ->]. cbn. rewrite pick_put by done.
  destruct (decide (k = n)) as [->|]; [by rewrite decide_True|by rewrite decide_False by congruence].
Qed.
Lemma read_set i n t s p : jmp_read p (tb_update i (set_tb_next n t) s) = jmp_read p s.
Proof.
  destruct p as [j k]. cbn. unfold tb_at. rewrite lookup_update. destruct (decide (j = i)) as [->|]; [|done]. by destruct (tbs s !! i).
Qed.

(** From the pointer [p] the list goes through the places [l] back to block
    [t]. *)
Inductive jchain (s : tb_state) : option jptr -> list jptr -> nat -> Prop :=
| jchain_end t : jchain s (Some (t, 2)) [] t
| jchain_cons i n p l t : slot n -> jmp_read (i, n) s = Ok p -> jchain s p l t -> jchain s (Some (i, n)) ((i, n) :: l) t.

Lemma jchain_frame s s' p l t : jchain s p l t -> (forall q, q ∈ l -> jmp_read q s' = jmp_read q s) -> jchain s' p l t.
Proof.
  induction 1 as [|i n p l t Hn Hr Hc IH]; intros H; [constructor|]. econstructor; [done|rewrite H; [exact Hr|left]|].
  apply IH. intros q Hq. apply H. by right.
Qed.

Lemma jchain_split s p l1 q l2 t : jchain s p (l1 ++ q :: l2) t ->
  slot (snd q) /\ exists r, jmp_read q s = Ok r /\ jchain s r l2 t.
Proof.
  revert p. induction l1 as [|x l1 IH]; intros p H; cbn in H; inversion H; subst; [eauto|]. by eapply IH.
Qed.

Lemma jchain_head s p l t fuel : jchain s p l t -> (length l < fuel)%nat -> jmp_head fuel p s = Ok t.
Proof.
  intros H. revert fuel. induction H as [|i n p l t Hn Hr Hc IH]; intros [|fuel] Hf; cbn in Hf; try lia; cbn [jmp_head]; [done|].
  destruct (Z.eqb_spec n 2) as [->|]; [by destruct Hn|]. rewrite Hr. cbn [rbind]. apply IH. lia.
Qed.

Lemma default_last {A} (a x : A) l : default a (last (x :: l)) = default x (last l).
Proof. rewrite last_cons. by destruct (last l). Qed.

(** Looking for [q] from a place whose pointer leads to it: the place before
    it is found. *)
Lemma jchain_find s at_ p l1 q l2 t fuel :
  jmp_read at_ s = Ok p -> jchain s p (l1 ++ q :: l2) t -> q ∉ l1 -> (length l1 < fuel)%nat ->
  jmp_find fuel q at_ s = Ok (default at_ (last l1)).
Proof.
  revert at_ p fuel. induction l1 as [|x l1 IH]; intros at_ p [|fuel] Hr Hc Hq Hf; cbn in Hf; try lia; cbn [jmp_find]; rewrite Hr; cbn [rbind].
  - cbn in Hc. inversion Hc; subst. by rewrite decide_True.
  - cbn in Hc. inversion Hc as [|i n p0 l0 t0 Hn Hr0 Hc0]; subst. apply not_elem_of_cons in Hq as [Hne Hq]. rewrite decide_False by done.
    rewrite (IH _ _ _ Hr0 Hc0 Hq) by lia. f_equal. symmetry. apply default_last.
Qed.

(** Past the end of a list the search goes on from its start. *)
Lemma jchain_around s at_ p l q t fuel k :
  jmp_read at_ s = Ok p -> jchain s p l t -> q ∉ l -> q <> (t, 2) -> fuel = (S (length l) + k)%nat ->
  jmp_find fuel q at_ s = jmp_find k q (t, 2) s.
Proof.
  revert at_ p fuel. induction l as [|x l IH]; intros at_ p fuel Hr Hc Hq Hne ->; cbn [length Nat.add jmp_find]; rewrite Hr; cbn [rbind].
  - inversion Hc; subst. by rewrite decide_False.
  - inversion Hc as [|i n p0 l0 t0 Hn Hr0 Hc0]; subst. apply not_elem_of_cons in Hq as [Hq1 Hq]. rewrite decide_False by done.
    by apply (IH (i, n) p0 (S (length l + k))%nat).
Qed.

Lemma last_in {A} (x : A) l : default x (last l) ∈ x :: l.
Proof. destruct (last l) as [y|] eqn:E; [|left]. right. by apply last_Some_elem_of. Qed.

(** The list after the place [q] was taken out of it. *)
Lemma jchain_remove s s' at_ p l1 q l2 t r :
  jmp_read at_ s = Ok p -> jchain s p (l1 ++ q :: l2) t -> at_ ∉ l1 ++ q :: l2 -> NoDup (l1 ++ q :: l2) -> jmp_read q s = Ok r ->
  jmp_read (default at_ (last l1)) s' = Ok r ->
  (forall x, x ∈ at_ :: l1 ++ l2 -> x <> default at_ (last l1) -> jmp_read x s' = jmp_read x s) ->
  exists p', jmp_read at_ s' = Ok p' /\ jchain s' p' (l1 ++ l2) t.
Proof.
  revert at_ p. induction l1 as [|x l1 IH]; intros at_ p Hr Hc Hat Hnd Hq Hpred Hframe; cbn [app] in *; inversion Hc as [|i n p0 l0 t0 Hn Hr0 Hc0]; subst.
  - rewrite Hq in Hr0. injection Hr0 as <-. exists r. split; [done|]. eapply jchain_frame; [done|].
    intros y Hy. apply Hframe; [by right|]. intros ->. apply Hat. by right.
  - apply NoDup_cons in Hnd as [Hx Hnd]. 
    pose proof (default_last at_ ((i, n) : jptr) l1) as El. assert (Hpred' : jmp_read (default (i, n) (last l1)) s' = Ok r) by (by rewrite <- Hpred, <- El).
    destruct (IH (i, n) p0 Hr0 Hc0 Hx Hnd Hq Hpred') as (p' & Hp' & Hc').
    { intros y Hy Hne. apply Hframe; [by right|]. intros ->. by apply Hne, El. }
    exists (Some (i, n)). split; [|by econstructor]. rewrite Hframe; [done|left|]. intros E. apply Hat.
    pose proof (last_in ((i, n) : jptr) l1) as Hin. rewrite E. cbn in El |- *. rewrite El. set_solver.
Qed.

(** The jumps to each block [t], in the order of its list [L t]. *)
Record jmp_wf (live : nat -> Prop) (s : tb_state) (L : nat -> list jptr) : Prop := {
  jw_live i : live i -> (i < nb_tbs s)%nat;
  jw_chain t : live t -> exists p, jmp_read (t, 2) s = Ok p /\ jchain s p (L t) t;
  jw_nodup t : live t -> NoDup (L t);
  jw_elem t i n : live t -> (i, n) ∈ L t <-> live i /\ slot n /\ link s i n = Some t;
  jw_next i n p : live i -> slot n -> jmp_read (i, n) s = Ok p -> p = None <-> link s i n = None;
  jw_target i n t : live i -> slot n -> link s i n = Some t -> live t }.

Lemma slot_ne n : slot n -> forall t i : nat, (t, 2) <> (i, n).
Proof. by intros [-> | ->]. Qed.

(** All the jumps of the first [k] blocks. *)
Definition slots (k : nat) : list jptr := i ← seq 0 k; [(i, 0); (i, 1)].

Lemma elem_of_slots k i n : (i, n) ∈ slots k <-> (i < k)%nat /\ slot n.
Proof.
  unfold slots, slot. rewrite list_elem_of_bind. split.
  - intros (j & H & Hj%elem_of_seq). set_unfold in H. destruct H as [[= -> ->]|[[= -> ->]|[]]]; (split; [lia|auto]).
  - intros [Hi Hn]. exists i. split; [|apply elem_of_seq; lia]. destruct Hn as [-> | ->]; [left|right; left].
Qed.
Lemma length_slots k : length (slots k) = (2 * k)%nat.
Proof.
  assert (H : forall b, length (i ← seq b k; [(i, 0); (i, 1)]) = (2 * k)%nat); [|apply H].
  induction k as [|k IH]; intros b; [done|]. specialize (IH (S b)). cbn [seq mbind list_bind app length] in *. lia.
Qed.

Lemma list_bound live s L t : jmp_wf live s L -> live t -> (length (L t) <= 2 * nb_tbs s)%nat.
Proof.
  intros W Ht. rewrite <- (length_slots (nb_tbs s)). apply submseteq_length, NoDup_submseteq; [by apply W|].
  intros [i n] Hin. apply (jw_elem _ _ _ W) in Hin as (Hi & Hn & _); [|done]. apply elem_of_slots. split; [by eapply jw_live|done].
Qed.

(** What the operations on jumps leave alone. *)
Definition strip (b : TranslationBlock) : TranslationBlock :=
  set_jmp_first None (mkTB (b_pc b) (b_cs_base b) (b_flags b) (b_size b) (b_tc_ptr b) (b_code b) (b_phys_hash_next b) (b_page_next b)
    (b_page_addr b) (None, None) (None, None) None).
Definition same_blocks (s s' : tb_state) : Prop :=
  (forall j, strip <$> tbs s' !! j = strip <$> tbs s !! j) /\ nb_tbs s' = nb_tbs s /\ tb_phys_hash s' = tb_phys_hash s /\
  tb_jmp_cache s' = tb_jmp_cache s /\ first_tb s' = first_tb s /\ code_gen_ptr s' = code_gen_ptr s /\
  tb_invalidated_flag s' = tb_invalidated_flag s.

#[global] Instance same_blocks_preorder : PreOrder same_blocks.
Proof.
  split; [by intros s|]. intros s1 s2 s3 (A1 & B1 & C1 & D1 & E1 & F1 & G1) (A2 & B2 & C2 & D2 & E2 & F2 & G2).
  split; [intros j; by rewrite A2|]. repeat (split; [congruence|]). congruence.
Qed.

Lemma same_blocks_update i f s : (forall b, strip (f b) = strip b) -> same_blocks s (tb_update i f s).
Proof.
  intros Hf. split; [|split; [apply nb_update|done]]. intros j. rewrite lookup_update. case_decide; [|done]. subst. destruct (tbs s !! i); [|done].
  cbn. by rewrite Hf.
Qed.
Lemma same_blocks_write p v s : same_blocks s (jmp_write p v s).
Proof. destruct p as [i n]. apply same_blocks_update. intros b. by destruct (n =? 2). Qed.
Lemma same_blocks_link i n t s : same_blocks s (tb_update i (set_tb_next n t) s).
Proof. by apply same_blocks_update. Qed.

(** ** Taking a jump out of its list *)

Section Unlink.
Context (live : nat -> Prop) (s : tb_state) (L : nat -> list jptr) (W : jmp_wf live s L).
Context (i : nat) (n : Z) (t : nat) (Hi : live i) (Hn : slot n) (Hl : link s i n = Some t).

Lemma unlink_places : exists A B r,
  live t /\ L t = A ++ (i, n) :: B /\ jmp_read (i, n) s = Ok (Some r) /\
  jmp_head (jmp_fuel s) (Some r) s = Ok t /\
  jmp_find (jmp_fuel s) (i, n) (t, 2) s = Ok (default (t, 2) (last A)) /\
  jmp_find (jmp_fuel s) (i, n) (i, n) s = Ok (default (t, 2) (last A)).
Proof.
  assert (Ht : live t) by (by eapply jw_target).
  assert (Hin : (i, n) ∈ L t) by (by apply (jw_elem _ _ _ W)).
  apply list_elem_of_split in Hin as (A & B & EL). destruct (jw_chain _ _ _ W t Ht) as (p & Hp & Hc).
  pose proof (jw_nodup _ _ _ W t Ht) as Hnd. pose proof (list_bound _ _ _ _ W Ht) as Hlen. rewrite EL in Hc, Hnd, Hlen.
  rewrite length_app in Hlen. cbn [length] in Hlen.
  destruct (jchain_split _ _ _ _ _ _ Hc) as (_ & [r|] & Hr & Hc2).
  2: { apply (jw_next _ _ _ W i n None Hi Hn) in Hr as [H _]. specialize (H eq_refl). congruence. }
  assert (HA : (i, n) ∉ A /\ (i, n) ∉ B).
  { apply NoDup_app in Hnd as (_ & H1 & H2). apply NoDup_cons in H2 as [H2 _]. split; [|done]. intros H. apply (H1 _ H). left. }
  assert (Hf : forall k, (length A < k)%nat -> jmp_find k (i, n) (t, 2) s = Ok (default (t, 2) (last A))).
  { intros k Hk. eapply jchain_find; [exact Hp|exact Hc|apply HA|exact Hk]. }
  exists A, B, r. split; [done|]. split; [done|]. split; [done|]. unfold jmp_fuel. split; [|split].
  - eapply jchain_head; [exact Hc2|lia].
  - apply Hf. lia.
  - rewrite (jchain_around s (i, n) (Some r) B (i, n) t _ (S (2 * nb_tbs s) - length B)); [apply Hf; lia|done|done|apply HA| |lia].
    intros E. by eapply slot_ne.
Qed.

(** The lists without it. *)
Definition without (A B : list jptr) (t' : nat) : list jptr := if decide (t' = t) then A ++ B else L t'.

Lemma unlink_wf A B r (s1 := tb_reset_jump i n (jmp_write (i, n) None (jmp_write (default (t, 2) (last A)) (Some r) s))) :
  L t = A ++ (i, n) :: B -> jmp_read (i, n) s = Ok (Some r) -> jmp_wf live s1 (without A B).
Proof.
  intros EL Hr. assert (Ht : live t) by (by eapply jw_target).
  destruct (jw_chain _ _ _ W t Ht) as (p & Hp & Hc). pose proof (jw_nodup _ _ _ W t Ht) as Hnd. rewrite EL in Hc, Hnd.
  set (pred := default (t, 2) (last A)) in *.
  assert (Hpred : pred = (t, 2) \/ pred ∈ A).
  { pose proof (last_in (t, 2) A) as H. apply elem_of_cons in H as [H|H]; auto. }
  assert (HLt : forall x, x ∈ L t -> live (fst x) /\ slot (snd x) /\ link s (fst x) (snd x) = Some t).
  { intros [j k] H. by apply (jw_elem _ _ _ W) in H. }
  assert (HA : forall x, x ∈ A -> x ∈ L t) by (intros x Hx; rewrite EL; set_solver).
  assert (Hpl : place pred).
  { unfold place. destruct Hpred as [-> |H]; [by right|left; by apply HLt, HA]. }
  assert (Hne : pred <> (i, n)).
  { destruct Hpred as [-> |H]; [by apply slot_ne|]. intros E. rewrite E in H.
    apply NoDup_app in Hnd as (_ & H1 & _). apply (H1 _ H). left. }
  assert (Hb : (fst pred < nb_tbs s)%nat).
  { eapply (jw_live _ _ _ W). destruct Hpred as [-> |H]; [done|by apply HLt, HA]. }
  assert (Hib : (i < nb_tbs s)%nat) by (by eapply jw_live).
  assert (R : forall q, place q -> jmp_read q s1 = if decide (q = (i, n)) then Ok None else if decide (q = pred) then Ok (Some r) else jmp_read q s).
  { intros q Hq. unfold s1, tb_reset_jump. rewrite read_set, !read_write; rewrite ?nb_write; try done. by left. }
  assert (K : forall j k, slot k -> link s1 j k = if decide ((j, k) = (i, n)) then None else link s j k).
  { intros j k Hk. unfold s1, tb_reset_jump. rewrite link_set by (rewrite ?nb_write; done). by rewrite !link_write. }
  assert (N : nb_tbs s1 = nb_tbs s) by (unfold s1, tb_reset_jump; by rewrite nb_update, !nb_write).
  assert (Hno2 : forall l, l ⊆ L t -> (t, 2) ∉ l) by (intros l Hs H; apply Hs, HLt in H as (_ & [H|H] & _); done).
  split.
  - intros j Hj. rewrite N. by eapply jw_live.
  - intros t' Ht'. unfold without. case_decide as E.
    + subst t'. eapply (jchain_remove s s1 (t, 2) p A (i, n) B t (Some r)); [done|done| |done|done| |].
      * apply Hno2. by rewrite EL.
      * fold pred. rewrite R by done. by rewrite decide_False, decide_True.
      * intros x Hx Hxp. fold pred in Hxp. rewrite R.
        -- rewrite decide_False, decide_False; [done|done|]. intros ->. apply elem_of_cons in Hx as [Hx|Hx]; [by eapply slot_ne|].
           apply NoDup_app in Hnd as (_ & H1 & H2). apply NoDup_cons in H2 as [H2 _].
           apply elem_of_app in Hx as [Hx|Hx]; [|done]. apply (H1 _ Hx). left.
        -- apply elem_of_cons in Hx as [-> |Hx]; [by right|]. left. apply HLt. rewrite EL. set_solver.
    + destruct (jw_chain _ _ _ W t' Ht') as (p' & Hp' & Hc'). exists p'.
      assert (Hnot : forall x, x ∈ L t' -> place x /\ x <> (i, n) /\ x <> pred).
      { intros [j k] Hx. apply (jw_elem _ _ _ W) in Hx as (_ & Hk & Hlk); [|done]. split; [by left|].
        split; [intros [= -> ->]; congruence|]. intros Ex. destruct Hpred as [Hpd|Hpd]; rewrite <- Ex in Hpd.
        - by eapply (slot_ne k).
        - apply HA, HLt in Hpd as (_ & _ & Hpd). cbn in Hpd. congruence. }
      split.
      * rewrite R by (by right). rewrite decide_False by (by apply slot_ne).
        rewrite decide_False; [done|]. intros Ex. destruct Hpred as [Hpd|Hpd]; rewrite <- Ex in Hpd; [congruence|].
        apply HA, HLt in Hpd as (_ & [?|?] & _); done.
      * eapply jchain_frame; [done|]. intros x Hx. destruct (Hnot x Hx) as (H1 & H2 & H3). rewrite R by done.
        by rewrite !decide_False.
  - intros t' Ht'. unfold without. case_decide as E; [|by apply W]. apply NoDup_app in Hnd as (H1 & H2 & H3).
    apply NoDup_cons in H3 as [_ H3]. apply NoDup_app. split; [done|]. split; [|done]. intros x Hx Hx'. apply (H2 x Hx). by right.
  - intros t' j k Ht'. unfold without. split.
    + intros Hin. assert (Hin' : (j, k) ∈ L t' /\ (j, k) <> (i, n)).
      { case_decide as E; [subst t'|].
        - rewrite EL. split; [set_solver|]. intros Ex. rewrite Ex in Hin. apply NoDup_app in Hnd as (_ & H2 & H3).
          apply NoDup_cons in H3 as [H3 _]. apply elem_of_app in Hin as [Hin|Hin]; [|done]. apply (H2 _ Hin). left.
        - split; [done|]. intros Ex. rewrite Ex in Hin. apply (jw_elem _ _ _ W) in Hin as (_ & _ & Hx); [|done]. congruence. }
      destruct Hin' as [Hin' Hx]. apply (jw_elem _ _ _ W) in Hin' as (Hj & Hk & Hlk); [|done]. rewrite K by done. by rewrite decide_False.
    + intros (Hj & Hk & Hlk). rewrite K in Hlk by done. case_decide as Ex; [done|].
      assert (Hin : (j, k) ∈ L t') by (by apply (jw_elem _ _ _ W)). case_decide; [|done]. subst t'. rewrite EL in Hin. set_solver.
  - intros j k q Hj Hk Hq. rewrite R in Hq by (by left). rewrite K by done. case_decide as Ex; [by injection Hq as <-|].
    case_decide as Ep; [|by apply (jw_next _ _ _ W)]. injection Hq as <-. split; [done|].
    destruct Hpred as [Hpd|Hpd]; rewrite <- Ep in Hpd; [exfalso; by apply (slot_ne k Hk t j)|]. apply HA, HLt in Hpd as (_ & _ & Hpd). cbn in Hpd. congruence.
  - intros j k t' Hj Hk Hlk. rewrite K in Hlk by done. case_decide; [done|]. by eapply jw_target.
Qed.
End Unlink.

(** ** Unlinking all the blocks that a block leads to *)

Lemma unlink_links s i n p r j k : slot n -> slot k -> (i < nb_tbs s)%nat ->
  link (tb_reset_jump i n (jmp_write (i, n) None (jmp_write p r s))) j k = if decide ((j, k) = (i, n)) then None else link s j k.
Proof. intros Hn Hk Hi. unfold tb_reset_jump. rewrite link_set by (rewrite ?nb_write; done). by rewrite !link_write. Qed.

Lemma tb_unlink_ok live s L i n :
  jmp_wf live s L -> live i -> slot n ->
  exists s' L', tb_unlink i n s = Ok (link s i n, s') /\ jmp_wf live s' L' /\ same_blocks s s' /\
    (forall j k, slot k -> link s' j k = if decide ((j, k) = (i, n)) then None else link s j k).
Proof.
  intros W Hi Hn. unfold tb_unlink. pose proof (jw_live _ _ _ W i Hi) as Hb. destruct (read_total (i, n) s Hb) as [q Hq].
  destruct (link s i n) as [t|] eqn:Hl.
  - destruct (unlink_places live s L W i n t Hi Hn Hl) as (A & B & r & Ht & EL & Hr & Hh & Hf & _).
    rewrite Hr. cbn [rbind]. rewrite Hh. cbn [rbind]. rewrite Hf. cbn [rbind]. do 2 eexists. split; [reflexivity|].
    split; [by eapply unlink_wf|]. split; [|intros j k Hk; by apply unlink_links].
    etransitivity; [apply same_blocks_write|]. etransitivity; [apply same_blocks_write|]. apply same_blocks_link.
  - pose proof (proj2 (jw_next _ _ _ W i n q Hi Hn Hq) Hl) as ->. rewrite Hq. cbn [rbind]. exists s, L. split; [done|]. split; [done|].
    split; [done|]. intros j k Hk. case_decide as E; [|done]. by injection E as -> ->.
Qed.

Definition linked_slot (s : tb_state) (p : jptr) : Prop := link s (fst p) (snd p) <> None.
#[global] Instance linked_slot_dec s p : Decision (linked_slot s p).
Proof. unfold linked_slot. destruct (link s _ _); [by left|right; naive_solver]. Defined.
Definition link_count (s : tb_state) : nat := length (filter (linked_slot s) (slots (nb_tbs s))).

Lemma filter_length_le {A} (P Q : A -> Prop) `{!forall x, Decision (P x), !forall x, Decision (Q x)} l :
  (forall x, x ∈ l -> Q x -> P x) -> (length (filter Q l) <= length (filter P l))%nat.
Proof.
  induction l as [|x l IH]; intros Hi; [done|]. rewrite !filter_cons. specialize (IH ltac:(intros y Hy; apply Hi; by right)).
  specialize (Hi x ltac:(left)). repeat case_decide; cbn; tauto || lia.
Qed.
Lemma filter_length_lt {A} (P Q : A -> Prop) `{!forall x, Decision (P x), !forall x, Decision (Q x)} l y :
  (forall x, x ∈ l -> Q x -> P x) -> y ∈ l -> P y -> ~ Q y -> (length (filter Q l) < length (filter P l))%nat.
Proof.
  intros Hi Hy HP HQ. apply list_elem_of_split in Hy as (l1 & l2 & ->). rewrite !filter_app, !filter_cons, !length_app.
  rewrite decide_False, decide_True by done. cbn [length].
  pose proof (filter_length_le P Q l1 ltac:(intros x Hx; apply Hi; set_solver)).
  pose proof (filter_length_le P Q l2 ltac:(intros x Hx; apply Hi; set_solver)). lia.
Qed.

(** Jumps were only reset, and the block to which a reset jump led has none
    left. *)
Record unlinked (s s' : tb_state) : Prop := {
  ul_less j k : slot k -> link s' j k = None \/ link s' j k = link s j k;
  ul_closed j k t : slot k -> link s j k = Some t -> link s' j k = None -> forall k', slot k' -> link s' t k' = None }.

Lemma unlinked_refl s : unlinked s s.
Proof. split; [by right|]. intros j k t _ E E'. congruence. Qed.
Lemma unlinked_trans s1 s2 s3 : unlinked s1 s2 -> unlinked s2 s3 -> unlinked s1 s3.
Proof.
  intros [A1 B1] [A2 B2]. assert (Hn : forall j k, slot k -> link s2 j k = None -> link s3 j k = None).
  { intros j k Hk E. destruct (A2 j k Hk) as [E'|E']; congruence. }
  split.
  - intros j k Hk. destruct (A2 j k Hk) as [E|E]; [by left|]. rewrite E. auto.
  - intros j k t Hk E E' k' Hk'. destruct (A1 j k Hk) as [E2|E2]; [by apply Hn; [|apply (B1 j k t)]|].
    apply (B2 j k t); congruence.
Qed.

Lemma link_bound s p : linked_slot s p -> (fst p < nb_tbs s)%nat.
Proof.
  unfold linked_slot, link. destruct (tbs s !! fst p) eqn:E; [intros _; by eapply lookup_lt_Some|done].
Qed.
Lemma link_count_le s s' : unlinked s s' -> nb_tbs s' = nb_tbs s -> (link_count s' <= link_count s)%nat.
Proof.
  intros [A _] E. unfold link_count. rewrite E. apply filter_length_le. intros [j k] [_ Hk]%elem_of_slots. unfold linked_slot. cbn.
  destruct (A j k Hk) as [-> | ->]; [done|auto].
Qed.

Lemma tb_reset_jump_recursive_ok live fuel : forall s L tb,
  jmp_wf live s L -> live tb -> (link_count s < fuel)%nat ->
  exists s' L', tb_reset_jump_recursive fuel tb s = Ok s' /\ jmp_wf live s' L' /\ same_blocks s s' /\ unlinked s s' /\
    forall k, slot k -> link s' tb k = None.
Proof.
  induction fuel as [|fuel IH]; intros s L tb W Htb Hf; [lia|]. cbn [tb_reset_jump_recursive].
  assert (Hone : forall s L n, jmp_wf live s L -> (link_count s <= fuel)%nat -> slot n ->
    exists s' L', (let! (tb_next, s) := tb_unlink tb n s in
                   match tb_next with Some t => tb_reset_jump_recursive fuel t s | None => Ok s end) = Ok s' /\
      jmp_wf live s' L' /\ same_blocks s s' /\ unlinked s s' /\ link s' tb n = None).
  { clear s L W Hf. intros s L n W Hf Hn. destruct (tb_unlink_ok live s L tb n W Htb Hn) as (s1 & L1 & -> & W1 & S1 & K1). cbn [rbind].
    assert (E1 : link s1 tb n = None) by (rewrite K1 by done; by rewrite decide_True).
    destruct (link s tb n) as [t|] eqn:Hl.
    - assert (Ht : live t) by (by apply (jw_target _ _ _ W tb n)).
      assert (Hc : (link_count s1 < link_count s)%nat).
      { unfold link_count. destruct S1 as (_ & E & _). rewrite E. apply (filter_length_lt _ _ _ (tb, n)).
        - intros [j k] [_ Hk]%elem_of_slots. unfold linked_slot. cbn. rewrite K1 by done. by case_decide.
        - apply elem_of_slots. split; [by eapply jw_live|done].
        - unfold linked_slot. cbn. by rewrite Hl.
        - unfold linked_slot. cbn. intros Hx. by apply Hx. }
      destruct (IH s1 L1 t W1 Ht ltac:(lia)) as (s2 & L2 & E & W2 & S2 & U2 & Hclean). exists s2, L2. split; [exact E|].
      split; [exact W2|]. split; [by etransitivity|].
      assert (Hgone : link s2 tb n = None) by (destruct (ul_less _ _ U2 tb n Hn); congruence).
      split; [|exact Hgone]. split.
      + intros j k Hk. destruct (ul_less _ _ U2 j k Hk) as [E'|E']; [by left|]. rewrite E', K1 by done. case_decide; auto.
      + intros j k t' Hk Ht' E' k' Hk'. destruct (decide ((j, k) = (tb, n))) as [Ex|Ex].
        * injection Ex as -> ->. assert (t' = t) as -> by congruence. by apply Hclean.
        * apply (ul_closed _ _ U2 j k t'); [done| |done|done]. rewrite K1 by done. by rewrite decide_False.
    - exists s1, L1. split; [done|]. split; [done|]. split; [done|]. split; [|done].
      split; [intros j k Hk; rewrite K1 by done; case_decide; auto|]. intros j k t Hk Ht E k' Hk'. rewrite K1 in E by done.
      case_decide as Ex; [|congruence]. injection Ex as -> ->. congruence. }
  destruct (Hone s L 0 W ltac:(lia) ltac:(by left)) as (s1 & L1 & -> & W1 & S1 & U1 & E1). cbn [rbind].
  assert (Hc1 : (link_count s1 <= link_count s)%nat) by (apply link_count_le; [done|apply S1]).
  destruct (Hone s1 L1 1 W1 ltac:(lia) ltac:(by right)) as (s2 & L2 & -> & W2 & S2 & U2 & E2).
  exists s2, L2. split; [done|]. split; [done|]. split; [by etransitivity|]. split; [by eapply unlinked_trans|].
  intros k [-> | ->]; [|done]. destruct (ul_less _ _ U2 tb 0 ltac:(by left)); congruence.
Qed.

(** The blocks that code may reach through patched jumps alone. *)
Definition leads (s : tb_state) (i j : nat) : Prop := exists n, slot n /\ link s i n = Some j.

Lemma unlinked_reach s s' tb : unlinked s s' -> (forall k, slot k -> link s' tb k = None) ->
  forall t, rtc (leads s) tb t -> forall k, slot k -> link s' t k = None.
Proof.
  intros U Hc t H. revert Hc. induction H as [|x y z (n & Hn & Hl) H IH]; intros Hc; [done|].
  apply IH. intros k Hk. apply (ul_closed _ _ U x n y); auto.
Qed.

Lemma link_count_bound s : (link_count s <= 2 * nb_tbs s)%nat.
Proof. unfold link_count. rewrite <- length_slots. apply length_filter. Qed.

(** ** Patching a jump *)

Lemma tb_add_jump_ok live s L i n t :
  jmp_wf live s L -> live i -> live t -> slot n ->
  exists s' L', tb_add_jump i n t s = Ok s' /\ jmp_wf live s' L' /\ same_blocks s s' /\
    (forall j k, slot k -> link s' j k = if decide ((j, k) = (i, n)) then Some (default t (link s i n)) else link s j k).
Proof.
  intros W Hi Ht Hn. unfold tb_add_jump. pose proof (jw_live _ _ _ W i Hi) as Hib. pose proof (jw_live _ _ _ W t Ht) as Htb.
  destruct (read_total (i, n) s Hib) as [q Hq]. rewrite Hq. cbn [rbind]. pose proof (jw_next _ _ _ W i n q Hi Hn Hq) as Hqn.
  destruct q as [q|].
  { exists s, L. split; [done|]. split; [done|]. split; [done|]. intros j k Hk. case_decide as E; [|done]. injection E as -> ->.
    destruct (link s i n); [done|]. discriminate (proj2 Hqn eq_refl). }
  rewrite (proj1 Hqn eq_refl). destruct (jw_chain _ _ _ W t Ht) as (f & Hf & Hc). unfold tb_set_jmp_target. rewrite read_set, Hf. cbn [rbind].
  set (s1 := jmp_write (t, 2) (Some (i, n)) (jmp_write (i, n) f (tb_update i (set_tb_next n (Some t)) s))).
  assert (R : forall p, place p -> jmp_read p s1 = if decide (p = (t, 2)) then Ok (Some (i, n)) else if decide (p = (i, n)) then Ok f else jmp_read p s).
  { intros p Hp. unfold s1. rewrite !read_write, read_set; rewrite ?nb_write, ?nb_update; try done; [by left|by right]. }
  assert (K : forall j k, slot k -> link s1 j k = if decide ((j, k) = (i, n)) then Some t else link s j k).
  { intros j k Hk. unfold s1. rewrite !link_write. by rewrite link_set. }
  assert (Hnot : forall t' x, live t' -> x ∈ L t' -> place x /\ x <> (t, 2) /\ x <> (i, n)).
  { intros t' [j k] Ht' Hx. apply (jw_elem _ _ _ W) in Hx as (_ & Hk & Hlk); [|done]. split; [by left|].
    split; [intros E; by eapply (slot_ne k)|]. intros [= -> ->]. rewrite (proj1 Hqn eq_refl) in Hlk. done. }
  assert (Hframe : forall t' p, live t' -> jchain s p (L t') t' -> jchain s1 p (L t') t').
  { intros t' p Ht' Hc'. eapply jchain_frame; [exact Hc'|]. intros x Hx. destruct (Hnot t' x Ht' Hx) as (H1 & H2 & H3).
    rewrite R by done. by rewrite !decide_False. }
  exists s1, (fun t' => if decide (t' = t) then (i, n) :: L t else L t'). split; [done|]. split; [split|split].
  - intros j Hj. unfold s1. rewrite !nb_write, nb_update. by apply (jw_live _ _ _ W).
  - intros t' Ht'. case_decide as E.
    + subst t'. exists (Some (i, n)). split; [rewrite R by (by right); by rewrite decide_True|].
      apply (jchain_cons _ i n f); [done| |by apply Hframe]. rewrite R by (by left).
      rewrite decide_False by (intros E; by eapply (slot_ne n)). by rewrite decide_True.
    + destruct (jw_chain _ _ _ W t' Ht') as (p & Hp & Hc'). exists p. split; [|by apply Hframe]. rewrite R by (by right).
      rewrite decide_False by congruence. by rewrite decide_False by (by apply slot_ne).
  - intros t' Ht'. case_decide; [subst t'|by apply W]. apply NoDup_cons. split; [|by apply W].
    intros Hx. by destruct (Hnot t (i, n) Ht Hx) as (_ & _ & ?).
  - intros t' j k Ht'. split.
    + intros Hin. destruct (decide ((j, k) = (i, n))) as [E|E].
      * injection E as -> ->. split; [done|]. split; [done|]. rewrite K by done. rewrite decide_True by done.
        case_decide as E; [by subst|]. by destruct (Hnot t' (i, n) Ht' Hin) as (_ & _ & ?).
      * assert (Hin' : (j, k) ∈ L t') by (case_decide; [subst t'; apply elem_of_cons in Hin as [?|?]; done|done]).
        apply (jw_elem _ _ _ W) in Hin' as (Hj & Hk & Hlk); [|done]. split; [done|]. split; [done|]. rewrite K by done. by rewrite decide_False.
    + intros (Hj & Hk & Hlk). rewrite K in Hlk by done. case_decide as E.
      * injection E as -> ->. injection Hlk as ->. rewrite decide_True by done. left.
      * assert (Hin : (j, k) ∈ L t') by (by apply (jw_elem _ _ _ W)). case_decide; [subst t'; by right|done].
  - intros j k p Hj Hk Hp. rewrite R in Hp by (by left). rewrite K by done.
    rewrite decide_False in Hp by (intros E; by eapply (slot_ne k)). case_decide as E; [|by apply (jw_next _ _ _ W)].
    injection Hp as <-. split; [intros ->; inversion Hc|done].
  - intros j k t' Hj Hk Hlk. rewrite K in Hlk by done. case_decide; [by injection Hlk as <-|]. by apply (jw_target _ _ _ W j k).
  - etransitivity; [apply same_blocks_link|]. etransitivity; [apply same_blocks_write|]. apply same_blocks_write.
  - intros j k Hk. rewrite K by done. done.
Qed.

(** ** The hash table *)

(** From the pointer [p] the bucket goes through the blocks [l]. *)
Inductive hchain (s : tb_state) : option nat -> list nat -> Prop :=
| hchain_nil : hchain s None []
| hchain_cons i b l : tbs s !! i = Some b -> hchain s (b_phys_hash_next b) l -> hchain s (Some i) (i :: l).

(** The address that a block was entered with. *)
Definition b_phys_pc (b : TranslationBlock) : Z := u32 (fst (b_page_addr b) + page_offset (b_pc b)).
Definition in_bucket (s : tb_state) (i : nat) (h : Z) : Prop :=
  exists b, tbs s !! i = Some b /\ tb_phys_hash_func (b_phys_pc b) = h.

Record hash_wf (live : nat -> Prop) (s : tb_state) (H : Z -> list nat) : Prop := {
  hw_chain h : hchain s (tb_phys_hash s !! h) (H h);
  hw_nodup h : NoDup (H h);
  hw_elem h i : i ∈ H h <-> live i /\ in_bucket s i h }.

Lemma hchain_frame s s' p l :
  hchain s p l -> (forall i, i ∈ l -> b_phys_hash_next <$> tbs s' !! i = b_phys_hash_next <$> tbs s !! i) -> hchain s' p l.
Proof.
  induction 1 as [|i b l Hb Hc IH]; intros Hs; [constructor|]. specialize (Hs i ltac:(left)) as Hi. rewrite Hb in Hi.
  destruct (tbs s' !! i) as [b'|] eqn:E; [|done]. injection Hi as Hi. econstructor; [exact E|]. rewrite Hi. apply IH.
  intros j Hj. apply Hs. by right.
Qed.

Lemma hchain_bound s p l i : hchain s p l -> i ∈ l -> (i < nb_tbs s)%nat.
Proof.
  induction 1 as [|j b l Hb Hc IH]; [by intros ?%not_elem_of_nil|]. intros [-> |Hi]%elem_of_cons; [by eapply lookup_lt_Some|auto].
Qed.

Lemma bucket_length s p l : hchain s p l -> NoDup l -> (length l <= nb_tbs s)%nat.
Proof.
  intros Hc Hnd. rewrite <- (length_seq (nb_tbs s) 0). apply submseteq_length, NoDup_submseteq; [done|].
  intros i Hi. apply elem_of_seq. pose proof (hchain_bound _ _ _ _ Hc Hi). lia.
Qed.

Lemma strip_field {A} (f : TranslationBlock -> A) s s' :
  (forall b, f (strip b) = f b) -> same_blocks s s' -> forall i, f <$> tbs s' !! i = f <$> tbs s !! i.
Proof.
  intros Hf (Hs & _) i. specialize (Hs i). destruct (tbs s' !! i) as [b'|], (tbs s !! i) as [b|]; try done.
  apply (inj Some) in Hs. cbn. f_equal. by rewrite <- (Hf b'), Hs, Hf.
Qed.

Lemma hash_wf_same live s s' H : same_blocks s s' -> hash_wf live s H -> hash_wf live s' H.
Proof.
  intros Hs [A B C]. pose proof Hs as (_ & _ & Hh & _). split.
  - intros h. rewrite Hh. eapply hchain_frame; [apply A|]. intros i _. by apply (strip_field b_phys_hash_next).
  - done.
  - intros h i. rewrite C. apply and_iff_compat_l. unfold in_bucket.
    pose proof (strip_field (fun b => tb_phys_hash_func (b_phys_pc b)) s s' (fun _ => eq_refl) Hs i) as E.
    split; intros (b & Hb & Hf); rewrite Hb in E; cbn in E; destruct (_ !! i) as [b'|]; try done; injection E as E; exists b'; (split; [done|congruence]).
Qed.

(** ** A new block *)

Lemma alter_last {A} (f : A -> A) l x : alter f (length l) (l ++ [x]) = l ++ [f x].
Proof. induction l as [|y l IH]; cbn; [done|]. f_equal. exact IH. Qed.

(** The last block of the array after [tb_link_phys]. *)
Definition linked_tb (nb : nat) (hash_next : option nat) (page_next : option jptr * option jptr) (page_addr : Z * Z)
    (b : TranslationBlock) : TranslationBlock :=
  mkTB (b_pc b) (b_cs_base b) (b_flags b) (b_size b) (b_tc_ptr b) (b_code b) hash_next page_next page_addr
    (None, None) (None, None) (Some (nb, 2)).

Lemma update_last l b f s : tb_update (length l) f (set_tbs (l ++ [b]) s) = set_tbs (l ++ [f b]) s.
Proof. unfold tb_update. cbn [tbs set_tbs]. by rewrite alter_last. Qed.

Lemma set_hash_tbs m k s : set_phys_hash m (set_tbs k s) = set_tbs k (set_phys_hash m s).
Proof. reflexivity. Qed.
Lemma set_first_tbs m k s : set_first_tb m (set_tbs k s) = set_tbs k (set_first_tb m s).
Proof. reflexivity. Qed.
Lemma set_first_twice m m' s : set_first_tb m (set_first_tb m' s) = set_first_tb m s.
Proof. reflexivity. Qed.

Lemma tb_alloc_page_new l b n pg s : exists p ft,
  tb_alloc_page (length l) n pg (set_tbs (l ++ [b]) s) = set_tbs (l ++ [set_page_next n p (set_page_addr n pg b)]) (set_first_tb ft s).
Proof.
  unfold tb_alloc_page. cbn zeta. rewrite update_last. generalize (Z.shiftr pg TARGET_PAGE_BITS) as k. intros k.
  rewrite set_first_tbs. do 2 eexists. reflexivity.
Qed.

Lemma tb_link_phys_new l b phys_pc phys_page2 s :
  let h := tb_phys_hash_func phys_pc in
  exists pn ft, tb_link_phys (length l) phys_pc phys_page2 (set_tbs (l ++ [b]) s) =
    set_tbs (l ++ [linked_tb (length l) (tb_phys_hash s !! h) pn (page_of phys_pc, phys_page2) b])
      (set_first_tb ft (set_phys_hash (<[h := length l]> (tb_phys_hash s)) s)).
Proof.
  unfold tb_link_phys. generalize (tb_phys_hash_func phys_pc) as h. generalize (page_of phys_pc) as pg. intros pg h. cbn zeta.
  rewrite update_last, set_hash_tbs. change (tb_phys_hash (set_tbs _ s)) with (tb_phys_hash s).
  generalize (tb_phys_hash s !! h) as hn. generalize (<[h := length l]> (tb_phys_hash s)) as m. intros m hn. set (s1 := set_phys_hash m s).
  destruct (tb_alloc_page_new l (set_phys_hash_next hn b) 0 pg s1) as (p0 & ft & ->).
  unfold tb_reset_jump, jmp_write. destruct (Z.eqb_spec phys_page2 NO_PAGE) as [->|_].
  - rewrite !update_last. exists (put 0 p0 (b_page_next b)), ft. reflexivity.
  - destruct (tb_alloc_page_new l (set_page_next 0 p0 (set_page_addr 0 pg (set_phys_hash_next hn b))) 1 phys_page2 (set_first_tb ft s1)) as (p1 & ft1 & ->).
    rewrite !update_last, set_first_twice. exists (put 1 p1 (put 0 p0 (b_page_next b))), ft1. reflexivity.
Qed.

Section NewBlock.
Context (live : nat -> Prop) (s s' : tb_state) (b : TranslationBlock).
Context (Hlive : forall i, live i -> (i < nb_tbs s)%nat) (Htbs : tbs s' = tbs s ++ [b]).

Lemma new_old i : live i -> tbs s' !! i = tbs s !! i.
Proof. intros Hi. rewrite Htbs. apply lookup_app_l. by apply Hlive. Qed.
Lemma new_last : tbs s' !! nb_tbs s = Some b.
Proof. rewrite Htbs. by apply list_lookup_middle. Qed.

Lemma jmp_wf_new L :
  b_tb_next b = (None, None) -> b_jmp_next b = (None, None) -> b_jmp_first b = Some (nb_tbs s, 2) -> jmp_wf live s L ->
  jmp_wf (fun i => live i \/ i = nb_tbs s) s' (fun t => if decide (t = nb_tbs s) then [] else L t).
Proof.
  intros B1 B2 B3 W.
  assert (R : forall i n, live i -> jmp_read (i, n) s' = jmp_read (i, n) s) by (intros i n Hi; cbn; unfold tb_at; by rewrite new_old).
  assert (K : forall i n, live i -> link s' i n = link s i n) by (intros i n Hi; unfold link; by rewrite new_old).
  assert (Kn : forall n, link s' (nb_tbs s) n = None) by (intros n; unfold link; rewrite new_last; cbn; rewrite B1; unfold pick; by destruct (n =? 0)).
  assert (Hne : forall i, live i -> i <> nb_tbs s) by (intros i Hi ->; apply Hlive in Hi; lia).
  split.
  - intros i Hi. unfold nb_tbs at 1. rewrite Htbs, length_app. cbn. destruct Hi as [Hi| ->]; [apply Hlive in Hi|]; unfold nb_tbs in *; lia.
  - intros t [Ht| ->].
    + rewrite decide_False by auto. destruct (jw_chain _ _ _ W t Ht) as (p & Hp & Hc). exists p. split; [by rewrite R|].
      eapply jchain_frame; [exact Hc|]. intros [i n] Hin. apply (jw_elem _ _ _ W) in Hin as (Hi & _); [|done]. by apply R.
    + rewrite decide_True by done. exists (Some (nb_tbs s, 2)). split; [|constructor]. cbn. unfold tb_at. rewrite new_last. cbn. by rewrite B3.
  - intros t [Ht| ->]; [rewrite decide_False by auto; by apply W|rewrite decide_True by done; apply NoDup_nil_2].
  - intros t i n Ht. destruct (decide (t = nb_tbs s)) as [->|Hne'].
    + split; [by intros ?%not_elem_of_nil|]. intros ([Hi| ->] & Hn & Hl); [|by rewrite Kn in Hl].
      rewrite K in Hl by done. apply (jw_target _ _ _ W) in Hl; [|done..]. by apply Hne in Hl.
    + destruct Ht as [Ht| ->]; [|done]. rewrite (jw_elem _ _ _ W) by done. split.
      * intros (Hi & Hn & Hl). rewrite K by done. auto.
      * intros ([Hi| ->] & Hn & Hl); [rewrite K in Hl by done; auto|by rewrite Kn in Hl].
  - intros i n p [Hi| ->] Hn Hp; [rewrite R in Hp by done; rewrite K by done; by apply (jw_next _ _ _ W)|]. rewrite Kn. split; [done|]. intros _.
    cbn in Hp. unfold tb_at in Hp. rewrite new_last in Hp. cbn in Hp. rewrite B2 in Hp. unfold pick in Hp. destruct Hn as [-> | ->]; by injection Hp as <-.
  - intros i n t [Hi| ->] Hn Hl; [|by rewrite Kn in Hl]. rewrite K in Hl by done. left. by apply (jw_target _ _ _ W i n).
Qed.

Lemma hash_wf_new H :
  let h := tb_phys_hash_func (b_phys_pc b) in
  b_phys_hash_next b = tb_phys_hash s !! h -> tb_phys_hash s' = <[h := nb_tbs s]> (tb_phys_hash s) -> hash_wf live s H ->
  hash_wf (fun i => live i \/ i = nb_tbs s) s' (fun h' => if decide (h' = h) then nb_tbs s :: H h else H h').
Proof.
  intros h B1 B2 W.
  assert (Hne : forall i, live i -> i <> nb_tbs s) by (intros i Hi ->; apply Hlive in Hi; lia).
  assert (Hframe : forall h', hchain s' (tb_phys_hash s !! h') (H h')).
  { intros h'. eapply hchain_frame; [apply (hw_chain _ _ _ W)|]. intros i Hi. apply (hw_elem _ _ _ W) in Hi as [Hi _]. by rewrite new_old. }
  assert (Hb : forall i h', live i -> in_bucket s' i h' <-> in_bucket s i h') by (intros i h' Hi; unfold in_bucket; by rewrite new_old).
  split.
  - intros h'. rewrite B2. destruct (decide (h' = h)) as [->|Hh].
    + rewrite lookup_insert_eq. econstructor; [apply new_last|]. rewrite B1. apply Hframe.
    + by rewrite lookup_insert_ne.
  - intros h'. case_decide; [|apply W]. apply NoDup_cons. split; [|apply W]. intros [Hin _]%(hw_elem _ _ _ W). by apply Hne in Hin.
  - intros h' i. assert (Hlast : in_bucket s' (nb_tbs s) h' <-> h' = h).
    { unfold in_bucket. rewrite new_last. split; [by intros (b' & [= <-] & <-)|intros ->; by exists b]. }
    destruct (decide (h' = h)) as [->|Hh].
    + rewrite elem_of_cons, (hw_elem _ _ _ W). split.
      * intros [-> |[Hi Hin]]; [by rewrite Hlast; auto|by rewrite Hb; auto].
      * intros [[Hi| ->] Hin]; [right; by rewrite <- Hb|by left].
    + rewrite (hw_elem _ _ _ W). split.
      * intros [Hi Hin]. by rewrite Hb; auto.
      * intros [[Hi| ->] Hin]; [by rewrite <- Hb|by rewrite Hlast in Hin].
Qed.
End NewBlock.

Lemma jmp_wf_live (live live' : nat -> Prop) s L : (forall i, live i <-> live' i) -> jmp_wf live s L -> jmp_wf live' s L.
Proof. intros E [A B C D F G]. split; intros; rewrite <- ?E in *; eauto. Qed.
Lemma hash_wf_live (live live' : nat -> Prop) s H : (forall i, live i <-> live' i) -> hash_wf live s H -> hash_wf live' s H.
Proof. intros E [A B C]. split; [done|done|]. intros h i. by rewrite C, E. Qed.

(** Direct jumps, when other members change. *)
Lemma jmp_wf_ext live s s' L :
  (forall p, jmp_read p s' = jmp_read p s) -> (forall i n, link s' i n = link s i n) -> nb_tbs s' = nb_tbs s -> jmp_wf live s L -> jmp_wf live s' L.
Proof.
  intros R K N W. split.
  - intros i Hi. rewrite N. by apply W.
  - intros t Ht. destruct (jw_chain _ _ _ W t Ht) as (p & Hp & Hc). exists p. split; [by rewrite R|]. by eapply jchain_frame.
  - apply W.
  - intros t i n Ht. rewrite K. by apply W.
  - intros i n p. rewrite R, K. apply W.
  - intros i n t. rewrite K. apply W.
Qed.
Lemma jmp_wf_other live s s' L : tbs s' = tbs s -> jmp_wf live s L -> jmp_wf live s' L.
Proof.
  intros E. apply jmp_wf_ext; [intros [i n]; cbn; unfold tb_at; by rewrite E|intros i n; unfold link; by rewrite E|unfold nb_tbs; by rewrite E].
Qed.
Lemma hash_wf_other live s s' H : tbs s' = tbs s -> tb_phys_hash s' = tb_phys_hash s -> hash_wf live s H -> hash_wf live s' H.
Proof.
  intros E Eh W. split.
  - intros h. rewrite Eh. eapply hchain_frame; [apply W|]. by rewrite E.
  - apply W.
  - intros h i. unfold in_bucket. rewrite E. apply W.
Qed.

(** ** The jump cache and pages *)

Lemma testbit_mask a b i : 0 <= a <= b -> Z.testbit (Z.shiftl 1 b - Z.shiftl 1 a) i = (a <=? i) && (i <? b).
Proof.
  intros H. rewrite !Z.shiftl_1_l. replace (2 ^ b - 2 ^ a) with (Z.shiftl (Z.ones (b - a)) a).
  2: { rewrite Z.shiftl_mul_pow2, Z.ones_equiv, Z.mul_pred_l, <- Z.pow_add_r by lia. do 2 f_equal. lia. }
  destruct (Z.lt_ge_cases i 0) as [Hi|Hi]; [rewrite Z.testbit_neg_r by lia; (destruct (Z.leb_spec a i), (Z.ltb_spec i b); done || lia)|].
  rewrite Z.shiftl_spec by lia. destruct (Z.lt_ge_cases i a) as [Ha|Ha].
  - rewrite Z.testbit_neg_r by lia. (destruct (Z.leb_spec a i), (Z.ltb_spec i b); done || lia).
  - rewrite Z.testbit_ones by lia. replace (i - a <? b - a) with (i <? b) by (apply eq_true_iff_eq; rewrite !Z.ltb_lt; lia).
    rewrite (proj2 (Z.leb_le 0 (i - a))) by lia. (destruct (Z.leb_spec a i), (Z.ltb_spec i b); done || lia).
Qed.

Lemma hash_page_bit pc i : 0 <= i ->
  Z.testbit (tb_jmp_cache_hash_page pc) i = xorb (Z.testbit pc (i + 4)) (Z.testbit pc (i + 8)) && ((6 <=? i) && (i <? 12)).
Proof.
  intros Hi. unfold tb_jmp_cache_hash_page. cbn zeta.
  change (TARGET_PAGE_BITS - TB_JMP_PAGE_BITS) with 4. change TB_JMP_PAGE_MASK with (Z.shiftl 1 12 - Z.shiftl 1 6).
  rewrite Z.land_spec, testbit_mask, Z.shiftr_spec, Z.lxor_spec, Z.shiftr_spec by lia. by replace (i + 4 + 4) with (i + 8) by lia.
Qed.

(** The part of the hash that a page has in common. *)
Lemma hash_page_same pc addr : page_of pc = page_of addr -> tb_jmp_cache_hash_page pc = tb_jmp_cache_hash_page addr.
Proof.
  intros H. assert (Hb : forall i, 10 <= i -> Z.testbit pc i = Z.testbit addr i).
  { intros i Hi. apply (f_equal (fun z => Z.testbit z i)) in H. unfold page_of in H. rewrite !Z.ldiff_spec in H.
    change (TARGET_PAGE_SIZE - 1) with (Z.ones 10) in H. rewrite Z.ones_spec_high in H by lia. by rewrite !andb_true_r in H. }
  apply Z.bits_inj'. intros i Hi. rewrite !hash_page_bit by done.
  destruct (Z.leb_spec 6 i); cbn [andb]; [|by rewrite !andb_false_r]. by rewrite !Hb by lia.
Qed.

Lemma hash_func_range pc : tb_jmp_cache_hash_page pc <= tb_jmp_cache_hash_func pc < tb_jmp_cache_hash_page pc + TB_JMP_PAGE_SIZE.
Proof.
  unfold tb_jmp_cache_hash_func. cbn zeta. fold (tb_jmp_cache_hash_page pc).
  set (x := Z.lxor _ _). assert (Hy : 0 <= Z.land x TB_JMP_ADDR_MASK < TB_JMP_PAGE_SIZE).
  { change TB_JMP_ADDR_MASK with (Z.ones 6). change TB_JMP_PAGE_SIZE with (2 ^ 6). rewrite Z.land_ones by lia. apply Z.mod_pos_bound. lia. }
  rewrite <- Z.add_nocarry_lor; [lia|].
  apply Z.bits_inj'. intros i Hi. rewrite !Z.land_spec, hash_page_bit, Z.bits_0 by done.
  change TB_JMP_ADDR_MASK with (Z.ones 6). destruct (Z.leb_spec 6 i); cbn [andb]; [|by rewrite andb_false_r].
  rewrite Z.ones_spec_high by lia. by rewrite !andb_false_r.
Qed.

Lemma clear_range_lookup i n c k t : clear_range i n c !! k = Some t <-> c !! k = Some t /\ ~ (i <= k < i + n).
Proof. unfold clear_range. rewrite map_lookup_filter_Some. done. Qed.

(** What is left of the jump cache after a page was flushed: entries as
    before, and none for an address in the page. *)
Lemma flush_page_cache addr s k t : tb_jmp_cache (tlb_flush_jmp_cache addr s) !! k = Some t -> tb_jmp_cache s !! k = Some t.
Proof. unfold tlb_flush_jmp_cache. cbn. by intros [[? _]%clear_range_lookup _]%clear_range_lookup. Qed.
Lemma flush_page_gone addr s pc t : page_of pc = page_of addr -> tb_jmp_cache (tlb_flush_jmp_cache addr s) !! tb_jmp_cache_hash_func pc = Some t -> False.
Proof.
  intros Hp. unfold tlb_flush_jmp_cache. cbn. intros [_ H]%clear_range_lookup. apply H. rewrite <- (hash_page_same _ _ Hp). apply hash_func_range.
Qed.
