(* ===== verification/TbInvalidate.v ===== *)
(** * Invalidation of translated blocks

    [tb_phys_invalidate] of [exec.c] takes a block out of the hash table, of
    the lists of its pages, of the jump cache and of the lists of direct
    jumps. The theorem says that nothing leads to the block any more, and
    that all the structures are intact for the other blocks. *)
From S2P Require Import Prelude GuestMem Tcg TbCache.
From stdpp Require Import list gmap relations.
#[local] Open Scope Z_scope.

(** ** States that differ in the links of one structure *)

Section Differ.
(** [forget] clears the members of a block that an operation may change. *)
Context (forget : TranslationBlock -> TranslationBlock).

Definition same_but (s s' : tb_state) : Prop :=
  (forall j, forget <$> tbs s' !! j = forget <$> tbs s !! j) /\ nb_tbs s' = nb_tbs s /\ tb_jmp_cache s' = tb_jmp_cache s.

#[global] Instance same_but_preorder : PreOrder same_but.
Proof.
  split; [by intros s|]. intros s1 s2 s3 (A1 & B1 & C1) (A2 & B2 & C2). split; [intros j; by rewrite A2|]. split; congruence.
Qed.

Lemma same_but_update i f s : (forall b, forget (f b) = forget b) -> same_but s (tb_update i f s).
Proof.
  intros Hf. split; [|split; [apply nb_update|done]]. intros j. rewrite lookup_update. case_decide; [|done]. subst.
  destruct (tbs s !! i); [|done]. cbn. by rewrite Hf.
Qed.

Lemma same_but_field {A} (f : TranslationBlock -> A) s s' :
  (forall b, f (forget b) = f b) -> same_but s s' -> forall i, f <$> tbs s' !! i = f <$> tbs s !! i.
Proof.
  intros Hf (Hs & _) i. specialize (Hs i). destruct (tbs s' !! i) as [b'|], (tbs s !! i) as [b|]; try done.
  apply (inj Some) in Hs. cbn. f_equal. by rewrite <- (Hf b'), Hs, Hf.
Qed.

Lemma same_but_block (P : TranslationBlock -> Prop) s s' i :
  (forall b, P (forget b) <-> P b) -> same_but s s' -> (exists b, tbs s' !! i = Some b /\ P b) <-> exists b, tbs s !! i = Some b /\ P b.
Proof.
  intros HP (Hs & _). specialize (Hs i). split; intros (b & Hb & Hp); rewrite Hb in Hs; destruct (_ !! i) as [b'|]; try done;
    apply (inj Some) in Hs; exists b'; (split; [done|]); apply HP; apply HP in Hp; congruence.
Qed.
End Differ.

(** Direct jumps, when other members change. *)
Lemma same_but_jumps forget s s' :
  (forall b, b_jmp_next (forget b) = b_jmp_next b) -> (forall b, b_jmp_first (forget b) = b_jmp_first b) ->
  (forall b, b_tb_next (forget b) = b_tb_next b) -> same_but forget s s' ->
  (forall p, jmp_read p s' = jmp_read p s) /\ (forall i n, link s' i n = link s i n).
Proof.
  intros H1 H2 H3 Hs. split.
  - intros [i n]. cbn. unfold tb_at.
    assert (E : (fun b => if n =? 2 then b_jmp_first b else pick n (b_jmp_next b)) <$> tbs s' !! i =
                (fun b => if n =? 2 then b_jmp_first b else pick n (b_jmp_next b)) <$> tbs s !! i).
    { eapply same_but_field; [|exact Hs]. intros b. cbn beta. by rewrite H1, H2. }
    destruct (tbs s' !! i), (tbs s !! i); cbn in E |- *; try done. by injection E as ->.
  - intros i n. unfold link. assert (E : b_tb_next <$> tbs s' !! i = b_tb_next <$> tbs s !! i) by (by eapply same_but_field).
    destruct (tbs s' !! i), (tbs s !! i); cbn in E |- *; try done. by injection E as ->.
Qed.

(** ** The hash table *)

Lemma filter_all {A} (P : A -> Prop) `{!forall x, Decision (P x)} (l : list A) : (forall x, x ∈ l -> P x) -> filter P l = l.
Proof.
  induction l as [|x l IH]; intros Hl; [done|]. rewrite filter_cons_True by (apply Hl; left). f_equal. apply IH. intros y Hy. apply Hl. by right.
Qed.

Abbreviation but_hash := (set_phys_hash_next None).

Lemma hash_remove_ok tb : forall l s a fuel,
  hchain s (Some a) (a :: l) -> NoDup (a :: l) -> tb ∈ l -> (length l <= fuel)%nat ->
  exists s', hash_remove fuel tb a s = Ok s' /\ hchain s' (Some a) (a :: filter (.≠ tb) l) /\ same_but but_hash s s' /\
    (forall j, j ∉ a :: l -> tbs s' !! j = tbs s !! j) /\ tb_phys_hash s' = tb_phys_hash s /\ first_tb s' = first_tb s.
Proof.
  induction l as [|x l IH]; intros s a fuel Hc Hnd Hin Hf; [by apply not_elem_of_nil in Hin|].
  cbn in Hf. destruct fuel as [|fuel]; [lia|]. inversion Hc as [|? b ? Hb Hc1]; subst. inversion Hc1 as [|? bx ? Hbx Hc2 Enx]; subst.
  apply NoDup_cons in Hnd as [Ha Hnd]. cbn [hash_remove]. unfold tb_at. rewrite Hb. cbn [rbind].
  assert (Hnx : b_phys_hash_next b = Some x) by (by inversion Hc1). rewrite Hnx. destruct (Nat.eqb_spec x tb) as [->|Hne].
  - rewrite Hbx. cbn [rbind]. eexists. split; [reflexivity|]. rewrite filter_cons_False by (by intros ?). apply NoDup_cons in Hnd as [Ht Hnd].
    assert (Hnt : forall y, y ∈ l -> y <> tb) by (by intros y Hy ->). rewrite (filter_all _ l) by done.
    split; [|split; [by apply same_but_update|split; [|done]]].
    + apply (hchain_cons _ a (set_phys_hash_next (b_phys_hash_next bx) b)); [rewrite lookup_update, decide_True, Hb by done; done|].
      eapply hchain_frame; [exact Hc2|]. intros j Hj. rewrite lookup_update, decide_False; [done|]. intros ->. apply Ha. by right.
    + intros j Hj. rewrite lookup_update, decide_False; [done|]. intros ->. apply Hj. left.
  - assert (Hin' : tb ∈ l) by (apply elem_of_cons in Hin as [->|?]; done). destruct (IH s x fuel) as (s' & E & Hc' & Hs & Ho & Hh); [|done|done|lia|].
    { by apply (hchain_cons _ x bx). }
    exists s'. split; [exact E|]. rewrite filter_cons_True by done. split; [|split; [done|split; [|done]]].
    + apply (hchain_cons _ a b); [by rewrite Ho|]. by rewrite Hnx.
    + intros j Hj. apply Ho. intros Hj'. apply Hj. by right.
Qed.

Definition without_tb (live : nat -> Prop) (tb : nat) (i : nat) : Prop := live i /\ i <> tb.

Lemma tb_remove_ok live s H tb b :
  hash_wf live s H -> live tb -> tbs s !! tb = Some b ->
  exists s', tb_remove (tb_phys_hash_func (b_phys_pc b)) tb s = Ok s' /\ hash_wf (without_tb live tb) s' (fun h => filter (.≠ tb) (H h)) /\
    same_but but_hash s s' /\ first_tb s' = first_tb s.
Proof.
  intros W Htb Hb. set (h := tb_phys_hash_func (b_phys_pc b)).
  assert (Hin : tb ∈ H h) by (apply (hw_elem _ _ _ W); split; [done|by exists b]).
  pose proof (hw_chain _ _ _ W h) as Hc. pose proof (hw_nodup _ _ _ W h) as Hnd. pose proof (bucket_length _ _ _ Hc Hnd) as Hlen.
  assert (Hother : forall h' i, i ∈ H h' -> i ∈ H h -> h' = h).
  { intros h' i [_ (b1 & E1 & <-)]%(hw_elem _ _ _ W) [_ (b2 & E2 & <-)]%(hw_elem _ _ _ W). congruence. }
  assert (Hfin : forall s', same_but but_hash s s' -> (forall h', hchain s' (tb_phys_hash s' !! h') (filter (.≠ tb) (H h'))) ->
    hash_wf (without_tb live tb) s' (fun h => filter (.≠ tb) (H h))).
  { intros s' Hs Hch. split; [exact Hch|intros h'; apply NoDup_filter, W|]. intros h' i. rewrite list_elem_of_filter, (hw_elem _ _ _ W).
    unfold without_tb, in_bucket. rewrite (same_but_block but_hash (fun b => tb_phys_hash_func (b_phys_pc b) = h') s s' i) by done. tauto. }
  assert (Hframe : forall s' h', h' <> h -> (forall j, j ∉ H h -> tbs s' !! j = tbs s !! j) -> hchain s' (tb_phys_hash s !! h') (filter (.≠ tb) (H h'))).
  { intros s' h' Hh Ho. rewrite filter_all by (intros x Hx ->; by apply Hh, (Hother h' tb)).
    eapply hchain_frame; [apply (hw_chain _ _ _ W)|]. intros i Hi. rewrite Ho; [done|]. intros Hi'. by apply Hh, (Hother h' i). }
  unfold tb_remove. destruct (H h) as [|a l] eqn:El; [by apply not_elem_of_nil in Hin|].
  inversion Hc as [|? ba ? Hba Hc1 Eh]; subst. destruct (Nat.eqb_spec a tb) as [->|Hne].
  - unfold tb_at. rewrite Hba. cbn [rbind]. eexists. split; [reflexivity|]. split; [|by split; [split|]]. apply Hfin; [done|]. intros h'. cbn [tb_phys_hash set_phys_hash].
    apply NoDup_cons in Hnd as [Ht _]. assert (Hl : hchain s (b_phys_hash_next ba) l) by done.
    destruct (decide (h' = h)) as [->|Hh].
    + rewrite El. rewrite filter_cons_False by (by intros ?). rewrite filter_all by (by intros y Hy ->). unfold ptr_to.
      assert (E : (match b_phys_hash_next ba with Some x => <[h:=x]> (tb_phys_hash s) | None => delete h (tb_phys_hash s) end) !! h = b_phys_hash_next ba).
      { destruct (b_phys_hash_next ba); [by rewrite lookup_insert_eq|by rewrite lookup_delete_eq]. }
      rewrite E. eapply hchain_frame; [exact Hl|done].
    + assert (E : ptr_to (b_phys_hash_next ba) (tb_phys_hash s) h !! h' = tb_phys_hash s !! h').
      { unfold ptr_to. destruct (b_phys_hash_next ba); [by rewrite lookup_insert_ne|by rewrite lookup_delete_ne]. }
      rewrite E. by apply (Hframe (set_phys_hash _ s)).
  - assert (Hin' : tb ∈ l) by (apply elem_of_cons in Hin as [->|?]; done). cbn in Hlen.
    destruct (hash_remove_ok tb l s a (nb_tbs s)) as (s' & E & Hc' & Hs & Ho & Hh & Hf1); [by apply (hchain_cons _ a ba)|done|done|lia|].
    exists s'. split; [exact E|]. split; [|done]. apply Hfin; [done|]. intros h'. rewrite Hh. destruct (decide (h' = h)) as [->|Hh'].
    + rewrite El. rewrite filter_cons_True by done. rewrite <- Eh. exact Hc'.
    + by apply Hframe.
Qed.

(** ** The lists of pages *)

Definition page_read (p : jptr) (s : tb_state) : option (option jptr) := (fun b => pick (snd p) (b_page_next b)) <$> tbs s !! fst p.

(** From the pointer [p] the list of a page goes through the places [l]. *)
Inductive pchain (s : tb_state) : option jptr -> list jptr -> Prop :=
| pchain_nil : pchain s None []
| pchain_cons q p l : slot (snd q) -> page_read q s = Some p -> pchain s p l -> pchain s (Some q) (q :: l).

Definition on_page (s : tb_state) (p : jptr) (page : Z) : Prop :=
  slot (snd p) /\ exists b, tbs s !! fst p = Some b /\ Z.shiftr (pick (snd p) (b_page_addr b)) TARGET_PAGE_BITS = page.

(** [enlisted] are the places that the lists go through: a block of two pages
    is in two lists, or twice in one. *)
Record page_wf (enlisted : jptr -> Prop) (s : tb_state) (P : Z -> list jptr) : Prop := {
  pw_chain page : pchain s (first_tb s !! page) (P page);
  pw_nodup page : NoDup (P page);
  pw_elem page p : p ∈ P page <-> enlisted p /\ on_page s p page }.

Lemma pchain_frame s s' p l : pchain s p l -> (forall q, q ∈ l -> page_read q s' = page_read q s) -> pchain s' p l.
Proof.
  induction 1 as [|q p l Hq Hr Hc IH]; intros H; [constructor|]. econstructor; [done|rewrite H; [exact Hr|left]|].
  apply IH. intros x Hx. apply H. by right.
Qed.

Lemma page_read_update q v s p : slot (snd q) -> slot (snd p) ->
  page_read p (tb_update (fst q) (set_page_next (snd q) v) s) = if decide (p = q) then (fun _ => v) <$> tbs s !! fst q else page_read p s.
Proof.
  destruct p as [i n], q as [j k]. cbn [fst snd]. intros Hk Hn. unfold page_read. cbn [fst snd]. rewrite lookup_update.
  destruct (decide (i = j)) as [->|]; [|by rewrite decide_False by congruence]. destruct (tbs s !! j) as [b|]; cbn; [|by case_decide].
  rewrite pick_put by done. destruct (decide (n = k)) as [->|]; [by rewrite decide_True|by rewrite decide_False by congruence].
Qed.

Definition but_page (b : TranslationBlock) : TranslationBlock := set_page_next 0 None (set_page_next 1 None b).

Lemma but_page_set n v b : slot n -> but_page (set_page_next n v b) = but_page b.
Proof. by intros [-> | ->]. Qed.

(** The first place of [tb] behind [a] is taken out. *)
Lemma page_remove_ok tb n l2 : forall l1 s a fuel,
  pchain s (Some a) (a :: l1 ++ (tb, n) :: l2) -> NoDup (a :: l1 ++ (tb, n) :: l2) -> tb ∉ l1.*1 -> (length l1 < fuel)%nat ->
  exists s', page_remove fuel tb a s = Ok s' /\ pchain s' (Some a) (a :: l1 ++ l2) /\ same_but but_page s s' /\
    (forall q, slot (snd q) -> q ∉ a :: l1 -> page_read q s' = page_read q s) /\ tb_phys_hash s' = tb_phys_hash s /\ first_tb s' = first_tb s.
Proof.
  induction l1 as [|x l1 IH]; intros s a fuel Hc Hnd Ht Hf; cbn in Hf; (destruct fuel as [|fuel]; [lia|]); cbn [app] in Hc, Hnd;
    inversion Hc as [|? p ? Ha Hra Hc1]; subst; inversion Hc1 as [|? px ? Hx Hrx Hc2]; subst; apply NoDup_cons in Hnd as [Han Hnd];
    unfold page_read in Hra; destruct (tbs s !! fst a) as [ba|] eqn:Hba; try done; cbn in Hra; injection Hra as Hra;
    cbn [page_remove]; unfold tb_at; rewrite Hba; cbn [rbind]; rewrite Hra.
  - rewrite Nat.eqb_refl. unfold page_read in Hrx. cbn [fst snd] in Hrx. destruct (tbs s !! tb) as [bt|] eqn:Hbt; [|done]. cbn in Hrx. injection Hrx as Hrx.
    cbn [rbind]. eexists. split; [reflexivity|]. rewrite Hrx.
    assert (R : forall q, slot (snd q) -> page_read q (tb_update (fst a) (set_page_next (snd a) px) s) = if decide (q = a) then Some px else page_read q s).
    { intros q Hq. rewrite page_read_update by done. by rewrite Hba. }
    split; [|split; [apply same_but_update; intros b; by apply but_page_set|split; [|done]]].
    + apply (pchain_cons _ a px); [done|rewrite R by done; by rewrite decide_True|]. cbn [app].
      assert (Hsl : forall q, q ∈ l2 -> slot (snd q)).
      { clear -Hc2. induction Hc2 as [|q p l Hq Hr Hc IH]; intros y Hy; [by apply not_elem_of_nil in Hy|]. apply elem_of_cons in Hy as [->|Hy]; auto. }
      eapply pchain_frame; [exact Hc2|]. intros q Hq. rewrite R by auto. rewrite decide_False; [done|]. intros ->. apply Han. by right.
    + intros q Hq Hn. rewrite R by done. rewrite decide_False; [done|]. intros ->. apply Hn. left.
  - destruct x as [i k]. cbn [fmap list_fmap fst] in Ht. apply not_elem_of_cons in Ht as [Hit Ht]. rewrite (proj2 (Nat.eqb_neq i tb)) by congruence.
    destruct (IH s (i, k) fuel) as (s' & E & Hc' & Hs & Ho & Hh); [|done|done|lia|].
    { by apply (pchain_cons _ (i, k) px). }
    exists s'. split; [exact E|]. split; [|split; [done|split; [|done]]].
    + apply (pchain_cons _ a (Some (i, k))); [done| |exact Hc']. rewrite Ho; [|done|].
      * unfold page_read. rewrite Hba. cbn. by rewrite Hra.
      * intros Hin. apply Han. apply elem_of_cons in Hin as [->|Hin]; [left|]. right. apply elem_of_app. by left.
    + intros q Hq Hn. apply Ho; [done|]. intros Hq'. apply Hn. by right.
Qed.

Lemma first_place tb n (l : list jptr) : (tb, n) ∈ l -> exists l1 n' l2, l = l1 ++ (tb, n') :: l2 /\ tb ∉ l1.*1.
Proof.
  induction l as [|[i k] l IH]; intros Hin; [by apply not_elem_of_nil in Hin|]. destruct (decide (i = tb)) as [->|Hne].
  - exists [], k, l. split; [done|]. apply not_elem_of_nil.
  - apply elem_of_cons in Hin as [E|Hin]; [congruence|]. destruct (IH Hin) as (l1 & n' & l2 & -> & Ht). exists ((i, k) :: l1), n', l2. split; [done|].
    cbn. apply not_elem_of_cons. by split.
Qed.

Lemma page_list_length A s P page : page_wf A s P -> (length (P page) <= 2 * nb_tbs s)%nat.
Proof.
  intros W. rewrite <- (length_slots (nb_tbs s)). apply submseteq_length, NoDup_submseteq; [apply W|].
  intros [i n] (_ & Hn & b & Hb & _)%(pw_elem _ _ _ W). apply elem_of_slots. split; [by eapply lookup_lt_Some|done].
Qed.

Lemma on_page_same s s' p page : same_but but_page s s' -> on_page s' p page <-> on_page s p page.
Proof. intros Hs. unfold on_page. by rewrite (same_but_block but_page (fun b => Z.shiftr (pick (snd p) (b_page_addr b)) TARGET_PAGE_BITS = page) s s' (fst p)). Qed.

Lemma ptr_to_lookup {A} (p : option A) m h : ptr_to p m h !! h = p.
Proof. unfold ptr_to. destruct p; [by rewrite lookup_insert_eq|by rewrite lookup_delete_eq]. Qed.
Lemma ptr_to_other {A} (p : option A) m h k : k <> h -> ptr_to p m h !! k = m !! k.
Proof. intros H. unfold ptr_to. destruct p; [by rewrite lookup_insert_ne|by rewrite lookup_delete_ne]. Qed.

Lemma tb_page_remove_ok A s P tb n page :
  page_wf A s P -> A (tb, n) -> on_page s (tb, n) page ->
  exists n' s' P', tb_page_remove page tb s = Ok s' /\ A (tb, n') /\ on_page s (tb, n') page /\
    page_wf (fun p => A p /\ p <> (tb, n')) s' P' /\ same_but but_page s s' /\ tb_phys_hash s' = tb_phys_hash s.
Proof.
  intros W HA Hon. assert (Hin : (tb, n) ∈ P page) by (by apply (pw_elem _ _ _ W)).
  destruct (first_place _ _ _ Hin) as (l1 & n' & l2 & El & Ht). pose proof (pw_chain _ _ _ W page) as Hc. pose proof (pw_nodup _ _ _ W page) as Hnd.
  pose proof (page_list_length _ _ _ page W) as Hlen. rewrite El in Hc, Hnd, Hlen. rewrite length_app in Hlen. cbn [length] in Hlen.
  assert (Hin' : (tb, n') ∈ P page) by (rewrite El; set_solver). apply (pw_elem _ _ _ W) in Hin' as [HA' Hon'].
  assert (Hgo : exists s', tb_page_remove page tb s = Ok s' /\ pchain s' (first_tb s' !! page) (l1 ++ l2) /\ same_but but_page s s' /\
      (forall q, slot (snd q) -> q ∉ P page -> page_read q s' = page_read q s) /\ tb_phys_hash s' = tb_phys_hash s /\
      forall k, k <> page -> first_tb s' !! k = first_tb s !! k).
  { unfold tb_page_remove. destruct l1 as [|a l1]; cbn [app] in Hc; inversion Hc as [|? p ? Hs Hr Hc1 Ef]; subst.
    - rewrite Nat.eqb_refl. unfold page_read in Hr. cbn [fst snd] in Hr. unfold tb_at. destruct (tbs s !! tb) as [bt|] eqn:Hbt; [|done].
      cbn in Hr. injection Hr as Hr. cbn [rbind]. eexists. split; [reflexivity|]. cbn [first_tb set_first_tb tb_phys_hash]. rewrite ptr_to_lookup, Hr.
      split; [by eapply pchain_frame|]. split; [by split|]. split; [done|]. split; [done|]. intros k Hk. by apply ptr_to_other.
    - destruct a as [i k]. cbn [fmap list_fmap fst] in Ht. apply not_elem_of_cons in Ht as [Hit Ht]. rewrite (proj2 (Nat.eqb_neq i tb)) by congruence.
      cbn [length] in Hlen. destruct (page_remove_ok tb n' l2 l1 s (i, k) (2 * nb_tbs s)) as (s' & E & Hc' & Hs' & Ho & Hh & Hf);
        [by apply (pchain_cons _ (i, k) p)|done|done|lia|].
      exists s'. split; [exact E|]. rewrite Hf, <- Ef. split; [exact Hc'|]. split; [done|]. split; [|done].
      intros q Hq Hn. apply Ho; [done|]. intros Hq'. apply Hn. rewrite El. set_solver. }
  destruct Hgo as (s' & E & Hc' & Hs' & Ho & Hh & Hf). exists n', s', (fun k => if decide (k = page) then l1 ++ l2 else P k).
  assert (Hnd' : NoDup (l1 ++ l2) /\ (tb, n') ∉ l1 ++ l2).
  { apply NoDup_app in Hnd as (H1 & H2 & H3). apply NoDup_cons in H3 as [H3 H4]. split.
    - apply NoDup_app. split; [done|]. split; [|done]. intros x Hx Hx'. apply (H2 x Hx). by right.
    - intros [Hx|Hx]%elem_of_app; [|done]. apply (H2 _ Hx). left. }
  split; [exact E|]. split; [done|]. split; [done|]. split; [split|done].
  - intros k. destruct (decide (k = page)) as [->|Hk]; [exact Hc'|]. rewrite Hf by done. eapply pchain_frame; [apply (pw_chain _ _ _ W)|].
    intros q Hq. apply (pw_elem _ _ _ W) in Hq as (_ & Hsl & b & Hb & Hpg). apply Ho; [done|].
    intros (_ & _ & b' & Hb' & Hpg')%(pw_elem _ _ _ W). congruence.
  - intros k. case_decide; [apply Hnd'|apply W].
  - intros k p. rewrite (on_page_same s s') by done. destruct (decide (k = page)) as [->|Hk].
    + assert (Hp : p ∈ l1 ++ l2 <-> p ∈ P page /\ p <> (tb, n')).
      { rewrite El, !elem_of_app, elem_of_cons. split.
        - intros Hp. split; [tauto|]. intros ->. apply (proj2 Hnd'). apply elem_of_app. done.
        - tauto. }
      rewrite Hp, (pw_elem _ _ _ W). tauto.
    + rewrite (pw_elem _ _ _ W). split; [|tauto]. intros [H1 H2]. split; [|done]. split; [done|]. intros ->.
      destruct H2 as (_ & b & Hb & Hpg), Hon' as (_ & b' & Hb' & Hpg'). congruence.
Qed.

(** ** Direct jumps *)

Lemma update_comm i f j g s : (forall b, f (g b) = g (f b)) -> tb_update i f (tb_update j g s) = tb_update j g (tb_update i f s).
Proof.
  intros Hc. unfold tb_update. cbn [tbs set_tbs].
  assert (E : alter f i (alter g j (tbs s)) = alter g j (alter f i (tbs s))).
  { apply list_eq. intros k. rewrite !list_lookup_alter. repeat case_decide; subst; try done. destruct (tbs s !! _); [|done]. cbn. by rewrite Hc. }
  by rewrite E.
Qed.
Lemma write_reset p v i n s : jmp_write p v (tb_reset_jump i n s) = tb_reset_jump i n (jmp_write p v s).
Proof. destruct p as [j k]. apply update_comm. intros b. by destruct (k =? 2). Qed.

Lemma find_reset fuel p a i n s : jmp_find fuel p a (tb_reset_jump i n s) = jmp_find fuel p a s.
Proof.
  revert a. induction fuel as [|fuel IH]; intros a; [done|]. cbn [jmp_find]. unfold tb_reset_jump. rewrite read_set.
  destruct (jmp_read a s) as [[q|]| |]; cbn [rbind]; try done. case_decide; [done|]. apply IH.
Qed.

Lemma read_reset p i n s : jmp_read p (tb_reset_jump i n s) = jmp_read p s.
Proof. apply read_set. Qed.

(** Taking a jump of [tb] out of its list does not depend on where the code
    still jumps to. *)
Lemma jmp_remove_ghost tb n k s r : tb_jmp_remove tb n (tb_reset_jump tb k s) = Ok r -> exists s', tb_jmp_remove tb n s = Ok s' /\ r = tb_reset_jump tb k s'.
Proof.
  unfold tb_jmp_remove. rewrite read_reset. destruct (jmp_read (tb, n) s) as [[q|]| |]; cbn [rbind]; try done.
  - assert (jmp_fuel (tb_reset_jump tb k s) = jmp_fuel s) as -> by (unfold jmp_fuel, tb_reset_jump; by rewrite nb_update). rewrite find_reset.
    destruct (jmp_find _ _ _ s) as [p| |]; cbn [rbind]; try done. intros E.
    assert (r = jmp_write (tb, n) None (jmp_write p (Some q) (tb_reset_jump tb k s))) as -> by congruence.
    eexists. split; [reflexivity|]. by rewrite !write_reset.
  - intros [= <-]. by exists s.
Qed.

Lemma tb_jmp_remove_ok live s L tb n : jmp_wf live s L -> live tb -> slot n ->
  exists s' L', tb_jmp_remove tb n s = Ok s' /\ jmp_wf live (tb_reset_jump tb n s') L' /\ same_blocks s s' /\ forall j k, link s' j k = link s j k.
Proof.
  intros W Ht Hn. pose proof (jw_live _ _ _ W tb Ht) as Hb. destruct (read_total (tb, n) s Hb) as [q Hq]. unfold tb_jmp_remove.
  destruct (link s tb n) as [t|] eqn:Hl.
  - destruct (unlink_places live s L W tb n t Ht Hn Hl) as (A & B & r & Htt & EL & Hr & _ & _ & Hf).
    rewrite Hr. cbn [rbind]. rewrite Hf. cbn [rbind]. do 2 eexists. split; [reflexivity|]. split; [by eapply unlink_wf|].
    split; [etransitivity; apply same_blocks_write|]. intros j k. by rewrite !link_write.
  - pose proof (proj2 (jw_next _ _ _ W tb n q Ht Hn Hq) Hl) as ->. rewrite Hq. cbn [rbind]. exists s, L. split; [done|]. split; [|done].
    apply (jmp_wf_ext live s); [intros p; apply read_set| |apply nb_update|done]. intros i k. unfold tb_reset_jump, link. rewrite lookup_update.
    case_decide; [subst i|done]. unfold link in Hl. destruct (tbs s !! tb) as [b|]; [|done]. cbn in Hl |- *.
    unfold pick, put in *. destruct Hn as [-> | ->]; cbn in Hl |- *; (destruct (k =? 0); cbn; congruence).
Qed.

Lemma reset_jumps_ok tb l : forall s p fuel, jchain s p l tb -> NoDup l -> (forall q, q ∈ l -> (fst q < nb_tbs s)%nat) -> (length l < fuel)%nat ->
  exists s', reset_jumps_to fuel p s = Ok s' /\ same_blocks s s' /\
    (forall q, place q -> jmp_read q s' = if decide (q ∈ l) then Ok None else jmp_read q s) /\
    (forall j k, slot k -> link s' j k = if decide ((j, k) ∈ l) then None else link s j k).
Proof.
  induction l as [|q l IH]; intros s p fuel Hc Hnd Hb Hf; cbn in Hf; (destruct fuel as [|fuel]; [lia|]); inversion Hc as [|i n r ? ? Hn Hr Hc1]; subst.
  - cbn. exists s. split; [done|]. split; [done|]. split; intros; by rewrite decide_False by apply not_elem_of_nil.
  - apply NoDup_cons in Hnd as [Hq Hnd]. cbn [reset_jumps_to]. rewrite (proj2 (Z.eqb_neq n 2)) by (destruct Hn as [-> | ->]; lia). rewrite Hr. cbn [rbind].
    set (s1 := jmp_write (i, n) None (tb_reset_jump i n s)).
    assert (Hi : (i < nb_tbs s)%nat) by (apply (Hb (i, n)); left). assert (N : nb_tbs s1 = nb_tbs s) by (unfold s1, tb_reset_jump; by rewrite nb_write, nb_update).
    assert (R : forall x, place x -> jmp_read x s1 = if decide (x = (i, n)) then Ok None else jmp_read x s).
    { intros x Hx. unfold s1, tb_reset_jump. rewrite read_write, read_set; [done|by left|done|by rewrite nb_update]. }
    assert (K : forall j k, slot k -> link s1 j k = if decide ((j, k) = (i, n)) then None else link s j k).
    { intros j k Hk. unfold s1, tb_reset_jump. rewrite link_write. by rewrite link_set. }
    assert (Hc1' : jchain s1 r l tb).
    { assert (Hsl : forall x, x ∈ l -> place x).
      { intros x Hx. apply list_elem_of_split in Hx as (l1 & l2 & ->). left. by apply (jchain_split _ _ _ _ _ _ Hc1). }
      eapply jchain_frame; [exact Hc1|]. intros x Hx. rewrite R by auto. rewrite decide_False; [done|]. by intros ->. }
    destruct (IH s1 r fuel Hc1' Hnd) as (s' & E & Hs & R' & K'); [intros x Hx; rewrite N; apply Hb; by right|lia|].
    exists s'. split; [exact E|]. split; [etransitivity; [|exact Hs]; etransitivity; [apply same_blocks_link|apply same_blocks_write]|]. split.
    + intros x Hx. rewrite R', R by done. repeat case_decide; set_solver.
    + intros j k Hk. rewrite K', K by done. repeat case_decide; set_solver.
Qed.

Lemma link_reset s i n j k : slot n -> slot k -> (i < nb_tbs s)%nat ->
  link (tb_reset_jump i n s) j k = if decide ((j, k) = (i, n)) then None else link s j k.
Proof. apply link_set. Qed.

(** The end of [tb_phys_invalidate]: jumps of the block and jumps to it. *)
Definition remove_jumps (tb : nat) (s : tb_state) : res tb_state :=
  let! s := tb_jmp_remove tb 0 s in
  let! s := tb_jmp_remove tb 1 s in
  let! first := jmp_read (tb, 2) s in
  let! s := reset_jumps_to (jmp_fuel s) first s in
  Ok (jmp_write (tb, 2) (Some (tb, 2)) s).

(** Without the jumps of [tb] itself, the lists are those of [G]. *)
Lemma own_jumps_removed live s L tb : jmp_wf live s L -> live tb ->
  exists s2 L2, (let! s := tb_jmp_remove tb 0 s in tb_jmp_remove tb 1 s) = Ok s2 /\ same_blocks s s2 /\
    (forall j k, link s2 j k = link s j k) /\ jmp_wf live (tb_reset_jump tb 1 (tb_reset_jump tb 0 s2)) L2.
Proof.
  intros W Ht. destruct (tb_jmp_remove_ok live s L tb 0 W Ht ltac:(by left)) as (s1 & L1 & -> & W1 & S1 & K1). cbn [rbind].
  destruct (tb_jmp_remove_ok live _ L1 tb 1 W1 Ht ltac:(by right)) as (r & L2 & E & W2 & S2 & K2).
  destruct (jmp_remove_ghost _ _ _ _ _ E) as (s2 & E2 & ->). exists s2, L2. split; [exact E2|].
  assert (Hss : same_blocks s1 s2 /\ forall j k, link s2 j k = link s1 j k).
  { unfold tb_jmp_remove in E2. destruct (jmp_read (tb, 1) s1) as [[q|]| |]; cbn [rbind] in E2; try done.
    - destruct (jmp_find _ _ _ s1) as [p| |]; cbn [rbind] in E2; try done.
      assert (s2 = jmp_write (tb, 1) None (jmp_write p (Some q) s1)) as -> by congruence.
      split; [etransitivity; apply same_blocks_write|]. intros j k. by rewrite !link_write.
    - by injection E2 as <-. }
  destruct Hss as [S3 K3]. split; [by etransitivity|]. split; [|done]. intros j k. by rewrite K3, K1.
Qed.

Lemma remove_jumps_ok live s L tb : jmp_wf live s L -> live tb ->
  exists s' L', remove_jumps tb s = Ok s' /\ jmp_wf (without_tb live tb) s' L' /\ same_blocks s s' /\
    forall j k, live j -> j <> tb -> slot k -> link s' j k = if decide (link s j k = Some tb) then None else link s j k.
Proof.
  intros W Ht. destruct (own_jumps_removed live s L tb W Ht) as (s2 & L2 & E2 & S2 & K2 & W2). unfold remove_jumps.
  destruct (tb_jmp_remove tb 0 s) as [s1| |]; cbn [rbind] in E2 |- *; try done. rewrite E2. cbn [rbind]. clear E2 s1.
  set (G := tb_reset_jump tb 1 (tb_reset_jump tb 0 s2)) in *.
  assert (RG : forall p, jmp_read p G = jmp_read p s2) by (intros p; unfold G; by rewrite !read_reset).
  assert (NG : nb_tbs G = nb_tbs s2) by (unfold G, tb_reset_jump; by rewrite !nb_update).
  assert (Hb : (tb < nb_tbs s2)%nat) by (rewrite <- NG; by apply (jw_live _ _ _ W2)).
  assert (KG : forall j k, slot k -> link G j k = if decide (j = tb) then None else link s j k).
  { intros j k Hk. unfold G. rewrite !link_reset, K2 by (unfold tb_reset_jump; rewrite ?nb_update; (done || (by left) || (by right))).
    destruct (decide (j = tb)) as [->|]; [|by rewrite !decide_False by congruence]. destruct Hk as [-> | ->]; by repeat case_decide. }
  destruct (jw_chain _ _ _ W2 tb Ht) as (p & Hp & Hc). rewrite RG in Hp. rewrite Hp. cbn [rbind].
  assert (Hel : forall j k, slot k -> (j, k) ∈ L2 tb <-> live j /\ j <> tb /\ link s j k = Some tb).
  { intros j k Hk. rewrite (jw_elem _ _ _ W2) by done. rewrite (KG j k Hk). case_decide; intuition congruence. }
  assert (Hin : forall q, q ∈ L2 tb -> live (fst q) /\ slot (snd q)) by (intros [j k] H; apply (jw_elem _ _ _ W2) in H; naive_solver).
  destruct (reset_jumps_ok tb (L2 tb) s2 p (jmp_fuel s2)) as (s3 & E3 & S3 & R3 & K3).
  { eapply jchain_frame; [exact Hc|]. intros q _. by rewrite RG. }
  { by apply (jw_nodup _ _ _ W2). }
  { intros q Hq. rewrite <- NG. by apply (jw_live _ _ _ W2), Hin. }
  { pose proof (list_bound _ _ _ _ W2 Ht) as Hlen. unfold jmp_fuel. rewrite NG in Hlen. lia. }
  rewrite E3. cbn [rbind]. set (s4 := jmp_write (tb, 2) (Some (tb, 2)) s3).
  pose proof S3 as (_ & N3 & _). assert (N4 : nb_tbs s4 = nb_tbs G) by (unfold s4; rewrite nb_write; congruence).
  assert (R4 : forall q, place q -> q <> (tb, 2) -> jmp_read q s4 = if decide (q ∈ L2 tb) then Ok None else jmp_read q G).
  { intros q Hq Hne. unfold s4. rewrite read_write by (done || (by right) || (cbn; congruence)). rewrite decide_False by done. by rewrite RG, R3. }
  assert (K4 : forall j k, slot k -> live j -> j <> tb -> link s4 j k = if decide (link s j k = Some tb) then None else link s j k).
  { intros j k Hk Hj Hne. unfold s4. rewrite link_write, K3, K2 by done. pose proof (Hel j k Hk). repeat case_decide; naive_solver. }
  exists s4, L2. split; [done|]. split; [|split; [|intros; by apply K4]].
  2: { etransitivity; [exact S2|]. etransitivity; [exact S3|]. apply same_blocks_write. }
  assert (Hslot : forall (i : nat) n, slot n -> (i, n) <> (tb, 2)) by (intros i n Hn E; by eapply (slot_ne n)).
  split.
  - intros i [Hi _]. rewrite N4. by apply (jw_live _ _ _ W2).
  - intros t [Hl Hne]. destruct (jw_chain _ _ _ W2 t Hl) as (q & Hq & Hc'). exists q. split.
    + rewrite R4 by (by right || congruence). rewrite decide_False; [done|]. intros [_ [Hx|Hx]]%Hin; done.
    + eapply jchain_frame; [exact Hc'|]. intros [i n] Hx. apply (jw_elem _ _ _ W2) in Hx as (Hi & Hn & Hlk); [|done].
      rewrite R4 by ((by left) || by apply Hslot). rewrite decide_False; [done|]. intros Hx. apply (jw_elem _ _ _ W2) in Hx as (_ & _ & Hx); [|done]. congruence.
  - intros t [Hl _]. by apply (jw_nodup _ _ _ W2).
  - intros t i n [Hl Hne]. rewrite (jw_elem _ _ _ W2) by done. unfold without_tb. split.
    + intros (Hi & Hn & Hlk). rewrite (KG i n Hn) in Hlk. case_decide as Ei; [done|]. rewrite K4 by done. split; [done|]. split; [done|].
      rewrite decide_False by congruence. done.
    + intros ([Hi Hit] & Hn & Hlk). rewrite K4 in Hlk by done. case_decide; [done|]. rewrite (KG i n Hn), decide_False by done. done.
  - intros i n q [Hi Hit] Hn Hq. rewrite R4 in Hq by ((by left) || by apply Hslot). rewrite K4 by done. pose proof (Hel i n Hn) as He.
    destruct (decide ((i, n) ∈ L2 tb)) as [Hx|Hx].
    + injection Hq as <-. rewrite decide_True by (by apply He). done.
    + rewrite decide_False by (intros E; apply Hx, He; done). rewrite (jw_next _ _ _ W2 i n q Hi Hn Hq), (KG i n Hn). by rewrite decide_False.
  - intros i n t [Hi Hit] Hn Hlk. rewrite K4 in Hlk by done. case_decide as Ex; [done|]. split; [|congruence].
    apply (jw_target _ _ _ W2 i n); [done|done|]. rewrite (KG i n Hn). by rewrite decide_False.
Qed.

(** ** All the structures *)

Definition two_pages (s : tb_state) (i : nat) : Prop := exists b, tbs s !! i = Some b /\ snd (b_page_addr b) <> NO_PAGE.
Definition enlisted (live : nat -> Prop) (s : tb_state) (p : jptr) : Prop := live (fst p) /\ (snd p = 1 -> two_pages s (fst p)).
Definition cache_wf (live : nat -> Prop) (s : tb_state) : Prop :=
  forall h i, tb_jmp_cache s !! h = Some i -> live i /\ exists b, tbs s !! i = Some b /\ tb_jmp_cache_hash_func (b_pc b) = h.

Record tb_wf (live : nat -> Prop) (s : tb_state) : Prop := {
  tw_jmp : exists L, jmp_wf live s L;
  tw_hash : exists H, hash_wf live s H;
  tw_page : exists P, page_wf (enlisted live s) s P;
  tw_cache : cache_wf live s }.

Section But.
Context (forget : TranslationBlock -> TranslationBlock) (s s' : tb_state) (Hs : same_but forget s s').

Lemma hash_wf_but live H :
  (forall b, b_phys_hash_next (forget b) = b_phys_hash_next b) -> (forall b, b_phys_pc (forget b) = b_phys_pc b) ->
  tb_phys_hash s' = tb_phys_hash s -> hash_wf live s H -> hash_wf live s' H.
Proof.
  intros F1 F2 Hh W. split.
  - intros h. rewrite Hh. eapply hchain_frame; [apply W|]. intros i _. by eapply same_but_field.
  - apply W.
  - intros h i. rewrite (hw_elem _ _ _ W). unfold in_bucket.
    by rewrite (same_but_block forget (fun b => tb_phys_hash_func (b_phys_pc b) = h) s s' i) by (done || (intros b; cbn beta; by rewrite F2)).
Qed.

Lemma on_page_but p page : (forall b, b_page_addr (forget b) = b_page_addr b) -> on_page s' p page <-> on_page s p page.
Proof.
  intros Hf. unfold on_page.
  by rewrite (same_but_block forget (fun b => Z.shiftr (pick (snd p) (b_page_addr b)) TARGET_PAGE_BITS = page) s s') by (done || (intros b; cbn beta; by rewrite Hf)).
Qed.
Lemma two_pages_but i : (forall b, b_page_addr (forget b) = b_page_addr b) -> two_pages s' i <-> two_pages s i.
Proof.
  intros Hf. unfold two_pages.
  by rewrite (same_but_block forget (fun b => snd (b_page_addr b) <> NO_PAGE) s s') by (done || (intros b; cbn beta; by rewrite Hf)).
Qed.

Lemma page_wf_but A P :
  (forall b, b_page_next (forget b) = b_page_next b) -> (forall b, b_page_addr (forget b) = b_page_addr b) ->
  first_tb s' = first_tb s -> page_wf A s P -> page_wf A s' P.
Proof.
  intros F1 F2 Hh W. split.
  - intros pg. rewrite Hh. eapply pchain_frame; [apply W|]. intros q _. unfold page_read.
    apply (same_but_field forget (fun b => pick (snd q) (b_page_next b))); [|done]. intros b. cbn beta. by rewrite F1.
  - apply W.
  - intros pg p. rewrite (pw_elem _ _ _ W). by rewrite on_page_but.
Qed.

Lemma cache_wf_but live : (forall b, b_pc (forget b) = b_pc b) -> cache_wf live s -> cache_wf live s'.
Proof.
  intros Hf C h i Hi. pose proof Hs as (_ & _ & Hc). rewrite Hc in Hi. destruct (C h i Hi) as [Hl Hb]. split; [done|].
  by rewrite (same_but_block forget (fun b => tb_jmp_cache_hash_func (b_pc b) = h) s s' i) by (done || (intros b; cbn beta; by rewrite Hf)).
Qed.
End But.

Lemma page_wf_iff (A A' : jptr -> Prop) s P : (forall p page, on_page s p page -> A p <-> A' p) -> page_wf A s P -> page_wf A' s P.
Proof. intros HA W. split; [apply W|apply W|]. intros pg p. rewrite (pw_elem _ _ _ W). split; intros [H1 H2]; (split; [|done]); by eapply HA. Qed.

(** Both places of the block leave the lists of its pages. *)
Definition remove_pages (tb : nat) (b : TranslationBlock) (s : tb_state) : res tb_state :=
  let! s := tb_page_remove (Z.shiftr (fst (b_page_addr b)) TARGET_PAGE_BITS) tb s in
  if snd (b_page_addr b) =? NO_PAGE then Ok s else tb_page_remove (Z.shiftr (snd (b_page_addr b)) TARGET_PAGE_BITS) tb s.

Lemma remove_pages_ok live s P tb b : page_wf (enlisted live s) s P -> live tb -> tbs s !! tb = Some b ->
  exists s' P', remove_pages tb b s = Ok s' /\ page_wf (enlisted (without_tb live tb) s') s' P' /\ same_but but_page s s' /\ tb_phys_hash s' = tb_phys_hash s.
Proof.
  intros W Ht Hb. unfold remove_pages.
  assert (Hon : forall n, slot n -> on_page s (tb, n) (Z.shiftr (pick n (b_page_addr b)) TARGET_PAGE_BITS)) by (intros n Hn; split; [done|by exists b]).
  assert (Hof : forall n page, on_page s (tb, n) page -> slot n /\ page = Z.shiftr (pick n (b_page_addr b)) TARGET_PAGE_BITS).
  { intros n page (Hn & b' & Hb' & <-). split; [done|]. cbn [fst snd] in *. congruence. }
  assert (Htwo : two_pages s tb <-> snd (b_page_addr b) <> NO_PAGE) by (unfold two_pages; split; [intros (b' & Hb' & Hx); by assert (b' = b) as <- by congruence|by exists b]).
  destruct (tb_page_remove_ok _ _ _ tb 0 (Z.shiftr (fst (b_page_addr b)) TARGET_PAGE_BITS) W) as (n1 & s1 & P1 & E1 & A1 & O1 & W1 & S1 & H1).
  { by split. } { apply (Hon 0). by left. }
  rewrite E1. cbn [rbind]. destruct (Hof _ _ O1) as [Hn1 Hpg1].
  assert (Hen : forall s' p, same_but but_page s s' -> enlisted (without_tb live tb) s' p <-> enlisted live s p /\ fst p <> tb).
  { intros s' p Hs. unfold enlisted, without_tb. rewrite (two_pages_but but_page s s') by done. tauto. }
  destruct (Z.eqb_spec (snd (b_page_addr b)) NO_PAGE) as [E|E].
  - exists s1, P1. split; [done|]. split; [|done]. eapply page_wf_iff; [|exact W1]. intros [i n] pg Ho. rewrite Hen by done. cbn [fst].
    assert (n1 = 0) as -> by (destruct Hn1 as [?| ->]; [done|]; exfalso; apply Htwo; [apply A1; done|done]).
    apply (on_page_but but_page s s1) in Ho as [Hn _]; [|done..]. cbn [snd] in Hn. split; intros [HA Hne]; (split; [done|]); [|congruence].
    intros ->. destruct Hn as [-> | ->]; [done|]. apply Htwo; [apply HA; done|done].
  - set (n2 := if decide (n1 = 0) then 1 else 0).
    assert (Hn2 : slot n2 /\ n2 <> n1) by (unfold n2, slot; destruct Hn1 as [-> | ->]; case_decide; lia).
    destruct (tb_page_remove_ok _ _ _ tb n2 (Z.shiftr (snd (b_page_addr b)) TARGET_PAGE_BITS) W1) as (n3 & s2 & P2 & E2 & A2 & O2 & W2 & S2 & H2).
    { split; [split; [done|intros _; by apply Htwo]|]. intros [= Hx]. by apply Hn2. }
    { apply (on_page_but but_page s s1); [done|done|]. unfold n2. destruct Hn1 as [-> | ->]; cbn.
      - apply (Hon 1). by right.
      - split; [by left|]. exists b. split; [done|]. exact Hpg1. }
    exists s2, P2. split; [exact E2|]. split; [|split; [by etransitivity|congruence]]. eapply page_wf_iff; [|exact W2]. intros [i n] pg Ho.
    assert (S12 : same_but but_page s s2) by (by etransitivity). rewrite Hen by done. cbn [fst].
    apply (on_page_but but_page s s2) in Ho as [Hn _]; [|done..]. cbn [snd] in Hn.
    assert (Hn3 : slot n3 /\ n3 <> n1).
    { apply (on_page_but but_page s s1) in O2 as [Hn3 _]; [|done..]. split; [done|]. destruct A2 as [_ Hx]. congruence. }
    destruct Hn3 as [Hn3 Hne3]. split; [intros [[HA Hne1] Hne2]|intros [HA Hne]; split; [split; [done|congruence]|congruence]]. split; [done|]. intros ->.
    destruct Hn as [-> | ->], Hn1 as [-> | ->], Hn3 as [-> | ->]; done.
Qed.

(** ** Invalidation *)

Lemma same_blocks_but s s' : same_blocks s s' -> same_but strip s s'.
Proof. intros (A & B & _ & C & _). by split. Qed.

(** What a block is, apart from the lists it is in. *)
Definition identity (b : TranslationBlock) := (b_pc b, b_cs_base b, b_flags b, b_size b, b_code b, b_page_addr b).

Lemma invalidate_steps tb b s : tbs s !! tb = Some b -> fst (b_page_addr b) <> NO_PAGE ->
  tb_phys_invalidate tb NO_PAGE s =
    (let! s := tb_remove (tb_phys_hash_func (b_phys_pc b)) tb s in
     let! s := remove_pages tb b s in
     let s := set_invalidated_flag true s in
     let h := tb_jmp_cache_hash_func (b_pc b) in
     let s := if decide (tb_jmp_cache s !! h = Some tb) then set_jmp_cache (delete h (tb_jmp_cache s)) s else s in
     let! s := remove_jumps tb s in
     Ok (mkTbs (tbs s) (tb_phys_hash s) (tb_jmp_cache s) (first_tb s) (code_gen_ptr s) (tb_invalidated_flag s) (tb_flush_count s)
           (s32 (tb_phys_invalidate_count s + 1)))).
Proof.
  intros Hb Hp. unfold tb_phys_invalidate, tb_at, remove_pages, remove_jumps. rewrite Hb. cbn [rbind]. cbn zeta. fold (b_phys_pc b).
  destruct (tb_remove _ tb s) as [s1| |]; cbn [rbind]; try done. rewrite (proj2 (Z.eqb_neq _ _) Hp).
  destruct (tb_page_remove _ tb s1) as [s2| |]; cbn [rbind]; try done. rewrite orb_diag.
  destruct (if snd (b_page_addr b) =? NO_PAGE then _ else _) as [s3| |]; cbn [rbind]; try done.
  set (s4 := if decide _ then _ else _). destruct (tb_jmp_remove tb 0 s4) as [s5| |]; cbn [rbind]; try done.
  destruct (tb_jmp_remove tb 1 s5) as [s6| |]; cbn [rbind]; try done. destruct (jmp_read (tb, 2) s6) as [f| |]; cbn [rbind]; try done.
  destruct (reset_jumps_to _ f s6) as [s7| |]; cbn [rbind]; done.
Qed.

(** The entry of the jump cache goes. *)
Lemma cache_removed live s tb b (h := tb_jmp_cache_hash_func (b_pc b)) : tbs s !! tb = Some b -> cache_wf live s ->
  cache_wf (without_tb live tb) (if decide (tb_jmp_cache s !! h = Some tb) then set_jmp_cache (delete h (tb_jmp_cache s)) s else s).
Proof.
  intros Hb C k i Hi. assert (Hk : tb_jmp_cache s !! k = Some i /\ (k = h -> i <> tb)).
  { case_decide as E; cbn [tb_jmp_cache set_jmp_cache] in Hi; [|split; [done|]; intros -> ->; done].
    apply lookup_delete_Some in Hi as [Hne Hi]. split; [done|]. by intros ->. }
  destruct Hk as [Hk Hne]. destruct (C k i Hk) as [Hl (bi & Hbi & Hh)]. split; [split; [done|]|].
  - intros ->. assert (bi = b) as -> by congruence. by apply Hne.
  - exists bi. split; [|done]. by case_decide.
Qed.

(** C4: Invalidation of a block: the hash table, the lists of pages, the jump
    cache and the lists of direct jumps are walked without getting lost, and
    all of them are left as if the block had never been entered. No jump of
    another block leads to it any more, the jumps between other blocks and the
    blocks themselves are as before, and the main loop is told. *)
Theorem tb_invalidated live s tb b :
  tb_wf live s -> live tb -> tbs s !! tb = Some b -> fst (b_page_addr b) <> NO_PAGE ->
  exists s', tb_phys_invalidate tb NO_PAGE s = Ok s' /\ tb_wf (without_tb live tb) s' /\ tb_invalidated_flag s' = true /\
    (forall j k, live j -> j <> tb -> slot k -> link s' j k = if decide (link s j k = Some tb) then None else link s j k) /\
    (forall j, identity <$> tbs s' !! j = identity <$> tbs s !! j).
Proof.
  intros [[L WJ] [H WH] [P WP] C] Ht Hb Hp. rewrite (invalidate_steps tb b s Hb Hp).
  destruct (tb_remove_ok live s H tb b WH Ht Hb) as (s1 & -> & WH1 & S1 & F1). cbn [rbind].
  assert (WP1 : page_wf (enlisted live s1) s1 P).
  { apply (page_wf_iff (enlisted live s)); [|by apply (page_wf_but but_hash s)]. intros p pg _. unfold enlisted. by rewrite (two_pages_but but_hash s s1). }
  destruct (same_but_jumps but_hash s s1 ltac:(done) ltac:(done) ltac:(done) S1) as [R1 K1].
  assert (Hb1 : exists b1, tbs s1 !! tb = Some b1 /\ identity b1 = identity b).
  { apply (same_but_block but_hash (fun x => identity x = identity b) s s1); [done|done|by exists b]. }
  destruct Hb1 as (b1 & Hb1 & Ei). assert (remove_pages tb b = remove_pages tb b1) as -> by (unfold remove_pages; injection Ei; by intros -> _ _ _ _ _).
  destruct (remove_pages_ok live s1 P tb b1 WP1 Ht Hb1) as (s2 & P2 & -> & WP2 & S2 & H2). cbn [rbind]. cbn zeta.
  assert (WH2 : hash_wf (without_tb live tb) s2 (fun h => filter (.≠ tb) (H h))) by (by apply (hash_wf_but but_page s1)).
  destruct (same_but_jumps but_page s1 s2 ltac:(done) ltac:(done) ltac:(done) S2) as [R2 K2].
  assert (C2 : cache_wf live s2) by (apply (cache_wf_but but_page s1); [done|done|]; by apply (cache_wf_but but_hash s)).
  assert (Hb2 : exists b2, tbs s2 !! tb = Some b2 /\ identity b2 = identity b).
  { apply (same_but_block but_page (fun x => identity x = identity b) s1 s2); [done|done|by exists b1]. }
  destruct Hb2 as (b2 & Hb2 & Ei2). assert (Epc : b_pc b = b_pc b2) by (injection Ei2; congruence). rewrite Epc.
  pose proof (cache_removed live (set_invalidated_flag true s2) tb b2 Hb2 C2) as C3.
  set (s3 := if decide _ then _ else _) in *. assert (E3 : tbs s3 = tbs s2 /\ tb_phys_hash s3 = tb_phys_hash s2 /\ first_tb s3 = first_tb s2 /\ tb_invalidated_flag s3 = true)
    by (unfold s3; by case_decide). destruct E3 as (T3 & P3 & F3 & Fl3). clearbody s3.
  assert (WJ3 : jmp_wf live s3 L).
  { apply (jmp_wf_other live s2); [done|]. apply (jmp_wf_ext live s); [intros p; by rewrite R2|intros i n; by rewrite K2|destruct S1 as (_ & ? & _), S2 as (_ & ? & _); congruence|done]. }
  destruct (remove_jumps_ok live s3 L tb WJ3 Ht) as (s4 & L4 & -> & WJ4 & S4 & K4). cbn [rbind]. eexists. split; [reflexivity|].
  pose proof (same_blocks_but _ _ S4) as S4'. pose proof S4 as (_ & _ & H4 & _ & F4 & _ & Fl4).
  split; [split|split; [|split]]; cbn [tb_invalidated_flag].
  - exists L4. by apply (jmp_wf_other _ s4).
  - exists (fun h => filter (.≠ tb) (H h)). apply (hash_wf_other _ s4); [done|done|]. apply (hash_wf_but strip s3); try done.
    by apply (hash_wf_other _ s2).
  - exists P2. assert (WP3 : page_wf (enlisted (without_tb live tb) s3) s3 P2).
    { split; [intros pg; rewrite F3; eapply pchain_frame; [apply WP2|intros q _; unfold page_read; by rewrite T3]|apply WP2|].
      intros pg p. rewrite (pw_elem _ _ _ WP2). unfold enlisted, on_page, two_pages. by rewrite T3. }
    apply (page_wf_but id s4); [done..|]. apply (page_wf_iff (enlisted (without_tb live tb) s3)); [|by apply (page_wf_but strip s3)].
    intros p pg _. change (enlisted (without_tb live tb) s3 p <-> enlisted (without_tb live tb) s4 p). unfold enlisted.
    by rewrite (two_pages_but strip s3 s4).
  - change (cache_wf (without_tb live tb) s4). by apply (cache_wf_but strip s3).
  - congruence.
  - intros j k Hj Hne Hk. change (link s4 j k = (if decide (link s j k = Some tb) then None else link s j k)). rewrite K4 by done.
    assert (link s3 j k = link s j k) as -> by (rewrite <- K1, <- K2; unfold link; by rewrite T3). done.
  - intros j. change (identity <$> tbs s4 !! j = identity <$> tbs s !! j). rewrite (same_but_field strip identity s3 s4) by done. rewrite T3.
    rewrite (same_but_field but_page identity s1 s2) by done. by rewrite (same_but_field but_hash identity s s1).
Qed.

(** ** Entering a block *)

Lemma tb_wf_jumps live s s' : tb_wf live s -> same_blocks s s' -> (exists L, jmp_wf live s' L) -> tb_wf live s'.
Proof.
  intros [_ [H WH] [P WP] C] Hs HL. pose proof (same_blocks_but _ _ Hs) as Hb. pose proof Hs as (_ & _ & Hh & _ & Hf & _). split; [done|..].
  - exists H. by eapply hash_wf_same.
  - exists P. apply (page_wf_iff (enlisted live s)); [|by apply (page_wf_but strip s)]. intros p pg _. unfold enlisted. by rewrite (two_pages_but strip s s').
  - by apply (cache_wf_but strip s).
Qed.

Lemma tb_alloc_page_wf A s P tb n page_addr (page := Z.shiftr page_addr TARGET_PAGE_BITS) :
  page_wf A s P -> ~ A (tb, n) -> slot n -> (tb < nb_tbs s)%nat ->
  page_wf (fun p => A p \/ p = (tb, n)) (tb_alloc_page tb n page_addr s) (fun k => if decide (k = page) then (tb, n) :: P page else P k).
Proof.
  intros W HA Hn Ht. destruct (lookup_lt_is_Some_2 (tbs s) tb Ht) as [b Hb]. unfold tb_alloc_page. cbn zeta. fold page.
  set (s1 := tb_update tb _ s).
  assert (R : forall q, slot (snd q) -> page_read q s1 = if decide (q = (tb, n)) then Some (first_tb s !! page) else page_read q s).
  { intros [i k] Hk. unfold page_read, s1. cbn [fst snd] in *. rewrite lookup_update. destruct (decide (i = tb)) as [->|]; [|by rewrite decide_False by congruence].
    rewrite Hb. cbn. rewrite pick_put by done. destruct (decide (k = n)) as [->|]; [by rewrite decide_True|by rewrite decide_False by congruence]. }
  assert (O : forall p k, on_page s1 p k <-> (if decide (p = (tb, n)) then k = page else on_page s p k)).
  { intros [i m] k. unfold on_page, s1. cbn [fst snd]. rewrite lookup_update. destruct (decide (i = tb)) as [->|Hi].
    2: { by rewrite decide_False by congruence. }
    rewrite Hb. cbn [fmap option_fmap option_map]. destruct (decide ((tb, m) = (tb, n))) as [E|E].
    - injection E as ->. split; [|by intros ->; split; [done|]; eexists; split; [reflexivity|]; cbn; rewrite pick_put by done; by rewrite decide_True].
      intros (_ & b' & [= <-] & <-). cbn. rewrite pick_put by done. by rewrite decide_True.
    - split; intros (Hm & b' & [= <-] & Hpg); (split; [done|]; eexists; split; [reflexivity|]); cbn in *; rewrite pick_put in *; try done;
        rewrite decide_False in * by congruence; done. }
  assert (Hno : forall k, (tb, n) ∉ P k) by (intros k [Hx _]%(pw_elem _ _ _ W); done).
  assert (Hsl : forall k q, q ∈ P k -> slot (snd q)) by (by intros k q (_ & Hq & _)%(pw_elem _ _ _ W)).
  assert (Hfr : forall k, pchain s1 (first_tb s !! k) (P k)).
  { intros k. eapply pchain_frame; [apply (pw_chain _ _ _ W)|]. intros q Hq. rewrite R by (by eapply Hsl). rewrite decide_False; [done|]. intros ->. by eapply Hno. }
  split.
  - intros k. apply (pchain_frame s1); [|done]. cbn [first_tb set_first_tb].
    destruct (decide (k = page)) as [->|Hk]; [rewrite lookup_insert_eq|rewrite lookup_insert_ne by done; apply Hfr].
    apply (pchain_cons _ (tb, n) (first_tb s !! page)); [done|rewrite R by done; by rewrite decide_True|apply Hfr].
  - intros k. case_decide; [apply NoDup_cons; split; [apply Hno|apply W]|apply W].
  - intros k p. change (on_page (set_first_tb _ s1) p k) with (on_page s1 p k). rewrite O. destruct (decide (k = page)) as [->|Hk].
    + rewrite elem_of_cons, (pw_elem _ _ _ W). destruct (decide (p = (tb, n))) as [->|]; [tauto|]. naive_solver.
    + rewrite (pw_elem _ _ _ W). destruct (decide (p = (tb, n))) as [->|]; naive_solver.
Qed.

Definition with_tb (live : nat -> Prop) (tb : nat) (i : nat) : Prop := live i \/ i = tb.

(** The array with one more block; the lists do not know it yet. *)
Lemma page_wf_more live s b P : (forall i, live i -> (i < nb_tbs s)%nat) -> page_wf (enlisted live s) s P ->
  page_wf (fun p => enlisted live s p) (set_tbs (tbs s ++ [b]) s) P.
Proof.
  intros Hl W. assert (Ho : forall i, live i -> (tbs s ++ [b]) !! i = tbs s !! i) by (intros i Hi; apply lookup_app_l; by apply Hl).
  split; [|apply W|].
  - intros k. eapply pchain_frame; [apply (pw_chain _ _ _ W)|]. intros q [[Hq _] _]%(pw_elem _ _ _ W). unfold page_read. cbn. by rewrite Ho.
  - intros k p. rewrite (pw_elem _ _ _ W). split; intros [Hp Hpg]; (split; [done|]); unfold on_page in *; cbn [tbs set_tbs] in *; rewrite Ho in *; try apply Hp; done.
Qed.

Lemma page_wf_same A s s' P : page_wf A s P -> same_but (fun b => but_hash (strip b)) s s' -> first_tb s' = first_tb s -> page_wf A s' P.
Proof. intros W Hs Hf. by apply (page_wf_but (fun b => but_hash (strip b)) s). Qed.

Lemma page_and_offset x : page_of x + page_offset x = x.
Proof. rewrite page_offset_mod, page_of_mod. lia. Qed.

Lemma page_wf_addr A s P tb v : page_wf A s P -> ~ A (tb, 1) -> page_wf A (tb_update tb (set_page_addr 1 v) s) P.
Proof.
  intros W HA. assert (R : forall q, page_read q (tb_update tb (set_page_addr 1 v) s) = page_read q s).
  { intros [i n]. unfold page_read. cbn [fst snd]. rewrite lookup_update. destruct (decide (i = tb)) as [->|]; [|done]. by destruct (tbs s !! tb). }
  split; [|apply W|].
  - intros k. eapply pchain_frame; [apply (pw_chain _ _ _ W)|]. intros q _. apply R.
  - intros k [i n]. rewrite (pw_elem _ _ _ W). unfold on_page. cbn [fst snd]. rewrite lookup_update. destruct (decide (i = tb)) as [->|]; [|done].
    split; intros (Hp & Hn & b & Hb & Hpg); (split; [done|]; split; [done|]);
      (destruct Hn as [-> | ->]; [|done]); (destruct (tbs s !! tb) as [b0|]; [|done]); injection Hb as <-; eexists; (split; [reflexivity|done]).
Qed.

(** [tb_link_phys] enters the block that was allocated last. *)
Lemma tb_link_phys_wf live s b phys_pc phys_page2 (nb := nb_tbs s) :
  tb_wf live s -> in_u32 phys_pc -> page_offset phys_pc = page_offset (b_pc b) ->
  let s' := tb_link_phys nb phys_pc phys_page2 (set_tbs (tbs s ++ [b]) s) in
  tb_wf (with_tb live nb) s' /\ exists b', tbs s' = tbs s ++ [b'] /\ b_pc b' = b_pc b /\ b_page_addr b' = (page_of phys_pc, phys_page2) /\
    b_tb_next b' = (None, None).
Proof.
  intros [[L WJ] [H WH] [P WP] C] Hu Hoff. cbn zeta. set (h := tb_phys_hash_func phys_pc).
  destruct (tb_link_phys_new (tbs s) b phys_pc phys_page2 s) as (pn & ft & E). fold h in E. change (length (tbs s)) with nb in E.
  set (b' := linked_tb _ _ _ _ b) in E. set (s' := tb_link_phys nb phys_pc phys_page2 (set_tbs (tbs s ++ [b]) s)) in *.
  assert (Hlive : forall i, live i -> (i < nb_tbs s)%nat) by apply (jw_live _ _ _ WJ).
  assert (Ho : forall i, live i -> tbs s' !! i = tbs s !! i) by (intros i Hi; rewrite E; apply lookup_app_l; by apply Hlive).
  assert (Hlast : tbs s' !! nb = Some b') by (rewrite E; by apply list_lookup_middle).
  assert (Hpp : b_phys_pc b' = phys_pc) by (unfold b_phys_pc; cbn; rewrite <- Hoff, page_and_offset; apply uwrap_small; simpl; lia).
  assert (T : tbs s' = tbs s ++ [b']) by (by rewrite E).
  split; [|exists b'; done]. split.
  - eexists. by apply (jmp_wf_new live s s' b').
  - eexists. apply (hash_wf_new live s s' b'); [done|done| | |exact WH]; rewrite Hpp; [done|by rewrite E].
  - assert (Hnot : ~ enlisted live s (nb, 0) /\ ~ enlisted live s (nb, 1)) by (split; intros [Hx _]; apply Hlive in Hx; unfold nb in Hx; cbn in Hx; lia).
    pose proof (page_wf_more live s b P Hlive WP) as W0.
    set (s1 := set_phys_hash (<[h := nb]> (tb_phys_hash s)) (tb_update nb (set_phys_hash_next (tb_phys_hash s !! h)) (set_tbs (tbs s ++ [b]) s))).
    assert (N1 : nb_tbs s1 = S nb) by (unfold s1; change (nb_tbs (set_phys_hash ?m ?x)) with (nb_tbs x); rewrite nb_update; unfold nb_tbs; cbn; rewrite length_app; cbn; unfold nb, nb_tbs; lia).
    assert (W1 : page_wf (enlisted live s) s1 P).
    { apply (page_wf_same _ (set_tbs (tbs s ++ [b]) s)); [done| |done]. by apply (same_but_update _ nb). }
    pose proof (tb_alloc_page_wf _ s1 P nb 0 (page_of phys_pc) W1 (proj1 Hnot) ltac:(by left) ltac:(lia)) as W2. set (s2 := tb_alloc_page nb 0 (page_of phys_pc) s1) in *.
    assert (N2 : nb_tbs s2 = S nb) by (unfold s2, tb_alloc_page; change (nb_tbs (set_first_tb ?m ?x)) with (nb_tbs x); by rewrite nb_update).
    set (s3 := if phys_page2 =? NO_PAGE then tb_update nb (set_page_addr 1 NO_PAGE) s2 else tb_alloc_page nb 1 phys_page2 s2).
    assert (W3 : exists P3, page_wf (fun p => (enlisted live s p \/ p = (nb, 0)) \/ phys_page2 <> NO_PAGE /\ p = (nb, 1)) s3 P3).
    { unfold s3. destruct (Z.eqb_spec phys_page2 NO_PAGE) as [Ep|Ep].
      - eexists. eapply page_wf_iff; [|apply page_wf_addr; [exact W2|]]; [intros p pg _; tauto|]. intros [Hx|Hx]; [by apply Hnot|done].
      - eexists. eapply page_wf_iff; [|apply (tb_alloc_page_wf _ s2 _ nb 1 phys_page2 W2)]; [intros p pg _; tauto| |by right|lia].
        intros [Hx|Hx]; [by apply Hnot|done]. }
    destruct W3 as [P3 W3]. exists P3.
    assert (S3 : same_blocks s3 s').
    { unfold s', tb_link_phys. cbn zeta. fold h. unfold tb_reset_jump. do 2 (etransitivity; [|apply same_blocks_link]). do 3 (etransitivity; [|apply same_blocks_write]). done. }
    assert (Ht : forall i, two_pages s' i <-> two_pages s i \/ i = nb /\ phys_page2 <> NO_PAGE).
    { intros i. unfold two_pages. rewrite T. split.
      - intros (x & [Hx|[Hi Hx]]%lookup_app_Some & Hp); [left; by exists x|right]. apply list_lookup_singleton_Some in Hx as [Hx <-]. unfold nb, nb_tbs. split; [lia|done].
      - intros [(x & Hx & Hp)|[-> Hp]]; [exists x; split; [by apply lookup_app_l_Some|done]|]. exists b'. split; [by apply list_lookup_middle|done]. }
    pose proof S3 as (_ & _ & _ & _ & F3 & _). apply (page_wf_iff (fun p => (enlisted live s p \/ p = (nb, 0)) \/ phys_page2 <> NO_PAGE /\ p = (nb, 1)));
      [|by apply (page_wf_but strip s3); [apply same_blocks_but|..]].
    intros [i n] pg [Hn _]. cbn [snd] in Hn. unfold enlisted, with_tb. cbn [fst snd]. rewrite Ht.
    assert (Hi : live i -> i <> nb) by (intros Hi ->; apply Hlive in Hi; unfold nb in Hi; lia).
    assert (H2 : ~ two_pages s nb) by (intros (x & Hx & _); apply lookup_lt_Some in Hx; unfold nb, nb_tbs in Hx; lia).
    destruct Hn as [-> | ->]; split.
    + intros [[[Hl _]|[= ->]]|[_ [=]]]; (split; [|done]); auto.
    + intros [[Hl| ->] _]; left; [left; split; [done|]|right]; done.
    + intros [[[Hl Hp]|[=]]|[Hp [= ->]]]; [split; [by left|]; intros _; left; by apply Hp|split; [by right|]; intros _; by right].
    + intros [Hl Hp]. destruct (Hp eq_refl) as [Hp'|[-> Hp']]; [|by right]. left. left. split; [|done]. destruct Hl as [Hl| ->]; [done|by apply H2 in Hp'].
  - intros k i Hi. rewrite E in Hi. destruct (C k i Hi) as [Hl Hb]. split; [by left|]. by rewrite Ho.
Qed.

(** ** Leaving the code *)

(** C30: [cpu_unlink_tb] may be asked to stop code that runs in a circle of
    blocks: unlinking ends although it follows the circle, with no more calls
    than there are jumps, and afterwards no block that was reachable from the
    current one through direct jumps has a direct jump left. Jumps are only
    reset, never redirected, and all the structures stay intact. *)
Theorem jumps_reset live s tb : tb_wf live s -> live tb ->
  exists s', tb_reset_jump_recursive (S (2 * nb_tbs s)) tb s = Ok s' /\ tb_wf live s' /\
    (forall t k, rtc (leads s) tb t -> slot k -> link s' t k = None) /\
    (forall j k, slot k -> link s' j k = None \/ link s' j k = link s j k).
Proof.
  intros Hwf Ht. destruct (tw_jmp _ _ Hwf) as [L W]. pose proof (link_count_bound s).
  destruct (tb_reset_jump_recursive_ok live (S (2 * nb_tbs s)) s L tb W Ht ltac:(lia)) as (s' & L' & E & W' & S' & U & Hc).
  exists s'. split; [exact E|]. split; [by apply (tb_wf_jumps live s); [|done|exists L']|]. split; [|apply U].
  intros t k Hr Hk. by eapply unlinked_reach.
Qed.

(** ** Two blocks *)

(** Two blocks that jump to each other; the second one begins at the end of a
    page, and the pages it is in are mapped to the same memory. *)
Definition empty_tbs : tb_state := mkTbs [] ∅ ∅ ∅ 0 false 0 0.

Lemma empty_wf : tb_wf (fun _ => False) empty_tbs.
Proof.
  split.
  - exists (fun _ => []). by split.
  - exists (fun _ => []). split; [intros h; cbn; rewrite lookup_empty; constructor|intros; apply NoDup_nil_2|]. intros h i. split; [by intros ?%not_elem_of_nil|tauto].
  - exists (fun _ => []). split; [intros h; cbn; rewrite lookup_empty; constructor|intros; apply NoDup_nil_2|].
    intros h i. split; [by intros ?%not_elem_of_nil|]. by intros [[? _] _].
  - intros h i. cbn. by rewrite lookup_empty.
Qed.

Definition two_live : nat -> Prop := with_tb (with_tb (fun _ => False) 0) 1.

Lemma circle : exists s, tb_wf two_live s /\ link s 0 0 = Some 1%nat /\ link s 1 1 = Some 0%nat /\
  exists b, tbs s !! 1%nat = Some b /\ b_page_addr b = (0x18000, 0x18000).
Proof.
  destruct (tb_link_phys_wf _ empty_tbs (new_tb 0x8000) 0x18000 NO_PAGE empty_wf ltac:(lia) ltac:(reflexivity)) as (W1 & b1 & T1 & _ & _ & N1).
  set (s1 := tb_link_phys _ _ _ _) in *. clearbody s1.
  destruct (tb_link_phys_wf _ s1 (new_tb 0x83fe) 0x183fe 0x18000 W1 ltac:(lia) ltac:(reflexivity)) as (W2 & b2 & T2 & _ & A2 & N2).
  set (s2 := tb_link_phys _ _ _ _) in *. clearbody s2. assert (Hn : nb_tbs s1 = 1%nat) by (unfold nb_tbs; by rewrite T1). rewrite Hn in W2.
  change (nb_tbs empty_tbs) with 0%nat in W2. fold two_live in W2.
  assert (Hb2 : tbs s2 !! 1%nat = Some b2) by (by rewrite T2, T1).
  destruct (tw_jmp _ _ W2) as [L J]. destruct (tb_add_jump_ok two_live s2 L 0 0 1 J) as (s3 & L3 & _ & J3 & S3 & K3); [by left; right|by right|by left|].
  destruct (tb_add_jump_ok two_live s3 L3 1 1 0 J3) as (s4 & L4 & _ & J4 & S4 & K4); [by right|by left; right|by right|].
  assert (S24 : same_blocks s2 s4) by (by etransitivity). exists s4. split; [by apply (tb_wf_jumps two_live s2); [|done|exists L4]|].
  assert (K2 : link s2 0 0 = None /\ link s2 1 1 = None) by (unfold link; rewrite T2, T1; cbn; by rewrite N1, N2). destruct K2 as [K20 K21].
  split; [|split].
  - rewrite K4, decide_False, K3, decide_True, K20 by (done || by left). done.
  - rewrite K4, decide_True, K3, decide_False, K21 by (done || by right). done.
  - apply (same_but_block strip (fun b => b_page_addr b = (0x18000, 0x18000)) s2 s4); [done|by apply same_blocks_but|]. exists b2. by rewrite A2.
Qed.

Lemma jumps_reset_witness : exists s s', link s 0 0 = Some 1%nat /\ link s 1 1 = Some 0%nat /\
  tb_reset_jump_recursive (S (2 * nb_tbs s)) 0 s = Ok s' /\ link s' 0 0 = None /\ link s' 1 1 = None.
Proof.
  destruct circle as (s & W & K0 & K1 & _). destruct (jumps_reset two_live s 0 W ltac:(by left; right)) as (s' & E & _ & R & _).
  exists s, s'. do 3 (split; [assumption|]). split; [apply R; [constructor|by left]|]. apply R; [|by right].
  apply rtc_once. exists 0. split; [by left|exact K0].
Defined.

Lemma tb_invalidated_witness : exists s s', link s 0 0 = Some 1%nat /\ tb_phys_invalidate 1 NO_PAGE s = Ok s' /\
  tb_wf (without_tb two_live 1) s' /\ link s' 0 0 = None.
Proof.
  destruct circle as (s & W & K0 & K1 & b & Hb & Hp).
  destruct (tb_invalidated two_live s 1 b W ltac:(by right) Hb ltac:(by rewrite Hp)) as (s' & E & W' & _ & K & _).
  exists s, s'. do 3 (split; [assumption|]). rewrite K; [by rewrite K0|by left; right|done|by left].
Defined.
