(* ===== verification/CpuExec.v ===== *)
(** * The main loop of the processor

    [cpu_exec] of [cpu-exec.c]: interrupts and exceptions, the lookup and the
    translation of blocks, and running them with their jumps patched. Signal
    handlers and devices act on the processor between any two steps of the
    loop. Against it stands the reference processor of [ArmArch], which fetches
    and executes one instruction after the other. *)
From stdpp Require Import list gmap relations.
From S2P Require Import Prelude GuestMem ArmCpu ArmArith Tcg ArmTranslate ArmData ArmBlock ArmArch TbCache.
#[local] Open Scope Z_scope.

Definition EXCP_INTERRUPT : Z := 0x10000.
Definition EXCP_HLT : Z := 0x10001.
Definition EXCP_HALTED : Z := 0x10003.
Definition CPU_INTERRUPT_HARD : Z := 0x02.
Definition CPU_INTERRUPT_FIQ : Z := 0x10.
Definition CPU_INTERRUPT_HALT : Z := 0x20.
Definition CPU_INTERRUPT_DEBUG : Z := 0x80.
Definition CF_COUNT_MASK : Z := 0x7fff.
Definition ARM_VFP_FPEXC : nat := 8.

(** ** What a block depends on *)

Definition cpu_get_tb_cpu_state (e : CPUARMState) : Z * Z * Z :=
  let flags := Z.lor (Z.lor (Z.lor (fld e thumb) (Z.shiftl (fld e vec_len) 1)) (Z.shiftl (fld e vec_stride) 4))
                 (Z.shiftl (fld e condexec_bits) 8) in
  let flags := if cur_mode e =? ARM_CPU_MODE_USR then flags else Z.lor flags (Z.shiftl 1 6) in
  let flags := if ctrue (Z.land (elt e vfp_xregs ARM_VFP_FPEXC) (Z.shiftl 1 30)) then Z.lor flags (Z.shiftl 1 7) else flags in
  (elt e regs 15, 0, flags).

Definition cpu_has_work (e : CPUARMState) : bool :=
  ctrue (Z.land (fld e interrupt_request) (Z.lor (Z.lor CPU_INTERRUPT_FIQ CPU_INTERRUPT_HARD) CPU_INTERRUPT_EXITTB)).

(** ** The state *)

(** Where the loop is: outside [cpu_exec], at [setjmp], at the top of the inner
    loop, behind the lookup of a block, or in the code of a block. [next_tb]
    is the block that was left last, with the jump that it was left through. *)
Inductive position :=
| Stopped (ret : Z)
| Setjmp
| Inner (next_tb : option (nat * Z))
| Found (tb : nat) (next_tb : option (nat * Z))
| Code (tb : nat).

(** [v_phys] is the translation of pages of code, as the TLB has it. *)
Record vm := mkVM {
  v_cpu : CPUARMState;
  v_halted : bool;
  v_exit_request : bool;
  v_current_tb : option nat;
  v_tb : tb_state;
  v_phys : Z -> Z;
  v_pos : position }.

Definition set_pos (p : position) (s : vm) : vm :=
  mkVM (v_cpu s) (v_halted s) (v_exit_request s) (v_current_tb s) (v_tb s) (v_phys s) p.
Definition set_cpu (e : CPUARMState) (s : vm) : vm :=
  mkVM e (v_halted s) (v_exit_request s) (v_current_tb s) (v_tb s) (v_phys s) (v_pos s).
Definition set_halted (b : bool) (s : vm) : vm :=
  mkVM (v_cpu s) b (v_exit_request s) (v_current_tb s) (v_tb s) (v_phys s) (v_pos s).
Definition set_exit_request (b : bool) (s : vm) : vm :=
  mkVM (v_cpu s) (v_halted s) b (v_current_tb s) (v_tb s) (v_phys s) (v_pos s).
Definition set_current_tb (t : option nat) (s : vm) : vm :=
  mkVM (v_cpu s) (v_halted s) (v_exit_request s) t (v_tb s) (v_phys s) (v_pos s).
Definition set_tb (t : tb_state) (s : vm) : vm :=
  mkVM (v_cpu s) (v_halted s) (v_exit_request s) (v_current_tb s) t (v_phys s) (v_pos s).

(** The machine before it starts. *)
Definition vm_init (e : CPUARMState) (phys : Z -> Z) : vm := mkVM e false false None (mkTbs [] ∅ ∅ ∅ 0 false 0 0) phys (Stopped 0).

Section Machine.
(** The bytes of the guest's memory, the instructions that are not modelled,
    when the buffer of operations is full, the size of the host code of a
    block, and the sizes of the buffer of host code. *)
Context (mem : Z -> Z) (others : unmodelled) (buffer_full : list tcg_op -> bool) (gen_code_size : list tcg_op -> Z).
Context (code_gen_buffer_size code_gen_buffer_max_size code_gen_max_blocks : Z).
(** Exceptions of the microcontroller profile, and semihosting, which is off. *)
Context (do_interrupt_v7m : CPUARMState -> res CPUARMState) (do_arm_semihosting : CPUARMState -> res (Z * CPUARMState)).
Context (singlestep : bool).

Abbreviation cpu_do_interrupt := (ArmArch.cpu_do_interrupt do_interrupt_v7m do_arm_semihosting).

(** ** Lookup and translation *)

Definition max_insns : nat := Z.to_nat CF_COUNT_MASK.
Definition cpu_gen_code (e : CPUARMState) (phys : Z -> Z) (pc : Z) : res (list tcg_op * Z) :=
  gen_intermediate_code e others (ldl_code mem phys) buffer_full false singlestep max_insns pc.

Definition tb_gen_code (e : CPUARMState) (phys : Z -> Z) (pc cs_base flags : Z) (s : tb_state) : res (nat * tb_state) :=
  let phys_pc := get_phys_addr_code phys pc in
  let alloc := tb_alloc code_gen_buffer_max_size code_gen_max_blocks pc in
  let! (tb, s) :=
    match alloc s with
    | Some r => Ok r
    | None =>
        let! s := tb_flush code_gen_buffer_size s in
        match alloc s with
        | Some (tb, s) => Ok (tb, set_invalidated_flag true s)
        | None => Undef
        end
    end in
  let! (code, size) := cpu_gen_code e phys pc in
  let s := tb_update tb (fun b => mkTB (b_pc b) cs_base flags size (code_gen_ptr s) code (b_phys_hash_next b) (b_page_next b)
                                    (b_page_addr b) (b_tb_next b) (b_jmp_next b) (b_jmp_first b)) s in
  let s := set_code_gen_ptr (Z.land (code_gen_ptr s + gen_code_size code + CODE_GEN_ALIGN - 1) (Z.lnot (CODE_GEN_ALIGN - 1))) s in
  let virt_page2 := page_of (u32 (pc + size - 1)) in
  let phys_page2 := if page_of pc =? virt_page2 then NO_PAGE else get_phys_addr_code phys virt_page2 in
  Ok (tb, tb_link_phys tb phys_pc phys_page2 s).

(** The loop of [tb_find_slow] over a bucket. *)
Fixpoint tb_search (fuel : nat) (phys : Z -> Z) (pc cs_base flags phys_page1 : Z) (ptb1 : option nat) (s : tb_state) : res (option nat) :=
  match fuel, ptb1 with
  | _, None => Ok None
  | O, _ => Undef
  | S fuel, Some tb =>
      let! b := tb_at tb s in
      let next := tb_search fuel phys pc cs_base flags phys_page1 (b_phys_hash_next b) s in
      if (b_pc b =? pc) && (fst (b_page_addr b) =? phys_page1) && (b_cs_base b =? cs_base) && (b_flags b =? flags) then
        if negb (snd (b_page_addr b) =? NO_PAGE) then
          let virt_page2 := u32 (page_of pc + TARGET_PAGE_SIZE) in
          if snd (b_page_addr b) =? get_phys_addr_code phys virt_page2 then Ok (Some tb) else next
        else Ok (Some tb)
      else next
  end.

Definition tb_find_slow (e : CPUARMState) (phys : Z -> Z) (pc cs_base flags : Z) (s : tb_state) : res (nat * tb_state) :=
  let s := set_invalidated_flag false s in
  let phys_pc := get_phys_addr_code phys pc in
  let! found := tb_search (nb_tbs s) phys pc cs_base flags (page_of phys_pc) (tb_phys_hash s !! tb_phys_hash_func phys_pc) s in
  let! (tb, s) := match found with Some tb => Ok (tb, s) | None => tb_gen_code e phys pc cs_base flags s end in
  Ok (tb, set_jmp_cache (<[tb_jmp_cache_hash_func pc := tb]> (tb_jmp_cache s)) s).

Definition tb_find_fast (e : CPUARMState) (phys : Z -> Z) (s : tb_state) : res (nat * tb_state) :=
  let '(pc, cs_base, flags) := cpu_get_tb_cpu_state e in
  match tb_jmp_cache s !! tb_jmp_cache_hash_func pc with
  | None => tb_find_slow e phys pc cs_base flags s
  | Some tb =>
      let! b := tb_at tb s in
      if negb (b_pc b =? pc) || negb (b_cs_base b =? cs_base) || negb (b_flags b =? flags)
      then tb_find_slow e phys pc cs_base flags s else Ok (tb, s)
  end.

(** ** The loop *)

(** Interrupts, at the top of the inner loop: the request that makes the loop
    stop with an exception, or the processor after the interrupts it took and
    whether the flow of the program changed. *)
Definition loop_interrupts (s : vm) : res (vm + CPUARMState * bool) :=
  let e := v_cpu s in
  let interrupt_request := fld e ArmCpu.interrupt_request in
  if negb (ctrue interrupt_request) then Ok (inr (e, false)) else
  if ctrue (Z.land interrupt_request CPU_INTERRUPT_DEBUG) then
    Ok (inl (set_pos Setjmp (set_cpu (setf exception_index EXCP_DEBUG
      (setf ArmCpu.interrupt_request (andn interrupt_request CPU_INTERRUPT_DEBUG) e)) s)))
  else if ctrue (Z.land interrupt_request CPU_INTERRUPT_HALT) then
    Ok (inl (set_pos Setjmp (set_halted true (set_cpu (setf exception_index EXCP_HLT
      (setf ArmCpu.interrupt_request (andn interrupt_request CPU_INTERRUPT_HALT) e)) s))))
  else
    let! (e, flow) :=
      if ctrue (Z.land interrupt_request CPU_INTERRUPT_FIQ) && negb (ctrue (Z.land (fld e uncached_cpsr) CPSR_F))
      then let! e := cpu_do_interrupt (setf exception_index EXCP_FIQ e) in Ok (e, true) else Ok (e, false) in
    let! (e, flow) :=
      if ctrue (Z.land interrupt_request CPU_INTERRUPT_HARD)
         && ((arm_feature e ARM_FEATURE_M && (elt e regs 15 <? 0xfffffff0)) || negb (ctrue (Z.land (fld e uncached_cpsr) CPSR_I)))
      then let! e := cpu_do_interrupt (setf exception_index EXCP_IRQ e) in Ok (e, true) else Ok (e, flow) in
    if ctrue (Z.land (fld e ArmCpu.interrupt_request) CPU_INTERRUPT_EXITTB)
    then Ok (inr (setf ArmCpu.interrupt_request (andn (fld e ArmCpu.interrupt_request) CPU_INTERRUPT_EXITTB) e, true))
    else Ok (inr (e, flow)).

(** The rest of the iteration, up to the code of the block. *)
Definition loop_find (next_tb : option (nat * Z)) (s : vm) : res vm :=
  let! (tb, t) := tb_find_fast (v_cpu s) (v_phys s) (v_tb s) in
  let next_tb := if tb_invalidated_flag t then None else next_tb in
  let t := set_invalidated_flag false t in
  let! b := tb_at tb t in
  let! t := match next_tb with
            | Some (last, n) => if snd (b_page_addr b) =? NO_PAGE then tb_add_jump last n tb t else Ok t
            | None => Ok t
            end in
  Ok (set_pos (Found tb next_tb) (set_current_tb (Some tb) (set_tb t s))).

(** The code of a block; a patched jump goes on in the code of the next. *)
Definition tcg_qemu_tb_exec (tb : nat) (s : vm) : res vm :=
  let! b := tb_at tb (v_tb s) in
  let! out := exec (fun n => bool_decide (is_Some (pick n (b_tb_next b)))) None (b_code b) (fresh (v_cpu s)) in
  match out with
  | Next _ => Undef
  | Leave n e => Ok (set_pos (Inner ((fun n => (tb, n)) <$> n)) (set_current_tb None (set_cpu e s)))
  | Goto n e =>
      match pick n (b_tb_next b) with
      | Some t => Ok (set_pos (Code t) (set_cpu e s))
      | None => Undef
      end
  | Raise _ e => Ok (set_pos Setjmp (set_cpu e s))
  end.

Definition vm_step (s : vm) : res vm :=
  let e := v_cpu s in
  match v_pos s with
  | Stopped _ =>
      if v_halted s && negb (cpu_has_work e) then Ok (set_pos (Stopped EXCP_HALTED) s)
      else Ok (set_pos Setjmp (set_cpu (setf exception_index (-1) e) (set_halted false s)))
  | Setjmp =>
      let s := set_current_tb None s in
      if 0 <=? fld e exception_index then
        if EXCP_INTERRUPT <=? fld e exception_index then Ok (set_pos (Stopped (fld e exception_index)) s)
        else let! e := cpu_do_interrupt e in Ok (set_pos (Inner None) (set_cpu (setf exception_index (-1) e) s))
      else Ok (set_pos (Inner None) s)
  | Inner next_tb =>
      let! r := loop_interrupts s in
      match r with
      | inl s => Ok s
      | inr (e, flow) =>
          let s := set_cpu e s in
          if v_exit_request s
          then Ok (set_pos Setjmp (set_cpu (setf exception_index EXCP_INTERRUPT e) (set_exit_request false s)))
          else loop_find (if flow then None else next_tb) s
      end
  | Found tb next_tb =>
      let s := if v_exit_request s then set_current_tb None s else s in
      match v_current_tb s with
      | Some _ => Ok (set_pos (Code tb) s)
      | None => Ok (set_pos (Inner next_tb) s)
      end
  | Code tb => tcg_qemu_tb_exec tb s
  end.

(** ** Events *)

Definition cpu_unlink_tb (s : vm) : res vm :=
  match v_current_tb s with
  | None => Ok s
  | Some tb =>
      let! t := tb_reset_jump_recursive (S (2 * nb_tbs (v_tb s))) tb (v_tb s) in
      Ok (set_tb t (set_current_tb None s))
  end.

Definition cpu_interrupt (mask : Z) (s : vm) : res vm :=
  cpu_unlink_tb (set_cpu (setf interrupt_request (Z.lor (fld (v_cpu s) interrupt_request) mask) (v_cpu s)) s).
Definition cpu_reset_interrupt (mask : Z) (s : vm) : vm :=
  set_cpu (setf interrupt_request (andn (fld (v_cpu s) interrupt_request) mask) (v_cpu s)) s.
Definition cpu_exit (s : vm) : res vm := cpu_unlink_tb (set_exit_request true s).

(** The mapping changes while no block is about to be linked: outside the
    loop, or by code that left its block through no jump. *)
Definition may_remap (p : position) : bool :=
  match p with Stopped _ | Setjmp | Inner None => true | _ => false end.
Definition remap (phys : Z -> Z) (t : tb_state) (s : vm) : vm :=
  mkVM (v_cpu s) (v_halted s) (v_exit_request s) None t phys (v_pos s).

Definition vm_event (ev : event) (s : vm) : res vm :=
  match ev with
  | CpuInterrupt mask => cpu_interrupt mask s
  | CpuResetInterrupt mask => Ok (cpu_reset_interrupt mask s)
  | CpuExit => cpu_exit s
  | TlbFlush phys => if may_remap (v_pos s) then Ok (remap phys (set_jmp_cache ∅ (v_tb s)) s) else Undef
  | TlbFlushPage addr page =>
      if may_remap (v_pos s)
      then Ok (remap (map_page addr page (v_phys s)) (tlb_flush_jmp_cache (page_of addr) (v_tb s)) s) else Undef
  end.

(** A run of the loop, with the events that happened. *)
Inductive vm_run (s0 : vm) : list event -> vm -> Prop :=
| vm_start : vm_run s0 [] s0
| vm_next tr s s' : vm_run s0 tr s -> vm_step s = Ok s' -> vm_run s0 tr s'
| vm_signal tr s ev s' : vm_run s0 tr s -> vm_event ev s = Ok s' -> vm_run s0 (tr ++ [ev]) s'.
End Machine.

(** ** Blocks and pages *)

Lemma page_number a : Z.shiftr a TARGET_PAGE_BITS = a / 1024.
Proof. unfold TARGET_PAGE_BITS. by rewrite Z.shiftr_div_pow2. Qed.
Lemma page_eq_div a b : page_of a = page_of b <-> a / 1024 = b / 1024.
Proof. rewrite !page_of_div. lia. Qed.

Lemma ldl_page mem (phys phys' : Z -> Z) a :
  in_u32 a -> a mod 4 = 0 -> phys (a / 1024) = phys' (a / 1024) -> ldl_code mem phys a = ldl_code mem phys' a.
Proof.
  intros Ha H4 Hp. assert (Hb : forall i, 0 <= i < 4 -> ldub_code mem phys (u32 (a + i)) = ldub_code mem phys' (u32 (a + i))).
  { intros i Hi. pose proof (Z.div_mod a 4 ltac:(lia)). assert (Hu : a + i < 2 ^ 32) by (simpl; lia).
    rewrite uwrap_small by lia. unfold ldub_code, get_phys_addr_code. rewrite page_number.
    assert ((a + i) / 1024 = a / 1024) as ->; [|by rewrite Hp].
    symmetry. apply Z.div_unique with (a mod 1024 + i); [|pose proof (Z.div_mod a 1024 ltac:(lia)); lia].
    pose proof (Z.mod_pos_bound a 1024 ltac:(lia)). pose proof (Z.div_mod a 1024 ltac:(lia)).
    lia. }
  unfold ldl_code. rewrite !Hb by lia. pose proof (Hb 0 ltac:(lia)) as H0. rewrite Z.add_0_r, uwrap_small in H0 by (simpl; lia). by rewrite H0.
Qed.

(** An instruction address in the page of [p]. *)
Definition in_page (p q : Z) : Prop := in_u32 q /\ q mod 4 = 0 /\ q / 1024 = p / 1024.

Lemma in_page_next p q : in_page p q -> u32 (q + 4) < next_page_start p -> in_page p (u32 (q + 4)).
Proof.
  intros (Hq & H4 & Hd) Hn. unfold next_page_start in Hn. rewrite page_of_div in Hn. change TARGET_PAGE_SIZE with 1024 in Hn.
  pose proof (Z.div_mod q 1024 ltac:(lia)). pose proof (Z.mod_pos_bound q 1024 ltac:(lia)).
  assert (Hqq : 0 <= p / 1024 < 4194304) by (rewrite <- Hd; split; [apply Z.div_pos; lia|apply Z.div_lt_upper_bound; lia]).
  destruct (decide (p / 1024 = 4194303)) as [E|E].
  { rewrite E in Hn. change (u32 (1024 * 4194303 + 1024)) with 0 in Hn. pose proof (in_u32_u32 (q + 4)). lia. }
  rewrite !uwrap_small in Hn by (simpl; lia). rewrite uwrap_small by (simpl; lia). split; [lia|]. split.
  - rewrite Z.add_mod, H4 by lia. done.
  - symmetry. apply Z.div_unique with (q mod 1024 + 4); [|lia]. rewrite Hd in *. lia.
Qed.

Section Page.
Context (mem : Z -> Z) (phys phys' : Z -> Z) (p : Z) (Hp : in_page p p) (Hph : phys (p / 1024) = phys' (p / 1024)).

Lemma ldl_in_page q : in_page p q -> ldl_code mem phys q = ldl_code mem phys' q.
Proof. intros (Hq & H4 & Hd). apply ldl_page; [done|done|]. by rewrite Hd. Qed.

Lemma chain_in_page i : (forall j, (0 < j <= i)%nat -> u32 (p + 4 * Z.of_nat j) < next_page_start p) -> in_page p (u32 (p + 4 * Z.of_nat i)).
Proof.
  induction i as [|i IH]; intros Hj; [rewrite Z.mul_0_r, Z.add_0_r, uwrap_small; [exact Hp|destruct Hp; simpl; lia]|].
  assert (E : u32 (p + 4 * Z.of_nat (S i)) = u32 (u32 (p + 4 * Z.of_nat i) + 4)) by (rewrite uwrap_add_l by lia; f_equal; lia).
  rewrite E. apply in_page_next; [apply IH; intros j Hj'; apply Hj; lia|]. rewrite <- E. apply Hj. lia.
Qed.

Lemma words_in_page n : modelled_words (ldl_code mem phys) (next_page_start p) n p -> modelled_words (ldl_code mem phys') (next_page_start p) n p.
Proof. intros H i Hi Hj. rewrite <- ldl_in_page by (by apply chain_in_page). by apply H. Qed.

Lemma defined_in_page v7 user n : forall q e, in_page p q ->
  ref_defined v7 user (ldl_code mem phys') (next_page_start p) n q e = ref_defined v7 user (ldl_code mem phys) (next_page_start p) n q e.
Proof.
  induction n as [|n IH]; intros q e Hq; [done|]. cbn [ref_defined]. rewrite ldl_in_page by done.
  destruct (ref_insn _ _ _ _ _) as [[e'| |]| |]; try done. destruct (Z.ltb_spec (u32 (q + 4)) (next_page_start p)); [|done].
  apply IH. by apply in_page_next.
Qed.

Lemma run_in_page v7 user k : forall q e, in_u32 q -> (forall j, (j < k)%nat -> in_page p (u32 (q + 4 * Z.of_nat j))) ->
  ref_run v7 user (ldl_code mem phys') k q e = ref_run v7 user (ldl_code mem phys) k q e.
Proof.
  induction k as [|k IH]; intros q e Hu Hq; [done|]. cbn [ref_run].
  assert (Hq0 : in_page p q).
  { specialize (Hq 0%nat ltac:(lia)). rewrite Z.mul_0_r, Z.add_0_r, uwrap_small in Hq by (simpl; lia). exact Hq. }
  rewrite ldl_in_page by done. destruct (ref_insn _ _ _ _ _) as [[e'| |]| |]; try done. cbn [rbind]. apply IH; [apply in_u32_u32|].
  intros j Hj. rewrite next_word. apply Hq. lia.
Qed.

(** The instructions of a block. *)
Lemma block_addresses K : (0 < K)%nat -> p + 4 * (Z.of_nat K - 1) < page_of p + TARGET_PAGE_SIZE ->
  forall j, (j < K)%nat -> in_page p (u32 (p + 4 * Z.of_nat j)).
Proof.
  intros HK Hb j Hj. destruct Hp as (Hu & H4 & _). rewrite page_of_div in Hb. change TARGET_PAGE_SIZE with 1024 in Hb.
  pose proof (Z.div_mod p 1024 ltac:(lia)). pose proof (Z.mod_pos_bound p 1024 ltac:(lia)).
  assert (p / 1024 < 4194304) by (apply Z.div_lt_upper_bound; lia). rewrite uwrap_small by (simpl; lia). split; [simpl; lia|]. split.
  - rewrite Z.add_mod, H4, Z.mul_comm, Z.mod_mul by lia. done.
  - symmetry. apply Z.div_unique with (p mod 1024 + 4 * Z.of_nat j); lia.
Qed.

Lemma slots_in_page K n : (0 < K)%nat -> p + 4 * (Z.of_nat K - 1) < page_of p + TARGET_PAGE_SIZE ->
  block_slots (ldl_code mem phys') (u32 (p + 4 * Z.of_nat K)) n = block_slots (ldl_code mem phys) (u32 (p + 4 * Z.of_nat K)) n.
Proof.
  intros HK Hb. unfold block_slots. destruct (n =? 0); [|done].
  assert (u32 (u32 (p + 4 * Z.of_nat K) - 4) = u32 (p + 4 * Z.of_nat (K - 1))) as ->.
  { unfold uwrap. rewrite Zminus_mod_idemp_l. f_equal. lia. }
  by rewrite (ldl_in_page (u32 (p + 4 * Z.of_nat (K - 1)))) by (apply (block_addresses K); [done|done|lia]).
Qed.
End Page.

(** The last byte of a block of aligned instructions is in its page. *)
Lemma block_one_page p K : in_page p p -> (0 < K)%nat -> p + 4 * (Z.of_nat K - 1) < page_of p + TARGET_PAGE_SIZE ->
  page_of p = page_of (u32 (p + 4 * Z.of_nat K - 1)).
Proof.
  intros (Hu & H4 & _) HK Hb. apply page_eq_div. rewrite page_of_div in Hb. change TARGET_PAGE_SIZE with 1024 in Hb.
  pose proof (Z.div_mod p 1024 ltac:(lia)). pose proof (Z.mod_pos_bound p 1024 ltac:(lia)).
  assert (p / 1024 < 4194304) by (apply Z.div_lt_upper_bound; lia).
  pose proof (Z.div_mod p 4 ltac:(lia)). rewrite uwrap_small by (simpl; lia).
  apply Z.div_unique with (p mod 1024 + 4 * Z.of_nat K - 1); lia.
Qed.

(** ** The flags of a block *)

Definition tb_flags (e : CPUARMState) : Z := snd (cpu_get_tb_cpu_state e).
Definition ranges_ok (e : CPUARMState) : Prop :=
  0 <= fld e thumb < 2 /\ 0 <= fld e condexec_bits < 256 /\ 0 <= fld e vec_len < 8 /\ 0 <= fld e vec_stride < 4.

Lemma tb_flags_bit e i : ranges_ok e -> 0 <= i ->
  Z.testbit (tb_flags e) i =
    if i =? 0 then Z.testbit (fld e thumb) 0
    else if i <? 4 then Z.testbit (fld e vec_len) (i - 1)
    else if i <? 6 then Z.testbit (fld e vec_stride) (i - 4)
    else if i =? 6 then negb (cpu_user e)
    else if i =? 7 then Z.testbit (elt e vfp_xregs ARM_VFP_FPEXC) 30
    else Z.testbit (fld e condexec_bits) (i - 8).
Proof.
  intros (Ht & Hc & Hl & Hs) Hi. unfold tb_flags, cpu_get_tb_cpu_state. cbn [snd].
  change (Z.shiftl 1 30) with (bit32 30). rewrite land_bit32_ctrue by lia.
  change (cur_mode e =? ARM_CPU_MODE_USR) with (cpu_user e).
  assert (H6 : forall k, Z.testbit (Z.shiftl 1 k) i = (0 <=? k) && (k =? i)).
  { intros k. destruct (Z.leb_spec 0 k); cbn [andb]; [rewrite Z.shiftl_1_l; by apply Z.pow2_bits_eqb|].
    rewrite Z.shiftl_spec by lia. change 1 with (2 ^ 0). rewrite Z.pow2_bits_eqb by lia.
    destruct (Z.eqb_spec 0 (i - k)); [lia|done]. }
  assert (Hbase : Z.testbit (Z.lor (Z.lor (Z.lor (fld e thumb) (Z.shiftl (fld e vec_len) 1)) (Z.shiftl (fld e vec_stride) 4)) (Z.shiftl (fld e condexec_bits) 8)) i =
    Z.testbit (fld e thumb) i || Z.testbit (fld e vec_len) (i - 1) || Z.testbit (fld e vec_stride) (i - 4) || Z.testbit (fld e condexec_bits) (i - 8)).
  { by rewrite !Z.lor_spec, !Z.shiftl_spec by lia. }
  assert (Hlow : forall x k j, 0 <= k -> 0 <= x < 2 ^ k -> (j < 0 \/ k <= j) -> Z.testbit x j = false).
  { intros x k j Hk Hx [Hj|Hj]; [by apply Z.testbit_neg_r|]. by apply (testbit_bound k). }
  assert (Htot : Z.testbit (if Z.testbit (elt e vfp_xregs ARM_VFP_FPEXC) 30
      then Z.lor (if cpu_user e then Z.lor (Z.lor (Z.lor (fld e thumb) (Z.shiftl (fld e vec_len) 1)) (Z.shiftl (fld e vec_stride) 4)) (Z.shiftl (fld e condexec_bits) 8)
                  else Z.lor (Z.lor (Z.lor (Z.lor (fld e thumb) (Z.shiftl (fld e vec_len) 1)) (Z.shiftl (fld e vec_stride) 4)) (Z.shiftl (fld e condexec_bits) 8)) (Z.shiftl 1 6)) (Z.shiftl 1 7)
      else (if cpu_user e then Z.lor (Z.lor (Z.lor (fld e thumb) (Z.shiftl (fld e vec_len) 1)) (Z.shiftl (fld e vec_stride) 4)) (Z.shiftl (fld e condexec_bits) 8)
                  else Z.lor (Z.lor (Z.lor (Z.lor (fld e thumb) (Z.shiftl (fld e vec_len) 1)) (Z.shiftl (fld e vec_stride) 4)) (Z.shiftl (fld e condexec_bits) 8)) (Z.shiftl 1 6))) i =
    (Z.testbit (fld e thumb) i || Z.testbit (fld e vec_len) (i - 1) || Z.testbit (fld e vec_stride) (i - 4) || Z.testbit (fld e condexec_bits) (i - 8))
    || negb (cpu_user e) && (6 =? i) || Z.testbit (elt e vfp_xregs ARM_VFP_FPEXC) 30 && (7 =? i)).
  { destruct (Z.testbit (elt e vfp_xregs ARM_VFP_FPEXC) 30), (cpu_user e); rewrite ?(Z.lor_spec _ (Z.shiftl 1 7)), ?(Z.lor_spec _ (Z.shiftl 1 6)), Hbase, ?H6;
      cbn [negb andb]; rewrite ?orb_false_r; done. }
  rewrite Htot. clear Hbase Htot H6.
  destruct (Z.eqb_spec i 0) as [->|]; [|destruct (Z.ltb_spec i 4); [|destruct (Z.ltb_spec i 6); [|destruct (Z.eqb_spec i 6) as [->|]; [|destruct (Z.eqb_spec i 7) as [->|]]]]].
  - rewrite (Hlow (fld e vec_len) 3), (Hlow (fld e vec_stride) 2), (Hlow (fld e condexec_bits) 8) by lia. cbn. by rewrite !andb_false_r, !orb_false_r.
  - rewrite (Hlow (fld e thumb) 1), (Hlow (fld e vec_stride) 2), (Hlow (fld e condexec_bits) 8) by lia.
    rewrite (proj2 (Z.eqb_neq 6 i)), (proj2 (Z.eqb_neq 7 i)) by lia. by rewrite !andb_false_r, !orb_false_r.
  - rewrite (Hlow (fld e thumb) 1), (Hlow (fld e vec_len) 3), (Hlow (fld e condexec_bits) 8) by lia.
    rewrite (proj2 (Z.eqb_neq 6 i)), (proj2 (Z.eqb_neq 7 i)) by lia. by rewrite !andb_false_r, !orb_false_r.
  - rewrite (Hlow (fld e thumb) 1), (Hlow (fld e vec_len) 3), (Hlow (fld e vec_stride) 2), (Hlow (fld e condexec_bits) 8) by lia. cbn.
    by rewrite andb_true_r, andb_false_r, orb_false_r.
  - rewrite (Hlow (fld e thumb) 1), (Hlow (fld e vec_len) 3), (Hlow (fld e vec_stride) 2), (Hlow (fld e condexec_bits) 8) by lia. cbn.
    by rewrite andb_true_r, andb_false_r.
  - rewrite (Hlow (fld e thumb) 1), (Hlow (fld e vec_len) 3), (Hlow (fld e vec_stride) 2) by lia.
    rewrite (proj2 (Z.eqb_neq 6 i)), (proj2 (Z.eqb_neq 7 i)) by lia. by rewrite !andb_false_r, !orb_false_r.
Qed.

Lemma tb_flags_user e1 e2 : ranges_ok e1 -> ranges_ok e2 -> tb_flags e1 = tb_flags e2 -> cpu_user e1 = cpu_user e2.
Proof.
  intros H1 H2 H. apply (f_equal (fun z => Z.testbit z 6)) in H. rewrite !tb_flags_bit in H by (done || lia). cbn in H.
  by destruct (cpu_user e1), (cpu_user e2).
Qed.

Lemma tb_flags_ctx e e' : same_ctx e e' -> tb_flags e' = tb_flags e.
Proof.
  intros [F A]. unfold tb_flags, cpu_get_tb_cpu_state, cur_mode, elt. cbn [snd].
  by rewrite (F thumb), (F vec_len), (F vec_stride), (F condexec_bits), (F uncached_cpsr), (A vfp_xregs) by (done || not_in_list).
Qed.
Lemma equiv_ctx e e' : e ≈ e' -> same_ctx e e'.
Proof. intros (F & _ & A). split; intros; symmetry; auto. Qed.
