(* ===== verification/CpuLoop.v ===== *)
(** * The main loop refines the architecture

    The invariant of the cache of blocks, the correspondence between the
    machine of [CpuExec] and the processor of [ArmArch], and the theorems on
    the main loop: refinement, absence of undefined behaviour, and that a
    request to leave it is honoured. *)
From stdpp Require Import list gmap relations.
From S2P Require Import Prelude GuestMem ArmCpu ArmArith Tcg ArmTranslate ArmData ArmBlock ArmArch TbCache CpuExec.
#[local] Open Scope Z_scope.

(** ** The invariant of the cache *)

Definition all_live (t : tb_state) (i : nat) : Prop := (i < nb_tbs t)%nat.

(** The page of physical memory that the block was made from, wherever it is
    mapped. *)
Definition tb_map (b : TranslationBlock) : Z -> Z := fun _ => Z.shiftr (fst (b_page_addr b)) TARGET_PAGE_BITS.
(** The page is mapped at the address of the block. *)
Definition tb_fits (phys : Z -> Z) (b : TranslationBlock) : Prop := phys (b_pc b / 1024) = tb_map b 0.

Section Loop.
Context (mem : Z -> Z) (others : unmodelled) (buffer_full : list tcg_op -> bool) (gen_code_size : list tcg_op -> Z).
Context (code_gen_buffer_size code_gen_buffer_max_size code_gen_max_blocks : Z).
Context (do_interrupt_v7m : CPUARMState -> res CPUARMState) (do_arm_semihosting : CPUARMState -> res (Z * CPUARMState)).
Context (singlestep : bool).
(** A block of host code fits behind the place after which none is started. *)
Context (Hgen : forall c, 0 <= gen_code_size c /\ gen_code_size c + CODE_GEN_ALIGN <= code_gen_buffer_size - code_gen_buffer_max_size).
Context (Hbuf : 0 < code_gen_buffer_max_size) (Hblocks : 0 < code_gen_max_blocks).

Abbreviation translate := (cpu_gen_code mem others buffer_full singlestep).
Abbreviation gen_tb := (tb_gen_code mem others buffer_full gen_code_size code_gen_buffer_size code_gen_buffer_max_size code_gen_max_blocks singlestep).
Abbreviation find_slow := (tb_find_slow mem others buffer_full gen_code_size code_gen_buffer_size code_gen_buffer_max_size code_gen_max_blocks singlestep).
Abbreviation find_fast := (tb_find_fast mem others buffer_full gen_code_size code_gen_buffer_size code_gen_buffer_max_size code_gen_max_blocks singlestep).

Definition tb_slots (b : TranslationBlock) (n : Z) : option Z :=
  block_slots (ldl_code mem (tb_map b)) (u32 (b_pc b + b_size b)) n.

(** A block is the translation of the instructions of its page, made for a
    processor in its mode. *)
Record tb_good (F : Z) (b : TranslationBlock) : Prop := {
  tg_base : b_cs_base b = 0;
  tg_pc : in_page (b_pc b) (b_pc b);
  tg_page : snd (b_page_addr b) = NO_PAGE;
  tg_code : exists env0 phys0 K,
    fld env0 features = F /\ fld env0 thumb = 0 /\ fld env0 condexec_bits = 0 /\ ranges_ok env0 /\ b_flags b = tb_flags env0 /\
    tb_fits phys0 b /\ translate env0 phys0 (b_pc b) = Ok (b_code b, b_size b) /\
    b_size b = 4 * Z.of_nat K /\ (0 < K)%nat /\ b_pc b + 4 * (Z.of_nat K - 1) < page_of (b_pc b) + TARGET_PAGE_SIZE }.

(** A patched jump leads to the block for the address it stands for, made
    from the same page and for the same mode. *)
Definition link_good (bi bt : TranslationBlock) (n : Z) : Prop :=
  tb_slots bi n = Some (b_pc bt) /\ page_of (b_pc bi) = page_of (b_pc bt) /\ tb_map bt 0 = tb_map bi 0 /\ b_flags bt = b_flags bi.

Record tb_inv (F : Z) (phys : Z -> Z) (t : tb_state) : Prop := {
  ti_jmp : exists L, jmp_wf (all_live t) t L;
  ti_hash : exists H, hash_wf (all_live t) t H;
  ti_good i b : tbs t !! i = Some b -> tb_good F b;
  ti_link i n j bi : slot n -> tbs t !! i = Some bi -> link t i n = Some j -> exists bj, tbs t !! j = Some bj /\ link_good bi bj n;
  ti_cache h i : tb_jmp_cache t !! h = Some i ->
    exists b, tbs t !! i = Some b /\ tb_fits phys b /\ h = tb_jmp_cache_hash_func (b_pc b);
  ti_ptr : code_gen_ptr t <= code_gen_buffer_size }.

(** Operations on jumps. *)
Lemma good_strip F b : tb_good F (strip b) <-> tb_good F b.
Proof. split; intros [H1 H2 H3 H4]; by split. Qed.

Lemma same_lookup s s' i b' : same_blocks s s' -> tbs s' !! i = Some b' -> exists b, tbs s !! i = Some b /\ strip b' = strip b.
Proof.
  intros (Hs & _) Hb. specialize (Hs i). rewrite Hb in Hs. destruct (tbs s !! i) as [b|]; [|done]. apply (inj Some) in Hs. eauto.
Qed.
Lemma same_lookup' s s' i b : same_blocks s s' -> tbs s !! i = Some b -> exists b', tbs s' !! i = Some b' /\ strip b' = strip b.
Proof.
  intros (Hs & _) Hb. specialize (Hs i). rewrite Hb in Hs. destruct (tbs s' !! i) as [b'|]; [|done]. apply (inj Some) in Hs. eauto.
Qed.
Lemma good_strip_eq F b b' : strip b' = strip b -> tb_good F b -> tb_good F b'.
Proof. intros E H. apply good_strip. rewrite E. by apply good_strip. Qed.
Lemma fits_strip_eq phys b b' : strip b' = strip b -> tb_fits phys b -> tb_fits phys b'.
Proof. intros E H. change (tb_fits phys (strip b')). rewrite E. exact H. Qed.
Lemma strip_pc b b' : strip b' = strip b -> b_pc b' = b_pc b /\ b_flags b' = b_flags b /\ b_page_addr b' = b_page_addr b /\ tb_slots b' = tb_slots b.
Proof.
  intros E. change (b_pc (strip b') = b_pc b /\ b_flags (strip b') = b_flags b /\ b_page_addr (strip b') = b_page_addr b /\ tb_slots (strip b') = tb_slots b).
  by rewrite E.
Qed.
Lemma link_good_strip bi bi' bj bj' n : strip bi' = strip bi -> strip bj' = strip bj -> link_good bi bj n -> link_good bi' bj' n.
Proof.
  intros (P1 & F1 & A1 & S1)%strip_pc (P2 & F2 & A2 & S2)%strip_pc (H1 & H2 & H3 & H4). unfold link_good.
  unfold tb_map in *. rewrite S1, P1, P2, A1, A2, F1, F2. done.
Qed.

Lemma tb_inv_same F phys t t' :
  tb_inv F phys t -> same_blocks t t' -> (exists L, jmp_wf (all_live t') t' L) ->
  (forall i n j bi, slot n -> tbs t !! i = Some bi -> link t' i n = Some j -> exists bj, tbs t !! j = Some bj /\ link_good bi bj n) ->
  tb_inv F phys t'.
Proof.
  intros I Hs HL Hlink. pose proof Hs as (_ & Hn & Hh & Hc & _ & Hp & _). split.
  - exact HL.
  - destruct (ti_hash _ _ _ I) as [H W]. exists H. apply (hash_wf_live (all_live t)); [intros i; unfold all_live; by rewrite Hn|]. by eapply hash_wf_same.
  - intros i b Hb. destruct (same_lookup _ _ _ _ Hs Hb) as (b0 & Hb0 & E). eapply good_strip_eq; [exact E|]. by eapply ti_good.
  - intros i n j bi Hn' Hbi Hl. destruct (same_lookup _ _ _ _ Hs Hbi) as (b0 & Hb0 & E).
    destruct (Hlink i n j b0 Hn' Hb0 Hl) as (bj & Hbj & G). destruct (same_lookup' _ _ _ _ Hs Hbj) as (bj' & Hbj' & E').
    exists bj'. split; [done|]. by eapply link_good_strip.
  - intros h i Hi. rewrite Hc in Hi. destruct (ti_cache _ _ _ I h i Hi) as (b & Hb & Hf & ->).
    destruct (same_lookup' _ _ _ _ Hs Hb) as (b' & Hb' & E). exists b'. split; [done|]. split; [by eapply fits_strip_eq|].
    by destruct (strip_pc _ _ E) as (-> & _).
  - rewrite Hp. apply I.
Qed.

Lemma tb_inv_unlink F phys t tb : tb_inv F phys t -> (tb < nb_tbs t)%nat ->
  exists t', tb_reset_jump_recursive (S (2 * nb_tbs t)) tb t = Ok t' /\ tb_inv F phys t' /\ same_blocks t t' /\ unlinked t t' /\
    forall k, slot k -> link t' tb k = None.
Proof.
  intros I Htb. destruct (ti_jmp _ _ _ I) as [L W]. pose proof (link_count_bound t).
  destruct (tb_reset_jump_recursive_ok (all_live t) (S (2 * nb_tbs t)) t L tb W Htb ltac:(lia)) as (t' & L' & E & W' & S' & U & C).
  exists t'. split; [exact E|]. split; [|done]. apply (tb_inv_same F phys t); [done|done| |].
  - exists L'. apply (jmp_wf_live (all_live t)); [|done]. intros i. unfold all_live. destruct S' as (_ & -> & _). done.
  - intros i n j bi Hn Hbi Hl. destruct (ul_less _ _ U i n Hn) as [Hx|Hx]; [congruence|]. rewrite Hx in Hl. by eapply ti_link.
Qed.

Lemma tb_inv_jump F phys t i n j bi bj : tb_inv F phys t -> slot n -> tbs t !! i = Some bi -> tbs t !! j = Some bj -> link_good bi bj n ->
  exists t', tb_add_jump i n j t = Ok t' /\ tb_inv F phys t' /\ same_blocks t t'.
Proof.
  intros I Hn Hi Hj G. destruct (ti_jmp _ _ _ I) as [L W].
  destruct (tb_add_jump_ok (all_live t) t L i n j W) as (t' & L' & E & W' & S' & K); [by eapply lookup_lt_Some|by eapply lookup_lt_Some|done|].
  exists t'. split; [exact E|]. split; [|done]. apply (tb_inv_same F phys t); [done|done| |].
  - exists L'. apply (jmp_wf_live (all_live t)); [|done]. intros x. unfold all_live. destruct S' as (_ & -> & _). done.
  - intros x k y bx Hk Hbx Hl. rewrite K in Hl by done. case_decide as Ex; [|by eapply ti_link]. injection Ex as -> ->.
    assert (bx = bi) as -> by congruence. destruct (link t i n) as [y'|] eqn:El; cbn in Hl; injection Hl as <-; [by eapply ti_link|eauto].
Qed.

(** Another mapping: the jump cache holds no block of a page that moved. *)
Lemma tb_inv_remap F phys phys' t t' :
  tb_inv F phys t -> t' = set_jmp_cache (tb_jmp_cache t') t ->
  (forall h i b, tb_jmp_cache t' !! h = Some i -> tbs t !! i = Some b -> h = tb_jmp_cache_hash_func (b_pc b) ->
     tb_jmp_cache t !! h = Some i /\ phys' (b_pc b / 1024) = phys (b_pc b / 1024)) ->
  (forall h i, tb_jmp_cache t' !! h = Some i -> tb_jmp_cache t !! h = Some i) ->
  tb_inv F phys' t'.
Proof.
  intros [I1 I2 I3 I4 I5 I6] E Hc Hsub. assert (Et : tbs t' = tbs t) by (by rewrite E). split.
  - destruct I1 as [L W]. exists L. apply (jmp_wf_other _ t); [done|]. eapply jmp_wf_live; [|exact W]. intros i. unfold all_live, nb_tbs. by rewrite Et.
  - destruct I2 as [H W]. exists H. apply (hash_wf_other _ t); [done|by rewrite E|]. eapply hash_wf_live; [|exact W].
    intros i. unfold all_live, nb_tbs. by rewrite Et.
  - rewrite Et. exact I3.
  - intros i n j bi. unfold link. rewrite Et. apply I4.
  - intros h i Hi. destruct (I5 h i (Hsub _ _ Hi)) as (b & Hb & Hf & Hh). exists b. rewrite Et. split; [done|]. split; [|done].
    unfold tb_fits. destruct (Hc h i b Hi Hb Hh) as [_ ->]. exact Hf.
  - by rewrite E.
Qed.

Lemma tb_inv_flush_all F phys phys' t : tb_inv F phys t -> tb_inv F phys' (set_jmp_cache ∅ t).
Proof. intros I. apply (tb_inv_remap F phys phys' t); [done|done|..]; cbn; intros h i; by rewrite lookup_empty. Qed.

Lemma tb_inv_flush_page F phys t addr page :
  tb_inv F phys t -> tb_inv F (map_page addr page phys) (tlb_flush_jmp_cache (page_of addr) t).
Proof.
  intros I. apply (tb_inv_remap F phys _ t); [done|done| |intros h i; apply flush_page_cache].
  intros h i b Hi Hb ->. split; [by eapply flush_page_cache|]. unfold map_page. rewrite page_number.
  destruct (Z.eqb_spec (b_pc b / 1024) (addr / 1024)) as [E|]; [|done]. exfalso. eapply flush_page_gone; [|exact Hi].
  apply page_eq_div. rewrite E, page_of_div, Z.mul_comm, Z.div_mul by lia. done.
Qed.

(** ** Finding and making blocks *)

Lemma tb_inv_empty F phys fl n k : tb_inv F phys (mkTbs [] ∅ ∅ ∅ 0 fl n k).
Proof.
  assert (Hno : forall i, ~ all_live (mkTbs [] ∅ ∅ ∅ 0 fl n k) i) by (unfold all_live; cbn; lia). split.
  - exists (fun _ => []). split; intros; exfalso; by eapply Hno.
  - exists (fun _ => []). split; [intros h; cbn; rewrite lookup_empty; constructor|intros; apply NoDup_nil_2|].
    intros h i. split; [by intros ?%not_elem_of_nil|]. intros [Hi _]. by apply Hno in Hi.
  - intros i b Hb. cbn in Hb. by rewrite lookup_nil in Hb.
  - intros i m j bi _ Hb. cbn in Hb. by rewrite lookup_nil in Hb.
  - intros h i Hi. cbn in Hi. by rewrite lookup_empty in Hi.
  - cbn. pose proof (Hgen []). unfold CODE_GEN_ALIGN in *. lia.
Qed.

Lemma tb_inv_new F phys t t' b :
  let h := tb_phys_hash_func (b_phys_pc b) in
  tb_inv F phys t -> tb_good F b -> tbs t' = tbs t ++ [b] -> tb_phys_hash t' = <[h := nb_tbs t]> (tb_phys_hash t) ->
  tb_jmp_cache t' = tb_jmp_cache t -> code_gen_ptr t' <= code_gen_buffer_size -> b_phys_hash_next b = tb_phys_hash t !! h ->
  b_tb_next b = (None, None) -> b_jmp_next b = (None, None) -> b_jmp_first b = Some (nb_tbs t, 2) -> tb_inv F phys t'.
Proof.
  intros h [I1 I2 I3 I4 I5 I6] G Et Eh Ec Hp Bh B1 B2 B3.
  assert (Hl : forall i, all_live t i \/ i = nb_tbs t <-> all_live t' i).
  { intros i. unfold all_live. unfold nb_tbs at 3. rewrite Et, length_app. cbn. unfold nb_tbs. lia. }
  assert (Hold : forall i x, tbs t !! i = Some x -> tbs t' !! i = Some x).
  { intros i x Hx. rewrite Et. rewrite lookup_app_l; [done|]. by eapply lookup_lt_Some. }
  assert (Hinv : forall i x, tbs t' !! i = Some x -> tbs t !! i = Some x \/ i = nb_tbs t /\ x = b).
  { intros i x Hx. rewrite Et in Hx. apply lookup_app_Some in Hx as [Hx|[Hi Hx]]; [by left|right].
    apply list_lookup_singleton_Some in Hx as [Hx <-]. unfold nb_tbs. split; [lia|done]. }
  split.
  - destruct I1 as [L W]. eexists. eapply jmp_wf_live; [exact Hl|]. by apply (jmp_wf_new (all_live t) t t' b).
  - destruct I2 as [H W]. eexists. eapply hash_wf_live; [exact Hl|]. by apply (hash_wf_new (all_live t) t t' b).
  - intros i x Hx. destruct (Hinv i x Hx) as [Hx'|[_ ->]]; [by eapply I3|done].
  - intros i n j bi Hn Hbi Hlk. unfold link in Hlk. rewrite Hbi in Hlk. cbn in Hlk. destruct (Hinv i bi Hbi) as [Hx|[_ ->]].
    + destruct (I4 i n j bi Hn Hx) as (bj & Hbj & Gj); [unfold link; by rewrite Hx|]. exists bj. split; [by apply Hold|done].
    + rewrite B1 in Hlk. unfold pick in Hlk. by destruct (n =? 0).
  - intros k i Hi. rewrite Ec in Hi. destruct (I5 k i Hi) as (x & Hx & Hf & Hk). exists x. split; [by apply Hold|done].
  - exact Hp.
Qed.

Section Find.
Context (a0 : arch) (tr : list event) (Hok0 : arch_ok a0).
Abbreviation run := (arch_run mem do_interrupt_v7m do_arm_semihosting a0 tr).
Context (Hsafe : forall a, run a -> runs_arm mem a).
Context (a : arch) (Hrun : run a) (Hpend : a_pending a = None).
Context (e : CPUARMState) (He : e ≃ a_cpu a) (Hoke : cpu_ok e).

Lemma find_arch_ok : arch_ok a.
Proof. exact (arch_run_ok _ _ _ _ _ _ Hok0 Hrun). Qed.
Lemma find_page : in_page (a_pc a) (a_pc a).
Proof. destruct (Hsafe a Hrun Hpend) as (_ & _ & H4 & _). split; [|by split]. apply a_pc_u32, find_arch_ok. Qed.
Lemma find_ctx : same_ctx (a_cpu a) e.
Proof. destruct He as (F & _ & A & _). split; auto. Qed.
Lemma find_ranges : ranges_ok e.
Proof.
  destruct find_ctx as [F _]. destruct (ao_vec _ find_arch_ok) as [V1 V2]. destruct Hoke as (_ & (_ & _ & _ & _ & T & _ & C & _) & _).
  unfold ranges_ok. rewrite (F vec_len), (F vec_stride) by not_in_list. done.
Qed.

(** The block at the program counter, made for a processor [env0] in the same
    mode, whatever page it was made from, as long as that is mapped there. *)
Lemma block_runs linked env0 phys0 :
  fld env0 features = fld (a_cpu a) features -> fld env0 thumb = 0 -> fld env0 condexec_bits = 0 -> cpu_user env0 = cpu_user (a_cpu a) ->
  phys0 (a_pc a / 1024) = a_phys a (a_pc a / 1024) ->
  exists c k K ef out,
    translate env0 phys0 (a_pc a) = Ok (c, 4 * Z.of_nat K) /\ (0 < K)%nat /\
    a_pc a + 4 * (Z.of_nat K - 1) < page_of (a_pc a) + TARGET_PAGE_SIZE /\
    ref_run (cpu_v7 (a_cpu a)) (cpu_user (a_cpu a)) (ldl_code mem (a_phys a)) (S k) (a_pc a) (a_cpu a) = Ok ef /\
    exec linked None c (fresh e) = Ok out /\
    outcome_ok linked (a_pc a) (a_cpu a) (block_slots (ldl_code mem phys0) (u32 (a_pc a + 4 * Z.of_nat K))) ef out.
Proof.
  intros Hf Ht Hc Hu Hph. pose proof find_arch_ok as Hok. pose proof find_page as Hpage. symmetry in Hph.
  destruct (Hsafe a Hrun Hpend) as (_ & _ & _ & Hw & _).
  assert (Hv : arm_feature env0 ARM_FEATURE_V7 = cpu_v7 (a_cpu a)) by (unfold cpu_v7, arm_feature; by rewrite Hf).
  destruct (block_code linked env0 others (ldl_code mem phys0) buffer_full singlestep max_insns (a_pc a) (fresh e) (a_cpu a))
    as (c & k & K & ef & out & Ec & Hk & HK & _ & Hb & Hr & Hx & Ho).
  - unfold arm_feature. rewrite Hf. apply Hok.
  - exact Ht.
  - exact Hc.
  - apply Hpage.
  - by apply (Nat.ltb_lt 0 max_insns).
  - apply (words_in_page mem (a_phys a)); [done|done|apply Hw].
  - exact Hoke.
  - exact He.
  - change (Z.land (fld env0 uncached_cpsr) 31 =? ARM_CPU_MODE_USR) with (cpu_user env0). rewrite Hv, Hu.
    rewrite (defined_in_page mem (a_phys a)) by done. by eapply (defined_steps mem do_interrupt_v7m do_arm_semihosting a0 tr).
  - change (Z.land (fld env0 uncached_cpsr) 31 =? ARM_CPU_MODE_USR) with (cpu_user env0) in Hr. rewrite Hv, Hu in Hr.
    destruct k as [|k]; [lia|]. exists c, k, K, ef, out. split; [exact Ec|]. split; [lia|]. split; [exact Hb|]. split; [|done].
    rewrite <- Hr. symmetry. apply (run_in_page mem (a_phys a) phys0 (a_pc a) Hph); [apply Hpage|].
    intros j Hj. eapply (block_addresses (a_pc a)); [exact Hpage| |exact Hb|]; lia.
Qed.

(** A block that is the right one to run. *)
Definition tb_for (t : tb_state) (tb : nat) : Prop :=
  exists b, tbs t !! tb = Some b /\ b_pc b = a_pc a /\ b_flags b = tb_flags (a_cpu a) /\ tb_fits (a_phys a) b.

Context (F : Z) (HF : fld (a_cpu a) features = F).
Abbreviation inv := (tb_inv F (a_phys a)).

Lemma phys_page pc : page_of (get_phys_addr_code (a_phys a) pc) = Z.shiftl (a_phys a (pc / 1024)) 10 /\
  page_offset (get_phys_addr_code (a_phys a) pc) = page_offset pc.
Proof.
  unfold get_phys_addr_code. rewrite page_number. change TARGET_PAGE_BITS with 10. set (x := a_phys a (pc / 1024)).
  assert (Ho : page_offset pc = pc mod 1024).
  { unfold page_offset. change (TARGET_PAGE_SIZE - 1) with (Z.ones 10). by rewrite Z.land_ones by lia. }
  pose proof (Z.mod_pos_bound pc 1024 ltac:(lia)). rewrite Z.shiftl_mul_pow2 by lia. change (2 ^ 10) with 1024. rewrite Ho. split.
  - rewrite page_of_div. rewrite (Z.add_comm (x * 1024)), Z.div_add, Z.div_small by lia. lia.
  - unfold page_offset. change (TARGET_PAGE_SIZE - 1) with (Z.ones 10). rewrite Z.land_ones by lia. change (2 ^ 10) with 1024.
    rewrite (Z.add_comm (x * 1024)), Z.mod_add, Z.mod_mod by lia. done.
Qed.

Lemma fits_intro b : b_pc b = a_pc a -> fst (b_page_addr b) = page_of (get_phys_addr_code (a_phys a) (a_pc a)) -> tb_fits (a_phys a) b.
Proof.
  intros E1 E2. unfold tb_fits, tb_map. rewrite E1, E2. destruct (phys_page (a_pc a)) as [-> _]. change TARGET_PAGE_BITS with 10.
  rewrite Z.shiftr_shiftl_l, Z.shiftl_0_r by lia. done.
Qed.
Lemma hash_phys pc : tb_phys_hash_func (u32 (page_of (get_phys_addr_code (a_phys a) pc) + page_offset pc)) =
  tb_phys_hash_func (get_phys_addr_code (a_phys a) pc).
Proof.
  destruct (phys_page pc) as [-> _]. unfold get_phys_addr_code. rewrite page_number. change TARGET_PAGE_BITS with 10.
  unfold tb_phys_hash_func. change (CODE_GEN_PHYS_HASH_SIZE - 1) with (Z.ones 15). rewrite !Z.land_ones by lia.
  unfold uwrap. change (2 ^ 32) with (2 ^ 15 * 2 ^ 17). by rewrite Z.rem_mul_r, Z.mul_comm, Z.mod_add, Z.mod_mod by lia.
Qed.

Lemma gen_ptr_ok p c : p < code_gen_buffer_max_size ->
  Z.land (p + gen_code_size c + CODE_GEN_ALIGN - 1) (Z.lnot (CODE_GEN_ALIGN - 1)) <= code_gen_buffer_size.
Proof.
  intros Hp. destruct (Hgen c) as [Hg1 Hg2]. change (CODE_GEN_ALIGN - 1) with (Z.ones 4). rewrite <- Z.ldiff_land, Z.ldiff_ones_r by lia.
  rewrite Z.shiftl_mul_pow2, Z.shiftr_div_pow2 by lia. change (2 ^ 4) with 16. unfold CODE_GEN_ALIGN in *.
  pose proof (Z.div_mod (p + gen_code_size c + 16 - 1) 16 ltac:(lia)). pose proof (Z.mod_pos_bound (p + gen_code_size c + 16 - 1) 16 ltac:(lia)). lia.
Qed.

Lemma user_ctx : cpu_user e = cpu_user (a_cpu a).
Proof. by destruct (same_ctx_code _ _ find_ctx). Qed.
Lemma feature_ctx : fld e features = F.
Proof. destruct find_ctx as [Fe _]. by rewrite Fe by not_in_list. Qed.
Lemma arm_ctx : fld e thumb = 0 /\ fld e condexec_bits = 0.
Proof. destruct find_ctx as [Fe _]. destruct (Hsafe a Hrun Hpend) as (T & C & _). by rewrite !Fe by not_in_list. Qed.

Definition linked_new (t : tb_state) (c : list tcg_op) (size : Z) (fl : bool) : tb_state :=
  let s := set_invalidated_flag fl (set_tbs (tbs t ++ [new_tb (a_pc a)]) t) in
  let tb := nb_tbs t in
  let s := tb_update tb (fun b => mkTB (b_pc b) 0 (tb_flags (a_cpu a)) size (code_gen_ptr s) c (b_phys_hash_next b) (b_page_next b)
                                    (b_page_addr b) (b_tb_next b) (b_jmp_next b) (b_jmp_first b)) s in
  let s := set_code_gen_ptr (Z.land (code_gen_ptr s + gen_code_size c + CODE_GEN_ALIGN - 1) (Z.lnot (CODE_GEN_ALIGN - 1))) s in
  tb_link_phys tb (get_phys_addr_code (a_phys a) (a_pc a)) NO_PAGE s.

(** A block that was made for the program counter and entered. *)
Lemma linked_new_ok t c K fl : inv t -> code_gen_ptr t < code_gen_buffer_max_size ->
  translate e (a_phys a) (a_pc a) = Ok (c, 4 * Z.of_nat K) -> (0 < K)%nat ->
  a_pc a + 4 * (Z.of_nat K - 1) < page_of (a_pc a) + TARGET_PAGE_SIZE ->
  let t' := linked_new t c (4 * Z.of_nat K) fl in
  inv t' /\ tb_for t' (nb_tbs t) /\ tb_invalidated_flag t' = fl /\ forall i b, tbs t !! i = Some b -> tbs t' !! i = Some b.
Proof.
  intros I Hptr Hc HK Hb. cbn zeta. unfold linked_new. cbn zeta.
  set (P := Z.land _ _). assert (HP : P <= code_gen_buffer_size) by (by apply gen_ptr_ok). clearbody P.
  set (t1 := set_code_gen_ptr P (set_invalidated_flag fl t)).
  set (b0 := mkTB (a_pc a) 0 (tb_flags (a_cpu a)) (4 * Z.of_nat K) (code_gen_ptr t) c None (None, None) (0, 0) (None, None) (None, None) None).
  assert (E : set_code_gen_ptr P (tb_update (nb_tbs t) (fun b => mkTB (b_pc b) 0 (tb_flags (a_cpu a)) (4 * Z.of_nat K) (code_gen_ptr t) c (b_phys_hash_next b)
      (b_page_next b) (b_page_addr b) (b_tb_next b) (b_jmp_next b) (b_jmp_first b)) (set_invalidated_flag fl (set_tbs (tbs t ++ [new_tb (a_pc a)]) t))) =
      set_tbs (tbs t ++ [b0]) t1).
  { unfold nb_tbs. change (set_invalidated_flag fl (set_tbs (tbs t ++ [new_tb (a_pc a)]) t)) with (set_tbs (tbs t ++ [new_tb (a_pc a)]) (set_invalidated_flag fl t)).
    by rewrite update_last. }
  cbn [code_gen_ptr set_invalidated_flag set_tbs]. rewrite E. clear E.
  destruct (tb_link_phys_new (tbs t) b0 (get_phys_addr_code (a_phys a) (a_pc a)) NO_PAGE t1) as (pn & ft & E).
  unfold nb_tbs. rewrite E. clear E. set (b := linked_tb _ _ _ _ b0).
  assert (Hf : tb_fits (a_phys a) b) by (by apply fits_intro).
  assert (Hh : tb_phys_hash_func (b_phys_pc b) = tb_phys_hash_func (get_phys_addr_code (a_phys a) (a_pc a))) by apply hash_phys.
  destruct arm_ctx as [T C]. split; [|split; [|split]].
  - eapply (tb_inv_new F (a_phys a) t _ b); try done.
    + split; [done|exact find_page|done|]. exists e, (a_phys a), K. split; [exact feature_ctx|]. split; [done|]. split; [done|].
      split; [exact find_ranges|]. split; [|done]. cbn. symmetry. apply (tb_flags_ctx (a_cpu a)). exact find_ctx.
    + by rewrite Hh.
    + by rewrite Hh.
  - exists b. split; [by apply (list_lookup_middle (tbs t) [])|done].
  - done.
  - intros i x Hx. cbn. rewrite lookup_app_l; [done|]. by eapply lookup_lt_Some.
Qed.

Lemma inv_flag fl t : inv t -> inv (set_invalidated_flag fl t).
Proof.
  intros [I1 I2 I3 I4 I5 I6]. split; try done.
  - destruct I1 as [L W]. exists L. by apply (jmp_wf_other _ t).
  - destruct I2 as [H W]. exists H. by apply (hash_wf_other _ t).
Qed.

Lemma alloc_room pc t tb t1 : tb_alloc code_gen_buffer_max_size code_gen_max_blocks pc t = Some (tb, t1) ->
  tb = nb_tbs t /\ t1 = set_tbs (tbs t ++ [new_tb pc]) t /\ code_gen_ptr t < code_gen_buffer_max_size.
Proof.
  unfold tb_alloc. destruct (_ || _) eqn:Ea; [done|]. intros [= <- <-]. apply orb_false_iff in Ea as [_ Ea%Z.leb_gt]. done.
Qed.

Lemma tb_gen_code_ok t : inv t -> tb_invalidated_flag t = false ->
  exists tb t', gen_tb e (a_phys a) (a_pc a) 0 (tb_flags (a_cpu a)) t = Ok (tb, t') /\ inv t' /\ tb_for t' tb /\
    (tb_invalidated_flag t' = false -> forall i b, tbs t !! i = Some b -> tbs t' !! i = Some b).
Proof.
  intros I Hfl. destruct arm_ctx as [T C].
  destruct (block_runs (fun _ => false) e (a_phys a)) as (c & k & K & ef & out & Ec & HK & Hb & _); [by rewrite feature_ctx|done|done|exact user_ctx|done|].
  pose proof (block_one_page (a_pc a) K find_page HK Hb) as Hone.
  assert (Hu : page_of (u32 (a_pc a + 4 * Z.of_nat K - 1)) = page_of (a_pc a)) by done.
  unfold tb_gen_code. cbn zeta. destruct (tb_alloc _ _ (a_pc a) t) as [[tb t1]|] eqn:Ea.
  - destruct (alloc_room _ _ _ _ Ea) as (-> & -> & Hroom). cbn [rbind]. rewrite Ec. cbn [rbind]. rewrite Hu, Z.eqb_refl.
    destruct (linked_new_ok t c K false I Hroom Ec HK Hb) as (I' & Hf & _ & Hold).
    do 2 eexists. split; [reflexivity|]. 
    assert (Es : set_tbs (tbs t ++ [new_tb (a_pc a)]) t = set_invalidated_flag false (set_tbs (tbs t ++ [new_tb (a_pc a)]) t)) by (rewrite <- Hfl; by destruct t).
    rewrite Es. split; [exact I'|]. split; [exact Hf|]. intros _. exact Hold.
  - unfold tb_flush. destruct (Z.ltb_spec code_gen_buffer_size (code_gen_ptr t)) as [Hx|_]; [pose proof (ti_ptr _ _ _ I); lia|]. cbn [rbind].
    set (t0 := mkTbs _ _ _ _ _ _ _ _). assert (I0 : inv t0) by apply tb_inv_empty.
    destruct (tb_alloc _ _ (a_pc a) t0) as [[tb t1]|] eqn:Ea0.
    2: { unfold tb_alloc in Ea0. destruct (_ || _) eqn:Eo in Ea0; [|done]. apply orb_true_iff in Eo as [Eo|Eo]; apply Z.leb_le in Eo; cbn in Eo; lia. }
    destruct (alloc_room _ _ _ _ Ea0) as (-> & -> & Hroom). cbn [rbind]. rewrite Ec. cbn [rbind]. rewrite Hu, Z.eqb_refl.
    destruct (linked_new_ok t0 c K true I0 Hroom Ec HK Hb) as (I' & Hf & Hflag & _).
    do 2 eexists. split; [reflexivity|]. split; [exact I'|]. split; [exact Hf|].
    intros Hff. exfalso. unfold linked_new in Hflag. cbn zeta in Hflag. congruence.
Qed.

Lemma tb_search_ok phys pc cs_base flags page t p l fuel : hchain t p l -> (length l <= fuel)%nat ->
  exists r, tb_search fuel phys pc cs_base flags page p t = Ok r /\
    forall tb, r = Some tb -> exists b, tbs t !! tb = Some b /\ b_pc b = pc /\ fst (b_page_addr b) = page /\ b_flags b = flags.
Proof.
  intros Hc. revert fuel. induction Hc as [|i b l Hb Hc IH]; intros fuel Hf; [destruct fuel; cbn; by eexists|].
  cbn in Hf. destruct fuel as [|fuel]; [lia|]. cbn [tb_search]. unfold tb_at. rewrite Hb. cbn [rbind]. cbn zeta.
  destruct (IH fuel ltac:(lia)) as (r & -> & Hr). destruct (_ && _ && _ && _) eqn:Em; [|by exists r].
  apply andb_true_iff in Em as [[[E1 E2]%andb_true_iff E3]%andb_true_iff E4]. apply Z.eqb_eq in E1, E2, E4. clear E3.
  assert (Hi : exists r, Ok (Some i) = Ok r /\ forall tb, r = Some tb -> exists b, tbs t !! tb = Some b /\ b_pc b = pc /\ fst (b_page_addr b) = page /\ b_flags b = flags).
  { exists (Some i). split; [done|]. intros tb [= <-]. by exists b. }
  destruct (negb _); [|exact Hi]. destruct (_ =? _); [exact Hi|by exists r].
Qed.

Lemma inv_cache t tb : inv t -> tb_for t tb -> inv (set_jmp_cache (<[tb_jmp_cache_hash_func (a_pc a) := tb]> (tb_jmp_cache t)) t).
Proof.
  intros [I1 I2 I3 I4 I5 I6] (b & Hb & Hpc & _ & Hf). split; try done.
  - destruct I1 as [L W]. exists L. by apply (jmp_wf_other _ t).
  - destruct I2 as [H W]. exists H. by apply (hash_wf_other _ t).
  - intros h i. cbn. destruct (decide (h = tb_jmp_cache_hash_func (a_pc a))) as [->|Hne].
    + rewrite lookup_insert_eq. intros [= <-]. exists b. by rewrite Hpc.
    + rewrite lookup_insert_ne by done. apply I5.
Qed.

Definition found_ok (t : tb_state) (r : res (nat * tb_state)) : Prop :=
  exists tb t', r = Ok (tb, t') /\ inv t' /\ tb_for t' tb /\
    (tb_invalidated_flag t' = false -> forall i b, tbs t !! i = Some b -> tbs t' !! i = Some b).

Lemma tb_find_slow_ok t : inv t -> found_ok t (find_slow e (a_phys a) (a_pc a) 0 (tb_flags (a_cpu a)) t).
Proof.
  intros I. unfold tb_find_slow. cbn zeta. pose proof (inv_flag false t I) as I1. set (t1 := set_invalidated_flag false t) in *.
  destruct (ti_hash _ _ _ I1) as [H W]. set (pp := get_phys_addr_code (a_phys a) (a_pc a)).
  destruct (tb_search_ok (a_phys a) (a_pc a) 0 (tb_flags (a_cpu a)) (page_of pp) t1 _ _ (nb_tbs t1)
    (hw_chain _ _ _ W (tb_phys_hash_func pp))) as (r & -> & Hr); [eapply bucket_length; apply W|]. cbn [rbind]. destruct r as [tb|].
  - cbn [rbind]. destruct (Hr tb eq_refl) as (b & Hb & Hpc & Hpg & Hfl).
    assert (Hfor : tb_for t1 tb) by (exists b; repeat (split; [done|]); by apply fits_intro).
    do 2 eexists. split; [reflexivity|]. split; [by apply inv_cache|]. split; [exact Hfor|]. done.
  - destruct (tb_gen_code_ok t1 I1 eq_refl) as (tb & t2 & -> & I2 & Hfor & Hold). cbn [rbind].
    do 2 eexists. split; [reflexivity|]. split; [by apply inv_cache|]. split; [exact Hfor|]. exact Hold.
Qed.

(** The lookup returns the block for the state of the processor. *)
Lemma tb_find_fast_ok t : inv t -> elt e regs 15 = a_pc a -> found_ok t (find_fast e (a_phys a) t).
Proof.
  intros I Hpc. unfold tb_find_fast.
  assert (cpu_get_tb_cpu_state e = (a_pc a, 0, tb_flags (a_cpu a))) as ->.
  { rewrite <- (tb_flags_ctx (a_cpu a) e find_ctx). unfold tb_flags, cpu_get_tb_cpu_state. by rewrite Hpc. }
  destruct (tb_jmp_cache t !! _) as [tb|] eqn:Ec; [|by apply tb_find_slow_ok].
  destruct (ti_cache _ _ _ I _ _ Ec) as (b & Hb & Hf & _). unfold tb_at. rewrite Hb. cbn [rbind].
  destruct (_ || _ || _) eqn:Em; [by apply tb_find_slow_ok|].
  apply orb_false_iff in Em as [[E1 _]%orb_false_iff E3]. apply negb_false_iff, Z.eqb_eq in E1, E3.
  do 2 eexists. split; [reflexivity|]. split; [done|]. split; [by exists b|done].
Qed.
End Find.

(** ** The loop and the architecture *)

Section Sim.
Context (a0 : arch) (tr : list event) (Hok0 : arch_ok a0).
Abbreviation run := (arch_run mem do_interrupt_v7m do_arm_semihosting a0 tr).
Abbreviation stepped := (arch_step mem do_interrupt_v7m do_arm_semihosting).
Abbreviation interrupt := (ArmArch.cpu_do_interrupt do_interrupt_v7m do_arm_semihosting).
Abbreviation F := (fld (a_cpu a0) features).
Context (Hsafe : forall a, run a -> runs_arm mem a).

(** The jump [n] of block [t] stands for the program counter. *)
Definition next_ok (a : arch) (t : tb_state) (next : option (nat * Z)) : Prop :=
  forall i n, next = Some (i, n) -> slot n /\ exists b, tbs t !! i = Some b /\ tb_slots b n = Some (a_pc a) /\
    page_of (b_pc b) = page_of (a_pc a) /\ b_flags b = tb_flags (a_cpu a) /\ tb_fits (a_phys a) b.

Definition pos_ok (s : vm) (a : arch) : Prop :=
  match v_pos s with
  | Stopped _ => v_cpu s ≈ a_cpu a /\ a_pending a = None
  | Setjmp => v_cpu s ≈ a_cpu a /\
      match a_pending a with
      | Some x => fld (v_cpu s) exception_index = x
      | None => fld (v_cpu s) exception_index < 0 \/ EXCP_INTERRUPT <= fld (v_cpu s) exception_index
      end
  | Inner next => v_cpu s ≈ a_cpu a /\ a_pending a = None /\ v_current_tb s = None /\ next_ok a (v_tb s) next
  | Found tb next => v_cpu s ≈ a_cpu a /\ a_pending a = None /\ tb_for a (v_tb s) tb /\ next_ok a (v_tb s) next /\
      forall c, v_current_tb s = Some c -> c = tb
  | Code tb => v_cpu s ≃ a_cpu a /\ a_pending a = None /\ tb_for a (v_tb s) tb /\
      ((exists c, v_current_tb s = Some c /\ rtc (leads (v_tb s)) c tb) \/ forall k, slot k -> link (v_tb s) tb k = None)
  end.

Record sim (s : vm) (a : arch) : Prop := {
  si_ok : cpu_ok (v_cpu s);
  si_phys : v_phys s = a_phys a;
  si_tb : tb_inv F (a_phys a) (v_tb s);
  si_flag : tb_invalidated_flag (v_tb s) = false;
  si_cur c : v_current_tb s = Some c -> (c < nb_tbs (v_tb s))%nat;
  si_pos : pos_ok s a }.

Definition reached (s : vm) : Prop := exists a, run a /\ sim s a.

Lemma run_features a : run a -> fld (a_cpu a) features = F.
Proof.
  clear Hsafe. induction 1 as [|tr' a a' Hr IH Hst|tr' a ev Hr IH]; [done| |by destruct ev].
  rewrite <- IH. pose proof (arch_run_ok _ _ _ _ _ _ Hok0 Hr) as Hok. pose proof Hok as [A1 A2 A3 _ _].
  assert (Hi : forall ef, a_insn mem a = Ok ef -> fld (effect_cpu ef) features = fld (a_cpu a) features).
  { intros ef H. destruct (ref_insn_keeps _ _ _ _ _ _ A1 A2 (a_pc_u32 _ Hok) H) as [(_ & _ & [K _]) _]. apply K. in_list. }
  assert (Hx : forall x e, interrupt (setf exception_index x (a_cpu a)) = Ok e -> fld e features = fld (a_cpu a) features).
  { intros x e H. destruct (kept_ok_index x _ A1 A2) as [K1 K2].
    destruct (interrupt_keeps _ _ _ _ _ _ K1 K2 A3 H) as (_ & _ & I3 & _). rewrite I3 by (in_list || done). done. }
  destruct Hst as [e Hp H|e Hp H|x e Hp H|x e Hp H|x e Hp Hxx H|x|n Hn]; cbn [a_cpu set_a_cpu];
    [exact (Hi _ H)|exact (Hi _ H)|exact (Hi _ H)|exact (Hx _ _ H)|exact (Hx _ _ H)|done|done].
Qed.

Lemma run_index a x : run a -> run (set_a_cpu (setf exception_index x (a_cpu a)) a).
Proof. intros H. eapply arch_next; [exact H|apply step_index]. Qed.
Lemma run_note a n : n ∈ loop_notes -> run a -> run (set_a_cpu (setf interrupt_request (andn (fld (a_cpu a) interrupt_request) n) (a_cpu a)) a).
Proof. intros Hn H. eapply arch_next; [exact H|by apply step_note]. Qed.
Lemma equiv_index x e1 e2 : e1 ≈ e2 -> setf exception_index x e1 ≈ setf exception_index x e2.
Proof. intros H. apply equiv_setf_eq; [not_in_list|done|done]. Qed.
Lemma equiv_note n e1 e2 : e1 ≈ e2 ->
  setf interrupt_request (andn (fld e1 interrupt_request) n) e1 ≈ setf interrupt_request (andn (fld e2 interrupt_request) n) e2.
Proof. intros H. apply equiv_setf_eq; [not_in_list|done|]. f_equal. by apply equiv_fld; [|not_in_list]. Qed.
Lemma equiv_mode e1 e2 : e1 ≈ e2 -> mode_ok e2 -> mode_ok e1.
Proof. intros H. unfold mode_ok, cur_mode. by rewrite (equiv_fld e1 e2) by (done || not_in_list). Qed.
Lemma equiv_m e1 e2 : e1 ≈ e2 -> arm_feature e2 ARM_FEATURE_M = false -> arm_feature e1 ARM_FEATURE_M = false.
Proof. intros H. unfold arm_feature. by rewrite (equiv_fld e1 e2) by (done || not_in_list). Qed.

(** An exception that both sides take. *)
Lemma interrupt_both e a x : e ≈ a_cpu a -> cpu_ok e -> arch_ok a -> x ∈ [EXCP_UDEF; EXCP_SWI; EXCP_IRQ; EXCP_FIQ] ->
  exists e1 e2, interrupt (setf exception_index x e) = Ok e1 /\ interrupt (setf exception_index x (a_cpu a)) = Ok e2 /\
    e1 ≈ e2 /\ cpu_ok e1 /\ fld e1 interrupt_request = Z.lor (fld e interrupt_request) CPU_INTERRUPT_EXITTB.
Proof.
  intros He Hok [A1 A2 A3 _ _] Hx. pose proof (equiv_mode _ _ He A2) as Hm. pose proof (equiv_m _ _ He A3) as HM.
  destruct (kept_ok_index x _ Hok Hm) as [K1 K2], (kept_ok_index x _ A1 A2) as [L1 _].
  destruct (interrupt_defined do_interrupt_v7m do_arm_semihosting (fun _ => 0) (fun _ => 0) (setf exception_index x e) K1 K2 HM) as [e1 E1]; [by cpu_simpl|].
  destruct (interrupt_equiv _ _ _ _ _ _ _ (equiv_index x _ _ He) K1 L1 HM E1) as (e2 & E2 & Heq).
  destruct (interrupt_keeps _ _ _ _ _ _ K1 K2 HM E1) as (I1 & _ & _ & _ & _ & _ & I2).
  exists e1, e2. split; [exact E1|]. split; [exact E2|]. split; [done|]. split; [done|]. by rewrite I2.
Qed.

Lemma set_index_same e : setf exception_index (fld e exception_index) e ≈ e.
Proof. split; [|done]. intros f _. cbn. by case_decide; subst. Qed.

(** The machine's processor and the architecture's, side by side. *)
Definition both (e : CPUARMState) (a : arch) : Prop := run a /\ e ≈ a_cpu a /\ cpu_ok e.

Lemma both_ok e a : both e a -> arch_ok a.
Proof. intros (Hr & _). exact (arch_run_ok _ _ _ _ _ _ Hok0 Hr). Qed.
Lemma both_index e a x : both e a -> both (setf exception_index x e) (set_a_cpu (setf exception_index x (a_cpu a)) a).
Proof.
  intros Hb. pose proof (both_ok _ _ Hb) as Hok. destruct Hb as (Hr & He & Hc). split; [by apply run_index|]. split; [by apply equiv_index|].
  apply kept_ok_index; [done|]. by eapply equiv_mode, Hok.
Qed.
Lemma both_note e a n : n ∈ loop_notes -> both e a ->
  both (setf interrupt_request (andn (fld e interrupt_request) n) e)
    (set_a_cpu (setf interrupt_request (andn (fld (a_cpu a) interrupt_request) n) (a_cpu a)) a).
Proof.
  intros Hn Hb. pose proof (both_ok _ _ Hb) as Hok. destruct Hb as (Hr & He & Hc). split; [by apply run_note|]. split; [by apply equiv_note|].
  apply kept_ok_request; [done|]. by eapply equiv_mode, Hok.
Qed.

Definition both_at (phys : Z -> Z) (p : option Z) (e : CPUARMState) : Prop :=
  exists a, both e a /\ a_phys a = phys /\ a_pending a = p.

Lemma take_irq e a x : both e a -> a_pending a = None -> irq_enabled e x = true ->
  exists e1, interrupt (setf exception_index x e) = Ok e1 /\ both_at (a_phys a) None e1 /\
    fld e1 interrupt_request = Z.lor (fld e interrupt_request) CPU_INTERRUPT_EXITTB.
Proof.
  intros Hb Hp Hx. pose proof (both_ok _ _ Hb) as Hok. destruct Hb as (Hr & He & Hc).
  assert (Hin : x ∈ [EXCP_UDEF; EXCP_SWI; EXCP_IRQ; EXCP_FIQ]).
  { unfold irq_enabled in Hx. destruct (Z.eqb_spec x EXCP_FIQ) as [->|]; [in_list|]. destruct (Z.eqb_spec x EXCP_IRQ) as [->|]; [in_list|done]. }
  destruct (interrupt_both e a x He Hc Hok Hin) as (e1 & e2 & E1 & E2 & Heq & Hok1 & Hreq). exists e1. split; [exact E1|]. split; [|exact Hreq].
  exists (set_a_cpu e2 a). split; [|done]. split; [|done]. eapply arch_next; [exact Hr|]. eapply step_irq; [done| |exact E2].
  unfold irq_enabled in *. by rewrite <- !(equiv_fld e (a_cpu a)) by (done || not_in_list).
Qed.

Lemma request_bit r m : Z.land CPU_INTERRUPT_EXITTB m = 0 -> Z.land (Z.lor r CPU_INTERRUPT_EXITTB) m = Z.land r m.
Proof. intros H. by rewrite Z.land_lor_distr_l, H, Z.lor_0_r. Qed.

(** What [loop_interrupts] may return for a state that is reached. *)
Definition interrupts_ok (s : vm) (a : arch) (r : vm + CPUARMState * bool) : Prop :=
  match r with
  | inl s' => exists e, both_at (a_phys a) None e /\ EXCP_INTERRUPT <= fld e exception_index /\ 
      exists h, s' = set_pos Setjmp (set_halted h (set_cpu e s))
  | inr (e, false) => e = v_cpu s
  | inr (e, true) => both_at (a_phys a) None e
  end.

Abbreviation interrupts := (loop_interrupts do_interrupt_v7m do_arm_semihosting).

Lemma loop_interrupts_ok s a : both (v_cpu s) a -> a_pending a = None -> exists r, interrupts s = Ok r /\ interrupts_ok s a r.
Proof.
  intros Hb Hp. pose proof (both_ok _ _ Hb) as Hok. unfold loop_interrupts. cbn zeta. set (e := v_cpu s) in *. set (r := fld e interrupt_request).
  destruct (ctrue r); cbn [negb]; [|by eexists].
  destruct (ctrue (Z.land r CPU_INTERRUPT_DEBUG)).
  { eexists. split; [reflexivity|]. eexists. split; [|split; [|exists (v_halted s); reflexivity]]; [|by cpu_simpl].
    eexists. split; [by apply both_index, both_note; [in_list|]|done]. }
  destruct (ctrue (Z.land r CPU_INTERRUPT_HALT)).
  { eexists. split; [reflexivity|]. eexists. split; [|split; [|exists true; reflexivity]]; [|by cpu_simpl].
    eexists. split; [by apply both_index, both_note; [in_list|]|done]. }
  assert (Hfiq : exists e1 flow, (if ctrue (Z.land r CPU_INTERRUPT_FIQ) && negb (ctrue (Z.land (fld e uncached_cpsr) CPSR_F))
      then let! e := interrupt (setf exception_index EXCP_FIQ e) in Ok (e, true) else Ok (e, false)) = Ok (e1, flow) /\
      both_at (a_phys a) None e1 /\ (flow = false -> e1 = e) /\ Z.land (fld e1 interrupt_request) CPU_INTERRUPT_HARD = Z.land r CPU_INTERRUPT_HARD).
  { destruct (_ && _) eqn:Ef; [|exists e, false; split; [done|]; split; [by exists a|done]].
    destruct (take_irq e a EXCP_FIQ Hb Hp) as (e1 & -> & H1 & H2); [unfold irq_enabled; cbn [Z.eqb]; by rewrite orb_false_r|].
    exists e1, true. split; [done|]. split; [done|]. split; [done|]. rewrite H2. by apply request_bit. }
  destruct Hfiq as (e1 & flow1 & -> & (a1 & Hb1 & Hph1 & Hp1) & Hfl1 & Hhard). cbn [rbind].
  pose proof (both_ok _ _ Hb1) as Hok1. assert (HM : arm_feature e1 ARM_FEATURE_M = false) by (eapply equiv_m; [apply Hb1|apply Hok1]).
  rewrite HM. cbn [andb orb].
  assert (Hirq : exists e2 flow, (if ctrue (Z.land r CPU_INTERRUPT_HARD) && negb (ctrue (Z.land (fld e1 uncached_cpsr) CPSR_I))
      then let! e := interrupt (setf exception_index EXCP_IRQ e1) in Ok (e, true) else Ok (e1, flow1)) = Ok (e2, flow) /\
      both_at (a_phys a) None e2 /\ (flow = false -> e2 = e)).
  { destruct (_ && _) eqn:Ef; [|exists e1, flow1; split; [done|]; split; [by exists a1|done]].
    destruct (take_irq e1 a1 EXCP_IRQ Hb1 Hp1) as (e2 & -> & H1 & H2).
    { unfold irq_enabled. change (EXCP_IRQ =? EXCP_FIQ) with false. change (EXCP_IRQ =? EXCP_IRQ) with true. cbn [andb orb].
      by rewrite (Hhard : Z.land (fld e1 interrupt_request) 2 = _). }
    exists e2, true. rewrite <- Hph1. done. }
  destruct Hirq as (e2 & flow2 & -> & (a2 & Hb2 & Hph2 & Hp2) & Hfl2). cbn [rbind].
  destruct (ctrue _).
  - eexists. split; [reflexivity|]. eexists. split; [by apply both_note; [in_list|]|done].
  - eexists. split; [reflexivity|]. destruct flow2; cbn; [by exists a2|auto].
Qed.

(** Blocks keep their meaning when jumps are patched or reset. *)
Lemma tb_for_same a t t' tb : same_blocks t t' -> tb_for a t tb -> tb_for a t' tb.
Proof.
  intros Hs (b & Hb & H1 & H2 & H3). destruct (same_lookup' _ _ _ _ Hs Hb) as (b' & Hb' & E). exists b'.
  destruct (strip_pc _ _ E) as (P & Fl & _). split; [done|]. rewrite P, Fl. split; [done|]. split; [done|]. by eapply fits_strip_eq.
Qed.
Lemma next_ok_same a t t' next : same_blocks t t' -> next_ok a t next -> next_ok a t' next.
Proof.
  intros Hs Hn i n E0. destruct (Hn i n E0) as (Hsl & b & Hb & H1 & H2 & H3 & H4). split; [done|].
  destruct (same_lookup' _ _ _ _ Hs Hb) as (b' & Hb' & E). exists b'. destruct (strip_pc _ _ E) as (P & Fl & _ & S).
  split; [done|]. rewrite P, Fl, S. do 3 (split; [done|]). by eapply fits_strip_eq.
Qed.
Lemma next_ok_old a t t' next : (forall i b, tbs t !! i = Some b -> tbs t' !! i = Some b) -> next_ok a t next -> next_ok a t' next.
Proof. intros Ho Hn i n E0. destruct (Hn i n E0) as (Hsl & b & Hb & H). split; [done|]. exists b. split; [by apply Ho|done]. Qed.

(** The jump that led here may be patched. *)
Lemma next_link a t i n tb b : next_ok a t (Some (i, n)) -> tbs t !! tb = Some b -> tb_for a t tb ->
  slot n /\ exists bi, tbs t !! i = Some bi /\ link_good bi b n.
Proof.
  intros Hn Hb (b' & Hb' & H1 & H2 & H3). assert (b' = b) as -> by congruence.
  destruct (Hn i n eq_refl) as (Hsl & bi & Hbi & I1 & I2 & I3 & I4). split; [done|]. exists bi. split; [done|].
  split; [by rewrite H1|]. split; [by rewrite H1|]. split; [|congruence]. unfold tb_fits in *. rewrite <- H3, <- I4. f_equal.
  apply page_eq_div. congruence.
Qed.

Abbreviation find := (loop_find mem others buffer_full gen_code_size code_gen_buffer_size code_gen_buffer_max_size code_gen_max_blocks singlestep).

Lemma loop_find_ok s a next :
  both (v_cpu s) a -> a_pending a = None -> v_phys s = a_phys a -> tb_inv F (a_phys a) (v_tb s) -> next_ok a (v_tb s) next ->
  exists s', find next s = Ok s' /\ sim s' a /\ exists tb nx, v_pos s' = Found tb nx.
Proof.
  intros Hb Hp Hph I Hn. pose proof (both_ok _ _ Hb) as Hok. destruct Hb as (Hr & He & Hc). unfold loop_find. rewrite Hph.
  destruct (tb_find_fast_ok a0 tr Hok0 Hsafe a Hr Hp (v_cpu s) (equiv_pc_equiv _ _ He) Hc F (run_features a Hr) (v_tb s) I) as (tb & t & -> & I1 & Hfor & Hold).
  { by apply equiv_elt. }
  cbn [rbind]. set (nx := if tb_invalidated_flag t then None else next).
  assert (Hnx : next_ok a t nx).
  { unfold nx. destruct (tb_invalidated_flag t); [by intros ? ?|]. eapply next_ok_old; [by apply Hold|done]. }
  clearbody nx. apply (inv_flag a F false) in I1. set (t1 := set_invalidated_flag false t) in *.
  change (tb_for a t1 tb) in Hfor. change (next_ok a t1 nx) in Hnx.
  pose proof Hfor as (b & Hbb & _). unfold tb_at. rewrite Hbb. cbn [rbind].
  rewrite (tg_page _ _ (ti_good _ _ _ I1 _ _ Hbb)), Z.eqb_refl.
  assert (Hj : exists t2, match nx with Some (last, n) => tb_add_jump last n tb t1 | None => Ok t1 end = Ok t2 /\
      tb_inv F (a_phys a) t2 /\ same_blocks t1 t2).
  { destruct nx as [[i n]|]; [|by exists t1]. destruct (next_link a t1 i n tb b Hnx Hbb Hfor) as (Hsl & bi & Hbi & G).
    by apply (tb_inv_jump F (a_phys a) t1 i n tb bi b). }
  destruct Hj as (t2 & Ej & I2 & S2). rewrite Ej. cbn [rbind]. eexists. split; [reflexivity|]. split; [|by do 2 eexists].
  pose proof S2 as (_ & Hnb & _ & _ & _ & _ & Hfl). split; cbn [v_cpu v_phys v_tb v_current_tb set_pos set_current_tb set_tb]; try done.
  - intros c [= <-]. rewrite Hnb. by eapply lookup_lt_Some.
  - split; [done|]. split; [done|]. split; [by eapply tb_for_same|]. split; [by eapply next_ok_same|]. cbn. congruence.
Qed.

(** ** Running a block *)

Lemma arch_ranges a : arch_ok a -> ranges_ok (a_cpu a).
Proof. intros [(_ & (_ & _ & _ & _ & T & _ & C & _) & _) _ _ [V1 V2] _]. done. Qed.

(** A block that is right for the architecture's state runs as its
    instructions do. *)
Lemma block_exec e a t tb linked : run a -> a_pending a = None -> e ≃ a_cpu a -> cpu_ok e -> tb_inv F (a_phys a) t -> tb_for a t tb ->
  exists b ef out a', tbs t !! tb = Some b /\ exec linked None (b_code b) (fresh e) = Ok out /\
    outcome_ok linked (a_pc a) (a_cpu a) (tb_slots b) ef out /\ run a' /\ a_phys a' = a_phys a /\ effect_cpu ef ≈ a_cpu a' /\
    match ef with Jumps _ => a_pending a' = None | Traps x _ => a_pending a' = Some x | Follows _ => False end.
Proof.
  intros Hr Hp He Hc I (b & Hb & Hpc & Hfl & Hfit). pose proof (arch_run_ok _ _ _ _ _ _ Hok0 Hr) as Hok.
  destruct (ti_good _ _ _ I _ _ Hb) as [G1 G2 G3 (env0 & phys0 & K & E1 & E2 & E3 & E4 & E5 & E6 & E7 & E8 & E9 & E10)].
  assert (Hu : cpu_user env0 = cpu_user (a_cpu a)) by (apply tb_flags_user; [done|by apply arch_ranges|congruence]).
  assert (Hph : phys0 (a_pc a / 1024) = a_phys a (a_pc a / 1024)) by (unfold tb_fits in *; rewrite <- Hpc; congruence).
  destruct (block_runs a0 tr Hok0 Hsafe a Hr Hp e He Hc linked env0 phys0) as (c & k & K' & ef & out & T & HK & Hpg & Hrun' & Hx & Ho);
    [by rewrite run_features|done..|].
  rewrite <- Hpc, E7 in T. injection T as Ec Es. rewrite <- Ec in Hx.
  destruct (run_steps mem do_interrupt_v7m do_arm_semihosting a0 tr Hok0 (S k) a (a_cpu a) _ _ ef Hr Hp ltac:(done) eq_refl eq_refl Hrun')
    as (a' & Hr' & Hph' & Heq & Hpend').
  exists b, ef, out, a'. split; [done|]. split; [exact Hx|]. split; [|done].
  assert (Hs : forall n, block_slots (ldl_code mem phys0) (u32 (a_pc a + 4 * Z.of_nat K')) n = tb_slots b n).
  { intros n. unfold tb_slots. rewrite Es, Hpc. apply (slots_in_page mem (tb_map b) phys0 (a_pc a)); [by rewrite <- Hpc| |done|done].
    unfold tb_fits in E6. rewrite Hpc in E6. rewrite E6. done. }
  destruct ef as [|ef|x ef]; [done| |exact Ho]. refine (left_ok_weaken _ _ _ _ _ _ _ _ Ho _ _); [|done]. intros n tgt. by rewrite Hs.
Qed.

Lemma tb_slots_slot b n x : tb_slots b n = Some x -> slot n.
Proof. unfold tb_slots, block_slots, slot. destruct (Z.eqb_spec n 0); [auto|]. destruct (Z.eqb_spec n 1); auto. done. Qed.

Lemma code_step s a tb : run a -> sim s a -> v_pos s = Code tb -> exists s' a', tcg_qemu_tb_exec tb s = Ok s' /\ run a' /\ sim s' a'.
Proof.
  intros Hr [S1 S2 S3 S4 S5 S6] Hpos. unfold pos_ok in S6. rewrite Hpos in S6. destruct S6 as (He & Hp & Hfor & Hcur).
  set (linked := fun n => bool_decide (is_Some (link (v_tb s) tb n))).
  destruct (block_exec (v_cpu s) a (v_tb s) tb linked Hr Hp He S1 S3 Hfor) as (b & ef & out & a' & Hb & Hx & Ho & Hr' & Hph & Heq & Hpend).
  destruct Hfor as (b' & Hb' & Hpc & Hfl & Hfit). assert (b' = b) as -> by congruence.
  assert (Hlk : forall n, link (v_tb s) tb n = pick n (b_tb_next b)) by (intros n; unfold link; by rewrite Hb).
  unfold tcg_qemu_tb_exec, tb_at. rewrite Hb. cbn [rbind].
  assert (Hx' : exec (fun n => bool_decide (is_Some (pick n (b_tb_next b)))) None (b_code b) (fresh (v_cpu s)) = Ok out).
  { unfold linked, link in Hx. rewrite Hb in Hx. exact Hx. }
  rewrite Hx'. cbn [rbind]. clear Hx Hx'.
  assert (I' : tb_inv F (a_phys a') (v_tb s)) by (by rewrite Hph).
  assert (Hj : forall e1 n, e1 ≈ a_cpu a' -> jumped (a_pc a) (a_cpu a) (tb_slots b) e1 n ->
    tb_slots b n = Some (a_pc a') /\ page_of (b_pc b) = page_of (a_pc a') /\ b_flags b = tb_flags (a_cpu a')).
  { intros e1 n H1 (J1 & J2 & J3). unfold a_pc at 1 2. rewrite <- !(equiv_elt _ _ regs 15%nat H1). split; [done|]. split; [congruence|].
    rewrite (tb_flags_ctx e1 (a_cpu a')) by (by apply equiv_ctx). by rewrite (tb_flags_ctx _ _ J3). }
  assert (Hfit' : tb_fits (a_phys a') b) by (by rewrite Hph).
  destruct ef as [|e1|x e1]; [done| |]; cbn [effect_cpu outcome_ok] in *.
  - destruct out as [m|n e'|n e'|x e']; cbn [left_ok] in Ho; [done| | |done].
    + destruct Ho as (H1 & H2 & H3). eexists _, a'. split; [reflexivity|]. split; [done|].
      split; cbn [v_cpu v_phys v_tb v_current_tb set_pos set_current_tb set_cpu]; try done; [by rewrite Hph|].
      split; [cbn; by rewrite H1|]. split; [done|]. split; [done|]. intros i k E. cbn in E. destruct n as [n|]; [|done].
      injection E as <- <-. destruct H3 as [_ Hjj]. destruct (Hj _ _ Heq Hjj) as (J1 & J2 & J3).
      split; [by eapply tb_slots_slot|]. exists b. done.
    + destruct Ho as (H1 & H2 & H3 & Hjj). unfold linked in H3. apply bool_decide_eq_true in H3 as [t Ht]. rewrite <- Hlk, Ht.
      destruct (Hj _ _ Heq Hjj) as (J1 & J2 & J3). pose proof (tb_slots_slot _ _ _ J1) as Hsl.
      destruct (ti_link _ _ _ S3 tb n t b Hsl Hb Ht) as (bt & Hbt & L1 & L2 & L3 & L4).
      eexists _, a'. split; [reflexivity|]. split; [done|].
      split; cbn [v_cpu v_phys v_tb v_current_tb set_pos set_current_tb set_cpu]; try done; [by rewrite Hph|].
      split; [cbn; rewrite H1; by apply equiv_pc_equiv|]. split; [done|]. split.
      * exists bt. split; [done|]. assert (b_pc bt = a_pc a') as Hq by congruence. split; [done|]. split; [congruence|].
        unfold tb_fits in *. rewrite L3, <- Hfit'. f_equal. apply page_eq_div. congruence.
      * cbn [v_current_tb set_pos set_cpu v_tb]. destruct Hcur as [(c & Hc & Hrt)|Hno]; [|by rewrite Hno in Ht]. left. exists c. split; [done|].
        eapply rtc_r; [exact Hrt|]. by exists n.
  - destruct Ho as (e' & -> & H1 & H2). eexists _, (set_a_cpu (setf exception_index x (a_cpu a')) a'). split; [reflexivity|].
    assert (Hbo : both e' a') by (split; [done|]; split; [by rewrite H1|done]).
    destruct (both_index _ _ x Hbo) as (B1 & B2 & B3). split; [done|].
    split; cbn [v_cpu v_phys v_tb v_current_tb set_pos set_current_tb set_cpu a_phys set_a_cpu]; try done; [by rewrite Hph|].
    split; [done|]. cbn [a_pending set_a_cpu]. rewrite Hpend. cbn. done.
Qed.

(** ** Steps *)

Abbreviation step := (vm_step mem others buffer_full gen_code_size code_gen_buffer_size code_gen_buffer_max_size code_gen_max_blocks
  do_interrupt_v7m do_arm_semihosting singlestep).

Lemma setjmp_step s a : run a -> sim s a -> v_pos s = Setjmp -> exists s', step s = Ok s' /\ reached s'.
Proof.
  intros Hr [S1 S2 S3 S4 S5 S6] Hpos. unfold pos_ok in S6. rewrite Hpos in S6. destruct S6 as (He & Hp).
  unfold vm_step. rewrite Hpos. cbn zeta. assert (Hb : both (v_cpu s) a) by done. pose proof (both_ok _ _ Hb) as Hok.
  assert (Hin : forall e a', both e a' -> a_phys a' = a_phys a -> a_pending a' = None ->
    sim (set_pos (Inner None) (set_cpu e (set_current_tb None s))) a').
  { intros e a' (B1 & B2 & B3) Hph Hpe. split; cbn [v_cpu v_phys v_tb v_current_tb set_pos set_current_tb set_cpu]; by rewrite ?Hph. }
  destruct (a_pending a) as [x|] eqn:Hpe.
  - pose proof (ao_pending _ Hok x Hpe) as Hx. rewrite Hp.
    assert (Hx0 : (0 <=? x) = true /\ (EXCP_INTERRUPT <=? x) = false /\ x ∈ [EXCP_UDEF; EXCP_SWI; EXCP_IRQ; EXCP_FIQ]).
    { destruct Hx as [-> | ->]; (split; [done|]; split; [done|]; in_list). }
    destruct Hx0 as (-> & -> & Hx1).
    destruct (interrupt_both (v_cpu s) a x He S1 Hok Hx1) as (e1 & e2 & E1 & E2 & Heq & Hc1 & _).
    assert (Hm : mode_ok (v_cpu s)) by (eapply equiv_mode; [exact He|apply Hok]).
    pose proof (equiv_m _ _ He (ao_m _ Hok)) as HM. destruct (kept_ok_index x _ S1 Hm) as [K1 _].
    assert (Hsame : setf exception_index x (v_cpu s) ≈ v_cpu s) by (rewrite <- Hp; apply set_index_same).
    destruct (interrupt_equiv _ _ _ _ _ _ _ Hsame K1 S1 HM E1) as (e1' & E1' & Heq').
    change (interrupt (v_cpu s) = Ok e1') in E1'. rewrite E1'. cbn [rbind]. eexists. split; [reflexivity|].
    destruct (interrupt_keeps _ _ _ _ _ _ S1 Hm HM E1') as (I1 & _).
    assert (Hbo : both e1' (mkArch e2 (a_phys a) None)).
    { split; [eapply arch_next; [exact Hr|by eapply step_taken]|]. split; [cbn; by rewrite <- Heq'|done]. }
    pose proof (both_index _ _ (-1) Hbo) as Hbo2. eexists. split; [apply Hbo2|]. by apply Hin.
  - destruct (Z.leb_spec 0 (fld (v_cpu s) exception_index)).
    + destruct (Z.leb_spec EXCP_INTERRUPT (fld (v_cpu s) exception_index)); [|lia]. eexists. split; [reflexivity|]. exists a. split; [done|].
      split; try done.
    + eexists. split; [reflexivity|]. exists a. split; [done|]. by apply (Hin (v_cpu s) a).
Qed.

Lemma setjmp_sim s e h x a : tb_inv F (a_phys a) (v_tb s) -> tb_invalidated_flag (v_tb s) = false -> v_phys s = a_phys a ->
  (forall c, v_current_tb s = Some c -> (c < nb_tbs (v_tb s))%nat) ->
  both e a -> a_pending a = None -> EXCP_INTERRUPT <= fld e exception_index ->
  sim (set_pos Setjmp (set_cpu e (set_halted h (set_exit_request x s)))) a.
Proof.
  intros I Hfl Hph Hcur (B1 & B2 & B3) Hp Hx. split; try done. split; [done|]. rewrite Hp. by right.
Qed.

Lemma inner_step s a next : run a -> sim s a -> v_pos s = Inner next -> exists s', step s = Ok s' /\ reached s'.
Proof.
  intros Hr [S1 S2 S3 S4 S5 S6] Hpos. unfold pos_ok in S6. rewrite Hpos in S6. destruct S6 as (He & Hp & Hcur & Hnext).
  unfold vm_step. rewrite Hpos. cbn zeta. assert (Hb : both (v_cpu s) a) by done.
  destruct (loop_interrupts_ok s a Hb Hp) as (r & -> & Hi). cbn [rbind]. destruct r as [s'|[e flow]].
  - destruct Hi as (e & (a' & Hb' & Hph & Hp') & Hx & h & ->). eexists. split; [reflexivity|]. exists a'. split; [apply Hb'|].
    refine (setjmp_sim s e h (v_exit_request s) a' _ _ _ _ _ _ _); rewrite ?Hph; done.
  - assert (H : exists a', both e a' /\ a_phys a' = a_phys a /\ a_pending a' = None /\ next_ok a' (v_tb s) (if flow then None else next)).
    { destruct flow; cbn in Hi; [|subst; by exists a]. destruct Hi as (a' & Hb' & Hph & Hp'). exists a'. do 3 (split; [done|]). by intros ? ?. }
    destruct H as (a' & Hb' & Hph & Hp' & Hn'). cbn [v_exit_request set_cpu]. destruct (v_exit_request s).
    + eexists. split; [reflexivity|]. pose proof (both_index _ _ EXCP_INTERRUPT Hb') as Hb2. eexists. split; [apply Hb2|].
      refine (setjmp_sim (set_cpu e s) _ (v_halted s) false _ _ _ _ _ _ _ _); cbn [a_phys set_a_cpu v_tb v_phys v_current_tb set_cpu]; by rewrite ?Hph.
    + destruct (loop_find_ok (set_cpu e s) a' (if flow then None else next)) as (s' & E & Hs' & _);
        cbn [v_cpu v_tb v_phys set_cpu]; rewrite ?Hph; try done. eexists. split; [exact E|]. exists a'. split; [apply Hb'|done].
Qed.

(** Every step of the loop is defined, and the architecture reaches a state
    that corresponds. *)
Lemma vm_step_sim s : reached s -> exists s', step s = Ok s' /\ reached s'.
Proof.
  intros (a & Hr & Hs). destruct (v_pos s) as [ret| |next|tb next|tb] eqn:Hpos.
  - destruct Hs as [S1 S2 S3 S4 S5 S6]. unfold pos_ok in S6. rewrite Hpos in S6. destruct S6 as (He & Hp).
    unfold vm_step. rewrite Hpos. cbn zeta. destruct (_ && _).
    + eexists. split; [reflexivity|]. exists a. split; [done|]. split; done.
    + eexists. split; [reflexivity|]. assert (Hb : both (v_cpu s) a) by done. pose proof (both_index _ _ (-1) Hb) as (B1 & B2 & B3).
      eexists. split; [exact B1|]. split; try done. split; [done|]. cbn [a_pending set_a_cpu]. rewrite Hp. left. cbn. done.
  - by eapply setjmp_step.
  - by eapply inner_step.
  - destruct Hs as [S1 S2 S3 S4 S5 S6]. unfold pos_ok in S6. rewrite Hpos in S6. destruct S6 as (He & Hp & Hfor & Hn & Hc).
    unfold vm_step. rewrite Hpos. cbn zeta.
    destruct (v_exit_request s); [|destruct (v_current_tb s) as [c|] eqn:Ec; [pose proof (Hc c eq_refl) as ->|]]; cbn; rewrite ?Ec;
      (eexists; split; [reflexivity|]; exists a; split; [done|]; split; cbn [v_cpu v_phys v_tb v_current_tb set_pos set_current_tb]; try done);
      unfold pos_ok; cbn [v_cpu v_phys v_tb v_current_tb v_pos set_pos set_current_tb].
    + intros c. rewrite Ec. intros [= <-]. by apply S5.
    + split; [by apply equiv_pc_equiv|]. split; [done|]. split; [done|]. left. exists tb. done.
    + intros c. by rewrite Ec.
  - destruct (code_step s a tb Hr Hs Hpos) as (s' & a' & E & Hr' & Hs'). exists s'. split; [|by exists a']. unfold vm_step. rewrite Hpos. exact E.
Qed.
End Sim.

(** ** Events *)

Section Events.
Context (a0 : arch).
Abbreviation sim := (sim a0).

(** Jumps that are reset on the way. *)
Lemma unlink_sim s a : sim s a -> exists s', cpu_unlink_tb s = Ok s' /\ sim s' a /\ v_current_tb s' = None /\
  v_pos s' = v_pos s /\ v_exit_request s' = v_exit_request s.
Proof.
  intros Hsim. pose proof Hsim as [S1 S2 S3 S4 S5 S6]. unfold cpu_unlink_tb. destruct (v_current_tb s) as [c|] eqn:Ec; [|by exists s].
  destruct (tb_inv_unlink _ _ _ c S3 (S5 c eq_refl)) as (t' & -> & I' & Hs & U & Hno). cbn [rbind].
  eexists. split; [reflexivity|]. split; [|done]. pose proof Hs as (_ & _ & _ & _ & _ & _ & Hfl).
  split; cbn [v_cpu v_phys v_tb v_current_tb set_tb set_current_tb]; try done; [by rewrite Hfl|].
  unfold pos_ok in *. cbn [v_cpu v_phys v_tb v_current_tb v_pos set_tb set_current_tb]. destruct (v_pos s) as [ret| |next|tb next|tb].
  - done.
  - done.
  - destruct S6 as (He & Hp & Hcur & Hn). congruence.
  - destruct S6 as (He & Hp & Hfor & Hn & Hcur). do 2 (split; [done|]). split; [by eapply tb_for_same|]. split; [by eapply next_ok_same|done].
  - destruct S6 as (He & Hp & Hfor & Hcur). do 2 (split; [done|]). split; [by eapply tb_for_same|]. right.
    destruct Hcur as [(c' & Hc & Hrt)|Hno']; [|intros k Hk; destruct (ul_less _ _ U tb k Hk) as [->| ->]; auto].
    assert (c' = c) as -> by congruence. intros k Hk. by eapply unlinked_reach.
Qed.

Lemma request_ok x e : cpu_ok e -> cpu_ok (setf interrupt_request x e).
Proof. intros (S & W & R). split; [done|]. split; [exact W|]. by apply words_setf. Qed.
Lemma equiv_request x y e1 e2 : e1 ≈ e2 -> x = y -> setf interrupt_request x e1 ≈ setf interrupt_request y e2.
Proof. intros H E. apply equiv_setf_eq; [not_in_list|done|done]. Qed.
Lemma pc_equiv_request x y e1 e2 : e1 ≃ e2 -> x = y -> setf interrupt_request x e1 ≃ setf interrupt_request y e2.
Proof.
  intros (H1 & H2 & H3 & H4) ->. split; [|done]. intros f Hf. cbn. case_decide; [done|auto].
Qed.
Lemma pc_equiv_fld e1 e2 f : e1 ≃ e2 -> f ∉ flag_fields -> fld e1 f = fld e2 f.
Proof. intros (H & _). apply H. Qed.

(** A change of the requests. *)
Lemma request_sim s a (g : Z -> Z) : sim s a ->
  sim (set_cpu (setf interrupt_request (g (fld (v_cpu s) interrupt_request)) (v_cpu s)) s)
    (set_a_cpu (setf interrupt_request (g (fld (a_cpu a) interrupt_request)) (a_cpu a)) a).
Proof.
  intros [S1 S2 S3 S4 S5 S6]. split; [by apply request_ok|done..|].
  assert (Hq : v_cpu s ≈ a_cpu a -> setf interrupt_request (g (fld (v_cpu s) interrupt_request)) (v_cpu s) ≈
      setf interrupt_request (g (fld (a_cpu a) interrupt_request)) (a_cpu a)).
  { intros He. apply equiv_request; [done|]. f_equal. apply equiv_fld; [done|not_in_list]. }
  unfold pos_ok in *. cbn [v_cpu v_phys v_tb v_current_tb v_pos set_cpu a_cpu a_phys a_pending set_a_cpu].
  destruct (v_pos s) as [ret| |next|tb next|tb]; destruct S6 as (He & Hp); (split; [|exact Hp]); auto.
  apply pc_equiv_request; [done|]. f_equal. apply pc_equiv_fld; [done|not_in_list].
Qed.

Lemma remap_sim s a phys t : sim s a -> may_remap (v_pos s) = true -> tb_inv (fld (a_cpu a0) features) phys t ->
  tb_invalidated_flag t = false -> sim (remap phys t s) (mkArch (a_cpu a) phys (a_pending a)).
Proof.
  intros [S1 S2 S3 S4 S5 S6] Hm I Hfl. split; try done. unfold pos_ok in *.
  cbn [v_cpu v_phys v_tb v_current_tb v_pos remap a_cpu a_phys a_pending]. destruct (v_pos s) as [ret| |[next|]|tb next|tb]; try done.
  destruct S6 as (He & Hp & _). do 3 (split; [done|]). by intros ? ?.
Qed.

Lemma vm_event_sim ev s s' a : sim s a -> vm_event ev s = Ok s' -> sim s' (arch_event ev a).
Proof.
  intros Hs. destruct ev as [mask|mask| |phys|addr page]; cbn [vm_event arch_event].
  - intros E. destruct (unlink_sim _ _ (request_sim s a (fun r => Z.lor r mask) Hs)) as (s1 & E1 & H1 & _).
    assert (Ok s1 = Ok s') as [= <-] by (rewrite <- E1; exact E). exact H1.
  - intros [= <-]. apply (request_sim s a (fun r => andn r mask) Hs).
  - intros E. assert (Hx : sim (set_exit_request true s) a) by (by destruct Hs).
    destruct (unlink_sim _ _ Hx) as (s1 & E1 & H1 & _). assert (Ok s1 = Ok s') as [= <-] by (rewrite <- E1; exact E). exact H1.
  - destruct (may_remap _) eqn:Hm; [|done]. intros [= <-]. apply remap_sim; [done|done|by eapply tb_inv_flush_all, Hs|apply Hs].
  - destruct (may_remap _) eqn:Hm; [|done]. intros [= <-]. rewrite (si_phys _ _ _ Hs).
    apply remap_sim; [done|done|by apply tb_inv_flush_page, Hs|apply Hs].
Qed.
End Events.

(** ** Runs *)

(** The machine shows the state [a] of the architecture. In the code of a
    block the program counter is not stored: it is that of the block. *)
Definition shows (s : vm) (a : arch) : Prop :=
  v_phys s = a_phys a /\
  match v_pos s with
  | Code tb => v_cpu s ≃ a_cpu a /\ exists b, tbs (v_tb s) !! tb = Some b /\ b_pc b = a_pc a
  | _ => v_cpu s ≈ a_cpu a
  end.

Lemma sim_shows a0 s a : sim a0 s a -> shows s a.
Proof.
  intros [S1 S2 S3 S4 S5 S6]. split; [done|]. unfold pos_ok in S6. destruct (v_pos s) as [ret| |next|tb next|tb]; try apply S6.
  destruct S6 as (He & _ & (b & Hb & Hpc & _) & _). split; [done|]. by exists b.
Qed.

Lemma init_sim e phys : cpu_ok e -> sim (mkArch e phys None) (vm_init e phys) (mkArch e phys None).
Proof. intros Hok. split; try done. apply tb_inv_empty. Qed.

Abbreviation step := (vm_step mem others buffer_full gen_code_size code_gen_buffer_size code_gen_buffer_max_size code_gen_max_blocks
  do_interrupt_v7m do_arm_semihosting singlestep).
Abbreviation runs := (vm_run mem others buffer_full gen_code_size code_gen_buffer_size code_gen_buffer_max_size code_gen_max_blocks
  do_interrupt_v7m do_arm_semihosting singlestep).
Abbreviation arch_runs := (arch_run mem do_interrupt_v7m do_arm_semihosting).
Abbreviation safe_run := (safe mem do_interrupt_v7m do_arm_semihosting).

Lemma safe_at tr a0 : safe_run tr a0 -> forall a, arch_runs a0 tr a -> runs_arm mem a.
Proof. intros H a Hr. apply (H tr [] a); [by rewrite app_nil_r|done]. Qed.
Lemma safe_prefix tr ev a0 : safe_run (tr ++ [ev]) a0 -> safe_run tr a0.
Proof. intros H tr1 tr2 a -> Hr. apply (H tr1 (tr2 ++ [ev]) a); [by rewrite app_assoc|done]. Qed.

Section Start.
Context (e0 : CPUARMState) (phys0 : Z -> Z).
Abbreviation a0 := (mkArch e0 phys0 None).
Context (Hok0 : arch_ok a0).

Lemma run_reached tr s : safe_run tr a0 -> runs (vm_init e0 phys0) tr s -> reached a0 tr s.
Proof.
  intros Hsafe Hrun. induction Hrun as [|tr s s' Hrun IH Hst|tr s ev s' Hrun IH Hev].
  - exists a0. split; [constructor|]. apply init_sim, Hok0.
  - destruct (vm_step_sim a0 tr Hok0 (safe_at tr a0 Hsafe) s (IH Hsafe)) as (s1 & E & Hs). assert (Ok s1 = Ok s') as [= <-] by congruence. exact Hs.
  - destruct (IH (safe_prefix _ _ _ Hsafe)) as (a & Hr & Hs). exists (arch_event ev a). split; [by constructor|]. by eapply vm_event_sim.
Qed.

(** ** Stopping *)

Fixpoint vm_steps (n : nat) (s : vm) : res vm :=
  match n with O => Ok s | S n => let! s := step s in vm_steps n s end.
Definition stops_within (n : nat) (s : vm) : Prop := exists k s' ret, (k <= n)%nat /\ vm_steps k s = Ok s' /\ v_pos s' = Stopped ret.

Lemma stops_step n s s' : step s = Ok s' -> stops_within n s' -> stops_within (S n) s.
Proof. intros E (k & s2 & ret & Hk & E2 & Hp). exists (S k), s2, ret. split; [lia|]. cbn [vm_steps]. rewrite E. done. Qed.
Lemma stops_more n m s : (n <= m)%nat -> stops_within n s -> stops_within m s.
Proof. intros H (k & s' & ret & Hk & E). exists k, s', ret. split; [lia|done]. Qed.

Section Exit.
Context (tr : list event) (Hsafe : safe_run tr a0).
Abbreviation here := (reached a0 tr).

Lemma exit_stops s : v_pos s = Setjmp -> EXCP_INTERRUPT <= fld (v_cpu s) exception_index -> stops_within 1 s.
Proof.
  intros Hp Hx. eapply stops_step; [|exists 0%nat; do 2 eexists; split; [lia|]; split; [reflexivity|]].
  - unfold vm_step. rewrite Hp. cbn zeta. rewrite (proj2 (Z.leb_le 0 _)) by (unfold EXCP_INTERRUPT in *; lia).
    rewrite (proj2 (Z.leb_le _ _) Hx). reflexivity.
  - reflexivity.
Qed.

Lemma inner_stops s next : here s -> v_exit_request s = true -> v_pos s = Inner next -> stops_within 2 s.
Proof.
  intros (a & Hr & [S1 S2 S3 S4 S5 S6]) Hex Hpos. unfold pos_ok in S6. rewrite Hpos in S6. destruct S6 as (He & Hp & _).
  destruct (loop_interrupts_ok a0 tr Hok0 s a ltac:(done) Hp) as (r & E & Hi). destruct r as [s'|[e flow]].
  - destruct Hi as (e & _ & Hx & h & ->). eapply stops_step; [unfold vm_step; rewrite Hpos; cbn zeta; rewrite E; reflexivity|]. by apply exit_stops.
  - eapply stops_step; [unfold vm_step; rewrite Hpos; cbn zeta; rewrite E; cbn [rbind v_exit_request set_cpu]; rewrite Hex; reflexivity|].
    apply exit_stops; [done|]. cbn. done.
Qed.

Lemma setjmp_stops s : here s -> v_exit_request s = true -> v_pos s = Setjmp -> stops_within 3 s.
Proof.
  intros Hh Hex Hpos. destruct (vm_step_sim a0 tr Hok0 (safe_at tr a0 Hsafe) s Hh) as (s' & E & Hh').
  eapply stops_step; [exact E|]. unfold vm_step in E. rewrite Hpos in E. cbn zeta in E.
  assert (Hin : v_pos s' = Inner None -> v_exit_request s' = true -> stops_within 2 s') by (intros; by eapply inner_stops).
  destruct (0 <=? _); [destruct (_ <=? _)|].
  - injection E as <-. exists 0%nat. do 2 eexists. split; [lia|]. split; reflexivity.
  - apply rbind_Ok in E as (e & _ & [= <-]). by apply Hin.
  - injection E as <-. by apply Hin.
Qed.

Lemma code_stops s tb : here s -> v_exit_request s = true -> v_pos s = Code tb -> (forall k, slot k -> link (v_tb s) tb k = None) -> stops_within 4 s.
Proof.
  intros Hh Hex Hpos Hno. destruct (vm_step_sim a0 tr Hok0 (safe_at tr a0 Hsafe) s Hh) as (s' & E & Hh').
  eapply stops_step; [exact E|]. unfold vm_step, tcg_qemu_tb_exec, tb_at in E. rewrite Hpos in E. cbn zeta in E.
  assert (Hno0 : link (v_tb s) tb 0 = None) by (apply Hno; by left). assert (Hno1 : link (v_tb s) tb 1 = None) by (apply Hno; by right).
  unfold link in Hno0, Hno1. destruct (tbs (v_tb s) !! tb) as [b|]; [|done]. cbn in Hno0, Hno1. cbn [rbind] in E.
  apply rbind_Ok in E as (out & _ & E). destruct out as [m|n e|n e|x e]; [done| | |].
  - injection E as <-. apply (stops_more 2); [lia|]. by eapply inner_stops.
  - assert (pick n (b_tb_next b) = None) as Hn by (unfold pick; by destruct (n =? 0)). by rewrite Hn in E.
  - injection E as <-. by apply setjmp_stops.
Qed.

Lemma exit_request_stops s : here s -> v_exit_request s = true -> v_current_tb s = None -> stops_within 4 s.
Proof.
  intros Hh Hex Hcur. destruct (v_pos s) as [ret| |next|tb next|tb] eqn:Hpos.
  - exists 0%nat, s, ret. split; [lia|done].
  - apply (stops_more 3); [lia|]. by apply setjmp_stops.
  - apply (stops_more 2); [lia|]. by eapply inner_stops.
  - destruct (vm_step_sim a0 tr Hok0 (safe_at tr a0 Hsafe) s Hh) as (s' & E & Hh'). eapply stops_step; [exact E|].
    apply (stops_more 2); [lia|]. unfold vm_step in E. rewrite Hpos in E. cbn zeta in E. rewrite Hex in E. injection E as <-. by eapply inner_stops.
  - apply (code_stops s tb); try done. destruct Hh as (a & _ & [S1 S2 S3 S4 S5 S6]). unfold pos_ok in S6. rewrite Hpos in S6.
    destruct S6 as (_ & _ & _ & [(c & Hc & _)|Hno]); [congruence|done].
Qed.
End Exit.
End Start.

(** C1: The main loop of the processor refines the reference processor, for
    programs of data processing instructions, branches and supervisor calls in
    the ARM state that are defined on it ([safe_run]): after any number of its
    steps, with any interleaving of interrupt requests, exit
    requests and changes of the memory map, the registers are those of a
    processor that executes one instruction after the other and meets the same
    events. That covers the lookup of blocks, their translation and
    replacement when the buffer is full, and jumps that were patched. *)
Theorem cpu_exec_refines e0 phys0 tr s :
  arch_ok (mkArch e0 phys0 None) -> safe_run tr (mkArch e0 phys0 None) -> runs (vm_init e0 phys0) tr s ->
  exists a, arch_runs (mkArch e0 phys0 None) tr a /\ shows s a.
Proof.
  intros Hok Hsafe Hrun. destruct (run_reached e0 phys0 Hok tr s Hsafe Hrun) as (a & Hr & Hs). exists a. split; [done|]. by eapply sim_shows.
Qed.

(** C29: The main loop is never stuck: no step of it reads through a pointer to
    a block that is gone, follows a list of blocks without end, overruns the
    code buffer or meets an exception that it does not know, and interrupt and
    exit requests are accepted at any time. The guest's own instructions are
    assumed to be defined on the reference processor, as [safe_run] says. *)
Theorem cpu_exec_progress e0 phys0 tr s :
  arch_ok (mkArch e0 phys0 None) -> safe_run tr (mkArch e0 phys0 None) -> runs (vm_init e0 phys0) tr s ->
  (exists s', step s = Ok s') /\ (forall mask, exists s', cpu_interrupt mask s = Ok s') /\ exists s', cpu_exit s = Ok s'.
Proof.
  intros Hok Hsafe Hrun. pose proof (run_reached e0 phys0 Hok tr s Hsafe Hrun) as Hh. split; [|split].
  - destruct (vm_step_sim _ tr Hok (safe_at tr _ Hsafe) s Hh) as (s' & E & _). by exists s'.
  - intros mask. destruct Hh as (a & _ & Hs).
    destruct (unlink_sim _ _ _ (request_sim _ s a (fun r => Z.lor r mask) Hs)) as (s' & E & _). by exists s'.
  - destruct Hh as (a & _ & Hs). assert (Hx : sim (mkArch e0 phys0 None) (set_exit_request true s) a) by (by destruct Hs).
    destruct (unlink_sim _ _ _ Hx) as (s' & E & _). by exists s'.
Qed.

(** C3: A request to leave the loop is honoured: whatever the processor was
    doing, even in a loop of blocks that jump to each other directly, four
    steps later at most [cpu_exec] has returned. *)
Theorem cpu_exit_stops e0 phys0 tr s :
  arch_ok (mkArch e0 phys0 None) -> safe_run tr (mkArch e0 phys0 None) -> runs (vm_init e0 phys0) tr s ->
  exists s', cpu_exit s = Ok s' /\ stops_within 4 s'.
Proof.
  intros Hok Hsafe Hrun. destruct (run_reached e0 phys0 Hok tr s Hsafe Hrun) as (a & Hr & Hs).
  assert (Hx : sim (mkArch e0 phys0 None) (set_exit_request true s) a) by (by destruct Hs).
  destruct (unlink_sim _ _ _ Hx) as (s' & E & Hs' & Hc & _ & Hq). exists s'. split; [exact E|].
  apply (exit_request_stops e0 phys0 Hok tr Hsafe); [by exists a|by rewrite Hq|done].
Qed.
End Loop.

(** ** A program *)

(** Memory that is full of [B .], the branch to itself, and a buffer that
    holds one block. *)
Definition spin_mem (a : Z) : Z := match a mod 4 with 0 => 0xfe | 3 => 0xea | _ => 0xff end.
Definition spin : arch := mkArch calm_cpu (fun page => page) None.
Definition no_v7m : CPUARMState -> res CPUARMState := fun _ => Undef.
Definition no_semi : CPUARMState -> res (Z * CPUARMState) := fun _ => Undef.
Abbreviation spin_step := (vm_step spin_mem none_modelled (fun _ => false) (fun _ => 8) 64 32 1 no_v7m no_semi false).
Abbreviation spin_run := (vm_run spin_mem none_modelled (fun _ => false) (fun _ => 8) 64 32 1 no_v7m no_semi false).

Lemma spin_ldl phys a : in_u32 a -> a mod 4 = 0 -> ldl_code spin_mem phys a = 0xeafffffe.
Proof.
  intros Ha H4. assert (Hb : forall i, 0 <= i < 4 -> ldub_code spin_mem phys (u32 (a + i)) = spin_mem i).
  { intros i Hi. unfold ldub_code, get_phys_addr_code, page_offset. change (TARGET_PAGE_SIZE - 1) with (Z.ones 10). change TARGET_PAGE_BITS with 10.
    rewrite Z.land_ones, Z.shiftl_mul_pow2 by lia. set (p := phys _). unfold spin_mem, uwrap.
    pose proof (Z.div_mod a 4 ltac:(lia)).
    assert (((p * 2 ^ 10 + ((a + i) mod 2 ^ 32) mod 2 ^ 10) mod 4) = i mod 4) as ->; [|done].
    change (2 ^ 32) with (2 ^ 10 * 2 ^ 22). rewrite Z.rem_mul_r by lia. rewrite (Z.mul_comm (2 ^ 10) (_ mod _)), Z.mod_add, Z.mod_mod by lia.
    change (2 ^ 10) with (4 * 256). rewrite Z.rem_mul_r by lia.
    replace (p * (4 * 256) + ((a + i) mod 4 + 4 * ((a + i) / 4 mod 256))) with ((a + i) mod 4 + (p * 256 + (a + i) / 4 mod 256) * 4) by lia.
    rewrite Z.mod_add, Z.mod_mod by lia. replace (a + i) with (i + a / 4 * 4) by lia. by rewrite Z.mod_add by lia. }
  unfold ldl_code. pose proof (Hb 0 ltac:(lia)) as H0. rewrite Z.add_0_r, uwrap_small in H0 by (simpl; lia).
  rewrite H0, !Hb by lia. reflexivity.
Qed.

Definition spinning (a : arch) : Prop :=
  arch_ok a /\ a_pending a = None /\ fld (a_cpu a) thumb = 0 /\ fld (a_cpu a) condexec_bits = 0 /\ a_pc a mod 4 = 0.

Lemma spin_insn a : spinning a -> a_insn spin_mem a = Ok (Jumps (sete regs 15 (a_pc a) (a_cpu a))).
Proof.
  intros (Hok & _ & _ & _ & H4). pose proof (a_pc_u32 _ Hok) as Hu. unfold a_insn. rewrite spin_ldl by done.
  change (ref_insn (cpu_v7 (a_cpu a)) (cpu_user (a_cpu a)) 0xeafffffe (a_pc a) (a_cpu a)) with
    (Ok (Jumps (sete regs 15 (u32 (a_pc a + 8 + -8)) (a_cpu a)))).
  replace (a_pc a + 8 + -8) with (a_pc a) by lia. by rewrite uwrap_small by (simpl; lia).
Qed.

Lemma spin_runs_arm a : spinning a -> runs_arm spin_mem a.
Proof.
  intros Hs _. pose proof Hs as (Hok & Hp & Ht & Hc & H4). pose proof (a_pc_u32 _ Hok) as Hu. do 3 (split; [done|]). split; [|eexists; by apply spin_insn].
  intros n i _ _. assert (Ha : u32 (a_pc a + 4 * Z.of_nat i) mod 4 = 0).
  { unfold uwrap. change (2 ^ 32) with (4 * 2 ^ 30). rewrite Z.rem_mul_r, (Z.mul_comm 4 (_ mod _)), Z.mod_add, Z.mod_mod by lia.
    rewrite (Z.mul_comm 4), Z.mod_add by lia. exact H4. }
  rewrite spin_ldl by (done || apply in_u32_u32). split; [split; lia|]. vm_compute. reflexivity.
Qed.

Lemma interrupt_pc e e' : cpu_ok e -> mode_ok e -> arm_feature e ARM_FEATURE_M = false -> cpu_do_interrupt no_v7m no_semi e = Ok e' ->
  elt e' regs 15 mod 4 = 0.
Proof.
  intros (S1 & W1 & _) Hm HM H. destruct (interrupt_enter _ _ _ _ _ _ HM H) as (k & _ & Hk & _ & _).
  destruct (do_interrupt_ok no_v7m false no_semi (fun _ => 0) (fun _ => 0) e k S1 W1 Hm HM (semihosting_off _ _ e) Hk) as (e2 & E2 & _ & _ & _ & H15 & _).
  assert (Ok e2 = Ok e') as [= <-] by (rewrite <- H, <- E2; reflexivity). rewrite H15.
  unfold exception_entry in Hk. destruct (Z.testbit _ _); repeat case_match; simplify_eq; reflexivity.
Qed.

Lemma spin_step_ok a a' : arch_step spin_mem no_v7m no_semi a a' -> spinning a -> spinning a'.
Proof.
  intros Hst Hs. pose proof Hs as (Hok & Hp & Ht & Hc & H4). pose proof (arch_step_ok _ _ _ _ _ Hok Hst) as Hok'. pose proof (spin_insn a Hs) as Hi.
  assert (Hx : forall x e, cpu_do_interrupt no_v7m no_semi (setf exception_index x (a_cpu a)) = Ok e ->
    fld e thumb = 0 /\ fld e condexec_bits = 0 /\ elt e regs 15 mod 4 = 0).
  { intros x e H. destruct (kept_ok_index x _ (ao_cpu _ Hok) (ao_mode _ Hok)) as [K1 K2]. split; [|split; [|exact (interrupt_pc _ _ K1 K2 (ao_m _ Hok) H)]].
    all: destruct (interrupt_keeps _ _ _ _ _ _ K1 K2 (ao_m _ Hok) H) as (_ & _ & _ & _ & T & C & _); done. }
  split; [exact Hok'|]. destruct Hst as [e Hp' H|e Hp' H|x e Hp' H|x e Hp' H|x e Hp' Hxx H|x|n Hn]; try congruence; cbn [a_cpu a_pending set_a_cpu].
  - rewrite Hi in H. injection H as <-. do 3 (split; [done|]). unfold a_pc. cbn [a_cpu set_a_cpu]. rewrite elt_sete_same; [done|apply Hok|cbn; lia].
  - split; [done|]. by eapply Hx.
  - done.
  - done.
Qed.

Lemma spin_safe tr : safe spin_mem no_v7m no_semi tr spin.
Proof.
  intros tr1 tr2 a _ Hr. apply spin_runs_arm. induction Hr as [|tr' a a' Hr IH Hst|tr' a ev Hr IH].
  - split; [|by vm_compute]. split; [apply calm_ok|in_list|by vm_compute|by vm_compute|done].
  - by eapply spin_step_ok.
  - destruct IH as (Hok & IH). split; [by apply arch_event_ok|]. by destruct ev.
Qed.

(** Steps and events, one after the other. *)
Fixpoint spin_script (l : list (option event)) (s : vm) : res vm :=
  match l with
  | [] => Ok s
  | None :: l => let! s := spin_step s in spin_script l s
  | Some ev :: l => let! s := vm_event ev s in spin_script l s
  end.

Abbreviation vm0 := (vm_init calm_cpu (fun page => page)).

Lemma spin_script_run l : forall tr s s', spin_run vm0 tr s -> spin_script l s = Ok s' -> spin_run vm0 (tr ++ omap id l) s'.
Proof.
  induction l as [|[ev|] l IH]; intros tr s s' Hr H; cbn [spin_script omap list_omap id] in *.
  - injection H as <-. by rewrite app_nil_r.
  - apply rbind_Ok in H as (s1 & E & H). change (ev :: omap id l) with ([ev] ++ omap id l). rewrite app_assoc.
    eapply IH; [|exact H]. by eapply vm_signal.
  - apply rbind_Ok in H as (s1 & E & H). eapply IH; [|exact H]. by eapply vm_next.
Qed.

(** The block at 0 is made, its jump to itself patched and taken; then an
    interrupt request leads out of it, and the block at the vector takes its
    place in the buffer. *)
Definition to_code : list (option event) := replicate 4 None.
Definition to_loop : list (option event) := to_code ++ replicate 5 None.
Definition to_vector : list (option event) := to_loop ++ Some (CpuInterrupt 2) :: Some (CpuResetInterrupt 2) :: Some (CpuInterrupt 2) :: replicate 3 None.

Definition script_ok (l : list (option event)) (P : vm -> bool) : bool :=
  match spin_script l vm0 with Ok s => P s | _ => false end.
Lemma script_reaches l P : script_ok l P = true -> exists s, spin_run vm0 (omap id l) s /\ P s = true.
Proof.
  unfold script_ok. destruct (spin_script l vm0) as [s| |] eqn:E; [|done..]. intros H. exists s. split; [|done].
  apply (spin_script_run l [] vm0); [constructor|exact E].
Qed.

Definition in_code_at (pc : Z) (s : vm) : bool :=
  match v_pos s with
  | Code tb => match tbs (v_tb s) !! tb with Some b => (b_pc b =? pc) && (nb_tbs (v_tb s) =? 1)%nat | None => false end
  | _ => false
  end.
Definition jumps_to_itself (s : vm) : bool :=
  match v_pos s with Code tb => bool_decide (link (v_tb s) tb 0 = Some tb) | _ => false end.

Lemma spin_gen : forall c : list tcg_op, 0 <= (fun _ => 8) c /\ (fun _ : list tcg_op => 8) c + CODE_GEN_ALIGN <= 64 - 32.
Proof. intros c. unfold CODE_GEN_ALIGN. lia. Qed.
Lemma spin_ok : arch_ok spin.
Proof. split; [apply calm_ok|in_list|by vm_compute|by vm_compute|done]. Qed.

Lemma cpu_exec_refines_witness : exists s a,
  in_code_at 0x18 s = true /\ arch_run spin_mem no_v7m no_semi spin [CpuInterrupt 2; CpuResetInterrupt 2; CpuInterrupt 2] a /\ shows s a.
Proof.
  destruct (script_reaches to_vector (in_code_at 0x18)) as (s & Hr & Hs); [vm_compute; reflexivity|].
  destruct (cpu_exec_refines spin_mem none_modelled (fun _ => false) (fun _ => 8) 64 32 1 no_v7m no_semi false spin_gen ltac:(lia) ltac:(lia)
    calm_cpu (fun page => page) (omap id to_vector) s spin_ok (spin_safe _) Hr) as (a & Ha & Hsa).
  exists s, a. done.
Defined.

Lemma cpu_exec_progress_witness : exists s, jumps_to_itself s = true /\
  (exists s', spin_step s = Ok s') /\ (forall mask, exists s', cpu_interrupt mask s = Ok s') /\ exists s', cpu_exit s = Ok s'.
Proof.
  destruct (script_reaches to_loop jumps_to_itself) as (s & Hr & Hs); [vm_compute; reflexivity|]. exists s. split; [exact Hs|].
  apply (cpu_exec_progress spin_mem none_modelled (fun _ => false) (fun _ => 8) 64 32 1 no_v7m no_semi false spin_gen ltac:(lia) ltac:(lia)
    calm_cpu (fun page => page) (omap id to_loop) s spin_ok (spin_safe _) Hr).
Defined.

Lemma cpu_exit_stops_witness : exists s, jumps_to_itself s = true /\ exists s', cpu_exit s = Ok s' /\
  stops_within spin_mem none_modelled (fun _ => false) (fun _ => 8) 64 32 1 no_v7m no_semi false 4 s'.
Proof.
  destruct (script_reaches to_loop jumps_to_itself) as (s & Hr & Hs); [vm_compute; reflexivity|]. exists s. split; [exact Hs|].
  apply (cpu_exit_stops spin_mem none_modelled (fun _ => false) (fun _ => 8) 64 32 1 no_v7m no_semi false spin_gen ltac:(lia) ltac:(lia)
    calm_cpu (fun page => page) (omap id to_loop) s spin_ok (spin_safe _) Hr).
Defined.

(** ** Microcontrollers *)

(** The flags of a block do not tell whether a processor of the profile M is
    privileged, though the translation depends on it. *)
Definition m_cpu (control : Z) : CPUARMState :=
  setf v7m_control control (setf features (Z.shiftl 1 ARM_FEATURE_M) calm_cpu).
Example flags_miss_privilege :
  cpu_get_tb_cpu_state (m_cpu 0) = cpu_get_tb_cpu_state (m_cpu 1) /\
  dc_user (dc_start (m_cpu 0) false 0) = false /\ dc_user (dc_start (m_cpu 1) false 0) = true.
Proof. vm_compute. done. Qed.
