(* ===== verification/ArmMmu.v ===== *)
(** * The ARM memory management unit

    The page-table walks and the protection regions of [target-arm/helper.c]:
    from the processor's state and a virtual address to a physical address
    and its protection, or to the fault that the processor reports. The reads
    of the page tables ([ldl_phys]) are a function of the physical address. *)
From S2P Require Import Prelude ArmCpu GuestMem.
From stdpp Require Import list sets.
#[local] Open Scope Z_scope.

Definition PAGE_READ : Z := 1.
Definition PAGE_WRITE : Z := 2.
Definition PAGE_EXEC : Z := 4.

(** What [get_phys_addr] returns: 0 with the two results, or a fault code. *)
Inductive mmu_result :=
| Mapped (phys_addr prot : Z)
| Fault (code : Z).

#[global] Instance mmu_result_eq_dec : EqDecision mmu_result.
Proof. solve_decision. Defined.

(** [access_type]: 0 for a read, 1 for a write, 2 for an instruction. *)
Definition check_ap (e : CPUARMState) (ap domain access_type : Z) (is_user : bool) : res Z :=
  if domain =? 3 then Ok (Z.lor PAGE_READ PAGE_WRITE) else
  let prot_ro := if access_type =? 1 then 0 else PAGE_READ in
  let rw := Z.lor PAGE_READ PAGE_WRITE in
  if ap =? 0 then
    if access_type =? 1 then Ok 0 else
    let sr := Z.land (Z.shiftr (fld e c1_sys) 8) 3 in
    if sr =? 1 then Ok (if is_user then 0 else PAGE_READ)
    else if sr =? 2 then Ok PAGE_READ
    else Ok 0
  else if ap =? 1 then Ok (if is_user then 0 else rw)
  else if ap =? 2 then Ok (if is_user then prot_ro else rw)
  else if ap =? 3 then Ok rw
  else if ap =? 4 then Ok 0
  else if ap =? 5 then Ok (if is_user then 0 else prot_ro)
  else if ap =? 6 then Ok prot_ro
  else if ap =? 7 then if negb (arm_feature e ARM_FEATURE_V7) then Ok 0 else Ok prot_ro
  else Abort.

Definition get_level1_table_address (e : CPUARMState) (address : Z) : Z :=
  let table := if ctrue (Z.land address (fld e c2_mask))
               then Z.land (fld e c2_base1) 0xffffc000
               else Z.land (fld e c2_base0) (fld e c2_base_mask) in
  Z.lor table (Z.land (Z.shiftr address 18) 0x3ffc).

(** [do_fault:], with the domain's access bits as the code has them. *)
Definition do_fault (code domain : Z) : mmu_result := Fault (Z.lor code (Z.shiftl domain 4)).

Section Walk.
Context (ldl_phys : Z -> Z).

(** The end of the two walks: the permissions of the descriptor found. *)
Definition finish_walk (e : CPUARMState) (ap domain access_type : Z) (is_user : bool)
  (phys_addr code : Z) : res mmu_result :=
  let! prot := check_ap e ap domain access_type is_user in
  if negb (ctrue prot) then Ok (do_fault code domain) else Ok (Mapped phys_addr prot).

Definition get_phys_addr_v5 (e : CPUARMState) (address access_type : Z) (is_user : bool) : res mmu_result :=
  let table := get_level1_table_address e address in
  let desc := ldl_phys table in
  let type := Z.land desc 3 in
  let domain := Z.land (Z.shiftr (fld e c3) (Z.land (Z.shiftr desc 4) 0x1e)) 3 in
  if type =? 0 then Ok (do_fault 5 domain)
  else if (domain =? 0) || (domain =? 2) then Ok (do_fault (if type =? 2 then 9 else 11) domain)
  else if type =? 2 then
    finish_walk e (Z.land (Z.shiftr desc 10) 3) domain access_type is_user
      (Z.lor (Z.land desc 0xfff00000) (Z.land address 0x000fffff)) 13
  else
    let table := if type =? 1
                 then Z.lor (Z.land desc 0xfffffc00) (Z.land (Z.shiftr address 10) 0x3fc)
                 else Z.lor (Z.land desc 0xfffff000) (Z.land (Z.shiftr address 8) 0xffc) in
    let desc := ldl_phys table in
    let kind := Z.land desc 3 in
    if kind =? 0 then Ok (do_fault 7 domain)
    else if kind =? 1 then
      finish_walk e (Z.land (Z.shiftr desc (4 + Z.land (Z.shiftr address 13) 6)) 3) domain access_type is_user
        (Z.lor (Z.land desc 0xffff0000) (Z.land address 0xffff)) 15
    else if kind =? 2 then
      finish_walk e (Z.land (Z.shiftr desc (4 + Z.land (Z.shiftr address 13) 6)) 3) domain access_type is_user
        (Z.lor (Z.land desc 0xfffff000) (Z.land address 0xfff)) 15
    else if type =? 1 then
      if arm_feature e ARM_FEATURE_XSCALE then
        finish_walk e (Z.land (Z.shiftr desc 4) 3) domain access_type is_user
          (Z.lor (Z.land desc 0xfffff000) (Z.land address 0xfff)) 15
      else Ok (do_fault 7 domain)
    else
      finish_walk e (Z.land (Z.shiftr desc 4) 3) domain access_type is_user
        (Z.lor (Z.land desc 0xfffffc00) (Z.land address 0x3ff)) 15.

(** The checks that the walk of version 6 makes before the permissions. *)
Definition finish_walk_v6 (e : CPUARMState) (ap xn domain access_type : Z) (is_user : bool)
  (phys_addr code : Z) : res mmu_result :=
  if ctrue xn && (access_type =? 2) then Ok (do_fault code domain)
  else if ctrue (Z.land (fld e c1_sys) (bit32 29)) && (Z.land ap 1 =? 0)
  then Ok (do_fault (if code =? 15 then 6 else 3) domain)
  else finish_walk e ap domain access_type is_user phys_addr code.

Definition get_phys_addr_v6 (e : CPUARMState) (address access_type : Z) (is_user : bool) : res mmu_result :=
  let table := get_level1_table_address e address in
  let desc := ldl_phys table in
  let type := Z.land desc 3 in
  if type =? 0 then Ok (do_fault 5 0) else
  let domain := if (type =? 2) && ctrue (Z.land desc (bit32 18)) then 0 else Z.land (Z.shiftr desc 4) 0x1e in
  let domain := Z.land (Z.shiftr (fld e c3) domain) 3 in
  if (domain =? 0) || (domain =? 2) then Ok (do_fault (if type =? 2 then 9 else 11) domain)
  else if type =? 2 then
    let phys_addr := if ctrue (Z.land desc (bit32 18))
                     then Z.lor (Z.land desc 0xff000000) (Z.land address 0x00ffffff)
                     else Z.lor (Z.land desc 0xfff00000) (Z.land address 0x000fffff) in
    finish_walk_v6 e (Z.lor (Z.land (Z.shiftr desc 10) 3) (Z.land (Z.shiftr desc 13) 4))
      (Z.land desc (bit32 4)) domain access_type is_user phys_addr 13
  else
    let table := Z.lor (Z.land desc 0xfffffc00) (Z.land (Z.shiftr address 10) 0x3fc) in
    let desc := ldl_phys table in
    let ap := Z.lor (Z.land (Z.shiftr desc 4) 3) (Z.land (Z.shiftr desc 7) 4) in
    let kind := Z.land desc 3 in
    if kind =? 0 then Ok (do_fault 7 domain)
    else if kind =? 1 then
      finish_walk_v6 e ap (Z.land desc (bit32 15)) domain access_type is_user
        (Z.lor (Z.land desc 0xffff0000) (Z.land address 0xffff)) 15
    else
      finish_walk_v6 e ap (Z.land desc 1) domain access_type is_user
        (Z.lor (Z.land desc 0xfffff000) (Z.land address 0xfff)) 15.
End Walk.

(** The loop of [get_phys_addr_mpu]: the last region that has the address.
    [n] counts the regions still to be looked at. *)
Definition region_mask (base : Z) : Z :=
  let mask := bit32 (Z.land (Z.shiftr base 1) 0x1f) in
  u32 (u32 (Z.shiftl mask 1) - 1).

Fixpoint find_region (e : CPUARMState) (address : Z) (n : nat) : option nat :=
  match n with
  | O => None
  | S n =>
      let base := elt e c6_region n in
      if Z.land base 1 =? 0 then find_region e address n
      else if Z.ldiff (Z.lxor base address) (region_mask base) =? 0 then Some n
      else find_region e address n
  end.

Definition get_phys_addr_mpu (e : CPUARMState) (address access_type : Z) (is_user : bool) : mmu_result :=
  match find_region e address 8 with
  | None => Fault 2
  | Some n =>
      let mask := if access_type =? 2 then fld e c5_insn else fld e c5_data in
      let mask := Z.land (Z.shiftr mask (Z.of_nat n * 4)) 0xf in
      if mask =? 0 then Fault 1
      else if mask =? 1 then if is_user then Fault 1 else Mapped address (Z.lor PAGE_READ PAGE_WRITE)
      else if mask =? 2 then
        Mapped address (if is_user then PAGE_READ else Z.lor PAGE_READ PAGE_WRITE)
      else if mask =? 3 then Mapped address (Z.lor PAGE_READ PAGE_WRITE)
      else if mask =? 5 then if is_user then Fault 1 else Mapped address PAGE_READ
      else if mask =? 6 then Mapped address PAGE_READ
      else Fault 1
  end.

Section Translate.
Context (ldl_phys : Z -> Z).

Definition get_phys_addr (e : CPUARMState) (address access_type : Z) (is_user : bool) : res mmu_result :=
  let address := if address <? 0x02000000 then u32 (address + fld e c13_fcse) else address in
  if Z.land (fld e c1_sys) 1 =? 0 then Ok (Mapped address (Z.lor PAGE_READ PAGE_WRITE))
  else if arm_feature e ARM_FEATURE_MPU then Ok (get_phys_addr_mpu e address access_type is_user)
  else if ctrue (Z.land (fld e c1_sys) (bit32 23))
  then get_phys_addr_v6 ldl_phys e address access_type is_user
  else get_phys_addr_v5 ldl_phys e address access_type is_user.

Definition MMU_USER_IDX : Z := 1.

(** [cpu_arm_handle_mmu_fault]: what is mapped in the TLB, or the state with
    the fault recorded. The call of [tlb_set_page] is its arguments. *)
Inductive fault_outcome :=
| TlbSetPage (address phys_addr prot mmu_idx : Z)
| Raise (e : CPUARMState).

Definition cpu_arm_handle_mmu_fault (e : CPUARMState) (address access_type mmu_idx : Z) : res fault_outcome :=
  let is_user := mmu_idx =? MMU_USER_IDX in
  let! r := get_phys_addr e address access_type is_user in
  match r with
  | Mapped phys_addr prot =>
      Ok (TlbSetPage (Z.ldiff address 0x3ff) (Z.ldiff phys_addr 0x3ff) prot mmu_idx)
  | Fault ret =>
      if ret =? 0 then Undef (* the results, which a fault does not set *)
      else if access_type =? 2 then
        Ok (Raise (setf exception_index EXCP_PREFETCH_ABORT
                     (setf c6_insn address (setf c5_insn ret e))))
      else
        let e := setf c5_data ret e in
        let e := if (access_type =? 1) && arm_feature e ARM_FEATURE_V6
                 then setf c5_data (Z.lor (fld e c5_data) (bit32 11)) e else e in
        Ok (Raise (setf exception_index EXCP_DATA_ABORT (setf c6_data address e)))
  end.

Definition cpu_get_phys_page_debug (e : CPUARMState) (addr : Z) : res (option Z) :=
  let! r := get_phys_addr e addr 0 false in
  match r with
  | Mapped phys_addr _ => Ok (Some phys_addr)
  | Fault ret => if ret =? 0 then Undef else Ok None
  end.
End Translate.

(** ** Addresses of one subpage

    [a] is the start of a 1 KB subpage and [o] an offset in it. *)

Section Subpage.
Context (a o : Z) (Ha : a mod 1024 = 0) (Ho : 0 <= o < 1024).

Lemma subpage_lor : a + o = Z.lor a o.
Proof. symmetry. by apply (lor_low 10). Qed.

Lemma subpage_bit i :
  0 <= i -> Z.testbit (a + o) i = if i <? 10 then Z.testbit o i else Z.testbit a i.
Proof.
  intros Hi. rewrite subpage_lor, Z.lor_spec. destruct (Z.ltb_spec i 10).
  - rewrite <- (Z.mod_pow2_bits_low a 10) by done. change (2 ^ 10) with 1024. by rewrite Ha, Z.bits_0.
  - by rewrite (testbit_bound 10 o), orb_false_r by done.
Qed.

Lemma aligned_bit i : 0 <= i < 10 -> Z.testbit a i = false.
Proof.
  intros Hi. rewrite <- (Z.mod_pow2_bits_low a 10) by lia. change (2 ^ 10) with 1024.
  by rewrite Ha, Z.bits_0.
Qed.

(** A value that looks at the high bits only is the same on the subpage. *)
Lemma subpage_shiftr k m : 0 <= k -> (forall i, 0 <= i < 10 - k -> Z.testbit m i = false) ->
  Z.land (Z.shiftr (a + o) k) m = Z.land (Z.shiftr a k) m.
Proof.
  intros Hk Hm. apply Z.bits_inj'. intros i Hi. rewrite !Z.land_spec, !Z.shiftr_spec by done.
  rewrite subpage_bit by lia. destruct (Z.ltb_spec (i + k) 10); [|done].
  by rewrite Hm, !andb_false_r by lia.
Qed.

Lemma subpage_hi m : (forall i, 0 <= i < 10 -> Z.testbit m i = false) -> Z.land (a + o) m = Z.land a m.
Proof. intros Hm. rewrite <- (Z.shiftr_0_r (a + o)), <- (Z.shiftr_0_r a). by apply subpage_shiftr. Qed.

(** The physical address: a frame above, the offset below. *)
Lemma subpage_phys d f m :
  (forall i, 0 <= i < 10 -> Z.testbit f i = false) -> (forall i, 0 <= i < 10 -> Z.testbit m i = true) ->
  Z.lor (Z.land d f) (Z.land (a + o) m) = Z.lor (Z.land d f) (Z.land a m) + o.
Proof.
  intros Hf Hm. rewrite <- (lor_low 10 (Z.lor (Z.land d f) (Z.land a m)) o); [|done| |done].
  - apply Z.bits_inj'. intros i Hi. rewrite !Z.lor_spec, !Z.land_spec, subpage_bit by done.
    destruct (Z.ltb_spec i 10).
    + rewrite Hf, Hm, aligned_bit by lia. cbn. btauto.
    + rewrite (testbit_bound 10 o) by done. btauto.
  - apply Z.bits_inj'. intros i Hi. rewrite Z.bits_0. destruct (Z.lt_ge_cases i 10).
    + rewrite Z.mod_pow2_bits_low by done.
      rewrite !Z.lor_spec, !Z.land_spec, Hf, aligned_bit by done. btauto.
    + by rewrite Z.mod_pow2_bits_high by lia.
Qed.
End Subpage.

(** Both outcomes of every test of the goal. *)
Ltac each_if := repeat match goal with |- context [if ?b then _ else _] => destruct b end.

(** Properties of the ten low bits of a literal. *)
Lemma low_bits (m : Z) (b : bool) :
  forallb (fun i => bool_decide (Z.testbit m i = b)) (map Z.of_nat (seq 0 10)) = true ->
  forall i, 0 <= i < 10 -> Z.testbit m i = b.
Proof.
  intros H i Hi. pose proof (below_forall 10 _ H i ltac:(lia)) as E. by apply bool_decide_eq_true in E.
Qed.

Definition shift_phys (o : Z) (r : res mmu_result) : res mmu_result :=
  match r with Ok (Mapped pa prot) => Ok (Mapped (pa + o) prot) | r => r end.

(** What the system registers must satisfy for 1 KB to be a unit of the
    translation: the table is chosen by high bits, processes are relocated by
    pages, and no protection region is smaller. *)
Definition mmu_wf (e : CPUARMState) : Prop :=
  Z.land (fld e c2_mask) 0x3ff = 0 /\ fld e c13_fcse mod 1024 = 0 /\
  (arm_feature e ARM_FEATURE_MPU = true ->
   forall n, (n < 8)%nat -> 9 <= Z.land (Z.shiftr (elt e c6_region n) 1) 0x1f).

Section Uniform.
Context (ldl : Z -> Z) (e : CPUARMState) (acc : Z) (user : bool) (Hwf : mmu_wf e).
Context (a o : Z) (Ha : a mod 1024 = 0) (Ho : 0 <= o < 1024).

Lemma level1_uniform : get_level1_table_address e (a + o) = get_level1_table_address e a.
Proof.
  destruct Hwf as (Hm & _). unfold get_level1_table_address.
  rewrite (subpage_hi a o Ha Ho (fld e c2_mask)).
  - f_equal. apply subpage_shiftr; try done. intros i Hi. lia.
  - intros i Hi. apply (f_equal (fun z => Z.testbit z i)) in Hm. rewrite Z.land_spec, Z.bits_0 in Hm.
    rewrite (low_bits 0x3ff true eq_refl i Hi), andb_true_r in Hm. done.
Qed.

Lemma finish_walk_shift ap domain pa code :
  finish_walk e ap domain acc user (pa + o) code = shift_phys o (finish_walk e ap domain acc user pa code).
Proof.
  unfold finish_walk. destruct (check_ap _ _ _ _ _); [|done|done]. cbn [rbind].
  by destruct (negb _).
Qed.

Lemma finish_walk_v6_shift ap xn domain pa code :
  finish_walk_v6 e ap xn domain acc user (pa + o) code =
  shift_phys o (finish_walk_v6 e ap xn domain acc user pa code).
Proof. unfold finish_walk_v6. destruct (_ && _); [done|]. destruct (_ && _); [done|]. apply finish_walk_shift. Qed.

Ltac uniform :=
  rewrite ?(subpage_shiftr a o Ha Ho 10 0x3fc), ?(subpage_shiftr a o Ha Ho 13 6),
    ?(subpage_shiftr a o Ha Ho 8 0xffc) by
    (lia || (intros i Hi; lia) ||
     (intros i Hi; assert (i = 0 \/ i = 1) as [->| ->] by lia; reflexivity));
  rewrite ?(subpage_phys a o Ha Ho _ 0xff000000 0xffffff), ?(subpage_phys a o Ha Ho _ 0xfff00000 0xfffff),
    ?(subpage_phys a o Ha Ho _ 0xffff0000 0xffff), ?(subpage_phys a o Ha Ho _ 0xfffff000 0xfff),
    ?(subpage_phys a o Ha Ho _ 0xfffffc00 0x3ff) by
    ((apply (low_bits _ false); reflexivity) || (apply (low_bits _ true); reflexivity)).

Lemma v5_uniform : get_phys_addr_v5 ldl e (a + o) acc user = shift_phys o (get_phys_addr_v5 ldl e a acc user).
Proof.
  unfold get_phys_addr_v5. rewrite level1_uniform. cbn zeta.
  set (desc := ldl (get_level1_table_address e a)).
  set (domain := Z.land (Z.shiftr (fld e c3) (Z.land (Z.shiftr desc 4) 0x1e)) 3).
  uniform. each_if; try done; apply finish_walk_shift.
Qed.

Lemma v6_uniform : get_phys_addr_v6 ldl e (a + o) acc user = shift_phys o (get_phys_addr_v6 ldl e a acc user).
Proof.
  unfold get_phys_addr_v6. rewrite level1_uniform. cbn zeta.
  set (desc := ldl (get_level1_table_address e a)).
  uniform. destruct (Z.land desc 3 =? 0); [done|].
  match goal with |- context [Z.land (Z.shiftr (fld e c3) ?d) 3] => set (domain := Z.land (Z.shiftr (fld e c3) d) 3) end.
  destruct ((domain =? 0) || (domain =? 2)); [done|].
  destruct (Z.land desc 3 =? 2).
  - destruct (ctrue (Z.land desc (bit32 18))); apply finish_walk_v6_shift.
  - each_if; try done; apply finish_walk_v6_shift.
Qed.
End Uniform.

Lemma region_mask_ones base : region_mask base = Z.ones (Z.land (Z.shiftr base 1) 0x1f + 1).
Proof.
  unfold region_mask, bit32. cbn zeta. set (s := Z.land (Z.shiftr base 1) 0x1f).
  assert (Hs : 0 <= s < 32) by (apply (land_below 5); lia).
  rewrite Z.shiftl_shiftl, Z.shiftl_1_l by lia. rewrite Z.ones_equiv.
  destruct (decide (s = 31)) as [->|Hne]; [reflexivity|].
  assert (2 ^ (s + 1) < 2 ^ 32) by (apply Z.pow_lt_mono_r; lia).
  assert (0 < 2 ^ (s + 1)) by lia. rewrite (uwrap_small 32 (2 ^ (s + 1))), uwrap_small by lia. lia.
Qed.

Section Uniform.
Context (ldl : Z -> Z) (e : CPUARMState) (acc : Z) (user : bool) (Hwf : mmu_wf e).

Lemma find_region_uniform a o n :
  a mod 1024 = 0 -> 0 <= o < 1024 -> arm_feature e ARM_FEATURE_MPU = true -> (n <= 8)%nat ->
  find_region e (a + o) n = find_region e a n.
Proof.
  intros Ha Ho HM. induction n as [|n IH]; intros Hn; [done|]. cbn [find_region].
  rewrite IH by lia.
  assert (Z.ldiff (Z.lxor (elt e c6_region n) (a + o)) (region_mask (elt e c6_region n)) =
          Z.ldiff (Z.lxor (elt e c6_region n) a) (region_mask (elt e c6_region n))) as ->; [|done].
  destruct Hwf as (_ & _ & Hr). specialize (Hr HM n ltac:(lia)).
  rewrite region_mask_ones. apply Z.bits_inj'. intros i Hi.
  rewrite !Z.ldiff_spec, !Z.lxor_spec, (subpage_bit a o Ha Ho), testbit_ones by lia.
  destruct (Z.ltb_spec i 10); [|done].
  rewrite (proj2 (Z.leb_le _ _)), (proj2 (Z.ltb_lt _ _)) by lia. cbn. btauto.
Qed.

Lemma mpu_uniform a o :
  a mod 1024 = 0 -> 0 <= o < 1024 -> arm_feature e ARM_FEATURE_MPU = true ->
  Ok (get_phys_addr_mpu e (a + o) acc user) = shift_phys o (Ok (get_phys_addr_mpu e a acc user)).
Proof.
  intros Ha Ho HM. unfold get_phys_addr_mpu. rewrite find_region_uniform by done.
  destruct (find_region e a 8); [|done]. cbn zeta. each_if; done.
Qed.

Lemma get_phys_addr_uniform a o :
  in_u32 a -> a mod 1024 = 0 -> 0 <= o < 1024 ->
  get_phys_addr ldl e (a + o) acc user = shift_phys o (get_phys_addr ldl e a acc user).
Proof.
  intros Hr Ha Ho. unfold get_phys_addr. pose proof Hwf as (_ & Hf & _).
  assert (Hlt : (a + o <? 0x02000000) = (a <? 0x02000000)).
  { pose proof (Z.div_mod a 1024 ltac:(lia)).
    destruct (Z.ltb_spec (a + o) 0x02000000), (Z.ltb_spec a 0x02000000); lia. }
  rewrite Hlt. clear Hlt.
  assert (exists b, (if a <? 33554432 then u32 (a + fld e c13_fcse) else a) = b /\ b mod 1024 = 0 /\
    (if a <? 33554432 then u32 (a + o + fld e c13_fcse) else a + o) = b + o) as (b & -> & Hb & ->).
  { destruct (a <? 33554432); [|by exists a]. eexists. split; [reflexivity|].
    unfold uwrap. change (2 ^ 32) with 4294967296.
    assert (((a + fld e c13_fcse) mod 4294967296) mod 1024 = 0) as Hm.
    { rewrite Z.mod_mod_divide by (by exists 4194304). rewrite Z.add_mod, Ha, Hf by lia. done. }
    split; [done|]. Z.to_euclidean_division_equations; lia. }
  destruct (_ =? 0); [done|]. destruct (arm_feature e ARM_FEATURE_MPU) eqn:HM; [by apply mpu_uniform|].
  destruct (ctrue _); [by apply v6_uniform|by apply v5_uniform].
Qed.
End Uniform.

(** ** What a translation grants *)

(** [granted acc prot]: the protection allows the access. *)
Definition granted (acc prot : Z) : Prop :=
  prot = PAGE_READ /\ acc <> 1 \/ prot = Z.lor PAGE_READ PAGE_WRITE.

Lemma check_ap_ok e ap domain acc user :
  0 <= ap < 8 -> exists prot, check_ap e ap domain acc user = Ok prot /\ (prot = 0 \/ granted acc prot).
Proof.
  intros Hap. unfold check_ap, granted. destruct (domain =? 3); [eauto|].
  assert (ap = 0 \/ ap = 1 \/ ap = 2 \/ ap = 3 \/ ap = 4 \/ ap = 5 \/ ap = 6 \/ ap = 7) as Hc by lia.
  destruct (Z.eqb_spec acc 1) as [->|]; destruct user;
    repeat (destruct Hc as [->|Hc]); try subst ap; cbn -[arm_feature Z.land Z.shiftr];
    each_if; eexists; (split; [reflexivity|]); cbn; tauto.
Qed.

(** What privileged code may do includes what user code may do. *)
Lemma check_ap_privileged e ap domain acc prot :
  check_ap e ap domain acc true = Ok prot -> prot <> 0 ->
  exists prot', check_ap e ap domain acc false = Ok prot' /\ prot' <> 0 /\ Z.land prot prot' = prot.
Proof.
  unfold check_ap. intros H Hp. destruct (domain =? 3); [injection H as <-; eauto|].
  destruct (ap =? 0).
  { destruct (acc =? 1); [congruence|]. revert H. cbn zeta.
    destruct (_ =? 1); [intros [= <-]; done|]. destruct (_ =? 2); intros [= <-]; eauto. }
  destruct (ap =? 1); [congruence|].
  destruct (ap =? 2).
  { injection H as <-. eexists; split; [reflexivity|]. split; [done|]. by destruct (acc =? 1). }
  destruct (ap =? 3); [injection H as <-; eauto|]. destruct (ap =? 4); [congruence|].
  destruct (ap =? 5); [congruence|].
  destruct (ap =? 6); [injection H as <-; eexists; split; [reflexivity|]; split; [done|]; by destruct (acc =? 1)|].
  destruct (ap =? 7); [|done]. destruct (negb _); [congruence|].
  injection H as <-. eexists; split; [reflexivity|]; split; [done|]. by destruct (acc =? 1).
Qed.

(** A walk that ends in permissions: mapped with what it needs, or faulting
    with a code that is not 0. *)
Definition walk_ok (acc : Z) (r : res mmu_result) : Prop :=
  exists m, r = Ok m /\
    match m with Mapped pa prot => in_u32 pa /\ granted acc prot | Fault code => 0 < code end.

Lemma do_fault_pos acc code domain : 0 < code -> 0 <= domain -> walk_ok acc (Ok (do_fault code domain)).
Proof.
  intros Hc Hd. eexists. split; [reflexivity|]. cbn.
  assert (0 <= Z.shiftl domain 4) by (by apply Z.shiftl_nonneg).
  assert (0 <= Z.lor code (Z.shiftl domain 4)) by (apply Z.lor_nonneg; lia).
  assert (Z.lor code (Z.shiftl domain 4) <> 0) by (rewrite Z.lor_eq_0_iff; lia). lia.
Qed.

Lemma finish_walk_ok e ap domain acc user pa code :
  0 <= ap < 8 -> 0 <= domain -> in_u32 pa -> 0 < code ->
  walk_ok acc (finish_walk e ap domain acc user pa code).
Proof.
  intros Hap Hd Hpa Hc. unfold finish_walk.
  destruct (check_ap_ok e ap domain acc user Hap) as (prot & -> & [->|Hg]); cbn [rbind].
  - by apply do_fault_pos.
  - assert (ctrue prot = true) as -> by (destruct Hg as [[-> _]| ->]; done). eexists. split; [reflexivity|]. done.
Qed.

Lemma finish_walk_v6_ok e ap xn domain acc user pa code :
  0 <= ap < 8 -> 0 <= domain -> in_u32 pa -> 0 < code ->
  walk_ok acc (finish_walk_v6 e ap xn domain acc user pa code).
Proof.
  intros. unfold finish_walk_v6. destruct (_ && _); [by apply do_fault_pos|].
  destruct (_ && _); [by apply do_fault_pos; [destruct (code =? 15)|]|]. by apply finish_walk_ok.
Qed.

Lemma phys_u32 d f a m : 0 <= f < 2 ^ 32 -> 0 <= m < 2 ^ 32 -> in_u32 (Z.lor (Z.land d f) (Z.land a m)).
Proof. intros Hf Hm. apply (lor_bound 32); [done| |]; by apply land_below. Qed.

Lemma land3 x : 0 <= Z.land x 3 < 8.
Proof. pose proof (land_below 2 x 3). lia. Qed.

Lemma v5_walk_ok ldl e a acc user : walk_ok acc (get_phys_addr_v5 ldl e a acc user).
Proof.
  unfold get_phys_addr_v5. cbn zeta.
  match goal with |- context [Z.land (Z.shiftr (fld e c3) ?d) 3] =>
    set (domain := Z.land (Z.shiftr (fld e c3) d) 3); assert (Hd : 0 <= domain) by (apply land3) end.
  each_if; try (by apply do_fault_pos);
    (apply finish_walk_ok; [apply land3|done|by apply phys_u32|done]).
Qed.

Lemma v6_walk_ok ldl e a acc user : walk_ok acc (get_phys_addr_v6 ldl e a acc user).
Proof.
  unfold get_phys_addr_v6. cbn zeta.
  assert (Hap : forall d i j, 0 <= Z.lor (Z.land (Z.shiftr d i) 3) (Z.land (Z.shiftr d j) 4) < 8).
  { intros d i j. apply (lor_bound 3); [done|pose proof (land3 (Z.shiftr d i)); lia|apply (land_below 3); lia]. }
  destruct (_ =? 0); [by apply do_fault_pos|].
  match goal with |- context [Z.land (Z.shiftr (fld e c3) ?d) 3] =>
    set (domain := Z.land (Z.shiftr (fld e c3) d) 3); assert (Hd : 0 <= domain) by (apply land3) end.
  each_if; try (by apply do_fault_pos);
    (apply finish_walk_v6_ok; [apply Hap|done|by apply phys_u32|done]).
Qed.

Lemma mapped_off a prot : in_u32 a ->
  walk_ok prot (Ok (Mapped a (Z.lor PAGE_READ PAGE_WRITE))).
Proof. intros Ha. eexists. split; [reflexivity|]. split; [done|]. by right. Qed.

Lemma relocated_u32 e a : in_u32 a -> in_u32 (if a <? 0x02000000 then u32 (a + fld e c13_fcse) else a).
Proof. intros Ha. destruct (_ <? _); [|done]. apply (uwrap_range 32). lia. Qed.

(** A user's translation is contained in the privileged one. *)
Definition contained (r r' : res mmu_result) : Prop :=
  forall pa prot, r = Ok (Mapped pa prot) ->
    exists prot', r' = Ok (Mapped pa prot') /\ Z.land prot prot' = prot.

Lemma finish_walk_contained e ap domain acc pa code :
  contained (finish_walk e ap domain acc true pa code) (finish_walk e ap domain acc false pa code).
Proof.
  intros pa' prot H. unfold finish_walk in *. apply rbind_Ok in H as (p & Hp & H).
  destruct (Z.eqb_spec p 0) as [->|Hne]; [done|].
  destruct (check_ap_privileged e ap domain acc p Hp Hne) as (p' & -> & Hp' & Hl). cbn [rbind] in *.
  unfold ctrue in *. rewrite (proj2 (Z.eqb_neq _ _) Hne) in H. rewrite (proj2 (Z.eqb_neq _ _) Hp').
  injection H as -> ->. eauto.
Qed.

Lemma fault_contained c d r : contained (Ok (do_fault c d)) r.
Proof. intros pa prot H. done. Qed.

Lemma finish_walk_v6_contained e ap xn domain acc pa code :
  contained (finish_walk_v6 e ap xn domain acc true pa code) (finish_walk_v6 e ap xn domain acc false pa code).
Proof.
  unfold finish_walk_v6. destruct (_ && _); [apply fault_contained|].
  destruct (_ && _); [apply fault_contained|]. apply finish_walk_contained.
Qed.

Lemma mpu_contained e a acc :
  contained (Ok (get_phys_addr_mpu e a acc true)) (Ok (get_phys_addr_mpu e a acc false)).
Proof.
  intros pa prot [= H]. unfold get_phys_addr_mpu in *. destruct (find_region e a 8); [|done].
  cbn zeta in *. repeat (destruct (_ =? _) in *; [by simplify_eq; eauto|]). done.
Qed.

Lemma get_phys_addr_ok ldl e a acc user :
  in_u32 a -> arm_feature e ARM_FEATURE_MPU = false -> walk_ok acc (get_phys_addr ldl e a acc user).
Proof.
  intros Ha HM. unfold get_phys_addr. pose proof (relocated_u32 e a Ha) as Hr. rewrite HM.
  destruct (_ =? 0); [by apply mapped_off|].
  destruct (ctrue _); [apply v6_walk_ok|apply v5_walk_ok].
Qed.

Lemma get_phys_addr_contained ldl e a acc :
  contained (get_phys_addr ldl e a acc true) (get_phys_addr ldl e a acc false).
Proof.
  unfold get_phys_addr. set (b := if _ <? _ then _ else a).
  destruct (Z.land _ 1 =? 0); [intros pa prot [= <- <-]; eauto|].
  destruct (arm_feature e ARM_FEATURE_MPU); [apply mpu_contained|].
  destruct (ctrue _).
  - unfold get_phys_addr_v6. cbn zeta. each_if; try apply fault_contained; apply finish_walk_v6_contained.
  - unfold get_phys_addr_v5. cbn zeta. each_if; try apply fault_contained; apply finish_walk_contained.
Qed.

(** ** Accesses of different kinds

    The protection found for one access says what another one would find. *)

Definition implied (r r0 r1 : res mmu_result) : Prop :=
  forall pa prot, r = Ok (Mapped pa prot) ->
    (exists prot0, r0 = Ok (Mapped pa prot0)) /\
    (Z.testbit prot 1 = true -> r1 = Ok (Mapped pa (Z.lor PAGE_READ PAGE_WRITE))).

Lemma check_ap_implied e ap domain acc user prot :
  check_ap e ap domain acc user = Ok prot -> prot <> 0 ->
  (exists prot0, check_ap e ap domain 0 user = Ok prot0 /\ prot0 <> 0) /\
  (Z.testbit prot 1 = true -> check_ap e ap domain 1 user = Ok (Z.lor PAGE_READ PAGE_WRITE)).
Proof.
  unfold check_ap. cbn zeta. intros H Hp. change (0 =? 1) with false. change (1 =? 1) with true. cbn match.
  revert H. repeat match goal with |- context [if ?b then _ else _] => destruct b end;
    intros H; simplify_eq; (split; [by eexists; split; [reflexivity|]|]); done.
Qed.

Lemma finish_walk_implied e ap domain acc user pa code :
  implied (finish_walk e ap domain acc user pa code) (finish_walk e ap domain 0 user pa code)
    (finish_walk e ap domain 1 user pa code).
Proof.
  intros pa' prot H. unfold finish_walk in *. apply rbind_Ok in H as (p & Hp & H).
  destruct (Z.eqb_spec p 0) as [->|Hne]; [done|]. unfold ctrue in H.
  rewrite (proj2 (Z.eqb_neq _ _) Hne) in H. injection H as -> ->.
  destruct (check_ap_implied e ap domain acc user prot Hp Hne) as ((p0 & -> & Hp0) & Hw). split.
  - exists p0. cbn [rbind]. unfold ctrue. by rewrite (proj2 (Z.eqb_neq _ _) Hp0).
  - intros H1. by rewrite Hw.
Qed.

Lemma fault_implied c d r0 r1 : implied (Ok (do_fault c d)) r0 r1.
Proof. intros pa prot H. done. Qed.

Lemma finish_walk_v6_implied e ap xn domain acc user pa code :
  implied (finish_walk_v6 e ap xn domain acc user pa code) (finish_walk_v6 e ap xn domain 0 user pa code)
    (finish_walk_v6 e ap xn domain 1 user pa code).
Proof.
  unfold finish_walk_v6. change (0 =? 2) with false. change (1 =? 2) with false. rewrite !andb_false_r.
  destruct (_ && (acc =? 2)); [apply fault_implied|].
  destruct (_ && _); [apply fault_implied|apply finish_walk_implied].
Qed.

Lemma get_phys_addr_implied ldl e a acc user :
  arm_feature e ARM_FEATURE_MPU = false ->
  implied (get_phys_addr ldl e a acc user) (get_phys_addr ldl e a 0 user) (get_phys_addr ldl e a 1 user).
Proof.
  intros HM. unfold get_phys_addr. rewrite HM. set (b := if _ <? _ then _ else a).
  destruct (Z.land _ 1 =? 0); [intros pa prot [= <- <-]; eauto|].
  destruct (ctrue _).
  - unfold get_phys_addr_v6. cbn zeta. each_if; try apply fault_implied; apply finish_walk_v6_implied.
  - unfold get_phys_addr_v5. cbn zeta. each_if; try apply fault_implied; apply finish_walk_implied.
Qed.

(** The offset in the subpage is not translated. *)
Definition low_ok (a : Z) (r : res mmu_result) : Prop :=
  forall pa prot, r = Ok (Mapped pa prot) -> pa mod 1024 = a mod 1024.

Lemma phys_low d f a m :
  (forall i, 0 <= i < 10 -> Z.testbit f i = false) -> (forall i, 0 <= i < 10 -> Z.testbit m i = true) ->
  Z.lor (Z.land d f) (Z.land a m) mod 1024 = a mod 1024.
Proof.
  intros Hf Hm. change 1024 with (2 ^ 10). apply Z.bits_inj'. intros i Hi.
  destruct (Z.lt_ge_cases i 10).
  - rewrite !Z.mod_pow2_bits_low, Z.lor_spec, !Z.land_spec, Hf, Hm by lia. btauto.
  - by rewrite !Z.mod_pow2_bits_high by lia.
Qed.

Lemma finish_walk_low e ap domain acc user pa code a :
  pa mod 1024 = a mod 1024 -> low_ok a (finish_walk e ap domain acc user pa code).
Proof.
  intros Hl pa' prot H. unfold finish_walk in H. apply rbind_Ok in H as (p & _ & H).
  by destruct (negb _); simplify_eq.
Qed.

Lemma finish_walk_v6_low e ap xn domain acc user pa code a :
  pa mod 1024 = a mod 1024 -> low_ok a (finish_walk_v6 e ap xn domain acc user pa code).
Proof.
  intros Hl. unfold finish_walk_v6. destruct (_ && _); [intros pa' prot H; done|].
  destruct (_ && _); [intros pa' prot H; done|by apply finish_walk_low].
Qed.

Lemma get_phys_addr_low ldl e a acc user :
  fld e c13_fcse mod 1024 = 0 -> arm_feature e ARM_FEATURE_MPU = false ->
  low_ok a (get_phys_addr ldl e a acc user).
Proof.
  intros Hf HM. unfold get_phys_addr. rewrite HM. set (b := if _ <? _ then _ else a).
  assert (Hb : b mod 1024 = a mod 1024).
  { unfold b. destruct (_ <? _); [|done]. unfold uwrap. rewrite Z.mod_mod_divide by (by exists 4194304).
    by rewrite <- Z.add_mod_idemp_r, Hf, Z.add_0_r by lia. }
  assert (forall r, low_ok b r -> low_ok a r) as Hba by (intros r H pa prot E; rewrite (H pa prot E); done).
  apply Hba. destruct (Z.land _ 1 =? 0); [by intros pa prot [= <- <-]|].
  destruct (ctrue _); [unfold get_phys_addr_v6|unfold get_phys_addr_v5]; cbn zeta; each_if;
    try (intros pa prot H; done); (apply finish_walk_v6_low || apply finish_walk_low);
    apply phys_low; ((apply (low_bits _ false); reflexivity) || (apply (low_bits _ true); reflexivity)).
Qed.

(** ** The properties *)

(** C24: on a processor with an MMU, a translation ends without aborting,
    either in a physical address whose protection contains the access that
    asked for it (so that a page that was mapped for a store is mapped for
    writing) or in a fault status that is never zero. *)
Theorem mmu_translation_total ldl e a acc user :
  in_u32 a -> arm_feature e ARM_FEATURE_MPU = false ->
  exists m, get_phys_addr ldl e a acc user = Ok m /\
    match m with
    | Mapped pa prot => in_u32 pa /\ granted acc prot
    | Fault code => 0 < code
    end.
Proof. intros Ha HM. by apply get_phys_addr_ok. Qed.

(** C23: mapping one subpage of 1 KB is sound: every address of it has the
    same translation, offset by its distance, with the same protection or the
    same fault, in all the translation regimes; so what the debug access
    computes for a page holds for each byte of it. *)
Theorem mmu_subpage_uniform ldl e a o acc user :
  mmu_wf e -> in_u32 a -> a mod 1024 = 0 -> 0 <= o < 1024 ->
  get_phys_addr ldl e (a + o) acc user =
    match get_phys_addr ldl e a acc user with
    | Ok (Mapped pa prot) => Ok (Mapped (pa + o) prot)
    | r => r
    end.
Proof. intros. rewrite get_phys_addr_uniform by done. by destruct (get_phys_addr ldl e a acc user) as [[]| |]. Qed.

(** Privilege only adds access: where user code is granted an address,
    privileged code is granted at least the same access to the same physical
    address. *)
Theorem mmu_privilege ldl e a acc pa prot :
  get_phys_addr ldl e a acc true = Ok (Mapped pa prot) ->
  exists prot', get_phys_addr ldl e a acc false = Ok (Mapped pa prot') /\ Z.land prot prot' = prot.
Proof. apply get_phys_addr_contained. Qed.

(** One section: the virtual megabyte 0x12300000 at 0x00100000, readable and
    writable in privileged mode and readable for users. *)
Definition sample_walk : CPUARMState :=
  mkCPU (fun f => match f with
                  | c1_sys => 0x800001 | c2_base0 => 0x4000 | c2_base_mask => 0xffffc000 | c3 => 1 | _ => 0 end)
        (fun _ => []).
Definition sample_table (a : Z) : Z := if a =? 0x448c then 0x00100802 else 0.

Lemma mmu_translation_total_witness :
  exists m, get_phys_addr sample_table sample_walk 0x12345678 1 false = Ok m /\
    match m with Mapped pa prot => in_u32 pa /\ granted 1 prot | Fault code => 0 < code end.
Proof. exact (mmu_translation_total sample_table sample_walk 0x12345678 1 false ltac:(lia) eq_refl). Defined.

Lemma mmu_subpage_uniform_witness :
  get_phys_addr sample_table sample_walk (0x12345400 + 0x278) 0 true = Ok (Mapped 0x145678 PAGE_READ).
Proof.
  rewrite (mmu_subpage_uniform sample_table sample_walk 0x12345400 0x278 0 true);
    [vm_compute; reflexivity|split; [|split]; done|lia|reflexivity|lia].
Defined.

Lemma mmu_privilege_witness :
  exists prot', get_phys_addr sample_table sample_walk 0x12345678 0 false = Ok (Mapped 0x145678 prot') /\
    Z.land PAGE_READ prot' = PAGE_READ.
Proof.
  apply (mmu_privilege sample_table sample_walk 0x12345678 0 0x145678 PAGE_READ). vm_compute. reflexivity.
Defined.
