(* ===== verification/SoftMmu.v ===== *)
(** * The soft MMU: loads and stores of the guest

    The TLB of [exec.c] ([tlb_set_page_exec], [tlb_flush], the dirty tracking
    behind [IO_MEM_NOTDIRTY]) and the accesses of [softmmu_template.h] and
    [softmmu_header.h] that translated code makes through it. The memory
    checker, instruction counting and the hit of a watchpoint are left out;
    the pages that have a watchpoint are routed to its slot as the code does.
    Host pointers into the RAM are RAM offsets, as in [GuestMem]. *)
From stdpp Require Import gmap.
From S2P Require Import Prelude ArmCpu GuestMem ArmMmu.
From stdpp Require Import list sets.
#[local] Open Scope Z_scope.

Definition CPU_TLB_SIZE : Z := 256.
Definition NB_MMU_MODES : Z := 2.
Definition TLB_INVALID_MASK : Z := 8.
Definition TLB_NOTDIRTY : Z := 16.
Definition TLB_MMIO : Z := 32.
Definition IO_MEM_NOTDIRTY : Z := 24.
(** [-1] as a [target_ulong]. *)
Definition no_addr : Z := 0xffffffff.
(** [x & (TARGET_PAGE_MASK | TLB_INVALID_MASK)]. *)
Definition tlb_tag (x : Z) : Z := Z.ldiff x (Z.ldiff (TARGET_PAGE_SIZE - 1) TLB_INVALID_MASK).

Record CPUTLBEntry := mkTLB { addr_read : Z; addr_write : Z; addr_code : Z; addend : Z }.

Section SoftMmu.
Context {W : Type}.

Record mmu_state := mkState {
  cpu : CPUARMState;
  tlb_table : Z -> Z -> CPUTLBEntry;       (* by MMU mode and index *)
  iotlb : Z -> Z -> Z;
  pmem : PhysMem;
  dirt : DirtyState;
  watchpoints : list Z;                    (* their [vaddr] *)
  mem_io_vaddr : Z;
  dev : W
}.

Definition set_tlb t s := mkState (cpu s) t (iotlb s) (pmem s) (dirt s) (watchpoints s) (mem_io_vaddr s) (dev s).
Definition set_pmem m s := mkState (cpu s) (tlb_table s) (iotlb s) m (dirt s) (watchpoints s) (mem_io_vaddr s) (dev s).
Definition set_dirt d s := mkState (cpu s) (tlb_table s) (iotlb s) (pmem s) d (watchpoints s) (mem_io_vaddr s) (dev s).
Definition set_cpu e s := mkState e (tlb_table s) (iotlb s) (pmem s) (dirt s) (watchpoints s) (mem_io_vaddr s) (dev s).
Definition set_io_vaddr a s := mkState (cpu s) (tlb_table s) (iotlb s) (pmem s) (dirt s) (watchpoints s) a (dev s).
Definition set_dev w s := mkState (cpu s) (tlb_table s) (iotlb s) (pmem s) (dirt s) (watchpoints s) (mem_io_vaddr s) w.

Definition upd_tlb (idx i : Z) (f : CPUTLBEntry -> CPUTLBEntry) (t : Z -> Z -> CPUTLBEntry) :=
  fun idx' i' => if (idx' =? idx) && (i' =? i) then f (t idx' i') else t idx' i'.

(** ** The TLB *)

Definition tlb_index (addr : Z) : Z := Z.land (Z.shiftr addr TARGET_PAGE_BITS) (CPU_TLB_SIZE - 1).

Definition clear_entry (te : CPUTLBEntry) : CPUTLBEntry := mkTLB no_addr no_addr no_addr (addend te).

Definition in_tlb (idx i : Z) : bool :=
  (0 <=? idx) && (idx <? NB_MMU_MODES) && (0 <=? i) && (i <? CPU_TLB_SIZE).

Definition tlb_flush (s : mmu_state) : mmu_state :=
  set_tlb (fun idx i => if in_tlb idx i then clear_entry (tlb_table s idx i) else tlb_table s idx i) s.

Definition tlb_flush_entry (addr : Z) (te : CPUTLBEntry) : CPUTLBEntry :=
  if (addr =? tlb_tag (addr_read te)) || (addr =? tlb_tag (addr_write te)) || (addr =? tlb_tag (addr_code te))
  then clear_entry te else te.

(** A loop over the MMU modes at one index. *)
Definition all_modes (i : Z) (f : CPUTLBEntry -> CPUTLBEntry) (t : Z -> Z -> CPUTLBEntry) :=
  upd_tlb 1 i f (upd_tlb 0 i f t).

Definition tlb_flush_page (addr : Z) (s : mmu_state) : mmu_state :=
  let addr := page_of addr in
  set_tlb (all_modes (tlb_index addr) (tlb_flush_entry addr) (tlb_table s)) s.

Definition tlb_reset_dirty_range (start length : Z) (te : CPUTLBEntry) : CPUTLBEntry :=
  if page_offset (addr_write te) =? IO_MEM_RAM then
    let addr := u32 (page_of (addr_write te) + addend te) in
    if u32 (addr - start) <? length
    then mkTLB (addr_read te) (Z.lor (page_of (addr_write te)) TLB_NOTDIRTY) (addr_code te) (addend te)
    else te
  else te.

Definition dirty_flags (d : DirtyState) (page : Z) : Z := default 0 (phys_ram_dirty d !! page).
Definition set_flags (page v : Z) (d : DirtyState) : DirtyState :=
  mkDirty (<[page := v]> (phys_ram_dirty d)) (tb_invalidated d).

Fixpoint mask_flags (page : Z) (n : nat) (flags : Z) (d : DirtyState) : DirtyState :=
  match n with
  | O => d
  | S n => mask_flags (page + 1) n flags (set_flags page (Z.ldiff (dirty_flags d page) flags) d)
  end.

Definition physical_memory_reset_dirty (start end_ flags : Z) (s : mmu_state) : res mmu_state :=
  let start := page_of start in
  let end_ := page_of (u32 (end_ + TARGET_PAGE_SIZE - 1)) in
  let length := u32 (end_ - start) in
  if length =? 0 then Ok s else
  let len := Z.shiftr length TARGET_PAGE_BITS in
  let s := set_dirt (mask_flags (Z.shiftr start TARGET_PAGE_BITS) (Z.to_nat len) flags (dirt s)) s in
  let! m := qemu_get_ram_ptr (pmem s) start in
  let! m := qemu_get_ram_ptr m (u32 (end_ - 1)) in
  if negb (same_block start (u32 (end_ - 1)) m) then Abort else
  let s := set_pmem m s in
  Ok (set_tlb (fun idx i => if in_tlb idx i then tlb_reset_dirty_range start length (tlb_table s idx i)
                            else tlb_table s idx i) s).

Definition tlb_set_dirty1 (vaddr : Z) (te : CPUTLBEntry) : CPUTLBEntry :=
  if addr_write te =? Z.lor vaddr TLB_NOTDIRTY
  then mkTLB (addr_read te) vaddr (addr_code te) (addend te) else te.

Definition tlb_set_dirty (vaddr : Z) (s : mmu_state) : mmu_state :=
  let vaddr := page_of vaddr in
  set_tlb (all_modes (tlb_index vaddr) (tlb_set_dirty1 vaddr) (tlb_table s)) s.

(** The slot of the watchpoints. *)
Context (io_mem_watch : Z).

Definition tlb_set_page_exec (vaddr paddr prot mmu_idx : Z) (s : mmu_state) : res mmu_state :=
  let p := phys_page_find (pmem s) (Z.shiftr paddr TARGET_PAGE_BITS) in
  let pd := page_desc p in
  let address := if (IO_MEM_ROM <? page_offset pd) && negb (ctrue (Z.land pd IO_MEM_ROMD))
                 then Z.lor vaddr TLB_MMIO else vaddr in
  let! m := qemu_get_ram_ptr (pmem s) (page_of pd) in
  let ptr := page_of pd in
  let io :=
    if page_offset pd <=? IO_MEM_ROM then
      Z.lor (page_of pd) (if page_offset pd =? IO_MEM_RAM then IO_MEM_NOTDIRTY else IO_MEM_ROM)
    else u32 (page_offset pd + match p with Some p => region_offset p | None => paddr end) in
  let code_address := address in
  let watched := existsb (fun wp => vaddr =? page_of wp) (watchpoints s) in
  let io := if watched then u32 (io_mem_watch + paddr) else io in
  let address := if watched then Z.lor address TLB_MMIO else address in
  let index := tlb_index vaddr in
  let te := mkTLB
    (if ctrue (Z.land prot PAGE_READ) then address else no_addr)
    (if ctrue (Z.land prot PAGE_WRITE) then
       if (page_offset pd =? IO_MEM_ROM) || ctrue (Z.land pd IO_MEM_ROMD) then Z.lor address TLB_MMIO
       else if (page_offset pd =? IO_MEM_RAM)
               && negb (dirty_flags (dirt s) (Z.shiftr pd TARGET_PAGE_BITS) =? 0xff)
       then Z.lor address TLB_NOTDIRTY
       else address
     else no_addr)
    (if ctrue (Z.land prot PAGE_EXEC) then code_address else no_addr)
    (u32 (ptr - vaddr)) in
  Ok (mkState (cpu s) (upd_tlb mmu_idx index (fun _ => te) (tlb_table s))
        (fun idx i => if (idx =? mmu_idx) && (i =? index) then u32 (io - vaddr) else iotlb s idx i)
        m (dirt s) (watchpoints s) (mem_io_vaddr s) (dev s)).

Definition tlb_set_page (vaddr paddr prot mmu_idx : Z) (s : mmu_state) : res mmu_state :=
  let prot := if ctrue (Z.land prot PAGE_READ) then Z.lor prot PAGE_EXEC else prot in
  tlb_set_page_exec vaddr paddr prot mmu_idx s.

(** ** Accesses

    What an access does: return, leave for the guest's fault handler
    ([raise_exception]), stop the emulator, or still be in its loop when the
    rounds that are counted are over. *)

Inductive run (A : Type) :=
| Returns (a : A) (s : mmu_state)
| Raised (s : mmu_state)
| Stops
| Loops.
Arguments Returns {A} a s.
Arguments Raised {A} s.
Arguments Stops {A}.
Arguments Loops {A}.

Definition and_then {A B} (r : run A) (f : A -> mmu_state -> run B) : run B :=
  match r with
  | Returns a s => f a s
  | Raised s => Raised s
  | Stops => Stops
  | Loops => Loops
  end.

(** The devices (with the watchpoints' slot), what a page walk reads from a
    device, and whether a page has translated code left after the code that
    overlaps a store has been invalidated. *)
Context (io_mem_read : Z -> nat -> Z -> W -> res (Z * W)).
Context (io_mem_write : Z -> nat -> Z -> Z -> W -> res W).
Context (io_word : Z -> Z -> Z) (code_gone : Z -> bool).

Definition ldl_phys (m : PhysMem) (addr : Z) : Z :=
  let p := phys_page_find m (Z.shiftr addr TARGET_PAGE_BITS) in
  let pd := page_desc p in
  if (IO_MEM_ROM <? page_offset pd) && negb (ctrue (Z.land pd IO_MEM_ROMD)) then
    io_word (Z.land (Z.shiftr pd IO_MEM_SHIFT) (IO_MEM_NB_ENTRIES - 1))
      (match p with Some p => u32 (page_offset addr + region_offset p) | None => addr end)
  else ld_p (ram_load (ram m) (page_of pd + page_offset addr) 4).

Definition tlb_fill (addr is_write mmu_idx : Z) (s : mmu_state) : run unit :=
  match cpu_arm_handle_mmu_fault (ldl_phys (pmem s)) (cpu s) addr is_write mmu_idx with
  | Ok (TlbSetPage vaddr paddr prot idx) =>
      match tlb_set_page vaddr paddr prot idx s with Ok s => Returns tt s | _ => Stops end
  | Ok (Raise e) => Raised (set_cpu e s)
  | _ => Stops
  end.

(** [ld*_raw] and [st*_raw]: the host's loads and stores. *)
Definition ld_raw (size : nat) (ptr : Z) (s : mmu_state) : Z := ld_p (ram_load (ram (pmem s)) ptr size).
Definition st_raw (size : nat) (ptr val : Z) (s : mmu_state) : mmu_state :=
  let m := pmem s in
  set_pmem (mkMem (phys_map m) (ram_blocks m) (ram_store (ram m) ptr (st_p size val))) s.

Definition tb_invalidate_phys_page_fast (start len : Z) (d : DirtyState) : DirtyState :=
  let d := mkDirty (phys_ram_dirty d) ((start, start + len) :: tb_invalidated d) in
  let page := Z.shiftr start TARGET_PAGE_BITS in
  if code_gone start then set_flags page (Z.lor (dirty_flags d page) CODE_DIRTY_FLAG) d else d.

Definition notdirty_mem_write (size : nat) (ram_addr val : Z) (s : mmu_state) : res mmu_state :=
  let page := Z.shiftr ram_addr TARGET_PAGE_BITS in
  let d := if negb (ctrue (Z.land (dirty_flags (dirt s) page) CODE_DIRTY_FLAG))
           then tb_invalidate_phys_page_fast ram_addr (Z.of_nat size) (dirt s) else dirt s in
  let! m := qemu_get_ram_ptr (pmem s) ram_addr in
  let s := st_raw size ram_addr val (set_pmem m (set_dirt d s)) in
  let flags := Z.lor (dirty_flags d page) (Z.ldiff 0xff CODE_DIRTY_FLAG) in
  let s := set_dirt (set_flags page flags d) s in
  Ok (if flags =? 0xff then tlb_set_dirty (mem_io_vaddr s) s else s).

(** The slots that [io_mem_init] gives to ROM, unassigned and clean pages. *)
Definition slot_read (index : Z) (size : nat) (physaddr : Z) (s : mmu_state) : res (Z * mmu_state) :=
  if (index =? Z.shiftr IO_MEM_ROM IO_MEM_SHIFT) || (index =? Z.shiftr IO_MEM_NOTDIRTY IO_MEM_SHIFT)
  then Undef (* no function *)
  else if index =? Z.shiftr IO_MEM_UNASSIGNED IO_MEM_SHIFT then Ok (0, s)
  else let! (v, w) := io_mem_read index size physaddr (dev s) in Ok (v, set_dev w s).

Definition slot_write (index : Z) (size : nat) (physaddr val : Z) (s : mmu_state) : res mmu_state :=
  if (index =? Z.shiftr IO_MEM_ROM IO_MEM_SHIFT) || (index =? Z.shiftr IO_MEM_UNASSIGNED IO_MEM_SHIFT)
  then Ok s
  else if index =? Z.shiftr IO_MEM_NOTDIRTY IO_MEM_SHIFT then notdirty_mem_write size physaddr val s
  else let! w := io_mem_write index size physaddr val (dev s) in Ok (set_dev w s).

Definition slot_of (physaddr : Z) : Z := Z.land (Z.shiftr physaddr IO_MEM_SHIFT) (IO_MEM_NB_ENTRIES - 1).

Definition of_res {A} (r : res (A * mmu_state)) : run A :=
  match r with Ok (a, s) => Returns a s | _ => Stops end.

Definition io_read (size : nat) (physaddr addr : Z) (s : mmu_state) : run Z :=
  let index := slot_of physaddr in
  let physaddr := u32 (page_of physaddr + addr) in
  let s := set_io_vaddr addr s in
  of_res (if (size <=? 4)%nat then slot_read index size physaddr s
          else let! (lo, s) := slot_read index 4 physaddr s in
               let! (hi, s) := slot_read index 4 (u32 (physaddr + 4)) s in
               Ok (Z.lor lo (Z.shiftl hi 32), s)).

Definition io_write (size : nat) (physaddr val addr : Z) (s : mmu_state) : run unit :=
  let index := slot_of physaddr in
  let physaddr := u32 (page_of physaddr + addr) in
  let s := set_io_vaddr addr s in
  of_res (if (size <=? 4)%nat then let! s := slot_write index size physaddr val s in Ok (tt, s)
          else let! s := slot_write index 4 physaddr (u32 val) s in
               let! s := slot_write index 4 (u32 (physaddr + 4)) (Z.shiftr val 32) s in
               Ok (tt, s)).

(** [ADDR_READ] and [READ_ACCESS_TYPE] of the two instances of the template. *)
Definition ADDR_READ (code : bool) (te : CPUTLBEntry) : Z := if code then addr_code te else addr_read te.
Definition READ_ACCESS_TYPE (code : bool) : Z := if code then 2 else 0.

Fixpoint slow_ld (fuel : nat) (size : nat) (code : bool) (addr mmu_idx : Z) (s : mmu_state) : run Z :=
  match fuel with
  | O => Loops
  | S fuel =>
      let data_size := Z.of_nat size in
      let index := tlb_index addr in
      let te := tlb_table s mmu_idx index in
      let tlb_addr := ADDR_READ code te in
      let do_unaligned_access :=
        let addr1 := Z.ldiff addr (data_size - 1) in
        let addr2 := u32 (addr1 + data_size) in
        and_then (slow_ld fuel size code addr1 mmu_idx s) (fun res1 s =>
        and_then (slow_ld fuel size code addr2 mmu_idx s) (fun res2 s =>
        let shift := Z.land addr (data_size - 1) * 8 in
        Returns (uwrap (data_size * 8) (Z.lor (Z.shiftr res1 shift) (Z.shiftl res2 (data_size * 8 - shift)))) s)) in
      if page_of addr =? tlb_tag tlb_addr then
        if ctrue (page_offset tlb_addr) then
          if ctrue (Z.land addr (data_size - 1)) then do_unaligned_access
          else io_read size (iotlb s mmu_idx index) addr s
        else if TARGET_PAGE_SIZE <=? page_offset addr + data_size - 1 then do_unaligned_access
        else Returns (ld_raw size (u32 (addr + addend te)) s) s
      else
        and_then (tlb_fill addr (READ_ACCESS_TYPE code) mmu_idx s) (fun _ s =>
        slow_ld fuel size code addr mmu_idx s)
  end.

Fixpoint ld_mmu (fuel : nat) (size : nat) (code : bool) (addr mmu_idx : Z) (s : mmu_state) : run Z :=
  match fuel with
  | O => Loops
  | S fuel =>
      let data_size := Z.of_nat size in
      let index := tlb_index addr in
      let te := tlb_table s mmu_idx index in
      let tlb_addr := ADDR_READ code te in
      if page_of addr =? tlb_tag tlb_addr then
        if ctrue (page_offset tlb_addr) then
          if ctrue (Z.land addr (data_size - 1)) then slow_ld fuel size code addr mmu_idx s
          else io_read size (iotlb s mmu_idx index) addr s
        else if TARGET_PAGE_SIZE <=? page_offset addr + data_size - 1 then slow_ld fuel size code addr mmu_idx s
        else Returns (ld_raw size (u32 (addr + addend te)) s) s
      else
        and_then (tlb_fill addr (READ_ACCESS_TYPE code) mmu_idx s) (fun _ s =>
        ld_mmu fuel size code addr mmu_idx s)
  end.

(** The loop of the unaligned case, from the last byte to the first. *)
Fixpoint st_bytes (slow_stb : Z -> Z -> mmu_state -> run unit) (addr val : Z) (i : nat) (s : mmu_state) : run unit :=
  match i with
  | O => Returns tt s
  | S i =>
      and_then (slow_stb (u32 (addr + Z.of_nat i)) (u8 (Z.shiftr val (8 * Z.of_nat i))) s)
        (fun _ s => st_bytes slow_stb addr val i s)
  end.

Fixpoint slow_st (fuel : nat) (size : nat) (addr val mmu_idx : Z) (s : mmu_state) : run unit :=
  match fuel with
  | O => Loops
  | S fuel =>
      let data_size := Z.of_nat size in
      let index := tlb_index addr in
      let te := tlb_table s mmu_idx index in
      let tlb_addr := addr_write te in
      let do_unaligned_access :=
        st_bytes (fun a v s => slow_st fuel 1 a v mmu_idx s) addr val size s in
      if page_of addr =? tlb_tag tlb_addr then
        if ctrue (page_offset tlb_addr) then
          if ctrue (Z.land addr (data_size - 1)) then do_unaligned_access
          else io_write size (iotlb s mmu_idx index) val addr s
        else if TARGET_PAGE_SIZE <=? page_offset addr + data_size - 1 then do_unaligned_access
        else Returns tt (st_raw size (u32 (addr + addend te)) val s)
      else
        and_then (tlb_fill addr 1 mmu_idx s) (fun _ s => slow_st fuel size addr val mmu_idx s)
  end.

Fixpoint st_mmu (fuel : nat) (size : nat) (addr val mmu_idx : Z) (s : mmu_state) : run unit :=
  match fuel with
  | O => Loops
  | S fuel =>
      let data_size := Z.of_nat size in
      let index := tlb_index addr in
      let te := tlb_table s mmu_idx index in
      let tlb_addr := addr_write te in
      if page_of addr =? tlb_tag tlb_addr then
        if ctrue (page_offset tlb_addr) then
          if ctrue (Z.land addr (data_size - 1)) then slow_st fuel size addr val mmu_idx s
          else io_write size (iotlb s mmu_idx index) val addr s
        else if TARGET_PAGE_SIZE <=? page_offset addr + data_size - 1 then slow_st fuel size addr val mmu_idx s
        else Returns tt (st_raw size (u32 (addr + addend te)) val s)
      else
        and_then (tlb_fill addr 1 mmu_idx s) (fun _ s => st_mmu fuel size addr val mmu_idx s)
  end.

(** The inline accesses of [softmmu_header.h]: [ld*] and [st*] with the
    suffix of the mode. *)
Definition fast_tag (size : nat) (addr : Z) : Z := Z.lor (page_of addr) (Z.land addr (Z.of_nat size - 1)).

Definition ld_mem (fuel size : nat) (code : bool) (addr mmu_idx : Z) (s : mmu_state) : run Z :=
  let te := tlb_table s mmu_idx (tlb_index addr) in
  if negb (ADDR_READ code te =? fast_tag size addr) then ld_mmu fuel size code addr mmu_idx s
  else Returns (ld_raw size (u32 (addr + addend te)) s) s.

Definition st_mem (fuel size : nat) (addr val mmu_idx : Z) (s : mmu_state) : run unit :=
  let te := tlb_table s mmu_idx (tlb_index addr) in
  if negb (addr_write te =? fast_tag size addr) then st_mmu fuel size addr val mmu_idx s
  else Returns tt (st_raw size (u32 (addr + addend te)) val s).

(** ** What the TLB holds

    [tr] is the translation that the page tables give now. *)

Definition tr (s : mmu_state) (idx va acc : Z) : res mmu_result :=
  get_phys_addr (ldl_phys (pmem s)) (cpu s) va acc (idx =? MMU_USER_IDX).

Definition desc_at (s : mmu_state) (pa : Z) : option PhysPageDesc :=
  phys_page_find (pmem s) (Z.shiftr pa TARGET_PAGE_BITS).

(** A page whose reads go to a device. *)
Definition is_io (pd : Z) : bool := (IO_MEM_ROM <? page_offset pd) && negb (ctrue (Z.land pd IO_MEM_ROMD)).

(** The slot and address that the TLB keeps for a page. *)
Definition io_base (p : option PhysPageDesc) (paddr : Z) : Z :=
  let pd := page_desc p in
  if page_offset pd <=? IO_MEM_ROM then
    Z.lor (page_of pd) (if page_offset pd =? IO_MEM_RAM then IO_MEM_NOTDIRTY else IO_MEM_ROM)
  else u32 (page_offset pd + match p with Some p => region_offset p | None => paddr end).

Definition entry_at (s : mmu_state) (idx i va pa : Z) : Prop :=
  va mod 1024 = 0 /\ in_u32 va /\ tlb_index va = i /\
  addend (tlb_table s idx i) = u32 (page_of (page_desc (desc_at s pa)) - va) /\
  iotlb s idx i = u32 (io_base (desc_at s pa) pa - va).

Definition read_ok (s : mmu_state) (idx i : Z) : Prop :=
  let ta := addr_read (tlb_table s idx i) in
  ta = no_addr \/
  exists va pa prot, entry_at s idx i va pa /\ tr s idx va 0 = Ok (Mapped pa prot) /\
    ta = if is_io (page_desc (desc_at s pa)) then Z.lor va TLB_MMIO else va.

Definition write_ok (s : mmu_state) (idx i : Z) : Prop :=
  let ta := addr_write (tlb_table s idx i) in
  ta = no_addr \/
  exists va pa, entry_at s idx i va pa /\ tr s idx va 1 = Ok (Mapped pa (Z.lor PAGE_READ PAGE_WRITE)) /\
    let pd := page_desc (desc_at s pa) in
    ((ta = va /\ page_offset pd = IO_MEM_RAM /\ dirty_flags (dirt s) (Z.shiftr pd TARGET_PAGE_BITS) = 0xff)
     \/ ta = Z.lor va TLB_NOTDIRTY /\ page_offset pd = IO_MEM_RAM \/ ta = Z.lor va TLB_MMIO /\ page_offset pd <> IO_MEM_RAM) /\
    (is_io pd = true -> ta = Z.lor va TLB_MMIO).

(** A fetch goes where a load goes: on ARM every page that can be read gets
    the right to execute from [tlb_set_page], also when the page tables refuse
    the fetch ([execute_never_lost]). *)
Definition code_ok (s : mmu_state) (idx i : Z) : Prop :=
  addr_code (tlb_table s idx i) = addr_read (tlb_table s idx i).

(** Every entry is what the page tables, the page descriptors and the dirty
    flags give now: its read tag for loads, its write tag for stores, its
    code tag the one of loads. *)
Definition coherent (s : mmu_state) : Prop :=
  forall idx i, in_tlb idx i = true -> read_ok s idx i /\ write_ok s idx i /\ code_ok s idx i.

(** The descriptors that [cpu_register_physical_memory] makes: RAM, ROM, or
    a slot (with its RAM, when reads go to it). *)
Definition desc_ok (pd : Z) : Prop :=
  in_u32 pd /\
  (page_offset pd = IO_MEM_RAM \/ page_offset pd = IO_MEM_ROM \/ ctrue (Z.land pd IO_MEM_ROMD) = true \/ is_io pd = true).

(** The machine: an MMU whose registers respect subpages, no watchpoints, RAM
    behind every page descriptor, bytes in the RAM and in the dirty flags. *)
Definition env_ok (s : mmu_state) : Prop :=
  mmu_wf (cpu s) /\ arm_feature (cpu s) ARM_FEATURE_MPU = false /\ watchpoints s = [] /\
  (forall n, let pd := page_desc (phys_page_find (pmem s) n) in
     desc_ok pd /\ forall o, 0 <= o < 1024 -> existsb (in_block (page_of pd + o)) (ram_blocks (pmem s)) = true) /\
  (forall a, in_u8 (ram_byte (ram (pmem s)) a)) /\ (forall page, in_u8 (dirty_flags (dirt s) page)).

(** Two states that differ only in the TLB (and the order of the blocks). *)
Definition same_env (s s' : mmu_state) : Prop :=
  cpu s' = cpu s /\ mem_like (pmem s) (ram (pmem s)) (pmem s') /\ dirt s' = dirt s /\
  watchpoints s' = watchpoints s /\ dev s' = dev s.

Lemma same_env_refl s : same_env s s.
Proof. by repeat split. Qed.

Lemma same_env_trans s1 s2 s3 : same_env s1 s2 -> same_env s2 s3 -> same_env s1 s3.
Proof.
  intros (H1 & H2 & H3 & H4 & H5) (K1 & K2 & K3 & K4 & K5). unfold same_env.
  rewrite K1, K3, K4, K5. split_and!; try done. destruct H2 as (A & B & C), K2 as (A' & B' & C').
  unfold mem_like. by rewrite A', B', C', C.
Qed.

Lemma env_desc s s' pa : same_env s s' -> desc_at s' pa = desc_at s pa.
Proof using Type. intros (_ & (H & _) & _). unfold desc_at, phys_page_find. by rewrite H. Qed.

Lemma env_tr s s' idx va acc : same_env s s' -> tr s' idx va acc = tr s idx va acc.
Proof using Type.
  intros (Hc & (Hp & _ & Hr) & _). unfold tr. rewrite Hc.
  assert (ldl_phys (pmem s') = ldl_phys (pmem s)) as ->; [|done].
  unfold ldl_phys, phys_page_find. by rewrite Hp, Hr.
Qed.

Lemma env_env_ok s s' : same_env s s' -> env_ok s -> env_ok s'.
Proof.
  intros (Hc & (Hp & Hb & Hr) & Hd & Hw & _) (H1 & H2 & H3 & H4 & H5 & H6). unfold env_ok, phys_page_find.
  rewrite Hc, Hp, Hr, Hw, Hd. split; [done|]. split; [done|]. split; [done|]. split; [|done].
  intros n. split; [apply H4|]. intros o Ho. rewrite Hb. by apply H4.
Qed.

(** ** Tags and pages *)

Lemma tlb_tag_bit x i :
  0 <= i -> Z.testbit (tlb_tag x) i = Z.testbit x i && ((10 <=? i) || (i =? 3)).
Proof.
  intros Hi. unfold tlb_tag. rewrite !Z.ldiff_spec.
  change (TARGET_PAGE_SIZE - 1) with (Z.ones 10). change TLB_INVALID_MASK with (bit32 3).
  rewrite testbit_ones, testbit_bit32 by lia. rewrite (proj2 (Z.leb_le _ _) Hi). cbn [andb].
  rewrite Z.ltb_antisym. destruct (10 <=? i), (i =? 3); cbn; btauto.
Qed.

Lemma page_bit x i : 0 <= i -> Z.testbit (page_of x) i = Z.testbit x i && (10 <=? i).
Proof.
  intros Hi. unfold page_of. rewrite Z.ldiff_spec. change (TARGET_PAGE_SIZE - 1) with (Z.ones 10).
  rewrite testbit_ones, (proj2 (Z.leb_le _ _) Hi), Z.ltb_antisym by lia.
  destruct (10 <=? i); cbn; btauto.
Qed.

(** An address with flags that are not the invalid bit has its page as tag. *)
Lemma tlb_tag_flags va f :
  va mod 1024 = 0 -> 0 <= f < 1024 -> Z.testbit f 3 = false -> tlb_tag (Z.lor va f) = va.
Proof.
  intros Hva Hf H3. apply Z.bits_inj'. intros i Hi. rewrite tlb_tag_bit, Z.lor_spec by done.
  destruct (Z.leb_spec 10 i); cbn [orb].
  - by rewrite (testbit_bound 10 f), orb_false_r, andb_true_r by done.
  - rewrite (aligned_bit va Hva) by lia. destruct (Z.eqb_spec i 3) as [->|]; [by rewrite H3|].
    by rewrite andb_false_r.
Qed.

Lemma tlb_tag_page va : va mod 1024 = 0 -> tlb_tag va = va.
Proof. intros H. rewrite <- (Z.lor_0_r va) at 1. by apply tlb_tag_flags. Qed.

(** The tag of a cleared entry is no page. *)
Lemma no_addr_tag x : page_of x <> tlb_tag no_addr.
Proof. intros H. apply (f_equal (fun z => Z.testbit z 3)) in H. rewrite page_bit, andb_false_r in H by lia. done. Qed.

Lemma page_of_aligned x : page_of x mod 1024 = 0.
Proof.
  rewrite page_of_mod. pose proof (Z.div_mod x 1024 ltac:(lia)).
  replace (x - x mod 1024) with (x / 1024 * 1024) by lia. apply Z.mod_mul. lia.
Qed.

Lemma page_of_u32 x : in_u32 x -> in_u32 (page_of x).
Proof. intros H. rewrite page_of_mod. pose proof (Z.mod_pos_bound x 1024). pose proof (Z.mod_le x 1024). lia. Qed.

Lemma page_split x : x = page_of x + x mod 1024.
Proof. rewrite page_of_mod. lia. Qed.

Lemma page_of_add va o : va mod 1024 = 0 -> 0 <= o < 1024 -> page_of (va + o) = va.
Proof. intros Hva Ho. rewrite page_of_mod, <- Z.add_mod_idemp_l, Hva, Z.add_0_l, Z.mod_small by lia. lia. Qed.

Lemma tlb_index_page x : tlb_index (page_of x) = tlb_index x.
Proof. unfold tlb_index. by rewrite shiftr_page_of. Qed.

Lemma in_tlb_index idx x : 0 <= idx < 2 -> in_tlb idx (tlb_index x) = true.
Proof.
  intros Hi. unfold in_tlb, NB_MMU_MODES, CPU_TLB_SIZE.
  assert (0 <= tlb_index x < 256) by (apply (land_below 8); [done|unfold CPU_TLB_SIZE; lia]).
  rewrite !andb_true_iff, !Z.leb_le, !Z.ltb_lt. lia.
Qed.

(** Addresses of one page are translated together. *)
Lemma tr_page s idx a acc pa prot :
  env_ok s -> in_u32 a -> tr s idx a acc = Ok (Mapped pa prot) ->
  tr s idx (page_of a) acc = Ok (Mapped (page_of pa) prot) /\ pa = page_of pa + a mod 1024.
Proof.
  intros (Hwf & HM & _) Ha Ht. unfold tr in *.
  pose proof (get_phys_addr_low (ldl_phys (pmem s)) (cpu s) a acc (idx =? MMU_USER_IDX)
    (proj1 (proj2 Hwf)) HM _ _ Ht) as Hlow.
  assert (pa = page_of pa + a mod 1024) as Hpa by (rewrite <- Hlow; apply page_split). split; [|done].
  pose proof (Z.mod_pos_bound a 1024 ltac:(lia)) as Ho.
  rewrite (page_split a) in Ht.
  rewrite (get_phys_addr_uniform _ _ acc _ Hwf (page_of a) (a mod 1024)) in Ht;
    [|by apply page_of_u32|apply page_of_aligned|done].
  destruct (get_phys_addr _ _ (page_of a) _ _) as [[q pr|]| |]; simplify_eq/=. f_equal. f_equal.
  apply (f_equal (fun z => z - a mod 1024)) in Hpa. lia.
Qed.

Lemma tr_byte s idx a o acc pa prot :
  env_ok s -> in_u32 a -> a mod 1024 = 0 -> 0 <= o < 1024 -> tr s idx a acc = Ok (Mapped pa prot) ->
  tr s idx (a + o) acc = Ok (Mapped (pa + o) prot).
Proof.
  intros (Hwf & _) Ha Hm Ho Ht. unfold tr in *. rewrite (get_phys_addr_uniform _ _ acc _ Hwf) by done.
  by rewrite Ht.
Qed.

(** ** Filling the TLB *)

(** Two states with the same translation and descriptors, the second one at
    least as dirty. *)
Definition same_map (s s' : mmu_state) : Prop :=
  (forall idx va acc, tr s' idx va acc = tr s idx va acc) /\ (forall pa, desc_at s' pa = desc_at s pa) /\
  (forall page, dirty_flags (dirt s) page = 0xff -> dirty_flags (dirt s') page = 0xff).

Lemma env_map s s' : same_env s s' -> same_map s s'.
Proof using Type.
  intros H. split; [|split]; [intros; by apply env_tr|intros; by apply env_desc|].
  destruct H as (_ & _ & -> & _). done.
Qed.

Lemma read_ok_map s s' idx i :
  same_map s s' -> tlb_table s' idx i = tlb_table s idx i -> iotlb s' idx i = iotlb s idx i ->
  read_ok s idx i -> read_ok s' idx i.
Proof using Type.
  intros (Ht & Hd & _) Htl Hio. unfold read_ok, entry_at. rewrite Htl, Hio.
  intros [H|(va & pa & prot & H)]; [by left|right; exists va, pa, prot]. by rewrite Hd, Ht.
Qed.

Lemma write_ok_map s s' idx i :
  same_map s s' -> tlb_table s' idx i = tlb_table s idx i -> iotlb s' idx i = iotlb s idx i ->
  write_ok s idx i -> write_ok s' idx i.
Proof using Type.
  intros (Ht & Hd & Hf) Htl Hio. unfold write_ok, entry_at. rewrite Htl, Hio.
  intros [H|(va & pa & H1 & H2 & H3 & H4)]; [by left|right; exists va, pa]. rewrite Hd, Ht.
  split; [done|]. split; [done|]. split; [|done]. destruct H3 as [(A & B & C)|H3]; [left; auto|by right].
Qed.

Lemma coherent_map s s' :
  same_map s s' -> tlb_table s' = tlb_table s -> iotlb s' = iotlb s -> coherent s -> coherent s'.
Proof using Type.
  intros Hm Ht Hi Hc idx i Hin. destruct (Hc idx i Hin) as (? & ? & ?). split_and!.
  - apply (read_ok_map s s'); by rewrite ?Ht, ?Hi.
  - apply (write_ok_map s s'); by rewrite ?Ht, ?Hi.
  - unfold code_ok. by rewrite Ht.
Qed.

Lemma prot_read acc prot : granted acc prot -> ctrue (Z.land prot PAGE_READ) = true.
Proof. intros [[-> _]| ->]; done. Qed.

Lemma set_page_ok s idx va pa prot acc :
  env_ok s -> coherent s -> 0 <= idx < 2 -> in_u32 va -> va mod 1024 = 0 ->
  tr s idx va acc = Ok (Mapped pa prot) -> granted acc prot ->
  exists s', tlb_set_page va pa prot idx s = Ok s' /\ same_env s s' /\ coherent s' /\
    let te := tlb_table s' idx (tlb_index va) in
    tlb_tag (addr_read te) = va /\ (Z.testbit prot 1 = true -> tlb_tag (addr_write te) = va) /\
    addr_code te = addr_read te.
Proof.
  intros Henv Hco Hidx Hva Hal Htr Hg. pose proof Henv as (Hwf & HM & Hw & Hblk & _).
  pose proof (get_phys_addr_implied (ldl_phys (pmem s)) (cpu s) va acc (idx =? MMU_USER_IDX) HM _ _ Htr)
    as [(prot0 & Hr0) Hw1]. fold (tr s idx va 0) in Hr0. fold (tr s idx va 1) in Hw1.
  unfold tlb_set_page. rewrite (prot_read acc prot Hg). unfold tlb_set_page_exec. cbn zeta.
  fold (desc_at s pa). set (p := desc_at s pa). set (pd := page_desc p).
  destruct (Hblk (Z.shiftr pa TARGET_PAGE_BITS)) as [[Hpd Hkind] Hb]. fold (desc_at s pa) p pd in Hpd, Hkind, Hb.
  specialize (Hb 0 ltac:(lia)). rewrite Z.add_0_r in Hb.
  destruct (get_ram_ptr_ok (pmem s) (page_of pd) Hb) as (m & -> & Hm). cbn [rbind].
  rewrite Hw. cbn [existsb]. eexists. split; [reflexivity|].
  match goal with |- same_env s ?x /\ _ => set (s' := x) end.
  assert (Henv' : same_env s s') by (unfold same_env; cbn; rewrite Hw; by split_and!).
  split; [done|].
  assert (Hread : ctrue (Z.land (Z.lor prot PAGE_EXEC) PAGE_READ) = true) by (destruct Hg as [[-> _]| ->]; done).
  assert (Hwrite : ctrue (Z.land (Z.lor prot PAGE_EXEC) PAGE_WRITE) = Z.testbit prot 1)
    by (destruct Hg as [[-> _]| ->]; done).
  assert (Hexec : ctrue (Z.land (Z.lor prot PAGE_EXEC) PAGE_EXEC) = true) by (destruct Hg as [[-> _]| ->]; done).
  assert (Hte : tlb_table s' idx (tlb_index va) = mkTLB
    (if is_io pd then Z.lor va TLB_MMIO else va)
    (if Z.testbit prot 1 then
       if (page_offset pd =? IO_MEM_ROM) || ctrue (Z.land pd IO_MEM_ROMD)
       then Z.lor (if is_io pd then Z.lor va TLB_MMIO else va) TLB_MMIO
       else if (page_offset pd =? IO_MEM_RAM) && negb (dirty_flags (dirt s) (Z.shiftr pd TARGET_PAGE_BITS) =? 0xff)
       then Z.lor (if is_io pd then Z.lor va TLB_MMIO else va) TLB_NOTDIRTY
       else (if is_io pd then Z.lor va TLB_MMIO else va)
     else no_addr)
    (if is_io pd then Z.lor va TLB_MMIO else va) (u32 (page_of pd - va))).
  { cbn [s' tlb_table]. unfold upd_tlb. rewrite !Z.eqb_refl. cbn [andb]. fold (is_io pd).
    rewrite Hread, Hwrite, Hexec. done. }
  assert (Hentry : entry_at s' idx (tlb_index va) va pa).
  { unfold entry_at. rewrite Hte, (env_desc s s') by done. split_and!; try done; try lia.
    cbn [s' iotlb]. by rewrite !Z.eqb_refl. }
  assert (Hflags : page_offset pd = IO_MEM_RAM -> is_io pd = false /\ ctrue (Z.land pd IO_MEM_ROMD) = false).
  { intros Hram. unfold is_io. rewrite Hram. split; [done|]. change IO_MEM_ROMD with (bit32 0).
    rewrite land_bit32_ctrue by lia. rewrite page_offset_mod in Hram.
    rewrite <- (Z.mod_pow2_bits_low pd 10) by lia. change (2 ^ 10) with 1024. by rewrite Hram. }
  split.
  - intros idx' i' Hin. destruct (decide (idx' = idx /\ i' = tlb_index va)) as [[-> ->]|Hne].
    + split; [|split; [|unfold code_ok; by rewrite Hte]].
      * right. exists va, pa, prot0. rewrite (env_tr s s'), (env_desc s s') by done. rewrite Hte. by split_and!.
      * unfold write_ok. rewrite Hte. cbn [addr_write]. destruct (Z.testbit prot 1); [|by left]. right.
        exists va, pa. rewrite (env_tr s s'), (env_desc s s') by done. fold p pd.
        split; [done|]. split; [by apply Hw1|]. cbn zeta.
        change (dirt s') with (dirt s).
        destruct (Z.eqb_spec (page_offset pd) IO_MEM_RAM) as [Hram|Hnram].
        { destruct (Hflags Hram) as [-> ->]. rewrite Hram. change (IO_MEM_RAM =? IO_MEM_ROM) with false. cbn [orb].
          destruct (Z.eqb_spec (dirty_flags (dirt s) (Z.shiftr pd TARGET_PAGE_BITS)) 0xff); cbn [negb andb];
            (split; [|done]); [left; done|right; left; done]. }
        cbn [andb]. assert (Hmm : (if (page_offset pd =? IO_MEM_ROM) || ctrue (Z.land pd IO_MEM_ROMD)
            then Z.lor (if is_io pd then Z.lor va TLB_MMIO else va) TLB_MMIO
            else if is_io pd then Z.lor va TLB_MMIO else va) = Z.lor va TLB_MMIO).
        { destruct (is_io pd) eqn:Eio; rewrite <- ?Z.lor_assoc; change (Z.lor TLB_MMIO TLB_MMIO) with TLB_MMIO;
            [by destruct (_ || _)|]. destruct Hkind as [?|[->|[->|?]]]; try done. by rewrite orb_true_r. }
        rewrite Hmm. split; [right; right; done|done].
    + assert (Ht : tlb_table s' idx' i' = tlb_table s idx' i').
      { cbn [s' tlb_table]. unfold upd_tlb.
        destruct (Z.eqb_spec idx' idx), (Z.eqb_spec i' (tlb_index va)); cbn; try done; by destruct Hne. }
      assert (Hi : iotlb s' idx' i' = iotlb s idx' i').
      { cbn [s' iotlb]. destruct (Z.eqb_spec idx' idx), (Z.eqb_spec i' (tlb_index va)); cbn; try done; by destruct Hne. }
      destruct (Hco idx' i' Hin) as (? & ? & ?). apply env_map in Henv'.
      split_and!; [by apply (read_ok_map s s')|by apply (write_ok_map s s')|unfold code_ok; by rewrite Ht].
  - cbn zeta. rewrite Hte. cbn [addr_read addr_write addr_code]. split; [|split; [|done]].
    + destruct (is_io pd); [by apply tlb_tag_flags|by apply tlb_tag_page].
    + intros ->. repeat case_match; rewrite <- ?Z.lor_assoc; try (by apply tlb_tag_flags); by apply tlb_tag_page.
Qed.

(** A miss whose page the tables map: the entry is there afterwards. *)
Lemma fill_ok s idx addr acc pa prot :
  env_ok s -> coherent s -> 0 <= idx < 2 -> in_u32 addr -> tr s idx addr acc = Ok (Mapped pa prot) ->
  exists s', tlb_fill addr acc idx s = Returns tt s' /\ same_env s s' /\ coherent s' /\
    let te := tlb_table s' idx (tlb_index addr) in
    page_of addr = tlb_tag (addr_read te) /\ (acc = 1 -> page_of addr = tlb_tag (addr_write te)) /\
    addr_code te = addr_read te.
Proof.
  intros Henv Hco Hidx Ha Ht. pose proof Henv as (_ & HM & _).
  destruct (get_phys_addr_ok (ldl_phys (pmem s)) (cpu s) addr acc (idx =? MMU_USER_IDX) Ha HM) as (r & E & Hr).
  unfold tr in Ht. rewrite Ht in E. injection E as <-. destruct Hr as [_ Hg].
  destruct (tr_page s idx addr acc pa prot Henv Ha Ht) as [Htp _].
  destruct (set_page_ok s idx (page_of addr) (page_of pa) prot acc) as (s' & Hs' & He & Hc & H1 & H2 & H3);
    try done; [by apply page_of_u32|apply page_of_aligned|].
  exists s'. unfold tlb_fill, cpu_arm_handle_mmu_fault. rewrite Ht. cbn [rbind].
  change (Z.ldiff addr 1023) with (page_of addr). change (Z.ldiff pa 1023) with (page_of pa). rewrite Hs'.
  rewrite tlb_index_page in H1, H2, H3. split_and!; try done. intros ->. symmetry. apply H2.
  destruct Hg as [[-> Hg]| ->]; done.
Qed.

(** A miss whose page they do not map: the fault is recorded and raised. *)
Lemma fill_fault s idx addr acc code :
  env_ok s -> in_u32 addr -> tr s idx addr acc = Ok (Fault code) ->
  exists e, cpu_arm_handle_mmu_fault (ldl_phys (pmem s)) (cpu s) addr acc idx = Ok (Raise e) /\
    tlb_fill addr acc idx s = Raised (set_cpu e s).
Proof.
  intros Henv Ha Ht. pose proof Henv as (_ & HM & _).
  destruct (get_phys_addr_ok (ldl_phys (pmem s)) (cpu s) addr acc (idx =? MMU_USER_IDX) Ha HM) as (r & E & Hr).
  unfold tr in Ht. rewrite Ht in E. injection E as <-.
  unfold tlb_fill, cpu_arm_handle_mmu_fault. rewrite Ht. cbn [rbind].
  destruct (Z.eqb_spec code 0); [lia|]. destruct (acc =? 2); eauto.
Qed.

Lemma read_hit s idx addr :
  coherent s -> 0 <= idx < 2 ->
  page_of addr = tlb_tag (addr_read (tlb_table s idx (tlb_index addr))) ->
  exists pa prot, entry_at s idx (tlb_index addr) (page_of addr) pa /\
    tr s idx (page_of addr) 0 = Ok (Mapped pa prot) /\
    addr_read (tlb_table s idx (tlb_index addr)) =
      if is_io (page_desc (desc_at s pa)) then Z.lor (page_of addr) TLB_MMIO else page_of addr.
Proof.
  intros Hc Hidx Htag. destruct (Hc idx (tlb_index addr) (in_tlb_index idx addr Hidx)) as [[H|H] _].
  - rewrite H in Htag. by apply no_addr_tag in Htag.
  - destruct H as (va & pa & prot & He & Ht & Hta). exists pa, prot. pose proof He as (Hal & _).
    assert (page_of addr = va) as ->; [|done]. rewrite Htag, Hta.
    destruct (is_io _); [by apply tlb_tag_flags|by apply tlb_tag_page].
Qed.

Lemma write_hit s idx addr :
  coherent s -> 0 <= idx < 2 ->
  page_of addr = tlb_tag (addr_write (tlb_table s idx (tlb_index addr))) ->
  let ta := addr_write (tlb_table s idx (tlb_index addr)) in
  exists pa, entry_at s idx (tlb_index addr) (page_of addr) pa /\
    tr s idx (page_of addr) 1 = Ok (Mapped pa (Z.lor PAGE_READ PAGE_WRITE)) /\
    let pd := page_desc (desc_at s pa) in
    ((ta = page_of addr /\ page_offset pd = IO_MEM_RAM /\ dirty_flags (dirt s) (Z.shiftr pd TARGET_PAGE_BITS) = 0xff)
     \/ ta = Z.lor (page_of addr) TLB_NOTDIRTY /\ page_offset pd = IO_MEM_RAM
     \/ ta = Z.lor (page_of addr) TLB_MMIO /\ page_offset pd <> IO_MEM_RAM) /\
    (is_io pd = true -> ta = Z.lor (page_of addr) TLB_MMIO).
Proof.
  intros Hc Hidx Htag. cbn zeta. destruct (Hc idx (tlb_index addr) (in_tlb_index idx addr Hidx)) as (_ & [H|H] & _).
  - rewrite H in Htag. by apply no_addr_tag in Htag.
  - destruct H as (va & pa & He & Ht & Hta). exists pa. pose proof He as (Hal & _).
    assert (page_of addr = va) as ->; [|done]. rewrite Htag.
    destruct Hta as [[[-> _]|[[-> _]|[-> _]]] _]; (by apply tlb_tag_flags) || by apply tlb_tag_page.
Qed.

(** ** RAM behind an address *)

Definition ram_off (s : mmu_state) (idx a acc : Z) : option Z :=
  match tr s idx a acc with
  | Ok (Mapped pa _) =>
      let pd := page_desc (desc_at s pa) in
      if page_offset pd =? IO_MEM_RAM then Some (pd + page_offset pa) else None
  | _ => None
  end.

Lemma ram_off_page s idx a acc off :
  env_ok s -> in_u32 a -> ram_off s idx a acc = Some off ->
  exists pa prot, tr s idx a acc = Ok (Mapped (pa + a mod 1024) prot) /\
    tr s idx (page_of a) acc = Ok (Mapped pa prot) /\
    page_offset (page_desc (desc_at s pa)) = IO_MEM_RAM /\
    off = page_desc (desc_at s pa) + a mod 1024.
Proof.
  intros Henv Ha Ho. unfold ram_off in Ho. destruct (tr s idx a acc) as [[pa prot|]| |] eqn:Ht; try done.
  destruct (tr_page s idx a acc pa prot Henv Ha Ht) as [Htp Hpa]. exists (page_of pa), prot.
  assert (desc_at s (page_of pa) = desc_at s pa) as Hd by (unfold desc_at; by rewrite shiftr_page_of).
  destruct (Z.eqb_spec (page_offset (page_desc (desc_at s pa))) IO_MEM_RAM) as [E|]; [|done].
  rewrite Hd. injection Ho as <-. split_and!; try done; [by rewrite <- Hpa|].
  rewrite page_offset_mod. f_equal. rewrite Hpa.
  pose proof (page_of_aligned pa). by rewrite mod_page_add.
Qed.

(** The other bytes of the page follow. *)
Lemma ram_off_add s idx a o acc off :
  env_ok s -> in_u32 a -> a mod 1024 + o < 1024 -> 0 <= a mod 1024 + o -> ram_off s idx a acc = Some off ->
  ram_off s idx (a + o) acc = Some (off + o).
Proof.
  intros Henv Ha Ho Ho' Hoff.
  destruct (ram_off_page s idx a acc off Henv Ha Hoff) as (pa & prot & _ & Ht & Hram & ->).
  pose proof Henv as (Hwf & HM & _).
  assert (Hal : pa mod 1024 = 0).
  { rewrite (get_phys_addr_low _ _ _ _ _ (proj1 (proj2 Hwf)) HM _ _ Ht). apply page_of_aligned. }
  pose proof (tr_byte s idx (page_of a) (a mod 1024 + o) acc pa prot Henv (page_of_u32 a Ha)
    (page_of_aligned a) ltac:(lia) Ht) as Hb.
  replace (page_of a + (a mod 1024 + o)) with (a + o) in Hb by (rewrite page_of_mod; lia).
  unfold ram_off. rewrite Hb.
  assert (desc_at s (pa + (a mod 1024 + o)) = desc_at s pa) as ->.
  { unfold desc_at. rewrite <- (shiftr_page_of (pa + _)), page_of_add by done. done. }
  rewrite Hram. cbn. f_equal. rewrite page_offset_mod, <- Z.add_mod_idemp_l, Hal, Z.add_0_l by lia.
  rewrite Z.mod_small by lia. lia.
Qed.

(** The host address that an entry gives for a byte of a RAM page. *)
Lemma addend_off s idx addr pa :
  env_ok s -> in_u32 addr -> entry_at s idx (tlb_index addr) (page_of addr) pa ->
  page_offset (page_desc (desc_at s pa)) = IO_MEM_RAM ->
  u32 (addr + addend (tlb_table s idx (tlb_index addr))) = page_desc (desc_at s pa) + addr mod 1024.
Proof.
  intros (_ & _ & _ & Hblk & _) Ha (_ & _ & _ & -> & _) Hram.
  destruct (Hblk (Z.shiftr pa TARGET_PAGE_BITS)) as [[Hpd _] _]. fold (desc_at s pa) in Hpd.
  set (pd := page_desc (desc_at s pa)) in *. rewrite (page_of_ram pd Hram).
  rewrite uwrap_add_r by lia. rewrite page_of_mod.
  replace (addr + (pd - (addr - addr mod 1024))) with (pd + addr mod 1024) by lia.
  apply uwrap_small. rewrite page_offset_mod in Hram. by apply in_u32_page.
Qed.

Lemma read_hit_ram s idx addr off :
  env_ok s -> coherent s -> 0 <= idx < 2 -> in_u32 addr ->
  page_of addr = tlb_tag (addr_read (tlb_table s idx (tlb_index addr))) ->
  ram_off s idx addr 0 = Some off ->
  let te := tlb_table s idx (tlb_index addr) in
  ctrue (page_offset (addr_read te)) = false /\ u32 (addr + addend te) = off.
Proof.
  intros Henv Hc Hidx Ha Htag Hoff. cbn zeta.
  destruct (read_hit s idx addr Hc Hidx Htag) as (pa & prot & He & Ht & Hta).
  destruct (ram_off_page s idx addr 0 off Henv Ha Hoff) as (pa' & prot' & _ & Ht' & Hram & ->).
  rewrite Ht in Ht'. injection Ht' as <- <-. split; [|by apply addend_off].
  rewrite Hta. unfold is_io. rewrite Hram. change (IO_MEM_ROM <? IO_MEM_RAM) with false. cbn [andb].
  by rewrite page_offset_mod, page_of_aligned.
Qed.

Lemma in_page addr size :
  addr mod 1024 + Z.of_nat size <= 1024 ->
  (TARGET_PAGE_SIZE <=? page_offset addr + Z.of_nat size - 1) = false.
Proof. intros H. rewrite page_offset_mod. apply Z.leb_gt. unfold TARGET_PAGE_SIZE. lia. Qed.

Lemma ram_off_env s s' idx a acc : same_env s s' -> ram_off s' idx a acc = ram_off s idx a acc.
Proof.
  intros He. unfold ram_off. rewrite (env_tr s s') by done.
  repeat case_match; simplify_eq; try done; rewrite (env_desc s s') in * by done; congruence.
Qed.

Lemma ld_raw_env s s' size off : same_env s s' -> ld_raw size off s' = ld_raw size off s.
Proof. intros (_ & (_ & _ & H) & _). unfold ld_raw. by rewrite H. Qed.

(** A load that stays in a page of RAM, with one fill at most. *)
Lemma slow_ld_page s idx addr off size fuel :
  env_ok s -> coherent s -> 0 <= idx < 2 -> in_u32 addr ->
  addr mod 1024 + Z.of_nat size <= 1024 -> ram_off s idx addr 0 = Some off -> (2 <= fuel)%nat ->
  exists s', slow_ld fuel size false addr idx s = Returns (ld_raw size off s) s' /\ same_env s s' /\ coherent s'.
Proof.
  assert (Hhit : forall s fuel, env_ok s -> coherent s -> 0 <= idx < 2 -> in_u32 addr ->
    addr mod 1024 + Z.of_nat size <= 1024 -> ram_off s idx addr 0 = Some off -> (1 <= fuel)%nat ->
    page_of addr = tlb_tag (addr_read (tlb_table s idx (tlb_index addr))) ->
    slow_ld fuel size false addr idx s = Returns (ld_raw size off s) s).
  { clear s fuel. intros s [|fuel] Henv Hc Hidx Ha Hsz Hoff Hf Htag; [lia|]. cbn [slow_ld ADDR_READ].
    destruct (read_hit_ram s idx addr off Henv Hc Hidx Ha Htag Hoff) as [H1 H2].
    rewrite <- Htag, Z.eqb_refl, H1, in_page, H2 by done. done. }
  intros Henv Hc Hidx Ha Hsz Hoff Hf.
  destruct (decide (page_of addr = tlb_tag (addr_read (tlb_table s idx (tlb_index addr))))) as [Htag|Hmiss].
  - exists s. rewrite Hhit by (done || lia). split; [done|]. split; [apply same_env_refl|done].
  - destruct (ram_off_page s idx addr 0 off Henv Ha Hoff) as (pa & prot & Ht & _).
    destruct (fill_ok s idx addr 0 _ prot Henv Hc Hidx Ha Ht) as (s' & Hfill & He & Hc' & Htag & _).
    exists s'. destruct fuel as [|fuel]; [lia|]. cbn [slow_ld ADDR_READ READ_ACCESS_TYPE].
    rewrite (proj2 (Z.eqb_neq _ _) Hmiss), Hfill. cbn [and_then].
    rewrite Hhit; [by rewrite (ld_raw_env s s')| | | | | | | |]; try done; try lia;
      [by apply (env_env_ok s)|by rewrite (ram_off_env s s')].
Qed.

(** ** Little-endian values *)

Lemma ld_p_bound l : Forall (fun b => in_u8 b) l -> 0 <= ld_p l < 2 ^ (8 * Z.of_nat (length l)).
Proof.
  induction 1 as [|b l Hb Hl IH]; [done|]. cbn [ld_p length].
  replace (8 * Z.of_nat (S (length l))) with (8 * Z.of_nat (length l) + 8) by lia.
  rewrite Z.pow_add_r by lia. rewrite Z.lor_comm, (lor_low 8), Z.shiftl_mul_pow2; try lia.
  rewrite Z.shiftl_mul_pow2 by lia. apply Z.mod_mul. lia.
Qed.

Lemma ld_p_app l1 l2 :
  Forall (fun b => in_u8 b) l1 -> Forall (fun b => in_u8 b) l2 ->
  ld_p (l1 ++ l2) = ld_p l1 + 2 ^ (8 * Z.of_nat (length l1)) * ld_p l2.
Proof.
  intros H1 H2. induction H1 as [|b l Hb Hl IH]; [cbn [app ld_p length]; change (2 ^ (8 * Z.of_nat 0)) with 1; lia|].
  cbn [app ld_p length]. rewrite IH.
  replace (8 * Z.of_nat (S (length l))) with (8 * Z.of_nat (length l) + 8) by lia.
  rewrite Z.pow_add_r by lia. rewrite !(Z.lor_comm b), !(lor_low 8), !Z.shiftl_mul_pow2;
    try lia; rewrite ?Z.shiftl_mul_pow2 by lia; try (apply Z.mod_mul; lia).
Qed.

Lemma ram_load_app r a n m : ram_load r a (n + m) = ram_load r a n ++ ram_load r (a + Z.of_nat n) m.
Proof.
  revert a. induction n as [|n IH]; intros a; cbn [ram_load Nat.add app]; [f_equal; lia|].
  rewrite IH. f_equal. f_equal. f_equal. lia.
Qed.

Lemma ram_load_bytes r a n : (forall a, in_u8 (ram_byte r a)) -> Forall (fun b => in_u8 b) (ram_load r a n).
Proof. intros H. revert a. induction n as [|n IH]; intros a; cbn [ram_load]; constructor; auto. Qed.

(** The two words around an address, shifted together. *)
Lemma join_words r a b (size k : nat) :
  (forall a, in_u8 (ram_byte r a)) -> (k < size)%nat ->
  let n := Z.of_nat size * 8 in let sh := Z.of_nat k * 8 in
  uwrap n (Z.lor (Z.shiftr (ld_p (ram_load r a size)) sh) (Z.shiftl (ld_p (ram_load r b size)) (n - sh))) =
  ld_p (ram_load r (a + Z.of_nat k) (size - k) ++ ram_load r b k).
Proof.
  intros Hr Hk n sh. pose proof (fun x m => ram_load_bytes r x m Hr) as HB.
  replace size with (k + (size - k))%nat at 1 by lia. rewrite ram_load_app, ld_p_app by done.
  replace (ram_load r b size) with (ram_load r b (k + (size - k))) by (f_equal; lia).
  rewrite ram_load_app, ld_p_app by done. rewrite ld_p_app by done. rewrite !length_ram_load.
  pose proof (ld_p_bound _ (HB a k)) as B1. pose proof (ld_p_bound _ (HB b k)) as B2.
  pose proof (ld_p_bound _ (HB (a + Z.of_nat k) (size - k)%nat)) as B3. rewrite !length_ram_load in *.
  set (X := ld_p (ram_load r a k)) in *. set (A := ld_p (ram_load r (a + Z.of_nat k) (size - k))) in *.
  set (B := ld_p (ram_load r b k)) in *. set (Cc := ld_p (ram_load r (b + Z.of_nat k) (size - k))).
  replace (8 * Z.of_nat k) with sh in * by (unfold sh; lia).
  replace (8 * Z.of_nat (size - k)) with (n - sh) in * by (unfold n, sh; lia).
  assert (0 <= sh < n) by (unfold n, sh; lia).
  assert (Z.shiftr (X + 2 ^ sh * A) sh = A) as ->.
  { rewrite Z.shiftr_div_pow2, Z.mul_comm, Z.div_add, Z.div_small by lia. done. }
  rewrite Z.lor_comm, (lor_low (n - sh)); [|lia| |done].
  2:{ rewrite Z.shiftl_mul_pow2 by lia. apply Z.mod_mul. lia. }
  rewrite Z.shiftl_mul_pow2 by lia. unfold uwrap.
  replace ((B + 2 ^ sh * Cc) * 2 ^ (n - sh) + A) with (A + 2 ^ (n - sh) * B + Cc * 2 ^ n).
  2:{ replace (2 ^ n) with (2 ^ sh * 2 ^ (n - sh)); [lia|]. rewrite <- Z.pow_add_r by lia. f_equal. lia. }
  rewrite Z.mod_add by lia. apply Z.mod_small.
  assert (2 ^ n = 2 ^ (n - sh) * 2 ^ sh) as -> by (rewrite <- Z.pow_add_r by lia; f_equal; lia).
  nia.
Qed.

(** ** Loads *)

(** The sizes of the template. *)
Definition data_size (size : nat) : Prop := size = 1%nat \/ size = 2%nat \/ size = 4%nat \/ size = 8%nat.

Lemma low_mod addr size : data_size size -> 0 <= addr ->
  Z.land addr (Z.of_nat size - 1) = addr mod Z.of_nat size /\
  Z.ldiff addr (Z.of_nat size - 1) = addr - addr mod Z.of_nat size.
Proof.
  intros Hs Ha. assert (forall k, 0 <= k -> Z.land addr (2 ^ k - 1) = addr mod 2 ^ k /\
    Z.ldiff addr (2 ^ k - 1) = addr - addr mod 2 ^ k) as H.
  { intros k Hk. replace (2 ^ k - 1) with (Z.ones k) by (rewrite Z.ones_equiv; lia).
    rewrite Z.land_ones, Z.ldiff_ones_r, Z.shiftl_mul_pow2, Z.shiftr_div_pow2 by done.
    pose proof (Z.div_mod addr (2 ^ k)). lia. }
  destruct Hs as [->|[->|[->| ->]]]; [apply (H 0)|apply (H 1)|apply (H 2)|apply (H 3)]; lia.
Qed.

(** An access that leaves its page is not aligned, and its second word is at
    the start of the next page. *)
Lemma crossing addr size :
  data_size size -> 0 <= addr -> 1024 < addr mod 1024 + Z.of_nat size ->
  let k := addr mod Z.of_nat size in
  0 < k < Z.of_nat size /\ addr - k + Z.of_nat size = page_of addr + 1024 /\
  k <= addr mod 1024 /\ Z.of_nat size - k = 1024 - addr mod 1024.
Proof.
  intros Hs Ha Hx. rewrite page_of_mod.
  destruct Hs as [->|[->|[->| ->]]]; cbn -[Z.modulo] in *; Z.to_euclidean_division_equations; lia.
Qed.

Lemma u32_small x : in_u32 x -> u32 x = x.
Proof. intros H. by apply (uwrap_small 32). Qed.

Lemma next_page_aligned x : u32 (page_of x + 1024) mod 1024 = 0 /\ in_u32 (u32 (page_of x + 1024)).
Proof.
  split; [|apply (uwrap_range 32); lia]. unfold uwrap. rewrite Z.mod_mod_divide by (by exists 4194304).
  by rewrite <- Z.add_mod_idemp_l, page_of_aligned by lia.
Qed.

Lemma env_bytes s : env_ok s -> forall a, in_u8 (ram_byte (ram (pmem s)) a).
Proof. by intros (_ & _ & _ & _ & H & _). Qed.

(** The unaligned case of [slow_ld]: the two aligned words. *)
Lemma two_words s idx addr off off2 size fuel :
  env_ok s -> coherent s -> 0 <= idx < 2 -> in_u32 addr -> data_size size ->
  1024 < addr mod 1024 + Z.of_nat size -> ram_off s idx addr 0 = Some off ->
  ram_off s idx (u32 (page_of addr + 1024)) 0 = Some off2 -> (2 <= fuel)%nat ->
  let k := addr mod Z.of_nat size in
  let n := (size - Z.to_nat k)%nat in
  exists s', and_then (slow_ld fuel size false (Z.ldiff addr (Z.of_nat size - 1)) idx s) (fun res1 s =>
        and_then (slow_ld fuel size false (u32 (Z.ldiff addr (Z.of_nat size - 1) + Z.of_nat size)) idx s) (fun res2 s =>
        let shift := Z.land addr (Z.of_nat size - 1) * 8 in
        Returns (uwrap (Z.of_nat size * 8)
          (Z.lor (Z.shiftr res1 shift) (Z.shiftl res2 (Z.of_nat size * 8 - shift)))) s)) =
      Returns (ld_p (ram_load (ram (pmem s)) off n ++ ram_load (ram (pmem s)) off2 (Z.to_nat k))) s' /\
    same_env s s' /\ coherent s'.
Proof.
  intros Henv Hc Hidx Ha Hs Hx Ho1 Ho2 Hf k n. destruct (low_mod addr size Hs ltac:(lia)) as [-> ->].
  destruct (crossing addr size Hs ltac:(lia) Hx) as (Hk & Hnext & Hka & Hks). fold k in Hk, Hnext, Hka, Hks |- *.
  pose proof (Z.mod_pos_bound addr 1024 ltac:(lia)) as Hm.
  pose proof (Z.mod_le addr 1024). assert (H1 : in_u32 (addr - k)) by lia.
  assert (Hm1 : (addr - k) mod 1024 = addr mod 1024 - k).
  { rewrite (page_split addr) at 1. rewrite <- Z.add_sub_assoc, <- Z.add_mod_idemp_l, page_of_aligned, Z.add_0_l by lia.
    apply Z.mod_small. lia. }
  assert (Hoff1 : ram_off s idx (addr - k) 0 = Some (off - k)).
  { rewrite <- Z.add_opp_r. replace (off - k) with (off + - k) by lia. apply ram_off_add; try done; lia. }
  destruct (slow_ld_page s idx (addr - k) (off - k) size fuel) as (s1 & -> & He1 & Hc1); try done; [lia|].
  cbn [and_then]. rewrite Hnext. destruct (next_page_aligned addr) as [Hal Hu].
  assert (Hs8 : Z.of_nat size <= 8) by (destruct Hs as [->|[->|[->| ->]]]; lia).
  destruct (slow_ld_page s1 idx (u32 (page_of addr + 1024)) off2 size fuel) as (s2 & -> & He2 & Hc2); try done;
    [by apply (env_env_ok s)|lia|by rewrite (ram_off_env s s1)|].
  cbn [and_then]. exists s2. split; [|split; [by apply (same_env_trans s s1)|done]].
  rewrite (ld_raw_env s s1) by done. unfold ld_raw. f_equal.
  replace (k * 8) with (Z.of_nat (Z.to_nat k) * 8) by lia.
  rewrite join_words; [|by apply env_bytes|lia]. rewrite Z2Nat.id by lia. f_equal. f_equal. f_equal. lia.
Qed.

(** The bytes that the guest has at an address, through the page tables. *)
Fixpoint guest_bytes (s : mmu_state) (idx addr : Z) (n : nat) : option (list Z) :=
  match n with
  | O => Some []
  | S n =>
      match ram_off s idx (u32 addr) 0, guest_bytes s idx (addr + 1) n with
      | Some off, Some l => Some (ram_byte (ram (pmem s)) off :: l)
      | _, _ => None
      end
  end.

Lemma guest_bytes_split s idx n m addr l :
  guest_bytes s idx addr (n + m) = Some l ->
  exists l1 l2, guest_bytes s idx addr n = Some l1 /\ guest_bytes s idx (addr + Z.of_nat n) m = Some l2 /\ l = l1 ++ l2.
Proof.
  revert addr l. induction n as [|n IH]; intros addr l; cbn [guest_bytes Nat.add].
  { intros H. exists [], l. by rewrite Z.add_0_r. }
  destruct (ram_off s idx (u32 addr) 0) as [off|]; [|done].
  destruct (guest_bytes s idx (addr + 1) (n + m)) as [l'|] eqn:E; [|done]. intros [= <-].
  destruct (IH _ _ E) as (l1 & l2 & -> & H2 & ->). eexists _, l2. split; [reflexivity|].
  replace (addr + Z.of_nat (S n)) with (addr + 1 + Z.of_nat n) by lia. done.
Qed.

Lemma page_below a n : in_u32 a -> a mod 1024 + n <= 1024 -> a + n <= 4294967296.
Proof. intros Ha Hn. pose proof (Z.div_mod a 1024). pose proof (Z.mod_pos_bound a 1024). lia. Qed.

Lemma guest_bytes_page s idx n addr l off :
  env_ok s -> in_u32 addr -> addr mod 1024 + Z.of_nat n <= 1024 -> ram_off s idx addr 0 = Some off ->
  guest_bytes s idx addr n = Some l -> l = ram_load (ram (pmem s)) off n.
Proof.
  intros Henv. revert addr l off. induction n as [|n IH]; intros addr l off Ha Hn Ho; cbn [guest_bytes ram_load].
  { by intros [= <-]. }
  rewrite u32_small, Ho by done. destruct (guest_bytes s idx (addr + 1) n) as [l'|] eqn:E; [|done].
  intros [= <-]. f_equal. destruct n as [|n]; [by injection E as <-|].
  pose proof (page_below addr _ Ha Hn). pose proof (Z.mod_pos_bound addr 1024 ltac:(lia)).
  refine (IH (addr + 1) l' (off + 1) _ _ _ E); [lia| |].
  - rewrite (page_split addr), <- Z.add_assoc, <- Z.add_mod_idemp_l, page_of_aligned, Z.add_0_l, Z.mod_small by lia. lia.
  - apply ram_off_add; try done; lia.
Qed.

Lemma guest_bytes_first s idx addr n l :
  in_u32 addr -> (0 < n)%nat -> guest_bytes s idx addr n = Some l -> exists off, ram_off s idx addr 0 = Some off.
Proof.
  intros Ha Hn. destruct n; [lia|]. cbn [guest_bytes]. rewrite u32_small by done.
  destruct (ram_off _ _ _ _); [eauto|done].
Qed.

Lemma guest_bytes_wrap s idx n addr : guest_bytes s idx (u32 addr) n = guest_bytes s idx addr n.
Proof.
  revert addr. induction n as [|n IH]; intros addr; [done|]. cbn [guest_bytes].
  rewrite uwrap_idem by lia. rewrite <- (IH (u32 addr + 1)), <- (IH (addr + 1)), uwrap_add_l by lia. done.
Qed.

Lemma guest_bytes_env s s' idx n addr : same_env s s' -> guest_bytes s' idx addr n = guest_bytes s idx addr n.
Proof.
  intros He. revert addr. induction n as [|n IH]; intros addr; [done|]. cbn [guest_bytes].
  rewrite IH, (ram_off_env s s') by done. destruct He as (_ & (_ & _ & ->) & _). done.
Qed.

(** What the bytes are when the access crosses into the next page. *)
Lemma guest_bytes_cross s idx addr size l :
  env_ok s -> in_u32 addr -> data_size size -> 1024 < addr mod 1024 + Z.of_nat size ->
  guest_bytes s idx addr size = Some l ->
  let k := Z.to_nat (addr mod Z.of_nat size) in
  exists off off2, ram_off s idx addr 0 = Some off /\ ram_off s idx (u32 (page_of addr + 1024)) 0 = Some off2 /\
    l = ram_load (ram (pmem s)) off (size - k) ++ ram_load (ram (pmem s)) off2 k.
Proof.
  intros Henv Ha Hs Hx Hl k.
  destruct (crossing addr size Hs ltac:(lia) Hx) as (Hk & Hnext & Hka & Hks).
  destruct (guest_bytes_first s idx addr size _ Ha ltac:(lia) Hl) as [off Hoff].
  replace size with ((size - k) + k)%nat in Hl by lia. apply guest_bytes_split in Hl as (l1 & l2 & H1 & H2 & ->).
  replace (addr + Z.of_nat (size - k)) with (page_of addr + 1024) in H2 by lia.
  rewrite <- guest_bytes_wrap in H2. destruct (next_page_aligned addr) as [Hal Hu].
  destruct (guest_bytes_first s idx _ k _ Hu ltac:(lia) H2) as [off2 Hoff2]. exists off, off2. split_and!; try done.
  assert (Hs8 : Z.of_nat size <= 8) by (destruct Hs as [->|[->|[->| ->]]]; lia).
  f_equal; [apply (guest_bytes_page s idx _ addr)|apply (guest_bytes_page s idx _ (u32 (page_of addr + 1024)))]; try done; lia.
Qed.

(** Any load of RAM: both pages may have to be filled. *)
Lemma slow_ld_ok s idx addr size fuel l :
  env_ok s -> coherent s -> 0 <= idx < 2 -> in_u32 addr -> data_size size ->
  guest_bytes s idx addr size = Some l -> (4 <= fuel)%nat ->
  exists s', slow_ld fuel size false addr idx s = Returns (ld_p l) s' /\ same_env s s' /\ coherent s'.
Proof.
  intros Henv Hc Hidx Ha Hs Hl Hf.
  destruct (Z.le_gt_cases (addr mod 1024 + Z.of_nat size) 1024) as [Hin|Hx].
  { destruct (guest_bytes_first s idx addr size _ Ha ltac:(destruct Hs as [->|[->|[->| ->]]]; lia) Hl) as [off Hoff].
    rewrite (guest_bytes_page s idx size addr l off Henv Ha Hin Hoff Hl). apply slow_ld_page; try done; lia. }
  assert (Hhit : forall s fuel, env_ok s -> coherent s -> guest_bytes s idx addr size = Some l -> (3 <= fuel)%nat ->
    page_of addr = tlb_tag (addr_read (tlb_table s idx (tlb_index addr))) ->
    exists s', slow_ld fuel size false addr idx s = Returns (ld_p l) s' /\ same_env s s' /\ coherent s').
  { clear s fuel Henv Hc Hl Hf. intros s [|fuel] Henv Hc Hl Hf Htag; [lia|]. cbn [slow_ld ADDR_READ].
    destruct (guest_bytes_cross s idx addr size l Henv Ha Hs Hx Hl) as (off & off2 & Ho1 & Ho2 & ->).
    destruct (read_hit_ram s idx addr off Henv Hc Hidx Ha Htag Ho1) as [H1 _].
    rewrite <- Htag, Z.eqb_refl, H1. rewrite (proj2 (Z.leb_le _ _))
      by (rewrite page_offset_mod; unfold TARGET_PAGE_SIZE; lia).
    apply two_words; try done; lia. }
  destruct (decide (page_of addr = tlb_tag (addr_read (tlb_table s idx (tlb_index addr))))) as [Htag|Hmiss].
  { apply Hhit; try done; lia. }
  destruct (guest_bytes_first s idx addr size _ Ha ltac:(destruct Hs as [->|[->|[->| ->]]]; lia) Hl) as [off Hoff].
  destruct (ram_off_page s idx addr 0 off Henv Ha Hoff) as (pa & prot & Ht & _).
  destruct (fill_ok s idx addr 0 _ prot Henv Hc Hidx Ha Ht) as (s1 & Hfill & He & Hc' & Htag & _).
  destruct fuel as [|fuel]; [lia|]. cbn [slow_ld ADDR_READ READ_ACCESS_TYPE].
  rewrite (proj2 (Z.eqb_neq _ _) Hmiss), Hfill. cbn [and_then].
  destruct (Hhit s1 fuel) as (s2 & -> & He2 & Hc2); try done; [by apply (env_env_ok s)|by rewrite (guest_bytes_env s s1)|lia|].
  exists s2. split; [done|]. split; [by apply (same_env_trans s s1)|done].
Qed.

Lemma size_pos size : data_size size -> (0 < size)%nat /\ Z.of_nat size <= 8.
Proof. intros [->|[->|[->| ->]]]; lia. Qed.

Lemma ld_mmu_ok s idx addr size fuel l :
  env_ok s -> coherent s -> 0 <= idx < 2 -> in_u32 addr -> data_size size ->
  guest_bytes s idx addr size = Some l -> (6 <= fuel)%nat ->
  exists s', ld_mmu fuel size false addr idx s = Returns (ld_p l) s' /\ same_env s s' /\ coherent s'.
Proof.
  intros Henv Hc Hidx Ha Hs Hl Hf. destruct (size_pos size Hs) as [Hpos H8].
  assert (Hhit : forall s fuel, env_ok s -> coherent s -> guest_bytes s idx addr size = Some l -> (5 <= fuel)%nat ->
    page_of addr = tlb_tag (addr_read (tlb_table s idx (tlb_index addr))) ->
    exists s', ld_mmu fuel size false addr idx s = Returns (ld_p l) s' /\ same_env s s' /\ coherent s').
  { clear s fuel Henv Hc Hl Hf. intros s [|fuel] Henv Hc Hl Hf Htag; [lia|]. cbn [ld_mmu ADDR_READ].
    destruct (guest_bytes_first s idx addr size l Ha Hpos Hl) as [off Hoff].
    destruct (read_hit_ram s idx addr off Henv Hc Hidx Ha Htag Hoff) as [H1 H2].
    rewrite <- Htag, Z.eqb_refl, H1.
    destruct (Z.le_gt_cases (addr mod 1024 + Z.of_nat size) 1024) as [Hin|Hx].
    - rewrite in_page by done. exists s. rewrite H2.
      rewrite (guest_bytes_page s idx size addr l off Henv Ha Hin Hoff Hl). split; [done|].
      split; [apply same_env_refl|done].
    - rewrite (proj2 (Z.leb_le _ _)) by (rewrite page_offset_mod; unfold TARGET_PAGE_SIZE; lia).
      apply slow_ld_ok; try done; lia. }
  destruct (decide (page_of addr = tlb_tag (addr_read (tlb_table s idx (tlb_index addr))))) as [Htag|Hmiss].
  { apply Hhit; try done; lia. }
  destruct (guest_bytes_first s idx addr size l Ha Hpos Hl) as [off Hoff].
  destruct (ram_off_page s idx addr 0 off Henv Ha Hoff) as (pa & prot & Ht & _).
  destruct (fill_ok s idx addr 0 _ prot Henv Hc Hidx Ha Ht) as (s1 & Hfill & He & Hc' & Htag & _).
  destruct fuel as [|fuel]; [lia|]. cbn [ld_mmu ADDR_READ READ_ACCESS_TYPE].
  rewrite (proj2 (Z.eqb_neq _ _) Hmiss), Hfill. cbn [and_then].
  destruct (Hhit s1 fuel) as (s2 & -> & He2 & Hc2); try done;
    [by apply (env_env_ok s)|by rewrite (guest_bytes_env s s1)|lia|].
  exists s2. split; [done|]. split; [by apply (same_env_trans s s1)|done].
Qed.

(** The inline test: a match means a hit, a plain page and an aligned address. *)
Lemma fast_tag_inv size addr ta :
  data_size size -> in_u32 addr -> ta = fast_tag size addr ->
  page_of addr = tlb_tag ta /\
  (ctrue (page_offset ta) = false -> addr mod 1024 + Z.of_nat size <= 1024).
Proof.
  intros Hs Ha ->. unfold fast_tag. destruct (low_mod addr size Hs ltac:(lia)) as [-> _].
  destruct (size_pos size Hs) as [Hp H8]. pose proof (Z.mod_pos_bound addr (Z.of_nat size) ltac:(lia)) as Hm.
  split.
  - rewrite tlb_tag_flags; [done|apply page_of_aligned|lia|]. apply (testbit_bound 3); lia.
  - rewrite (lor_low 10) by (try apply page_of_aligned; lia).
    rewrite page_offset_mod, <- Z.add_mod_idemp_l, page_of_aligned, Z.add_0_l, (Z.mod_small _ 1024) by lia.
    intros H0. apply ctrue_false_iff in H0. clear Hm.
    destruct Hs as [->|[->|[->| ->]]]; cbn -[Z.modulo] in *; Z.to_euclidean_division_equations; lia.
Qed.

Lemma ld_mem_ok s idx addr size fuel l :
  env_ok s -> coherent s -> 0 <= idx < 2 -> in_u32 addr -> data_size size ->
  guest_bytes s idx addr size = Some l -> (6 <= fuel)%nat ->
  exists s', ld_mem fuel size false addr idx s = Returns (ld_p l) s' /\ same_env s s' /\ coherent s'.
Proof.
  intros Henv Hc Hidx Ha Hs Hl Hf. unfold ld_mem. cbn [ADDR_READ].
  destruct (Z.eqb_spec (addr_read (tlb_table s idx (tlb_index addr))) (fast_tag size addr)) as [E|]; cbn [negb];
    [|by apply ld_mmu_ok].
  destruct (fast_tag_inv size addr _ Hs Ha E) as [Htag Hin]. destruct (size_pos size Hs) as [Hpos _].
  destruct (guest_bytes_first s idx addr size l Ha Hpos Hl) as [off Hoff].
  destruct (read_hit_ram s idx addr off Henv Hc Hidx Ha Htag Hoff) as [H1 H2]. rewrite H2.
  exists s. rewrite (guest_bytes_page s idx size addr l off Henv Ha (Hin H1) Hoff Hl).
  split; [done|]. split; [apply same_env_refl|done].
Qed.

(** ** Stores *)

(** [s'] comes from [s] by stores at the RAM offsets [P]. *)
Definition evolve (P : Z -> Prop) (s s' : mmu_state) : Prop :=
  cpu s' = cpu s /\ phys_map (pmem s') = phys_map (pmem s) /\ ram_blocks (pmem s') ≡ₚ ram_blocks (pmem s) /\
  watchpoints s' = watchpoints s /\ dev s' = dev s /\
  (forall a, ~ P a -> ram_byte (ram (pmem s')) a = ram_byte (ram (pmem s)) a) /\
  (forall page i, Z.testbit (dirty_flags (dirt s) page) i = true -> Z.testbit (dirty_flags (dirt s') page) i = true).

(** No store at [P] changes what the page tables say. *)
Definition stable (P : Z -> Prop) (s : mmu_state) : Prop :=
  forall r, (forall a, ~ P a -> ram_byte r a = ram_byte (ram (pmem s)) a) ->
  forall idx va acc,
    get_phys_addr (ldl_phys (mkMem (phys_map (pmem s)) (ram_blocks (pmem s)) r)) (cpu s) va acc (idx =? MMU_USER_IDX) =
    tr s idx va acc.

(** All the dirty flags but the one of translated code. *)
Definition marked (s : mmu_state) (off : Z) : Prop :=
  Z.lor (dirty_flags (dirt s) (Z.shiftr off TARGET_PAGE_BITS)) CODE_DIRTY_FLAG = 0xff.

Lemma evolve_refl P s : evolve P s s.
Proof. by repeat split. Qed.

Lemma evolve_trans P s1 s2 s3 : evolve P s1 s2 -> evolve P s2 s3 -> evolve P s1 s3.
Proof.
  intros (A1 & A2 & A3 & A4 & A5 & A6 & A7) (B1 & B2 & B3 & B4 & B5 & B6 & B7). unfold evolve.
  rewrite B1, B2, B3, B4, B5. split_and!; try done; [|auto]. intros a Ha. by rewrite B6, A6.
Qed.

Lemma evolve_weaken P Q s s' : (forall a, P a -> Q a) -> evolve P s s' -> evolve Q s s'.
Proof. intros H (A1 & A2 & A3 & A4 & A5 & A6 & A7). split_and!; try done. intros a Ha. apply A6. auto. Qed.

Lemma same_evolve P s s' : same_env s s' -> evolve P s s'.
Proof. intros (A1 & (A2 & A3 & A4) & A5 & A6 & A7). unfold evolve. by rewrite A4, A5. Qed.

Lemma ldl_phys_ram m r addr :
  (forall a, ram_byte r a = ram_byte (ram m) a) -> ldl_phys (mkMem (phys_map m) (ram_blocks m) r) addr = ldl_phys m addr.
Proof.
  intros H. unfold ldl_phys, phys_page_find. cbn [phys_map ram]. case_match; [done|]. cbn [ram_load]. by rewrite !H.
Qed.

Lemma evolve_tr P s s' idx va acc : stable P s -> evolve P s s' -> tr s' idx va acc = tr s idx va acc.
Proof.
  intros Hst (A1 & A2 & A3 & A4 & A5 & A6 & A7). rewrite <- (Hst (ram (pmem s')) A6). unfold tr. rewrite A1.
  assert (ldl_phys (pmem s') = ldl_phys (mkMem (phys_map (pmem s)) (ram_blocks (pmem s)) (ram (pmem s')))) as ->; [|done].
  unfold ldl_phys, phys_page_find. cbn [phys_map ram]. by rewrite A2.
Qed.

Lemma flags_ff f f' : in_u8 f' -> (forall i, Z.testbit f i = true -> Z.testbit f' i = true) -> f = 0xff -> f' = 0xff.
Proof.
  intros Hf H ->. apply Z.bits_inj'. intros i Hi. destruct (Z.lt_ge_cases i 8).
  - rewrite H; [|]; change 0xff with (Z.ones 8); rewrite testbit_ones, (proj2 (Z.leb_le _ _)), (proj2 (Z.ltb_lt _ _)) by lia; done.
  - by rewrite (testbit_bound 8 f'), (testbit_bound 8 0xff) by lia.
Qed.

(** The machine of a state that has evolved. *)
Definition good (s : mmu_state) : Prop := env_ok s /\ coherent s.

Lemma evolve_map P s s' : stable P s -> evolve P s s' -> (forall page, in_u8 (dirty_flags (dirt s') page)) -> same_map s s'.
Proof.
  intros Hst He Hf. split; [|split].
  - intros. by apply (evolve_tr P).
  - destruct He as (_ & Hp & _). intros pa. unfold desc_at, phys_page_find. by rewrite Hp.
  - destruct He as (_ & _ & _ & _ & _ & _ & Hd). intros page. apply flags_ff; auto.
Qed.

Lemma stable_evolve P s s' : stable P s -> evolve P s s' -> stable P s'.
Proof.
  intros Hst He r Hr idx va acc. rewrite (evolve_tr P s s') by done. destruct He as (A1 & A2 & A3 & A4 & A5 & A6 & A7).
  rewrite A1, <- (Hst r). 2:{ intros a Ha. by rewrite Hr, A6. }
  unfold ldl_phys, phys_page_find. cbn [phys_map ram]. by rewrite A2.
Qed.

Lemma evolve_env P s s' :
  evolve P s s' -> env_ok s ->
  (forall a, in_u8 (ram_byte (ram (pmem s')) a)) -> (forall page, in_u8 (dirty_flags (dirt s') page)) -> env_ok s'.
Proof.
  intros (A1 & A2 & A3 & A4 & A5 & A6 & A7) (H1 & H2 & H3 & H4 & _) Hb Hf. unfold env_ok, phys_page_find.
  rewrite A1, A2, A4. do 3 (split; [done|]). split; [|done]. intros n. split; [apply H4|]. intros o Ho. rewrite A3. by apply H4.
Qed.

Lemma ram_off_evolve P s s' idx a acc : stable P s -> evolve P s s' -> ram_off s' idx a acc = ram_off s idx a acc.
Proof.
  intros Hst He. unfold ram_off. rewrite (evolve_tr P s s') by done. destruct He as (_ & Hp & _).
  unfold desc_at, phys_page_find. by rewrite Hp.
Qed.

Definition at_off (off : Z) (n : nat) (a : Z) : Prop := off <= a < off + Z.of_nat n.

Lemma ram_store_at r a l x :
  ram_byte (ram_store r a l) x =
    if decide (a <= x < a + Z.of_nat (length l)) then default 0 (l !! Z.to_nat (x - a)) else ram_byte r x.
Proof.
  revert r a. induction l as [|b l IH]; intros r a; cbn [ram_store length].
  { by rewrite decide_False by lia. }
  rewrite IH. destruct (decide (x = a)) as [->|Hne].
  - rewrite decide_False, decide_True, Z.sub_diag by lia. unfold ram_byte. by rewrite lookup_insert_eq.
  - destruct (decide (a + 1 <= x < a + 1 + Z.of_nat (length l))).
    + rewrite decide_True by lia. replace (Z.to_nat (x - a)) with (S (Z.to_nat (x - (a + 1)))) by lia. done.
    + rewrite decide_False by lia. unfold ram_byte. by rewrite lookup_insert_ne.
Qed.

Lemma st_p_lookup size val k : (k < size)%nat -> st_p size val !! k = Some (u8 (Z.shiftr val (8 * Z.of_nat k))).
Proof.
  intros Hk. unfold st_p. rewrite list_lookup_fmap, (lookup_seq_lt 0 size k) by lia. done.
Qed.

Lemma length_st_p size val : length (st_p size val) = size.
Proof. unfold st_p. by rewrite length_map, length_seq. Qed.

(** The bytes of a store. *)
Definition has_bytes (s : mmu_state) (off : Z) (size : nat) (val : Z) : Prop :=
  forall k, (k < size)%nat ->
    ram_byte (ram (pmem s)) (off + Z.of_nat k) = u8 (Z.shiftr val (8 * Z.of_nat k)).

Lemma st_raw_ok size off val s :
  (forall a, in_u8 (ram_byte (ram (pmem s)) a)) ->
  let s' := st_raw size off val s in
  evolve (at_off off size) s s' /\ has_bytes s' off size val /\ (forall a, in_u8 (ram_byte (ram (pmem s')) a)).
Proof.
  intros Hb s'. subst s'. unfold st_raw. split; [|split].
  - unfold evolve. cbn. split_and!; try done. intros a Ha. unfold at_off in Ha.
    rewrite ram_store_at, length_st_p, decide_False by lia. done.
  - intros k Hk. cbn. rewrite ram_store_at, length_st_p, decide_True by lia.
    replace (Z.to_nat (off + Z.of_nat k - off)) with k by lia. by rewrite st_p_lookup.
  - intros a. cbn. rewrite ram_store_at, length_st_p. case_decide; [|apply Hb].
    rewrite st_p_lookup by lia. apply (uwrap_range 8). lia.
Qed.

Lemma dirty_flags_set page v d page' :
  dirty_flags (set_flags page v d) page' = if decide (page' = page) then v else dirty_flags d page'.
Proof.
  unfold dirty_flags, set_flags. cbn. case_decide as H; [subst; by rewrite lookup_insert_eq|].
  by rewrite lookup_insert_ne.
Qed.

Lemma invalidate_flags start len d page :
  (forall p, in_u8 (dirty_flags d p)) ->
  let d' := tb_invalidate_phys_page_fast start len d in
  in_u8 (dirty_flags d' page) /\
  (forall i, Z.testbit (dirty_flags d page) i = true -> Z.testbit (dirty_flags d' page) i = true).
Proof.
  intros Hf. unfold tb_invalidate_phys_page_fast. cbn zeta. destruct (code_gone start); [|split; [apply Hf|done]].
  rewrite dirty_flags_set. case_decide as H; [subst|split; [apply Hf|done]]. split.
  - apply (lor_bound 8); [done|apply Hf|done].
  - intros i Hi. rewrite Z.lor_spec. unfold dirty_flags in *. cbn. by rewrite Hi.
Qed.

Lemma shiftr_page pd o : pd mod 1024 = 0 -> 0 <= o < 1024 ->
  Z.shiftr (pd + o) TARGET_PAGE_BITS = Z.shiftr pd TARGET_PAGE_BITS.
Proof. intros H Ho. rewrite <- (Z.mod_small o 1024) by lia. by apply shiftr_page_add. Qed.

(** The store behind a clean page, apart from its effect on the TLB. *)
Lemma notdirty_ok size off val s :
  (forall a, in_u8 (ram_byte (ram (pmem s)) a)) -> (forall p, in_u8 (dirty_flags (dirt s) p)) ->
  existsb (in_block off) (ram_blocks (pmem s)) = true ->
  exists s1, evolve (at_off off size) s s1 /\ has_bytes s1 off size val /\
    (forall a, in_u8 (ram_byte (ram (pmem s1)) a)) /\ (forall p, in_u8 (dirty_flags (dirt s1) p)) /\
    marked s1 off /\ tlb_table s1 = tlb_table s /\ iotlb s1 = iotlb s /\ mem_io_vaddr s1 = mem_io_vaddr s /\
    notdirty_mem_write size off val s =
      Ok (if dirty_flags (dirt s1) (Z.shiftr off TARGET_PAGE_BITS) =? 0xff then tlb_set_dirty (mem_io_vaddr s1) s1 else s1).
Proof.
  intros Hb Hf Hblk. unfold notdirty_mem_write. cbn zeta. set (page := Z.shiftr off TARGET_PAGE_BITS).
  set (d := if negb _ then _ else dirt s).
  assert (Hd : forall p, in_u8 (dirty_flags d p) /\
    (forall i, Z.testbit (dirty_flags (dirt s) p) i = true -> Z.testbit (dirty_flags d p) i = true)).
  { intros p. unfold d. destruct (negb _); [by apply invalidate_flags|by split]. }
  destruct (get_ram_ptr_ok (pmem s) off Hblk) as (m & -> & Hm1 & Hm2 & Hm3). cbn [rbind].
  set (flags := Z.lor (dirty_flags d page) (Z.ldiff 0xff CODE_DIRTY_FLAG)).
  set (s0 := set_pmem m (set_dirt d s)). set (s1 := set_dirt (set_flags page flags d) (st_raw size off val s0)).
  destruct (st_raw_ok size off val s0) as (He & Hby & Hb1); [cbn; by rewrite Hm3|].
  assert (Hfl : dirty_flags (dirt s1) page = flags) by (cbn; by rewrite dirty_flags_set, decide_True by done).
  exists s1. split_and!; try done.
  - unfold evolve. cbn. destruct He as (_ & _ & _ & _ & _ & Hram & _). cbn in Hram. rewrite Hm3 in Hram.
    split_and!; try done; [by rewrite Hm3|]. intros p i Hi. rewrite dirty_flags_set. case_decide as Hp; [subst p|by apply Hd].
    unfold flags. by rewrite Z.lor_spec, (proj2 (Hd page) i Hi).
  - intros p. cbn. rewrite dirty_flags_set. case_decide; [|apply Hd]. apply (lor_bound 8); [done|apply Hd|done].
  - unfold marked. fold page. rewrite Hfl. unfold flags. rewrite <- Z.lor_assoc.
    change (Z.lor (Z.ldiff 255 CODE_DIRTY_FLAG) CODE_DIRTY_FLAG) with (Z.ones 8).
    apply Z.bits_inj'. intros i Hi. rewrite Z.lor_spec. change 255 with (Z.ones 8). rewrite testbit_ones by done.
    rewrite (proj2 (Z.leb_le _ _) Hi). cbn [andb]. destruct (Z.ltb_spec i 8); [apply orb_true_r|].
    rewrite (testbit_bound 8); [done|apply Hd|done].
  - by rewrite Hfl.
Qed.

(** User and privileged mode, where both may write, write the same page. *)
Lemma tr_modes s idx idx' va acc pa pa' prot prot' :
  tr s idx va acc = Ok (Mapped pa prot) -> tr s idx' va acc = Ok (Mapped pa' prot') -> pa' = pa.
Proof.
  unfold tr. intros H H'. destruct (idx =? MMU_USER_IDX), (idx' =? MMU_USER_IDX); try congruence.
  - destruct (get_phys_addr_contained _ _ _ _ _ _ H) as (p & E & _). congruence.
  - destruct (get_phys_addr_contained _ _ _ _ _ _ H') as (p & E & _). congruence.
Qed.

Lemma all_modes_at i f t idx' i' :
  0 <= idx' < 2 -> all_modes i f t idx' i' = if i' =? i then f (t idx' i') else t idx' i'.
Proof.
  intros H. unfold all_modes, upd_tlb. assert (idx' = 0 \/ idx' = 1) as [->| ->] by lia; cbn [Z.eqb Pos.eqb andb];
    destruct (Z.eqb_spec i' i); done.
Qed.

Lemma in_tlb_idx idx i : in_tlb idx i = true -> 0 <= idx < 2.
Proof. unfold in_tlb, NB_MMU_MODES. rewrite !andb_true_iff, !Z.leb_le, !Z.ltb_lt. lia. Qed.

(** A page that is dirty may be written directly. *)
Lemma set_dirty_coherent s idx vaddr pa prot :
  coherent s -> tr s idx (page_of vaddr) 1 = Ok (Mapped pa prot) ->
  dirty_flags (dirt s) (Z.shiftr (page_desc (desc_at s pa)) TARGET_PAGE_BITS) = 0xff ->
  coherent (tlb_set_dirty vaddr s).
Proof.
  intros Hc Ht Hd idx' i' Hin. destruct (Hc idx' i' Hin) as (Hr & Hw & Hx). unfold tlb_set_dirty.
  set (va := page_of vaddr) in *. set (s' := set_tlb _ s).
  assert (Htb : tlb_table s' idx' i' = if i' =? tlb_index va then tlb_set_dirty1 va (tlb_table s idx' i') else tlb_table s idx' i').
  { cbn [s' set_tlb tlb_table]. apply all_modes_at. by eapply in_tlb_idx. }
  assert (Hm : same_map s s') by (by repeat split).
  destruct (Z.eqb_spec i' (tlb_index va)) as [->|]; [|split_and!; [by apply (read_ok_map s s')|by apply (write_ok_map s s')|unfold code_ok; by rewrite Htb]].
  unfold tlb_set_dirty1 in Htb. destruct (Z.eqb_spec (addr_write (tlb_table s idx' (tlb_index va))) (Z.lor va TLB_NOTDIRTY)) as [E|];
    [|split_and!; [by apply (read_ok_map s s')|by apply (write_ok_map s s')|unfold code_ok; by rewrite Htb]].
  assert (Hva : va mod 1024 = 0) by apply page_of_aligned.
  split; [|split; [|unfold code_ok; rewrite Htb; exact Hx]].
  - unfold read_ok, entry_at in *. rewrite Htb. exact Hr.
  - right. unfold entry_at. rewrite Htb. cbn [addr_write addend]. destruct Hw as [Hw|(v & pa' & He & Ht' & Hk & Hio)].
    { exfalso. rewrite E in Hw. apply (f_equal tlb_tag) in Hw.
      rewrite tlb_tag_flags in Hw by done. by apply (no_addr_tag vaddr). }
    assert (v = va) as ->.
    { pose proof He as (Hv & _). apply (f_equal tlb_tag) in E. rewrite tlb_tag_flags in E by done. rewrite <- E.
      destruct Hk as [[-> _]|[[-> _]|[-> _]]]; symmetry; (by apply tlb_tag_flags) || by apply tlb_tag_page. }
    assert (pa' = pa) as -> by (by eapply tr_modes).
    assert (Hno : Z.lor va TLB_NOTDIRTY <> Z.lor va TLB_MMIO).
    { intros H. apply (f_equal (fun z => Z.testbit z 4)) in H.
      rewrite !Z.lor_spec, (aligned_bit va Hva) in H by lia. done. }
    rewrite E in Hk, Hio. exists va, pa. split; [exact He|]. split; [exact Ht'|]. split; [left|intros H; by apply Hio in H].
    split; [done|]. split; [|exact Hd]. destruct Hk as [(_ & H & _)|[[_ H]|[H _]]]; done.
Qed.

(** The slot and the address behind a clean RAM page. *)
Lemma notdirty_slot pd addr :
  in_u32 pd -> in_u32 addr -> page_offset pd = IO_MEM_RAM ->
  let io := u32 (Z.lor pd IO_MEM_NOTDIRTY - page_of addr) in
  slot_of io = 3 /\ u32 (page_of io + addr) = pd + addr mod 1024.
Proof.
  intros Hpd Ha Hram io. rewrite page_offset_mod in Hram. change IO_MEM_RAM with 0 in Hram.
  set (b := u32 (pd - page_of addr)).
  assert (Hb : b mod 1024 = 0 /\ in_u32 b).
  { split; [|apply (uwrap_range 32); lia]. unfold b, uwrap. rewrite Z.mod_mod_divide by (by exists 4194304).
    rewrite Zminus_mod, Hram, page_of_aligned. done. }
  assert (Hio : io = b + 24).
  { unfold io, b, IO_MEM_NOTDIRTY. rewrite (lor_low 10) by (done || lia).
    replace (pd + 24 - page_of addr) with (pd - page_of addr + 24) by lia. rewrite <- uwrap_add_l by lia. fold b.
    destruct Hb. apply u32_small. pose proof (Z.div_mod b 1024). lia. }
  rewrite Hio. destruct Hb as [Hb Hbu]. split.
  - unfold slot_of. change (IO_MEM_NB_ENTRIES - 1) with (Z.ones 7). unfold IO_MEM_SHIFT.
    rewrite Z.land_ones, Z.shiftr_div_pow2 by lia. change (2 ^ 3) with 8. change (2 ^ 7) with 128.
    Z.to_euclidean_division_equations; lia.
  - rewrite page_of_add by (done || lia). unfold b. rewrite uwrap_add_l, page_of_mod by lia.
    replace (pd - (addr - addr mod 1024) + addr) with (pd + addr mod 1024) by lia.
    apply u32_small. by apply in_u32_page.
Qed.

Lemma has_bytes_ram s s' off size val :
  ram (pmem s') = ram (pmem s) -> has_bytes s off size val -> has_bytes s' off size val.
Proof. intros H Hb k Hk. by rewrite H, Hb. Qed.

(** A store to a clean page, with the TLB made right again. *)
Lemma clean_store s idx size pa prot off o val :
  good s -> stable (at_off off size) s ->
  tr s idx (page_of (mem_io_vaddr s)) 1 = Ok (Mapped pa prot) ->
  page_offset (page_desc (desc_at s pa)) = IO_MEM_RAM -> off = page_desc (desc_at s pa) + o ->
  0 <= o < 1024 ->
  exists s', notdirty_mem_write size off val s = Ok s' /\ evolve (at_off off size) s s' /\ good s' /\
    has_bytes s' off size val /\ marked s' off /\ mem_io_vaddr s' = mem_io_vaddr s.
Proof.
  intros [Henv Hc] Hst Ht Hram Hoff Ho. pose proof Henv as (_ & _ & _ & Hblk & Hb & Hf).
  set (P := at_off off size) in *.
  destruct (Hblk (Z.shiftr pa TARGET_PAGE_BITS)) as [[Hpd _] Hbl]. fold (desc_at s pa) in Hpd, Hbl.
  rewrite page_of_ram in Hbl by done.
  destruct (notdirty_ok size off val s Hb Hf) as (s1 & He & Hby & Hb1 & Hf1 & Hmk & Htb & Hio & Hmv & ->);
    [rewrite Hoff; by apply Hbl|].
  assert (Hm : same_map s s1) by (by apply (evolve_map P)).
  assert (Henv1 : env_ok s1) by (by apply (evolve_env P s s1)).
  assert (Hc1 : coherent s1) by (by apply (coherent_map s s1)).
  destruct (Z.eqb_spec (dirty_flags (dirt s1) (Z.shiftr off TARGET_PAGE_BITS)) 0xff) as [Hff|];
    [|by exists s1].
  exists (tlb_set_dirty (mem_io_vaddr s1) s1). split; [done|]. split; [exact He|]. split; [split|].
  - exact Henv1.
  - destruct Hm as (Htr & Hds & _). rewrite <- Hmv in Ht.
    apply (set_dirty_coherent s1 idx (mem_io_vaddr s1) pa prot); [done|by rewrite Htr|].
    rewrite Hds. rewrite page_offset_mod in Hram. rewrite <- (shiftr_page _ o Hram Ho), <- Hoff. exact Hff.
  - split_and!; [exact Hby|exact Hmk|exact Hmv].
Qed.

Lemma stable_weaken (P Q : Z -> Prop) s : (forall a, P a -> Q a) -> stable Q s -> stable P s.
Proof. intros H Hst r Hr. apply Hst. intros a Ha. apply Hr. auto. Qed.

(** What a store of [size] bytes at the offset [off] leaves. *)
Definition wrote (P : Z -> Prop) (s s' : mmu_state) (off : Z) (size : nat) (val : Z) : Prop :=
  evolve P s s' /\ good s' /\ has_bytes s' off size val /\ marked s' off.

Lemma good_io_vaddr a s : good s -> good (set_io_vaddr a s).
Proof. done. Qed.

Lemma has_bytes_join s off val :
  has_bytes s off 4 (u32 val) -> has_bytes s (off + 4) 4 (Z.shiftr val 32) -> has_bytes s off 8 val.
Proof.
  intros H1 H2 k Hk. destruct (decide (k < 4)%nat) as [Hlt|Hge].
  - rewrite H1 by done. apply Z.bits_inj'. intros i Hi. rewrite !testbit_uwrap by lia.
    destruct (Z.ltb_spec i 8); [|done]. cbn [andb]. rewrite !Z.shiftr_spec, testbit_uwrap by lia.
    by rewrite (proj2 (Z.ltb_lt _ _)) by lia.
  - replace (off + Z.of_nat k) with (off + 4 + Z.of_nat (k - 4)) by lia. rewrite H2 by lia.
    rewrite Z.shiftr_shiftr by lia. f_equal. f_equal. lia.
Qed.

Lemma has_bytes_evolve Q s s' off size val :
  evolve Q s s' -> (forall a, at_off off size a -> ~ Q a) -> has_bytes s off size val -> has_bytes s' off size val.
Proof.
  intros (_ & _ & _ & _ & _ & Hr & _) HQ Hb k Hk. rewrite Hr, Hb by (done || (apply HQ; unfold at_off; lia)). done.
Qed.

Lemma marked_evolve P s s' off : env_ok s' -> evolve P s s' -> marked s off -> marked s' off.
Proof.
  intros (_ & _ & _ & _ & _ & Hf) (_ & _ & _ & _ & _ & _ & Hd) Hm. unfold marked in *.
  refine (flags_ff _ _ _ _ Hm).
  - apply (lor_bound 8); [done|apply Hf|done].
  - intros i. rewrite !Z.lor_spec, !orb_true_iff. intros [H|H]; [left; by apply Hd|by right].
Qed.

Lemma io_store P s idx size addr pa prot val :
  good s -> stable P s -> 0 <= idx < 2 -> in_u32 addr -> data_size size ->
  addr mod 1024 + Z.of_nat size <= 1024 ->
  entry_at s idx (tlb_index addr) (page_of addr) pa ->
  tr s idx (page_of addr) 1 = Ok (Mapped pa prot) ->
  page_offset (page_desc (desc_at s pa)) = IO_MEM_RAM ->
  let off := page_desc (desc_at s pa) + addr mod 1024 in
  (forall a, at_off off size a -> P a) ->
  exists s', io_write size (iotlb s idx (tlb_index addr)) val addr s = Returns tt s' /\ wrote P s s' off size val.
Proof.
  intros Hg Hst Hidx Ha Hs Hin (_ & _ & _ & _ & Hio) Ht Hram off HP.
  pose proof Hg as [(_ & _ & _ & Hblk & _) _]. destruct (Hblk (Z.shiftr pa TARGET_PAGE_BITS)) as [[Hpd _] _].
  fold (desc_at s pa) in Hpd. pose proof (Z.mod_pos_bound addr 1024 ltac:(lia)) as Hm.
  unfold io_write. rewrite Hio. unfold io_base. rewrite Hram.
  change (IO_MEM_RAM <=? IO_MEM_ROM) with true. change (IO_MEM_RAM =? IO_MEM_RAM) with true. cbn match.
  rewrite page_of_ram by done. destruct (notdirty_slot _ addr Hpd Ha Hram) as [-> ->]. fold off.
  assert (Hsl : forall n a v x, slot_write 3 n a v x = notdirty_mem_write n a v x) by done.
  pose proof (good_io_vaddr addr s Hg) as Hg0. set (s0 := set_io_vaddr addr s) in *.
  destruct Hs as [->|[->|[->| ->]]]; cbn [Nat.leb].
  4:{ rewrite Hsl. assert (HP1 : forall a, at_off off 4 a -> P a) by (intros a Hat; apply HP; unfold at_off in *; lia).
      assert (HP2 : forall a, at_off (off + 4) 4 a -> P a) by (intros a Hat; apply HP; unfold at_off in *; lia).
      destruct (clean_store s0 idx 4 pa prot off (addr mod 1024) (u32 val) Hg0 (stable_weaken _ P _ HP1 Hst) Ht
        Hram eq_refl Hm) as (s1 & -> & E1 & G1 & B1 & M1 & V1).
      cbn [rbind]. rewrite Hsl. rewrite (u32_small (off + 4))
        by (rewrite page_offset_mod in Hram; pose proof (in_u32_page _ (addr mod 1024 + 4) Hram Hpd) as H4;
            rewrite (Z.mod_small (addr mod 1024 + 4)) in H4 by lia; unfold off; lia).
      pose proof (evolve_weaken _ P _ _ HP1 E1) as E1'.
      destruct (evolve_map P s0 s1 Hst E1' (proj2 (proj2 (proj2 (proj2 (proj2 (proj1 G1))))))) as (Tr & Ds & _).
      destruct (clean_store s1 idx 4 pa prot (off + 4) (addr mod 1024 + 4) (Z.shiftr val 32) G1)
        as (s2 & -> & E2 & G2 & B2 & M2 & V2).
      { exact (stable_weaken _ P _ HP2 (stable_evolve P s0 s1 Hst E1')). }
      { rewrite V1, Tr. exact Ht. }
      { rewrite Ds. exact Hram. }
      { rewrite Ds. change (desc_at s0 pa) with (desc_at s pa). unfold off. lia. }
      { lia. }
      cbn [rbind of_res]. exists s2. pose proof (evolve_weaken _ P _ _ HP2 E2) as E2'. split; [done|].
      split; [by apply (evolve_trans P s s1)|]. split; [done|]. split; [|apply (marked_evolve P s1); try done; apply G2].
      apply has_bytes_join; [|done]. apply (has_bytes_evolve (at_off (off + 4) 4) s1 s2); try done.
      unfold at_off. intros a H1 H2. lia. }
  all: destruct (clean_store s0 idx _ pa prot off (addr mod 1024) val Hg0 (stable_weaken _ P _ HP Hst) Ht Hram eq_refl Hm)
    as (s1 & E & E1 & G1 & B1 & M1 & V1); rewrite Hsl, E; cbn [rbind of_res]; exists s1; split; [done|];
    split; [by apply (evolve_weaken _ P) in E1|done].
Qed.

Lemma ctrue_notdirty va : va mod 1024 = 0 -> ctrue (page_offset (Z.lor va TLB_NOTDIRTY)) = true.
Proof.
  intros H. rewrite page_offset_mod, (lor_low 10) by (done || (unfold TLB_NOTDIRTY; lia)).
  by rewrite <- Z.add_mod_idemp_l, H by lia.
Qed.

Lemma plain_store s idx addr pa prot off size val :
  good s -> stable (at_off off size) s -> tr s idx (page_of addr) 1 = Ok (Mapped pa prot) ->
  page_offset (page_desc (desc_at s pa)) = IO_MEM_RAM -> off = page_desc (desc_at s pa) + addr mod 1024 ->
  dirty_flags (dirt s) (Z.shiftr (page_desc (desc_at s pa)) TARGET_PAGE_BITS) = 0xff ->
  wrote (at_off off size) s (st_raw size off val s) off size val.
Proof.
  intros [Henv Hc] Hst Ht Hram Hoff Hd. pose proof Henv as (_ & _ & _ & _ & Hb & Hf).
  destruct (st_raw_ok size off val s Hb) as (He & Hby & Hb1).
  split; [exact He|]. split; [split|split; [exact Hby|]].
  - exact (evolve_env _ s _ He Henv Hb1 Hf).
  - exact (coherent_map s _ (evolve_map _ s _ Hst He Hf) eq_refl eq_refl Hc).
  - unfold marked. change (dirt (st_raw size off val s)) with (dirt s). rewrite Hoff.
    rewrite page_offset_mod in Hram. rewrite shiftr_page, Hd; [done|done|apply Z.mod_pos_bound; lia].
Qed.

(** A hit for writing in a RAM page. *)
Lemma write_hit_ram s idx addr off size val :
  good s -> 0 <= idx < 2 -> in_u32 addr ->
  page_of addr = tlb_tag (addr_write (tlb_table s idx (tlb_index addr))) ->
  ram_off s idx addr 1 = Some off ->
  let te := tlb_table s idx (tlb_index addr) in
  ctrue (page_offset (addr_write te)) = false /\ u32 (addr + addend te) = off /\
    (stable (at_off off size) s -> wrote (at_off off size) s (st_raw size off val s) off size val) \/
  ctrue (page_offset (addr_write te)) = true /\
    (stable (at_off off size) s -> data_size size -> addr mod 1024 + Z.of_nat size <= 1024 ->
     exists s', io_write size (iotlb s idx (tlb_index addr)) val addr s = Returns tt s' /\
       wrote (at_off off size) s s' off size val).
Proof.
  intros Hg Hidx Ha Htag Hoff te. subst te. pose proof Hg as [Henv Hc].
  destruct (write_hit s idx addr Hc Hidx Htag) as (pa & He & Ht & Hk & _).
  destruct (ram_off_page s idx addr 1 off Henv Ha Hoff) as (pa' & prot' & _ & Ht' & Hram & ->).
  rewrite Ht in Ht'. injection Ht' as <- <-.
  destruct Hk as [(Hta & _ & Hd)|[[Hta _]|[_ Hn]]]; [left|right|by destruct Hn].
  - rewrite Hta. split; [by rewrite page_offset_mod, page_of_aligned|]. split; [by apply addend_off|].
    intros Hst. apply (plain_store s idx addr pa _ _ size val Hg Hst Ht Hram eq_refl Hd).
  - rewrite Hta. split; [apply ctrue_notdirty, page_of_aligned|]. intros Hst Hs Hin.
    exact (io_store _ s idx size addr pa _ val Hg Hst Hidx Ha Hs Hin He Ht Hram (fun a H => H)).
Qed.

(** After a fill the page may be written. *)
Lemma fill_write s idx addr off :
  good s -> 0 <= idx < 2 -> in_u32 addr -> ram_off s idx addr 1 = Some off ->
  exists s', tlb_fill addr 1 idx s = Returns tt s' /\ same_env s s' /\ good s' /\
    ram_off s' idx addr 1 = Some off /\
    page_of addr = tlb_tag (addr_write (tlb_table s' idx (tlb_index addr))).
Proof.
  intros [Henv Hc] Hidx Ha Hoff. destruct (ram_off_page s idx addr 1 off Henv Ha Hoff) as (pa & prot & Ht & _).
  destruct (fill_ok s idx addr 1 _ prot Henv Hc Hidx Ha Ht) as (s1 & Hfill & He & Hc' & _ & Htag & _).
  exists s1. split; [exact Hfill|]. split; [exact He|]. split; [split; [by apply (env_env_ok s)|exact Hc']|].
  split; [by rewrite (ram_off_env s s1)|by apply Htag].
Qed.

Lemma wrote_env Q s s1 s' off size val : same_env s s1 -> wrote Q s1 s' off size val -> wrote Q s s' off size val.
Proof. intros He (H1 & H2). split; [|exact H2]. exact (evolve_trans _ _ _ _ (same_evolve _ _ _ He) H1). Qed.

Lemma stable_env Q s s1 : same_env s s1 -> stable Q s -> stable Q s1.
Proof. intros He Hst. exact (stable_evolve Q s s1 Hst (same_evolve _ _ _ He)). Qed.

(** One byte: the unit of the unaligned stores. *)
Lemma slow_stb_ok s idx addr off val fuel :
  good s -> 0 <= idx < 2 -> in_u32 addr -> ram_off s idx addr 1 = Some off -> stable (at_off off 1) s ->
  (2 <= fuel)%nat ->
  exists s', slow_st fuel 1 addr val idx s = Returns tt s' /\ wrote (at_off off 1) s s' off 1 val.
Proof.
  assert (Hpg : addr mod 1024 + Z.of_nat 1 <= 1024) by (pose proof (Z.mod_pos_bound addr 1024); lia).
  assert (Hhit : forall s fuel, good s -> 0 <= idx < 2 -> in_u32 addr -> ram_off s idx addr 1 = Some off ->
    stable (at_off off 1) s -> (1 <= fuel)%nat ->
    page_of addr = tlb_tag (addr_write (tlb_table s idx (tlb_index addr))) ->
    exists s', slow_st fuel 1 addr val idx s = Returns tt s' /\ wrote (at_off off 1) s s' off 1 val).
  { clear s fuel. intros s [|fuel] Hg Hidx Ha Hoff Hst Hf Htag; [lia|]. cbn [slow_st].
    rewrite <- Htag, Z.eqb_refl. change (Z.of_nat 1 - 1) with 0. rewrite Z.land_0_r. change (ctrue 0) with false.
    destruct (write_hit_ram s idx addr off 1 val Hg Hidx Ha Htag Hoff) as [(-> & -> & Hw)|(-> & Hw)].
    - rewrite (in_page addr 1 Hpg). exists (st_raw 1 off val s). split; [done|]. exact (Hw Hst).
    - exact (Hw Hst (or_introl eq_refl) Hpg). }
  intros Hg Hidx Ha Hoff Hst Hf.
  destruct (decide (page_of addr = tlb_tag (addr_write (tlb_table s idx (tlb_index addr))))) as [Htag|Hmiss].
  - apply Hhit; try assumption. lia.
  - destruct (fill_write s idx addr off Hg Hidx Ha Hoff) as (s1 & Hfill & He & Hg1 & Hoff1 & Htag).
    destruct fuel as [|fuel]; [lia|]. cbn [slow_st]. rewrite (proj2 (Z.eqb_neq _ _) Hmiss), Hfill. cbn [and_then].
    destruct (Hhit s1 fuel Hg1 Hidx Ha Hoff1 (stable_env _ _ _ He Hst) ltac:(lia) Htag) as (s' & -> & Hw).
    exists s'. split; [done|]. exact (wrote_env _ _ _ _ _ _ _ He Hw).
Qed.

(** Where the bytes of a store go, and that they are there. *)
Definition store_offs (s : mmu_state) (idx addr : Z) (size : nat) (offs : nat -> Z) : Prop :=
  forall k, (k < size)%nat -> ram_off s idx (u32 (addr + Z.of_nat k)) 1 = Some (offs k).

Definition at_offs (offs : nat -> Z) (n : nat) (a : Z) : Prop := exists k, (k < n)%nat /\ a = offs k.

Definition stored (offs : nat -> Z) (n : nat) (val : Z) (s s' : mmu_state) : Prop :=
  evolve (at_offs offs n) s s' /\ good s' /\
  forall k, (k < n)%nat ->
    ram_byte (ram (pmem s')) (offs k) = u8 (Z.shiftr val (8 * Z.of_nat k)) /\ marked s' (offs k).

Lemma ram_off_mod s idx a acc off : env_ok s -> in_u32 a -> ram_off s idx a acc = Some off -> off mod 1024 = a mod 1024.
Proof.
  intros Henv Ha Ho. destruct (ram_off_page s idx a acc off Henv Ha Ho) as (pa & prot & _ & _ & Hram & ->).
  rewrite page_offset_mod in Hram. by apply mod_page_add.
Qed.

Lemma store_offs_inj s idx addr size offs :
  env_ok s -> data_size size -> store_offs s idx addr size offs ->
  forall j k, (j < size)%nat -> (k < size)%nat -> offs j = offs k -> j = k.
Proof.
  intros Henv Hs Ho j k Hj Hk E. destruct (size_pos size Hs) as [_ H8].
  pose proof (uwrap_range 32 (addr + Z.of_nat j) ltac:(lia)) as Rj.
  pose proof (uwrap_range 32 (addr + Z.of_nat k) ltac:(lia)) as Rk.
  pose proof (ram_off_mod s idx _ _ _ Henv Rj (Ho j Hj)) as Mj.
  pose proof (ram_off_mod s idx _ _ _ Henv Rk (Ho k Hk)) as Mk.
  rewrite E, Mk in Mj. unfold uwrap in Mj. rewrite !Z.mod_mod_divide in Mj by (by exists 4194304).
  revert Mj. Z.to_euclidean_division_equations. lia.
Qed.

Lemma store_offs_evolve P s s' idx addr size offs :
  stable P s -> evolve P s s' -> store_offs s idx addr size offs -> store_offs s' idx addr size offs.
Proof. intros Hst He Ho k Hk. rewrite (ram_off_evolve P s s') by assumption. by apply Ho. Qed.

Lemma at_offs_mono offs n m a : (n <= m)%nat -> at_offs offs n a -> at_offs offs m a.
Proof. intros H (k & Hk & ->). exists k. split; [lia|done]. Qed.

Lemma st_bytes_ok idx addr val offs size fuel n s :
  good s -> 0 <= idx < 2 -> data_size size -> stable (at_offs offs size) s -> store_offs s idx addr size offs ->
  (n <= size)%nat -> (2 <= fuel)%nat ->
  exists s', st_bytes (fun a v s => slow_st fuel 1 a v idx s) addr val n s = Returns tt s' /\
    stored offs n val s s'.
Proof.
  revert s. induction n as [|n IH]; intros s Hg Hidx Hs Hst Ho Hn Hf; cbn [st_bytes].
  { exists s. split; [done|]. split; [apply evolve_refl|]. split; [done|]. intros k Hk. lia. }
  assert (HQ : forall a, at_off (offs n) 1 a -> at_offs offs size a).
  { intros a Ha. exists n. split; [lia|]. unfold at_off in Ha. lia. }
  destruct (slow_stb_ok s idx (u32 (addr + Z.of_nat n)) (offs n) (u8 (Z.shiftr val (8 * Z.of_nat n))) fuel Hg Hidx
    ltac:(apply (uwrap_range 32); lia) (Ho n ltac:(lia)) (stable_weaken _ _ s HQ Hst) Hf)
    as (s1 & -> & E1 & G1 & B1 & M1). cbn [and_then].
  pose proof (evolve_weaken _ _ _ _ HQ E1) as E1'.
  destruct (IH s1 G1 Hidx Hs (stable_evolve _ _ _ Hst E1') (store_offs_evolve _ _ _ _ _ _ _ Hst E1' Ho) ltac:(lia) Hf)
    as (s2 & -> & E2 & G2 & B2). exists s2. split; [done|]. split; [|split; [exact G2|]].
  - apply (evolve_trans _ s s1 s2).
    + apply (evolve_weaken (at_off (offs n) 1)); [|exact E1]. intros a Ha. exists n. split; [lia|]. unfold at_off in Ha. lia.
    + apply (evolve_weaken (at_offs offs n)); [|exact E2]. intros a. apply at_offs_mono. lia.
  - intros k Hk. destruct (decide (k = n)) as [->|Hne]; [|apply B2; lia].
    split; [|exact (marked_evolve _ s1 s2 _ (proj1 G2) E2 M1)].
    destruct E2 as (_ & _ & _ & _ & _ & Hr & _). rewrite Hr.
    + specialize (B1 0%nat ltac:(lia)). rewrite Z.add_0_r in B1. rewrite B1, Z.shiftr_0_r. apply uwrap_idem. lia.
    + intros (j & Hj & E). pose proof (store_offs_inj s idx addr size offs (proj1 Hg) Hs Ho n j ltac:(lia) ltac:(lia) E). lia.
Qed.

(** A store in one piece, seen as bytes. *)
Lemma store_offs_page s idx addr size offs k :
  env_ok s -> in_u32 addr -> addr mod 1024 + Z.of_nat size <= 1024 -> store_offs s idx addr size offs ->
  (k < size)%nat -> offs k = offs 0%nat + Z.of_nat k.
Proof.
  intros Henv Ha Hin Ho Hk. pose proof (Ho 0%nat ltac:(lia)) as H0. rewrite Z.add_0_r, u32_small in H0 by done.
  pose proof (Ho k Hk) as H1. pose proof (page_below addr _ Ha Hin). rewrite u32_small in H1 by lia.
  pose proof (Z.mod_pos_bound addr 1024).
  rewrite (ram_off_add s idx addr (Z.of_nat k) 1 (offs 0%nat)) in H1 by (done || lia). congruence.
Qed.

Lemma wrote_stored s s' idx addr size offs val :
  env_ok s -> in_u32 addr -> addr mod 1024 + Z.of_nat size <= 1024 -> store_offs s idx addr size offs ->
  wrote (at_off (offs 0%nat) size) s s' (offs 0%nat) size val -> stored offs size val s s'.
Proof.
  intros Henv Ha Hin Ho (E & G & B & M).
  pose proof (fun k => store_offs_page s idx addr size offs k Henv Ha Hin Ho) as Hk. split; [|split; [exact G|]].
  - apply (evolve_weaken (at_off (offs 0%nat) size)); [|exact E]. intros a Hat. unfold at_off in Hat.
    exists (Z.to_nat (a - offs 0%nat)). split; [lia|]. rewrite Hk by lia. lia.
  - intros k Hlt. rewrite (Hk k Hlt). split; [by apply B|]. unfold marked in *.
    pose proof (Ho 0%nat ltac:(lia)) as H0. rewrite Z.add_0_r, u32_small in H0 by done.
    destruct (ram_off_page s idx addr 1 _ Henv Ha H0) as (pa & prot & _ & _ & Hram & E0).
    rewrite page_offset_mod in Hram. pose proof (Z.mod_pos_bound addr 1024).
    rewrite E0 in M |- *. rewrite <- Z.add_assoc, shiftr_page by (done || lia). rewrite shiftr_page in M by (done || lia). exact M.
Qed.

(** Aligned accesses stay in their page. *)
Lemma aligned_in_page addr size :
  data_size size -> 0 <= addr -> ctrue (Z.land addr (Z.of_nat size - 1)) = false ->
  addr mod 1024 + Z.of_nat size <= 1024.
Proof.
  intros Hs Ha H. destruct (low_mod addr size Hs Ha) as [E _]. rewrite E in H. apply ctrue_false_iff in H.
  destruct (Z.le_gt_cases (addr mod 1024 + Z.of_nat size) 1024) as [|Hx]; [done|].
  destruct (crossing addr size Hs Ha Hx) as (Hk & _). lia.
Qed.

(** The first byte of a store and the sets of its bytes. *)
Lemma first_off s idx addr size offs :
  in_u32 addr -> data_size size -> store_offs s idx addr size offs -> ram_off s idx addr 1 = Some (offs 0%nat).
Proof.
  intros Ha Hs Ho. destruct (size_pos size Hs) as [Hp _]. specialize (Ho 0%nat Hp).
  by rewrite Z.add_0_r, u32_small in Ho by done.
Qed.

Lemma page_offs s idx addr size offs :
  env_ok s -> in_u32 addr -> addr mod 1024 + Z.of_nat size <= 1024 -> store_offs s idx addr size offs ->
  forall a, at_off (offs 0%nat) size a -> at_offs offs size a.
Proof.
  intros Henv Ha Hin Ho a Hat. unfold at_off in Hat. exists (Z.to_nat (a - offs 0%nat)). split; [lia|].
  rewrite (store_offs_page s idx addr size offs _ Henv Ha Hin Ho) by lia. lia.
Qed.

(** The body of a store on a hit: [slow] is what it does for an access that
    is not aligned in a clean page or leaves its page. *)
Lemma store_hit s idx addr size offs val slow :
  good s -> 0 <= idx < 2 -> in_u32 addr -> data_size size -> store_offs s idx addr size offs ->
  stable (at_offs offs size) s ->
  page_of addr = tlb_tag (addr_write (tlb_table s idx (tlb_index addr))) ->
  (exists s', slow = Returns tt s' /\ stored offs size val s s') ->
  let te := tlb_table s idx (tlb_index addr) in
  exists s',
    (if ctrue (page_offset (addr_write te)) then
       if ctrue (Z.land addr (Z.of_nat size - 1)) then slow
       else io_write size (iotlb s idx (tlb_index addr)) val addr s
     else if TARGET_PAGE_SIZE <=? page_offset addr + Z.of_nat size - 1 then slow
     else Returns tt (st_raw size (u32 (addr + addend te)) val s)) = Returns tt s' /\ stored offs size val s s'.
Proof.
  intros Hg Hidx Ha Hs Ho Hst Htag Hslow te. pose proof (first_off s idx addr size offs Ha Hs Ho) as H0.
  pose proof (fun Hin => stable_weaken _ _ s (page_offs s idx addr size offs (proj1 Hg) Ha Hin Ho) Hst) as Hst0.
  destruct (write_hit_ram s idx addr (offs 0%nat) size val Hg Hidx Ha Htag H0) as [(H1 & H2 & Hw)|(H1 & Hw)];
    fold te in H1, Hw; rewrite H1.
  - fold te in H2. rewrite H2, page_offset_mod. destruct (Z.leb_spec TARGET_PAGE_SIZE (addr mod 1024 + Z.of_nat size - 1)) as [|Hlt];
      [exact Hslow|]. unfold TARGET_PAGE_SIZE in Hlt. assert (Hin : addr mod 1024 + Z.of_nat size <= 1024) by lia.
    exists (st_raw size (offs 0%nat) val s). split; [done|].
    exact (wrote_stored s _ idx addr size offs val (proj1 Hg) Ha Hin Ho (Hw (Hst0 Hin))).
  - destruct (ctrue (Z.land addr (Z.of_nat size - 1))) eqn:Hal; [exact Hslow|].
    pose proof (aligned_in_page addr size Hs ltac:(lia) Hal) as Hin.
    destruct (Hw (Hst0 Hin) Hs Hin) as (s' & E & Hwr). exists s'. split; [exact E|].
    exact (wrote_stored s _ idx addr size offs val (proj1 Hg) Ha Hin Ho Hwr).
Qed.

Lemma stored_env offs n val s s1 s' : same_env s s1 -> stored offs n val s1 s' -> stored offs n val s s'.
Proof. intros He (H1 & H2). split; [|exact H2]. exact (evolve_trans _ _ _ _ (same_evolve _ _ _ He) H1). Qed.

Lemma store_offs_env s s1 idx addr size offs :
  same_env s s1 -> store_offs s idx addr size offs -> store_offs s1 idx addr size offs.
Proof. intros He Ho k Hk. rewrite (ram_off_env s s1) by assumption. by apply Ho. Qed.

Lemma slow_st_ok s idx addr size offs val fuel :
  good s -> 0 <= idx < 2 -> in_u32 addr -> data_size size -> store_offs s idx addr size offs ->
  stable (at_offs offs size) s -> (4 <= fuel)%nat ->
  exists s', slow_st fuel size addr val idx s = Returns tt s' /\ stored offs size val s s'.
Proof.
  intros Hg Hidx Ha Hs Ho Hst Hf.
  assert (Hhit : forall s fuel, good s -> store_offs s idx addr size offs -> stable (at_offs offs size) s -> (3 <= fuel)%nat ->
    page_of addr = tlb_tag (addr_write (tlb_table s idx (tlb_index addr))) ->
    exists s', slow_st fuel size addr val idx s = Returns tt s' /\ stored offs size val s s').
  { clear s fuel Hg Ho Hst Hf. intros s [|fuel] Hg Ho Hst Hf Htag; [lia|]. cbn [slow_st].
    rewrite <- Htag, Z.eqb_refl. apply store_hit; try assumption. apply (st_bytes_ok idx addr val offs size); try assumption; lia. }
  destruct (decide (page_of addr = tlb_tag (addr_write (tlb_table s idx (tlb_index addr))))) as [Htag|Hmiss].
  { apply Hhit; try assumption. lia. }
  destruct (fill_write s idx addr _ Hg Hidx Ha (first_off s idx addr size offs Ha Hs Ho)) as (s1 & Hfill & He & Hg1 & _ & Htag).
  destruct fuel as [|fuel]; [lia|]. cbn [slow_st]. rewrite (proj2 (Z.eqb_neq _ _) Hmiss), Hfill. cbn [and_then].
  destruct (Hhit s1 fuel Hg1 (store_offs_env _ _ _ _ _ _ He Ho) (stable_env _ _ _ He Hst) ltac:(lia) Htag) as (s' & -> & Hw).
  exists s'. split; [done|]. exact (stored_env _ _ _ _ _ _ He Hw).
Qed.

Lemma st_mmu_ok s idx addr size offs val fuel :
  good s -> 0 <= idx < 2 -> in_u32 addr -> data_size size -> store_offs s idx addr size offs ->
  stable (at_offs offs size) s -> (6 <= fuel)%nat ->
  exists s', st_mmu fuel size addr val idx s = Returns tt s' /\ stored offs size val s s'.
Proof.
  intros Hg Hidx Ha Hs Ho Hst Hf.
  assert (Hhit : forall s fuel, good s -> store_offs s idx addr size offs -> stable (at_offs offs size) s -> (5 <= fuel)%nat ->
    page_of addr = tlb_tag (addr_write (tlb_table s idx (tlb_index addr))) ->
    exists s', st_mmu fuel size addr val idx s = Returns tt s' /\ stored offs size val s s').
  { clear s fuel Hg Ho Hst Hf. intros s [|fuel] Hg Ho Hst Hf Htag; [lia|]. cbn [st_mmu].
    rewrite <- Htag, Z.eqb_refl. apply store_hit; try assumption. apply slow_st_ok; try assumption; lia. }
  destruct (decide (page_of addr = tlb_tag (addr_write (tlb_table s idx (tlb_index addr))))) as [Htag|Hmiss].
  { apply Hhit; try assumption. lia. }
  destruct (fill_write s idx addr _ Hg Hidx Ha (first_off s idx addr size offs Ha Hs Ho)) as (s1 & Hfill & He & Hg1 & _ & Htag).
  destruct fuel as [|fuel]; [lia|]. cbn [st_mmu]. rewrite (proj2 (Z.eqb_neq _ _) Hmiss), Hfill. cbn [and_then].
  destruct (Hhit s1 fuel Hg1 (store_offs_env _ _ _ _ _ _ He Ho) (stable_env _ _ _ He Hst) ltac:(lia) Htag) as (s' & -> & Hw).
  exists s'. split; [done|]. exact (stored_env _ _ _ _ _ _ He Hw).
Qed.

Lemma st_mem_ok s idx addr size offs val fuel :
  good s -> 0 <= idx < 2 -> in_u32 addr -> data_size size -> store_offs s idx addr size offs ->
  stable (at_offs offs size) s -> (6 <= fuel)%nat ->
  exists s', st_mem fuel size addr val idx s = Returns tt s' /\ stored offs size val s s'.
Proof.
  intros Hg Hidx Ha Hs Ho Hst Hf. unfold st_mem.
  destruct (Z.eqb_spec (addr_write (tlb_table s idx (tlb_index addr))) (fast_tag size addr)) as [E|]; cbn [negb];
    [|by apply st_mmu_ok].
  destruct (fast_tag_inv size addr _ Hs Ha E) as [Htag Hin]. pose proof (first_off s idx addr size offs Ha Hs Ho) as H0.
  destruct (write_hit_ram s idx addr (offs 0%nat) size val Hg Hidx Ha Htag H0) as [(H1 & -> & Hw)|(H1 & _)].
  - specialize (Hin H1). exists (st_raw size (offs 0%nat) val s). split; [done|].
    apply (wrote_stored s _ idx addr size offs val (proj1 Hg) Ha Hin Ho), Hw.
    exact (stable_weaken _ _ s (page_offs s idx addr size offs (proj1 Hg) Ha Hin Ho) Hst).
  - exfalso. destruct (write_hit s idx addr (proj2 Hg) Hidx Htag) as (pa & _ & _ & Hk & _).
    assert (Hbit : forall i, (i = 4 \/ i = 5) -> Z.testbit (fast_tag size addr) i = false).
    { intros i Hi. unfold fast_tag. rewrite Z.lor_spec, (aligned_bit _ (page_of_aligned addr)) by lia.
      destruct (low_mod addr size Hs ltac:(lia)) as [-> _]. destruct (size_pos size Hs) as [Hp H8].
      pose proof (Z.mod_pos_bound addr (Z.of_nat size) ltac:(lia)). apply (testbit_bound 3); lia. }
    destruct Hk as [[Hta _]|[[Hta _]|[Hta _]]].
    + rewrite Hta, page_offset_mod, page_of_aligned in H1. done.
    + rewrite E in Hta. pose proof (Hbit 4 ltac:(lia)) as Hb. rewrite Hta, Z.lor_spec, orb_true_r in Hb. done.
    + rewrite E in Hta. pose proof (Hbit 5 ltac:(lia)) as Hb. rewrite Hta, Z.lor_spec, orb_true_r in Hb. done.
Qed.

(** ** Flushing, and cleaning pages *)

Lemma flush_coherent s : coherent (tlb_flush s).
Proof using Type.
  intros idx i Hin. split_and!; [left|left|]; unfold code_ok, tlb_flush; cbn [set_tlb tlb_table]; by rewrite Hin.
Qed.

(** An entry that is as it was, or cleared. *)
Lemma cleared_coherent s t :
  coherent s ->
  (forall idx i, in_tlb idx i = true -> t idx i = tlb_table s idx i \/ t idx i = clear_entry (tlb_table s idx i)) ->
  coherent (set_tlb t s).
Proof.
  intros Hc Ht idx i Hin. destruct (Hc idx i Hin) as (Hr & Hw & Hx).
  assert (Hm : same_map s (set_tlb t s)) by (by repeat split). destruct (Ht idx i Hin) as [E|E].
  - split_and!; [by apply (read_ok_map s)|by apply (write_ok_map s)|unfold code_ok; cbn [set_tlb tlb_table]; by rewrite E].
  - unfold read_ok, write_ok, code_ok. cbn [set_tlb tlb_table]. rewrite E. split_and!; [by left|by left|done].
Qed.

Lemma flush_page_coherent addr s : coherent s -> coherent (tlb_flush_page addr s).
Proof.
  intros Hc. apply cleared_coherent; [done|]. intros idx i Hin.
  rewrite all_modes_at by (by eapply in_tlb_idx). destruct (_ =? _); [|by left].
  unfold tlb_flush_entry. destruct (_ || _); [by right|by left].
Qed.

Lemma mask_flags_at page n flags d p :
  dirty_flags (mask_flags page n flags d) p =
    if decide (page <= p < page + Z.of_nat n) then Z.ldiff (dirty_flags d p) flags else dirty_flags d p.
Proof.
  revert page d. induction n as [|n IH]; intros page d; cbn [mask_flags].
  { by rewrite decide_False by lia. }
  rewrite IH, dirty_flags_set. repeat case_decide; subst; try done; lia.
Qed.

Lemma reset_range_fields start len te :
  let te' := tlb_reset_dirty_range start len te in
  addr_read te' = addr_read te /\ addend te' = addend te /\ addr_code te' = addr_code te /\
  (page_offset (addr_write te) <> IO_MEM_RAM -> addr_write te' = addr_write te).
Proof.
  unfold tlb_reset_dirty_range. cbn zeta. destruct (Z.eqb_spec (page_offset (addr_write te)) IO_MEM_RAM); [|done].
  destruct (_ <? _); done.
Qed.

Lemma ldiff_u8 x y : in_u8 x -> in_u8 (Z.ldiff x y).
Proof.
  intros H. apply (bits_bound 8); [done|]. intros i Hi. by rewrite Z.ldiff_spec, (testbit_bound 8 x) by done.
Qed.

Lemma flag_offset va f : va mod 1024 = 0 -> 0 < f < 1024 -> page_offset (Z.lor va f) <> IO_MEM_RAM.
Proof.
  intros Hv Hf. rewrite page_offset_mod, (lor_low 10) by (done || lia).
  rewrite <- Z.add_mod_idemp_l, Hv, Z.add_0_l, Z.mod_small by lia. unfold IO_MEM_RAM. lia.
Qed.

(** One entry when the pages from [start] on, [len] bytes, are cleaned. *)
Lemma reset_write_ok s s' idx i start n :
  env_ok s -> (forall idx va acc, tr s' idx va acc = tr s idx va acc) -> (forall pa, desc_at s' pa = desc_at s pa) ->
  iotlb s' = iotlb s -> start mod 1024 = 0 -> 0 <= start ->
  tlb_table s' idx i = tlb_reset_dirty_range start (1024 * Z.of_nat n) (tlb_table s idx i) ->
  (forall p, ~ (start / 1024 <= p < start / 1024 + Z.of_nat n) -> dirty_flags (dirt s') p = dirty_flags (dirt s) p) ->
  write_ok s idx i -> write_ok s' idx i.
Proof.
  intros Henv Ht Hd Hio Hal H0 Htb Hfl. destruct (reset_range_fields start (1024 * Z.of_nat n) (tlb_table s idx i)) as (_ & Ha & _ & Hk).
  rewrite <- Htb in Ha, Hk. intros [H|(va & pa & He & Htr & Hw & Hi)].
  { left. rewrite Hk; [done|]. by rewrite H. }
  right. exists va, pa. unfold entry_at in *. rewrite Hd, Ht, Ha, Hio. split; [exact He|]. split; [exact Htr|].
  destruct He as (Hva & Hvu & Hix & Hadd & _). cbn zeta. set (pd := page_desc (desc_at s pa)) in *.
  destruct Hw as [(Hta & Hram & Hff)|Hw].
  2:{ rewrite Hk; [split; [by right|done]|]. destruct Hw as [[-> _]|[-> _]]; by apply flag_offset. }
  pose proof Henv as (_ & _ & _ & Hblk & _). destruct (Hblk (Z.shiftr pa TARGET_PAGE_BITS)) as [[Hpd _] _].
  fold (desc_at s pa) pd in Hpd. rewrite Htb. unfold tlb_reset_dirty_range. rewrite Hta.
  rewrite (page_offset_mod va), Hva. change (0 =? IO_MEM_RAM) with true. cbn match.
  rewrite page_of_mod, Hva, Z.sub_0_r, Hadd. rewrite (page_of_ram pd Hram), uwrap_add_r by lia.
  replace (va + (pd - va)) with pd by lia. rewrite (u32_small pd Hpd).
  assert (Hio' : is_io pd = false) by (unfold is_io; by rewrite Hram).
  destruct (Z.ltb_spec (u32 (pd - start)) (1024 * Z.of_nat n)); cbn [addr_write]; split; try (rewrite Hio'; done).
  - right. left. done.
  - left. rewrite Hta. split; [done|]. split; [done|]. rewrite Hfl; [done|]. intros Hin.
    rewrite Z.shiftr_div_pow2 in Hin by (unfold TARGET_PAGE_BITS; lia). change (2 ^ TARGET_PAGE_BITS) with 1024 in Hin.
    rewrite page_offset_mod in Hram. change IO_MEM_RAM with 0 in Hram.
    pose proof (Z.div_mod pd 1024 ltac:(lia)). pose proof (Z.div_mod start 1024 ltac:(lia)).
    rewrite u32_small in *; lia.
Qed.

Lemma find_block_perm a bs bs' : find_block a bs = Some bs' -> bs' ≡ₚ bs.
Proof.
  revert bs'. induction bs as [|b rest IH]; intros bs'; cbn [find_block]; [done|].
  destruct (in_block a b); [by intros [= <-]|]. destruct rest as [|b' rest']; [done|].
  destruct (in_block a b'); [intros [= <-]; constructor|].
  destruct (find_block a (b' :: rest')) as [bs1|] eqn:E; [|done]. intros [= <-]. by rewrite (IH bs1).
Qed.

Lemma get_ram_ptr_like m a m' : qemu_get_ram_ptr m a = Ok m' -> mem_like m (ram m) m'.
Proof.
  unfold qemu_get_ram_ptr. destruct (find_block a (ram_blocks m)) as [bs|] eqn:E; [|done]. intros [= <-].
  split_and!; try done. cbn. by apply (find_block_perm a).
Qed.

(** The pages of a range that is made of whole pages. *)
Lemma range_pages start end_ :
  0 <= start <= end_ -> end_ + 1023 < 4294967296 ->
  let st := page_of start in let en := page_of (end_ + 1024 - 1) in
  exists n, st mod 1024 = 0 /\ 0 <= st <= start /\ start < st + 1024 /\ end_ <= en < 4294967296 /\
    en - st = 1024 * Z.of_nat n /\ Z.to_nat (Z.shiftr (en - st) TARGET_PAGE_BITS) = n.
Proof.
  intros Hse Hend st en. exists (Z.to_nat (Z.shiftr (en - st) TARGET_PAGE_BITS)).
  pose proof (page_of_aligned start) as H1. fold st in H1. pose proof (page_of_aligned (end_ + 1024 - 1)) as H2. fold en in H2.
  rewrite Z.shiftr_div_pow2 by (unfold TARGET_PAGE_BITS; lia). change (2 ^ TARGET_PAGE_BITS) with 1024.
  assert (st <= start < st + 1024 /\ 0 <= st) as Hs.
  { unfold st. rewrite page_of_mod. pose proof (Z.mod_pos_bound start 1024). pose proof (Z.mod_le start 1024). lia. }
  assert (end_ <= en <= end_ + 1023) as He.
  { unfold en. rewrite page_of_mod. pose proof (Z.mod_pos_bound (end_ + 1024 - 1) 1024). lia. }
  split_and!; try done; try lia. clearbody st en. Z.to_euclidean_division_equations; lia.
Qed.

Lemma reset_dirty_ok start end_ flags s s' :
  good s -> 0 <= start <= end_ -> end_ + 1023 < 4294967296 ->
  physical_memory_reset_dirty start end_ flags s = Ok s' ->
  good s' /\ cpu s' = cpu s /\ ram (pmem s') = ram (pmem s) /\
  (forall a, start <= a < end_ ->
     dirty_flags (dirt s') (a / 1024) = Z.ldiff (dirty_flags (dirt s) (a / 1024)) flags).
Proof.
  intros [Henv Hc] Hse Hend. unfold physical_memory_reset_dirty. cbn zeta. unfold TARGET_PAGE_SIZE.
  rewrite (u32_small (end_ + 1024 - 1)) by lia.
  destruct (range_pages start end_ Hse Hend) as (n & Hal & Hst & Hst2 & Hen & Hn & Hn').
  set (st := page_of start) in *. set (en := page_of (end_ + 1024 - 1)) in *.
  rewrite (u32_small (en - st)) by lia. destruct (Z.eqb_spec (en - st) 0) as [E0|Hne].
  { intros [= <-]. split; [done|]. split_and!; try done. intros a Ha. lia. }
  destruct (qemu_get_ram_ptr _ st) as [m1| |] eqn:E1; cbn [rbind]; try done.
  destruct (qemu_get_ram_ptr m1 _) as [m2| |] eqn:E2; cbn [rbind]; try done.
  destruct (negb _); [done|]. intros [= <-]. set (s' := set_tlb _ _).
  apply get_ram_ptr_like in E1. apply get_ram_ptr_like in E2. cbn [set_dirt pmem] in E1.
  assert (Hs2 : same_env s (set_pmem m2 s)).
  { split_and!; try done. cbn. destruct E1 as (A1 & A2 & A3), E2 as (B1 & B2 & B3). unfold mem_like.
    by rewrite B1, B2, B3, A1, A2, A3. }
  assert (Hfl : forall p, dirty_flags (dirt s') p =
    if decide (st / 1024 <= p < st / 1024 + Z.of_nat n) then Z.ldiff (dirty_flags (dirt s) p) flags else dirty_flags (dirt s) p).
  { intros p. cbn [s' set_tlb set_pmem set_dirt dirt]. rewrite mask_flags_at, Hn'.
    rewrite Z.shiftr_div_pow2 by (unfold TARGET_PAGE_BITS; lia). done. }
  split; [split|].
  - pose proof (env_env_ok _ _ Hs2 Henv) as (H1 & H2 & H3 & H4 & H5 & H6).
    refine (conj H1 (conj H2 (conj H3 (conj H4 (conj H5 _))))). intros p. rewrite Hfl. case_decide; [apply ldiff_u8|]; apply H6.
  - intros idx i Hin. destruct (Hc idx i Hin) as (Hr & Hw & Hx).
    assert (Htb : tlb_table s' idx i = tlb_reset_dirty_range st (1024 * Z.of_nat n) (tlb_table s idx i)).
    { cbn [s' set_tlb tlb_table]. rewrite Hin, Hn. done. }
    destruct (reset_range_fields st (1024 * Z.of_nat n) (tlb_table s idx i)) as (F1 & F2 & F3 & _). rewrite <- Htb in F1, F2, F3.
    split; [|split; [|unfold code_ok; rewrite F3, F1; exact Hx]].
    + apply (read_ok_map s (set_pmem m2 s) idx i (env_map _ _ Hs2) eq_refl eq_refl) in Hr.
      unfold read_ok, entry_at in *. rewrite F1, F2. exact Hr.
    + apply (reset_write_ok s s' idx i st n); try done; try lia.
      * intros. exact (env_tr s _ _ _ _ Hs2).
      * intros. exact (env_desc s _ _ Hs2).
      * intros p Hp. rewrite Hfl. by rewrite decide_False.
  - split; [done|]. split; [destruct Hs2 as (_ & (_ & _ & H) & _); exact H|]. intros a Ha. rewrite Hfl, decide_True; [done|].
    clear - Ha Hal Hst Hst2 Hen Hn. Z.to_euclidean_division_equations; lia.
Qed.

(** ** Every load ends *)

Definition ends {A} (r : run A) : Prop := r <> Loops /\ forall a s, r = Returns a s -> good s.

Lemma ends_returns {A} (a : A) s : good s -> ends (Returns a s).
Proof. intros H. split; [done|]. by intros ? ? [= <- <-]. Qed.

Lemma ends_then {A B} (r : run A) (f : A -> mmu_state -> run B) :
  ends r -> (forall a s, good s -> ends (f a s)) -> ends (and_then r f).
Proof.
  intros [H1 H2] Hf. destruct r as [a s| | |]; cbn [and_then]; [|by split|by split|done]. apply Hf. by apply (H2 a).
Qed.

Lemma slot_read_good index size physaddr s v s' :
  good s -> slot_read index size physaddr s = Ok (v, s') -> good s'.
Proof.
  intros Hg. unfold slot_read. destruct (_ || _); [done|]. destruct (_ =? _); [by intros [= <- <-]|].
  destruct (io_mem_read index size physaddr (dev s)) as [[x w]| |]; cbn; [|done|done]. intros [= <- <-]. exact Hg.
Qed.

Lemma io_read_ends size physaddr addr s : good s -> ends (io_read size physaddr addr s).
Proof.
  intros Hg. assert (Hg0 : good (set_io_vaddr addr s)) by exact Hg. unfold io_read. cbn zeta.
  destruct (size <=? 4)%nat.
  - destruct (slot_read _ _ _ _) as [[v s1]| |] eqn:E; cbn [of_res]; try (by split).
    apply ends_returns. exact (slot_read_good _ _ _ _ _ _ Hg0 E).
  - destruct (slot_read _ _ _ _) as [[v s1]| |] eqn:E; cbn [rbind of_res]; try (by split).
    destruct (slot_read _ _ _ s1) as [[v2 s2]| |] eqn:E2; cbn [rbind of_res]; try (by split).
    apply ends_returns. exact (slot_read_good _ _ _ _ _ _ (slot_read_good _ _ _ _ _ _ Hg0 E) E2).
Qed.

(** A miss ends in a fault, or in a state where the page is present. *)
Lemma fill_read s idx addr code :
  good s -> 0 <= idx < 2 -> in_u32 addr ->
  (exists s', tlb_fill addr (READ_ACCESS_TYPE code) idx s = Raised s') \/
  exists s', tlb_fill addr (READ_ACCESS_TYPE code) idx s = Returns tt s' /\ good s' /\
    page_of addr = tlb_tag (addr_read (tlb_table s' idx (tlb_index addr))).
Proof.
  intros [Henv Hc] Hidx Ha. pose proof Henv as (_ & HM & _).
  destruct (get_phys_addr_ok (ldl_phys (pmem s)) (cpu s) addr (READ_ACCESS_TYPE code) (idx =? MMU_USER_IDX) Ha HM) as ([pa prot|fsr] & E & _).
  - right. destruct (fill_ok s idx addr (READ_ACCESS_TYPE code) pa prot Henv Hc Hidx Ha E) as (s' & Hf & He & Hc' & Htag & _).
    exists s'. split; [done|]. split; [split; [by apply (env_env_ok s)|done]|done].
  - left. destruct (fill_fault s idx addr (READ_ACCESS_TYPE code) fsr Henv Ha E) as (e & _ & Hf). eauto.
Qed.

(** Loads and fetches look at the same tag. *)
Lemma code_read s idx addr code : good s -> 0 <= idx < 2 ->
  ADDR_READ code (tlb_table s idx (tlb_index addr)) = addr_read (tlb_table s idx (tlb_index addr)).
Proof. intros [_ Hc] Hidx. destruct (Hc idx (tlb_index addr) (in_tlb_index idx addr Hidx)) as (_ & _ & Hx). by destruct code. Qed.

(** The body of a load on a hit; [slow] is its unaligned case. *)
Lemma load_hit_ends s idx addr size slow :
  good s -> ends slow ->
  let te := tlb_table s idx (tlb_index addr) in
  ends (if ctrue (page_offset (addr_read te)) then
          if ctrue (Z.land addr (Z.of_nat size - 1)) then slow
          else io_read size (iotlb s idx (tlb_index addr)) addr s
        else if TARGET_PAGE_SIZE <=? page_offset addr + Z.of_nat size - 1 then slow
        else Returns (ld_raw size (u32 (addr + addend te)) s) s).
Proof.
  intros Hg Hs te. destruct (ctrue (page_offset _)).
  - destruct (ctrue (Z.land _ _)); [done|by apply io_read_ends].
  - destruct (_ <=? _); [done|by apply ends_returns].
Qed.

(** [slow_ld] at an aligned address, then at any address. *)
Lemma slow_ld_aligned_ends s idx addr size code fuel :
  good s -> 0 <= idx < 2 -> in_u32 addr -> data_size size ->
  ctrue (Z.land addr (Z.of_nat size - 1)) = false -> (2 <= fuel)%nat -> ends (slow_ld fuel size code addr idx s).
Proof.
  intros Hg Hidx Ha Hs Hal Hf. pose proof (in_page addr size (aligned_in_page addr size Hs ltac:(lia) Hal)) as Hin.
  assert (Hhit : forall s fuel, good s -> (1 <= fuel)%nat ->
    page_of addr = tlb_tag (addr_read (tlb_table s idx (tlb_index addr))) -> ends (slow_ld fuel size code addr idx s)).
  { clear s fuel Hg Hf. intros s [|fuel] Hg Hf Htag; [lia|]. cbn [slow_ld]. rewrite (code_read s idx addr code Hg Hidx), <- Htag, Z.eqb_refl, Hal, Hin.
    destruct (ctrue (page_offset _)); [by apply io_read_ends|by apply ends_returns]. }
  destruct (decide (page_of addr = tlb_tag (addr_read (tlb_table s idx (tlb_index addr))))) as [Htag|Hmiss].
  { apply Hhit; [done|lia|done]. }
  destruct fuel as [|fuel]; [lia|]. cbn [slow_ld]. rewrite (code_read s idx addr code Hg Hidx), (proj2 (Z.eqb_neq _ _) Hmiss).
  destruct (fill_read s idx addr code Hg Hidx Ha) as [(s' & ->)|(s' & -> & Hg' & Htag)]; cbn [and_then]; [by split|].
  apply Hhit; [done|lia|done].
Qed.

Lemma aligned_down addr size : data_size size -> 0 <= addr ->
  ctrue (Z.land (Z.ldiff addr (Z.of_nat size - 1)) (Z.of_nat size - 1)) = false /\
  0 <= Z.ldiff addr (Z.of_nat size - 1) <= addr /\
  ctrue (Z.land (u32 (Z.ldiff addr (Z.of_nat size - 1) + Z.of_nat size)) (Z.of_nat size - 1)) = false.
Proof.
  intros Hs Ha. destruct (low_mod addr size Hs Ha) as [_ E]. destruct (size_pos size Hs) as [Hp H8].
  pose proof (Z.mod_pos_bound addr (Z.of_nat size) ltac:(lia)) as Hm. pose proof (Z.mod_le addr (Z.of_nat size) ltac:(lia) ltac:(lia)).
  assert (H1 : 0 <= Z.ldiff addr (Z.of_nat size - 1) <= addr) by lia.
  pose proof (uwrap_range 32 (Z.ldiff addr (Z.of_nat size - 1) + Z.of_nat size) ltac:(lia)) as Hu.
  split; [|split; [done|]].
  - rewrite (proj1 (low_mod _ size Hs (proj1 H1))), E. apply ctrue_false_iff.
    rewrite Zminus_mod, Z.mod_mod, Z.sub_diag by lia. done.
  - rewrite (proj1 (low_mod _ size Hs (proj1 Hu))), E. apply ctrue_false_iff. unfold uwrap.
    rewrite Z.mod_mod_divide by (destruct Hs as [->|[->|[->| ->]]];
      [by exists 4294967296|by exists 2147483648|by exists 1073741824|by exists 536870912]).
    replace (addr - addr mod Z.of_nat size + Z.of_nat size) with (addr - addr mod Z.of_nat size + 1 * Z.of_nat size) by lia.
    rewrite Z.mod_add, Zminus_mod, Z.mod_mod, Z.sub_diag by lia. done.
Qed.

Lemma slow_ld_ends s idx addr size code fuel :
  good s -> 0 <= idx < 2 -> in_u32 addr -> data_size size -> (4 <= fuel)%nat -> ends (slow_ld fuel size code addr idx s).
Proof.
  intros Hg Hidx Ha Hs Hf. destruct (aligned_down addr size Hs ltac:(lia)) as (A1 & R1 & A2).
  assert (Hhit : forall s fuel, good s -> (3 <= fuel)%nat ->
    page_of addr = tlb_tag (addr_read (tlb_table s idx (tlb_index addr))) -> ends (slow_ld fuel size code addr idx s)).
  { clear s fuel Hg Hf. intros s [|fuel] Hg Hf Htag; [lia|]. cbn [slow_ld]. rewrite (code_read s idx addr code Hg Hidx), <- Htag, Z.eqb_refl.
    apply load_hit_ends; [done|].
    apply ends_then; [apply slow_ld_aligned_ends; try done; lia|]. intros r1 s1 Hg1.
    apply ends_then; [apply slow_ld_aligned_ends; try done; [apply (uwrap_range 32); lia|lia]|].
    intros r2 s2 Hg2. by apply ends_returns. }
  destruct (decide (page_of addr = tlb_tag (addr_read (tlb_table s idx (tlb_index addr))))) as [Htag|Hmiss].
  { apply Hhit; [done|lia|done]. }
  destruct fuel as [|fuel]; [lia|]. cbn [slow_ld]. rewrite (code_read s idx addr code Hg Hidx), (proj2 (Z.eqb_neq _ _) Hmiss).
  destruct (fill_read s idx addr code Hg Hidx Ha) as [(s' & ->)|(s' & -> & Hg' & Htag)]; cbn [and_then]; [by split|].
  apply Hhit; [done|lia|done].
Qed.

Lemma ld_mmu_ends s idx addr size code fuel :
  good s -> 0 <= idx < 2 -> in_u32 addr -> data_size size -> (6 <= fuel)%nat -> ends (ld_mmu fuel size code addr idx s).
Proof.
  intros Hg Hidx Ha Hs Hf.
  assert (Hhit : forall s fuel, good s -> (5 <= fuel)%nat ->
    page_of addr = tlb_tag (addr_read (tlb_table s idx (tlb_index addr))) -> ends (ld_mmu fuel size code addr idx s)).
  { clear s fuel Hg Hf. intros s [|fuel] Hg Hf Htag; [lia|]. cbn [ld_mmu]. rewrite (code_read s idx addr code Hg Hidx), <- Htag, Z.eqb_refl.
    apply load_hit_ends; [done|]. apply slow_ld_ends; try done; lia. }
  destruct (decide (page_of addr = tlb_tag (addr_read (tlb_table s idx (tlb_index addr))))) as [Htag|Hmiss].
  { apply Hhit; [done|lia|done]. }
  destruct fuel as [|fuel]; [lia|]. cbn [ld_mmu]. rewrite (code_read s idx addr code Hg Hidx), (proj2 (Z.eqb_neq _ _) Hmiss).
  destruct (fill_read s idx addr code Hg Hidx Ha) as [(s' & ->)|(s' & -> & Hg' & Htag)]; cbn [and_then]; [by split|].
  apply Hhit; [done|lia|done].
Qed.

(** ** Devices behind an address *)

(** [addr] is backed by the registers at [region + offset] of a slot. *)
Definition io_at (s : mmu_state) (idx addr acc : Z) (d : PhysPageDesc) : Prop :=
  (exists pa prot, tr s idx addr acc = Ok (Mapped pa prot) /\ desc_at s pa = Some d) /\
  is_io (phys_offset d) = true /\ region_offset d mod 1024 = 0 /\ in_u32 (region_offset d).

Definition io_slot (d : PhysPageDesc) : Z := slot_of (phys_offset d).
Definition io_addr (d : PhysPageDesc) (addr : Z) : Z := u32 (region_offset d + addr mod 1024).

(** The slots that are no device. *)
Definition device_slot (i : Z) : Prop := i <> 1 /\ i <> 2 /\ i <> 3.

Lemma io_at_page s idx addr acc d :
  env_ok s -> in_u32 addr -> io_at s idx addr acc d ->
  exists pa prot, tr s idx addr acc = Ok (Mapped (pa + addr mod 1024) prot) /\
    tr s idx (page_of addr) acc = Ok (Mapped pa prot) /\ desc_at s pa = Some d.
Proof.
  intros Henv Ha ((pa & prot & Ht & Hd) & _).
  destruct (tr_page s idx addr acc pa prot Henv Ha Ht) as [Htp Hpa]. exists (page_of pa), prot.
  split_and!; [by rewrite <- Hpa|done|]. unfold desc_at in *. by rewrite shiftr_page_of.
Qed.

Lemma slot_of_add b x : b mod 1024 = 0 -> slot_of (b + x mod 1024) = slot_of x.
Proof.
  intros Hb. unfold slot_of. change (IO_MEM_NB_ENTRIES - 1) with (Z.ones 7). unfold IO_MEM_SHIFT.
  rewrite !Z.land_ones, !Z.shiftr_div_pow2 by lia. change (2 ^ 3) with 8. change (2 ^ 7) with 128.
  pose proof (Z.div_mod b 1024 ltac:(lia)) as Eb. rewrite Hb in Eb.
  pose proof (Z.div_mod x 1024 ltac:(lia)) as Ex.
  replace (b + x mod 1024) with (b / 1024 * 128 * 8 + x mod 1024) by lia. rewrite Z.div_add_l by lia.
  rewrite Ex at 2. replace (1024 * (x / 1024) + x mod 1024) with (x / 1024 * 128 * 8 + x mod 1024) by lia.
  rewrite Z.div_add_l by lia. rewrite !(Z.add_comm _ (x mod 1024 / 8)), !Z.mod_add by lia. done.
Qed.

Lemma device_iotlb s idx addr pa d :
  in_u32 addr -> entry_at s idx (tlb_index addr) (page_of addr) pa -> desc_at s pa = Some d ->
  is_io (phys_offset d) = true -> region_offset d mod 1024 = 0 ->
  slot_of (iotlb s idx (tlb_index addr)) = io_slot d /\
  u32 (page_of (iotlb s idx (tlb_index addr)) + addr) = io_addr d addr.
Proof.
  intros Ha (Hal & Hva & _ & _ & ->) Hd Hio Hreg. rewrite Hd. unfold io_base, io_slot, io_addr. cbn [page_desc].
  set (pd := phys_offset d) in *. unfold is_io in Hio. apply andb_true_iff in Hio as [Hlt _].
  rewrite Z.leb_antisym, Hlt. cbn [negb]. rewrite page_offset_mod.
  set (b := u32 (region_offset d - page_of addr)). pose proof (Z.mod_pos_bound pd 1024 ltac:(lia)) as Ho.
  assert (Hb : b mod 1024 = 0 /\ in_u32 b).
  { split; [|apply (uwrap_range 32); lia]. unfold b, uwrap. rewrite Z.mod_mod_divide by (by exists 4194304).
    rewrite Zminus_mod, Hreg, Hal. done. }
  assert (E : u32 (u32 (pd mod 1024 + region_offset d) - page_of addr) = b + pd mod 1024).
  { rewrite <- Z.add_opp_r, uwrap_add_l by lia.
    replace (pd mod 1024 + region_offset d + - page_of addr) with (region_offset d - page_of addr + pd mod 1024) by lia.
    rewrite <- uwrap_add_l by lia. fold b. destruct Hb. apply u32_small. pose proof (Z.div_mod b 1024). lia. }
  rewrite E. destruct Hb as [Hb _]. split.
  - by apply slot_of_add.
  - rewrite page_of_add by done. unfold b. rewrite uwrap_add_l, (page_of_mod addr) by lia. f_equal. lia.
Qed.

Lemma mmio_offset va : va mod 1024 = 0 -> ctrue (page_offset (Z.lor va TLB_MMIO)) = true.
Proof.
  intros H. rewrite page_offset_mod, (lor_low 10) by (done || (unfold TLB_MMIO; lia)).
  by rewrite <- Z.add_mod_idemp_l, H by lia.
Qed.

(** What the device of a slot answers, as the outcome of the access. *)
Definition device_reads (s : mmu_state) (d : PhysPageDesc) (size : nat) (addr : Z) (r : run Z) : Prop :=
  match io_mem_read (io_slot d) size (io_addr d addr) (dev s) with
  | Ok (v, w) => exists s', r = Returns v s' /\ dev s' = w /\ good s' /\ cpu s' = cpu s /\ ram (pmem s') = ram (pmem s)
  | _ => r = Stops
  end.

Lemma device_hit s idx addr size d :
  good s -> 0 <= idx < 2 -> in_u32 addr -> (size <= 4)%nat -> io_at s idx addr 0 d -> device_slot (io_slot d) ->
  page_of addr = tlb_tag (addr_read (tlb_table s idx (tlb_index addr))) ->
  addr_read (tlb_table s idx (tlb_index addr)) = Z.lor (page_of addr) TLB_MMIO /\
  device_reads s d size addr (io_read size (iotlb s idx (tlb_index addr)) addr s).
Proof.
  intros [Henv Hc] Hidx Ha Hs Hio (N1 & N2 & N3) Htag.
  destruct (io_at_page s idx addr 0 d Henv Ha Hio) as (pa & prot & _ & Ht & Hd). destruct Hio as (_ & Hio & Hreg & _).
  destruct (read_hit s idx addr Hc Hidx Htag) as (pa' & prot' & He & Ht' & Hta).
  rewrite Ht in Ht'. injection Ht' as <- <-. rewrite Hd in Hta. cbn [page_desc] in Hta. rewrite Hio in Hta.
  split; [exact Hta|]. destruct (device_iotlb s idx addr pa d Ha He Hd Hio Hreg) as [E1 E2].
  unfold io_read, device_reads. rewrite E1, E2. rewrite (proj2 (Nat.leb_le _ _) Hs). unfold slot_read.
  change (Z.shiftr IO_MEM_ROM IO_MEM_SHIFT) with 1. change (Z.shiftr IO_MEM_NOTDIRTY IO_MEM_SHIFT) with 3.
  change (Z.shiftr IO_MEM_UNASSIGNED IO_MEM_SHIFT) with 2.
  rewrite (proj2 (Z.eqb_neq _ _) N1), (proj2 (Z.eqb_neq _ _) N2), (proj2 (Z.eqb_neq _ _) N3). cbn [orb set_io_vaddr dev].
  destruct (io_mem_read _ _ _ _) as [[v w]| |]; cbn [rbind of_res]; [|done|done].
  exists (set_dev w (set_io_vaddr addr s)). by split_and!.
Qed.

Lemma io_at_env s s' idx addr acc d : same_env s s' -> io_at s idx addr acc d -> io_at s' idx addr acc d.
Proof.
  intros He ((pa & prot & Ht & Hd) & H). split; [|done]. exists pa, prot.
  by rewrite (env_tr s s'), (env_desc s s').
Qed.

Lemma device_reads_env s s1 d size addr r : same_env s s1 -> device_reads s1 d size addr r -> device_reads s d size addr r.
Proof.
  intros (H1 & (_ & _ & H2) & _ & _ & H3). unfold device_reads. rewrite H3.
  destruct (io_mem_read _ _ _ _) as [[v w]| |]; [|done|done]. intros (s' & A & B & C & D & E). exists s'.
  rewrite D, E, H1, H2. done.
Qed.

Lemma device_load s idx addr size fuel d :
  good s -> 0 <= idx < 2 -> in_u32 addr -> data_size size -> (size <= 4)%nat ->
  addr mod Z.of_nat size = 0 -> io_at s idx addr 0 d -> device_slot (io_slot d) -> (2 <= fuel)%nat ->
  device_reads s d size addr (ld_mem fuel size false addr idx s).
Proof.
  intros Hg Hidx Ha Hs H4 Hal Hio Hslot Hf.
  assert (Hal' : ctrue (Z.land addr (Z.of_nat size - 1)) = false)
    by (rewrite (proj1 (low_mod addr size Hs ltac:(lia))), Hal; done).
  assert (Hhit : forall s fuel, good s -> io_at s idx addr 0 d -> (1 <= fuel)%nat ->
    page_of addr = tlb_tag (addr_read (tlb_table s idx (tlb_index addr))) ->
    device_reads s d size addr (ld_mmu fuel size false addr idx s)).
  { clear s fuel Hg Hio Hf. intros s [|fuel] Hg Hio Hf Htag; [lia|]. cbn [ld_mmu ADDR_READ].
    destruct (device_hit s idx addr size d Hg Hidx Ha H4 Hio Hslot Htag) as [Hta Hr].
    rewrite <- Htag, Z.eqb_refl, Hta, mmio_offset, Hal' by apply page_of_aligned. exact Hr. }
  unfold ld_mem. cbn [ADDR_READ].
  destruct (Z.eqb_spec (addr_read (tlb_table s idx (tlb_index addr))) (fast_tag size addr)) as [E|_]; cbn [negb].
  { exfalso. destruct (fast_tag_inv size addr _ Hs Ha E) as [Htag _].
    destruct (device_hit s idx addr size d Hg Hidx Ha H4 Hio Hslot Htag) as [Hta _]. rewrite E in Hta.
    unfold fast_tag in Hta. rewrite (proj1 (low_mod addr size Hs ltac:(lia))), Hal in Hta.
    apply (f_equal (fun z => Z.testbit z 5)) in Hta. rewrite !Z.lor_spec, page_bit, andb_false_r in Hta by lia. done. }
  destruct (decide (page_of addr = tlb_tag (addr_read (tlb_table s idx (tlb_index addr))))) as [Htag|Hmiss].
  { apply Hhit; [done|done|lia|done]. }
  destruct (io_at_page s idx addr 0 d (proj1 Hg) Ha Hio) as (pa & prot & Ht & _).
  destruct (fill_ok s idx addr 0 _ prot (proj1 Hg) (proj2 Hg) Hidx Ha Ht) as (s1 & Hfill & He & Hc' & Htag & _).
  destruct fuel as [|fuel]; [lia|]. cbn [ld_mmu ADDR_READ READ_ACCESS_TYPE].
  rewrite (proj2 (Z.eqb_neq _ _) Hmiss), Hfill. cbn [and_then]. apply (device_reads_env s s1); [done|].
  apply Hhit; [split; [exact (env_env_ok s s1 He (proj1 Hg))|done]|by apply (io_at_env s)|lia|done].
Qed.

(** More rounds give the same answer. *)
Lemma and_then_mono {A B} (r r' : run A) (f f' : A -> mmu_state -> run B) :
  (r <> Loops -> r' = r) -> (forall a s, f a s <> Loops -> f' a s = f a s) ->
  and_then r f <> Loops -> and_then r' f' = and_then r f.
Proof. intros Hr Hf. destruct r as [a s| | |]; cbn [and_then]; try (by rewrite Hr by done); [|done]. rewrite Hr by done. apply Hf. Qed.

Lemma slow_ld_mono size code idx fuel : forall n addr s, (fuel <= n)%nat ->
  slow_ld fuel size code addr idx s <> Loops -> slow_ld n size code addr idx s = slow_ld fuel size code addr idx s.
Proof.
  induction fuel as [|fuel IH]; intros [|n] addr s Hn; try done; [lia|]. apply Nat.succ_le_mono in Hn. cbn [slow_ld].
  destruct (_ =? _); [|apply and_then_mono; auto].
  destruct (ctrue (page_offset _)); [destruct (ctrue (Z.land _ _)); [|done]|destruct (_ <=? _); [|done]];
    (apply and_then_mono; [by apply IH|]; intros r1 s1; apply and_then_mono; [by apply IH|done]).
Qed.

Lemma ld_mmu_mono size code idx fuel : forall n addr s, (fuel <= n)%nat ->
  ld_mmu fuel size code addr idx s <> Loops -> ld_mmu n size code addr idx s = ld_mmu fuel size code addr idx s.
Proof.
  induction fuel as [|fuel IH]; intros [|n] addr s Hn; try done; [lia|]. apply Nat.succ_le_mono in Hn. cbn [ld_mmu].
  destruct (_ =? _); [|apply and_then_mono; auto].
  destruct (ctrue (page_offset _)); [destruct (ctrue (Z.land _ _)); [|done]|destruct (_ <=? _); [|done]];
    by apply slow_ld_mono.
Qed.

Lemma ld_mem_mono size code idx addr s fuel n : (fuel <= n)%nat ->
  ld_mem fuel size code addr idx s <> Loops -> ld_mem n size code addr idx s = ld_mem fuel size code addr idx s.
Proof. unfold ld_mem. destruct (negb _); [by apply ld_mmu_mono|done]. Qed.

Lemma ld_mem_ends s idx addr size code fuel :
  good s -> 0 <= idx < 2 -> in_u32 addr -> data_size size -> (6 <= fuel)%nat -> ends (ld_mem fuel size code addr idx s).
Proof.
  intros Hg Hidx Ha Hs Hf. unfold ld_mem. destruct (negb _); [by apply ld_mmu_ends|by apply ends_returns].
Qed.

(** ** The properties *)

(** The operations of the guest and of the emulator on the TLB and the
    memory behind it; a store is one that does not write a page table. *)
Inductive mmu_step (s : mmu_state) : mmu_state -> Prop :=
| step_flush : mmu_step s (tlb_flush s)
| step_flush_page addr : mmu_step s (tlb_flush_page addr s)
| step_load size code addr idx v s' :
    data_size size -> in_u32 addr -> 0 <= idx < 2 ->
    ld_mem 6 size code addr idx s = Returns v s' -> mmu_step s s'
| step_store size addr val idx offs s' :
    data_size size -> in_u32 addr -> 0 <= idx < 2 ->
    store_offs s idx addr size offs -> stable (at_offs offs size) s ->
    st_mem 6 size addr val idx s = Returns tt s' -> mmu_step s s'
| step_clean start end_ flags s' :
    0 <= start <= end_ -> end_ + 1023 < 4294967296 ->
    physical_memory_reset_dirty start end_ flags s = Ok s' -> mmu_step s s'.


(** C6: a load of 1, 2, 4 or 8 bytes from RAM, whether the page is in the TLB,
    has to be filled, or the access crosses into another page that is mapped
    elsewhere, returns the little-endian value of the bytes that the page
    tables put at the address, and changes nothing but the TLB. *)
Theorem softmmu_load s idx addr size l :
  env_ok s -> coherent s -> 0 <= idx < 2 -> in_u32 addr -> data_size size ->
  guest_bytes s idx addr size = Some l ->
  exists s', ld_mem 6 size false addr idx s = Returns (ld_p l) s' /\
    cpu s' = cpu s /\ ram (pmem s') = ram (pmem s) /\ dirt s' = dirt s /\ dev s' = dev s.
Proof.
  intros Henv Hc Hidx Ha Hs Hl. destruct (ld_mem_ok s idx addr size 6 l) as (s' & E & H1 & _); try done.
  destruct H1 as (? & (_ & _ & ?) & ? & _ & ?). by exists s'.
Qed.

(** C7: a store puts each byte of the value where the page tables put its
    address and changes no other byte of the RAM; the pages it touches have
    every dirty flag but the one of translated code set afterwards, so that
    neither the display nor a snapshot misses it. *)
Theorem softmmu_store s idx addr size offs val :
  env_ok s -> coherent s -> 0 <= idx < 2 -> in_u32 addr -> data_size size ->
  store_offs s idx addr size offs -> stable (at_offs offs size) s ->
  exists s', st_mem 6 size addr val idx s = Returns tt s' /\ cpu s' = cpu s /\ dev s' = dev s /\
    (forall k, (k < size)%nat ->
       ram_byte (ram (pmem s')) (offs k) = u8 (Z.shiftr val (8 * Z.of_nat k)) /\
       Z.lor (dirty_flags (dirt s') (Z.shiftr (offs k) TARGET_PAGE_BITS)) CODE_DIRTY_FLAG = 0xff) /\
    (forall a, ~ at_offs offs size a -> ram_byte (ram (pmem s')) a = ram_byte (ram (pmem s)) a).
Proof.
  intros Henv Hc Hidx Ha Hs Ho Hst. destruct (st_mem_ok s idx addr size offs val 6) as (s' & E & H1 & _ & H2); try done.
  destruct H1 as (? & _ & _ & _ & ? & H3 & _). exists s'. by split_and!.
Qed.

(** C28: On a processor with an MMU, no load and no instruction fetch tries
    again for ever: six nested rounds of the loops of the soft MMU are enough
    for it to return, to leave for the guest's fault handler or to stop in a
    device, whatever its size and alignment and whatever the TLB holds, and
    with more rounds it does the same. *)
Theorem softmmu_load_ends s idx addr size code fuel :
  env_ok s -> coherent s -> 0 <= idx < 2 -> in_u32 addr -> data_size size -> (6 <= fuel)%nat ->
  ld_mem fuel size code addr idx s = ld_mem 6 size code addr idx s /\ ld_mem 6 size code addr idx s <> Loops.
Proof.
  intros He Hc Hidx Ha Hs Hf. pose proof (proj1 (ld_mem_ends s idx addr size code 6 (conj He Hc) Hidx Ha Hs (Nat.le_refl 6))) as H.
  split; [by apply ld_mem_mono|done].
Qed.

(** A load from a page of a device calls the function of the device's slot
    with the offset of the access in the device's region, whatever virtual
    address the page has, and returns what the device answers; the same slot
    and offset as an access of the emulator to the physical address. *)
Theorem softmmu_device_load s idx addr size d :
  env_ok s -> coherent s -> 0 <= idx < 2 -> in_u32 addr ->
  size = 1%nat \/ size = 2%nat \/ size = 4%nat -> addr mod Z.of_nat size = 0 ->
  io_at s idx addr 0 d -> device_slot (io_slot d) ->
  match io_mem_read (io_slot d) size (u32 (region_offset d + addr mod 1024)) (dev s) with
  | Ok (v, w) => exists s', ld_mem 6 size false addr idx s = Returns v s' /\ dev s' = w /\
                   cpu s' = cpu s /\ ram (pmem s') = ram (pmem s)
  | _ => ld_mem 6 size false addr idx s = Stops
  end.
Proof.
  intros He Hc Hidx Ha Hs Hal Hio Hsl. assert (Hd : data_size size) by (unfold data_size; tauto).
  pose proof (device_load s idx addr size 6 d (conj He Hc) Hidx Ha Hd ltac:(lia) Hal Hio Hsl ltac:(lia)) as H.
  unfold device_reads, io_addr in H. destruct (io_mem_read _ _ _ _) as [[v w]| |]; [|done|done].
  destruct H as (s' & A & B & _ & C & D). by exists s'.
Qed.

(** ** Two accesses that the code gets wrong *)

(** An instruction fetch of a page whose code and data tags agree. *)
Lemma fetch_hit s idx addr off fuel :
  good s -> 0 <= idx < 2 -> in_u32 addr -> addr mod 4 = 0 -> ram_off s idx addr 0 = Some off ->
  let te := tlb_table s idx (tlb_index addr) in
  page_of addr = tlb_tag (addr_read te) -> addr_code te = addr_read te -> (1 <= fuel)%nat ->
  ld_mem fuel 4 true addr idx s = Returns (ld_raw 4 off s) s.
Proof.
  intros [Henv Hc] Hidx Ha Hal Hoff te Htag Hcode Hf. unfold ld_mem. cbn [ADDR_READ]. fold te.
  destruct (read_hit_ram s idx addr off Henv Hc Hidx Ha Htag Hoff) as [H1 H2]. fold te in H1, H2. rewrite H2.
  destruct (negb _); [|done]. destruct fuel as [|fuel]; [lia|]. cbn [ld_mmu ADDR_READ]. fold te.
  rewrite Hcode, <- Htag, Z.eqb_refl, H1, H2. rewrite (in_page addr 4); [done|].
  apply aligned_in_page; [unfold data_size; tauto|lia|]. rewrite (proj1 (low_mod addr 4 ltac:(unfold data_size; tauto) ltac:(lia))).
  change (Z.of_nat 4) with 4. by rewrite Hal.
Qed.

(** Execute-never protection is lost once a page has been read: a fetch
    that the page tables forbid is refused while the page is not in the TLB,
    but after a load from the same address the same fetch succeeds, since
    [tlb_set_page] adds the right to execute to every page that is readable. *)
Theorem execute_never_lost s idx addr off code :
  env_ok s -> 0 <= idx < 2 -> in_u32 addr -> addr mod 4 = 0 ->
  ram_off s idx addr 0 = Some off -> tr s idx addr 2 = Ok (Fault code) ->
  (exists s1, ld_mem 6 4 true addr idx (tlb_flush s) = Raised s1) /\
  exists v s1 s2, ld_mem 6 4 false addr idx (tlb_flush s) = Returns v s1 /\
    ld_mem 6 4 true addr idx s1 = Returns v s2.
Proof.
  intros Henv Hidx Ha Hal Hoff Hx. set (s0 := tlb_flush s).
  assert (Hg : good s0) by (split; [exact Henv|apply flush_coherent]).
  assert (Hte : forall code, ADDR_READ code (tlb_table s0 idx (tlb_index addr)) = no_addr).
  { intros c. unfold s0, tlb_flush. cbn [set_tlb tlb_table]. rewrite in_tlb_index by done. by destruct c. }
  assert (Hmiss : forall c fuel, ld_mem (S fuel) 4 c addr idx s0 =
    and_then (tlb_fill addr (READ_ACCESS_TYPE c) idx s0) (fun _ s => ld_mmu fuel 4 c addr idx s)).
  { intros c fuel. unfold ld_mem. rewrite Hte. destruct (Z.eqb_spec no_addr (fast_tag 4 addr)) as [E|_]; cbn [negb].
    - exfalso. destruct (fast_tag_inv 4 addr _ ltac:(unfold data_size; tauto) Ha E) as [Ht _]. by apply no_addr_tag in Ht.
    - cbn [ld_mmu]. rewrite Hte. destruct (Z.eqb_spec (page_of addr) (tlb_tag no_addr)) as [E|_]; [by apply no_addr_tag in E|done]. }
  split.
  - rewrite Hmiss. destruct (fill_fault s0 idx addr 2 code (proj1 Hg) Ha Hx) as (e & _ & E).
    cbn [READ_ACCESS_TYPE]. rewrite E. by eexists.
  - rewrite Hmiss. cbn [READ_ACCESS_TYPE].
    destruct (ram_off_page s0 idx addr 0 off Henv Ha Hoff) as (pa & prot & Ht & _).
    destruct (fill_ok s0 idx addr 0 _ prot (proj1 Hg) (proj2 Hg) Hidx Ha Ht) as (s1 & -> & He & Hc & Htag & _ & Hcode).
    cbn [and_then]. assert (Hg1 : good s1) by (split; [exact (env_env_ok s0 s1 He Henv)|exact Hc]).
    assert (Hoff1 : ram_off s1 idx addr 0 = Some off) by (by rewrite (ram_off_env s0 s1)).
    exists (ld_raw 4 off s1), s1, s1. split; [|apply fetch_hit; done || lia].
    cbn [ld_mmu ADDR_READ]. destruct (read_hit_ram s1 idx addr off (proj1 Hg1) Hc Hidx Ha Htag Hoff1) as [H1 H2].
    rewrite <- Htag, Z.eqb_refl, H1, H2. rewrite (in_page addr 4); [done|].
    apply aligned_in_page; [unfold data_size; tauto|lia|].
    rewrite (proj1 (low_mod addr 4 ltac:(unfold data_size; tauto) ltac:(lia))). change (Z.of_nat 4) with 4. by rewrite Hal.
Qed.

(** The protection unit grants a user's store to a region that is read-only
    for users, with a protection that does not let it through. *)
Definition user_read_only (e : CPUARMState) (addr : Z) : Prop :=
  arm_feature e ARM_FEATURE_MPU = true /\ Z.land (fld e c1_sys) 1 = 1 /\ 0x02000000 <= addr /\
  exists n, find_region e addr 8 = Some n /\ Z.land (Z.shiftr (fld e c5_data) (Z.of_nat n * 4)) 0xf = 2.

Lemma mpu_grant ldl e addr : user_read_only e addr -> get_phys_addr ldl e addr 1 true = Ok (Mapped addr PAGE_READ).
Proof.
  intros (HM & Hon & Hhi & n & Hn & Hap). unfold get_phys_addr. rewrite (proj2 (Z.ltb_ge _ _) Hhi), Hon, HM.
  change (1 =? 0) with false. cbn match. unfold get_phys_addr_mpu. rewrite Hn.
  change (1 =? 2) with false. cbn zeta match. rewrite Hap. done.
Qed.

(** The fill leaves the page closed for writing, whatever is behind it. *)
Lemma mpu_fill e addr s :
  user_read_only e addr -> cpu s = e ->
  existsb (in_block (page_of (page_desc (desc_at s (page_of addr))))) (ram_blocks (pmem s)) = true ->
  exists s', tlb_fill addr 1 1 s = Returns tt s' /\ cpu s' = e /\
    existsb (in_block (page_of (page_desc (desc_at s' (page_of addr))))) (ram_blocks (pmem s')) = true /\
    addr_write (tlb_table s' 1 (tlb_index addr)) = no_addr.
Proof.
  intros Hu Hcpu Hb. unfold tlb_fill, cpu_arm_handle_mmu_fault. rewrite Hcpu.
  change (1 =? MMU_USER_IDX) with true. rewrite mpu_grant by done. cbn [rbind].
  change (Z.ldiff addr 1023) with (page_of addr).
  unfold tlb_set_page. change (ctrue (Z.land PAGE_READ PAGE_READ)) with true. cbn match. unfold tlb_set_page_exec. cbn zeta.
  fold (desc_at s (page_of addr)).
  destruct (get_ram_ptr_ok (pmem s) _ Hb) as (m & -> & Hm1 & Hm2 & Hm3). cbn [rbind]. eexists. split; [reflexivity|].
  cbn [cpu pmem tlb_table]. split; [exact Hcpu|]. split.
  - unfold desc_at, phys_page_find in *. cbn [pmem]. by rewrite Hm1, Hm2.
  - unfold upd_tlb. rewrite tlb_index_page, !Z.eqb_refl. done.
Qed.

(** With a protection unit, a user's store to a region that is read-only
    for users neither faults nor returns: the translation reports success with
    a protection that does not contain the write, the TLB entry stays closed,
    and the access is tried again for ever. *)
Theorem mpu_store_never_returns s addr size val fuel :
  user_read_only (cpu s) addr -> in_u32 addr -> data_size size ->
  existsb (in_block (page_of (page_desc (desc_at s (page_of addr))))) (ram_blocks (pmem s)) = true ->
  st_mem fuel size addr val 1 (tlb_flush s) = Loops.
Proof.
  intros Hu Ha Hs Hb.
  assert (Hloop : forall fuel s', cpu s' = cpu s ->
    existsb (in_block (page_of (page_desc (desc_at s' (page_of addr))))) (ram_blocks (pmem s')) = true ->
    addr_write (tlb_table s' 1 (tlb_index addr)) = no_addr -> st_mmu fuel size addr val 1 s' = Loops).
  { clear fuel Hb. induction fuel as [|fuel IH]; intros s' Hc Hb Hw; [done|]. cbn [st_mmu]. rewrite Hw.
    destruct (Z.eqb_spec (page_of addr) (tlb_tag no_addr)) as [E|_]; [by apply no_addr_tag in E|].
    destruct (mpu_fill (cpu s) addr s' Hu Hc Hb) as (s1 & -> & Hc1 & Hb1 & Hw1). cbn [and_then]. by apply IH. }
  unfold st_mem.
  assert (Hw : addr_write (tlb_table (tlb_flush s) 1 (tlb_index addr)) = no_addr)
    by (unfold tlb_flush; cbn [set_tlb tlb_table]; by rewrite in_tlb_index by lia).
  rewrite Hw. destruct (Z.eqb_spec no_addr (fast_tag size addr)) as [E|_]; cbn [negb].
  - exfalso. destruct (fast_tag_inv size addr _ Hs Ha E) as [Ht _]. by apply no_addr_tag in Ht.
  - by apply Hloop.
Qed.

End SoftMmu.
Arguments Returns {W A} a s.
Arguments Raised {W A} s.
Arguments Stops {W A}.
Arguments Loops {W A}.

(** ** A small machine

    RAM in the pages 0, 1, 11, 12 and 16 and a device at page 64; the first
    level table at 0x4000, one second level table at 0x400, which puts the
    virtual pages 0x1000 and 0x2000 at 0x2000 and 0x3000, 0x4000 at the device and
    0x5000, not to be executed, at 0x3000. *)
Definition sample_mem : PhysMem :=
  mkMem (list_to_map (map (fun n => (n, mkDesc (n * 1024) 0)) [0; 1; 11; 12; 16] ++ [(64, mkDesc 40 0x2000)]))
    [mkBlock 0 0x8000]
    (ram_store (ram_store (ram_store (ram_store ∅ 0x4000 [0x01; 0x04; 0; 0]) 0x404 [0x32; 0x20; 0; 0; 0x32; 0x30; 0; 0])
                  0x410 [0x32; 0; 0x01; 0; 0x33; 0x30; 0; 0]) 0x2ffe [0x11; 0x22; 0x33; 0x44]).

Definition sample_mmu (on : bool) : mmu_state (W := Z) :=
  mkState (mkCPU (fun f => match f with
                           | c1_sys => if on then 0x800001 else 0 | c2_base0 => 0x4000
                           | c2_base_mask => 0xffffc000 | c3 => 1 | _ => 0 end) (fun _ => []))
    (fun _ _ => mkTLB no_addr no_addr no_addr 0) (fun _ _ => 0) sample_mem (mkDirty ∅ []) [] 0 0.

Definition sample_read (slot : Z) (size : nat) (addr : Z) (w : Z) : res (Z * Z) := Ok (slot * 0x10000 + addr, w + 1).
Definition sample_write (slot : Z) (size : nat) (addr val : Z) (w : Z) : res Z := Ok (w + val).

Lemma ram_store_bytes r a l :
  (forall x, in_u8 (ram_byte r x)) -> Forall (fun b => in_u8 b) l -> forall x, in_u8 (ram_byte (ram_store r a l) x).
Proof.
  intros Hr Hl x. rewrite ram_store_at. case_decide; [|apply Hr].
  destruct (l !! Z.to_nat (x - a)) as [b|] eqn:E; [|done]. cbn. by apply (Forall_lookup_1 _ _ _ _ Hl E).
Qed.

Lemma sample_env on : env_ok (sample_mmu on).
Proof.
  split; [split; [|split]; done|]. split; [done|]. split; [done|]. split; [|split].
  - intros n. cbn zeta. assert (page_desc (phys_page_find (pmem (sample_mmu on)) n) ∈ [16; 0; 1024; 11264; 12288; 16384; 40]) as H.
    { unfold phys_page_find. destruct (phys_map _ !! n) as [d|] eqn:E; [|set_solver].
      apply elem_of_list_to_map_2 in E. cbn in E. repeat (apply elem_of_cons in E as [[= -> ->]|E]; [cbn; set_solver|]).
      set_solver. }
    generalize dependent (page_desc (phys_page_find (pmem (sample_mmu on)) n)). intros pd H.
    repeat (apply elem_of_cons in H as [->|H];
      [split; [split; [done|vm_compute; (left; reflexivity) || (right; right; right; reflexivity)]|intros o Ho; cbn [sample_mmu pmem sample_mem ram_blocks existsb];
        unfold in_block; cbn [rb_offset rb_length]; rewrite orb_false_r, andb_true_iff, Z.leb_le, Z.ltb_lt, page_of_mod;
        Z.to_euclidean_division_equations; lia]|]).
    by apply not_elem_of_nil in H.
  - cbn [sample_mmu pmem sample_mem ram]. repeat apply ram_store_bytes; [done|repeat constructor; lia..].
  - intros page. cbn. unfold dirty_flags. cbn. by rewrite lookup_empty.
Qed.

Lemma sample_coherent iow on : coherent iow (sample_mmu on).
Proof. intros idx i _. split_and!; [by left|by left|done]. Qed.

Lemma softmmu_load_witness :
  exists s', ld_mem 0x800 sample_read (fun _ _ => 0) 6 4 false 0x1ffe 1 (sample_mmu true) = Returns 0x44332211 s' /\
    dev s' = 0.
Proof.
  destruct (softmmu_load 0x800 sample_read sample_write (fun _ _ => 0) (fun _ => false) (sample_mmu true) 1 0x1ffe 4 [0x11; 0x22; 0x33; 0x44]
    (sample_env true) (sample_coherent _ true) ltac:(lia) ltac:(lia) ltac:(unfold data_size; tauto) ltac:(vm_compute; reflexivity))
    as (s' & E & _ & _ & _ & D).
  exists s'. split; [exact E|exact D].
Defined.

Lemma softmmu_load_ends_witness :
  ld_mem 0x800 sample_read (fun _ _ => 0) 100 8 false 0x3ffe 1 (sample_mmu true) =
    ld_mem 0x800 sample_read (fun _ _ => 0) 6 8 false 0x3ffe 1 (sample_mmu true) /\
  ld_mem 0x800 sample_read (fun _ _ => 0) 6 8 false 0x3ffe 1 (sample_mmu true) <> Loops.
Proof.
  apply (softmmu_load_ends 0x800 sample_read sample_write (fun _ _ => 0) (fun _ => false) (sample_mmu true) 1 0x3ffe 8 false 100 (sample_env true)
    (sample_coherent _ true)); [lia|lia|unfold data_size; tauto|lia].
Defined.

Lemma softmmu_device_load_witness :
  exists s', ld_mem 0x800 sample_read (fun _ _ => 0) 6 4 false 0x4010 0 (sample_mmu true) = Returns 0x52010 s' /\ dev s' = 1.
Proof.
  assert (Hio : io_at (fun _ _ => 0) (sample_mmu true) 0 0x4010 0 (mkDesc 40 0x2000)).
  { split; [exists 0x10010, 3; split; vm_compute; reflexivity|]. split; [reflexivity|]. split; [reflexivity|cbn; lia]. }
  assert (Hsl : device_slot (io_slot (mkDesc 40 0x2000))) by (vm_compute; split_and!; discriminate).
  destruct (softmmu_device_load 0x800 sample_read sample_write (fun _ _ => 0) (fun _ => false) (sample_mmu true) 0 0x4010 4
    (mkDesc 40 0x2000) (sample_env true) (sample_coherent _ true) ltac:(lia) ltac:(lia) ltac:(tauto) eq_refl Hio Hsl)
    as (s' & E & D & _).
  exists s'. split; [exact E|exact D].
Defined.

Lemma sample_stable iow P : stable iow P (sample_mmu false).
Proof. intros r _ idx va acc. done. Qed.

Lemma softmmu_store_witness :
  exists s', st_mem 0x800 sample_write (fun _ _ => 0) (fun _ => false) 6 4 0x2ffe 0xa1b2c3d4 0 (sample_mmu false) = Returns tt s' /\
    ram_byte (ram (pmem s')) 0x2ffe = 0xd4 /\ ram_byte (ram (pmem s')) 0x3001 = 0xa1.
Proof.
  destruct (softmmu_store 0x800 sample_read sample_write (fun _ _ => 0) (fun _ => false) (sample_mmu false) 0 0x2ffe 4
    (fun k => 0x2ffe + Z.of_nat k) 0xa1b2c3d4 (sample_env false) (sample_coherent _ false))
    as (s' & E & _ & _ & B & _); [lia|lia|unfold data_size; tauto| |apply sample_stable|].
  - intros k Hk. do 4 (destruct k as [|k]; [vm_compute; reflexivity|]). lia.
  - exists s'. split; [exact E|]. split; [apply (B 0%nat); lia|apply (B 3%nat); lia].
Defined.


Lemma execute_never_lost_witness :
  exists v s1 s2, ld_mem 0x800 sample_read (fun _ _ => 0) 6 4 false 0x5000 1 (tlb_flush (sample_mmu true)) = Returns v s1 /\
    ld_mem 0x800 sample_read (fun _ _ => 0) 6 4 true 0x5000 1 s1 = Returns v s2.
Proof.
  destruct (execute_never_lost 0x800 sample_read sample_write (fun _ _ => 0) (fun _ => false) (sample_mmu true) 1 0x5000
    0x3000 31 (sample_env true) ltac:(lia) ltac:(lia) eq_refl ltac:(vm_compute; reflexivity) ltac:(vm_compute; reflexivity))
    as [_ H]. exact H.
Defined.

Definition sample_mpu : mmu_state (W := Z) :=
  set_cpu (mkCPU (fun f => match f with c1_sys => 1 | features => bit32 ARM_FEATURE_MPU | c5_data => 2 | _ => 0 end)
                 (fun a => match a with c6_region => [63] | _ => [] end)) (sample_mmu false).

Lemma mpu_store_never_returns_witness :
  st_mem 0x800 sample_write (fun _ _ => 0) (fun _ => false) 1000 4 0x02000400 7 1 (tlb_flush sample_mpu) = Loops.
Proof.
  apply (mpu_store_never_returns 0x800 sample_read sample_write (fun _ _ => 0) (fun _ => false) sample_mpu).
  - split; [reflexivity|]. split; [reflexivity|]. split; [lia|]. exists 0%nat. split; vm_compute; reflexivity.
  - lia.
  - unfold data_size. tauto.
  - vm_compute. reflexivity.
Defined.
