(* ===== verification/ArmCp15.v ===== *)
(** * The system control coprocessor

    [set_cp15] and [get_cp15] of [target-arm/helper.c]: the registers that the
    guest writes to configure the processor, its MMU and its protection unit.
    A write returns the new state and what it asks of the emulator. *)
From stdpp Require Import gmap.
From S2P Require Import Prelude ArmCpu GuestMem ArmMmu SoftMmu.
From stdpp Require Import list sets.
#[local] Open Scope Z_scope.

(** [tlb_flush], [tb_flush] and [cpu_interrupt]. *)
Inductive effect := TlbFlush | TbFlush | Interrupt (mask : Z).

#[global] Instance effect_eq_dec : EqDecision effect.
Proof. solve_decision. Defined.

(** ** Protection bits *)

(** The loops over [i = 0, 2 .. 14] with [mask = 3, 12 ..]. *)
Definition simple_mpu_ap_bits (val : Z) : Z :=
  fold_left (fun ret n => let i := 2 * Z.of_nat n in Z.lor ret (Z.land (Z.shiftr val i) (Z.shiftl 3 i)))
    (seq 0 8) 0.
Definition extended_mpu_ap_bits (val : Z) : Z :=
  fold_left (fun ret n => let i := 2 * Z.of_nat n in Z.lor ret (u32 (Z.shiftl (Z.land val (Z.shiftl 3 i)) i)))
    (seq 0 8) 0.

(** ** Writes *)

Definition CPU_INTERRUPT_HALT : Z := 0x20.
Definition ARM_CPUID_TI915T : Z := 0x54029152.
Definition ARM_CPUID_TI925T : Z := 0x54029252.
Definition ARM_CPUID_ARM1026 : Z := 0x4106a262.
Definition ARM_CPUID_ARM1136 : Z := 0x4117b363.
Definition ARM_CPUID_ARM1136_R2 : Z := 0x4107b362.
Definition ARM_CPUID_ARM11MPCORE : Z := 0x410fb022.
Definition ARM_CPUID_CORTEXA8 : Z := 0x410fc080.

Definition cp_op1 (insn : Z) : Z := Z.land (Z.shiftr insn 21) 7.
Definition cp_op2 (insn : Z) : Z := Z.land (Z.shiftr insn 5) 7.
Definition cp_crm (insn : Z) : Z := Z.land insn 0xf.
Definition cp_crn (insn : Z) : Z := Z.land (Z.shiftr insn 16) 0xf.

(** A plain register, and the register that does not exist. *)
Definition wr (f : cpu_field) (v : Z) (e : CPUARMState) : res (CPUARMState * list effect) := Ok (setf f v e, []).
Definition bad_reg : res (CPUARMState * list effect) := Abort.
Definition nothing (e : CPUARMState) : res (CPUARMState * list effect) := Ok (e, []).

Definition set_c0 (op1 op2 crm val : Z) (e : CPUARMState) :=
  if arm_feature e ARM_FEATURE_XSCALE then nothing e
  else if arm_feature e ARM_FEATURE_OMAPCP then nothing e
  else if arm_feature e ARM_FEATURE_V7 && (op1 =? 2) && (crm =? 0) && (op2 =? 0)
  then wr c0_cssel (Z.land val 0xf) e
  else bad_reg.

Definition set_c1 (op2 crm val : Z) (e : CPUARMState) :=
  let op2 := if arm_feature e ARM_FEATURE_OMAPCP then 0 else op2 in
  if op2 =? 0 then
    Ok (if negb (arm_feature e ARM_FEATURE_XSCALE) || (crm =? 0) then setf c1_sys val e else e, [TlbFlush])
  else if op2 =? 1 then
    if arm_feature e ARM_FEATURE_XSCALE then wr c1_xscaleauxcr val e else nothing e
  else if op2 =? 2 then
    if arm_feature e ARM_FEATURE_XSCALE then bad_reg
    else if negb (fld e c1_coproc =? val) then Ok (setf c1_coproc val e, [TbFlush]) else nothing e
  else bad_reg.

Definition set_c2 (op2 val : Z) (e : CPUARMState) :=
  if arm_feature e ARM_FEATURE_MPU then
    if op2 =? 0 then wr c2_data val e else if op2 =? 1 then wr c2_insn val e else bad_reg
  else if op2 =? 0 then wr c2_base0 val e
  else if op2 =? 1 then wr c2_base1 val e
  else if op2 =? 2 then
    let val := Z.land val 7 in
    Ok (setf c2_base_mask (not32 (Z.shiftr 0x3fff val))
          (setf c2_mask (not32 (Z.shiftr 0xffffffff val)) (setf c2_control val e)), [])
  else bad_reg.

Definition set_c5 (op2 val : Z) (e : CPUARMState) :=
  let op2 := if arm_feature e ARM_FEATURE_OMAPCP then 0 else op2 in
  let mpu := arm_feature e ARM_FEATURE_MPU in
  let ext := if mpu then extended_mpu_ap_bits val else val in
  if op2 =? 0 then wr c5_data ext e
  else if op2 =? 1 then wr c5_insn ext e
  else if op2 =? 2 then if negb mpu then bad_reg else wr c5_data val e
  else if op2 =? 3 then if negb mpu then bad_reg else wr c5_insn val e
  else bad_reg.

Definition set_c6 (op2 crm val : Z) (e : CPUARMState) :=
  if arm_feature e ARM_FEATURE_MPU then
    if 8 <=? crm then bad_reg else Ok (sete c6_region (Z.to_nat crm) val e, [])
  else
    let op2 := if arm_feature e ARM_FEATURE_OMAPCP then 0 else op2 in
    if op2 =? 0 then wr c6_data val e
    else if (op2 =? 1) || (op2 =? 2) then wr c6_insn val e
    else bad_reg.

Definition set_c8 (op2 : Z) (e : CPUARMState) :=
  if (op2 =? 0) || (op2 =? 1) || (op2 =? 2) || (op2 =? 3) then Ok (e, [TlbFlush]) else bad_reg.

Definition set_c9 (op1 op2 crm val : Z) (e : CPUARMState) :=
  if arm_feature e ARM_FEATURE_OMAPCP then nothing e
  else if crm =? 0 then
    if op1 =? 0 then
      if op2 =? 0 then wr c9_data val e else if op2 =? 1 then wr c9_insn val e else bad_reg
    else if op1 =? 1 then nothing e
    else bad_reg
  else bad_reg.

Definition set_c13 (op2 val : Z) (e : CPUARMState) :=
  if op2 =? 0 then Ok (setf c13_fcse val e, if negb (fld e c13_fcse =? val) then [TlbFlush] else [])
  else if op2 =? 1 then
    Ok (setf c13_context val e,
        if negb (fld e c13_context =? val) && negb (arm_feature e ARM_FEATURE_MPU) then [TlbFlush] else [])
  else if op2 =? 2 then wr c13_tls1 val e
  else if op2 =? 3 then wr c13_tls2 val e
  else if op2 =? 4 then wr c13_tls3 val e
  else bad_reg.

Definition set_c15 (op2 crm val : Z) (e : CPUARMState) :=
  if arm_feature e ARM_FEATURE_XSCALE then
    if (op2 =? 0) && (crm =? 1) then
      if negb (fld e c15_cpar =? Z.land val 0x3fff) then Ok (setf c15_cpar (Z.land val 0x3fff) e, [TbFlush])
      else nothing e
    else bad_reg
  else if arm_feature e ARM_FEATURE_OMAPCP then
    if crm =? 0 then nothing e
    else if crm =? 1 then
      Ok (setf c0_cpuid (if ctrue (Z.land val (bit32 5)) then ARM_CPUID_TI915T else ARM_CPUID_TI925T)
            (setf c15_ticonfig (Z.land val 0xe7) e), [])
    else if crm =? 2 then wr c15_i_max val e
    else if crm =? 3 then wr c15_i_min val e
    else if crm =? 4 then wr c15_threadid (Z.land val 0xffff) e
    else if crm =? 8 then Ok (e, [Interrupt CPU_INTERRUPT_HALT])
    else bad_reg
  else nothing e.

Definition set_cp15 (insn val : Z) (e : CPUARMState) : res (CPUARMState * list effect) :=
  let op1 := cp_op1 insn in let op2 := cp_op2 insn in let crm := cp_crm insn in let crn := cp_crn insn in
  if crn =? 0 then set_c0 op1 op2 crm val e
  else if crn =? 1 then set_c1 op2 crm val e
  else if crn =? 2 then set_c2 op2 val e
  else if crn =? 3 then Ok (setf c3 val e, [TlbFlush])
  else if crn =? 4 then bad_reg
  else if crn =? 5 then set_c5 op2 val e
  else if crn =? 6 then set_c6 op2 crm val e
  else if crn =? 7 then Ok (setf c15_i_min 0xff0 (setf c15_i_max 0 e), [])
  else if crn =? 8 then set_c8 op2 e
  else if crn =? 9 then set_c9 op1 op2 crm val e
  else if crn =? 10 then nothing e
  else if crn =? 12 then bad_reg
  else if crn =? 13 then set_c13 op2 val e
  else if crn =? 14 then bad_reg
  else if crn =? 15 then set_c15 op2 crm val e
  else nothing e.

(** ** Reads

    A read returns a value; the reads of the cache registers also change a
    flag. *)

Definition rd (v : Z) (e : CPUARMState) : res (Z * CPUARMState) := Ok (v, e).

Definition get_c0 (op1 op2 crm : Z) (e : CPUARMState) : res (Z * CPUARMState) :=
  if op1 =? 0 then
    if crm =? 0 then
      if op2 =? 0 then rd (fld e c0_cpuid) e
      else if op2 =? 1 then rd (fld e c0_cachetype) e
      else if op2 =? 2 then rd 0 e
      else if op2 =? 3 then rd 0 e
      else if op2 =? 5 then rd (fld e cpu_index) e
      else Abort
    else if crm =? 1 then
      if negb (arm_feature e ARM_FEATURE_V6) then Abort else rd (elt e c0_c1 (Z.to_nat op2)) e
    else if crm =? 2 then
      if negb (arm_feature e ARM_FEATURE_V6) then Abort else rd (elt e c0_c2 (Z.to_nat op2)) e
    else if (3 <=? crm) && (crm <=? 7) then rd 0 e
    else Abort
  else if op1 =? 1 then
    if negb (arm_feature e ARM_FEATURE_V6) then Abort
    else if negb (crm =? 0) then Abort
    else if negb (arm_feature e ARM_FEATURE_V7) then rd 0 e
    else if op2 =? 0 then rd (elt e c0_ccsid (Z.to_nat (fld e c0_cssel))) e
    else if op2 =? 1 then rd (fld e c0_clid) e
    else if op2 =? 7 then rd 0 e
    else Abort
  else if op1 =? 2 then
    if negb (op2 =? 0) || negb (crm =? 0) then Abort else rd (fld e c0_cssel) e
  else Abort.

Definition get_c1 (op2 : Z) (e : CPUARMState) : res (Z * CPUARMState) :=
  let op2 := if arm_feature e ARM_FEATURE_OMAPCP then 0 else op2 in
  if op2 =? 0 then rd (fld e c1_sys) e
  else if op2 =? 1 then
    if arm_feature e ARM_FEATURE_XSCALE then rd (fld e c1_xscaleauxcr) e
    else if negb (arm_feature e ARM_FEATURE_AUXCR) then Abort
    else
      let id := fld e c0_cpuid in
      if id =? ARM_CPUID_ARM1026 then rd 1 e
      else if (id =? ARM_CPUID_ARM1136) || (id =? ARM_CPUID_ARM1136_R2) then rd 7 e
      else if id =? ARM_CPUID_ARM11MPCORE then rd 1 e
      else if id =? ARM_CPUID_CORTEXA8 then rd 2 e
      else Abort
  else if op2 =? 2 then
    if arm_feature e ARM_FEATURE_XSCALE then Abort else rd (fld e c1_coproc) e
  else Abort.

Definition get_c2 (op2 : Z) (e : CPUARMState) : res (Z * CPUARMState) :=
  if arm_feature e ARM_FEATURE_MPU then
    if op2 =? 0 then rd (fld e c2_data) e else if op2 =? 1 then rd (fld e c2_insn) e else Abort
  else if op2 =? 0 then rd (fld e c2_base0) e
  else if op2 =? 1 then rd (fld e c2_base1) e
  else if op2 =? 2 then rd (fld e c2_control) e
  else Abort.

Definition get_c5 (op2 : Z) (e : CPUARMState) : res (Z * CPUARMState) :=
  let op2 := if arm_feature e ARM_FEATURE_OMAPCP then 0 else op2 in
  let mpu := arm_feature e ARM_FEATURE_MPU in
  if op2 =? 0 then rd (if mpu then simple_mpu_ap_bits (fld e c5_data) else fld e c5_data) e
  else if op2 =? 1 then rd (if mpu then simple_mpu_ap_bits (fld e c5_data) else fld e c5_insn) e
  else if op2 =? 2 then if negb mpu then Abort else rd (fld e c5_data) e
  else if op2 =? 3 then if negb mpu then Abort else rd (fld e c5_insn) e
  else Abort.

Definition get_c6 (op2 crm : Z) (e : CPUARMState) : res (Z * CPUARMState) :=
  if arm_feature e ARM_FEATURE_MPU then
    if 8 <=? crm then Abort else rd (elt e c6_region (Z.to_nat crm)) e
  else
    let op2 := if arm_feature e ARM_FEATURE_OMAPCP then 0 else op2 in
    if op2 =? 0 then rd (fld e c6_data) e
    else if op2 =? 1 then rd (if arm_feature e ARM_FEATURE_V6 then 0 else fld e c6_insn) e
    else if op2 =? 2 then if arm_feature e ARM_FEATURE_V6 then rd (fld e c6_insn) e else Abort
    else Abort.

Definition get_c9 (op1 op2 crm : Z) (e : CPUARMState) : res (Z * CPUARMState) :=
  if op1 =? 0 then
    if arm_feature e ARM_FEATURE_OMAPCP then rd 0 e
    else if op2 =? 0 then rd (fld e c9_data) e
    else if op2 =? 1 then rd (fld e c9_insn) e
    else Abort
  else if op1 =? 1 then if negb (crm =? 0) then Abort else rd 0 e
  else Abort.

Definition get_c13 (op2 : Z) (e : CPUARMState) : res (Z * CPUARMState) :=
  if op2 =? 0 then rd (fld e c13_fcse) e
  else if op2 =? 1 then rd (fld e c13_context) e
  else if op2 =? 2 then rd (fld e c13_tls1) e
  else if op2 =? 3 then rd (fld e c13_tls2) e
  else if op2 =? 4 then rd (fld e c13_tls3) e
  else Abort.

Definition get_c15 (op2 crm : Z) (e : CPUARMState) : res (Z * CPUARMState) :=
  if arm_feature e ARM_FEATURE_XSCALE then
    if (op2 =? 0) && (crm =? 1) then rd (fld e c15_cpar) e else Abort
  else if arm_feature e ARM_FEATURE_OMAPCP then
    if crm =? 0 then rd 0 e
    else if crm =? 1 then rd (fld e c15_ticonfig) e
    else if crm =? 2 then rd (fld e c15_i_max) e
    else if crm =? 3 then rd (fld e c15_i_min) e
    else if crm =? 4 then rd (fld e c15_threadid) e
    else if crm =? 8 then rd 0 e
    else Abort
  else rd 0 e.

Definition get_cp15 (insn : Z) (e : CPUARMState) : res (Z * CPUARMState) :=
  let op1 := cp_op1 insn in let op2 := cp_op2 insn in let crm := cp_crm insn in let crn := cp_crn insn in
  if crn =? 0 then get_c0 op1 op2 crm e
  else if crn =? 1 then get_c1 op2 e
  else if crn =? 2 then get_c2 op2 e
  else if crn =? 3 then rd (fld e c3) e
  else if crn =? 5 then get_c5 op2 e
  else if crn =? 6 then get_c6 op2 crm e
  else if crn =? 7 then Ok (0, setf ZF 0 e)
  else if crn =? 9 then get_c9 op1 op2 crm e
  else if crn =? 10 then rd 0 e
  else if crn =? 13 then get_c13 op2 e
  else if crn =? 15 then get_c15 op2 crm e
  else Abort.

(** ** What a write changes *)

(** The members that a translation looks at, on a processor with an MMU. *)
Definition walk_fields : list cpu_field :=
  [c1_sys; c2_base0; c2_base1; c2_mask; c2_base_mask; c3; c13_fcse; features].

Definition same_walk (e e' : CPUARMState) : Prop := forall f, f ∈ walk_fields -> fld e' f = fld e f.

Lemma same_walk_setf f v e : f ∉ walk_fields -> same_walk e (setf f v e).
Proof. intros Hf g Hg. cbn. rewrite decide_False; [done|]. by intros ->. Qed.

Lemma same_walk_trans e1 e2 e3 : same_walk e1 e2 -> same_walk e2 e3 -> same_walk e1 e3.
Proof. intros H1 H2 f Hf. by rewrite H2, H1. Qed.

Lemma same_walk_sete a i v e : same_walk e (sete a i v e).
Proof. intros f Hf. done. Qed.

Create HintDb walk.
Lemma not_walk f : bool_decide (f ∈ walk_fields) = false -> f ∉ walk_fields.
Proof. apply bool_decide_eq_false. Qed.
#[export] Hint Extern 1 (_ ∉ walk_fields) => (apply not_walk; reflexivity) : walk.
#[export] Hint Resolve same_walk_setf same_walk_sete : walk.

Lemma get_phys_addr_same ldl e e' a acc user :
  same_walk e e' -> arm_feature e ARM_FEATURE_MPU = false ->
  get_phys_addr ldl e' a acc user = get_phys_addr ldl e a acc user.
Proof.
  intros Hw HM. assert (Hf : forall n, arm_feature e' n = arm_feature e n).
  { intros n. unfold arm_feature. rewrite (Hw features); [done|]. unfold walk_fields. set_solver. }
  assert (W : fld e' c1_sys = fld e c1_sys /\ fld e' c2_base0 = fld e c2_base0 /\ fld e' c2_base1 = fld e c2_base1 /\
    fld e' c2_mask = fld e c2_mask /\ fld e' c2_base_mask = fld e c2_base_mask /\ fld e' c3 = fld e c3 /\
    fld e' c13_fcse = fld e c13_fcse) by (split_and!; apply Hw; unfold walk_fields; set_solver).
  destruct W as (W1 & W2 & W3 & W4 & W5 & W6 & W7).
  unfold get_phys_addr, get_phys_addr_v5, get_phys_addr_v6, get_level1_table_address, finish_walk_v6, finish_walk, check_ap.
  by rewrite !Hf, !HM, !W1, !W2, !W3, !W4, !W5, !W6, !W7.
Qed.

(** Every write of another register than the table bases either flushes the
    TLB or leaves the translation as it is. *)
Lemma set_cp15_walk insn val e e' effs :
  set_cp15 insn val e = Ok (e', effs) ->
  cp_crn insn = 2 \/ TlbFlush ∈ effs \/ same_walk e e'.
Proof.
  unfold set_cp15. cbn zeta. intros H.
  assert (Hr : same_walk e e) by done.
  destruct (Z.eqb_spec (cp_crn insn) 2) as [|_]; [by left|right].
  revert H. unfold set_c0, set_c1, set_c5, set_c6, set_c8, set_c9, set_c13, set_c15, wr, nothing, bad_reg. cbn zeta.
  repeat match goal with |- context [if ?b then _ else _] => destruct b eqn:? end;
    intros H; simplify_eq; try (left; apply list_elem_of_here);
    right; try done; try solve [apply same_walk_setf; auto with walk]; try apply same_walk_sete.
  all: try solve [eapply same_walk_trans; apply same_walk_setf; auto with walk].
  all: intros f Hf; cbn; case_decide; subst; try done.
  all: repeat match goal with H : negb _ = false |- _ => apply negb_false_iff in H end; rewrite Z.eqb_eq in *; congruence.
Qed.

(** ** Composition with the soft MMU *)

Section Flush.
Context {W : Type} (io_word : Z -> Z -> Z).

(** What the emulator does for a write: the new registers, and the flush. *)
Definition cp15_apply (e' : CPUARMState) (effs : list effect) (s : mmu_state (W := W)) : mmu_state :=
  let s := set_cpu e' s in if decide (TlbFlush ∈ effs) then tlb_flush s else s.

Lemma set_cpu_map e' (s : mmu_state (W := W)) :
  arm_feature (cpu s) ARM_FEATURE_MPU = false -> same_walk (cpu s) e' -> same_map io_word s (set_cpu e' s).
Proof. intros HM Hw. split; [|by split]. intros idx va acc. by apply get_phys_addr_same. Qed.

(** C31: On a processor with an MMU (one without a protection unit, before
    and after the write), a write to any system register but the table bases
    in c2 leaves the TLB coherent with the translation that the new registers
    define: it flushes the TLB, or it writes a register that no translation
    depends on. A write to c2 leaves the entries as they were: dropping those
    of the old tables is left to the guest. *)
Theorem cp15_write_coherent insn val (s : mmu_state (W := W)) e' effs :
  env_ok s -> coherent io_word s -> set_cp15 insn val (cpu s) = Ok (e', effs) ->
  mmu_wf e' -> arm_feature e' ARM_FEATURE_MPU = false ->
  if cp_crn insn =? 2 then tlb_table (cp15_apply e' effs s) = tlb_table s
  else env_ok (cp15_apply e' effs s) /\ coherent io_word (cp15_apply e' effs s).
Proof.
  intros He Hc Hs Hwf HM. destruct (Z.eqb_spec (cp_crn insn) 2) as [H2|Hn].
  { unfold cp15_apply. cbn zeta. case_decide as Hf; [|done]. exfalso. revert Hs. unfold set_cp15. cbn zeta. rewrite H2. cbn [Z.eqb Pos.eqb].
    unfold set_c2, wr, bad_reg. repeat match goal with |- context [if ?b then _ else _] => destruct b end; intros Hs; simplify_eq; by apply not_elem_of_nil in Hf. }
  unfold cp15_apply. cbn zeta.
  assert (He' : env_ok (set_cpu e' s)) by (destruct He as (_ & _ & H); exact (conj Hwf (conj HM H))).
  destruct He as (_ & HM0 & _). case_decide as Hf.
  - split; [exact He'|apply flush_coherent].
  - split; [exact He'|]. destruct (set_cp15_walk insn val (cpu s) e' effs Hs) as [?|[?|Hw]]; [done|done|].
    exact (coherent_map io_word s _ (set_cpu_map e' s HM0 Hw) eq_refl eq_refl Hc).
Qed.

End Flush.

(** ** Reading back *)

(** The plain registers of a processor with an MMU: the instructions whose
    read gives the last value written. *)
Definition rw_reg (insn : Z) : bool :=
  let crn := cp_crn insn in let op2 := cp_op2 insn in
  (crn =? 1) && (op2 =? 0) || (crn =? 2) && (op2 <? 2) || (crn =? 3) || (crn =? 5) && (op2 <? 2)
  || (crn =? 6) && (op2 =? 0) || (crn =? 9) && (cp_op1 insn =? 0) && (cp_crm insn =? 0) && (op2 <? 2)
  || (crn =? 13) && (op2 <? 5).

(** On a processor with an MMU, a plain system register reads back the
    value written last, and neither the write nor the read stops the emulator. *)
Theorem cp15_read_back insn val e :
  arm_feature e ARM_FEATURE_MPU = false -> arm_feature e ARM_FEATURE_XSCALE = false ->
  arm_feature e ARM_FEATURE_OMAPCP = false -> rw_reg insn = true ->
  exists e' effs, set_cp15 insn val e = Ok (e', effs) /\ get_cp15 insn e' = Ok (val, e').
Proof.
  intros HM HX HO Hr. unfold set_cp15, get_cp15. cbn zeta.
  assert (Hop : 0 <= cp_op2 insn) by (unfold cp_op2; apply Z.land_nonneg; lia).
  assert (Hfeat : forall f v n, f <> features -> arm_feature (setf f v e) n = arm_feature e n).
  { intros f v n Hf. unfold arm_feature. cbn. by rewrite decide_False. }
  unfold rw_reg in Hr. cbn zeta in Hr. rewrite !orb_true_iff, !andb_true_iff, !Z.eqb_eq, !Z.ltb_lt in Hr.
  set (op2 := cp_op2 insn) in *.
  assert (op2 = 0 \/ op2 = 1 \/ op2 = 2 \/ op2 = 3 \/ op2 = 4 \/ 5 <= op2) as Hc by lia.
  repeat (destruct Hr as [Hr|Hr]); destruct_and?; repeat match goal with H : cp_crn insn = _ |- _ => rewrite H end;
    cbn [Z.eqb Pos.eqb]; repeat match goal with H : cp_op1 insn = _ |- _ => rewrite H end;
    repeat match goal with H : cp_crm insn = _ |- _ => rewrite H end.
  all: unfold set_c1, set_c2, set_c5, set_c6, set_c9, set_c13, get_c1, get_c2, get_c5, get_c6, get_c9, get_c13, wr, rd;
    rewrite ?HM, ?HX, ?HO; cbn zeta.
  all: repeat (destruct Hc as [->|Hc]); try lia; cbn [Z.eqb Pos.eqb negb orb andb];
    (eexists _, _; split; [reflexivity|]); rewrite ?Hfeat by done; rewrite ?HM, ?HX, ?HO; cbn; try done.
Qed.

(** Domain access control: [mcr p15, 0, r0, c3, c0, 0]. *)
Definition mcr_c3 : Z := 0xee030f10.

Lemma cp15_write_coherent_witness :
  exists e' effs, set_cp15 mcr_c3 0x55555555 (cpu (sample_mmu true)) = Ok (e', effs) /\
    env_ok (cp15_apply e' effs (sample_mmu true)) /\ coherent (fun _ _ => 0) (cp15_apply e' effs (sample_mmu true)).
Proof.
  eexists _, _. split; [vm_compute; reflexivity|].
  apply (cp15_write_coherent (fun _ _ => 0) mcr_c3 0x55555555); [apply sample_env|apply sample_coherent|vm_compute; reflexivity|
    split; [|split]; done|reflexivity].
Defined.

Lemma cp15_read_back_witness :
  exists e' effs, set_cp15 mcr_c3 0x55555555 sample_walk = Ok (e', effs) /\ get_cp15 mcr_c3 e' = Ok (0x55555555, e').
Proof. exact (cp15_read_back mcr_c3 0x55555555 sample_walk eq_refl eq_refl eq_refl eq_refl). Defined.

(** The instruction permissions of a protection unit cannot be read back:
    the read gives the data permissions. *)
Lemma cp15_insn_permissions insn val e :
  arm_feature e ARM_FEATURE_MPU = true -> arm_feature e ARM_FEATURE_OMAPCP = false ->
  cp_crn insn = 5 -> cp_op2 insn = 1 ->
  exists e', set_cp15 insn val e = Ok (e', []) /\ fld e' c5_insn = extended_mpu_ap_bits val /\
    get_cp15 insn e' = Ok (simple_mpu_ap_bits (fld e c5_data), e').
Proof.
  intros HM HO Hn Ho. unfold set_cp15, get_cp15. cbn zeta. rewrite Hn, Ho. cbn [Z.eqb Pos.eqb].
  unfold set_c5, get_c5, wr, rd. rewrite HM, HO. cbn zeta. cbn [Z.eqb Pos.eqb].
  eexists. split; [reflexivity|]. split; [done|].
  assert (forall n, arm_feature (setf c5_insn (extended_mpu_ap_bits val) e) n = arm_feature e n) as Hf by done.
  by rewrite !Hf, HM, HO.
Qed.
