(* ===== verification/ArmSave.v ===== *)
(** * Reset and snapshots of the ARM processor

    [cpu_reset] and the models of [target-arm/helper.c], and [cpu_save] and
    [cpu_load] of [target-arm/machine.c] over the files of [Savevm]. *)
From stdpp Require Import strings.
From S2P Require Import Prelude Savevm ArmCpu GuestMem ArmMmu SoftMmu ArmCp15.
From stdpp Require Import list sets.
#[local] Open Scope Z_scope.

(** ** Models *)

Definition ARM_CPUID_ARM926 : Z := 0x41069265.
Definition ARM_CPUID_ARM946 : Z := 0x41059461.
Definition ARM_CPUID_PXA250 : Z := 0x69052100.
Definition ARM_CPUID_PXA255 : Z := 0x69052d00.
Definition ARM_CPUID_PXA260 : Z := 0x69052903.
Definition ARM_CPUID_PXA261 : Z := 0x69052d05.
Definition ARM_CPUID_PXA262 : Z := 0x69052d06.
Definition ARM_CPUID_PXA270 : Z := 0x69054110.
Definition ARM_CPUID_PXA270_A0 : Z := 0x69054110.
Definition ARM_CPUID_PXA270_A1 : Z := 0x69054111.
Definition ARM_CPUID_PXA270_B0 : Z := 0x69054112.
Definition ARM_CPUID_PXA270_B1 : Z := 0x69054113.
Definition ARM_CPUID_PXA270_C0 : Z := 0x69054114.
Definition ARM_CPUID_PXA270_C5 : Z := 0x69054117.
Definition ARM_CPUID_CORTEXM3 : Z := 0x410fc231.
Definition ARM_CPUID_ANY : Z := 0xffffffff.

Definition arm_cpu_names : list (Z * string) :=
  [(ARM_CPUID_ARM926, "arm926"); (ARM_CPUID_ARM946, "arm946"); (ARM_CPUID_ARM1026, "arm1026");
   (ARM_CPUID_ARM1136, "arm1136"); (ARM_CPUID_ARM1136_R2, "arm1136-r2");
   (ARM_CPUID_ARM11MPCORE, "arm11mpcore"); (ARM_CPUID_CORTEXM3, "cortex-m3");
   (ARM_CPUID_CORTEXA8, "cortex-a8"); (ARM_CPUID_TI925T, "ti925t"); (ARM_CPUID_PXA250, "pxa250");
   (ARM_CPUID_PXA255, "pxa255"); (ARM_CPUID_PXA260, "pxa260"); (ARM_CPUID_PXA261, "pxa261");
   (ARM_CPUID_PXA262, "pxa262"); (ARM_CPUID_PXA270, "pxa270"); (ARM_CPUID_PXA270_A0, "pxa270-a0");
   (ARM_CPUID_PXA270_A1, "pxa270-a1"); (ARM_CPUID_PXA270_B0, "pxa270-b0"); (ARM_CPUID_PXA270_B1, "pxa270-b1");
   (ARM_CPUID_PXA270_C0, "pxa270-c0"); (ARM_CPUID_PXA270_C5, "pxa270-c5"); (ARM_CPUID_ANY, "any")]%string.

(** 0 when the name is not in the table. *)
Fixpoint find_name (names : list (Z * string)) (name : string) : Z :=
  match names with
  | [] => 0
  | (id, n) :: rest => if decide (n = name) then id else find_name rest name
  end.
Definition cpu_arm_find_by_name (name : string) : Z := find_name arm_cpu_names name.

Definition cortexa8_cp15_c0_c1 : list Z := [0x1031; 0x11; 0x400; 0; 0x31100003; 0x20000000; 0x01202000; 0x11].
Definition cortexa8_cp15_c0_c2 : list Z := [0x00101111; 0x12112111; 0x21232031; 0x11112131; 0x00111142; 0; 0; 0].
Definition mpcore_cp15_c0_c1 : list Z := [0x111; 0x1; 0; 0x2; 0x01100103; 0x10020302; 0x01222000; 0].
Definition mpcore_cp15_c0_c2 : list Z := [0x00100011; 0x12002111; 0x11221011; 0x01102131; 0x141; 0; 0; 0].
Definition arm1136_cp15_c0_c1 : list Z := [0x111; 0x1; 0x2; 0x3; 0x01130003; 0x10030302; 0x01222110; 0].
Definition arm1136_cp15_c0_c2 : list Z := [0x00140011; 0x12002111; 0x11231111; 0x01102131; 0x141; 0; 0; 0].

Definition ARM_VFP_FPSID : nat := 0.
Definition ARM_VFP_MVFR1 : nat := 6.
Definition ARM_VFP_MVFR0 : nat := 7.
Definition ARM_VFP_FPEXC : nat := 8.
Definition ARM_IWMMXT_wCID : nat := 0.

Definition set_features (l : list Z) (e : CPUARMState) : CPUARMState := fold_left (fun e f => set_feature f e) l e.

Definition cpu_reset_model_id (id : Z) (e : CPUARMState) : res CPUARMState :=
  let e := setf c0_cpuid id e in
  if id =? ARM_CPUID_ARM926 then
    Ok (setf c1_sys 0x00090078 (setf c0_cachetype 0x1dd20d2
          (sete vfp_xregs ARM_VFP_FPSID 0x41011090 (set_features [ARM_FEATURE_VFP] e))))
  else if id =? ARM_CPUID_ARM946 then
    Ok (setf c1_sys 0x00000078 (setf c0_cachetype 0x0f004006 (set_features [ARM_FEATURE_MPU] e)))
  else if id =? ARM_CPUID_ARM1026 then
    Ok (setf c1_sys 0x00090078 (setf c0_cachetype 0x1dd20d2
          (sete vfp_xregs ARM_VFP_FPSID 0x410110a0 (set_features [ARM_FEATURE_VFP; ARM_FEATURE_AUXCR] e))))
  else if (id =? ARM_CPUID_ARM1136_R2) || (id =? ARM_CPUID_ARM1136) then
    let e := set_features [ARM_FEATURE_V6; ARM_FEATURE_VFP; ARM_FEATURE_AUXCR] e in
    let e := sete vfp_xregs ARM_VFP_FPSID 0x410120b4 e in
    let e := sete vfp_xregs ARM_VFP_MVFR0 0x11111111 e in
    let e := sete vfp_xregs ARM_VFP_MVFR1 0x00000000 e in
    Ok (setf c0_cachetype 0x1dd20d2 (seta c0_c2 arm1136_cp15_c0_c2 (seta c0_c1 arm1136_cp15_c0_c1 e)))
  else if id =? ARM_CPUID_ARM11MPCORE then
    let e := set_features [ARM_FEATURE_V6; ARM_FEATURE_V6K; ARM_FEATURE_VFP; ARM_FEATURE_AUXCR] e in
    let e := sete vfp_xregs ARM_VFP_FPSID 0x410120b4 e in
    let e := sete vfp_xregs ARM_VFP_MVFR0 0x11111111 e in
    let e := sete vfp_xregs ARM_VFP_MVFR1 0x00000000 e in
    Ok (setf c0_cachetype 0x1dd20d2 (seta c0_c2 mpcore_cp15_c0_c2 (seta c0_c1 mpcore_cp15_c0_c1 e)))
  else if id =? ARM_CPUID_CORTEXA8 then
    let e := set_features [ARM_FEATURE_V6; ARM_FEATURE_V6K; ARM_FEATURE_V7; ARM_FEATURE_AUXCR; ARM_FEATURE_THUMB2;
                           ARM_FEATURE_VFP; ARM_FEATURE_VFP3; ARM_FEATURE_NEON; ARM_FEATURE_THUMB2EE] e in
    let e := sete vfp_xregs ARM_VFP_FPSID 0x410330c0 e in
    let e := sete vfp_xregs ARM_VFP_MVFR0 0x11110222 e in
    let e := sete vfp_xregs ARM_VFP_MVFR1 0x00011100 e in
    let e := setf c0_cachetype 0x82048004 (seta c0_c2 cortexa8_cp15_c0_c2 (seta c0_c1 cortexa8_cp15_c0_c1 e)) in
    let e := setf c0_clid (Z.lor (Z.lor (bit32 27) (Z.shiftl 2 24)) 3) e in
    Ok (sete c0_ccsid 2 0xf0000000 (sete c0_ccsid 1 0x2007e01a (sete c0_ccsid 0 0xe007e01a e)))
  else if id =? ARM_CPUID_CORTEXM3 then
    Ok (set_features [ARM_FEATURE_V6; ARM_FEATURE_THUMB2; ARM_FEATURE_V7; ARM_FEATURE_M; ARM_FEATURE_DIV] e)
  else if id =? ARM_CPUID_ANY then
    Ok (set_features [ARM_FEATURE_V6; ARM_FEATURE_V6K; ARM_FEATURE_V7; ARM_FEATURE_THUMB2; ARM_FEATURE_VFP;
                      ARM_FEATURE_VFP3; ARM_FEATURE_NEON; ARM_FEATURE_THUMB2EE; ARM_FEATURE_DIV] e)
  else if (id =? ARM_CPUID_TI915T) || (id =? ARM_CPUID_TI925T) then
    Ok (setf c15_i_min 0xff0 (setf c15_i_max 0 (setf c1_sys 0x00000070 (setf c0_cachetype 0x5109149
          (setf c0_cpuid ARM_CPUID_TI925T (set_features [ARM_FEATURE_OMAPCP] e))))))
  else if (id =? ARM_CPUID_PXA250) || (id =? ARM_CPUID_PXA255) || (id =? ARM_CPUID_PXA260)
          || (id =? ARM_CPUID_PXA261) || (id =? ARM_CPUID_PXA262) then
    Ok (setf c1_sys 0x00000078 (setf c0_cachetype 0xd172172 (set_features [ARM_FEATURE_XSCALE] e)))
  else if (id =? ARM_CPUID_PXA270_A0) || (id =? ARM_CPUID_PXA270_A1) || (id =? ARM_CPUID_PXA270_B0)
          || (id =? ARM_CPUID_PXA270_B1) || (id =? ARM_CPUID_PXA270_C0) || (id =? ARM_CPUID_PXA270_C5) then
    Ok (setf c1_sys 0x00000078 (setf c0_cachetype 0xd172172
          (sete iwmmxt_cregs ARM_IWMMXT_wCID (Z.lor 0x69051000 0x51)
             (set_features [ARM_FEATURE_XSCALE; ARM_FEATURE_IWMMXT] e))))
  else Abort.

(** The members behind [breakpoints] keep their value. *)
Definition clear_cpu (e : CPUARMState) : CPUARMState :=
  mkCPU (fun f => match f with exception_index | cpu_index => fld e f | _ => 0 end)
        (fun a => repeat 0 (array_size a)).

(** The registers after a reset. *)
Definition cpu_reset (e : CPUARMState) : res CPUARMState :=
  let id := fld e c0_cpuid in
  let e := clear_cpu e in
  let! e := if ctrue id then cpu_reset_model_id id e else Ok e in
  let e := setf uncached_cpsr (Z.lor (Z.lor (Z.lor ARM_CPU_MODE_SVC CPSR_A) CPSR_F) CPSR_I) e in
  let e := if arm_feature e ARM_FEATURE_M then setf uncached_cpsr (andn (fld e uncached_cpsr) CPSR_I) e else e in
  let e := sete vfp_xregs ARM_VFP_FPEXC 0 e in
  let e := setf c2_base_mask 0xffffc000 e in
  Ok (sete regs 15 0 e).

(** The whole reset: the TLB is cleared with the registers and then flushed,
    the watchpoints are behind [breakpoints]. *)
Definition cpu_reset_mmu {W} (s : mmu_state (W := W)) : res (mmu_state (W := W)) :=
  let! e := cpu_reset (cpu s) in
  Ok (tlb_flush (mkState e (fun _ _ => mkTLB 0 0 0 0) (fun _ _ => 0) (pmem s) (dirt s) (watchpoints s) 0 (dev s))).

(** The state that [cpu_arm_init] resets: zero but for the model. *)
Definition cpu_arm_init (name : string) : res (option CPUARMState) :=
  let id := cpu_arm_find_by_name name in
  if id =? 0 then Ok None else
  let! e := cpu_reset (setf c0_cpuid id (mkCPU (fun _ => 0) (fun a => repeat 0 (array_size a)))) in
  Ok (Some e).

(** ** Snapshots *)

(** A member of the structure as the file has it. *)
Inductive member :=
| Mfld (f : cpu_field)
| Marr (a : cpu_array) (i : nat)         (* 32 bits *)
| Mdbl (a : cpu_array) (i : nat)         (* 64 bits, the upper half first *)
| Mcpsr.

#[global] Instance member_eq_dec : EqDecision member.
Proof. solve_decision. Defined.

Definition member_val (m : member) (e : CPUARMState) : Z :=
  match m with
  | Mfld f => fld e f
  | Marr a i | Mdbl a i => elt e a i
  | Mcpsr => cpsr_read e
  end.

Definition member_set (m : member) (v : Z) (e : CPUARMState) : res CPUARMState :=
  match m with
  | Mfld f => Ok (setf f v e)
  | Marr a i | Mdbl a i => Ok (sete a i v e)
  | Mcpsr => cpsr_write v 0xffffffff e
  end.

Definition put_member (f : QEMUFile) (m : member) (e : CPUARMState) : res QEMUFile :=
  match m with
  | Mdbl a i => qemu_put_be64 f (elt e a i)
  | _ => qemu_put_be32 f (member_val m e)
  end.

Definition get_member (f : QEMUFile) (m : member) (e : CPUARMState) : res (CPUARMState * QEMUFile) :=
  let! (v, f) := match m with Mdbl _ _ => qemu_get_be64 f | _ => qemu_get_be32 f end in
  let! e := member_set m v e in
  Ok (e, f).

Fixpoint put_members (f : QEMUFile) (ms : list member) (e : CPUARMState) : res QEMUFile :=
  match ms with
  | [] => Ok f
  | m :: ms => let! f := put_member f m e in put_members f ms e
  end.

Fixpoint get_members (f : QEMUFile) (ms : list member) (e : CPUARMState) : res (CPUARMState * QEMUFile) :=
  match ms with
  | [] => Ok (e, f)
  | m :: ms => let! (e, f) := get_member f m e in get_members f ms e
  end.

Definition each (n : nat) (l : nat -> list member) : list member := concat (map l (seq 0 n)).

Definition base_members : list member :=
  each 16 (fun i => [Marr regs i]) ++ [Mcpsr; Mfld spsr]
  ++ each 6 (fun i => [Marr banked_spsr i; Marr banked_r13 i; Marr banked_r14 i])
  ++ each 5 (fun i => [Marr usr_regs i; Marr fiq_regs i])
  ++ map Mfld [c0_cpuid; c0_cachetype; c1_sys; c1_coproc; c1_xscaleauxcr; c2_base0; c2_base1; c2_mask; c2_data;
               c2_insn; c3; c5_insn; c5_data]
  ++ each 8 (fun i => [Marr c6_region i])
  ++ map Mfld [c6_insn; c6_data; c9_insn; c9_data; c13_fcse; c13_context; c13_tls1; c13_tls2; c13_tls3; c15_cpar; features].

Definition vfp_members : list member :=
  each 16 (fun i => [Mdbl vfp_regs i]) ++ each 16 (fun i => [Marr vfp_xregs i]) ++ map Mfld [vec_len; vec_stride].

(** The registers 16 to 31: where [cpu_save] takes them from and where
    [cpu_load] puts them. *)
Definition vfp3_saved : list member := each 16 (fun i => [Mdbl vfp_regs (16 + i)]).
Definition vfp3_loaded : list member := each 16 (fun i => [Mdbl vfp_regs i]).

Definition iwmmxt_members : list member :=
  each 16 (fun i => [Mdbl iwmmxt_regs i]) ++ each 16 (fun i => [Marr iwmmxt_cregs i]).

Definition v7m_members : list member :=
  map Mfld [v7m_other_sp; v7m_vecbase; v7m_basepri; v7m_control; v7m_current_sp; v7m_exception].

(** The parts that depend on the features. *)
Definition optional (e : CPUARMState) (vfp3 : list member) : list member :=
  (if arm_feature e ARM_FEATURE_VFP then
     vfp_members ++ (if arm_feature e ARM_FEATURE_VFP3 then vfp3 else []) else [])
  ++ (if arm_feature e ARM_FEATURE_IWMMXT then iwmmxt_members else [])
  ++ (if arm_feature e ARM_FEATURE_M then v7m_members else []).

Definition cpu_save (f : QEMUFile) (e : CPUARMState) : res QEMUFile :=
  put_members f (base_members ++ optional e vfp3_saved) e.

Definition CPU_SAVE_VERSION : Z := 1.

Definition cpu_load (f : QEMUFile) (e : CPUARMState) (version_id : Z) : res (Z * CPUARMState * QEMUFile) :=
  if negb (version_id =? CPU_SAVE_VERSION) then Ok (-22, e, f) else
  let! (e, f) := get_members f base_members e in
  let! (e, f) := get_members f (optional e vfp3_loaded) e in
  Ok (0, e, f).

(** ** Writing a member and reading the others *)

(** Where a member lives; the status register is spread over the flags. *)
Definition slot (m : member) : cpu_field + cpu_array * nat :=
  match m with Mfld f => inl f | Marr a i | Mdbl a i => inr (a, i) | Mcpsr => inl uncached_cpsr end.

Definition flag_fields : list cpu_field := [VF; CF; NF; ZF; QF; thumb; condexec_bits; GE; uncached_cpsr].

Definition member_wf (m : member) : Prop :=
  match m with
  | Mfld f => f ∉ flag_fields
  | Marr a i | Mdbl a i => (i < array_size a)%nat
  | Mcpsr => True
  end.
#[global] Instance member_wf_dec m : Decision (member_wf m).
Proof. destruct m; simpl; apply _. Defined.

Definition member_range (e : CPUARMState) (m : member) : Prop :=
  match m with Mdbl a i => in_u64 (elt e a i) | _ => in_u32 (member_val m e) end.

Definition member_bytes (e : CPUARMState) (m : member) : list Z :=
  match m with Mdbl a i => be64 (elt e a i) | _ => be32 (member_val m e) end.

Definition cpu_wf (e : CPUARMState) : Prop := sizes_ok e /\ flags_wf e /\ cur_mode e ∈ modes.

Lemma flag_field_ne f g : f ∉ flag_fields -> g ∈ flag_fields -> g <> f.
Proof. set_solver. Qed.

Lemma cpsr_read_flags e e' : (forall f, f ∈ flag_fields -> fld e' f = fld e f) -> cpsr_read e' = cpsr_read e.
Proof. intros H. unfold cpsr_read. rewrite !H by in_list. done. Qed.

Lemma cpu_wf_flags e e' :
  sizes_ok e' -> (forall f, f ∈ flag_fields -> fld e' f = fld e f) -> cpu_wf e -> cpu_wf e'.
Proof.
  intros Hs H (_ & Hw & Hm). split; [done|]. unfold flags_wf, cur_mode in *.
  rewrite !H by in_list. done.
Qed.

(** The status register written without a change of mode. *)
Lemma cpsr_write_same_mode val e :
  cpu_wf e -> in_u32 val -> Z.land val CPSR_M = cur_mode e ->
  exists e', cpsr_write val all_ones e = Ok e' /\ cpu_wf e' /\ cpsr_read e' = val /\
    cur_mode e' = cur_mode e /\ arrs e' = arrs e /\ (forall f, f ∉ flag_fields -> fld e' f = fld e f).
Proof.
  intros (Hs & Hw & Hm) Hv Hmode.
  destruct (cpsr_write_ok val all_ones e Hs Hw Hm Hv all_ones_ok) as (e' & E & Hs' & Hw' & _ & Hr & Hc & _).
  { by rewrite Hmode. }
  exists e'. change (ctrue (Z.land all_ones CPSR_M)) with true in Hc. cbn iota in Hc.
  split; [done|]. split; [split; [done|]; split; [done|]; by rewrite Hc, Hmode|].
  split; [|split; [by rewrite Hc|]].
  { rewrite Hr. apply Z.bits_inj'. intros i Hi. rewrite masked_bits. destruct (Z.lt_ge_cases i 32).
    - replace (Z.testbit all_ones i) with true; [done|].
      symmetry. change all_ones with (Z.ones 32). apply Z.ones_spec_low. lia.
    - rewrite (testbit_bound 32 all_ones), (testbit_bound 32 val), (testbit_bound 32 (cpsr_read e)); try done.
      by apply cpsr_read_range. }
  change (cpsr_write val all_ones e) with
    (let e1 := write_flags val all_ones e in
     let! e := if ctrue (Z.land (Z.land (Z.lxor (fld e1 uncached_cpsr) val) all_ones) CPSR_M)
               then switch_mode (Z.land val CPSR_M) e1 else Ok e1 in
     Ok (setf uncached_cpsr (new_uncached val all_ones (fld e uncached_cpsr)) e)) in E.
  cbn zeta in E. rewrite write_flags_other in E by in_list.
  rewrite land_land_whole in E by apply all_ones_ok.
  change (ctrue (Z.land all_ones CPSR_M)) with true in E. cbn iota in E.
  unfold ctrue in E. rewrite lxor_land_zero in E. fold (cur_mode e) in E.
  rewrite Hmode, Z.eqb_refl in E. cbn [negb rbind] in E. injection E as <-. split.
  - rewrite <- (write_flags_arrs val all_ones e). done.
  - intros f Hf. cbn [fld setf]. unfold flag_fields in Hf. rewrite !not_elem_of_cons in Hf.
    rewrite decide_False by tauto. apply write_flags_other. rewrite !not_elem_of_cons. tauto.
Qed.

Lemma member_set_ok m v e :
  cpu_wf e -> member_wf m -> (m = Mcpsr -> in_u32 v /\ Z.land v CPSR_M = cur_mode e) ->
  exists e', member_set m v e = Ok e' /\ cpu_wf e' /\ cur_mode e' = cur_mode e /\ member_val m e' = v /\
    (forall m', member_wf m' -> slot m' <> slot m -> member_val m' e' = member_val m' e).
Proof.
  intros Hwf Hm Hv.
  assert (Harr : forall a i, (i < array_size a)%nat ->
    cpu_wf (sete a i v e) /\ elt (sete a i v e) a i = v /\
    (forall m', slot m' <> inr (a, i) -> member_val m' (sete a i v e) = member_val m' e)).
  { intros a i Hi. pose proof Hwf as (Hs & _). split; [|split].
    - apply (cpu_wf_flags e); [by apply sizes_sete|done|done].
    - by apply elt_sete_same.
    - intros [] Hne; simpl in *; [done|apply elt_sete_ne; congruence|apply elt_sete_ne; congruence|by apply cpsr_read_flags]. }
  destruct m as [f|a i|a i|]; simpl in *.
  - assert (Hf : forall g, g ∈ flag_fields -> fld (setf f v e) g = fld e g).
    { intros g Hg. cbn. by rewrite decide_False by eauto using flag_field_ne. }
    eexists. split; [done|]. split; [by apply (cpu_wf_flags e); [apply Hwf|..]|]. split.
    { unfold cur_mode. by rewrite (Hf uncached_cpsr) by in_list. }
    split; [cbn; by rewrite decide_True|].
    intros [g| | |] Hm' Hne; simpl in *; [|done|done|by apply cpsr_read_flags].
    rewrite decide_False; [done|]. by intros ->.
  - destruct (Harr a i Hm) as (H1 & H2 & H3). exists (sete a i v e). split_and!; try done. intros m' _. apply H3.
  - destruct (Harr a i Hm) as (H1 & H2 & H3). exists (sete a i v e). split_and!; try done. intros m' _. apply H3.
  - destruct (Hv eq_refl) as [Hr Hmode].
    destruct (cpsr_write_same_mode v e Hwf Hr Hmode) as (e' & E & Hwf' & Hc & Hcm & Ha & Hf).
    exists e'. split_and!; try done. intros [g|b j|b j|] Hm' Hne; simpl in *; [by apply Hf| | |done];
      unfold elt; by rewrite Ha.
Qed.

(** ** Copying members

    What a load does to the state [e]: each member [fst p] gets the value
    the saved state [e0] has for [snd p]. *)
Fixpoint assign (ps : list (member * member)) (e0 e : CPUARMState) : res CPUARMState :=
  match ps with
  | [] => Ok e
  | (d, s) :: ps => let! e := member_set d (member_val s e0) e in assign ps e0 e
  end.

(** The two members have the same width in the file. *)
Definition same_shape (p : member * member) : bool :=
  match p with
  | (Mdbl _ _, Mdbl _ _) => true
  | (Mdbl _ _, _) | (_, Mdbl _ _) => false
  | _ => true
  end.

Lemma assign_app ps qs e0 e :
  assign (ps ++ qs) e0 e = let! e := assign ps e0 e in assign qs e0 e.
Proof.
  revert e. induction ps as [|[d s] ps IH]; intros e; [done|]. cbn [app assign].
  destruct (member_set d (member_val s e0) e); simpl; [apply IH|done|done].
Qed.

(** Reading the members of a file that has the saved ones. *)
Lemma get_members_reading ps e0 e e' f rest :
  Forall (fun p => same_shape p = true /\ member_range e0 (snd p)) ps ->
  reading f (concat (map (member_bytes e0) (map snd ps)) ++ rest) ->
  assign ps e0 e = Ok e' ->
  exists f', get_members f (map fst ps) e = Ok (e', f') /\ reading f' rest.
Proof.
  revert e f. induction ps as [|[d s] ps IH]; intros e f Hps Hf Ha; [injection Ha as <-; by exists f|].
  apply Forall_cons_1 in Hps as [[Hsh Hr] Hps]. cbn [map snd fst concat] in *. rewrite <- app_assoc in Hf.
  assert (exists f1, reading f1 (concat (map (member_bytes e0) (map snd ps)) ++ rest) /\
            match d with Mdbl _ _ => qemu_get_be64 f | _ => qemu_get_be32 f end = Ok (member_val s e0, f1))
    as (f1 & Hf1 & E).
  { destruct d, s; try discriminate Hsh;
      first [destruct (get_be64_reading f _ _ Hr Hf) as (g & E & Hg); exists g; exact (conj Hg E)
            |destruct (get_be32_reading f _ _ Hr Hf) as (g & E & Hg); exists g; exact (conj Hg E)]. }
  cbn [get_members]. unfold get_member. rewrite E. cbn [rbind assign] in *.
  destruct (member_set d (member_val s e0) e) as [e1| |]; cbn [rbind] in *; [|done|done].
  by apply (IH e1 f1).
Qed.

Lemma put_members_writing ms e f data :
  writing f data ->
  exists f', put_members f ms e = Ok f' /\ writing f' (data ++ concat (map (member_bytes e) ms)).
Proof.
  revert f data. induction ms as [|m ms IH]; intros f data Hf.
  { exists f. split; [done|]. simpl. by rewrite app_nil_r. }
  assert (exists f1, put_member f m e = Ok f1 /\ writing f1 (data ++ member_bytes e m)) as (f1 & E & Hf1).
  { destruct m; first [apply put_be32_writing; exact Hf|apply put_be64_writing; exact Hf]. }
  cbn [put_members map concat]. rewrite E. cbn [rbind].
  destruct (IH f1 _ Hf1) as (f2 & E2 & H2). exists f2. split; [done|]. by rewrite app_assoc.
Qed.

Lemma get_members_app ms ms' f e :
  get_members f (ms ++ ms') e = let! (e, f) := get_members f ms e in get_members f ms' e.
Proof.
  revert f e. induction ms as [|m ms IH]; intros f e; [done|]. cbn [app get_members].
  destruct (get_member f m e) as [[e1 f1]| |]; cbn [rbind]; [apply IH|done|done].
Qed.

(** ** Loading a state *)

(** What a copy needs but for the values, and the values. *)
Definition pair_ok (p : member * member) : bool :=
  bool_decide (member_wf (fst p)) && same_shape p && bool_decide (fst p = Mcpsr -> snd p = Mcpsr).

Definition copy_ok (e0 : CPUARMState) (p : member * member) : Prop :=
  pair_ok p = true /\ member_range e0 (snd p).

Abbreviation slots ps := (map (fun p => slot (fst p)) ps).

Lemma assign_step d s ps e0 e :
  cpu_wf e0 -> cpu_wf e -> (Mcpsr ∈ map fst ((d, s) :: ps) -> cur_mode e = cur_mode e0) -> copy_ok e0 (d, s) ->
  exists e1, member_set d (member_val s e0) e = Ok e1 /\ cpu_wf e1 /\ cur_mode e1 = cur_mode e /\
    member_val d e1 = member_val s e0 /\
    (forall m', member_wf m' -> slot m' <> slot d -> member_val m' e1 = member_val m' e).
Proof.
  intros H0 He Hc [Hp Hr]. unfold pair_ok in Hp. cbn [fst snd] in *.
  apply andb_true_iff in Hp as [[Hd%bool_decide_eq_true_1 _]%andb_true_iff Hcp%bool_decide_eq_true_1].
  apply member_set_ok; [done..|]. intros ->. rewrite (Hcp eq_refl) in *. split; [exact Hr|].
  rewrite Hc by (cbn [map fst]; apply list_elem_of_here). apply cpsr_mode, H0.
Qed.

Lemma assign_ok ps e0 e :
  cpu_wf e0 -> cpu_wf e -> (Mcpsr ∈ map fst ps -> cur_mode e = cur_mode e0) -> Forall (copy_ok e0) ps ->
  exists e', assign ps e0 e = Ok e' /\ cpu_wf e' /\ cur_mode e' = cur_mode e /\
    (forall m, member_wf m -> slot m ∉ slots ps -> member_val m e' = member_val m e).
Proof.
  intros H0 He Hc Hps. revert e He Hc.
  induction ps as [|[d s] ps IH]; intros e He Hc; [by exists e|].
  apply Forall_cons_1 in Hps as [Hp Hps].
  destruct (assign_step d s ps e0 e H0 He Hc Hp) as (e1 & E & H1 & Hc1 & _ & Hk).
  destruct (IH Hps e1 H1) as (e' & E' & H' & Hc' & Hk').
  { intros Hin. rewrite Hc1. apply Hc. cbn [map fst]. by apply list_elem_of_further. }
  exists e'. cbn [assign]. rewrite E. split; [done|]. split; [done|]. split; [congruence|].
  intros m Hm Hn. cbn [map fst] in Hn. apply not_elem_of_cons in Hn as [N1 N2].
  rewrite Hk' by done. by apply Hk.
Qed.

(** The last copy to a member is the one that counts. *)
Lemma assign_last ps d s qs e0 e e' :
  cpu_wf e0 -> cpu_wf e -> (Mcpsr ∈ map fst (ps ++ (d, s) :: qs) -> cur_mode e = cur_mode e0) ->
  Forall (copy_ok e0) (ps ++ (d, s) :: qs) -> slot d ∉ slots qs ->
  assign (ps ++ (d, s) :: qs) e0 e = Ok e' -> member_val d e' = member_val s e0.
Proof.
  intros H0 He Hc Hps Hn. apply Forall_app in Hps as [Hp Hq]. apply Forall_cons_1 in Hq as [Hd Hq].
  rewrite map_app in Hc. setoid_rewrite elem_of_app in Hc. rewrite assign_app.
  destruct (assign_ok ps e0 e H0 He ltac:(tauto) Hp) as (e1 & -> & H1 & Hc1 & _). cbn [rbind assign].
  destruct (assign_step d s qs e0 e1 H0 H1) as (e2 & -> & H2 & Hc2 & Hv & _); [rewrite Hc1; tauto|done|].
  cbn [rbind]. cbn [map fst] in Hc. setoid_rewrite elem_of_cons in Hc.
  destruct (assign_ok qs e0 e2 H0 H2) as (e3 & -> & _ & _ & Hk); [rewrite Hc2, Hc1; tauto|done|].
  intros [= <-]. rewrite Hk; [done| |done]. destruct Hd as [Hd _]. unfold pair_ok in Hd.
  apply andb_true_iff in Hd as [[Hd _]%andb_true_iff _]. by apply bool_decide_eq_true_1 in Hd.
Qed.

Abbreviation itself m := (m, m).

(** Copies of distinct members to themselves. *)
Lemma assign_distinct ms e0 e e' m :
  cpu_wf e0 -> cpu_wf e -> (Mcpsr ∈ map fst (map (fun m => itself m) ms) -> cur_mode e = cur_mode e0) ->
  Forall (copy_ok e0) (map (fun m => itself m) ms) -> NoDup (map slot ms) ->
  assign (map (fun m => itself m) ms) e0 e = Ok e' -> m ∈ ms -> member_val m e' = member_val m e0.
Proof.
  intros H0 He Hc Hok Hnd Ha Hin. apply list_elem_of_split in Hin as (l1 & l2 & ->).
  rewrite map_app in Ha, Hc, Hok, Hnd. cbn [map] in Ha, Hc, Hok, Hnd.
  apply (assign_last _ _ _ _ _ _ _ H0 He Hc Hok) in Ha; [done|].
  apply NoDup_app in Hnd as (_ & _ & [Hn _]%NoDup_cons). rewrite map_map. exact Hn.
Qed.

(** ** The layout of the file *)

Definition base_pairs : list (member * member) := map (fun m => itself m) base_members.
Definition optional_pairs (e : CPUARMState) : list (member * member) :=
  zip (optional e vfp3_loaded) (optional e vfp3_saved).

(** The members that [cpu_save] writes have the width of their place. *)
Definition saved_members (e : CPUARMState) : list member := base_members ++ optional e vfp3_saved.
Definition saved_ok (e : CPUARMState) : Prop := Forall (member_range e) (saved_members e).

Ltac by_features :=
  intros; unfold optional_pairs, optional;
  repeat match goal with |- context [arm_feature ?e ?f] => destruct (arm_feature e f) end; vm_compute; reflexivity.

Lemma base_pairs_ok : forallb pair_ok base_pairs = true.
Proof. vm_compute. reflexivity. Qed.
Lemma optional_pairs_ok e : forallb pair_ok (optional_pairs e) = true.
Proof. by_features. Qed.
Lemma optional_pairs_fst e : map fst (optional_pairs e) = optional e vfp3_loaded.
Proof. by_features. Qed.
Lemma optional_pairs_snd e : map snd (optional_pairs e) = optional e vfp3_saved.
Proof. by_features. Qed.
Lemma optional_no_cpsr e : forallb (fun p => negb (bool_decide (fst p = Mcpsr))) (optional_pairs e) = true.
Proof. by_features. Qed.

(** Nothing that the features add is among the base members. *)
Lemma optional_slots e :
  forallb (fun p => negb (bool_decide (slot (fst p) ∈ map slot base_members))) (optional_pairs e) = true.
Proof. by_features. Qed.

Lemma distinct_members e :
  arm_feature e ARM_FEATURE_VFP3 = false -> bool_decide (NoDup (map slot (saved_members e))) = true.
Proof. intros H. unfold saved_members, optional. rewrite H. by_features. Qed.

Lemma pairs_copy_ok e0 ps :
  forallb pair_ok ps = true -> Forall (member_range e0) (map snd ps) -> Forall (copy_ok e0) ps.
Proof.
  intros Hp Hr. rewrite forallb_forall in Hp. rewrite Forall_map, Forall_forall in Hr.
  apply Forall_forall. intros p Hin. split; [|by apply Hr]. by apply Hp, list_elem_of_In.
Qed.

Lemma base_pairs_snd : map snd base_pairs = base_members.
Proof. vm_compute. reflexivity. Qed.

Lemma saved_copy_ok e0 : saved_ok e0 -> Forall (copy_ok e0) base_pairs /\ Forall (copy_ok e0) (optional_pairs e0).
Proof.
  intros [Hb Ho]%Forall_app. split; apply pairs_copy_ok.
  - apply base_pairs_ok. - by rewrite base_pairs_snd.
  - apply optional_pairs_ok. - by rewrite optional_pairs_snd.
Qed.

Lemma copy_ok_shape e0 ps :
  Forall (copy_ok e0) ps -> Forall (fun p => same_shape p = true /\ member_range e0 (snd p)) ps.
Proof.
  intros H. eapply Forall_impl; [exact H|]. intros p [Hp Hr]. split; [|done].
  unfold pair_ok in Hp. by apply andb_true_iff in Hp as [[_ Hp]%andb_true_iff _].
Qed.

Lemma no_cpsr_optional e : Mcpsr ∉ map fst (optional_pairs e).
Proof.
  pose proof (optional_no_cpsr e) as H. rewrite forallb_forall in H.
  intros (p & E & Hin%list_elem_of_In)%list_elem_of_fmap. specialize (H p Hin). cbn beta in H.
  by rewrite bool_decide_eq_true_2 in H.
Qed.

(** A load is the copies, one after the other. *)
Lemma save_load e0 e e1 e' :
  saved_ok e0 -> assign base_pairs e0 e = Ok e1 -> fld e1 features = fld e0 features ->
  assign (optional_pairs e0) e0 e1 = Ok e' ->
  exists f f', cpu_save qemu_fopen_wb e0 = Ok f /\ cpu_load (qemu_fopen_rb (qemu_fclose f)) e CPU_SAVE_VERSION = Ok (0, e', f').
Proof.
  intros Hok Hb Hf Ho. destruct (saved_copy_ok e0 Hok) as [Cb Co].
  destruct (put_members_writing (saved_members e0) e0 _ _ writing_open) as (f & E & Hw). exists f.
  pose proof (fclose_writing _ _ Hw) as ->. cbn [app].
  unfold saved_members. rewrite map_app, concat_app, <- base_pairs_snd, <- optional_pairs_snd.
  pose proof (reading_open (concat (map (member_bytes e0) (map snd base_pairs)) ++
                            (concat (map (member_bytes e0) (map snd (optional_pairs e0))) ++ []))) as Hr.
  rewrite (app_nil_r (concat (map _ (map _ (optional_pairs e0))))) in Hr at 1.
  destruct (get_members_reading _ _ _ _ _ _ (copy_ok_shape _ _ Cb) Hr Hb) as (f1 & E1 & Hr1).
  destruct (get_members_reading _ _ _ _ _ _ (copy_ok_shape _ _ Co) Hr1 Ho) as (f2 & E2 & _).
  exists f2. split; [exact E|]. unfold cpu_load. rewrite Z.eqb_refl. cbn [negb].
  replace base_members with (map fst base_pairs) by (vm_compute; reflexivity).
  rewrite E1. cbn [rbind]. replace (optional e1 vfp3_loaded) with (map fst (optional_pairs e0)); [by rewrite E2|].
  rewrite optional_pairs_fst. unfold optional, arm_feature. by rewrite Hf.
Qed.

(** ** The theorems *)

Lemma member_of_base m : bool_decide (m ∈ base_members) = true -> m ∈ base_members.
Proof. apply bool_decide_eq_true_1. Qed.

Lemma base_features : Mfld features ∈ base_members.
Proof. apply member_of_base. vm_compute. reflexivity. Qed.

Lemma base_distinct : NoDup (map slot base_members).
Proof. refine (bool_decide_eq_true_1 _ _). vm_compute. reflexivity. Qed.

(** The processor that [m] sees is determined by the saved members. *)
Lemma base_arch e e0 :
  (forall m, m ∈ base_members -> member_val m e = member_val m e0) -> cur_mode e = cur_mode e0 ->
  forall m r, m ∈ modes -> (r < 16)%nat ->
    arch_reg e m r = arch_reg e0 m r /\ arch_spsr e m = arch_spsr e0 m.
Proof.
  intros Hb Hc m r Hm Hr.
  assert (Harr : forall a i, bool_decide (Marr a i ∈ base_members) = true -> elt e a i = elt e0 a i).
  { intros a i Hin. by apply (Hb (Marr a i)), member_of_base. }
  assert (Hs : fld e spsr = fld e0 spsr) by (apply (Hb (Mfld spsr)), member_of_base; vm_compute; reflexivity).
  unfold arch_reg, arch_spsr. rewrite Hc, Hs.
  pose proof (bank_number_mode m Hm) as [_ Hbk].
  assert (Hbm : elt e banked_r13 (bank m) = elt e0 banked_r13 (bank m) /\
                elt e banked_r14 (bank m) = elt e0 banked_r14 (bank m) /\
                elt e banked_spsr (bank m) = elt e0 banked_spsr (bank m)).
  { revert Hbk. generalize (bank m). intros b Hbk.
    do 6 (destruct b; [split; [|split]; apply Harr; vm_compute; reflexivity|]). lia. }
  destruct Hbm as (-> & -> & ->). split; [|done].
  do 16 (destruct r; [cbn; rewrite ?Harr by (vm_compute; reflexivity); done|]). lia.
Qed.

#[global] Instance member_range_dec e m : Decision (member_range e m).
Proof. destruct m; simpl; apply _. Defined.
#[global] Instance flags_wf_dec e : Decision (flags_wf e).
Proof. unfold flags_wf. apply _. Defined.
#[global] Instance saved_ok_dec e : Decision (saved_ok e).
Proof. unfold saved_ok. apply _. Defined.

Definition cpu_models : list Z := 0 :: ARM_CPUID_TI915T :: map fst arm_cpu_names.

Definition sizes_check (e : CPUARMState) : bool :=
  forallb (fun a => bool_decide (length (arrs e a) = array_size a))
    [regs; banked_spsr; banked_r13; banked_r14; usr_regs; fiq_regs; c0_ccsid; c0_c1; c0_c2; c6_region;
     vfp_regs; vfp_xregs; iwmmxt_regs; iwmmxt_cregs].

Lemma sizes_computed e : sizes_check e = true -> sizes_ok e.
Proof.
  intros Hs a. unfold sizes_check in Hs. rewrite forallb_forall in Hs.
  apply (bool_decide_eq_true_1 (length (arrs e a) = array_size a)), Hs. apply list_elem_of_In. destruct a; in_list.
Qed.

(** What a reset state is: its shape, its mode, the interrupts it masks and
    the memory it sees. *)
Definition reset_ok (e : CPUARMState) : bool :=
  sizes_check e
  && bool_decide (flags_wf e) && bool_decide (saved_ok e) && (cur_mode e =? ARM_CPU_MODE_SVC)
  && (Z.land (fld e c1_sys) 1 =? 0) && (fld e c13_fcse =? 0) && (elt e regs 15 =? 0)
  && eqb (Z.testbit (cpsr_read e) 7) (negb (arm_feature e ARM_FEATURE_M)) && Z.testbit (cpsr_read e) 6.

Lemma cpu_reset_known e : fld e c0_cpuid ∈ cpu_models -> exists e', cpu_reset e = Ok e' /\ reset_ok e' = true.
Proof.
  unfold cpu_models, arm_cpu_names, cpu_reset. cbn [map fst]. intros H.
  repeat (apply elem_of_cons in H as [-> | H]; [eexists; split; [reflexivity|vm_compute; reflexivity]|]).
  by apply not_elem_of_nil in H.
Qed.

Lemma cpu_reset_unknown e : fld e c0_cpuid ∉ cpu_models -> cpu_reset e = Abort.
Proof.
  unfold cpu_models, arm_cpu_names, cpu_reset. cbn [map fst]. intros H. rewrite !not_elem_of_cons in H.
  destruct_and! H. unfold ctrue. rewrite (proj2 (Z.eqb_neq _ 0)) by done. cbn [negb]. unfold cpu_reset_model_id.
  repeat match goal with H : fld e c0_cpuid <> ?x |- _ =>
    rewrite (proj2 (Z.eqb_neq _ x) H); clear H end. done.
Qed.

(** C33: a reset is total on the models the emulator knows and stops the
    emulator on every other: whatever the processor was doing, the state it
    leaves is well formed, in supervisor mode at address 0 with fast
    interrupts masked and interrupts masked exactly on the models that are not
    microcontrollers, every member that a snapshot holds is in its width, the
    TLB agrees with the translation, and memory is seen untranslated. *)
Theorem cpu_reset_type {W} (io_word : Z -> Z -> Z) (s : mmu_state (W := W)) :
  (fld (cpu s) c0_cpuid ∈ cpu_models /\
   exists s', cpu_reset_mmu s = Ok s' /\ coherent io_word s' /\ pmem s' = pmem s /\
     let e' := cpu s' in
     cpu_wf e' /\ saved_ok e' /\ cur_mode e' = ARM_CPU_MODE_SVC /\ elt e' regs 15 = 0 /\
     Z.testbit (cpsr_read e') 6 = true /\ Z.testbit (cpsr_read e') 7 = negb (arm_feature e' ARM_FEATURE_M) /\
     forall ldl_phys a acc user, in_u32 a ->
       get_phys_addr ldl_phys e' a acc user = Ok (Mapped a (Z.lor PAGE_READ PAGE_WRITE))) \/
  (fld (cpu s) c0_cpuid ∉ cpu_models /\ cpu_reset_mmu s = Abort).
Proof.
  unfold cpu_reset_mmu. destruct (decide (fld (cpu s) c0_cpuid ∈ cpu_models)) as [H|H];
    [left|right; split; [done|by rewrite cpu_reset_unknown]].
  split; [done|]. destruct (cpu_reset_known (cpu s) H) as (e' & -> & Hok). cbn [rbind].
  eexists. split; [reflexivity|]. split; [apply flush_coherent|]. split; [reflexivity|].
  cbn [cpu tlb_flush set_tlb]. unfold reset_ok in Hok. rewrite !andb_true_iff in Hok.
  destruct Hok as ((((((((Hs & Hf) & Hsv) & Hm) & Hc1) & Hfc) & Hpc) & HI) & HF).
  apply bool_decide_eq_true_1 in Hf, Hsv. apply Z.eqb_eq in Hm, Hfc, Hpc. apply eqb_prop in HI.
  apply sizes_computed in Hs.
  split; [split; [done|]; split; [done|]; rewrite Hm; in_list|]. split_and!; try done.
  intros ldl a acc user Ha. unfold get_phys_addr. rewrite Hc1, Hfc, Z.add_0_r.
  rewrite uwrap_small by (simpl; lia). by destruct (a <? 0x02000000).
Qed.

(** The load of a processor that is in the mode of the saved one. *)
Lemma load_same_mode e0 e :
  cpu_wf e0 -> saved_ok e0 -> cpu_wf e -> cur_mode e = cur_mode e0 ->
  exists e1 e' f f', assign base_pairs e0 e = Ok e1 /\ assign (optional_pairs e0) e0 e1 = Ok e' /\
    cpu_save qemu_fopen_wb e0 = Ok f /\
    cpu_load (qemu_fopen_rb (qemu_fclose f)) e CPU_SAVE_VERSION = Ok (0, e', f') /\
    cpu_wf e1 /\ cur_mode e1 = cur_mode e0 /\ cpu_wf e' /\ cur_mode e' = cur_mode e0.
Proof.
  intros H0 Hok He Hc. destruct (saved_copy_ok e0 Hok) as [Cb Co].
  destruct (assign_ok base_pairs e0 e H0 He (fun _ => Hc) Cb) as (e1 & E1 & H1 & Hc1 & _).
  destruct (assign_ok (optional_pairs e0) e0 e1 H0 H1) as (e' & E' & H' & Hc' & _);
    [intros []%no_cpsr_optional|exact Co|].
  assert (Hf : fld e1 features = fld e0 features).
  { refine (assign_distinct base_members e0 e e1 (Mfld features) H0 He _ Cb base_distinct E1 base_features).
    intros _; exact Hc. }
  destruct (save_load e0 e e1 e' Hok E1 Hf E') as (f & f' & Es & El).
  rewrite Hc in Hc1. rewrite Hc1 in Hc'.
  exists e1, e', f, f'. exact (conj E1 (conj E' (conj Es (conj El (conj H1 (conj Hc1 (conj H' Hc'))))))).
Qed.

(** C32: a snapshot of the processor restores it: on a processor without the
    third VFP version (where [cpu_load] puts the upper registers over the
    lower ones), saving a well-formed state and loading
    it into a processor in the same mode succeeds and gives every member of
    the file, the status register, and every register of every mode back. *)
Theorem cpu_snapshot_round_trip (e0 e : CPUARMState) :
  cpu_wf e0 -> saved_ok e0 -> cpu_wf e -> cur_mode e = cur_mode e0 ->
  arm_feature e0 ARM_FEATURE_VFP3 = false ->
  exists f f' e', cpu_save qemu_fopen_wb e0 = Ok f /\
    cpu_load (qemu_fopen_rb (qemu_fclose f)) e CPU_SAVE_VERSION = Ok (0, e', f') /\ cpu_wf e' /\
    (forall m, m ∈ saved_members e0 -> member_val m e' = member_val m e0) /\
    (forall m r, m ∈ modes -> (r < 16)%nat ->
       arch_reg e' m r = arch_reg e0 m r /\ arch_spsr e' m = arch_spsr e0 m) /\
    cpsr_read e' = cpsr_read e0.
Proof.
  intros H0 Hok He Hc Hv. destruct (load_same_mode e0 e H0 Hok He Hc) as (e1 & e' & f & f' & E1 & E' & Es & El & _ & _ & H' & Hc').
  destruct (saved_copy_ok e0 Hok) as [Cb Co].
  assert (Hp : base_pairs ++ optional_pairs e0 = map (fun m => itself m) (saved_members e0)).
  { unfold saved_members, optional_pairs, optional. rewrite Hv. by_features. }
  assert (Hall : forall m, m ∈ saved_members e0 -> member_val m e' = member_val m e0).
  { intros m. apply (assign_distinct _ e0 e); [exact H0|exact He|intros _; exact Hc|rewrite <- Hp; exact (proj2 (Forall_app _ _ _) (conj Cb Co))| |].
    - exact (bool_decide_eq_true_1 _ (distinct_members e0 Hv)).
    - rewrite <- Hp, assign_app, E1. exact E'. }
  assert (Hbase : forall m, m ∈ base_members -> member_val m e' = member_val m e0).
  { intros m Hm. apply Hall, elem_of_app. by left. }
  exists f, f', e'. split; [exact Es|]. split; [exact El|]. split; [exact H'|]. split; [exact Hall|].
  split; [exact (base_arch e' e0 Hbase Hc')|]. apply (Hbase Mcpsr), member_of_base. vm_compute. reflexivity.
Qed.

(** A copy that no later copy of the features' part overwrites. *)
Lemma optional_last e0 e1 e' k d s :
  cpu_wf e0 -> cpu_wf e1 -> Forall (copy_ok e0) (optional_pairs e0) ->
  assign (optional_pairs e0) e0 e1 = Ok e' -> optional_pairs e0 !! k = Some (d, s) ->
  bool_decide (slot d ∉ slots (drop (S k) (optional_pairs e0))) = true -> member_val d e' = member_val s e0.
Proof.
  intros H0 H1 Hok Ha Hk Hn%bool_decide_eq_true_1. pose proof (no_cpsr_optional e0) as Hc.
  rewrite <- (take_drop_middle _ _ _ Hk) in Ha, Hok, Hc.
  refine (assign_last _ _ _ _ _ _ _ H0 H1 (fun H => False_ind _ (Hc H)) Hok Hn Ha).
Qed.

Lemma vfp3_pair e i :
  arm_feature e ARM_FEATURE_VFP = true -> arm_feature e ARM_FEATURE_VFP3 = true -> (i < 16)%nat ->
  optional_pairs e !! (34 + i)%nat = Some (Mdbl vfp_regs i, Mdbl vfp_regs (16 + i)) /\
  bool_decide (slot (Mdbl vfp_regs i) ∉ slots (drop (S (34 + i)) (optional_pairs e))) = true /\
  bool_decide (slot (Mdbl vfp_regs (16 + i)) ∉ slots base_pairs ++ slots (optional_pairs e)) = true.
Proof.
  intros H1 H2 Hi. unfold optional_pairs, optional. rewrite H1, H2.
  destruct (arm_feature e ARM_FEATURE_IWMMXT), (arm_feature e ARM_FEATURE_M);
    do 16 (destruct i as [|i]; [vm_compute; split; [|split]; reflexivity|]); lia.
Qed.

(** The snapshot of a processor with 32 VFP registers restores it wrong:
    [cpu_load] puts the registers 16 to 31 of the saved processor in 0 to 15,
    over the values it has just read for them, and leaves 16 to 31 as they
    were before the load. *)
Theorem cpu_load_vfp3_misplaced (e0 e : CPUARMState) (i : nat) :
  cpu_wf e0 -> saved_ok e0 -> cpu_wf e -> cur_mode e = cur_mode e0 ->
  arm_feature e0 ARM_FEATURE_VFP = true -> arm_feature e0 ARM_FEATURE_VFP3 = true -> (i < 16)%nat ->
  exists f f' e', cpu_save qemu_fopen_wb e0 = Ok f /\
    cpu_load (qemu_fopen_rb (qemu_fclose f)) e CPU_SAVE_VERSION = Ok (0, e', f') /\
    elt e' vfp_regs i = elt e0 vfp_regs (16 + i) /\ elt e' vfp_regs (16 + i) = elt e vfp_regs (16 + i).
Proof.
  intros H0 Hok He Hc Hv Hv3 Hi.
  destruct (load_same_mode e0 e H0 Hok He Hc) as (e1 & e' & f & f' & E1 & E' & Es & El & H1 & Hc1 & _).
  destruct (saved_copy_ok e0 Hok) as [Cb Co]. destruct (vfp3_pair e0 i Hv Hv3 Hi) as (Hk & Hl & Hn%bool_decide_eq_true_1).
  rewrite elem_of_app in Hn. exists f, f', e'. split; [exact Es|]. split; [exact El|]. split.
  - exact (optional_last e0 e1 e' _ _ _ H0 H1 Co E' Hk Hl).
  - assert (Hw : member_wf (Mdbl vfp_regs (16 + i))) by (cbn; lia).
    destruct (assign_ok base_pairs e0 e H0 He (fun _ => Hc) Cb) as (e2 & E2 & _ & _ & K1).
    destruct (assign_ok (optional_pairs e0) e0 e1 H0 H1 (fun H => False_ind _ (no_cpsr_optional e0 H)) Co)
      as (e3 & E3 & _ & _ & K2).
    rewrite E1 in E2. injection E2 as <-. rewrite E' in E3. injection E3 as <-.
    etransitivity; [exact (K2 _ Hw (fun H => Hn (or_intror H)))|exact (K1 _ Hw (fun H => Hn (or_introl H)))].
Qed.

(** ** A load in another mode *)

Definition before_cpsr : list member := each 16 (fun i => [Marr regs i]).
Definition after_cpsr : list member := drop 17 base_members.

Lemma base_split : base_pairs = map (fun m => itself m) before_cpsr ++ itself Mcpsr :: map (fun m => itself m) after_cpsr.
Proof. vm_compute. reflexivity. Qed.

(** The stack and link registers are copied before the status register only. *)
Definition holds_lr_sp (s : cpu_field + cpu_array * nat) : bool :=
  bool_decide (s = inr (regs, 13%nat) \/ s = inr (regs, 14%nat)).

Lemma not_in_slots (P : cpu_field + cpu_array * nat -> bool) s (ps : list (member * member)) :
  forallb (fun p => negb (P (slot (fst p)))) ps = true -> P s = true -> s ∉ slots ps.
Proof.
  intros H Hs (p & -> & Hin%list_elem_of_In)%list_elem_of_fmap. rewrite forallb_forall in H.
  specialize (H p Hin). cbn beta in H. by rewrite Hs in H.
Qed.

Lemma regs_optional e r : r = 13%nat \/ r = 14%nat -> slot (Marr regs r) ∉ slots (optional_pairs e).
Proof.
  intros Hr. apply (not_in_slots holds_lr_sp); [by_features|destruct Hr as [-> | ->]; vm_compute; reflexivity].
Qed.
Lemma regs_after r : r = 13%nat \/ r = 14%nat -> slot (Marr regs r) ∉ slots (map (fun m => itself m) after_cpsr).
Proof.
  intros Hr. apply (not_in_slots holds_lr_sp); [vm_compute; reflexivity|destruct Hr as [-> | ->]; vm_compute; reflexivity].
Qed.
Lemma banked_before a i : a <> regs -> slot (Marr a i) ∉ slots (map (fun m => itself m) before_cpsr).
Proof.
  intros Ha. apply (not_in_slots (fun s => match s with inr (b, _) => bool_decide (b <> regs) | _ => false end)).
  - vm_compute. reflexivity. - cbn. by apply bool_decide_eq_true_2.
Qed.

(** The mode changes when the status register is read: the bank of the new
    mode is still the one from before the load. *)
Lemma load_other_mode e0 e :
  cpu_wf e0 -> saved_ok e0 -> cpu_wf e ->
  exists e2 e' f f', cpu_save qemu_fopen_wb e0 = Ok f /\
    cpu_load (qemu_fopen_rb (qemu_fclose f)) e CPU_SAVE_VERSION = Ok (0, e', f') /\
    cur_mode e2 = cur_mode e0 /\ elt e' regs 13 = elt e2 regs 13 /\ elt e' regs 14 = elt e2 regs 14 /\
    (bank (cur_mode e0) <> bank (cur_mode e) ->
     arch_reg e2 (cur_mode e0) 13 = elt e banked_r13 (bank (cur_mode e0)) /\
     arch_reg e2 (cur_mode e0) 14 = elt e banked_r14 (bank (cur_mode e0))).
Proof.
  intros H0 Hok He. destruct (saved_copy_ok e0 Hok) as [Cb Co]. pose proof Cb as Cs.
  rewrite base_split in Cs. apply Forall_app in Cs as [C1 [Cm C2]%Forall_cons_1].
  assert (N1 : Mcpsr ∉ map fst (map (fun m => itself m) before_cpsr)) by in_list.
  assert (N2 : Mcpsr ∉ map fst (map (fun m => itself m) after_cpsr)) by in_list.
  destruct (assign_ok _ e0 e H0 He (fun H => False_ind _ (N1 H)) C1) as (e1 & E1 & H1 & Hc1 & K1).
  pose proof H0 as (_ & Hw0 & Hm0). pose proof H1 as (Hs1 & Hw1 & Hm1).
  destruct (cpsr_write_ok (cpsr_read e0) all_ones e1 Hs1 Hw1 Hm1 (cpsr_read_range e0 Hw0) all_ones_ok)
    as (e2 & E2 & Hs2 & Hw2 & Ha2 & _ & Hc2 & _).
  { intros _. by rewrite cpsr_mode. }
  change (ctrue (Z.land all_ones CPSR_M)) with true in Hc2. cbn iota in Hc2. rewrite cpsr_mode in Hc2 by exact Hw0.
  assert (H2 : cpu_wf e2) by (split; [exact Hs2|]; split; [exact Hw2|]; by rewrite Hc2).
  destruct (assign_ok _ e0 e2 H0 H2 (fun H => False_ind _ (N2 H)) C2) as (e3 & E3 & H3 & Hc3 & K3).
  assert (Hb : assign base_pairs e0 e = Ok e3).
  { rewrite base_split, assign_app, E1. cbn [rbind assign member_set member_val].
    change 0xffffffff with all_ones. rewrite E2. exact E3. }
  destruct (assign_ok _ e0 e3 H0 H3 (fun H => False_ind _ (no_cpsr_optional e0 H)) Co) as (e' & E' & _ & _ & K').
  assert (Hf : fld e3 features = fld e0 features).
  { refine (assign_distinct after_cpsr e0 e2 e3 (Mfld features) H0 H2 (fun H => False_ind _ (N2 H)) C2 _ E3 _);
      in_list. }
  destruct (save_load e0 e e3 e' Hok Hb Hf E') as (f & f' & Es & El).
  exists e2, e', f, f'. split; [exact Es|]. split; [exact El|]. split; [exact Hc2|].
  assert (Kr : forall r, r = 13%nat \/ r = 14%nat -> elt e' regs r = elt e2 regs r).
  { intros r Hr. assert (Hwm : member_wf (Marr regs r)) by (cbn; lia).
    etransitivity; [apply (K' _ Hwm), regs_optional; exact Hr|apply (K3 _ Hwm), regs_after; exact Hr]. }
  split; [apply Kr; by left|]. split; [apply Kr; by right|]. intros Hne.
  destruct (Ha2 _ Hm0) as [Hreg _]. rewrite !Hreg by lia.
  unfold arch_reg. cbn [Nat.leb Nat.eqb andb]. rewrite Hc1.
  rewrite (proj2 (Nat.eqb_neq _ _) Hne). pose proof (bank_number_mode _ Hm0) as [_ Hbk].
  split; [apply (K1 (Marr banked_r13 (bank (cur_mode e0))))|apply (K1 (Marr banked_r14 (bank (cur_mode e0))))];
    first [cbn; lia|by apply banked_before].
Qed.

(** A snapshot loaded into a processor that is in another mode, as when a
    freshly started emulator restores one taken in user mode, loses the stack
    pointer and the link register: [cpu_load] reads the registers, then the
    status register, whose write changes the mode and so replaces the two by
    what the processor's own bank held before the load. *)
Theorem cpu_load_stale_stack (e0 e : CPUARMState) :
  cpu_wf e0 -> saved_ok e0 -> cpu_wf e -> bank (cur_mode e0) <> bank (cur_mode e) ->
  exists f f' e', cpu_save qemu_fopen_wb e0 = Ok f /\
    cpu_load (qemu_fopen_rb (qemu_fclose f)) e CPU_SAVE_VERSION = Ok (0, e', f') /\
    elt e' regs 13 = elt e banked_r13 (bank (cur_mode e0)) /\
    elt e' regs 14 = elt e banked_r14 (bank (cur_mode e0)).
Proof.
  intros H0 Hok He Hne. destruct (load_other_mode e0 e H0 Hok He) as (e2 & e' & f & f' & Es & El & Hc & K13 & K14 & Hb).
  destruct (Hb Hne) as [B13 B14]. exists f, f', e'. split; [exact Es|]. split; [exact El|].
  unfold arch_reg in B13, B14. cbn [Nat.leb Nat.eqb andb] in B13, B14. rewrite Hc, Nat.eqb_refl in B13, B14.
  split; congruence.
Qed.

(** ** Concrete states *)

Definition reset_state (name : string) : CPUARMState :=
  match cpu_arm_init name with Ok (Some e) => e | _ => sample_cpu end.

(** The board's processor in its supervisor, and in user mode. *)
Definition board_cpu : CPUARMState :=
  sete banked_r13 5 0x8000 (sete regs 14 0xc0008000 (sete regs 13 0xdeadbeef (reset_state "arm926"))).
Definition user_cpu : CPUARMState := setf uncached_cpsr ARM_CPU_MODE_USR board_cpu.
Definition a8_cpu : CPUARMState := sete vfp_regs 3 1 (sete vfp_regs 19 2 (reset_state "cortex-a8")).

Ltac concrete_cpu := split; [apply sizes_computed; vm_compute; reflexivity|split; in_list].

Lemma board_cpu_wf : cpu_wf board_cpu.
Proof. concrete_cpu. Qed.
Lemma user_cpu_wf : cpu_wf user_cpu.
Proof. concrete_cpu. Qed.
Lemma a8_cpu_wf : cpu_wf a8_cpu.
Proof. concrete_cpu. Qed.

Lemma cpu_snapshot_round_trip_witness :
  exists f f' e', cpu_save qemu_fopen_wb board_cpu = Ok f /\
    cpu_load (qemu_fopen_rb (qemu_fclose f)) (reset_state "arm926") CPU_SAVE_VERSION = Ok (0, e', f') /\
    arch_reg e' ARM_CPU_MODE_SVC 13 = 0xdeadbeef /\ arch_reg e' ARM_CPU_MODE_FIQ 13 = 0x8000.
Proof.
  destruct (cpu_snapshot_round_trip board_cpu (reset_state "arm926")) as (f & f' & e' & Es & El & _ & _ & Ha & _).
  - exact board_cpu_wf.
  - in_list.
  - concrete_cpu.
  - vm_compute. reflexivity.
  - vm_compute. reflexivity.
  - exists f, f', e'. split; [exact Es|]. split; [exact El|].
    split; [etransitivity; [apply (Ha ARM_CPU_MODE_SVC 13%nat); [in_list|lia]|]
           |etransitivity; [apply (Ha ARM_CPU_MODE_FIQ 13%nat); [in_list|lia]|]]; vm_compute; reflexivity.
Defined.

Lemma cpu_load_vfp3_misplaced_witness :
  exists f f' e', cpu_save qemu_fopen_wb a8_cpu = Ok f /\
    cpu_load (qemu_fopen_rb (qemu_fclose f)) (reset_state "cortex-a8") CPU_SAVE_VERSION = Ok (0, e', f') /\
    elt e' vfp_regs 3 = 2 /\ elt e' vfp_regs 19 = 0.
Proof.
  destruct (cpu_load_vfp3_misplaced a8_cpu (reset_state "cortex-a8") 3) as (f & f' & e' & Es & El & H1 & H2).
  - exact a8_cpu_wf.
  - in_list.
  - concrete_cpu.
  - vm_compute. reflexivity.
  - vm_compute. reflexivity.
  - vm_compute. reflexivity.
  - lia.
  - exists f, f', e'. split; [exact Es|]. split; [exact El|]. split; [exact H1|exact H2].
Defined.

Lemma cpu_load_stale_stack_witness :
  exists f f' e', cpu_save qemu_fopen_wb user_cpu = Ok f /\
    cpu_load (qemu_fopen_rb (qemu_fclose f)) (reset_state "arm926") CPU_SAVE_VERSION = Ok (0, e', f') /\
    elt user_cpu regs 13 = 0xdeadbeef /\ elt e' regs 13 = 0.
Proof.
  destruct (cpu_load_stale_stack user_cpu (reset_state "arm926")) as (f & f' & e' & Es & El & H1 & _).
  - exact user_cpu_wf.
  - in_list.
  - concrete_cpu.
  - vm_compute. discriminate.
  - exists f, f', e'. split; [exact Es|]. split; [exact El|]. split; [vm_compute; reflexivity|exact H1].
Defined.
